(* ===== verification/_CoqProject ===== *)
-Q . S2P
Prelude.v
Object.v
CString.v
CFloat.v
Format.v
Environment.v
Tokenizer.v
URL.v
Utils.v
RawTile.v
Cache.v
View.v
IIPImage.v
Watermark.v
TileManager.v
Region.v
TPTImage.v
OPJImage.v
KakaduImage.v
KakaduDecode.v
Transforms.v
ColourTransforms.v
Histogram.v
IIPResponse.v
Compressors.v
Lines.v
FCGX.v
FCGXRecords.v
FCGXWriter.v
FCGXReader.v
FCGXFill.v
FCGXStream.v
FCGXAccept.v
FCGXParams.v
FCGXPrintf.v
FCGXStdio.v
Session.v
Demo.v
Task.v
OBJ.v
FIF.v
JTL.v
CVT.v
TIL.v
Zoomify.v
DeepZoom.v
IIIF.v
Spectra.v
DeepZoomExt.v
Main.v
Total.v
Ends.v
Opens.v
Answer.v
Serving.v
OSAccept.v
OSAsync.v
