(* ===== verification/Prelude.v ===== *)
(** * Verification of the IIPImage server: prelude and guide (root file)

    iipsrv is a FastCGI server for very large images.  A request is a list of
    commands; they choose an image, set up a view of it and ask for tiles, regions,
    descriptions or measurements, which the server cuts out of tiled image files,
    processes, encodes and sends.  This library translates the C++ sources of the
    server (src/src/) and the C sources of the FastCGI library it comes with (src/fcgi/)
    into executable definitions and proves what makes them correct.

    ** How the code is rendered

    A function of the source is a definition of the same name.  Code that may throw
    or whose behaviour the language leaves undefined returns [res] (below): [Ok],
    [Err (Thrown e)] for a C++ exception, [Err (Undefined why)] for an access
    outside a buffer, a division by zero, a null pointer or a conversion out of
    range, [Err OutOfFuel] for a loop that was given too few steps.  A method that
    changes its object returns the new object.  The handlers of commands, which
    change a session, are computations of the monad [Session.M]: a function from a
    session to a result and the session afterwards, so that what was changed before
    an exception stays changed.  Integers are [Z], with the wrap-around of their
    type written where the source computes ([u32], [i32], [u64]); [float] and
    [double] are IEEE formats computed exactly and rounded ([CFloat]).  Strings are
    [String.string] with the positions and exceptions of [std::string] ([CString]);
    memory is a list of bytes with checked accesses, and the content of fresh memory
    is an arbitrary function [junk] ([RawTile]).

    ** The parts, in the order of the files

    - The language and its library: [Prelude] (this file), [Object] (the methods of an
      object that is kept between calls), [CString], [CFloat], [Format] (printf and
      streams).
    - Small classes: [Environment] (Environment.h, the configuration), [Tokenizer]
      (Tokenizer.h), [URL] (URL.h), [Utils] (Utils.cpp).
    - Images and tiles: [RawTile] (RawTile.h), [Cache] (Cache.h), [View] (View.h,
      View.cc), [IIPImage] (IIPImage.h, IIPImage.cc), [Watermark] (Watermark.h,
      Watermark.cc), [TileManager] (TileManager.h, TileManager.cc), with its proofs in
      [Region], and the readers of image files: [TPTImage] (TPTImage.h, TPTImage.cc) for
      TIFF, [OPJImage] (OpenJPEGImage.h, OpenJPEGImage.cc) for JPEG 2000 with OpenJPEG,
      [KakaduImage] (KakaduImage.h, KakaduImage.cc) with Kakadu, its proofs in
      [KakaduDecode].
    - Processing: [Transforms], [ColourTransforms], [Histogram] (Transforms.h,
      Transforms.cc).
    - Answers: [IIPResponse] (IIPResponse.h, IIPResponse.cc), [Compressors]
      (Compressor.h, JPEGCompressor, PNGCompressor), [Lines] (how the two encoders take an
      image line by line), [Session] (the structure of Task.h every handler works on, and
      Writer.h), [Demo] (a small concrete platform).
    - Commands: [Task] (Task.cc: the factory and the commands that set a parameter),
      [OBJ], [FIF], [JTL] (JTL.cc, and JTLS, PTL), [CVT], [TIL], [Zoomify],
      [DeepZoom], [IIIF], [Spectra] (SPECTRA.cc, PFL.cc), [DeepZoomExt]
      (DeepZoomExt.cc, JTLExt.cc).
    - The server: [Main] (Main.cc, Memcached.h), with its proofs in [Total] (requests
      without undefined behaviour), [Ends] (no loop goes on for ever), [Opens] (the TIFF
      reader opens a file or throws) and [Answer] (what is sent, and the server as a whole).
    - The FastCGI library (fcgiapp.c, fcgiapp.h, fastcgi.h): [FCGX], with the format of
      the records in [FCGXRecords], the output streams in [FCGXWriter], the input streams
      in [FCGXReader] (functions of a stream whatever fills it), [FCGXFill] and
      [FCGXStream] (what fills it), requests in [FCGXAccept], parameters and examples in
      [FCGXParams]; its printf in [FCGXPrintf] and its replacement of the standard streams
      in [FCGXStdio] (fcgi_stdio.c), neither of which the server uses.
    - Under the FastCGI library (os_unix.c): [OSAccept], how connections are got, and
      [OSAsync], the table of asynchronous operations, which the server does not use.
    - The program, from connection to connection: [Serving] (the start and the loop of
      Main.cc).

    ** How they interact

    [Main.handle_request] builds a session from what survives between requests (the
    cache of open images, the tile cache, Memcached), finds the request, and runs its
    commands in order.  [FIF] takes the image from the cache of images or opens it and
    leaves it in the session.  The commands that answer ask the tile manager for a tile
    or a region; the tile manager looks in the tile cache, and at a miss asks the image
    for the tile, adds the watermark, crops and encodes it and puts it into the cache.
    [JTL.send] and [CVT.send] then process the pixels as the view says and send them
    through an encoder.  What a command threw is turned into an answer by the [catch]
    clauses, [Main.catch].

    [Serving.main] is all of it on the connections of the web server: [FCGX_Accept_r]
    takes a connection and reads the beginning of the request and its parameters through
    the stream that [FillBuffProc] fills record by record, the loop reads the body of a
    POST through the same stream, and what the handlers write goes through the stream that
    [EmptyBuffProc] empties into records.  A connection is what the next calls of [read]
    return and how much the next calls of [write] take.

    The interfaces are classes: [Codec] is what an image class promises to the tile
    manager ([Region.source_ok] states it, [TPTImage], [OPJImage] and [KakaduImage] fulfil it),
    [Compressor] an encoder, [JPEGLib], [PNGLib], [LibTIFF], [OpenJPEG], [Kakadu], [Vips], [MiniZip]
    and [Memcached] the libraries behind them, [FileSystem] the operating system; [Session.Platform] has
    them all in one place.

    ** What is shown

    - Tiles and regions: whatever requests came before, a region is byte for byte the
      rectangle of the image ([Region.regions_exact]); a tile request answers with a tile
      that shows the image, and out of date tiles are replaced ([Region.tiles_coherent]);
      the readers of TIFF and JPEG 2000 files are such image sources
      ([TPTImage.tiff_regions_exact], [OPJImage.jp2_manager_exact], for files that have
      every level), and an object that keeps its file between requests answers like a new
      one ([TPTImage.tiff_tiles_stateless], for one view; [OPJImage.jp2_requests_exact], for
      the levels in the file; [KakaduDecode.kdu_requests_exact], also for the levels that
      are not in it).
    - The cache is a least-recently-used list with an exact memory counter
      ([Cache.cache_refines_lru]) and never returns a tile of another identity.
    - The library: whatever pieces a connection delivers, also with other records in between
      (those it handles right), the program gets the environment and the input the web server
      sent, and the web server gets the output, as records, and the end ([FCGXAccept.request_answered],
      [FCGXWriter.output_framed], [FCGXParams.getparam_finds]).  Under it, the first client
      that may connect is returned and the others are closed, while no signal comes and no
      lock fails ([OSAccept.accept_first_welcome]), and asynchronous operations that are
      ready are done once ([OSAsync.ready_once]).  Over it, printf writes what the C standard
      says, for widths below 100 ([FCGXPrintf.printf_written]), and a program that uses the stdio package behaves the
      same as a CGI program and as a FastCGI server ([FCGXStdio.same_as_cgi]).
    - The program: every connection gets the answer to its request, and the loop ends when
      there are no more ([Serving.connections_served]).
    - The server: the body of the loop ends for every request, no exception leaves it, an
      answer has a header first, and the requests that need neither the pixels nor the sizes
      of an image are answered without undefined behaviour
      ([Answer.every_request_answered]); what Memcached still has of an answer is sent again,
      the very same bytes ([Answer.memcached_replays]); the cache of images keeps its bound
      in every reachable state ([Answer.reachable_bounded]).
    - The pipelines: the tile that reaches an encoder has a form it accepts
      ([JTL.processed_tile_encodable]); regions are processed as tiles are
      ([CVT.cvt_processes_like_jtl]); both encoders get every line once
      ([CVT.every_line_sent]); the output buffers of the encoders lose nothing.
    - The transforms: algebraic laws of rotations and flips, exactness of resampling,
      bounds and totality of the conversions.
    - The protocols: addresses are read back as what they were made from, the levels and
      tiles that clients count are those of the image, parameters are handled in order and
      the commands that only set one end normally for every argument ([Task.parameters_total]).
    - Paths and configuration: no [..] survives the filter, numbers are in their ranges.
    - Where the code goes wrong, a lemma evaluates the model on an input that shows it
      (the lemmas named in the findings of the manifest).

    ** Bounds and fuel

    Loops over an index run over [range]; a [while] loop runs on fuel, and the fuel is
    shown to be enough where the loop is, and for all handlers of the server together in
    [Ends]: the length of the string for the loops that
    shorten it ([Tokenizer], [URL], [Utils], [FIF], [FCGXPrintf]), the bytes of the input for
    the line of [FCGI_gets] ([FCGXStdio]), 33 steps for the halving of a 32-bit number
    ([View], [OPJImage]), the number of directories of a file ([TPTImage]), the bytes that are left for the loops of the streams ([FCGX]; the calls
    of [FillBuffProc] inside each other are at most two deep), a turn per connection
    ([FCGX], [Serving]), a client that is turned away ([OSAccept]), the descriptors an
    [fd_set] has ([OSAsync]).  Theorems about a loop say that it returns a result.

    ** Not modelled

    The text of the log, timing and the loading of modules (disabled in the source); the
    reading of the command line and the signals that stop the server; OpenMP (loops run in
    order) and a signal that arrives during a request; of the FastCGI library its Windows
    half (os_win32.c).  In [FCGX], [OS_Read], [OS_Write] and [OS_Accept] are what the
    connection says, and [OSAccept] is about [OS_Accept] itself; in [OSAccept] and
    [OSAsync] the system calls are scripts or functions of what was done before, the bytes
    they transfer are left out, and so is [OS_SpawnChild].  The worker threads of Kakadu
    are left out too.  Of libjpeg, libpng, libtiff, OpenJPEG, Kakadu,
    libvips, minizip and libmemcached only what the sources rely on is assumed, as fields
    of the interfaces or hypotheses of the theorems; the text of floating-point numbers in
    [FCGXPrintf] and the files of the C library in [FCGXStdio] are such interfaces too.
    When an exception leaves the tile manager, the model keeps the tile cache as it was
    before the call. *)
From stdpp Require Import base gmap strings list numbers option.
From Stdlib Require Import ZArith Lia.
#[global] Open Scope Z_scope.

Create HintDb iip discriminated.
#[export] Hint Constants Opaque : iip.
Create Rewrite HintDb iip_rw.
#[export] Hint Variables Opaque : iip.

(** ** Results: C++ exceptions and undefined behaviour *)

(** The values the server throws: [throw string(..)], [throw file_error(..)],
    [throw invalid_argument(..)], [throw(304)], the [std::out_of_range]
    that [std::string::substr] and [std::string::erase] throw, the
    [std::bad_alloc] of [operator new], and the exceptions of other libraries. *)
Inductive exn :=
| ExnString (s : string)
| ExnFile (s : string)
| ExnInvalid (s : string)
| ExnCode (n : Z)
| ExnRange
| ExnAlloc
| ExnOther (s : string).

(** A computation that does not return normally: it throws, it performs an
    operation the language leaves undefined (a read outside a buffer, a null
    dereference, a division by zero, an out-of-range conversion), or the fuel
    given to a loop of the model was too small. *)
Inductive fault :=
| Thrown (e : exn)
| Undefined (why : string)
| OutOfFuel.

Inductive res (A : Type) :=
| Ok (a : A)
| Err (f : fault).
Arguments Ok {A} a.
Arguments Err {A} f.

#[global] Instance res_ret : MRet res := fun A a => Ok a.
#[global] Instance res_bind : MBind res :=
  fun A B k m => match m with Ok a => k a | Err f => Err f end.
#[global] Instance res_fmap : FMap res :=
  fun A B g m => match m with Ok a => Ok (g a) | Err f => Err f end.

Definition throw {A} (e : exn) : res A := Err (Thrown e).
Definition undef {A} (why : string) : res A := Err (Undefined why).

Definition is_ok {A} (r : res A) : bool :=
  match r with Ok _ => true | Err _ => false end.

Lemma bind_ok {A B} (m : res A) (k : A -> res B) (b : B) :
  (m ≫= k) = Ok b <-> exists a, m = Ok a /\ k a = Ok b.
Proof.
  unfold mbind, res_bind. destruct m as [a|f]; split.
  - eauto.
  - intros (a' & [= <-] & H). exact H.
  - discriminate.
  - intros (a' & ? & _). discriminate.
Qed.

Lemma bind_err {A B} (f : fault) (k : A -> res B) : (Err f ≫= k) = Err f.
Proof. reflexivity. Qed.

Lemma bind_ret {A B} (a : A) (k : A -> res B) : (Ok a ≫= k) = k a.
Proof. reflexivity. Qed.

Lemma res_bind_assoc {A B C} (m : res A) (f : A -> res B) (k : B -> res C) : (m ≫= f) ≫= k = m ≫= fun a => f a ≫= k.
Proof. destruct m; reflexivity. Qed.

Lemma res_bind_ext {A B} (m : res A) (f g : A -> res B) : (forall a, f a = g a) -> m ≫= f = m ≫= g.
Proof. intros H. destruct m; [apply H|reflexivity]. Qed.

(** Splits hypotheses of the form [bind m k = Ok b]. *)
Ltac inv_res :=
  repeat match goal with
  | H : mret _ = Ok _ |- _ => unfold mret, res_ret in H
  | H : (_ ≫= _) = Ok _ |- _ =>
      apply bind_ok in H;
      let a := fresh "a" in let Ha := fresh "Ha" in
      destruct H as (a & Ha & H)
  | H : Ok _ = Ok _ |- _ => injection H as H; try subst
  | H : Err _ = Ok _ |- _ => discriminate H
  | H : throw _ = Ok _ |- _ => discriminate H
  | H : undef _ = Ok _ |- _ => discriminate H
  end.

(** [Forall P] of an explicit list, element by element. *)
Ltac forall_elements tac := repeat (apply List.Forall_cons; [tac|]); apply List.Forall_nil.

(** ** Machine integers, kept in [Z] with their wrap-around *)

Definition u8 (z : Z) : Z := z mod 2 ^ 8.
Definition u16 (z : Z) : Z := z mod 2 ^ 16.
Definition u32 (z : Z) : Z := z mod 2 ^ 32.
Definition u64 (z : Z) : Z := z mod 2 ^ 64.
Definition i32 (z : Z) : Z := (z + 2 ^ 31) mod 2 ^ 32 - 2 ^ 31.

Definition is_u8 (z : Z) : Prop := 0 <= z < 2 ^ 8.
Definition is_u32 (z : Z) : Prop := 0 <= z < 2 ^ 32.
Definition is_i32 (z : Z) : Prop := - 2 ^ 31 <= z < 2 ^ 31.

(** Division and remainder of unsigned integers. *)
Definition udiv (a b : Z) : res Z := if b =? 0 then undef "division by zero" else Ok (a / b).
Definition umod (a b : Z) : res Z := if b =? 0 then undef "division by zero" else Ok (a mod b).

Lemma udiv_ok a b : b <> 0 -> udiv a b = Ok (a / b).
Proof. intros H. unfold udiv. destruct (Z.eqb_spec b 0); [contradiction|reflexivity]. Qed.

Lemma umod_ok a b : b <> 0 -> umod a b = Ok (a mod b).
Proof. intros H. unfold umod. destruct (Z.eqb_spec b 0); [contradiction|reflexivity]. Qed.

Lemma u8_range z : 0 <= u8 z < 256.
Proof. unfold u8. apply Z.mod_pos_bound. lia. Qed.

Lemma u32_range z : 0 <= u32 z < 2 ^ 32.
Proof. unfold u32. apply Z.mod_pos_bound. lia. Qed.

Lemma i32_range z : - 2 ^ 31 <= i32 z < 2 ^ 31.
Proof.
  unfold i32. pose proof (Z.mod_pos_bound (z + 2 ^ 31) (2 ^ 32) ltac:(lia)). lia.
Qed.

Lemma u8_small z : 0 <= z < 256 -> u8 z = z.
Proof. intros. unfold u8. apply Z.mod_small. lia. Qed.

Lemma u32_small z : 0 <= z < 2 ^ 32 -> u32 z = z.
Proof. intros. unfold u32. apply Z.mod_small. lia. Qed.

Lemma u64_small z : 0 <= z < 2 ^ 64 -> u64 z = z.
Proof. intros. unfold u64. apply Z.mod_small. lia. Qed.

Lemma i32_small z : - 2 ^ 31 <= z < 2 ^ 31 -> i32 z = z.
Proof. intros. unfold i32. rewrite Z.mod_small by lia. lia. Qed.

Lemma u64_add_sub a b : u64 (u64 (a + b) - b) = u64 a.
Proof.
  unfold u64. rewrite Zminus_mod_idemp_l. f_equal. lia.
Qed.

#[export] Hint Rewrite u8_small u32_small u64_small i32_small using lia : iip_rw.
#[export] Hint Resolve u8_range u32_range i32_range : iip.

(** ** Tile counts *)

(** [(w / tw) + (w % tw == 0 ? 0 : 1)], the expression every component uses
    for the number of tiles in one direction. *)
Definition ntiles (w tw : Z) : Z := w / tw + (if w mod tw =? 0 then 0 else 1).

Lemma ntiles_bounds w tw :
  0 < tw -> 0 <= w -> (ntiles w tw - 1) * tw < w \/ w = 0.
Proof.
  intros Ht Hw. unfold ntiles.
  pose proof (Z.div_mod w tw ltac:(lia)). pose proof (Z.mod_pos_bound w tw Ht).
  destruct (Z.eqb_spec (w mod tw) 0); nia.
Qed.

Lemma ntiles_cover w tw : 0 < tw -> 0 <= w -> w <= ntiles w tw * tw.
Proof.
  intros Ht Hw. unfold ntiles.
  pose proof (Z.div_mod w tw ltac:(lia)). pose proof (Z.mod_pos_bound w tw Ht).
  destruct (Z.eqb_spec (w mod tw) 0); nia.
Qed.

Lemma ntiles_nonneg w tw : 0 < tw -> 0 <= w -> 0 <= ntiles w tw.
Proof.
  intros Ht Hw. unfold ntiles. pose proof (Z.div_pos w tw Hw Ht).
  destruct (w mod tw =? 0); lia.
Qed.

Lemma ntiles_pos w tw : 0 < tw -> 0 < w -> 0 < ntiles w tw.
Proof.
  intros Ht Hw. pose proof (ntiles_cover w tw Ht ltac:(lia)). nia.
Qed.

Lemma ntiles_ceil w tw : 0 < tw -> 0 <= w -> ntiles w tw = (w + tw - 1) / tw.
Proof.
  intros Ht Hw. unfold ntiles.
  pose proof (Z.div_mod w tw ltac:(lia)). pose proof (Z.mod_pos_bound w tw Ht).
  destruct (Z.eqb_spec (w mod tw) 0).
  - apply (Z.div_unique_pos _ _ _ (tw - 1)); lia.
  - apply (Z.div_unique_pos _ _ _ (w mod tw - 1)); lia.
Qed.

(** The tile of a pixel column is one of the [ntiles]. *)
Lemma ntiles_col w tw x : 0 < tw -> 0 <= x < w -> 0 <= x / tw < ntiles w tw.
Proof.
  intros Ht Hx. split; [apply Z.div_pos; lia|].
  pose proof (ntiles_cover w tw Ht ltac:(lia)).
  apply Z.div_lt_upper_bound; nia.
Qed.

(** What is left of [w] from the [c]th tile on is its remainder in the last one,
    and at least a tile before. *)
Lemma rest_of_level w tw c : 0 < tw -> 0 < w -> 0 <= c < ntiles w tw ->
  (if (c =? ntiles w tw - 1) && negb (w mod tw =? 0) then w mod tw else tw) = Z.min tw (w - c * tw).
Proof.
  intros Ht Hw Hc. unfold ntiles in *. pose proof (Z.div_mod w tw ltac:(lia)) as E. pose proof (Z.mod_pos_bound w tw Ht) as B.
  destruct (Z.eqb_spec (w mod tw) 0) as [Hz|Hz]; cbn [negb]; rewrite ?andb_false_r, ?andb_true_r.
  - nia.
  - destruct (Z.eqb_spec c (w / tw + 1 - 1)) as [->|Hne]; nia.
Qed.

Lemma factors_small a b m : 0 < a -> 0 < b -> a * b < m -> a < m /\ b < m.
Proof. intros. split; nia. Qed.

Lemma in_tile tw c x : 0 < tw -> 0 <= x < tw -> (c * tw + x) mod tw = x.
Proof. intros. rewrite Z.add_comm, Z.mod_add by lia. apply Z.mod_small. lia. Qed.

Lemma of_tile tw c x : 0 < tw -> 0 <= x < tw -> (c * tw + x) / tw = c.
Proof. intros. rewrite Z.add_comm, Z.div_add, Z.div_small by lia. lia. Qed.

(** ** Buffers: lists read and written by an index that may be out of range *)

Definition rd {A} (l : list A) (i : Z) : res A :=
  if i <? 0 then undef "read before buffer"
  else match l !! Z.to_nat i with
       | Some a => Ok a
       | None => undef "read past buffer"
       end.

Definition wr {A} (l : list A) (i : Z) (a : A) : res (list A) :=
  if (0 <=? i) && (i <? Z.of_nat (length l)) then Ok (<[Z.to_nat i := a]> l)
  else undef "write outside buffer".

Lemma rd_ok {A} (l : list A) i a :
  rd l i = Ok a <-> 0 <= i /\ l !! Z.to_nat i = Some a.
Proof.
  unfold rd. destruct (Z.ltb_spec i 0).
  - split; [discriminate | lia].
  - destruct (l !! Z.to_nat i); split; try discriminate; intuition congruence.
Qed.

Lemma rd_in_range {A} (l : list A) i :
  0 <= i < Z.of_nat (length l) -> exists a, rd l i = Ok a /\ l !! Z.to_nat i = Some a.
Proof.
  intros H. destruct (lookup_lt_is_Some_2 l (Z.to_nat i)) as [a Ha]; [lia|].
  exists a. split; [|exact Ha]. apply rd_ok. split; [lia|exact Ha].
Qed.

Lemma rd_out {A} (l : list A) i :
  i < 0 \/ Z.of_nat (length l) <= i -> exists w, rd l i = Err (Undefined w).
Proof.
  intros H. unfold rd. destruct (Z.ltb_spec i 0); [eauto|].
  rewrite (proj2 (lookup_ge_None l (Z.to_nat i))) by lia. eauto.
Qed.

Lemma rd_ok_range {A} (l : list A) i a : rd l i = Ok a -> 0 <= i < Z.of_nat (length l).
Proof.
  intros [H1 H2]%rd_ok. apply lookup_lt_Some in H2. lia.
Qed.

Lemma wr_ok {A} (l l' : list A) i a :
  wr l i a = Ok l' <-> 0 <= i < Z.of_nat (length l) /\ l' = <[Z.to_nat i := a]> l.
Proof.
  unfold wr.
  destruct (Z.leb_spec 0 i), (Z.ltb_spec i (Z.of_nat (length l))); simpl;
    split; try discriminate; try lia; intuition (try congruence; lia).
Qed.

(** The list [a; a+1; ...; a+n-1]: the values of a [for] loop's index. *)
Fixpoint zseq (a : Z) (n : nat) : list Z := match n with O => [] | S n => a :: zseq (a + 1) n end.

(** [for (i = lo; i < hi; i++)]: the indices visited. *)
Definition range (lo hi : Z) : list Z := zseq lo (Z.to_nat (hi - lo)).

Lemma zseq_seq a n : zseq a n = (fun i => a + Z.of_nat i) <$> seq 0 n.
Proof.
  revert a. induction n as [|n IH]; intros a; [reflexivity|]. cbn [zseq seq fmap list_fmap]. rewrite Z.add_0_r. f_equal.
  rewrite <- seq_shift, <- list_fmap_compose, IH. apply list_fmap_ext. intros i x _. simpl. lia.
Qed.

Lemma length_zseq a n : length (zseq a n) = n.
Proof. rewrite zseq_seq, length_fmap, length_seq. reflexivity. Qed.

Lemma length_range lo hi : length (range lo hi) = Z.to_nat (hi - lo).
Proof. apply length_zseq. Qed.

Lemma zseq_S a n : zseq a (S n) = a :: zseq (a + 1) n.
Proof. reflexivity. Qed.

Lemma lookup_zseq a n i : (i < n)%nat -> zseq a n !! i = Some (a + Z.of_nat i).
Proof.
  intros H. rewrite zseq_seq, list_lookup_fmap, lookup_seq_lt by exact H. reflexivity.
Qed.

Lemma lookup_range_at lo hi x : lo <= x < hi -> range lo hi !! Z.to_nat (x - lo) = Some x.
Proof. intros. unfold range. rewrite lookup_zseq by lia. f_equal. lia. Qed.

Lemma elem_of_range lo hi x : x ∈ range lo hi <-> lo <= x < hi.
Proof.
  unfold range. rewrite zseq_seq, list_elem_of_fmap. split.
  - intros (i & -> & Hi%elem_of_seq). lia.
  - intros H. exists (Z.to_nat (x - lo)). split; [lia|]. apply elem_of_seq. lia.
Qed.

Lemma range_nil lo hi : hi <= lo -> range lo hi = [].
Proof. intros H. unfold range. replace (Z.to_nat (hi - lo)) with 0%nat by lia. reflexivity. Qed.

Lemma range_cons lo hi : lo < hi -> range lo hi = lo :: range (lo + 1) hi.
Proof.
  intros H. unfold range. replace (Z.to_nat (hi - lo)) with (S (Z.to_nat (hi - (lo + 1)))) by lia.
  apply zseq_S.
Qed.

Lemma range_snoc lo hi : lo < hi -> range lo hi = range lo (hi - 1) ++ [hi - 1].
Proof.
  intros H. unfold range. rewrite !zseq_seq.
  replace (Z.to_nat (hi - lo)) with (Z.to_nat (hi - 1 - lo) + 1)%nat by lia.
  rewrite seq_app, fmap_app. f_equal. cbn. f_equal. lia.
Qed.

(** Loops whose body may fail: [mapM] collects one value per index,
    [foldM] threads a state. *)
Fixpoint foldM {A S} (body : A -> S -> res S) (l : list A) (s : S) : res S :=
  match l with
  | [] => Ok s
  | a :: l' => s' ← body a s; foldM body l' s'
  end.

Lemma mapM_ok {A B} (f : A -> res B) (g : A -> B) (l : list A) :
  (forall a, a ∈ l -> f a = Ok (g a)) -> mapM f l = Ok (g <$> l).
Proof.
  induction l as [|a l IH]; intros H; [reflexivity|].
  cbn [mapM]. rewrite (H a) by set_solver. rewrite bind_ret, IH; [reflexivity|].
  intros b Hb. apply H. set_solver.
Qed.

Lemma mapM_ok_inv {A B} (f : A -> res B) (l : list A) (k : list B) :
  mapM f l = Ok k -> Forall2 (fun a b => f a = Ok b) l k.
Proof.
  revert k. induction l as [|a l IH]; intros k H; cbn [mapM] in H.
  - injection H as <-. constructor.
  - inv_res. constructor; [assumption|]. apply IH. assumption.
Qed.

Lemma mapM_length {A B} (f : A -> res B) (l : list A) (k : list B) :
  mapM f l = Ok k -> length k = length l.
Proof. intros H%mapM_ok_inv. symmetry. eapply Forall2_length, H. Qed.

Lemma mapM_fmap {A B C} (f : B -> res C) (g : A -> B) (l : list A) : mapM f (g <$> l) = mapM (fun a => f (g a)) l.
Proof.
  induction l as [|a l IH]; [reflexivity|]. cbn [fmap list_fmap mapM]. destruct (f (g a)); [|reflexivity].
  rewrite !bind_ret, IH. reflexivity.
Qed.

Lemma foldM_app {A S} (body : A -> S -> res S) l1 l2 s :
  foldM body (l1 ++ l2) s = (foldM body l1 s ≫= foldM body l2).
Proof.
  revert s. induction l1 as [|a l1 IH]; intros s; [reflexivity|].
  cbn [app foldM]. destruct (body a s) as [s'|e]; [apply IH | reflexivity].
Qed.

(** An invariant of the loop body is an invariant of the loop. *)
Lemma foldM_inv {A S} (P : S -> Prop) (body : A -> S -> res S) l s s' :
  (forall a t t', a ∈ l -> P t -> body a t = Ok t' -> P t') ->
  P s -> foldM body l s = Ok s' -> P s'.
Proof.
  revert s. induction l as [|a l IH]; intros s Hb Hs H; cbn [foldM] in H.
  - injection H as <-. exact Hs.
  - inv_res. eapply IH; [| |exact H].
    + intros; eapply Hb; eauto. set_solver.
    + eapply Hb; eauto. set_solver.
Qed.

(** A loop whose body succeeds whenever the invariant holds succeeds. *)
Lemma foldM_total {A S} (P : S -> Prop) (body : A -> S -> res S) l s :
  (forall a t, a ∈ l -> P t -> exists t', body a t = Ok t' /\ P t') ->
  P s -> exists s', foldM body l s = Ok s' /\ P s'.
Proof.
  revert s. induction l as [|a l IH]; intros s Hb Hs; [exists s; eauto|].
  cbn [foldM]. destruct (Hb a s ltac:(set_solver) Hs) as (t & Ht & HPt). rewrite Ht, bind_ret.
  apply IH; [|exact HPt]. intros b t' Hbl. apply Hb. set_solver.
Qed.

(** A counting loop with an invariant indexed by the counter. *)
Lemma foldM_range {S} (P : Z -> S -> Prop) (body : Z -> S -> res S) lo hi s :
  lo <= hi -> P lo s ->
  (forall i t, lo <= i < hi -> P i t -> exists t', body i t = Ok t' /\ P (i + 1) t') ->
  exists s', foldM body (range lo hi) s = Ok s' /\ P hi s'.
Proof.
  intros Hle. remember (Z.to_nat (hi - lo)) as n eqn:Hn. revert lo s Hle Hn.
  induction n as [|n IH]; intros lo s Hle Hn HP Hb.
  - assert (lo = hi) as -> by lia. rewrite range_nil by lia. eauto.
  - rewrite range_cons by lia. cbn [foldM]. destruct (Hb lo s ltac:(lia) HP) as (t & Et & Ht).
    rewrite Et, bind_ret. apply IH; [lia|lia|exact Ht|]. intros i u Hi. apply Hb. lia.
Qed.

(** Nested loops as one loop over pairs. *)
Definition pairs {A B} (l : list A) (k : list B) : list (A * B) := l ≫= fun a => (fun b => (a, b)) <$> k.

Lemma elem_of_pairs {A B} (l : list A) (k : list B) a b : (a, b) ∈ pairs l k <-> a ∈ l /\ b ∈ k.
Proof.
  unfold pairs. rewrite list_elem_of_bind. split.
  - intros (a' & H & Ha). apply list_elem_of_fmap in H as (b' & [= -> ->] & Hb). auto.
  - intros [Ha Hb]. exists a. split; [|assumption]. apply list_elem_of_fmap. eauto.
Qed.

Lemma NoDup_pairs {A B} (l : list A) (k : list B) : NoDup l -> NoDup k -> NoDup (pairs l k).
Proof.
  intros Hl Hk. unfold pairs. induction Hl as [|a l Ha Hl IH]; cbn; [constructor|].
  apply list.NoDup_app. split; [|split; [|exact IH]].
  - apply NoDup_fmap_2; [intros ? ? [= ->]; reflexivity|exact Hk].
  - intros [x y] (b & [= -> ->] & _)%list_elem_of_fmap Hin.
    apply Ha. apply (proj1 (elem_of_pairs l k a b) Hin).
Qed.

Lemma foldM_fmap {A B S} (f : A -> B) (body : B -> S -> res S) l s :
  foldM body (f <$> l) s = foldM (fun a => body (f a)) l s.
Proof.
  revert s. induction l as [|a l IH]; intros s; [reflexivity|]. cbn [fmap list_fmap foldM].
  destruct (body (f a) s); [apply IH|reflexivity].
Qed.

Lemma foldM_ext {A S} (f g : A -> S -> res S) l s :
  (forall a t, a ∈ l -> f a t = g a t) -> foldM f l s = foldM g l s.
Proof.
  revert s. induction l as [|a l IH]; intros s H; [reflexivity|]. cbn [foldM].
  rewrite H by set_solver. destruct (g a s); [|reflexivity]. apply IH. intros; apply H; set_solver.
Qed.

Lemma foldM_pairs {A B S} (body : A -> B -> S -> res S) l k s :
  foldM (fun a s => foldM (body a) k s) l s = foldM (fun p => body (fst p) (snd p)) (pairs l k) s.
Proof.
  revert s. induction l as [|a l IH]; intros s; [reflexivity|].
  unfold pairs. cbn [mbind list_bind]. rewrite foldM_app, foldM_fmap. cbn [foldM fst snd].
  destruct (foldM (body a) k s); [apply IH|reflexivity].
Qed.

Lemma NoDup_zseq a n : NoDup (zseq a n).
Proof. rewrite zseq_seq. apply NoDup_fmap_2; [intros x y H; lia|apply NoDup_seq]. Qed.

Lemma NoDup_range lo hi : NoDup (range lo hi).
Proof. apply NoDup_zseq. Qed.

(** A loop whose steps each rewrite one cell, every cell at most once; [P] is
    an invariant of the cells. *)
Lemma foldM_pointwise {A X} (P : X -> Prop) (body : A -> list X -> res (list X)) (idx : A -> nat)
    (g : A -> X -> X) (n : nat) (l : list A) (d : list X) :
  (forall a e, a ∈ l -> length e = n -> Forall P e ->
     exists v, e !! idx a = Some v /\ P (g a v) /\ body a e = Ok (<[idx a := g a v]> e)) ->
  NoDup (idx <$> l) -> length d = n -> Forall P d ->
  exists d', foldM body l d = Ok d' /\ length d' = n /\ Forall P d'
    /\ (forall a, a ∈ l -> d' !! idx a = g a <$> (d !! idx a))
    /\ (forall i, i ∉ idx <$> l -> d' !! i = d !! i).
Proof.
  revert d. induction l as [|a l IH]; intros d Hb Hnd Hd HP.
  - exists d. split_and!; auto. intros a Ha. apply not_elem_of_nil in Ha. contradiction.
  - rewrite fmap_cons in *. apply list.NoDup_cons in Hnd as [Ha Hnd].
    destruct (Hb a d (list_elem_of_here _ _) Hd HP) as (v & Hv & Hg & E).
    cbn [foldM]. rewrite E, bind_ret.
    destruct (IH (<[idx a := g a v]> d)) as (d' & E' & Hl & HP' & Hin & Hout).
    + intros b e Hbl. apply Hb. apply list_elem_of_further, Hbl.
    + exact Hnd.
    + rewrite length_insert. exact Hd.
    + apply Forall_insert; assumption.
    + exists d'. split_and!; [exact E'|exact Hl|exact HP'| |].
      * intros b Hbl. apply elem_of_cons in Hbl as [->|Hbl].
        -- rewrite Hout by exact Ha. rewrite list_lookup_insert_eq, Hv; [reflexivity|].
           apply lookup_lt_Some in Hv. exact Hv.
        -- rewrite Hin by exact Hbl. rewrite list_lookup_insert_ne; [reflexivity|].
           intros Eq. apply Ha. rewrite Eq. apply list_elem_of_fmap. eauto.
      * intros i [Hi1 Hi2]%not_elem_of_cons. rewrite Hout by exact Hi2.
        apply list_lookup_insert_ne. congruence.
Qed.

(** ** Lists *)

Lemma concat_length_const {A} (n : nat) (ls : list (list A)) :
  Forall (fun l => length l = n) ls -> length (mjoin ls) = (length ls * n)%nat.
Proof.
  induction 1 as [|l ls Hl _ IH]; [reflexivity|].
  change (length (l ++ mjoin ls) = (S (length ls) * n)%nat). rewrite length_app, Hl, IH. lia.
Qed.

(** Position [i * n + j] of a concatenation of blocks of length [n] is
    position [j] of block [i]. *)
Lemma lookup_concat_const {A} (n : nat) (ls : list (list A)) (i j : nat) :
  Forall (fun l => length l = n) ls -> (j < n)%nat ->
  mjoin ls !! (i * n + j)%nat = (ls !! i) ≫= (fun l => l !! j).
Proof.
  intros H Hj. revert i. induction H as [|l ls Hl Hls IH]; intros i.
  - destruct i; reflexivity.
  - change (mjoin (l :: ls)) with (l ++ mjoin ls). destruct i as [|i].
    + rewrite lookup_app_l by lia. reflexivity.
    + rewrite lookup_app_r by lia. cbn. rewrite <- IH. f_equal. lia.
Qed.

Lemma filter_all {A} (P : A -> Prop) `{!forall x, Decision (P x)} (l : list A) :
  (forall x, x ∈ l -> P x) -> filter P l = l.
Proof.
  induction l as [|x l IH]; intros Hall; [reflexivity|].
  rewrite filter_cons_True by (apply Hall; set_solver). f_equal.
  apply IH. intros; apply Hall; set_solver.
Qed.

Lemma NoDup_fmap_inj {A B} (f : A -> B) (l : list A) (x y : A) :
  NoDup (f <$> l) -> x ∈ l -> y ∈ l -> f x = f y -> x = y.
Proof.
  intros Hnd (i & Hi)%list_elem_of_lookup (j & Hj)%list_elem_of_lookup E.
  assert (i = j) as <-; [|congruence].
  apply (NoDup_lookup (f <$> l) i j (f x) Hnd); rewrite list_lookup_fmap.
  - rewrite Hi. reflexivity.
  - rewrite Hj, E. reflexivity.
Qed.

(** Two lists of the same length that agree at every position are equal. *)
Lemma list_eq_length {A} (l k : list A) :
  length l = length k ->
  (forall i, (i < length l)%nat -> l !! i = k !! i) -> l = k.
Proof.
  intros Hlen H. apply list_eq. intros i. destruct (decide (i < length l)%nat).
  - apply H. assumption.
  - rewrite !(proj2 (lookup_ge_None _ _)) by lia. reflexivity.
Qed.

Lemma range_app lo mid hi : lo <= mid <= hi -> range lo hi = range lo mid ++ range mid hi.
Proof.
  intros H. apply list_eq_length; [rewrite length_app, !length_range; lia|].
  rewrite length_range. intros i Hi. unfold range at 1. rewrite lookup_zseq by lia.
  destruct (decide (i < Z.to_nat (mid - lo))%nat).
  - rewrite lookup_app_l by (rewrite length_range; lia). unfold range. rewrite lookup_zseq by lia. reflexivity.
  - rewrite lookup_app_r by (rewrite length_range; lia). unfold range. rewrite length_zseq, lookup_zseq by lia.
    f_equal. lia.
Qed.

(** Row-major index arithmetic. *)
Lemma row_col_unique w y x y' x' :
  0 <= x < w -> 0 <= x' < w -> y * w + x = y' * w + x' -> y = y' /\ x = x'.
Proof. intros. assert (y = y') by nia. subst. lia. Qed.

Lemma range_shift a n : range a (a + n) = (fun i => a + i) <$> range 0 n.
Proof.
  apply list_eq_length; [rewrite length_fmap, !length_range; f_equal; lia|].
  rewrite length_range. intros i Hi. rewrite list_lookup_fmap. unfold range. rewrite !lookup_zseq by lia.
  reflexivity.
Qed.

Lemma row_major_bound w h x y : 0 <= x < w -> 0 <= y < h -> 0 <= y * w + x < h * w.
Proof. intros. nia. Qed.

#[export] Hint Rewrite @length_zseq @length_range @length_fmap @length_app : iip_rw.
