(* ===== verification/Object.v ===== *)
(** * Methods of an object

    The monad of the image classes: a method runs on the object and leaves it, also
    when an exception is thrown, as it was at that point. *)
From stdpp Require Import base strings.
From S2P Require Import Prelude.

Definition Obj (O A : Type) : Type := O -> res A * O.
#[global] Instance Obj_ret {O} : MRet (Obj O) := fun A a o => (Ok a, o).
#[global] Instance Obj_bind {O} : MBind (Obj O) :=
  fun A B k m o => match m o with (Ok a, o') => k a o' | (Err f, o') => (Err f, o') end.

Definition obj_lift {O A} (r : res A) : Obj O A := fun o => (r, o).
Definition obj_get {O A} (f : O -> A) : Obj O A := fun o => (Ok (f o), o).
Definition obj_set {O} (f : O -> O) : Obj O unit := fun o => (Ok tt, f o).
Definition obj_when {O} (b : bool) (m : Obj O unit) : Obj O unit := if b then m else mret tt.
Definition file_error {O A} (s : string) : Obj O A := obj_lift (throw (ExnFile s)).

(** [*p] where [p] is a pointer the object has. *)
Definition obj_deref {O A} (f : O -> option A) (name : string) : Obj O A :=
  fun o => (match f o with Some a => Ok a | None => undef name end, o).

(** What a method leaves when it returns. *)
Definition obj_run {O A B} (m : Obj O A) (f : A -> O -> B) (o : O) : res B :=
  match m o with (Ok a, o) => Ok (f a o) | (Err e, _) => Err e end.

Section Steps.
Context {O : Type}.

Lemma obj_bind_val {A B} (m : Obj O A) (k : A -> Obj O B) o a o' : m o = (Ok a, o') -> (m ≫= k) o = k a o'.
Proof. unfold mbind, Obj_bind. intros ->. reflexivity. Qed.

Lemma obj_bind_err {A B} (m : Obj O A) (k : A -> Obj O B) o f o' : m o = (Err f, o') -> (m ≫= k) o = (Err f, o').
Proof. unfold mbind, Obj_bind. intros ->. reflexivity. Qed.

(** Steps whose outcome is plain. *)
Lemma obj_get_bind {A B} (f : O -> A) (k : A -> Obj O B) o : (obj_get f ≫= k) o = k (f o) o.
Proof. reflexivity. Qed.

Lemma obj_set_bind {B} f (k : unit -> Obj O B) o : (obj_set f ≫= k) o = k tt (f o).
Proof. reflexivity. Qed.

Lemma obj_lift_bind {A B} (a : A) (k : A -> Obj O B) o : (obj_lift (Ok a) ≫= k) o = k a o.
Proof. reflexivity. Qed.

Lemma obj_ret_bind {A B} (a : A) (k : A -> Obj O B) o : ((mret a : Obj O A) ≫= k) o = k a o.
Proof. reflexivity. Qed.

Lemma obj_deref_bind {A B} (f : O -> option A) name a (k : A -> Obj O B) o :
  f o = Some a -> (obj_deref f name ≫= k) o = k a o.
Proof. unfold mbind, Obj_bind, obj_deref. intros ->. reflexivity. Qed.
End Steps.
