(* ===== verification/CString.v ===== *)
(** * The parts of [std::string], [<cstdlib>] and [<cctype>] the server uses

    Strings are [String.string] (8-bit characters).  Positions are [size_t]
    values in [Z]; [npos] is [2^64 - 1].  [substr] and [erase] throw
    [std::out_of_range] when the position is past the end.  [atoi] is glibc's:
    the value saturates at the bounds of [long] and is then converted to
    [int].  [snprintf] is decimal printing cut at the size of the buffer. *)
From stdpp Require Import base strings list numbers pretty.
From Stdlib Require Import ZArith Lia Ascii.
From S2P Require Import Prelude.
#[local] Open Scope string_scope.
#[local] Open Scope list_scope.
#[local] Open Scope Z_scope.

Definition npos : Z := 2 ^ 64 - 1.
Definition slen (s : string) : Z := Z.of_nat (String.length s).

Fixpoint stake (n : nat) (s : string) : string :=
  match n, s with
  | S n', String c s' => String c (stake n' s')
  | _, _ => ""
  end.

Fixpoint sdrop (n : nat) (s : string) : string :=
  match n, s with
  | S n', String _ s' => sdrop n' s'
  | O, _ => s
  | S _, "" => ""
  end.

(** [std::string::find]: first position at which [pat] occurs. *)
Fixpoint sfind (pat s : string) : option nat :=
  if String.prefix pat s then Some 0%nat
  else match s with
       | "" => None
       | String _ s' => S <$> sfind pat s'
       end.

(** [std::string::rfind]: last position at which [pat] occurs. *)
Fixpoint srfind (pat s : string) : option nat :=
  match s with
  | "" => if String.prefix pat "" then Some 0%nat else None
  | String _ s' =>
      match srfind pat s' with
      | Some i => Some (S i)
      | None => if String.prefix pat s then Some 0%nat else None
      end
  end.

(** First and last position of a character that satisfies [p]. *)
Fixpoint sfind_if (p : ascii -> bool) (s : string) : option nat :=
  match s with
  | "" => None
  | String c s' => if p c then Some 0%nat else S <$> sfind_if p s'
  end.

Fixpoint srfind_if (p : ascii -> bool) (s : string) : option nat :=
  match s with
  | "" => None
  | String c s' =>
      match srfind_if p s' with
      | Some i => Some (S i)
      | None => if p c then Some 0%nat else None
      end
  end.

Fixpoint smem (c : ascii) (s : string) : bool :=
  match s with
  | "" => false
  | String d s' => Ascii.eqb c d || smem c s'
  end.

Definition pos_of (o : option nat) : Z :=
  match o with Some i => Z.of_nat i | None => npos end.

Definition find (pat s : string) : Z := pos_of (sfind pat s).
Definition find_from (pat s : string) (pos : Z) : Z :=
  if slen s <? pos then npos
  else match sfind pat (sdrop (Z.to_nat pos) s) with
       | Some i => pos + Z.of_nat i
       | None => npos
       end.
Definition rfind (pat s : string) : Z := pos_of (srfind pat s).
Definition find_first_of (set s : string) : Z := pos_of (sfind_if (fun c => smem c set) s).
Definition find_last_of (set s : string) : Z := pos_of (srfind_if (fun c => smem c set) s).
Definition find_first_not_of (set s : string) : Z :=
  pos_of (sfind_if (fun c => negb (smem c set)) s).
Definition find_last_not_of (set s : string) : Z :=
  pos_of (srfind_if (fun c => negb (smem c set)) s).

(** [find_last_of (set, pos)]: only positions up to [pos] are considered. *)
Definition find_last_of_upto (set s : string) (pos : Z) : Z :=
  find_last_of set (stake (Z.to_nat (Z.min (pos + 1) (slen s))) s).

Definition substr (s : string) (pos n : Z) : res string :=
  if slen s <? pos then throw ExnRange
  else Ok (stake (Z.to_nat (Z.min n (slen s))) (sdrop (Z.to_nat pos) s)).

Definition erase (s : string) (pos n : Z) : res string :=
  if slen s <? pos then throw ExnRange
  else Ok (stake (Z.to_nat pos) s +:+ sdrop (Z.to_nat (Z.min (pos + n) (slen s))) s).

Definition empty (s : string) : bool := match s with "" => true | _ => false end.

(** ** Characters *)

Definition code (c : ascii) : Z := Z.of_N (N_of_ascii c).
Definition chr (z : Z) : ascii := ascii_of_N (Z.to_N (u8 z)).

Definition isdigit (c : ascii) : bool := (48 <=? code c) && (code c <=? 57).
Definition isxdigit (c : ascii) : bool :=
  isdigit c || ((65 <=? code c) && (code c <=? 70)) || ((97 <=? code c) && (code c <=? 102)).
Definition isspace (c : ascii) : bool := (code c =? 32) || ((9 <=? code c) && (code c <=? 13)).

(** [::tolower] in the "C" locale, and [transform (begin, end, begin, tolower)]. *)
Definition tolower_c (c : ascii) : ascii :=
  if (65 <=? code c) && (code c <=? 90) then chr (code c + 32) else c.

Fixpoint smap (f : ascii -> ascii) (s : string) : string :=
  match s with "" => "" | String c s' => String (f c) (smap f s') end.

Definition tolower (s : string) : string := smap tolower_c s.

(** ** Numbers *)

Fixpoint skip_space (s : string) : string :=
  match s with
  | String c s' => if isspace c then skip_space s' else s
  | "" => ""
  end.

(** Reads decimal digits after [acc]. *)
Fixpoint digits_value (acc : Z) (s : string) : Z :=
  match s with
  | String c s' => if isdigit c then digits_value (acc * 10 + (code c - 48)) s' else acc
  | "" => acc
  end.

(** [strtol (s, NULL, 10)] with a 64-bit [long]. *)
Definition strtol (s : string) : Z :=
  let s := skip_space s in
  let v :=
    match s with
    | String "-" s' => - digits_value 0 s'
    | String "+" s' => digits_value 0 s'
    | _ => digits_value 0 s
    end in
  Z.max (- 2 ^ 63) (Z.min v (2 ^ 63 - 1)).

Definition atoi (s : string) : Z := i32 (strtol s).

(** ["%d"] and ["%03d"]. *)
Definition dec (z : Z) : string := pretty z.

Definition dec3 (z : Z) : string :=
  let d := pretty (Z.abs z) in
  if z <? 0 then "-" +:+ (if (String.length d <? 2)%nat then "0" +:+ d else d)
  else match String.length d with
       | 1%nat => "00" +:+ d
       | 2%nat => "0" +:+ d
       | _ => d
       end.

(** [snprintf (buf, n, ..)]: at most [n - 1] characters and the terminator. *)
Definition snprintf (n : Z) (s : string) : string := stake (Z.to_nat (n - 1)) s.

(** What a C string function sees of a [std::string]: the part before the
    first NUL. *)
Fixpoint c_str (s : string) : string :=
  match s with
  | "" => ""
  | String c s' => if Ascii.eqb c "000" then "" else String c (c_str s')
  end.

(** ** Lemmas *)

Lemma slen_nonneg s : 0 <= slen s.
Proof. unfold slen. lia. Qed.

Lemma scons_app c (s t : string) : String c s +:+ t = String c (s +:+ t).
Proof. reflexivity. Qed.

Lemma snil_app (s : string) : "" +:+ s = s.
Proof. reflexivity. Qed.

Lemma slength_app (s t : string) : String.length (s +:+ t) = (String.length s + String.length t)%nat.
Proof. induction s as [|c s IH]; [reflexivity|]. rewrite ?scons_app. cbn [String.length]. rewrite ?scons_app, IH. reflexivity. Qed.

Lemma slen_app s t : slen (s +:+ t) = slen s + slen t.
Proof. unfold slen. rewrite slength_app. lia. Qed.

Lemma slen_cons c s : slen (String c s) = 1 + slen s.
Proof. unfold slen. cbn [String.length]. lia. Qed.

Lemma sapp_nil_r (s : string) : s +:+ "" = s.
Proof. induction s as [|c s IH]; [reflexivity|]. rewrite ?scons_app. cbn [String.length]. rewrite ?scons_app, IH. reflexivity. Qed.

Lemma sapp_assoc (a b c : string) : (a +:+ b) +:+ c = a +:+ b +:+ c.
Proof. induction a as [|x a IH]; [reflexivity|]. rewrite ?scons_app. cbn [String.length]. rewrite ?scons_app, IH. reflexivity. Qed.

Lemma sapp_inv_l (a b c : string) : a +:+ b = a +:+ c -> b = c.
Proof. induction a as [|x a IH]; [auto|]. rewrite !scons_app. intros [= H]. auto. Qed.

Lemma stake_sdrop n s : stake n s +:+ sdrop n s = s.
Proof.
  revert s. induction n as [|n IH]; intros [|c s]; try reflexivity.
  cbn. rewrite scons_app. f_equal. apply IH.
Qed.

Lemma stake_all n s : (String.length s <= n)%nat -> stake n s = s.
Proof.
  revert s. induction n as [|n IH]; intros [|c s]; cbn; intros H; try reflexivity; try lia.
  f_equal. apply IH. lia.
Qed.

Lemma sdrop_0 s : sdrop 0 s = s.
Proof. destruct s; reflexivity. Qed.

Lemma sdrop_all n s : (String.length s <= n)%nat -> sdrop n s = "".
Proof.
  revert s. induction n as [|n IH]; intros [|c s]; cbn; intros H; try reflexivity; try lia.
  apply IH. lia.
Qed.

Lemma length_stake n s : String.length (stake n s) = Nat.min n (String.length s).
Proof.
  revert s. induction n as [|n IH]; intros [|c s]; cbn; try reflexivity. rewrite IH. reflexivity.
Qed.

Lemma length_sdrop n s : String.length (sdrop n s) = (String.length s - n)%nat.
Proof.
  revert s. induction n as [|n IH]; intros [|c s]; cbn; try reflexivity. rewrite IH. lia.
Qed.

Lemma stake_app_exact a b : stake (String.length a) (a +:+ b) = a.
Proof. induction a as [|c a IH]; [destruct b; reflexivity|]. rewrite scons_app. cbn [String.length stake]. f_equal. apply IH. Qed.

Lemma sdrop_app_exact a b : sdrop (String.length a) (a +:+ b) = b.
Proof. induction a as [|c a IH]; [apply sdrop_0|]. rewrite scons_app. cbn. apply IH. Qed.

Lemma stake_slen a b : stake (Z.to_nat (slen a)) (a +:+ b) = a.
Proof. unfold slen. rewrite Nat2Z.id. apply stake_app_exact. Qed.

Lemma sdrop_slen a b : sdrop (Z.to_nat (slen a)) (a +:+ b) = b.
Proof. unfold slen. rewrite Nat2Z.id. apply sdrop_app_exact. Qed.

Lemma sdrop_sdrop n m s : sdrop n (sdrop m s) = sdrop (m + n) s.
Proof.
  revert s. induction m as [|m IH]; intros s; [now rewrite sdrop_0|].
  destruct s as [|c s]; cbn; [destruct n; reflexivity | apply IH].
Qed.

Lemma prefix_cons c d pat s :
  String.prefix (String c pat) (String d s) = if ascii_dec c d then String.prefix pat s else false.
Proof. reflexivity. Qed.

Lemma prefix_app pat s : String.prefix pat s = true <-> exists t, s = pat +:+ t.
Proof.
  revert s. induction pat as [|c pat IH]; intros s.
  - split; [exists s; reflexivity | destruct s; reflexivity].
  - destruct s as [|d s].
    + split; [discriminate | intros (t & Ht); rewrite scons_app in Ht; discriminate].
    + rewrite prefix_cons. destruct (ascii_dec c d) as [->|Hne].
      * rewrite IH. split; intros (t & Ht); exists t; rewrite scons_app in *; congruence.
      * split; [discriminate | intros (t & Ht); rewrite scons_app in Ht; congruence].
Qed.

(** What [find] returns: [pat] occurs there and at no earlier position. *)
Lemma sfind_Some pat s i :
  sfind pat s = Some i ->
  s = stake i s +:+ pat +:+ sdrop (i + String.length pat) s /\
  (i + String.length pat <= String.length s)%nat.
Proof.
  revert i. induction s as [|c s IH]; intros i H; cbn [sfind] in H.
  - destruct (String.prefix pat "") eqn:E; [|discriminate]. injection H as <-.
    apply prefix_app in E as (t & E). destruct pat; [|discriminate]. split; reflexivity.
  - destruct (String.prefix pat (String c s)) eqn:E.
    + injection H as <-. apply prefix_app in E as (t & E). rewrite E.
      cbn [stake]. rewrite Nat.add_0_l, sdrop_app_exact, slength_app. split; [reflexivity|lia].
    + destruct (sfind pat s) as [j|] eqn:F; [|discriminate]. injection H as <-.
      destruct (IH j eq_refl) as [IH1 IH2]. split; [|cbn; lia].
      cbn. rewrite scons_app. f_equal. exact IH1.
Qed.

Lemma sfind_lt pat s i j :
  sfind pat s = Some i -> (j < i)%nat -> String.prefix pat (sdrop j s) = false.
Proof.
  revert i j. induction s as [|c s IH]; intros i j H Hj; cbn [sfind] in H.
  - destruct (String.prefix pat ""); [injection H as <-; lia | discriminate].
  - destruct (String.prefix pat (String c s)) eqn:E; [injection H as <-; lia|].
    destruct (sfind pat s) as [k|] eqn:F; [|discriminate]. injection H as <-.
    destruct j as [|j]; [exact E|]. cbn. apply (IH k); [reflexivity | lia].
Qed.

Lemma sfind_None pat s : sfind pat s = None <-> forall a b, s <> a +:+ pat +:+ b.
Proof.
  split.
  - revert pat. induction s as [|c s IH]; intros pat H a b E; cbn [sfind] in H.
    + destruct (String.prefix pat "") eqn:P; [discriminate|].
      destruct a, pat; try discriminate.
    + destruct (String.prefix pat (String c s)) eqn:P; [discriminate|].
      destruct (sfind pat s) eqn:F; [discriminate|].
      destruct a as [|d a].
      * rewrite E in P. cbn in P. rewrite (proj2 (prefix_app pat _)) in P; [discriminate|].
        exists b. reflexivity.
      * rewrite scons_app in E. injection E as -> E. eapply IH; eauto.
  - intros H. destruct (sfind pat s) as [i|] eqn:E; [|reflexivity].
    destruct (sfind_Some _ _ _ E) as [E' _]. exfalso. eapply H, E'.
Qed.

Lemma find_npos_iff pat s :
  slen s < npos -> find pat s = npos <-> sfind pat s = None.
Proof.
  intros Hs. unfold find, pos_of. destruct (sfind pat s) as [i|] eqn:E; [|tauto].
  apply sfind_Some in E as [_ E]. unfold slen in Hs. split; [lia|discriminate].
Qed.

Lemma code_range c : 0 <= code c < 256.
Proof.
  unfold code. pose proof (N_ascii_bounded c). lia.
Qed.

Lemma chr_code c : chr (code c) = c.
Proof.
  unfold chr, code. rewrite u8_small by apply code_range.
  rewrite N2Z.id. apply ascii_N_embedding.
Qed.

Lemma code_chr z : 0 <= z < 256 -> code (chr z) = z.
Proof.
  intros H. unfold chr, code. rewrite u8_small by lia.
  rewrite N_ascii_embedding by lia. lia.
Qed.

Lemma code_inj c d : code c = code d -> c = d.
Proof. intros H. rewrite <- (chr_code c), H. apply chr_code. Qed.

Lemma smem_app c s t : smem c (s +:+ t) = smem c s || smem c t.
Proof. induction s as [|d s IH]; [reflexivity|]. rewrite scons_app. cbn [smem]. rewrite IH. apply orb_assoc. Qed.

Lemma substr_ok s pos n :
  0 <= pos <= slen s ->
  substr s pos n = Ok (stake (Z.to_nat (Z.min n (slen s))) (sdrop (Z.to_nat pos) s)).
Proof. intros H. unfold substr. destruct (Z.ltb_spec (slen s) pos); [lia|reflexivity]. Qed.

Lemma tolower_length s : String.length (tolower s) = String.length s.
Proof. unfold tolower. induction s as [|c s IH]; cbn; congruence. Qed.

(** *** Decimal printing *)

Lemma pretty_N_go_chars c x s :
  smem c (pretty_N_go x s) = true -> isdigit c = true \/ smem c s = true.
Proof.
  revert s. induction (N.lt_wf_0 x) as [x _ IH]; intros s.
  destruct (decide (x = 0)%N) as [->|Hx]; [auto|].
  rewrite pretty_N_go_step by lia. intros H. apply IH in H; [|apply N.div_lt; lia].
  destruct H as [H|H]; [auto|]. cbn [smem] in H. apply orb_prop in H as [H|H]; [left|auto].
  apply Ascii.eqb_eq in H. subst c. unfold pretty_N_char. repeat case_match; reflexivity.
Qed.

Lemma dec_chars_N c (x : N) : smem c (pretty x) = true -> isdigit c = true.
Proof.
  unfold pretty, pretty_N. destruct (decide _).
  - cbn [smem]. intros H. apply orb_prop in H as [->%Ascii.eqb_eq|H]; [reflexivity|discriminate].
  - intros H. apply pretty_N_go_chars in H as [H|H]; [exact H|discriminate].
Qed.

Lemma dec_chars c z : smem c (dec z) = true -> isdigit c = true \/ c = "-"%char.
Proof.
  pose proof (dec_chars_N c) as HN. unfold dec. destruct z as [|p|p].
  - cbn. intros H. apply orb_prop in H as [->%Ascii.eqb_eq|H]; [left; reflexivity|discriminate].
  - intros H. left. apply (HN (Npos p)), H.
  - change (pretty (Z.neg p)) with (String "-" (@pretty N _ (Npos p))). cbn [smem].
    intros H. apply orb_prop in H as [->%Ascii.eqb_eq|H]; [right; reflexivity|left].
    apply (HN (Npos p)), H.
Qed.

Lemma pretty_N_go_length k x s :
  (x < 10 ^ N.of_nat k)%N -> (String.length (pretty_N_go x s) <= k + String.length s)%nat.
Proof.
  revert x s. induction k as [|k IH]; intros x s H.
  - assert (x = 0)%N as -> by (cbn in H; lia). rewrite pretty_N_go_0. lia.
  - destruct (decide (x = 0)%N) as [->|Hx]; [rewrite pretty_N_go_0; lia|].
    rewrite pretty_N_go_step by lia. etransitivity; [apply IH|cbn [String.length]; lia].
    rewrite Nat2N.inj_succ, N.pow_succ_r' in H. apply N.Div0.div_lt_upper_bound. lia.
Qed.

(** A number of at most [k + 1] digits, and a sign. *)
Lemma dec_length k z :
  Z.abs z < 10 ^ Z.of_nat (S k) -> (String.length (dec z) <= S (S k))%nat.
Proof.
  assert (HN : forall x, (x < 10 ^ N.of_nat (S k))%N -> (String.length (@pretty N _ x) <= S k)%nat).
  { intros x Hx. unfold pretty, pretty_N. destruct (decide _); [cbn; lia|].
    etransitivity; [apply pretty_N_go_length, Hx|cbn [String.length]; lia]. }
  assert (HZ : forall p, Z.pos p < 10 ^ Z.of_nat (S k) -> (Npos p < 10 ^ N.of_nat (S k))%N).
  { intros p H. apply N2Z.inj_lt. rewrite N2Z.inj_pow, nat_N_Z. exact H. }
  unfold dec. intros H. destruct z as [|p|p].
  - cbn. lia.
  - etransitivity; [apply (HN (Npos p)), HZ, H|lia].
  - change (pretty (Z.neg p)) with (String "-" (@pretty N _ (Npos p))). cbn [String.length].
    apply le_n_S, (HN (Npos p)), HZ, H.
Qed.

Lemma dec_length_i32 z : is_i32 z -> slen (dec z) <= 11.
Proof.
  intros H. unfold slen, is_i32 in *. pose proof (dec_length 9 z ltac:(lia)). lia.
Qed.

Lemma dec_inj x y : dec x = dec y -> x = y.
Proof. unfold dec. intros H. apply (inj pretty), H. Qed.

Lemma digits_value_go x s : digits_value 0 (pretty_N_go x s) = digits_value (Z.of_N x) s.
Proof.
  revert s. induction (N.lt_wf_0 x) as [x _ IH]; intros s.
  destruct (decide (x = 0)%N) as [->|Hx]; [reflexivity|].
  rewrite pretty_N_go_step, IH by (try apply N.div_lt; lia). cbn [digits_value].
  assert (Hc : isdigit (pretty_N_char (x mod 10)) = true /\
               code (pretty_N_char (x mod 10)) - 48 = Z.of_N (x mod 10)).
  { pose proof (N.mod_lt x 10 ltac:(lia)) as Hlt. revert Hlt. generalize (x mod 10)%N as m.
    intros m Hm. assert (m = 0 \/ m = 1 \/ m = 2 \/ m = 3 \/ m = 4 \/ m = 5 \/ m = 6 \/ m = 7
                         \/ m = 8 \/ m = 9)%N as Hd by lia.
    repeat destruct Hd as [->|Hd]; [..|subst m]; split; reflexivity. }
  destruct Hc as [-> ->]. f_equal. rewrite N2Z.inj_div, N2Z.inj_mod.
  pose proof (Z.div_mod (Z.of_N x) 10). lia.
Qed.

(** Reading back a printed number that a non-digit follows. *)
Definition no_digit (s : string) : Prop :=
  match s with String c _ => isdigit c = false | "" => True end.

Lemma digits_value_stop v s : no_digit s -> digits_value v s = v.
Proof. destruct s as [|c s]; [reflexivity|]. cbn. intros ->. reflexivity. Qed.

Lemma pretty_N_go_app x s t : pretty_N_go x s +:+ t = pretty_N_go x (s +:+ t).
Proof.
  revert s. induction (N.lt_wf_0 x) as [x _ IH]; intros s.
  destruct (decide (x = 0)%N) as [->|Hx]; [reflexivity|].
  rewrite !(pretty_N_go_step x) by lia. rewrite IH by (apply N.div_lt; lia). reflexivity.
Qed.

Lemma digits_value_dec x s :
  no_digit s -> digits_value 0 (@pretty N _ x +:+ s) = Z.of_N x.
Proof.
  intros Hs. unfold pretty, pretty_N. destruct (decide (x = 0)%N) as [->|].
  - rewrite scons_app, snil_app. cbn [digits_value]. apply (digits_value_stop 0 s Hs).
  - rewrite pretty_N_go_app, digits_value_go, snil_app. apply digits_value_stop, Hs.
Qed.

Lemma dec_first_digit x s : exists c t, @pretty N _ x +:+ s = String c t /\ isdigit c = true.
Proof.
  unfold pretty, pretty_N. destruct (decide (x = 0)%N) as [->|Hx].
  - exists "0"%char, s. split; reflexivity.
  - rewrite pretty_N_go_app, snil_app. revert s Hx.
    induction (N.lt_wf_0 x) as [x _ IH]; intros s Hx. rewrite pretty_N_go_step by lia.
    destruct (decide (x / 10 = 0)%N) as [E|E].
    + rewrite E, pretty_N_go_0. eexists _, s. split; [reflexivity|].
      unfold pretty_N_char. repeat case_match; reflexivity.
    + apply IH; [apply N.div_lt; lia|exact E].
Qed.

Lemma strtol_dec z s : - 2 ^ 63 <= z < 2 ^ 63 -> no_digit s -> strtol (dec z +:+ s) = z.
Proof.
  intros Hz Hs. unfold strtol, dec.
  assert (HN : forall x, exists c t, @pretty N _ x +:+ s = String c t /\ isdigit c = true /\
            skip_space (String c t) = String c t /\ c <> "-"%char /\ c <> "+"%char).
  { intros x. destruct (dec_first_digit x s) as (c & t & E & Hc). exists c, t. repeat split; auto.
    - cbn [skip_space]. unfold isspace, isdigit in *.
      destruct (Z.eqb_spec (code c) 32); [rewrite e in Hc; discriminate|].
      destruct (Z.leb_spec (code c) 13); [|rewrite andb_false_r; reflexivity].
      destruct (Z.leb_spec 48 (code c)); [lia|discriminate].
    - intros ->. discriminate Hc.
    - intros ->. discriminate Hc. }
  assert (HP : forall x, match skip_space (@pretty N _ x +:+ s) with
     | String "-" s' => - digits_value 0 s' | String "+" s' => digits_value 0 s'
     | _ => digits_value 0 (skip_space (@pretty N _ x +:+ s)) end = Z.of_N x).
  { intros x. rewrite <- (digits_value_dec x s Hs).
    destruct (HN x) as (c & t & -> & _ & -> & H1 & H2).
    destruct c as [[] [] [] [] [] [] [] []]; try reflexivity; contradiction. }
  destruct z as [|p|p].
  - change (pretty 0 +:+ s) with (@pretty N _ 0%N +:+ s). rewrite HP. cbn. lia.
  - change (pretty (Z.pos p) +:+ s) with (@pretty N _ (Npos p) +:+ s). rewrite HP. cbn [Z.of_N]. lia.
  - change (pretty (Z.neg p) +:+ s) with (String "-" (@pretty N _ (Npos p) +:+ s)).
    change (skip_space (String "-" ?t)) with (String "-" t). cbv iota beta.
    rewrite digits_value_dec by exact Hs. cbn [Z.of_N]. lia.
Qed.

Lemma atoi_dec z s : is_i32 z -> no_digit s -> atoi (dec z +:+ s) = z.
Proof.
  intros Hz Hs. unfold atoi, is_i32 in *. rewrite strtol_dec by (assumption || lia).
  apply i32_small. exact Hz.
Qed.

(** *** Joining with a separator *)

(** What follows the last separator is determined by the whole string. *)
Lemma join_last c a b x y :
  smem c x = false -> smem c y = false ->
  a +:+ String c x = b +:+ String c y -> a = b /\ x = y.
Proof.
  intros Hx Hy. revert b. induction a as [|d a IH]; intros [|e b] H.
  - rewrite !snil_app in H. injection H as ->. auto.
  - rewrite snil_app, scons_app in H. injection H as -> ->.
    rewrite smem_app in Hx. cbn [smem] in Hx. rewrite Ascii.eqb_refl, orb_true_r in Hx. discriminate.
  - rewrite snil_app, scons_app in H. injection H as -> <-.
    rewrite smem_app in Hy. cbn [smem] in Hy. rewrite Ascii.eqb_refl, orb_true_r in Hy. discriminate.
  - rewrite !scons_app in H. injection H as -> H. apply IH in H as [-> ->]. auto.
Qed.

#[export] Hint Rewrite slen_app slen_cons length_stake length_sdrop slength_app tolower_length : iip_rw.

(** *** Searching backwards *)

Lemma srfind_if_last p a c b : p c = true -> (forall d, smem d b = true -> p d = false) ->
  srfind_if p (a +:+ String c b) = Some (String.length a).
Proof.
  intros Hc Hb. assert (Hn : srfind_if p b = None).
  { clear -Hb. induction b as [|d b IH]; [reflexivity|]. cbn [srfind_if]. rewrite IH.
    - rewrite Hb; [reflexivity|]. cbn [smem]. rewrite Ascii.eqb_refl. reflexivity.
    - intros e He. apply Hb. cbn [smem]. rewrite He. apply orb_true_r. }
  induction a as [|d a IH]; rewrite ?scons_app, ?snil_app; cbn [srfind_if String.length].
  - rewrite Hn, Hc. reflexivity.
  - rewrite IH. reflexivity.
Qed.

Lemma find_last_of_at c a b : smem c b = false -> find_last_of (String c "") (a +:+ String c b) = slen a.
Proof.
  intros Hb. unfold find_last_of. rewrite (srfind_if_last _ a c b); [reflexivity| |].
  - cbn [smem]. rewrite Ascii.eqb_refl. reflexivity.
  - intros d Hd. cbn [smem]. rewrite orb_false_r. apply Ascii.eqb_neq. intros ->. congruence.
Qed.

Lemma sfind_if_first p a c b : p c = true -> (forall d, smem d a = true -> p d = false) ->
  sfind_if p (a +:+ String c b) = Some (String.length a).
Proof.
  intros Hc. induction a as [|d a IH]; intros Ha; rewrite ?scons_app, ?snil_app; cbn [sfind_if String.length].
  - rewrite Hc. reflexivity.
  - rewrite Ha by (cbn [smem]; rewrite Ascii.eqb_refl; reflexivity). rewrite IH; [reflexivity|].
    intros e He. apply Ha. cbn [smem]. rewrite He. apply orb_true_r.
Qed.

Lemma find_first_of_at c a b : smem c a = false -> find_first_of (String c "") (a +:+ String c b) = slen a.
Proof.
  intros Ha. unfold find_first_of. rewrite (sfind_if_first _ a c b); [reflexivity| |].
  - cbn [smem]. rewrite Ascii.eqb_refl. reflexivity.
  - intros d Hd. cbn [smem]. rewrite orb_false_r. apply Ascii.eqb_neq. intros ->. congruence.
Qed.

(** A text that does not have one of the characters of the pattern. *)
Lemma srfind_None_char c pat s : smem c pat = true -> smem c s = false -> srfind pat s = None.
Proof.
  intros Hp. assert (Hpre : forall s, smem c s = false -> String.prefix pat s = false).
  { intros t Ht. destruct (String.prefix pat t) eqn:E; [|reflexivity]. apply prefix_app in E as (u & ->).
    rewrite smem_app, Hp in Ht. discriminate Ht. }
  induction s as [|d s IH]; intros Hs; cbn [srfind].
  - rewrite Hpre by reflexivity. reflexivity.
  - rewrite IH, Hpre; [reflexivity|exact Hs|]. cbn [smem] in Hs. apply orb_false_elim in Hs as [_ Hs]. exact Hs.
Qed.

Lemma srfind_app pat a s i : srfind pat s = Some i -> srfind pat (a +:+ s) = Some (String.length a + i)%nat.
Proof.
  intros H. induction a as [|c a IH]; rewrite ?scons_app, ?snil_app; [exact H|]. cbn [srfind String.length]. rewrite IH. reflexivity.
Qed.

(** The middle of a string. *)
Lemma substr_mid a b c n : n = slen b -> substr (a +:+ b +:+ c) (slen a) n = Ok b.
Proof.
  intros ->. pose proof (slen_nonneg a). pose proof (slen_nonneg b). pose proof (slen_nonneg c).
  rewrite substr_ok by (rewrite !slen_app; lia). rewrite sdrop_slen, Z.min_l, stake_slen by (rewrite !slen_app; lia). reflexivity.
Qed.

Lemma substr_end a b n : slen b <= n -> substr (a +:+ b) (slen a) n = Ok b.
Proof.
  intros Hn. pose proof (slen_nonneg a). pose proof (slen_nonneg b). rewrite substr_ok by (rewrite slen_app; lia).
  rewrite sdrop_slen, stake_all; [reflexivity|]. rewrite slen_app. unfold slen in *. lia.
Qed.

Lemma substr_start a b n : n = slen a -> substr (a +:+ b) 0 n = Ok a.
Proof. intros Hn. apply (substr_mid "" a b n Hn). Qed.
