(* ===== verification/CFloat.v ===== *)
(** * [float] and [double]

    The binary floating-point types of the source as executable definitions:
    binary32 for [float], binary64 for [double], round to nearest, ties to even,
    each operation rounded to its own format (FLT_EVAL_METHOD 0).  A value is a
    signed zero, an infinity, a NaN or [m * 2 ^ e] with [0 < m < 2 ^ prec].
    Every operation is the exact rational result followed by [round_pos].

    A conversion to an integer type whose truncated value does not fit, or of
    a NaN or an infinity, is undefined in C++: it is [undef] here. *)
From stdpp Require Import base strings list numbers.
From Stdlib Require Import ZArith Lia Ascii.
From S2P Require Import Prelude CString.
#[local] Open Scope string_scope.
#[local] Open Scope list_scope.
#[local] Open Scope Z_scope.

Record fmt := Fmt { prec : Z; emax : Z }.
Definition b32 : fmt := Fmt 24 128.
Definition b64 : fmt := Fmt 53 1024.
Definition emin (f : fmt) : Z := 3 - emax f - prec f.

Inductive float :=
| FZero (s : bool)
| FInf (s : bool)
| FNaN
| FFin (s : bool) (m : Z) (e : Z).

(** [z * 2 ^ e] when [e >= 0], [z] otherwise: a fraction [n / d] times [2 ^ e]
    is [sc n e / sc d (- e)]. *)
Definition sc (z e : Z) : Z := z * 2 ^ Z.max e 0.

(** [n / d] to the nearest integer, ties to even. *)
Definition rne (n d : Z) : Z :=
  let q := n / d in
  match 2 * (n mod d) ?= d with
  | Lt => q
  | Gt => q + 1
  | Eq => if Z.even q then q else q + 1
  end.

(** The [k] with [2 ^ (k - 1) <= n / d < 2 ^ k]. *)
Definition mag (n d : Z) : Z :=
  let l := Z.log2 n - Z.log2 d in
  if sc n (- l) <? sc d l then l else l + 1.

(** The float nearest to [n / d], both positive, with the sign [s]. *)
Definition round_pos (f : fmt) (s : bool) (n d : Z) : float :=
  let e := Z.max (mag n d - prec f) (emin f) in
  let q := rne (sc n (- e)) (sc d e) in
  if q =? 0 then FZero s
  else
    let '(q, e) := if q =? 2 ^ prec f then (2 ^ (prec f - 1), e + 1) else (q, e) in
    if emax f - prec f <? e then FInf s else FFin s q e.

Definition round_rat (f : fmt) (n d : Z) : float :=
  if n =? 0 then FZero false else round_pos f (n <? 0) (Z.abs n) d.

(** Signed numerator and denominator of a finite value. *)
Definition num (x : float) : Z :=
  match x with FFin s m e => if s then - sc m e else sc m e | _ => 0 end.
Definition den (x : float) : Z :=
  match x with FFin _ _ e => sc 1 (- e) | _ => 1 end.

Definition fsign (x : float) : bool :=
  match x with FZero s | FInf s | FFin s _ _ => s | FNaN => false end.

Definition finite (x : float) : bool :=
  match x with FZero _ | FFin _ _ _ => true | _ => false end.

(** ** Conversions from integers and between formats *)

Definition of_Z (f : fmt) (z : Z) : float := round_rat f z 1.

Definition fcvt (f : fmt) (x : float) : float :=
  match x with FFin s _ _ => round_pos f s (Z.abs (num x)) (den x) | _ => x end.

(** ** Arithmetic *)

Definition fneg (x : float) : float :=
  match x with
  | FZero s => FZero (negb s) | FInf s => FInf (negb s) | FNaN => FNaN
  | FFin s m e => FFin (negb s) m e
  end.

Definition fadd (f : fmt) (x y : float) : float :=
  match x, y with
  | FNaN, _ | _, FNaN => FNaN
  | FInf s, FInf t => if Bool.eqb s t then x else FNaN
  | FInf _, _ => x
  | _, FInf _ => y
  | FZero s, FZero t => FZero (s && t)
  | FZero _, _ => y
  | _, FZero _ => x
  | _, _ => round_rat f (num x * den y + num y * den x) (den x * den y)
  end.

Definition fsub (f : fmt) (x y : float) : float := fadd f x (fneg y).

Definition fmul (f : fmt) (x y : float) : float :=
  match x, y with
  | FNaN, _ | _, FNaN => FNaN
  | FInf _, FZero _ | FZero _, FInf _ => FNaN
  | FInf s, _ | _, FInf s => FInf (xorb (fsign x) (fsign y))
  | FZero _, _ | _, FZero _ => FZero (xorb (fsign x) (fsign y))
  | FFin s _ _, FFin t _ _ =>
      round_pos f (xorb s t) (Z.abs (num x * num y)) (den x * den y)
  end.

Definition fdiv (f : fmt) (x y : float) : float :=
  match x, y with
  | FNaN, _ | _, FNaN => FNaN
  | FInf _, FInf _ | FZero _, FZero _ => FNaN
  | FInf s, _ => FInf (xorb (fsign x) (fsign y))
  | _, FInf _ => FZero (xorb (fsign x) (fsign y))
  | FZero _, _ => FZero (xorb (fsign x) (fsign y))
  | _, FZero _ => FInf (xorb (fsign x) (fsign y))
  | FFin s _ _, FFin t _ _ =>
      round_pos f (xorb s t) (Z.abs (num x * den y)) (Z.abs (num y * den x))
  end.

(** ** Comparison: false when an operand is a NaN *)

Definition fcompare (x y : float) : option comparison :=
  match x, y with
  | FNaN, _ | _, FNaN => None
  | FInf s, FInf t => Some (if s then (if t then Eq else Lt) else (if t then Gt else Eq))
  | FInf s, _ => Some (if s then Lt else Gt)
  | _, FInf t => Some (if t then Gt else Lt)
  | _, _ => Some (num x * den y ?= num y * den x)
  end.

Definition flt (x y : float) : bool := match fcompare x y with Some Lt => true | _ => false end.
Definition fgt (x y : float) : bool := flt y x.
Definition feq (x y : float) : bool := match fcompare x y with Some Eq => true | _ => false end.
Definition fle (x y : float) : bool :=
  match fcompare x y with Some Lt | Some Eq => true | _ => false end.
Definition fge (x y : float) : bool := fle y x.
Definition fne (x y : float) : bool := negb (feq x y).

(** ** [floor], [ceil], [round], [trunc] and conversions to integers *)

Definition floorZ (x : float) : Z := num x / den x.
Definition ceilZ (x : float) : Z := - (- num x / den x).
Definition truncZ (x : float) : Z := Z.quot (num x) (den x).
Definition roundZ (x : float) : Z :=
  let z := (2 * Z.abs (num x) + den x) / (2 * den x) in if num x <? 0 then - z else z.

Definition integral (f : fmt) (op : float -> Z) (x : float) : float :=
  match x with
  | FFin s _ _ => if op x =? 0 then FZero s else of_Z f (op x)
  | _ => x
  end.
Definition ffloor (f : fmt) := integral f floorZ.
Definition fceil (f : fmt) := integral f ceilZ.
Definition fround (f : fmt) := integral f roundZ.

Definition to_int (lo hi : Z) (x : float) : res Z :=
  if finite x then
    let z := truncZ x in
    if (lo <=? z) && (z <? hi) then Ok z else undef "float to integer out of range"
  else undef "NaN or infinity to integer".
Definition to_u8 := to_int 0 (2 ^ 8).
Definition to_u16 := to_int 0 (2 ^ 16).
Definition to_u32 := to_int 0 (2 ^ 32).
Definition to_u64 := to_int 0 (2 ^ 64).
Definition to_i32 := to_int (- 2 ^ 31) (2 ^ 31).

(** [sqrt]: [z = isqrt (m * 2 ^ k)] has more than [prec f + 2] bits, and an odd
    last bit stands for a remainder. *)
Definition fsqrt (f : fmt) (x : float) : float :=
  match x with
  | FFin false m e =>
      let k := 2 * prec f + 4 + Z.modulo e 2 in
      let n := m * 2 ^ k in
      let z := Z.sqrt n in
      let z := if z * z =? n then 2 * z else 2 * z + 1 in
      let h := (e - k) / 2 - 1 in
      round_pos f false (sc z h) (sc 1 (- h))
  | FFin true _ _ | FInf true => FNaN
  | _ => x
  end.

(** ** [atof]: [strtod] in the "C" locale *)

(** Digits before and after the point: value, digits seen after the point,
    whether there was one digit at all, and the rest. *)
Fixpoint scan_digits (base : Z) (dig : ascii -> option Z) (acc cnt : Z) (s : string) : Z * Z * string :=
  match s with
  | String c s' =>
      match dig c with
      | Some d => scan_digits base dig (acc * base + d) (cnt + 1) s'
      | None => (acc, cnt, s)
      end
  | "" => (acc, cnt, "")
  end.

Definition dec_digit (c : ascii) : option Z := if isdigit c then Some (code c - 48) else None.
Definition hex_digit (c : ascii) : option Z :=
  if isdigit c then Some (code c - 48)
  else if isxdigit c then Some (code (tolower_c c) - 87) else None.

(** The exponent after [e] or [p], when it is well formed; capped well beyond
    the range of [double]. *)
Definition scan_exp (marker : ascii) (s : string) : Z :=
  match s with
  | String m s1 =>
      if Ascii.eqb (tolower_c m) marker then
        let '(neg, s2) := match s1 with
                          | String "-" t => (true, t) | String "+" t => (false, t) | _ => (false, s1)
                          end in
        let '(v, cnt, _) := scan_digits 10 dec_digit 0 0 s2 in
        if cnt =? 0 then 0 else if neg then - v else v
      else 0
  | "" => 0
  end.

(** Mantissa with an optional point, and what follows it. *)
Definition scan_mantissa (base : Z) (dig : ascii -> option Z) (s : string) : Z * Z * Z * string :=
  let '(v, c1, s1) := scan_digits base dig 0 0 s in
  match s1 with
  | String "." s2 =>
      let '(v2, c2, s3) := scan_digits base dig v 0 s2 in (v2, c1 + c2, c2, s3)
  | _ => (v, c1, 0, s1)
  end.

(** [v * 10 ^ x] with the exponent held to a range in which the result is
    already zero or infinite. *)
Definition dec_value (s : bool) (v x : Z) : float :=
  if v =? 0 then FZero s
  else
    let l := Z.log2 v / 3 in
    if x + l <? -400 then FZero s
    else if 400 <? x then FInf s
    else if 0 <=? x then round_pos b64 s (v * 10 ^ x) 1 else round_pos b64 s v (10 ^ (- x)).

Definition hex_value (s : bool) (v x : Z) : float :=
  if v =? 0 then FZero s
  else if x + Z.log2 v <? -1200 then FZero s
  else if 1200 <? x then FInf s
  else round_pos b64 s (sc v x) (sc 1 (- x)).

Definition atof (s : string) : float :=
  let s := skip_space s in
  let '(neg, s) := match s with
                   | String "-" t => (true, t) | String "+" t => (false, t) | _ => (false, s)
                   end in
  let low := tolower s in
  if String.prefix "inf" low then FInf neg
  else if String.prefix "nan" low then FNaN
  else
    let '(hv, hc, hf, hr) := scan_mantissa 16 hex_digit (sdrop 2 s) in
    if String.prefix "0x" low && negb (hc =? 0) then
      hex_value neg hv (scan_exp "p" hr - 4 * hf)
    else
      let '(v, c, fr, r) := scan_mantissa 10 dec_digit s in
      if c =? 0 then FZero false else dec_value neg v (scan_exp "e" r - fr).

(** [(float) atof (s)]. *)
Definition atof32 (s : string) : float := fcvt b32 (atof s).

(** ** Lemmas *)

Lemma sc_pos z e : 0 < z -> 0 < sc z e.
Proof. intros. unfold sc. apply Z.mul_pos_pos; [assumption|]. apply Z.pow_pos_nonneg; lia. Qed.

Lemma sc_nonneg_exp z e : 0 <= e -> sc z e = z * 2 ^ e.
Proof. intros. unfold sc. rewrite Z.max_l by assumption. reflexivity. Qed.

Lemma sc_neg_exp z e : e <= 0 -> sc z e = z.
Proof. intros. unfold sc. rewrite Z.max_r by assumption. change (2 ^ 0) with 1. lia. Qed.

Lemma den_pos x : 0 < den x.
Proof. destruct x; cbn; try lia. apply sc_pos. lia. Qed.

Lemma rne_spec n d : 0 < d -> 2 * Z.abs (rne n d * d - n) <= d.
Proof.
  intros Hd. unfold rne.
  pose proof (Z.div_mod n d ltac:(lia)). pose proof (Z.mod_pos_bound n d Hd).
  destruct (Z.compare_spec (2 * (n mod d)) d); [destruct (Z.even (n / d))|..]; nia.
Qed.

(** An integer above (below) the fraction is above (below) the rounded value,
    and one at a distance of more than a half is strictly so. *)
Lemma rne_le n d k : 0 < d -> n <= k * d -> rne n d <= k.
Proof. intros Hd Hn. pose proof (rne_spec n d Hd). nia. Qed.

Lemma rne_ge n d k : 0 < d -> k * d <= n -> k <= rne n d.
Proof. intros Hd Hn. pose proof (rne_spec n d Hd). nia. Qed.

Lemma rne_gt n d k : 0 < d -> (2 * k + 1) * d < 2 * n -> k < rne n d.
Proof. intros Hd Hn. pose proof (rne_spec n d Hd). nia. Qed.

Lemma rne_lt n d k : 0 < d -> 2 * n < (2 * k - 1) * d -> rne n d < k.
Proof. intros Hd Hn. pose proof (rne_spec n d Hd). nia. Qed.

Lemma sc_log2 z : 0 < z -> 2 ^ Z.log2 z <= z < 2 ^ (Z.log2 z + 1).
Proof. intros H. pose proof (Z.log2_spec z H). rewrite <- Z.add_1_r in *. assumption. Qed.

Lemma mag_spec n d :
  0 < n -> 0 < d ->
  sc d (mag n d - 1) <= sc n (- (mag n d - 1)) /\ sc n (- mag n d) < sc d (mag n d).
Proof.
  intros Hn Hd. pose proof (sc_log2 n Hn) as [N1 N2]. pose proof (sc_log2 d Hd) as [D1 D2].
  pose proof (Z.log2_nonneg n) as LN. pose proof (Z.log2_nonneg d) as LD.
  rewrite Z.pow_add_r in N2, D2 by lia. unfold mag.
  set (a := Z.log2 n) in *. set (b := Z.log2 d) in *.
  assert (HP : 2 ^ a * 2 ^ Z.max (- (a - b)) 0 = 2 ^ b * 2 ^ Z.max (a - b) 0)
    by (rewrite <- !Z.pow_add_r by lia; f_equal; lia).
  assert (Hpn : 0 < 2 ^ Z.max (- (a - b)) 0) by (apply Z.pow_pos_nonneg; lia).
  assert (Hpd : 0 < 2 ^ Z.max (a - b) 0) by (apply Z.pow_pos_nonneg; lia).
  destruct (Z.ltb_spec (sc n (- (a - b))) (sc d (a - b))) as [Hlt|Hge].
  - split; [|exact Hlt]. unfold sc. destruct (Z.le_gt_cases (a - b) 0).
    + rewrite (Z.max_r (a - b - 1)) by lia.
      replace (Z.max (- (a - b - 1)) 0) with (Z.max (- (a - b)) 0 + 1) by lia.
      rewrite (Z.max_r (a - b)) in * by lia. rewrite Z.pow_add_r by lia. nia.
    + rewrite (Z.max_r (- (a - b - 1))) by lia. rewrite (Z.max_r (- (a - b))) in * by lia.
      replace (Z.max (a - b) 0) with (Z.max (a - b - 1) 0 + 1) in * by lia.
      rewrite Z.pow_add_r in * by lia. nia.
  - replace (a - b + 1 - 1) with (a - b) by lia. split; [exact Hge|].
    unfold sc. destruct (Z.le_gt_cases 0 (a - b)).
    + rewrite (Z.max_r (- (a - b + 1))) by lia.
      replace (Z.max (a - b + 1) 0) with (Z.max (a - b) 0 + 1) by lia.
      rewrite (Z.max_r (- (a - b))) in * by lia. rewrite Z.pow_add_r by lia. nia.
    + rewrite (Z.max_r (a - b + 1)) by lia. rewrite (Z.max_r (a - b)) in * by lia.
      replace (Z.max (- (a - b)) 0) with (Z.max (- (a - b + 1)) 0 + 1) in * by lia.
      rewrite Z.pow_add_r in * by lia. nia.
Qed.

(** A finite value: a zero, or a positive mantissa. *)
Definition okf (x : float) : Prop :=
  match x with FZero _ => True | FFin _ m _ => 0 < m | _ => False end.

Lemma okf_finite x : okf x -> finite x = true.
Proof. destruct x; cbn; tauto. Qed.

(** *** Integers are barriers for rounding *)

Definition fmt_ok (f : fmt) : Prop := 1 < prec f /\ prec f + 3 <= emax f.

Lemma b32_ok : fmt_ok b32.
Proof. split; cbn; lia. Qed.
Lemma b64_ok : fmt_ok b64.
Proof. split; cbn; lia. Qed.

(** A fraction below [2 ^ p] has magnitude at most [p]. *)
Lemma mag_le n d p : 0 < n -> 0 < d -> 0 <= p -> n < d * 2 ^ p -> mag n d <= p.
Proof.
  intros Hn Hd Hp H. destruct (mag_spec n d Hn Hd) as [M _].
  destruct (Z.le_gt_cases (mag n d) p) as [|G]; [assumption|exfalso].
  rewrite sc_nonneg_exp, sc_neg_exp in M by lia.
  assert (2 ^ p <= 2 ^ (mag n d - 1)) by (apply Z.pow_le_mono_r; lia). nia.
Qed.

Lemma mag_ge n d p : 0 < n -> 0 < d -> p < mag n d -> 0 <= p -> d * 2 ^ p <= n.
Proof.
  intros Hn Hd H Hp. destruct (mag_spec n d Hn Hd) as [M _].
  rewrite sc_nonneg_exp, sc_neg_exp in M by lia.
  assert (2 ^ p <= 2 ^ (mag n d - 1)) by (apply Z.pow_le_mono_r; lia). nia.
Qed.

(** The shape of a rounded fraction below [2 ^ prec]: the rounded numerator
    over a power of two. *)
Lemma round_pos_small f s n d :
  fmt_ok f -> 0 < n -> 0 < d -> n < d * 2 ^ prec f ->
  exists e x, round_pos f s n d = x /\ okf x /\ fsign x = s /\ 0 <= e /\
    e = Z.min (prec f - mag n d) (- emin f) /\
    Z.abs (num x) * 2 ^ e = rne (n * 2 ^ e) d * den x /\ num x = (if s then - Z.abs (num x) else Z.abs (num x)).
Proof.
  intros [F1 F2] Hn Hd H.
  pose proof (mag_le n d (prec f) Hn Hd ltac:(lia) H) as HM.
  assert (Hemin : emin f <= - prec f) by (unfold emin; lia).
  assert (Hq : rne (n * 2 ^ (Z.min (prec f - mag n d) (- emin f))) d = 0 \/
               0 < rne (n * 2 ^ (Z.min (prec f - mag n d) (- emin f))) d).
  { assert (0 <= rne (n * 2 ^ (Z.min (prec f - mag n d) (- emin f))) d); [|lia].
    apply rne_ge; [assumption|]. assert (0 < 2 ^ Z.min (prec f - mag n d) (- emin f))
      by (apply Z.pow_pos_nonneg; lia). nia. }
  exists (Z.min (prec f - mag n d) (- emin f)). eexists. split; [reflexivity|].
  unfold round_pos. set (e := Z.max (mag n d - prec f) (emin f)).
  assert (He : e <= 0) by lia.
  replace (Z.min (prec f - mag n d) (- emin f)) with (- e) in * by lia.
  rewrite sc_nonneg_exp, (sc_neg_exp d e) by lia.
  set (q := rne (n * 2 ^ (- e)) d) in *.
  assert (H2 : 2 ^ prec f = 2 * 2 ^ (prec f - 1)) by (rewrite <- Z.pow_succ_r by lia; f_equal; lia).
  assert (H3 : 0 < 2 ^ (prec f - 1)) by (apply Z.pow_pos_nonneg; lia).
  assert (Hq1 : 0 <= q) by (unfold q; apply rne_ge; [assumption|]; nia).
  destruct (Z.eqb_spec q 0) as [->|Hq0].
  { cbn. repeat split; try lia. destruct s; reflexivity. }
  destruct (Z.eqb_spec q (2 ^ prec f)) as [Hqp|Hqp].
  - destruct (Z.ltb_spec (emax f - prec f) (e + 1)); [lia|].
    cbn [okf fsign num den].
    destruct (Z.eq_dec e 0) as [He0|He0].
    + rewrite He0. cbn [Z.opp Z.add]. rewrite (sc_nonneg_exp _ 1), (sc_neg_exp 1) by lia.
      repeat split; try lia; destruct s; lia.
    + rewrite (sc_neg_exp _ (e + 1)), (sc_nonneg_exp 1) by lia.
      assert (H4 : 2 ^ (- e) = 2 * 2 ^ (- (e + 1))) by (rewrite <- Z.pow_succ_r by lia; f_equal; lia).
      repeat split; try lia; destruct s; try lia; rewrite ?Z.abs_opp, Z.abs_eq, Hqp by lia; nia.
  - destruct (Z.ltb_spec (emax f - prec f) e); [lia|].
    cbn [okf fsign num den]. rewrite (sc_neg_exp _ e), (sc_nonneg_exp 1) by lia.
    repeat split; try lia; destruct s; lia.
Qed.

(** [x] is finite and [lo <= x <= hi]. *)
Definition within (x : float) (lo hi : Z) : Prop :=
  okf x /\ lo * den x <= num x <= hi * den x.

Lemma round_pos_le f n d k :
  fmt_ok f -> 0 < n -> 0 < d -> 0 <= k < 2 ^ prec f -> n <= k * d ->
  within (round_pos f false n d) 0 k.
Proof.
  intros F Hn Hd Hk H. destruct (round_pos_small f false n d F Hn Hd ltac:(nia))
    as (e & x & -> & Hf & _ & He & _ & E & S).
  assert (P : 0 < 2 ^ e) by (apply Z.pow_pos_nonneg; lia).
  pose proof (rne_le (n * 2 ^ e) d (k * 2 ^ e) Hd ltac:(nia)). pose proof (den_pos x).
  split; [exact Hf|]. nia.
Qed.

Lemma round_pos_ge f n d k :
  fmt_ok f -> 0 < n -> 0 < d -> n < d * 2 ^ prec f -> k * d <= n ->
  k * den (round_pos f false n d) <= num (round_pos f false n d).
Proof.
  intros F Hn Hd Hk H. destruct (round_pos_small f false n d F Hn Hd ltac:(nia))
    as (e & x & -> & Hf & _ & He & _ & E & S).
  assert (P : 0 < 2 ^ e) by (apply Z.pow_pos_nonneg; lia).
  pose proof (rne_ge (n * 2 ^ e) d (k * 2 ^ e) Hd ltac:(nia)). pose proof (den_pos x). nia.
Qed.

(** The quotient of two integers of at most [prec] bits is rounded at a
    precision finer than its distance to an integer it differs from. *)
Lemma quotient_precision f n d a b :
  fmt_ok f -> 0 < n -> 0 < d -> 0 < a < 2 ^ prec f -> 0 < b < 2 ^ prec f -> n * b = a * d ->
  b < 2 * 2 ^ Z.min (prec f - mag n d) (- emin f).
Proof.
  intros [F1 F2] Hn Hd Ha Hb Hab.
  destruct (Z.le_gt_cases (prec f - mag n d) (- emin f)) as [Hle|Hgt].
  - rewrite Z.min_l by lia. destruct (Z.le_gt_cases (mag n d) 0) as [Hm|Hm].
    + assert (2 ^ prec f <= 2 ^ (prec f - mag n d)) by (apply Z.pow_le_mono_r; lia). lia.
    + pose proof (mag_ge n d (mag n d - 1) Hn Hd ltac:(lia) ltac:(lia)) as M.
      assert (mag n d <= prec f) by (apply mag_le; nia).
      assert (H2 : 2 ^ prec f = 2 ^ (mag n d - 1) * (2 * 2 ^ (prec f - mag n d))).
      { rewrite <- Z.pow_succ_r, <- Z.pow_add_r by lia. f_equal. lia. }
      assert (0 < 2 ^ (mag n d - 1)) by (apply Z.pow_pos_nonneg; lia).
      assert (2 ^ (mag n d - 1) * b <= a); nia.
  - rewrite Z.min_r by lia.
    assert (2 ^ prec f <= 2 ^ (- emin f)) by (apply Z.pow_le_mono_r; unfold emin; lia). lia.
Qed.

(** So it is not rounded down to the integer below it, nor up to the integer
    above a half more. *)
Lemma round_pos_gt f n d k a b :
  fmt_ok f -> 0 < n -> 0 < d -> 0 < a < 2 ^ prec f -> 0 < b < 2 ^ prec f ->
  n * b = a * d -> k * b < a ->
  k * den (round_pos f false n d) < num (round_pos f false n d).
Proof.
  intros F Hn Hd Ha Hb Hab Hk.
  destruct (round_pos_small f false n d F Hn Hd ltac:(nia)) as (e & x & -> & Hf & _ & He & He' & E & S).
  pose proof (quotient_precision f n d a b F Hn Hd Ha Hb Hab) as Hbe. rewrite <- He' in Hbe.
  assert (P : 0 < 2 ^ e) by (apply Z.pow_pos_nonneg; lia).
  assert (G : k * 2 ^ e < rne (n * 2 ^ e) d).
  { apply rne_gt; [assumption|].
    assert ((2 * (k * 2 ^ e) + 1) * b < 2 * (a * 2 ^ e)) by nia.
    apply (Z.mul_lt_mono_pos_r b); [lia|].
    replace (2 * (n * 2 ^ e) * b) with (2 * (a * 2 ^ e) * d)
      by (replace (2 * (n * 2 ^ e) * b) with (n * b * (2 * 2 ^ e)) by ring; rewrite Hab; ring).
    nia. }
  pose proof (den_pos x). nia.
Qed.

Lemma round_pos_lt f n d k a b :
  fmt_ok f -> 0 < n -> 0 < d -> 0 < a < 2 ^ prec f -> 0 < b < 2 ^ prec f ->
  n * b = a * d -> a < k * b ->
  num (round_pos f false n d) < k * den (round_pos f false n d).
Proof.
  intros F Hn Hd Ha Hb Hab Hk.
  destruct (round_pos_small f false n d F Hn Hd ltac:(nia)) as (e & x & -> & Hf & _ & He & He' & E & S).
  pose proof (quotient_precision f n d a b F Hn Hd Ha Hb Hab) as Hbe. rewrite <- He' in Hbe.
  assert (P : 0 < 2 ^ e) by (apply Z.pow_pos_nonneg; lia).
  assert (G : rne (n * 2 ^ e) d < k * 2 ^ e).
  { apply rne_lt; [assumption|].
    assert (2 * (a * 2 ^ e) < (2 * (k * 2 ^ e) - 1) * b) by nia.
    apply (Z.mul_lt_mono_pos_r b); [lia|].
    replace (2 * (n * 2 ^ e) * b) with (2 * (a * 2 ^ e) * d)
      by (replace (2 * (n * 2 ^ e) * b) with (n * b * (2 * 2 ^ e)) by ring; rewrite Hab; ring).
    nia. }
  pose proof (den_pos x). nia.
Qed.

Lemma of_Z_exact f z :
  fmt_ok f -> 0 <= z < 2 ^ prec f -> within (of_Z f z) z z.
Proof.
  intros F Hz. unfold of_Z, round_rat. destruct (Z.eqb_spec z 0) as [->|Hz0].
  { split; [exact I|]. cbn. lia. }
  destruct (Z.ltb_spec z 0); [lia|]. rewrite Z.abs_eq by lia.
  destruct (round_pos_le f z 1 z F ltac:(lia) ltac:(lia) Hz ltac:(lia)) as [H1 H2].
  pose proof (round_pos_ge f z 1 z F ltac:(lia) ltac:(lia) ltac:(lia) ltac:(lia)).
  split; [exact H1|lia].
Qed.

Lemma within_weaken x lo hi lo' hi' : lo' <= lo -> hi <= hi' -> within x lo hi -> within x lo' hi'.
Proof. intros ? ? [? ?]. pose proof (den_pos x). split; [assumption|nia]. Qed.

Lemma of_Z_within f z lo hi :
  fmt_ok f -> 0 <= z < 2 ^ prec f -> lo <= z <= hi -> within (of_Z f z) lo hi.
Proof. intros. eapply within_weaken; [| |apply of_Z_exact]; lia || assumption. Qed.

Lemma floorZ_within x lo hi : within x lo hi -> lo <= floorZ x <= hi.
Proof.
  intros [_ H]. pose proof (den_pos x). unfold floorZ. split.
  - apply Z.div_le_lower_bound; lia.
  - assert (num x / den x < hi + 1); [|lia]. apply Z.div_lt_upper_bound; nia.
Qed.

Lemma ceilZ_within x lo hi : within x lo hi -> lo <= ceilZ x <= hi.
Proof.
  intros [_ H]. pose proof (den_pos x). unfold ceilZ. split.
  - assert (- num x / den x < - lo + 1); [|lia]. apply Z.div_lt_upper_bound; nia.
  - assert (- hi <= - num x / den x); [|lia]. apply Z.div_le_lower_bound; nia.
Qed.

Lemma roundZ_within x lo hi : 0 <= lo -> within x lo hi -> lo <= roundZ x <= hi.
Proof.
  intros Hlo [_ H]. pose proof (den_pos x). unfold roundZ.
  destruct (Z.ltb_spec (num x) 0); [nia|]. rewrite Z.abs_eq by lia. split.
  - apply Z.div_le_lower_bound; nia.
  - assert ((2 * num x + den x) / (2 * den x) < hi + 1); [|lia]. apply Z.div_lt_upper_bound; nia.
Qed.

Lemma truncZ_within x lo hi : 0 <= lo -> within x lo hi -> lo <= truncZ x <= hi.
Proof.
  intros Hlo H. pose proof H as [_ H']. pose proof (den_pos x).
  unfold truncZ. rewrite Z.quot_div_nonneg by nia. apply (floorZ_within x lo hi H).
Qed.

(** What [ceil] and its relatives return, converted to an integer type. *)
Lemma integral_within f op x z :
  fmt_ok f -> okf x -> op x = z -> 0 <= z < 2 ^ prec f -> (forall s, op (FZero s) = 0) ->
  within (integral f op x) z z.
Proof.
  intros F Hx Hz Hr Hop. destruct x as [s|s| |s m e]; try contradiction Hx; cbn [integral].
  - rewrite Hop in Hz. subst z. split; [exact I|]. cbn. lia.
  - rewrite Hz. destruct (Z.eqb_spec z 0) as [->|]; [split; [exact I|cbn; lia]|].
    apply of_Z_exact; assumption.
Qed.

Lemma to_int_within lo hi x z :
  within x z z -> 0 <= z -> lo <= z < hi -> to_int lo hi x = Ok z.
Proof.
  intros H Hz Hr. unfold to_int. destruct H as [Hf H]. rewrite (okf_finite x Hf).
  assert (E : truncZ x = z) by (pose proof (truncZ_within x z z Hz (conj Hf H)); lia).
  rewrite E. rewrite (proj2 (Z.leb_le lo z)), (proj2 (Z.ltb_lt z hi)) by lia. reflexivity.
Qed.

Lemma within_nonneg_sign s m e lo hi : 0 <= lo -> within (FFin s m e) lo hi -> s = false.
Proof.
  intros Hlo [Hm [H _]]. cbn in Hm. pose proof (den_pos (FFin s m e)).
  destruct s; [|reflexivity]. cbn [num] in H. pose proof (sc_pos m e Hm). nia.
Qed.

Lemma within_zero s k : 0 <= k -> within (FZero s) 0 k.
Proof. intros. split; [exact I|cbn; lia]. Qed.

Lemma fmul_within f x y a b :
  fmt_ok f -> within x 0 a -> within y 0 b -> 0 <= a -> 0 <= b -> a * b < 2 ^ prec f ->
  within (fmul f x y) 0 (a * b).
Proof.
  intros F Hx Hy Ha Hb Hab.
  destruct x as [s|s| |s m e]; try contradiction (proj1 Hx);
    destruct y as [t|t| |t m' e']; try contradiction (proj1 Hy);
    cbn [fmul]; try (apply within_zero; nia).
  rewrite (within_nonneg_sign s m e 0 a) , (within_nonneg_sign t m' e' 0 b) in * by (lia || assumption).
  destruct Hx as [Mx Hx], Hy as [My Hy]. cbn [okf] in Mx, My.
  pose proof (den_pos (FFin false m e)). pose proof (den_pos (FFin false m' e')).
  assert (0 < num (FFin false m e)) by (apply sc_pos; assumption).
  assert (0 < num (FFin false m' e')) by (apply sc_pos; assumption).
  cbn [xorb]. rewrite Z.abs_eq by nia. apply (round_pos_le f _ _ (a * b) F); nia.
Qed.

Lemma fdiv_within f x y a z :
  fmt_ok f -> within x 0 a -> within y z z -> 0 < z -> 0 <= a < 2 ^ prec f ->
  within (fdiv f x y) 0 a.
Proof.
  intros F Hx Hy Hz Ha.
  destruct y as [t|t| |t m' e']; try contradiction (proj1 Hy); [destruct Hy as [_ Hy]; cbn in Hy; lia|].
  destruct x as [s|s| |s m e]; try contradiction (proj1 Hx); cbn [fdiv]; [apply within_zero; lia|].
  rewrite (within_nonneg_sign s m e 0 a), (within_nonneg_sign t m' e' z z) in * by (lia || assumption).
  destruct Hx as [Mx Hx], Hy as [My Hy]. cbn [okf] in Mx, My.
  pose proof (den_pos (FFin false m e)). pose proof (den_pos (FFin false m' e')).
  assert (0 < num (FFin false m e)) by (apply sc_pos; assumption).
  assert (0 < num (FFin false m' e')) by (apply sc_pos; assumption).
  cbn [xorb]. rewrite !Z.abs_eq by nia. apply (round_pos_le f _ _ a F); nia.
Qed.

(** The quotient of two integers that the format represents: zero, or the
    exact fraction rounded. *)
Lemma fdiv_of_Z f a b :
  fmt_ok f -> 0 <= a < 2 ^ prec f -> 0 < b < 2 ^ prec f ->
  (a = 0 /\ exists s, fdiv f (of_Z f a) (of_Z f b) = FZero s) \/
  (0 < a /\ exists n d, 0 < n /\ 0 < d /\ n * b = a * d
    /\ fdiv f (of_Z f a) (of_Z f b) = round_pos f false n d).
Proof.
  intros F Ha Hb.
  pose proof (of_Z_exact f a F ltac:(lia)) as Wa. pose proof (of_Z_exact f b F ltac:(lia)) as Wb.
  destruct (of_Z f b) as [t|t| |t m' e']; try contradiction (proj1 Wb);
    [destruct Wb as [_ Wb]; cbn in Wb; lia|].
  rewrite (within_nonneg_sign t m' e' b b) in * by (lia || assumption).
  destruct (of_Z f a) as [s|s| |s m e]; try contradiction (proj1 Wa); cbn [fdiv].
  { left. destruct Wa as [_ Wa]. cbn in Wa. split; [lia|eauto]. }
  right. rewrite (within_nonneg_sign s m e a a) in * by (lia || assumption).
  destruct Wa as [Ma Wa], Wb as [Mb Wb]. cbn [okf] in Ma, Mb. cbn [xorb].
  set (x := FFin false m e) in *. set (y := FFin false m' e') in *.
  pose proof (den_pos x). pose proof (den_pos y).
  assert (Hnx : num x = a * den x) by lia. assert (Hny : num y = b * den y) by lia.
  assert (0 < num x) by (apply sc_pos; assumption).
  rewrite !Z.abs_eq by nia. assert (0 < a) by nia. split; [assumption|].
  exists (num x * den y), (num y * den x). rewrite Hnx, Hny. split_and!; try nia; reflexivity.
Qed.

(** [ceil ((float) a / (float) b)] is the exact quotient rounded up, for
    integers that the format represents. *)
Lemma ceil_div_exact f a b :
  fmt_ok f -> 0 <= a < 2 ^ prec f -> 0 < b < 2 ^ prec f ->
  okf (fdiv f (of_Z f a) (of_Z f b)) /\ ceilZ (fdiv f (of_Z f a) (of_Z f b)) = (a + b - 1) / b.
Proof.
  intros F Ha Hb. destruct (fdiv_of_Z f a b F Ha Hb) as [(-> & s & ->)|(Ha0 & n & d & Hn & Hd & E & ->)].
  { split; [exact I|]. symmetry. apply Z.div_small. lia. }
  set (k := (a + b - 1) / b).
  assert (Hk : k * b < a + b /\ a <= k * b).
  { subst k. pose proof (Z.div_mod (a + b - 1) b ltac:(lia)).
    pose proof (Z.mod_pos_bound (a + b - 1) b ltac:(lia)). nia. }
  destruct (round_pos_le f n d k F Hn Hd ltac:(nia) ltac:(nia)) as [O [_ U]].
  pose proof (round_pos_gt f n d (k - 1) a b F Hn Hd ltac:(lia) Hb E ltac:(nia)) as L.
  set (r := round_pos f false _ _) in *. pose proof (den_pos r).
  split; [exact O|]. unfold ceilZ.
  assert (- num r / den r = - k); [|lia].
  symmetry. apply (Z.div_unique_pos _ _ _ (k * den r - num r)); nia.
Qed.

(** [floor ((double) a / (double) b)] likewise. *)
Lemma floor_div_exact f a b :
  fmt_ok f -> 0 <= a < 2 ^ prec f -> 0 < b < 2 ^ prec f ->
  okf (fdiv f (of_Z f a) (of_Z f b)) /\ floorZ (fdiv f (of_Z f a) (of_Z f b)) = a / b.
Proof.
  intros F Ha Hb. destruct (fdiv_of_Z f a b F Ha Hb) as [(-> & s & ->)|(Ha0 & n & d & Hn & Hd & E & ->)].
  { split; [exact I|]. symmetry. apply Z.div_small. lia. }
  set (k := a / b).
  assert (Hk : k * b <= a /\ a < (k + 1) * b).
  { subst k. pose proof (Z.div_mod a b ltac:(lia)). pose proof (Z.mod_pos_bound a b ltac:(lia)). nia. }
  assert (Hs : n < d * 2 ^ prec f) by nia.
  destruct (round_pos_small f false n d F Hn Hd Hs) as (e & x & Ex & O & _).
  pose proof (round_pos_ge f n d k F Hn Hd Hs ltac:(nia)) as L.
  pose proof (round_pos_lt f n d (k + 1) a b F Hn Hd ltac:(lia) Hb E ltac:(nia)) as U.
  rewrite Ex in *. pose proof (den_pos x). split; [exact O|]. unfold floorZ.
  symmetry. apply (Z.div_unique_pos _ _ _ (num x - k * den x)); nia.
Qed.

(** [(unsigned int) floor (d / 2.0)] *)
Definition half (d : Z) : res Z := to_u32 (ffloor b64 (fdiv b64 (of_Z b64 d) (of_Z b64 2))).

Lemma half_spec d : is_u32 d -> half d = Ok (d / 2).
Proof.
  intros Hd. unfold is_u32 in Hd. unfold half, to_u32, ffloor.
  destruct (floor_div_exact b64 d 2 b64_ok) as [O E]; [cbn; lia|cbn; lia|].
  assert (Hdiv : 0 <= d / 2 < 2 ^ 32)
    by (split; [apply Z.div_pos; lia|apply Z.div_lt_upper_bound; lia]).
  apply to_int_within; [|lia|lia].
  apply integral_within; [apply b64_ok|exact O|exact E|cbn; lia|reflexivity].
Qed.

(** Powers of two are barriers too, beyond [2 ^ prec]. *)
Lemma round_pos_le_pow2 f n d p :
  fmt_ok f -> 0 < n -> 0 < d -> prec f <= p -> p + 2 <= emax f -> n <= d * 2 ^ p ->
  within (round_pos f false n d) 0 (2 ^ p).
Proof.
  intros [F1 F2] Hn Hd Hp He H.
  assert (HM : mag n d <= p + 1).
  { apply mag_le; [assumption|assumption|lia|]. rewrite Z.pow_add_r by lia.
    pose proof (Z.pow_pos_nonneg 2 p ltac:(lia) ltac:(lia)). nia. }
  unfold round_pos. set (e := Z.max (mag n d - prec f) (emin f)).
  assert (Hemin : emin f <= - prec f) by (unfold emin; lia).
  assert (HP : 2 ^ prec f = 2 * 2 ^ (prec f - 1)) by (rewrite <- Z.pow_succ_r by lia; f_equal; lia).
  pose proof (Z.pow_pos_nonneg 2 (prec f - 1) ltac:(lia) ltac:(lia)).
  set (q := rne (sc n (- e)) (sc d e)).
  assert (Hd' : 0 < sc d e) by (apply sc_pos; assumption).
  assert (Hq0 : 0 <= q).
  { apply rne_ge; [assumption|]. unfold sc. pose proof (Z.pow_pos_nonneg 2 (Z.max (- e) 0)). nia. }
  assert (Hq : sc q e <= 2 ^ p * sc 1 (- e)).
  { destruct (Z.le_gt_cases e 0) as [E|E].
    - rewrite sc_neg_exp, sc_nonneg_exp by lia. apply rne_le; [assumption|].
      rewrite sc_nonneg_exp, sc_neg_exp by lia. pose proof (Z.pow_pos_nonneg 2 (- e) ltac:(lia)). nia.
    - rewrite sc_nonneg_exp, sc_neg_exp by lia.
      assert (Ep : 2 ^ p = 2 ^ (p - e) * 2 ^ e) by (rewrite <- Z.pow_add_r by lia; f_equal; lia).
      assert (q <= 2 ^ (p - e)); [|pose proof (Z.pow_pos_nonneg 2 e); nia].
      apply rne_le; [assumption|]. rewrite sc_neg_exp, sc_nonneg_exp by lia. nia. }
  destruct (Z.eqb_spec q 0); [apply within_zero, Z.pow_nonneg; lia|].
  destruct (Z.eqb_spec q (2 ^ prec f)) as [Eq|].
  - destruct (Z.ltb_spec (emax f - prec f) (e + 1)); [lia|]. split; [cbn; lia|]. cbn [num den].
    pose proof (sc_pos (2 ^ (prec f - 1)) (e + 1) ltac:(lia)). split; [lia|].
    rewrite Eq, HP in Hq. destruct (Z.le_gt_cases 0 e) as [E|E].
    + rewrite sc_nonneg_exp, sc_neg_exp in * by lia. rewrite Z.pow_add_r by lia. lia.
    + rewrite (sc_neg_exp _ e), (sc_nonneg_exp 1) in Hq by lia. rewrite sc_neg_exp, sc_nonneg_exp by lia.
      assert (2 ^ (- e) = 2 * 2 ^ (- (e + 1))) by (rewrite <- Z.pow_succ_r by lia; f_equal; lia). nia.
  - destruct (Z.ltb_spec (emax f - prec f) e); [lia|]. split; [cbn; lia|]. cbn [num den].
    pose proof (sc_pos q e ltac:(lia)). lia.
Qed.

Lemma of_Z_pow2 f z p :
  fmt_ok f -> prec f <= p -> p + 2 <= emax f -> 0 <= z <= 2 ^ p -> within (of_Z f z) 0 (2 ^ p).
Proof.
  intros F Hp He Hz. unfold of_Z, round_rat. destruct (Z.eqb_spec z 0); [apply within_zero; lia|].
  destruct (Z.ltb_spec z 0); [lia|]. rewrite Z.abs_eq by lia. apply round_pos_le_pow2; auto; lia.
Qed.

Lemma fdiv_le_one f x y a :
  fmt_ok f -> within x 0 a -> within y a a -> 0 < a -> within (fdiv f x y) 0 1.
Proof.
  intros F Hx Hy Ha.
  destruct y as [t|t| |t m' e']; try contradiction (proj1 Hy); [destruct Hy as [_ Hy]; cbn in Hy; lia|].
  destruct x as [s|s| |s m e]; try contradiction (proj1 Hx); cbn [fdiv]; [apply within_zero; lia|].
  rewrite (within_nonneg_sign s m e 0 a), (within_nonneg_sign t m' e' a a) in * by (lia || assumption).
  destruct Hx as [Mx Hx], Hy as [My Hy]. cbn [okf] in Mx, My.
  pose proof (den_pos (FFin false m e)). pose proof (den_pos (FFin false m' e')).
  assert (0 < num (FFin false m e)) by (apply sc_pos; assumption).
  assert (0 < num (FFin false m' e')) by (apply sc_pos; assumption).
  cbn [xorb]. rewrite !Z.abs_eq by nia. pose proof (Z.pow_pos_nonneg 2 (prec f)).
  destruct F as [F1 F2]. assert (1 < 2 ^ prec f) by (apply Z.pow_gt_1; lia).
  apply (round_pos_le f _ _ 1 (conj F1 F2)); nia.
Qed.

(** The truncation of a value in [0, k] is defined. *)
Lemma to_u32_within x k : within x 0 k -> 0 <= k < 2 ^ 32 -> exists z, to_u32 x = Ok z /\ 0 <= z <= k.
Proof.
  intros Hx Hk. pose proof (truncZ_within x 0 k ltac:(lia) Hx) as Hz.
  exists (truncZ x). split; [|exact Hz]. unfold to_u32, to_int. rewrite (okf_finite x (proj1 Hx)).
  rewrite (proj2 (Z.leb_le 0 _)), (proj2 (Z.ltb_lt _ (2 ^ 32))) by lia. reflexivity.
Qed.

(** *** Errors of half a unit in the last place *)

(** The scale [2 ^ e] at which [round_pos] rounds a fraction below [2 ^ prec]
    that is not tiny: a unit is at most twice the fraction's [2 ^ prec]th part. *)
Lemma rounding_scale f n d :
  fmt_ok f -> 0 < n -> 0 < d -> n < d * 2 ^ prec f -> d <= n * 2 ^ prec f ->
  d * 2 ^ prec f <= 2 * (n * 2 ^ Z.min (prec f - mag n d) (- emin f)).
Proof.
  intros [F1 F2] Hn Hd Hlt Hle. set (p := prec f) in *.
  assert (Pp : 0 < 2 ^ p) by (apply Z.pow_pos_nonneg; lia).
  assert (Hm : mag n d <= p) by (apply mag_le; (assumption || lia)).
  destruct (Z.le_gt_cases (p - mag n d) (- emin f)) as [H|H].
  - rewrite Z.min_l by lia. destruct (mag_spec n d Hn Hd) as [M _]. unfold sc in M.
    destruct (Z.le_gt_cases (mag n d) 0) as [Hm0|Hm0].
    + rewrite Z.max_r, Z.max_l in M by lia. change (2 ^ 0) with 1 in M.
      assert (E : 2 * 2 ^ (p - mag n d) = 2 ^ (- (mag n d - 1)) * 2 ^ p).
      { rewrite <- Z.pow_add_r by lia. rewrite <- Z.pow_succ_r by lia. f_equal. lia. }
      nia.
    + rewrite Z.max_l, Z.max_r in M by lia. change (2 ^ 0) with 1 in M.
      assert (E : 2 ^ p = 2 ^ (mag n d - 1) * (2 * 2 ^ (p - mag n d))).
      { rewrite <- Z.pow_succ_r, <- Z.pow_add_r by lia. f_equal. lia. }
      rewrite E. assert (0 < 2 ^ (p - mag n d)) by (apply Z.pow_pos_nonneg; lia). nia.
  - rewrite Z.min_r by lia. unfold emin in *. fold p in H |- *.
    assert (E : 2 ^ p * 2 ^ p <= 2 * 2 ^ (- (3 - emax f - p))).
    { rewrite <- Z.pow_add_r, <- Z.pow_succ_r by lia. apply Z.pow_le_mono_r; lia. }
    nia.
Qed.

(** The result is at most the fraction times [1 + 2 ^ - prec]. *)
Lemma round_pos_upper f n d :
  fmt_ok f -> 0 < n -> 0 < d -> n < d * 2 ^ prec f -> d <= n * 2 ^ prec f ->
  num (round_pos f false n d) * (d * 2 ^ prec f) <= n * (2 ^ prec f + 1) * den (round_pos f false n d).
Proof.
  intros F Hn Hd Hlt Hle. pose proof (rounding_scale f n d F Hn Hd Hlt Hle) as U.
  destruct (round_pos_small f false n d F Hn Hd Hlt) as (e & x & -> & Hf & _ & He & Ee & E & S).
  rewrite <- Ee in U. assert (P : 0 < 2 ^ e) by (apply Z.pow_pos_nonneg; lia).
  assert (Pp : 0 < 2 ^ prec f) by (apply Z.pow_pos_nonneg; destruct F; lia).
  pose proof (rne_spec (n * 2 ^ e) d Hd) as R. pose proof (den_pos x) as D.
  cbv iota in S. rewrite <- S in E. set (q := rne (n * 2 ^ e) d) in *. set (p := 2 ^ prec f) in *.
  assert (H1 : 2 * (q * d) <= 2 * (n * 2 ^ e) + d) by lia.
  assert (H2 : q * d * p <= n * 2 ^ e * (p + 1)) by nia.
  apply (Z.mul_le_mono_pos_r _ _ (2 ^ e)); [exact P|].
  replace (num x * (d * p) * 2 ^ e) with ((num x * 2 ^ e) * (d * p)) by ring. rewrite E.
  replace (q * den x * (d * p)) with (q * d * p * den x) by ring.
  replace (n * (p + 1) * den x * 2 ^ e) with (n * 2 ^ e * (p + 1) * den x) by ring.
  apply Z.mul_le_mono_nonneg_r; lia.
Qed.

(** A fraction below an integer by more than the [2 ^ prec]th part of it is not
    rounded up to it. *)
Lemma round_pos_below f n d k :
  fmt_ok f -> 0 < n -> 0 < d -> 0 < k < 2 ^ prec f -> d <= n * 2 ^ prec f ->
  n * (2 ^ prec f + 1) < k * 2 ^ prec f * d ->
  num (round_pos f false n d) < k * den (round_pos f false n d).
Proof.
  intros F Hn Hd Hk Hle H. assert (Pp : 0 < 2 ^ prec f) by (apply Z.pow_pos_nonneg; destruct F; lia).
  assert (Hnk : n < k * d) by nia.
  pose proof (round_pos_upper f n d F Hn Hd ltac:(nia) Hle) as U.
  set (r := round_pos f false n d) in *. pose proof (den_pos r) as D. set (p := 2 ^ prec f) in *.
  assert (H1 : n * (p + 1) * den r < k * p * d * den r) by (apply Z.mul_lt_mono_pos_r; assumption).
  assert (H2 : num r * (d * p) < k * den r * (d * p)) by lia.
  apply (Z.mul_lt_mono_pos_r (d * p)); [nia|exact H2].
Qed.

Lemma fmul_pos f x y :
  okf x -> okf y -> 0 < num x -> 0 < num y -> fmul f x y = round_pos f false (num x * num y) (den x * den y).
Proof.
  intros Hx Hy Nx Ny. destruct x as [s|s| |s m e]; try contradiction Hx; [cbn in Nx; lia|].
  destruct y as [t|t| |t m' e']; try contradiction Hy; [cbn in Ny; lia|].
  cbn [okf] in *. pose proof (sc_pos m e Hx). pose proof (sc_pos m' e' Hy).
  destruct s; [cbn [num] in Nx; lia|]. destruct t; [cbn [num] in Ny; lia|].
  cbn [fmul xorb]. rewrite Z.abs_eq by nia. reflexivity.
Qed.

(** The result is at least the fraction times [1 - 2 ^ - prec]. *)
Lemma round_pos_lower f n d :
  fmt_ok f -> 0 < n -> 0 < d -> n < d * 2 ^ prec f -> d <= n * 2 ^ prec f ->
  n * (2 ^ prec f - 1) * den (round_pos f false n d) <= num (round_pos f false n d) * (d * 2 ^ prec f).
Proof.
  intros F Hn Hd Hlt Hle. pose proof (rounding_scale f n d F Hn Hd Hlt Hle) as U.
  destruct (round_pos_small f false n d F Hn Hd Hlt) as (e & x & -> & Hf & _ & He & Ee & E & S).
  rewrite <- Ee in U. assert (P : 0 < 2 ^ e) by (apply Z.pow_pos_nonneg; lia).
  assert (Pp : 0 < 2 ^ prec f) by (apply Z.pow_pos_nonneg; destruct F; lia).
  pose proof (rne_spec (n * 2 ^ e) d Hd) as R. pose proof (den_pos x) as D.
  cbv iota in S. rewrite <- S in E. set (q := rne (n * 2 ^ e) d) in *. set (p := 2 ^ prec f) in *.
  assert (H1 : 2 * (n * 2 ^ e) - d <= 2 * (q * d)) by lia.
  assert (H2 : n * 2 ^ e * (p - 1) <= q * d * p) by nia.
  apply (Z.mul_le_mono_pos_r _ _ (2 ^ e)); [exact P|].
  replace (num x * (d * p) * 2 ^ e) with ((num x * 2 ^ e) * (d * p)) by ring. rewrite E.
  replace (q * den x * (d * p)) with (q * d * p * den x) by ring.
  replace (n * (p - 1) * den x * 2 ^ e) with (n * 2 ^ e * (p - 1) * den x) by ring.
  apply Z.mul_le_mono_nonneg_r; lia.
Qed.

(** The quotient of two positive integers as floats, with its error. *)
Lemma fdiv_error f a b :
  fmt_ok f -> 0 < a < 2 ^ prec f -> 0 < b < 2 ^ prec f ->
  let q := fdiv f (of_Z f a) (of_Z f b) in
  okf q /\ 0 < num q /\ (forall k, k * b <= a -> k * den q <= num q)
  /\ num q * (b * 2 ^ prec f) <= a * (2 ^ prec f + 1) * den q
  /\ a * (2 ^ prec f - 1) * den q <= num q * (b * 2 ^ prec f).
Proof.
  intros F Ha Hb. cbv zeta. destruct (fdiv_of_Z f a b F ltac:(lia) Hb) as [(-> & _)|(Ha0 & n & d & Hn & Hd & E & ->)]; [lia|].
  assert (H1 : n < d * 2 ^ prec f) by nia. assert (H2 : d <= n * 2 ^ prec f) by nia.
  pose proof (round_pos_upper f n d F Hn Hd H1 H2) as U. pose proof (round_pos_lower f n d F Hn Hd H1 H2) as L.
  destruct (round_pos_small f false n d F Hn Hd H1) as (e & x & Ex & O & _).
  pose proof (fun k H => round_pos_ge f n d k F Hn Hd H1 H) as G. rewrite Ex in *. pose proof (den_pos x) as D.
  set (p := 2 ^ prec f) in *.
  split; [exact O|]. split; [|split; [|split]].
  - assert (0 < n * (p - 1) * den x) by (apply Z.mul_pos_pos; nia). nia.
  - intros k Hk. apply G. apply (Z.mul_le_mono_pos_r _ _ b); [lia|]. rewrite E.
    replace (k * d * b) with (k * b * d) by ring. apply Z.mul_le_mono_nonneg_r; lia.
  - apply (Z.mul_le_mono_pos_r _ _ d); [lia|].
    replace (num x * (b * p) * d) with (num x * (d * p) * b) by ring.
    replace (a * (p + 1) * den x * d) with (n * (p + 1) * den x * b); [apply Z.mul_le_mono_nonneg_r; lia|].
    replace (n * (p + 1) * den x * b) with (n * b * ((p + 1) * den x)) by ring. rewrite E. ring.
  - apply (Z.mul_le_mono_pos_r _ _ d); [lia|].
    replace (num x * (b * p) * d) with (num x * (d * p) * b) by ring.
    replace (a * (p - 1) * den x * d) with (n * (p - 1) * den x * b); [apply Z.mul_le_mono_nonneg_r; lia|].
    replace (n * (p - 1) * den x * b) with (n * b * ((p - 1) * den x)) by ring. rewrite E. ring.
Qed.

(** [floorf (i * ((float) a / (float) b))] for [i < b] is an index below [a],
    at least [i] when [b <= a], and exact when [b] divides [a]. *)
Lemma floor_scaled a b i :
  0 < a < 2 ^ 23 -> 0 < b < 2 ^ 23 -> 0 <= i < b ->
  let x := fmul b32 (of_Z b32 i) (fdiv b32 (of_Z b32 a) (of_Z b32 b)) in
  okf x /\ 0 <= floorZ x < a /\ (forall k, k * b <= a -> k * i <= floorZ x).
Proof.
  intros Ha Hb Hi. cbv zeta. destruct (fdiv_error b32 a b b32_ok) as (O & N & G & U & L); [cbn; lia|cbn; lia|].
  set (q := fdiv b32 _ _) in *. pose proof (den_pos q) as D. change (2 ^ prec b32) with 16777216 in *.
  destruct (Z.eq_dec i 0) as [->|Hi0].
  { destruct q as [s|s| |s m e]; try contradiction O; [cbn in N; lia|].
    change (fmul b32 (of_Z b32 0) (FFin s m e)) with (FZero (xorb false s)).
    change (floorZ (FZero (xorb false s))) with 0. split; [exact I|]. split; [lia|]. intros. lia. }
  destruct (of_Z_exact b32 i b32_ok ltac:(cbn; lia)) as [Oi Wi]. pose proof (den_pos (of_Z b32 i)) as Di.
  assert (Ni : num (of_Z b32 i) = i * den (of_Z b32 i)) by lia.
  rewrite fmul_pos by (assumption || nia). rewrite Ni. set (di := den (of_Z b32 i)) in *.
  set (n := i * di * num q). set (d := di * den q).
  assert (Hn : 0 < n) by (unfold n; nia). assert (Hd : 0 < d) by (unfold d; nia).
  (* the bounds of [q] carried over to [n / d] *)
  assert (Hu : n * (b * 16777216) <= d * (i * (a * 16777217))).
  { unfold n, d. replace (i * di * num q * (b * 16777216)) with (num q * (b * 16777216) * (i * di)) by ring.
    replace (di * den q * (i * (a * 16777217))) with (a * (16777216 + 1) * den q * (i * di)) by ring.
    apply Z.mul_le_mono_nonneg_r; nia. }
  assert (Hl : d * (i * (a * 16777215)) <= n * (b * 16777216)).
  { unfold n, d. replace (i * di * num q * (b * 16777216)) with (num q * (b * 16777216) * (i * di)) by ring.
    replace (di * den q * (i * (a * 16777215))) with (a * (16777216 - 1) * den q * (i * di)) by ring.
    apply Z.mul_le_mono_nonneg_r; nia. }
  assert (Hia : i * a <= (b - 1) * a) by nia.
  assert (H1 : n * 16777217 < a * 16777216 * d).
  { apply (Z.mul_lt_mono_pos_r (b * 16777216)); [lia|].
    assert (n * (b * 16777216) * 16777217 <= d * ((b - 1) * a * 16777217) * 16777217) by nia. nia. }
  assert (H2 : d <= n * 16777216).
  { assert (d * (1 * 16777215) <= d * (i * (a * 16777215))) by (apply Z.mul_le_mono_nonneg_l; nia).
    assert (n * b <= n * 8388608) by nia. lia. }
  assert (H3 : n < d * 16777216) by nia.
  pose proof (round_pos_below b32 n d a b32_ok Hn Hd ltac:(cbn; lia)) as B.
  change (2 ^ prec b32) with 16777216 in B. specialize (B H2 H1).
  destruct (round_pos_small b32 false n d b32_ok Hn Hd H3) as (e & x & Ex & Ox & _).
  pose proof (fun k H => round_pos_ge b32 n d k b32_ok Hn Hd H3 H) as Gx. rewrite Ex in *.
  pose proof (den_pos x) as Dx. unfold floorZ. split; [exact Ox|]. split; [split|].
  - apply Z.div_le_lower_bound; [exact Dx|]. pose proof (Gx 0 ltac:(lia)). lia.
  - apply Z.div_lt_upper_bound; lia.
  - intros k Hk. apply Z.div_le_lower_bound; [exact Dx|]. rewrite Z.mul_comm. apply Gx. unfold n, d.
    pose proof (G k Hk). replace (k * i * (di * den q)) with (k * den q * (i * di)) by ring.
    replace (i * di * num q) with (num q * (i * di)) by ring. apply Z.mul_le_mono_nonneg_r; nia.
Qed.

(** *** Halves are barriers too, below [2 ^ (prec - 1)] *)

Lemma round_pos_half f n d k :
  fmt_ok f -> 0 < n -> 0 < d -> n < d * 2 ^ (prec f - 1) -> k * d <= 2 * n ->
  k * den (round_pos f false n d) <= 2 * num (round_pos f false n d).
Proof.
  intros F Hn Hd Hlt Hk. pose proof F as [F1 F2].
  assert (HP : 2 ^ prec f = 2 * 2 ^ (prec f - 1)) by (rewrite <- Z.pow_succ_r by lia; f_equal; lia).
  assert (Hm : mag n d <= prec f - 1) by (apply mag_le; lia).
  assert (0 < 2 ^ (prec f - 1)) by (apply Z.pow_pos_nonneg; lia).
  destruct (round_pos_small f false n d F Hn Hd ltac:(nia)) as (e & x & -> & Hf & _ & He & Ee & E & S).
  cbv iota in S. rewrite <- S in E.
  assert (He1 : 1 <= e) by (rewrite Ee; unfold emin; lia).
  assert (P2 : 2 ^ e = 2 * 2 ^ (e - 1)) by (rewrite <- Z.pow_succ_r by lia; f_equal; lia).
  assert (P : 0 < 2 ^ (e - 1)) by (apply Z.pow_pos_nonneg; lia). rewrite P2 in E. set (u := 2 ^ (e - 1)) in *.
  pose proof (rne_ge (n * (2 * u)) d (k * u) Hd ltac:(nia)). pose proof (den_pos x).
  set (q := rne _ _) in *. apply (Z.mul_le_mono_pos_r _ _ u); [exact P|]. nia.
Qed.

Lemma fmul_half f x y k :
  fmt_ok f -> okf x -> okf y -> 0 < num x -> 0 < num y ->
  num x * num y < den x * den y * 2 ^ (prec f - 1) -> k * (den x * den y) <= 2 * (num x * num y) ->
  k * den (fmul f x y) <= 2 * num (fmul f x y).
Proof.
  intros F Hx Hy Nx Ny Hlt Hk. pose proof (den_pos x). pose proof (den_pos y).
  rewrite fmul_pos by assumption. apply round_pos_half; [exact F|nia|nia|exact Hlt|exact Hk].
Qed.

Lemma fdiv_of_Z_half f a b k :
  fmt_ok f -> 0 < a < 2 ^ prec f -> 0 < b < 2 ^ prec f -> a < b * 2 ^ (prec f - 1) -> k * b <= 2 * a ->
  let q := fdiv f (of_Z f a) (of_Z f b) in k * den q <= 2 * num q.
Proof.
  intros F Ha Hb Hlt Hk. cbv zeta.
  destruct (fdiv_of_Z f a b F ltac:(lia) Hb) as [(-> & _)|(_ & n & d & Hn & Hd & E & ->)]; [lia|].
  apply round_pos_half; [exact F|exact Hn|exact Hd| |];
    apply (Z.mul_lt_mono_pos_r b) || apply (Z.mul_le_mono_pos_r _ _ b); try lia; nia.
Qed.

Lemma roundZ_half x k : 0 <= num x -> (2 * k - 1) * den x <= 2 * num x -> k <= roundZ x.
Proof.
  intros Hx H. pose proof (den_pos x). unfold roundZ. rewrite (proj2 (Z.ltb_ge _ 0)), Z.abs_eq by lia.
  apply Z.div_le_lower_bound; lia.
Qed.

(** An integer times a number of the unit interval, below an integer. *)
Lemma fmul_below f z x k :
  fmt_ok f -> 0 <= z < 2 ^ prec f -> okf x -> 0 <= num x -> 0 <= k < 2 ^ prec f -> z * num x <= k * den x ->
  within (fmul f (of_Z f z) x) 0 k.
Proof.
  intros F Hz Ox Nx Hk H. destruct (of_Z_exact f z F Hz) as [Oz Wz].
  pose proof (den_pos (of_Z f z)) as Dz. pose proof (den_pos x) as Dx.
  destruct (Z.eq_dec (z * num x) 0) as [E0|E0].
  - assert (exists s, fmul f (of_Z f z) x = FZero s) as (s & ->); [|apply within_zero; lia].
    destruct (of_Z f z) as [s|s| |s m e]; try contradiction Oz;
      destruct x as [t|t| |t m' e']; try contradiction Ox; try (eexists; reflexivity).
    cbn [num okf] in *. pose proof (sc_pos m e Oz). pose proof (sc_pos m' e' Ox).
    destruct t; [lia|]. destruct s; nia.
  - assert (0 < z) by nia. rewrite fmul_pos by (assumption || nia).
    apply (round_pos_le f _ _ k F); nia.
Qed.

(** *** Fixed-point bounds *)

(** [lo / 2 ^ 14 <= x <= hi / 2 ^ 14]: multiples of [2 ^ - 14] below [2 ^ 10]
    are floats, so rounding does not cross them. *)
Definition fx (x : float) (lo hi : Z) : Prop :=
  okf x /\ 0 <= lo /\ lo * den x <= num x * 2 ^ 14 <= hi * den x.

Lemma fx_weaken x lo hi lo' hi' : 0 <= lo' <= lo -> hi <= hi' -> fx x lo hi -> fx x lo' hi'.
Proof. intros ? ? (O & ? & ?). pose proof (den_pos x). split; [exact O|]. nia. Qed.

Lemma fx_num x lo hi : fx x lo hi -> 0 <= num x.
Proof. intros (_ & ? & ?). pose proof (den_pos x). nia. Qed.

Lemma fx_sign s m e lo hi : fx (FFin s m e) lo hi -> s = false.
Proof.
  intros H. pose proof (fx_num _ _ _ H) as Hn. destruct H as (O & _). cbn [okf] in O. cbn [num] in Hn.
  pose proof (sc_pos m e O). destruct s; [lia|reflexivity].
Qed.

Lemma fx_round_pos n d lo hi :
  0 < n -> 0 < d -> 0 <= lo -> hi < 2 ^ 24 -> lo * d <= n * 2 ^ 14 <= hi * d ->
  fx (round_pos b32 false n d) lo hi.
Proof.
  intros Hn Hd Hlo Hhi H. assert (Hnd : n < d * 2 ^ 10).
  { assert (hi * d <= (2 ^ 24 - 1) * d) by (apply Z.mul_le_mono_nonneg_r; lia). lia. }
  assert (Hm : mag n d <= 10) by (apply mag_le; lia).
  destruct (round_pos_small b32 false n d b32_ok Hn Hd ltac:(cbn; lia))
    as (e & x & -> & O & _ & He & Ee & E & S). cbv iota in S. rewrite <- S in E.
  assert (He14 : 14 <= e) by (rewrite Ee; change (emin b32) with (-149); change (prec b32) with 24; lia).
  assert (P : 2 ^ e = 2 ^ 14 * 2 ^ (e - 14)) by (rewrite <- Z.pow_add_r by lia; f_equal; lia).
  assert (P' : 0 < 2 ^ (e - 14)) by (apply Z.pow_pos_nonneg; lia). set (u := 2 ^ (e - 14)) in *.
  rewrite P in E. pose proof (den_pos x) as D.
  pose proof (rne_ge (n * (2 ^ 14 * u)) d (lo * u) Hd ltac:(nia)).
  pose proof (rne_le (n * (2 ^ 14 * u)) d (hi * u) Hd ltac:(nia)).
  set (q := rne _ _) in *. split; [exact O|]. split; [exact Hlo|]. split.
  - apply (Z.mul_le_mono_pos_r _ _ u); [exact P'|].
    replace (num x * 2 ^ 14 * u) with (num x * (2 ^ 14 * u)) by ring. rewrite E. nia.
  - apply (Z.mul_le_mono_pos_r _ _ u); [exact P'|].
    replace (num x * 2 ^ 14 * u) with (num x * (2 ^ 14 * u)) by ring. rewrite E. nia.
Qed.

Lemma fx_round_rat n d lo hi :
  0 <= n -> 0 < d -> 0 <= lo -> hi < 2 ^ 24 -> lo * d <= n * 2 ^ 14 <= hi * d ->
  fx (round_rat b32 n d) lo hi.
Proof.
  intros Hn Hd Hlo Hhi H. unfold round_rat. destruct (Z.eqb_spec n 0) as [->|].
  - split; [exact I|]. cbn [num den]. nia.
  - rewrite (proj2 (Z.ltb_ge n 0)), Z.abs_eq by lia. apply fx_round_pos; lia.
Qed.

Lemma fx_zero s hi : 0 <= hi -> fx (FZero s) 0 hi.
Proof. intros. split; [exact I|]. cbn. lia. Qed.

Lemma fx_zero_lo s lo hi : fx (FZero s) lo hi -> lo = 0 /\ 0 <= hi.
Proof. intros (_ & ? & H). cbn in H. lia. Qed.

Lemma fx_add x y a b c d :
  fx x a b -> fx y c d -> b + d < 2 ^ 24 -> fx (fadd b32 x y) (a + c) (b + d).
Proof.
  intros Hx Hy Hbd. pose proof (fx_num _ _ _ Hx) as Nx. pose proof (fx_num _ _ _ Hy) as Ny.
  pose proof (den_pos x) as Dx. pose proof (den_pos y) as Dy.
  destruct x as [s|s| |s m e]; try contradiction (proj1 Hx);
    destruct y as [s'|s'| |s' m' e']; try contradiction (proj1 Hy); cbn [fadd].
  - apply fx_zero_lo in Hx as [-> ?], Hy as [-> ?]. apply fx_zero. lia.
  - apply fx_zero_lo in Hx as [-> ?]. eapply fx_weaken; [| |exact Hy]; destruct Hy; lia.
  - apply fx_zero_lo in Hy as [-> ?]. eapply fx_weaken; [| |exact Hx]; destruct Hx; lia.
  - destruct Hx as (_ & Ha & Hx), Hy as (_ & Hc & Hy).
    set (x := FFin s m e) in *. set (y := FFin s' m' e') in *.
    apply fx_round_rat; [nia|nia|lia|lia|]. split.
    + assert (a * den x * den y <= num x * 2 ^ 14 * den y) by (apply Z.mul_le_mono_nonneg_r; lia).
      assert (c * den y * den x <= num y * 2 ^ 14 * den x) by (apply Z.mul_le_mono_nonneg_r; lia). lia.
    + assert (num x * 2 ^ 14 * den y <= b * den x * den y) by (apply Z.mul_le_mono_nonneg_r; lia).
      assert (num y * 2 ^ 14 * den x <= d * den y * den x) by (apply Z.mul_le_mono_nonneg_r; lia). lia.
Qed.

Lemma fx_mul x y a b c d lo hi :
  fx x a b -> fx y c d -> 0 <= lo -> lo * 2 ^ 14 <= a * c -> b * d <= hi * 2 ^ 14 -> hi < 2 ^ 24 ->
  fx (fmul b32 x y) lo hi.
Proof.
  intros Hx Hy Hlo H1 H2 Hhi. pose proof (fx_num _ _ _ Hx) as Nx. pose proof (fx_num _ _ _ Hy) as Ny.
  pose proof (den_pos x) as Dx. pose proof (den_pos y) as Dy.
  destruct (Z.eq_dec (num x * num y) 0) as [E0|E0].
  - assert (Hz : exists s, fmul b32 x y = FZero s).
    { destruct x as [s|s| |s m e]; try contradiction (proj1 Hx);
        destruct y as [s'|s'| |s' m' e']; try contradiction (proj1 Hy); try (eexists; reflexivity).
      pose proof (fx_sign _ _ _ _ _ Hx) as ->. pose proof (fx_sign _ _ _ _ _ Hy) as ->.
      destruct Hx as (Mx & _), Hy as (My & _). cbn [okf] in *. cbn [num] in E0.
      pose proof (sc_pos m e Mx). pose proof (sc_pos m' e' My). nia. }
    destruct Hz as (s & ->). destruct Hx as (_ & Ha & Hx), Hy as (_ & Hc & Hy).
    assert (a * c = 0).
    { assert (a * den x * (c * den y) <= num x * 2 ^ 14 * (num y * 2 ^ 14)) by (apply Z.mul_le_mono_nonneg; nia).
      assert (a * c * (den x * den y) <= 0) by nia. nia. }
    assert (lo = 0) as -> by lia. apply fx_zero.
    assert (0 <= b) by nia. assert (0 <= d) by nia. nia.
  - rewrite fmul_pos; [|exact (proj1 Hx)|exact (proj1 Hy)|nia|nia].
    destruct Hx as (_ & Ha & Hx1 & Hx2), Hy as (_ & Hc & Hy1 & Hy2).
    apply fx_round_pos; [nia|nia|exact Hlo|exact Hhi|].
    assert (L : a * den x * (c * den y) <= num x * 2 ^ 14 * (num y * 2 ^ 14)) by (apply Z.mul_le_mono_nonneg; nia).
    assert (U : num x * 2 ^ 14 * (num y * 2 ^ 14) <= b * den x * (d * den y)) by (apply Z.mul_le_mono_nonneg; nia).
    assert (0 < den x * den y) by nia. set (dd := den x * den y) in *.
    assert (lo * 2 ^ 14 * dd <= a * c * dd) by (apply Z.mul_le_mono_nonneg_r; lia).
    assert (b * d * dd <= hi * 2 ^ 14 * dd) by (apply Z.mul_le_mono_nonneg_r; lia).
    unfold dd in *. lia.
Qed.

(** A difference that is not negative. *)
Lemma fx_sub x y lo hi :
  okf x -> okf y -> 0 <= lo -> hi < 2 ^ 24 ->
  lo * (den x * den y) <= (num x * den y - num y * den x) * 2 ^ 14 <= hi * (den x * den y) ->
  fx (fsub b32 x y) lo hi.
Proof.
  intros Ox Oy Hlo Hhi H. pose proof (den_pos x) as Dx. pose proof (den_pos y) as Dy. unfold fsub.
  assert (Ny : num (fneg y) = - num y /\ den (fneg y) = den y)
    by (destruct y as [s|s| |s m e]; try contradiction Oy; destruct s; cbn; lia).
  destruct Ny as [Ny Ey].
  destruct y as [s'|s'| |s' m' e']; try contradiction Oy; destruct x as [s|s| |s m e]; try contradiction Ox;
    cbn [fneg fadd].
  - split; [exact I|]. cbn [num den] in *. lia.
  - cbn [num den] in *. split; [exact Ox|]. cbn [num den]. nia.
  - split; [exact Oy|]. change (FFin (negb s') m' e') with (fneg (FFin s' m' e')). rewrite Ny, Ey.
    cbn [num den] in H. split; [exact Hlo|]. clear -H. change (num (FFin s' m' e')) with (if s' then - sc m' e' else sc m' e').
    change (den (FFin s' m' e')) with (sc 1 (- e')). destruct s'; lia.
  - change (FFin (negb s') m' e') with (fneg (FFin s' m' e')). rewrite Ny, Ey.
    assert (0 < den (FFin s m e) * den (FFin s' m' e')) by nia.
    apply fx_round_rat; [nia|nia|exact Hlo|exact Hhi|lia].
Qed.

Lemma fx_of_Z z : 0 <= z < 2 ^ 10 -> fx (of_Z b32 z) (z * 2 ^ 14) (z * 2 ^ 14).
Proof.
  intros Hz. destruct (of_Z_exact b32 z b32_ok ltac:(cbn; lia)) as [O W]. split; [exact O|]. lia.
Qed.

(** *** Integer bounds of sums and quotients *)

Lemma within_num x a b : 0 <= a -> within x a b -> 0 <= num x.
Proof. intros Ha (_ & H). pose proof (den_pos x). nia. Qed.

Lemma round_rat_between f n d a b :
  fmt_ok f -> 0 <= n -> 0 < d -> 0 <= a -> b < 2 ^ prec f -> a * d <= n <= b * d ->
  within (round_rat f n d) a b.
Proof.
  intros F Hn Hd Ha Hb H. unfold round_rat. destruct (Z.eqb_spec n 0) as [->|Hn0].
  - split; [exact I|]. cbn [num den]. nia.
  - rewrite (proj2 (Z.ltb_ge n 0)), Z.abs_eq by lia.
    assert (0 <= b) by nia. assert (n < d * 2 ^ prec f) by nia.
    destruct (round_pos_le f n d b F) as [O [_ U]]; [lia|lia|lia|lia|].
    pose proof (round_pos_ge f n d a F ltac:(lia) Hd ltac:(assumption) ltac:(lia)). split; [exact O|lia].
Qed.

Lemma fadd_between f x y a b c d :
  fmt_ok f -> within x a b -> within y c d -> 0 <= a -> 0 <= c -> b + d < 2 ^ prec f ->
  within (fadd f x y) (a + c) (b + d).
Proof.
  intros F Hx Hy Ha Hc Hbd. pose proof (within_num _ _ _ Ha Hx) as Nx. pose proof (within_num _ _ _ Hc Hy) as Ny.
  pose proof (den_pos x) as Dx. pose proof (den_pos y) as Dy.
  destruct x as [s|s| |s m e]; try contradiction (proj1 Hx);
    destruct y as [s'|s'| |s' m' e']; try contradiction (proj1 Hy); cbn [fadd].
  - destruct Hx as [_ Hx], Hy as [_ Hy]. cbn [num den] in *. split; [exact I|]. cbn [num den]. lia.
  - destruct Hx as [_ Hx]. cbn [num den] in Hx. eapply within_weaken; [| |exact Hy]; lia.
  - destruct Hy as [_ Hy]. cbn [num den] in Hy. eapply within_weaken; [| |exact Hx]; lia.
  - destruct Hx as [_ Hx], Hy as [_ Hy]. set (x := FFin s m e) in *. set (y := FFin s' m' e') in *.
    apply round_rat_between; [exact F|nia|nia|lia|lia|].
    assert (a * den x * den y <= num x * den y <= b * den x * den y) by (split; apply Z.mul_le_mono_nonneg_r; lia).
    assert (c * den y * den x <= num y * den x <= d * den y * den x) by (split; apply Z.mul_le_mono_nonneg_r; lia). lia.
Qed.

Lemma fdiv_between f x y a b z :
  fmt_ok f -> within x (a * z) (b * z) -> within y z z -> 0 < z -> 0 <= a -> b < 2 ^ prec f ->
  within (fdiv f x y) a b.
Proof.
  intros F Hx Hy Hz Ha Hb. assert (0 <= a * z) by nia.
  destruct y as [t|t| |t m' e']; try contradiction (proj1 Hy); [destruct Hy as [_ Hy]; cbn in Hy; lia|].
  destruct x as [s|s| |s m e]; try contradiction (proj1 Hx); cbn [fdiv].
  { destruct Hx as [_ Hx]. cbn [num den] in Hx. split; [exact I|]. cbn [num den]. nia. }
  rewrite (within_nonneg_sign s m e (a * z) (b * z)), (within_nonneg_sign t m' e' z z) in * by (lia || assumption).
  destruct Hx as [Mx Hx], Hy as [My Hy]. cbn [okf] in Mx, My.
  set (x := FFin false m e) in *. set (y := FFin false m' e') in *.
  pose proof (den_pos x) as Dx. pose proof (den_pos y) as Dy.
  assert (0 < num x) by (apply sc_pos; assumption). assert (0 < num y) by (apply sc_pos; assumption).
  assert (Ny : num y = z * den y) by lia. cbn [xorb]. rewrite !Z.abs_eq by nia. rewrite Ny.
  assert (L : a * (z * den y * den x) <= num x * den y) by nia.
  assert (U : num x * den y <= b * (z * den y * den x)) by nia.
  assert (0 < z * den y * den x) by nia. assert (0 < num x * den y) by nia. assert (0 <= b) by nia.
  destruct (round_pos_le f (num x * den y) (z * den y * den x) b F) as [O [_ U']]; [lia|lia|lia|lia|].
  pose proof (round_pos_ge f (num x * den y) (z * den y * den x) a F ltac:(lia) ltac:(lia) ltac:(nia) L).
  split; [exact O|lia].
Qed.

Lemma integral_between f op x a b :
  fmt_ok f -> okf x -> a <= op x <= b -> 0 <= a -> b < 2 ^ prec f -> (forall s, op (FZero s) = 0) ->
  within (integral f op x) a b.
Proof.
  intros F Hx Hr Ha Hb Hop.
  eapply within_weaken; [exact (proj1 Hr)|exact (proj2 Hr)|]. apply integral_within; try assumption; lia.
Qed.

Lemma to_int_between lo hi x a b :
  within x a b -> 0 <= a -> lo <= a -> b < hi -> exists z, to_int lo hi x = Ok z /\ a <= z <= b.
Proof.
  intros Hx Ha Hlo Hhi. pose proof (truncZ_within x a b Ha Hx) as Hz. unfold to_int.
  rewrite (okf_finite x (proj1 Hx)), (proj2 (Z.leb_le lo _)), (proj2 (Z.ltb_lt _ hi)) by lia. eauto.
Qed.
