(* ===== verification/Format.v ===== *)
(** * Formatted input and output of numbers

    What the sources use of C's [printf] and C++'s streams, in the "C" locale:
    ["%g"] and ["%f"] with a precision, and [istringstream >> n] and [>> x].  The
    integers of the output are [dec] of [CString]. *)
From stdpp Require Import base gmap strings list numbers pretty.
From Stdlib Require Import ZArith Lia Ascii.
From S2P Require Import Prelude CString CFloat.
#[local] Open Scope string_scope.
#[local] Open Scope list_scope.
#[local] Open Scope Z_scope.

(** ** Output *)

(** [n] digits of [z], with leading zeros. *)
Definition pad_dec (n : nat) (z : Z) : string :=
  let d := dec z in String.concat "" (replicate (n - String.length d) "0") +:+ d.

Fixpoint strip_zeros (s : string) : string :=
  match s with
  | "" => ""
  | String c s' => let t := strip_zeros s' in if Ascii.eqb c "0" && empty t then "" else String c t
  end.

Definition with_fraction (int frac : string) : string :=
  let f := strip_zeros frac in if empty f then int else int +:+ "." +:+ f.

Definition sign_text (s : bool) : string := if s then "-" else "".

(** The digits of a positive value, [p] of them, and the exponent of the first. *)
Definition g_digits (p n d : Z) : Z * Z :=
  let digits z := Z.of_nat (String.length (dec z)) in
  let e := if d <=? n then digits (n / d) - 1 else - digits ((d + n - 1) / n - 1) in
  let m := rne (n * 10 ^ Z.max (p - 1 - e) 0) (d * 10 ^ Z.max (e - (p - 1)) 0) in
  if m =? 10 ^ p then (10 ^ (p - 1), e + 1) else (m, e).

Definition g_text (p m e : Z) : string :=
  let q := p - 1 in
  if (-4 <=? e) && (e <? p) then
    if e <? 0 then with_fraction "0" (String.concat "" (replicate (Z.to_nat (- e - 1)) "0") +:+ pad_dec (Z.to_nat p) m)
    else with_fraction (dec (m / 10 ^ (q - e))) (pad_dec (Z.to_nat (q - e)) (m mod 10 ^ (q - e)))
  else with_fraction (dec (m / 10 ^ q)) (pad_dec (Z.to_nat q) (m mod 10 ^ q))
       +:+ (if e <? 0 then "e-" else "e+") +:+ pad_dec 2 (Z.abs e).

(** ["%.<p>g"]; a stream writes a number like this, with a precision of 6. *)
Definition printf_g (p : Z) (x : float) : string :=
  match x with
  | FNaN => "nan"
  | FInf s => sign_text s +:+ "inf"
  | FZero s => sign_text s +:+ "0"
  | FFin s m e => let '(k, d) := g_digits p (sc m e) (sc 1 (- e)) in sign_text s +:+ g_text p k d
  end.

(** ["%.<p>f"]; a stream writes a number like this after [fixed]. *)
Definition printf_f (p : Z) (x : float) : string :=
  match x with
  | FNaN => "nan"
  | FInf s => sign_text s +:+ "inf"
  | FZero s => sign_text s +:+ "0." +:+ pad_dec (Z.to_nat p) 0
  | FFin s m e =>
      let k := rne (sc m e * 10 ^ p) (sc 1 (- e)) in
      sign_text s +:+ dec (k / 10 ^ p) +:+ "." +:+ pad_dec (Z.to_nat p) (k mod 10 ^ p)
  end.

(** ** Input *)

Definition cut_sign (s : string) : bool * string :=
  match s with
  | String "-" t => (true, t)
  | String "+" t => (false, t)
  | _ => (false, s)
  end.

Definition starts_with_digit (s : string) : bool := match s with String c _ => isdigit c | "" => false end.

(** [istringstream >> n] of an [int]: none when the stream fails. *)
Definition stream_int (s : string) : option Z :=
  let '(neg, t) := cut_sign (skip_space s) in
  if starts_with_digit t then
    let v := if neg then - digits_value 0 t else digits_value 0 t in
    if (- 2 ^ 31 <=? v) && (v <? 2 ^ 31) then Some v else None
  else None.

(** The value [strtof] gives to [v * 10 ^ x]: see [dec_value] for [double]. *)
Definition dec_value32 (s : bool) (v x : Z) : float :=
  if v =? 0 then FZero s
  else
    let l := Z.log2 v / 3 in
    if x + l <? -400 then FZero s
    else if 400 <? x then FInf s
    else if 0 <=? x then round_pos b32 s (v * 10 ^ x) 1 else round_pos b32 s v (10 ^ (- x)).

(** [istringstream >> x] of a [float]: the characters that make up a decimal
    number are collected, and all of them must be used by the conversion. *)
Definition stream_float (s : string) : option float :=
  let '(neg, t) := cut_sign (skip_space s) in
  let '(v, digits, fraction, r) := scan_mantissa 10 dec_digit t in
  if digits =? 0 then None
  else
    let value x := let f := dec_value32 neg v (x - fraction) in if finite f then Some f else None in
    match r with
    | String c r' =>
        if Ascii.eqb (tolower_c c) "e" then
          let '(_, e) := cut_sign r' in
          if starts_with_digit e then value (scan_exp "e" r) else None
        else value 0
    | "" => value 0
    end.

(** ** Examples *)

Example printf_g_six : printf_g 6 (of_Z b32 1234567) = "1.23457e+06" /\ printf_g 6 (FFin false 1 (-1)) = "0.5".
Proof. vm_compute. split; reflexivity. Qed.

Example printf_f_six : printf_f 6 (fdiv b32 (of_Z b32 1) (of_Z b32 3)) = "0.333333" /\ printf_f 6 (of_Z b32 (-2)) = "-2.000000".
Proof. vm_compute. split; reflexivity. Qed.

Example stream_float_exponent :
  stream_float "1.5e1" = Some (of_Z b32 15) /\ stream_float "1e" = None /\ stream_float "0x3" = Some (FZero false).
Proof. vm_compute. repeat split; reflexivity. Qed.
