(* ===== verification/Environment.v ===== *)
(** * Configuration (src/src/Environment.h)

    The class of static functions that read the environment.  [getenv] is the
    operating system's, a parameter; a function without its variable returns
    the default of the source's macro. *)
From stdpp Require Import base strings list numbers.
From Stdlib Require Import ZArith Lia Ascii.
From S2P Require Import Prelude CString CFloat.
#[local] Open Scope string_scope.
#[local] Open Scope list_scope.
#[local] Open Scope Z_scope.

Definition VERBOSITY : Z := 1.
Definition LOGFILE : string := "/tmp/iipsrv.log".
Definition MAX_IMAGE_CACHE_SIZE : float := fcvt b32 (atof "10.0").
Definition FILENAME_PATTERN : string := "_pyr_".
Definition JPEG_QUALITY : Z := 75.
Definition PNG_QUALITY : Z := 1.
Definition MAX_CVT : Z := 5000.
Definition LIBMEMCACHED_TIMEOUT : Z := 86400.
Definition IIIF_VERSION : Z := 2.

Section Environment.
Context (getenv : string -> option string).

(** A variable kept as a string. *)
Definition env_string (name default_ : string) : string :=
  match getenv name with Some envpara => envpara | None => default_ end.

Definition getVerbosity : Z :=
  match getenv "VERBOSITY" with
  | Some envpara => let loglevel := atoi envpara in if loglevel <? 0 then 0 else loglevel
  | None => VERBOSITY
  end.

Definition getLogFile : string := env_string "LOGFILE" LOGFILE.

Definition getMaxImageCacheSize : float :=
  match getenv "MAX_IMAGE_CACHE_SIZE" with
  | Some envpara => atof32 envpara
  | None => MAX_IMAGE_CACHE_SIZE
  end.

Definition getFileNamePattern : string := env_string "FILENAME_PATTERN" FILENAME_PATTERN.

Definition getJPEGQuality : Z :=
  match getenv "JPEG_QUALITY" with
  | Some envpara =>
      let q := atoi envpara in
      let q := if 100 <? q then 100 else q in
      if q <? 1 then 1 else q
  | None => JPEG_QUALITY
  end.

Definition getPNGQuality : Z :=
  match getenv "PNG_QUALITY" with
  | Some envpara =>
      let q := atoi envpara in
      let q := if 9 <? q then 9 else q in
      if q <? 0 then 0 else q
  | None => PNG_QUALITY
  end.

Definition getMaxCVT : Z :=
  match getenv "MAX_CVT" with
  | Some envpara =>
      let m := atoi envpara in
      if m <? -1 then 1 else if m =? 0 then MAX_CVT else m
  | None => MAX_CVT
  end.

Definition getMaxLayers : Z := match getenv "MAX_LAYERS" with Some envpara => atoi envpara | None => 0 end.
Definition getFileSystemPrefix : string := env_string "FILESYSTEM_PREFIX" "".
Definition getFileSystemSuffix : string := env_string "FILESYSTEM_SUFFIX" "".
Definition getWatermark : string := env_string "WATERMARK" "".

(** A [float] forced between 0 and 1. *)
Definition clamp_unit (x : float) : float :=
  let x := if fgt x (of_Z b32 1) then of_Z b32 1 else x in
  if flt x (FZero false) then FZero false else x.

Definition getWatermarkProbability : float :=
  match getenv "WATERMARK_PROBABILITY" with
  | Some envpara => clamp_unit (atof32 envpara)
  | None => of_Z b32 1
  end.

Definition getWatermarkOpacity : float :=
  match getenv "WATERMARK_OPACITY" with
  | Some envpara => clamp_unit (atof32 envpara)
  | None => of_Z b32 1
  end.

Definition getMemcachedServers : string := env_string "MEMCACHED_SERVERS" "localhost".

Definition getMemcachedTimeout : Z :=
  match getenv "MEMCACHED_TIMEOUT" with Some envpara => u32 (atoi envpara) | None => LIBMEMCACHED_TIMEOUT end.

Definition getInterpolation : Z :=
  match getenv "INTERPOLATION" with Some envpara => u32 (atoi envpara) | None => 1 end.

Definition getCORS : string := env_string "CORS" "".
Definition getBaseURL : string := env_string "BASE_URL" "".
Definition getCacheControl : string := env_string "CACHE_CONTROL" "max-age=86400".

Definition getAllowUpscaling : bool :=
  match getenv "ALLOW_UPSCALING" with Some envpara => negb (atoi envpara =? 0) | None => true end.

Definition getURIMap : string := env_string "URI_MAP" "".

(** A [bool] returned as an [unsigned int]. *)
Definition getEmbedICC : Z :=
  let embed := match getenv "EMBED_ICC" with Some envpara => negb (atoi envpara =? 0) | None => true end in
  if embed then 1 else 0.

Definition getKduReadMode : Z :=
  match getenv "KAKADU_READMODE" with
  | Some envpara => let m := u32 (atoi envpara) in if 2 <? m then 2 else m
  | None => 0
  end.

Definition getIIIFVersion : Z :=
  match getenv "IIIF_VERSION" with
  | Some envpara => let v := u32 (atoi envpara) in if v <? 1 then IIIF_VERSION else v
  | None => IIIF_VERSION
  end.
End Environment.

(** ** Properties *)

Lemma atoi_range s : is_i32 (atoi s).
Proof. apply i32_range. Qed.

(** Whatever the environment says, the numbers the rest of the server relies
    on are in their ranges: a positive or unlimited CVT size, quality levels
    libjpeg and zlib accept, a log level and versions that are not negative. *)
Theorem configuration_ranges (getenv : string -> option string) :
  0 <= getVerbosity getenv /\ 1 <= getJPEGQuality getenv <= 100 /\ 0 <= getPNGQuality getenv <= 9
  /\ (getMaxCVT getenv = -1 \/ 0 < getMaxCVT getenv) /\ is_i32 (getMaxLayers getenv)
  /\ is_u32 (getMemcachedTimeout getenv) /\ is_u32 (getInterpolation getenv)
  /\ (getEmbedICC getenv = 0 \/ getEmbedICC getenv = 1) /\ 0 <= getKduReadMode getenv <= 2
  /\ 1 <= getIIIFVersion getenv < 2 ^ 32.
Proof.
  repeat apply conj;
  lazymatch goal with |- context [?f getenv] => unfold f end;
  (match goal with |- context [getenv ?n] => destruct (getenv n) as [e|] end;
    [pose proof (atoi_range e); pose proof (u32_range (atoi e))|]);
  unfold is_i32, is_u32, VERBOSITY, JPEG_QUALITY, PNG_QUALITY, MAX_CVT, LIBMEMCACHED_TIMEOUT, IIIF_VERSION in *;
  repeat match goal with |- context [if ?b then _ else _] => destruct b eqn:? end; lia.
Qed.
