(* ===== verification/Tokenizer.v ===== *)
(** * Tokenizer (src/src/Tokenizer.h)

    Splitting of a string on a delimiter.  The object's state is the record
    [Tokenizer]; [nextToken] returns the token and the new state.  The
    [do .. while] loop of [nextToken] is [nextToken_loop], run with one more
    step than the string has characters; [take_tokens] is the
    [while (izer.hasMoreTokens() && i < k)] loop of the handlers. *)
From stdpp Require Import base strings list numbers.
From Stdlib Require Import ZArith Lia Ascii.
From S2P Require Import Prelude CString.
#[local] Open Scope string_scope.
#[local] Open Scope list_scope.
#[local] Open Scope Z_scope.

Record Tokenizer := mkTokenizer { arg : string; delim : string }.

Definition _nextToken (t : Tokenizer) : res (string * Tokenizer) :=
  let n := i32 (find (delim t) (arg t)) in
  if n <? 0 then Ok (arg t, mkTokenizer "" (delim t))
  else
    result ← substr (arg t) 0 n;
    rest ← substr (arg t) (n + slen (delim t)) (slen (arg t));
    Ok (result, mkTokenizer rest (delim t)).

Fixpoint nextToken_loop (fuel : nat) (t : Tokenizer) : res (string * Tokenizer) :=
  match fuel with
  | O => Err OutOfFuel
  | S fuel =>
      '(result, t') ← _nextToken t;
      if empty result && negb (empty (arg t')) then nextToken_loop fuel t'
      else Ok (result, t')
  end.

Definition nextToken (t : Tokenizer) : res (string * Tokenizer) :=
  nextToken_loop (S (String.length (arg t))) t.

Definition hasMoreTokens (t : Tokenizer) : bool :=
  0 <=? i32 (find_first_not_of (delim t) (arg t)).

(** At most [k] tokens, in order, and the tokenizer after them. *)
Fixpoint take_tokens (k : nat) (t : Tokenizer) : res (list string * Tokenizer) :=
  match k with
  | O => Ok ([], t)
  | S k =>
      if hasMoreTokens t then
        '(x, t') ← nextToken t;
        '(xs, t'') ← take_tokens k t';
        Ok (x :: xs, t'')
      else Ok ([], t)
  end.

(** All tokens of a string. *)
Definition tokens (s d : string) : res (list string) :=
  fst <$> take_tokens (S (String.length s)) (mkTokenizer s d).

(** ** Specification: the non-empty fields between delimiters *)

Fixpoint fields (c : ascii) (s : string) : list string :=
  match s with
  | "" => [""]
  | String d s' =>
      if Ascii.eqb d c then "" :: fields c s'
      else match fields c s' with
           | [] => [String d ""]
           | f :: fs => String d f :: fs
           end
  end.

Definition nonempty_fields (c : ascii) (s : string) : list string :=
  filter (fun f => empty f = false) (fields c s).

(** ** Lemmas *)

Lemma fields_cons c s : exists f fs, fields c s = f :: fs.
Proof.
  destruct s as [|d s]; cbn; [eauto|].
  destruct (Ascii.eqb d c); [eauto|]. destruct (fields c s); eauto.
Qed.

Lemma sfind_char_cons c d s :
  sfind (String c "") (String d s)
  = if Ascii.eqb d c then Some 0%nat else S <$> sfind (String c "") s.
Proof.
  cbn [sfind]. rewrite prefix_cons.
  destruct (ascii_dec c d) as [->|Hne].
  - rewrite Ascii.eqb_refl. destruct s; reflexivity.
  - destruct (Ascii.eqb_spec d c); [congruence|reflexivity].
Qed.

Lemma sfind_char_app c a b : smem c a = false -> fields c (a +:+ String c b) = a :: fields c b.
Proof.
  induction a as [|x a IH]; intros H; cbn [smem] in H.
  - rewrite snil_app. cbn [fields]. rewrite Ascii.eqb_refl. reflexivity.
  - apply orb_false_elim in H as [H1 H2]. rewrite scons_app. cbn [fields].
    rewrite Ascii.eqb_sym, H1, IH by exact H2. reflexivity.
Qed.

Lemma fields_alone c a : smem c a = false -> fields c a = [a].
Proof.
  induction a as [|x a IH]; intros H; cbn [smem] in H; [reflexivity|].
  apply orb_false_elim in H as [H1 H2]. cbn [fields]. rewrite Ascii.eqb_sym, H1, IH by exact H2. reflexivity.
Qed.

(** One field is cut off by [find]: the two cases of [_nextToken]. *)
Lemma fields_find c s :
  match sfind (String c "") s with
  | None => fields c s = [s]
  | Some n => fields c s = stake n s :: fields c (sdrop (S n) s)
  end.
Proof.
  induction s as [|d s IH]; [reflexivity|].
  rewrite sfind_char_cons. cbn [fields]. destruct (Ascii.eqb_spec d c) as [->|Hne].
  - cbn [stake sdrop]. rewrite ?sdrop_0. reflexivity.
  - destruct (sfind (String c "") s) as [n|]; cbn [fmap option_fmap option_map];
      rewrite IH; reflexivity.
Qed.

Lemma nonempty_fields_find c s :
  nonempty_fields c s =
  match sfind (String c "") s with
  | None => if empty s then [] else [s]
  | Some n =>
      (if empty (stake n s) then [] else [stake n s]) ++ nonempty_fields c (sdrop (S n) s)
  end.
Proof.
  unfold nonempty_fields. pose proof (fields_find c s) as H.
  destruct (sfind (String c "") s) as [n|]; rewrite H.
  - rewrite filter_cons. destruct (empty (stake n s)); reflexivity.
  - rewrite filter_cons. destruct (empty s); reflexivity.
Qed.

Lemma hasMoreTokens_spec c s :
  slen s < 2 ^ 31 ->
  hasMoreTokens (mkTokenizer s (String c "")) = negb (bool_decide (nonempty_fields c s = [])).
Proof.
  intros Hs. unfold hasMoreTokens, find_first_not_of. cbn [arg delim].
  assert (H : match sfind_if (fun d => negb (smem d (String c ""))) s with
              | Some i => (i < String.length s)%nat /\ nonempty_fields c s <> []
              | None => nonempty_fields c s = []
              end).
  { clear Hs. induction s as [|d s IH]; [reflexivity|].
    unfold nonempty_fields in *. cbn [sfind_if smem fields String.length].
    rewrite orb_false_r. destruct (Ascii.eqb d c); cbn [negb].
    - rewrite filter_cons. cbn.
      destruct (sfind_if _ s) as [i|]; cbn; [split; [lia|apply IH] | exact IH].
    - split; [lia|]. destruct (fields_cons c s) as (f & fs & ->).
      rewrite filter_cons. cbn. discriminate. }
  destruct (sfind_if _ s) as [i|]; cbn [pos_of].
  - destruct H as [Hi Hne]. rewrite bool_decide_false by exact Hne.
    unfold slen in Hs. rewrite i32_small by lia. apply Z.leb_le. lia.
  - rewrite bool_decide_true by exact H. reflexivity.
Qed.

(** One step of [_nextToken] on a one-character delimiter. *)
Lemma _nextToken_char c s :
  slen s < 2 ^ 31 ->
  _nextToken (mkTokenizer s (String c "")) =
  match sfind (String c "") s with
  | None => Ok (s, mkTokenizer "" (String c ""))
  | Some n => Ok (stake n s, mkTokenizer (sdrop (S n) s) (String c ""))
  end.
Proof.
  intros Hs. unfold _nextToken, find. cbn [arg delim].
  destruct (sfind (String c "") s) as [n|] eqn:E; cbn [pos_of]; [|reflexivity].
  apply sfind_Some in E as [_ E]. cbn [String.length] in E. unfold slen in Hs.
  rewrite i32_small by lia. destruct (Z.ltb_spec (Z.of_nat n) 0); [lia|].
  change (slen (String c "")) with 1.
  rewrite !substr_ok by (unfold slen; lia). rewrite !bind_ret, sdrop_0.
  do 3 f_equal; [f_equal; unfold slen; lia|].
  rewrite stake_all by (rewrite length_sdrop; unfold slen; lia).
  f_equal. f_equal. lia.
Qed.

Lemma nextToken_loop_spec c fuel s :
  slen s < 2 ^ 31 -> (String.length s < fuel)%nat ->
  exists x s', nextToken_loop fuel (mkTokenizer s (String c "")) = Ok (x, mkTokenizer s' (String c ""))
    /\ nonempty_fields c s = (if empty x then [] else [x]) ++ nonempty_fields c s'
    /\ (String.length s' <= String.length s - 1)%nat
    /\ (empty x = true -> s' = "").
Proof.
  revert s. induction fuel as [|fuel IH]; intros s Hs Hf; [lia|].
  cbn [nextToken_loop]. rewrite _nextToken_char by exact Hs.
  rewrite nonempty_fields_find.
  destruct (sfind (String c "") s) as [n|] eqn:E.
  - pose proof (sfind_Some _ _ _ E) as [_ Hn]. cbn [String.length] in Hn.
    assert (Hd : (String.length (sdrop (S n) s) < String.length s)%nat)
      by (rewrite length_sdrop; lia).
    rewrite bind_ret. cbn [arg].
    destruct (empty (stake n s)) eqn:Hx; cbn [andb].
    + destruct (empty (sdrop (S n) s)) eqn:Hr; cbn [negb].
      * exists (stake n s), (sdrop (S n) s). rewrite Hx. repeat split; [lia|].
        destruct (sdrop (S n) s); [auto|discriminate].
      * destruct (IH (sdrop (S n) s)) as (x & s' & -> & H2 & H3 & H4); [unfold slen in *; lia|lia|].
        exists x, s'. rewrite H2. repeat split; [lia|exact H4].
    + exists (stake n s), (sdrop (S n) s). rewrite Hx. repeat split; [lia|discriminate].
  - rewrite bind_ret. cbn [arg]. rewrite andb_false_r.
    exists s, "". cbn [String.length]. repeat split; [|lia].
    destruct (empty s); reflexivity.
Qed.

Lemma nextToken_spec c s :
  slen s < 2 ^ 31 -> nonempty_fields c s <> [] ->
  exists x s', nextToken (mkTokenizer s (String c "")) = Ok (x, mkTokenizer s' (String c ""))
    /\ nonempty_fields c s = x :: nonempty_fields c s'
    /\ (String.length s' < String.length s)%nat.
Proof.
  intros Hs Hne. unfold nextToken. cbn [arg].
  destruct (nextToken_loop_spec c (S (String.length s)) s Hs ltac:(lia))
    as (x & s' & H1 & H2 & H3 & H4).
  exists x, s'. destruct (empty x) eqn:Hx.
  - rewrite (H4 eq_refl) in H2. exfalso. apply Hne. rewrite H2. reflexivity.
  - repeat split; [exact H1 | exact H2 |].
    destruct s as [|a s]; [exfalso; apply Hne; reflexivity|]. cbn [String.length] in *. lia.
Qed.

Lemma take_tokens_spec c k s :
  slen s < 2 ^ 31 ->
  exists s', take_tokens k (mkTokenizer s (String c "")) =
    Ok (take k (nonempty_fields c s), mkTokenizer s' (String c ""))
    /\ nonempty_fields c s' = drop k (nonempty_fields c s)
    /\ (String.length s' <= String.length s)%nat.
Proof.
  revert s. induction k as [|k IH]; intros s Hs.
  - exists s. repeat split; auto.
  - cbn [take_tokens]. rewrite hasMoreTokens_spec by exact Hs.
    case_bool_decide as Hne; cbn [negb].
    + exists s. rewrite Hne. repeat split; lia.
    + destruct (nextToken_spec c s Hs Hne) as (x & s1 & -> & H2 & H3). rewrite bind_ret.
      destruct (IH s1) as (s' & -> & H5 & H6); [unfold slen in *; lia|]. rewrite bind_ret, H2.
      exists s'. repeat split; [exact H5 | lia].
Qed.

Lemma length_nonempty_fields c s : (length (nonempty_fields c s) <= S (String.length s))%nat.
Proof.
  unfold nonempty_fields. etransitivity; [apply length_filter|].
  induction s as [|d s IH]; cbn; [lia|].
  destruct (Ascii.eqb d c); cbn; [lia|]. destruct (fields c s); cbn in *; lia.
Qed.

(** ** Properties *)

(** Tokenising on a one-character delimiter yields exactly the non-empty
    fields between the delimiters, in order, and the fuel of the loops is
    enough: the loop over [hasMoreTokens]/[nextToken] always ends. *)
Theorem tokens_nonempty_fields (c : ascii) (s : string) :
  slen s < 2 ^ 31 ->
  tokens s (String c "") = Ok (nonempty_fields c s).
Proof.
  intros Hs. unfold tokens.
  destruct (take_tokens_spec c (S (String.length s)) s Hs) as (s' & -> & _ & _).
  cbn. f_equal. apply take_ge, length_nonempty_fields.
Qed.

Lemma tokens_nonempty_fields_witness :
  slen "a,,b,c," < 2 ^ 31 /\ tokens "a,,b,c," "," = Ok ["a"; "b"; "c"].
Proof. split; [reflexivity|]. exact (tokens_nonempty_fields "," "a,,b,c," ltac:(reflexivity)). Defined.
