(* ===== verification/URL.v ===== *)
(** * URL decoding and JSON escaping (src/src/URL.h)

    [decode] walks the string as the iterator does: [+] becomes a space, a
    [%] followed by two hexadecimal digits becomes the character, [%00] is
    dropped with a warning, any other [%] is passed through.  The guard of the
    source, [distance (iter, end) >= 2], lets [iter + 2] be [end]; the model
    reads the terminating NUL there, as the contiguous strings of the
    supported compilers do. *)
From stdpp Require Import base strings list numbers.
From Stdlib Require Import ZArith Lia Ascii.
From S2P Require Import Prelude CString.
#[local] Open Scope string_scope.
#[local] Open Scope list_scope.
#[local] Open Scope Z_scope.

Record URL := mkURL { url : string; warning_message : string }.

Definition new_URL (s : string) : URL := mkURL s "".

(** The value of a (signed) [char]. *)
Definition schar (c : ascii) : Z := if 128 <=? code c then code c - 256 else code c.

Definition hexToChar (first second : ascii) : ascii :=
  let digit := if 65 <=? schar first then Z.land (schar first) 223 - 65 + 10 else schar first - 48 in
  let digit := digit * 16 in
  let digit := digit + (if 65 <=? schar second then Z.land (schar second) 223 - 65 + 10
                        else schar second - 48) in
  chr digit.

Definition nul_warning (u : string) : string :=
  "Warning! Detected embedded NULL byte in URL: " +:+ u.

(** The characters appended to [argument] by the rest of the loop, and the
    warning after it. *)
Fixpoint decode_loop (u w s : string) : string * string :=
  match s with
  | "" => ("", w)
  | String c s1 =>
      if Ascii.eqb c "+" then
        let '(r, w) := decode_loop u w s1 in (String " " r, w)
      else if Ascii.eqb c "%" then
        match s1 with
        | String a (String b s3) =>
            if isxdigit a && isxdigit b then
              if Ascii.eqb a "0" && Ascii.eqb b "0" then decode_loop u (nul_warning u) s3
              else let '(r, w) := decode_loop u w s3 in (String (hexToChar a b) r, w)
            else let '(r, w) := decode_loop u w s1 in (String "%" r, w)
        | String a "" =>
            (* iter + 2 is end: *(iter + 2) is the terminator, no digit *)
            if isxdigit a && isxdigit "000" then ("", w)
            else let '(r, w) := decode_loop u w s1 in (String "%" r, w)
        | "" => (String "%" "", w)
        end
      else let '(r, w) := decode_loop u w s1 in (String c r, w)
  end.

Definition decode (t : URL) : string * URL :=
  let '(r, w) := decode_loop (url t) (warning_message t) (url t) in (r, mkURL (url t) w).

(** The double quote and the backslash. *)
Definition dquote : ascii := chr 34.
Definition backslash : ascii := chr 92.

Definition escape_char (c : ascii) : string :=
  if Ascii.eqb c backslash then String backslash (String backslash "")
  else if Ascii.eqb c dquote then String backslash (String dquote "")
  else if Ascii.eqb c "%" then "%%"
  else String c "".

Fixpoint escape_loop (s : string) : string :=
  match s with
  | "" => ""
  | String c s' => escape_char c +:+ escape_loop s'
  end.

Definition escape (t : URL) : string * URL :=
  let '(input, t) := decode t in (escape_loop input, t).

Definition warning (t : URL) : string := warning_message t.

(** ** Specification *)

Definition hexdigit (upper : bool) (d : Z) : ascii :=
  chr (if d <? 10 then 48 + d else (if upper then 55 else 87) + d).

(** A percent-encoder as clients have it: characters that are [safe] are sent
    as they are, a space may be sent as [+], every other character as [%XX]. *)
Definition encode_char (safe : ascii -> bool) (plus upper : bool) (c : ascii) : string :=
  if safe c && negb (Ascii.eqb c "%") && negb (Ascii.eqb c "+") then String c ""
  else if plus && Ascii.eqb c " " then "+"
  else String "%" (String (hexdigit upper (code c / 16)) (String (hexdigit upper (code c mod 16)) "")).

Fixpoint encode (safe : ascii -> bool) (plus upper : bool) (s : string) : string :=
  match s with
  | "" => ""
  | String c s' => encode_char safe plus upper c +:+ encode safe plus upper s'
  end.

(** Reading a quoted string as a JSON parser does: up to the first quote that
    no backslash escapes; the contents and what follows the quote. *)
Fixpoint json_scan (s : string) : option (string * string) :=
  match s with
  | "" => None
  | String c s1 =>
      if Ascii.eqb c dquote then Some ("", s1)
      else if Ascii.eqb c backslash then
        match s1 with
        | String d s2 => '(x, r) ← json_scan s2; Some (String d x, r)
        | "" => None
        end
      else '(x, r) ← json_scan s1; Some (String c x, r)
  end.

(** Every [%] twice, as a [printf] format would need it. *)
Fixpoint double_percent (s : string) : string :=
  match s with
  | "" => ""
  | String c s' => if Ascii.eqb c "%" then String c (String c (double_percent s'))
                   else String c (double_percent s')
  end.

(** ** Lemmas *)

(** A property of characters decided on all 256 of them. *)
Lemma ascii_forall (P : ascii -> bool) :
  forallb P (chr <$> range 0 256) = true -> forall c, P c = true.
Proof.
  intros H c. rewrite forallb_forall in H. apply H, list_elem_of_In, list_elem_of_fmap.
  exists (code c). rewrite chr_code, elem_of_range. split; [reflexivity|apply code_range].
Qed.

Lemma hex_chars (upper : bool) (c : ascii) :
  let a := hexdigit upper (code c / 16) in let b := hexdigit upper (code c mod 16) in
  isxdigit a && isxdigit b && Ascii.eqb (hexToChar a b) c
    && Bool.eqb (Ascii.eqb a "0" && Ascii.eqb b "0") (Ascii.eqb c "000") = true.
Proof. revert c. destruct upper; apply ascii_forall; vm_compute; reflexivity. Qed.

(** What [decode] does with a [%XX] group. *)
Lemma decode_loop_hex u w a b s :
  isxdigit a && isxdigit b = true ->
  decode_loop u w (String "%" (String a (String b s))) =
  if Ascii.eqb a "0" && Ascii.eqb b "0" then decode_loop u (nul_warning u) s
  else let '(r, w) := decode_loop u w s in (String (hexToChar a b) r, w).
Proof. intros H. cbn [decode_loop]. cbn. rewrite H. reflexivity. Qed.

Lemma decode_loop_plain u w c s :
  Ascii.eqb c "%" = false -> Ascii.eqb c "+" = false ->
  decode_loop u w (String c s) = let '(r, w) := decode_loop u w s in (String c r, w).
Proof. intros H1 H2. cbn [decode_loop]. rewrite H1, H2. reflexivity. Qed.

Lemma decode_loop_encode_char safe plus upper u w c s :
  Ascii.eqb c "000" = false ->
  decode_loop u w (encode_char safe plus upper c +:+ s)
  = let '(r, w) := decode_loop u w s in (String c r, w).
Proof.
  intros Hc. unfold encode_char.
  destruct (safe c && negb (Ascii.eqb c "%") && negb (Ascii.eqb c "+")) eqn:E1.
  { apply andb_prop in E1 as [[_ E1]%andb_prop E2]. rewrite scons_app.
    apply negb_true_iff in E1, E2. apply decode_loop_plain; assumption. }
  destruct (plus && Ascii.eqb c " ") eqn:E2.
  { apply andb_prop in E2 as [_ ->%Ascii.eqb_eq]. reflexivity. }
  pose proof (hex_chars upper c) as H. cbv zeta in H.
  apply andb_prop in H as [H H0%eqb_prop]. apply andb_prop in H as [H H1%Ascii.eqb_eq].
  rewrite !scons_app, decode_loop_hex, H0, H1, Hc by exact H. reflexivity.
Qed.

Lemma hexToChar_nul a b :
  isxdigit a && isxdigit b = true -> hexToChar a b = chr 0 -> a = "0"%char /\ b = "0"%char.
Proof.
  intros H E.
  assert (forallb (fun a => forallb (fun b => negb (isxdigit a && isxdigit b)
     || negb (Ascii.eqb (hexToChar a b) (chr 0)) || (Ascii.eqb a "0" && Ascii.eqb b "0"))
     (chr <$> range 0 256)) (chr <$> range 0 256) = true) as Hall by (vm_compute; reflexivity).
  pose proof (ascii_forall _ (ascii_forall _ Hall a) b) as Hab.
  cbv beta in Hab. rewrite H, E in Hab. cbn [negb orb] in Hab. rewrite Ascii.eqb_refl in Hab. cbn in Hab.
  apply andb_prop in Hab as [->%Ascii.eqb_eq ->%Ascii.eqb_eq]. split; reflexivity.
Qed.

Lemma json_scan_backslash d s :
  json_scan (String backslash (String d s)) = '(x, r) ← json_scan s; Some (String d x, r).
Proof. reflexivity. Qed.

Lemma json_scan_plain c s :
  c <> dquote -> c <> backslash ->
  json_scan (String c s) = '(x, r) ← json_scan s; Some (String c x, r).
Proof.
  intros H1%Ascii.eqb_neq H2%Ascii.eqb_neq. cbn [json_scan]. rewrite H1, H2. reflexivity.
Qed.

Lemma json_scan_escape s rest :
  json_scan (escape_loop s +:+ String dquote rest) = Some (double_percent s, rest).
Proof.
  induction s as [|c s IH]; [reflexivity|].
  cbn [escape_loop double_percent]. rewrite sapp_assoc. unfold escape_char.
  destruct (Ascii.eqb_spec c backslash) as [->|H1];
    [rewrite !scons_app; rewrite snil_app, json_scan_backslash, IH; reflexivity|].
  destruct (Ascii.eqb_spec c dquote) as [->|H2];
    [rewrite !scons_app; rewrite snil_app, json_scan_backslash, IH; reflexivity|].
  destruct (Ascii.eqb_spec c "%") as [->|H3]; rewrite !scons_app, snil_app;
    rewrite !json_scan_plain by (assumption || discriminate); rewrite IH; reflexivity.
Qed.

(** ** Properties *)

(** C31. Decoding inverts percent-encoding: whatever characters the client
    leaves as they are, and whether it writes spaces as [+] and hexadecimal
    digits in capitals or not, [decode] gives back the string that was encoded,
    with no warning, if it has no NUL.  The characters left alone are chosen one by one,
    the form of spaces and digits for the whole string. *)
Theorem decode_encode (safe : ascii -> bool) (plus upper : bool) (s : string) :
  smem (chr 0) s = false ->
  decode (new_URL (encode safe plus upper s)) = (s, new_URL (encode safe plus upper s)).
Proof.
  intros Hs. unfold decode, new_URL. cbn [url warning_message].
  assert (H : forall u, decode_loop u "" (encode safe plus upper s) = (s, "")).
  { intros u. induction s as [|c s IH]; [reflexivity|]. cbn [smem] in Hs.
    apply orb_false_elim in Hs as [Hc Hs]. cbn [encode].
    rewrite decode_loop_encode_char, IH by (auto; rewrite Ascii.eqb_sym in Hc; exact Hc). reflexivity. }
  rewrite H. reflexivity.
Qed.

Lemma decode_encode_witness :
  decode (new_URL "a%20b%2F%c3%a9%2b") = ("a b/" +:+ String (chr 195) (String (chr 169) "+"),
                                         new_URL "a%20b%2F%c3%a9%2b")
  /\ smem (chr 0) "a b/+" = false
  /\ decode (new_URL "a%20b%2F%2B") = ("a b/+", new_URL "a%20b%2F%2B").
Proof.
  split; [reflexivity|]. split; [reflexivity|].
  exact (decode_encode (fun c => isxdigit c) false true "a b/+" ltac:(reflexivity)).
Defined.

(** Decoding never lets a NUL byte into a file name: from a URL without a
    raw NUL, however malformed its escapes, the decoded string has none, so it
    is the same string for C++ and for the C library calls it is passed to. *)
Theorem decode_no_nul (u : string) :
  smem (chr 0) u = false -> c_str (decode (new_URL u)).1 = (decode (new_URL u)).1.
Proof.
  intros Hu.
  assert (Hc : forall s, smem (chr 0) s = false -> c_str s = s).
  { induction s as [|c s IH]; [reflexivity|]. cbn [smem c_str]. intros [H1 H2]%orb_false_elim.
    rewrite Ascii.eqb_sym in H1. change (chr 0) with "000"%char in H1. rewrite H1, (IH H2). reflexivity. }
  apply Hc. unfold decode, new_URL. cbn [url warning_message].
  assert (H : forall n s w v, (String.length s < n)%nat -> smem (chr 0) s = false ->
    smem (chr 0) (decode_loop v w s).1 = false).
  { induction n as [|n IH]; intros s w v Hn Hs; [lia|].
    destruct s as [|c s]; [reflexivity|]. cbn [String.length] in Hn.
    pose proof Hs as [H1 H2]%orb_false_elim.
    assert (Hkeep : forall d t w', (String.length t < n)%nat -> smem (chr 0) t = false ->
      Ascii.eqb (chr 0) d = false ->
      smem (chr 0) (let '(r, w) := decode_loop v w' t in (String d r, w)).1 = false).
    { intros d t w' Ht1 Ht2 Hd. specialize (IH t w' v Ht1 Ht2).
      destruct (decode_loop v w' t). cbn [fst smem] in *. rewrite Hd. exact IH. }
    cbn [decode_loop]. destruct (Ascii.eqb_spec c "+"); [apply Hkeep; [lia|exact H2|reflexivity]|].
    destruct (Ascii.eqb_spec c "%"); [|apply Hkeep; [lia|exact H2|exact H1]].
    destruct s as [|a s]; [reflexivity|]. cbn [String.length] in Hn.
    destruct s as [|b s].
    { rewrite andb_false_r. apply Hkeep; [cbn; lia|exact H2|reflexivity]. }
    cbn [String.length] in Hn. destruct (isxdigit a && isxdigit b) eqn:Hx.
    2: { apply Hkeep; [cbn [String.length]; lia|exact H2|reflexivity]. }
    cbn [smem] in H2. apply orb_false_elim in H2 as [_ H2]. apply orb_false_elim in H2 as [_ H2].
    destruct (Ascii.eqb a "0" && Ascii.eqb b "0") eqn:H0; [apply IH; [lia|exact H2]|].
    apply Hkeep; [lia|exact H2|]. apply Ascii.eqb_neq. intros E.
    destruct (hexToChar_nul a b Hx (eq_sym E)) as [-> ->]. discriminate H0. }
  destruct (decode_loop u "" u) eqn:E. cbn. rewrite <- (H _ u "" u (Nat.lt_succ_diag_r _) Hu), E. reflexivity.
Qed.

Lemma decode_no_nul_witness :
  smem (chr 0) "a%00%0%zz%00" = false /\ c_str (decode (new_URL "a%00%0%zz%00")).1 = "a%0%zz".
Proof.
  split; [reflexivity|]. rewrite (decode_no_nul "a%00%0%zz%00" ltac:(reflexivity)). reflexivity.
Defined.

(** An escaped string placed between double quotes in a JSON answer is one
    JSON string: a parser stops at the closing quote the server wrote, not at
    a quote or backslash of the user's, and reads the decoded user string with
    every [%] doubled. *)
Theorem escape_json (u rest : string) :
  json_scan ((escape (new_URL u)).1 +:+ String dquote rest)
  = Some (double_percent (decode (new_URL u)).1, rest).
Proof.
  unfold escape. destruct (decode (new_URL u)) as [input t]. apply json_scan_escape.
Qed.
