(* ===== verification/Utils.v ===== *)
(** * String utilities (src/src/Utils.h, Utils.cpp)

    [split] runs on fuel: every step but one moves past a delimiter, so a step
    per character and one more are enough when the delimiter is not empty (an
    empty one makes the source loop without end). *)
From stdpp Require Import base strings list numbers.
From Stdlib Require Import ZArith Lia Ascii.
From S2P Require Import Prelude CString Tokenizer.
#[local] Open Scope string_scope.
#[local] Open Scope list_scope.
#[local] Open Scope Z_scope.

Fixpoint split_loop (fuel : nat) (argument delimiter : string) (limit counter start : Z) (strings : list string)
  : res (list string) :=
  let end_ := find_from delimiter argument start in
  if end_ =? npos then
    s ← substr argument start end_; Ok (strings ++ [s])
  else if counter =? limit then
    s ← substr argument start (u64 (slen argument - 1)); Ok (strings ++ [s])
  else
    s ← substr argument start (u64 (end_ - start));
    match fuel with
    | O => Err OutOfFuel
    | S fuel => split_loop fuel argument delimiter limit (counter + 1) (u32 (end_ + slen delimiter)) (strings ++ [s])
    end.

Definition split (argument delimiter : string) (limit : Z) : res (list string) :=
  split_loop (S (String.length argument)) argument delimiter limit 1 0 [].

Definition getFileName (filePath : string) : res string :=
  tissueName ← substr filePath (u64 (find_last_of "/" filePath + 1)) (u64 (slen filePath - 1));
  substr tissueName 0 (find_first_of "." tissueName).

(** [back()] of an empty string is undefined. *)
Definition fixFilePath (filePath : string) : res string :=
  match srfind_if (fun _ => true) filePath with
  | None => undef "back of an empty string"
  | Some i => Ok (if bool_decide (sdrop i filePath = "/") then filePath else filePath +:+ "/")
  end.

Definition WHITESPACE : string :=
  String " " (String (chr 10) (String (chr 13) (String (chr 9) (String (chr 12) (String (chr 11) ""))))).

Definition ltrim (s : string) : res string :=
  let start := find_first_not_of WHITESPACE s in
  if start =? npos then Ok "" else substr s start npos.

Definition rtrim (s : string) : res string :=
  let end_ := find_last_not_of WHITESPACE s in
  if end_ =? npos then Ok "" else substr s 0 (u64 (end_ + 1)).

Definition trim (s : string) : res string := s ← ltrim s; rtrim s.

(** The characters are written at the start of an empty string. *)
Definition toLower (s : string) : res string :=
  if empty s then Ok "" else undef "write past the end of a string".

(** ** Specification of [split] *)

(** The strings with the delimiter between them. *)
Fixpoint join (d : string) (l : list string) : string :=
  match l with
  | [] => ""
  | [s] => s
  | s :: l' => s +:+ d +:+ join d l'
  end.

(** ** Lemmas *)

Lemma join_cons d s l : l <> [] -> join d (s :: l) = s +:+ d +:+ join d l.
Proof. destruct l; [contradiction|reflexivity]. Qed.

(** Tokenising undoes joining. *)
Lemma nonempty_fields_join c l :
  Forall (fun p => empty p = false /\ smem c p = false) l -> nonempty_fields c (join (String c "") l) = l.
Proof.
  intros H. unfold nonempty_fields.
  assert (E : l <> [] -> fields c (join (String c "") l) = l).
  { induction H as [|p l [_ Hp] Hl IH]; [contradiction|]. intros _. destruct l as [|q l].
    - apply fields_alone, Hp.
    - rewrite join_cons by discriminate. rewrite scons_app, snil_app, sfind_char_app by exact Hp. rewrite IH by discriminate. reflexivity. }
  destruct l as [|p l]; [reflexivity|]. rewrite E by discriminate.
  apply filter_all. intros x Hx. rewrite list.Forall_forall in H. apply H, Hx.
Qed.

Lemma find_from_in s d start :
  0 <= start <= slen s ->
  find_from d s start = match sfind d (sdrop (Z.to_nat start) s) with
                        | Some i => start + Z.of_nat i | None => npos end.
Proof. intros H. unfold find_from. rewrite (proj2 (Z.ltb_ge (slen s) start)) by lia. reflexivity. Qed.

Lemma sfind_stake d s i : sfind d s = Some i -> d <> "" -> sfind d (stake i s) = None.
Proof.
  intros H Hd. apply sfind_None. intros a b E.
  assert (La : (String.length a + String.length d + String.length b <= i)%nat).
  { pose proof (length_stake i s) as L. rewrite E, !slength_app in L. lia. }
  assert (0 < String.length d)%nat by (destruct d; [contradiction|cbn; lia]).
  assert (F : String.prefix d (sdrop (String.length a) s) = false) by (apply (sfind_lt d s i); [exact H|lia]).
  assert (T : String.prefix d (sdrop (String.length a) s) = true); [|congruence].
  apply prefix_app. exists (b +:+ sdrop i s).
  rewrite <- (stake_sdrop i s) at 1. rewrite E, !sapp_assoc, sdrop_app_exact. reflexivity.
Qed.

Lemma split_loop_spec fuel s d limit counter start acc :
  d <> "" -> slen s < 2 ^ 31 -> slen d < 2 ^ 31 -> limit < counter -> 0 <= start <= slen s ->
  (String.length s < fuel + Z.to_nat start)%nat ->
  exists l, split_loop fuel s d limit counter start acc = Ok (acc ++ l)
    /\ l <> [] /\ join d l = sdrop (Z.to_nat start) s /\ Forall (fun p => sfind d p = None) l.
Proof.
  intros Hd Hs Hds. revert counter start acc.
  induction fuel as [|fuel IH]; intros counter start acc Hc Hst Hf.
  { unfold slen in *. lia. }
  cbn [split_loop]. rewrite find_from_in by lia.
  destruct (sfind d (sdrop (Z.to_nat start) s)) as [i|] eqn:E.
  - destruct (sfind_Some _ _ _ E) as [E1 E2]. rewrite length_sdrop in E2.
    assert (Hd0 : 0 < slen d) by (destruct d; [contradiction|rewrite slen_cons; pose proof (slen_nonneg d); lia]).
    unfold slen in Hs, Hds, Hst, Hd0, Hf |- *.
    rewrite (proj2 (Z.eqb_neq _ npos)) by (unfold npos; lia).
    rewrite (proj2 (Z.eqb_neq counter limit)) by lia.
    rewrite u64_small, substr_ok, bind_ret, u32_small by (unfold slen; lia).
    destruct (IH (counter + 1) (start + Z.of_nat i + Z.of_nat (String.length d))
                (acc ++ [stake i (sdrop (Z.to_nat start) s)])) as (l & El & Hl & Hj & HF); [lia|unfold slen; lia|lia|].
    replace (Z.to_nat (Z.min (start + Z.of_nat i - start) (slen s))) with i by (unfold slen; lia).
    exists (stake i (sdrop (Z.to_nat start) s) :: l). rewrite El, <- app_assoc. split_and!; [reflexivity|discriminate| |].
    + rewrite join_cons by exact Hl. rewrite Hj.
      rewrite E1 at 2. do 2 f_equal. rewrite sdrop_sdrop. f_equal. lia.
    + constructor; [apply sfind_stake; assumption|exact HF].
  - rewrite Z.eqb_refl, substr_ok by lia. rewrite bind_ret.
    exists [stake (Z.to_nat (Z.min npos (slen s))) (sdrop (Z.to_nat start) s)].
    assert (T : stake (Z.to_nat (Z.min npos (slen s))) (sdrop (Z.to_nat start) s) = sdrop (Z.to_nat start) s).
    { apply stake_all. rewrite length_sdrop. unfold slen, npos in *. lia. }
    rewrite T. split_and!; [reflexivity|discriminate|reflexivity|]. constructor; [exact E|constructor].
Qed.

(** ** Properties *)

(** Splitting a string at a non-empty delimiter terminates, the pieces do not
    contain the delimiter, and joined with it they give the string back. *)
Theorem split_join (s d : string) (limit : Z) :
  d <> "" -> slen s < 2 ^ 31 -> slen d < 2 ^ 31 -> limit <= 0 ->
  exists l, split s d limit = Ok l /\ join d l = s /\ Forall (fun p => sfind d p = None) l.
Proof.
  intros Hd Hs Hds Hl.
  destruct (split_loop_spec (S (String.length s)) s d limit 1 0 []) as (l & E & _ & Hj & HF);
    [assumption|assumption|assumption|lia|pose proof (slen_nonneg s); lia|lia|].
  exists l. rewrite sdrop_0 in Hj. split_and!; assumption.
Qed.

Lemma split_join_witness :
  exists l, split "a--b----c" "--" (-1) = Ok l /\ join "--" l = "a--b----c" /\ Forall (fun p => sfind "--" p = None) l.
Proof. apply (split_join "a--b----c" "--" (-1)); [discriminate|vm_compute; reflexivity|vm_compute; reflexivity|lia]. Defined.
