(* ===== verification/RawTile.v ===== *)
(** * Image tiles and the memory they point to (src/src/RawTile.h)

    A tile's [void* data] is [None] for NULL or the bytes of the array it
    points to.  [memcpy] and the typed reads and writes check their bounds: an
    access outside the array is [undef].  The contents of a new array are
    arbitrary: [junk] gives them and every theorem holds for any [junk].  Cells
    wider than a byte are little-endian, [float] cells hold the IEEE bits. *)
From stdpp Require Import base strings list numbers.
From Stdlib Require Import ZArith Lia Ascii.
From S2P Require Import Prelude CString CFloat.
#[local] Open Scope string_scope.
#[local] Open Scope list_scope.
#[local] Open Scope Z_scope.

(** ** Memory *)

Abbreviation bytes := (list Z).

Definition blen (b : bytes) : Z := Z.of_nat (length b).

(** [new unsigned char[n]] *)
Definition new_bytes (junk : Z -> Z) (n : Z) : bytes := junk <$> range 0 n.

(** [memcpy (dst + doff, src + soff, n)] *)
Definition memcpy (dst : bytes) (doff : Z) (src : bytes) (soff n : Z) : res bytes :=
  if n =? 0 then Ok dst
  else if (0 <=? doff) && (doff + n <=? blen dst) && (0 <=? soff) && (soff + n <=? blen src) && (0 <? n)
  then Ok (take (Z.to_nat doff) dst ++ take (Z.to_nat n) (drop (Z.to_nat soff) src)
           ++ drop (Z.to_nat (doff + n)) dst)
  else undef "memcpy outside an array".

(** The cells of an array of [sz]-byte little-endian integers. *)
Fixpoint le_decode (b : bytes) : Z :=
  match b with [] => 0 | x :: b' => x + 256 * le_decode b' end.

Fixpoint le_encode (sz : nat) (v : Z) : bytes :=
  match sz with O => [] | S sz' => u8 v :: le_encode sz' (v / 256) end.

(** [p[i]] and [p[i] = v] where [p] is the array seen as one of an unsigned
    type of [sz] bytes. *)
Definition ld (sz : Z) (b : bytes) (i : Z) : res Z :=
  if (0 <=? i) && ((i + 1) * sz <=? blen b)
  then Ok (le_decode (take (Z.to_nat sz) (drop (Z.to_nat (i * sz)) b)))
  else undef "read outside an array".

Definition st (sz : Z) (b : bytes) (i v : Z) : res bytes :=
  memcpy b (i * sz) (le_encode (Z.to_nat sz) v) 0 sz.

(** The bits of a [float]. *)
Definition bits_of_float (x : float) : Z :=
  let sign (s : bool) := if s then 2 ^ 31 else 0 in
  match x with
  | FZero s => sign s
  | FInf s => sign s + 255 * 2 ^ 23
  | FNaN => 255 * 2 ^ 23 + 2 ^ 22
  | FFin s m e => if m <? 2 ^ 23 then sign s + m else sign s + (e + 150) * 2 ^ 23 + (m - 2 ^ 23)
  end.

Definition float_of_bits (z : Z) : float :=
  let s := 2 ^ 31 <=? z in
  let ex := (z / 2 ^ 23) mod 256 in
  let m := z mod 2 ^ 23 in
  if ex =? 255 then (if m =? 0 then FInf s else FNaN)
  else if ex =? 0 then (if m =? 0 then FZero s else FFin s m (-149))
  else FFin s (m + 2 ^ 23) (ex - 150).

(** [p[i]] and [p[i] = x] where [p] is the array seen as one of [float]. *)
Definition ldf (b : bytes) (i : Z) : res float := float_of_bits <$> ld 4 b i.
Definition stf (b : bytes) (i : Z) (x : float) : res bytes := st 4 b i (bits_of_float x).

(** ** The class [RawTile] *)

Inductive ColourSpaces := NONE | GREYSCALE | sRGB | CIELAB | BINARY.
Inductive CompressionType := UNCOMPRESSED | JPEG | DEFLATE | PNG.
Inductive SampleType := FIXEDPOINT | FLOATINGPOINT.

#[global] Instance ColourSpaces_eq_dec : EqDecision ColourSpaces.
Proof. solve_decision. Defined.
#[global] Instance CompressionType_eq_dec : EqDecision CompressionType.
Proof. solve_decision. Defined.
#[global] Instance SampleType_eq_dec : EqDecision SampleType.
Proof. solve_decision. Defined.

(** The value of the enumerator, as ["%d"] prints it. *)
Definition CompressionType_code (c : CompressionType) : Z :=
  match c with UNCOMPRESSED => 0 | JPEG => 1 | DEFLATE => 2 | PNG => 3 end.

Record RawTile := mkRawTile {
  tileNum : Z;
  resolution : Z;
  hSequence : Z;
  vSequence : Z;
  compressionType : CompressionType;
  quality : Z;
  filename : string;
  timestamp : Z;
  data : option bytes;
  memoryManaged : Z;
  dataLength : Z;
  width : Z;
  height : Z;
  channels : Z;
  bpc : Z;
  sampleType : SampleType;
  padded : bool
}.

Definition new_RawTile (tn res hs vs w h c b : Z) : RawTile :=
  {| tileNum := tn; resolution := res; hSequence := hs; vSequence := vs;
     compressionType := UNCOMPRESSED; quality := 0; filename := ""; timestamp := 0;
     data := None; memoryManaged := 1; dataLength := 0; width := u32 w; height := u32 h;
     channels := c; bpc := b; sampleType := FIXEDPOINT; padded := false |}.

(** The array the copy constructor and the assignment allocate. *)
Definition copy_alloc (t : RawTile) : Z :=
  if bpc t =? 32 then 4 * (dataLength t / 4)
  else if bpc t =? 16 then 2 * (dataLength t / 2)
  else dataLength t.

Definition set_data (t : RawTile) (d : option bytes) (managed : Z) : RawTile :=
  {| tileNum := tileNum t; resolution := resolution t; hSequence := hSequence t;
     vSequence := vSequence t; compressionType := compressionType t; quality := quality t;
     filename := filename t; timestamp := timestamp t; data := d; memoryManaged := managed;
     dataLength := dataLength t; width := width t; height := height t; channels := channels t;
     bpc := bpc t; sampleType := sampleType t; padded := padded t |}.

(** [RawTile( const RawTile& tile )] *)
Definition copy (junk : Z -> Z) (t : RawTile) : res RawTile :=
  let buf := new_bytes junk (copy_alloc t) in
  match data t with
  | Some src =>
      if 0 <? dataLength t then
        buf ← memcpy buf 0 src 0 (dataLength t);
        Ok (set_data t (Some buf) 1)
      else Ok (set_data t (Some buf) (memoryManaged t))
  | None => Ok (set_data t (Some buf) (memoryManaged t))
  end.

(** [operator =] allocates and copies as the copy constructor does; the old
    array of the target is leaked. *)
Definition assign (junk : Z -> Z) (target tile : RawTile) : res RawTile := copy junk tile.

Definition size (t : RawTile) : Z := dataLength t.

(** [operator ==] and [operator !=] *)
Definition tile_eq (a b : RawTile) : bool :=
  (tileNum a =? tileNum b) && (resolution a =? resolution b) && (hSequence a =? hSequence b)
  && (vSequence a =? vSequence b) && bool_decide (compressionType a = compressionType b)
  && (quality a =? quality b) && bool_decide (filename a = filename b).

Definition tile_neq (a b : RawTile) : bool := negb (tile_eq a b).

(** ** Lemmas on memory *)

Lemma blen_nonneg (b : bytes) : 0 <= blen b.
Proof. unfold blen. lia. Qed.

Lemma blen_nil : blen [] = 0.
Proof. reflexivity. Qed.

Lemma blen_cons x (b : bytes) : blen (x :: b) = 1 + blen b.
Proof. unfold blen. cbn [length]. lia. Qed.

Lemma blen_app (a b : bytes) : blen (a ++ b) = blen a + blen b.
Proof. unfold blen. rewrite length_app. lia. Qed.

Lemma blen_replicate n (x : Z) : 0 <= n -> blen (replicate (Z.to_nat n) x) = n.
Proof. intros. unfold blen. rewrite length_replicate. lia. Qed.

Lemma blen_zero (b : bytes) : blen b = 0 -> b = [].
Proof. unfold blen. destruct b; [reflexivity|cbn [length]; lia]. Qed.

Lemma take_blen (b : bytes) n : n = blen b -> take (Z.to_nat n) b = b.
Proof. intros ->. apply take_ge. unfold blen. lia. Qed.

Lemma take_blen_app (a b : bytes) n : n = blen a -> take (Z.to_nat n) (a ++ b) = a.
Proof. intros ->. unfold blen. rewrite Nat2Z.id. apply take_app_length. Qed.

Lemma drop_blen_app (a b : bytes) n : n = blen a -> drop (Z.to_nat n) (a ++ b) = b.
Proof. intros ->. unfold blen. rewrite Nat2Z.id. apply drop_app_length. Qed.

Lemma length_new_bytes junk n : length (new_bytes junk n) = Z.to_nat n.
Proof. unfold new_bytes. rewrite length_fmap, length_range. f_equal. lia. Qed.

Lemma blen_new_bytes junk n : 0 <= n -> blen (new_bytes junk n) = n.
Proof. intros. unfold blen. rewrite length_new_bytes. lia. Qed.

(** When a copy stays inside both arrays, what every byte is afterwards. *)
Lemma memcpy_in_range dst doff src soff n :
  0 <= n -> 0 <= doff -> doff + n <= blen dst -> 0 <= soff -> soff + n <= blen src ->
  exists b, memcpy dst doff src soff n = Ok b /\ length b = length dst /\
    forall i, 0 <= i ->
      b !! Z.to_nat i = if (doff <=? i) && (i <? doff + n)
                        then src !! Z.to_nat (soff + (i - doff)) else dst !! Z.to_nat i.
Proof.
  intros Hn Hd1 Hd2 Hs1 Hs2. unfold memcpy.
  destruct (Z.eqb_spec n 0) as [->|Hn0].
  - exists dst. repeat split. intros i Hi.
    destruct (Z.leb_spec doff i), (Z.ltb_spec i (doff + 0)); try lia; reflexivity.
  - rewrite !(proj2 (Z.leb_le _ _)), (proj2 (Z.ltb_lt _ _)) by lia. cbn [andb].
    eexists. split; [reflexivity|]. unfold blen in *. split.
    + rewrite !length_app, !length_take, !length_drop. lia.
    + intros i Hi. destruct (Z.leb_spec doff i) as [H1|H1]; cbn [andb].
      * rewrite lookup_app_r by (rewrite length_take; lia).
        rewrite length_take, Nat.min_l by lia.
        destruct (Z.ltb_spec i (doff + n)) as [H2|H2].
        -- rewrite lookup_app_l by (rewrite length_take, length_drop; lia).
           rewrite lookup_take_lt, lookup_drop by lia. f_equal. lia.
        -- rewrite lookup_app_r by (rewrite length_take, length_drop; lia).
           rewrite length_take, length_drop, lookup_drop. f_equal. lia.
      * rewrite lookup_app_l by (rewrite length_take; lia). apply lookup_take_lt. lia.
Qed.

Lemma memcpy_out dst doff src soff n :
  n <> 0 -> doff < 0 \/ blen dst < doff + n \/ soff < 0 \/ blen src < soff + n \/ n < 0 ->
  exists w, memcpy dst doff src soff n = Err (Undefined w).
Proof.
  intros Hn H. unfold memcpy. rewrite (proj2 (Z.eqb_neq _ _) Hn).
  destruct (Z.leb_spec 0 doff), (Z.leb_spec (doff + n) (blen dst)), (Z.leb_spec 0 soff),
    (Z.leb_spec (soff + n) (blen src)), (Z.ltb_spec 0 n); cbn [andb]; try (eexists; reflexivity); lia.
Qed.

(** Copying the whole of an array. *)
Lemma memcpy_all dst src :
  blen dst = blen src -> memcpy dst 0 src 0 (blen src) = Ok src.
Proof.
  intros H. destruct (memcpy_in_range dst 0 src 0 (blen src)) as (b & -> & Hl & Hb);
    try (unfold blen in *; lia).
  f_equal. apply list_eq_length; [unfold blen in *; lia|]. intros i Hi.
  specialize (Hb (Z.of_nat i) ltac:(lia)). rewrite Nat2Z.id in Hb. rewrite Hb.
  destruct (Z.ltb_spec (Z.of_nat i) (0 + blen src)); [|unfold blen in *; lia].
  rewrite (proj2 (Z.leb_le 0 (Z.of_nat i))) by lia. cbn [andb]. f_equal. lia.
Qed.

(** A block moved from one array into another. *)
Lemma memcpy_move (before old after pre b post : bytes) off off' n :
  off = blen before -> blen old = blen b -> off' = blen pre -> n = blen b ->
  memcpy (before ++ old ++ after) off (pre ++ b ++ post) off' n = Ok (before ++ b ++ after).
Proof.
  intros -> Hl -> ->. unfold memcpy. destruct (Z.eqb_spec (blen b) 0) as [E|E].
  - rewrite (blen_zero b E), blen_nil in *. rewrite (blen_zero old) by lia. reflexivity.
  - unfold blen in *. rewrite !length_app. rewrite !(proj2 (Z.leb_le _ _)), (proj2 (Z.ltb_lt _ _)) by lia. cbn [andb]. f_equal.
    rewrite !Nat2Z.id, take_app_length, drop_app_length, take_app_length. do 2 f_equal.
    rewrite app_assoc, drop_app_length' by (rewrite length_app; lia). reflexivity.
Qed.

(** A block written into an array, with what is before and after it. *)
Lemma memcpy_block (before old after b : bytes) off :
  off = blen before -> blen old = blen b ->
  memcpy (before ++ old ++ after) off b 0 (blen b) = Ok (before ++ b ++ after).
Proof. intros Ho Hl. rewrite <- (app_nil_r b) at 1. apply (memcpy_move before old after [] b []); auto. Qed.

(** A block read from an array. *)
Lemma memcpy_read (before b after dst : bytes) off n :
  off = blen before -> n = blen b -> blen dst = n ->
  memcpy dst 0 (before ++ b ++ after) off n = Ok b.
Proof.
  intros Ho Hn Hl. rewrite <- (app_nil_r dst), <- (app_nil_l (dst ++ [])). rewrite (memcpy_move [] dst [] before b after) by (auto; lia).
  rewrite app_nil_l, app_nil_r. reflexivity.
Qed.

Lemma le_encode_length sz v : length (le_encode sz v) = sz.
Proof. revert v. induction sz as [|sz IH]; intros v; cbn; congruence. Qed.

Lemma le_decode_encode sz v : 0 <= v < 256 ^ Z.of_nat sz -> le_decode (le_encode sz v) = v.
Proof.
  revert v. induction sz as [|sz IH]; intros v H; [cbn in *; lia|].
  cbn [le_encode le_decode]. rewrite IH.
  - unfold u8. pose proof (Z.div_mod v 256 ltac:(lia)). change (2 ^ 8) with 256. lia.
  - rewrite Nat2Z.inj_succ, Z.pow_succ_r in H by lia.
    split; [apply Z.div_pos; lia | apply Z.div_lt_upper_bound; lia].
Qed.

(** Byte cells. *)
Lemma ld1 b i : 0 <= i < blen b -> exists v, b !! Z.to_nat i = Some v /\ ld 1 b i = Ok v.
Proof.
  intros H. unfold blen in *. destruct (lookup_lt_is_Some_2 b (Z.to_nat i)) as [v Hv]; [lia|].
  exists v. split; [exact Hv|]. unfold ld, blen.
  destruct (Z.leb_spec 0 i), (Z.leb_spec ((i + 1) * 1) (Z.of_nat (length b))); try lia. cbn [andb].
  rewrite Z.mul_1_r, (drop_S b v) by exact Hv. change (Z.to_nat 1) with 1%nat.
  cbn [firstn le_decode]. rewrite take_0. cbn [le_decode]. f_equal. lia.
Qed.

Lemma st1 b i v : 0 <= i < blen b -> st 1 b i v = Ok (<[Z.to_nat i := u8 v]> b).
Proof.
  intros H. unfold st. change (le_encode (Z.to_nat 1) v) with [u8 v].
  destruct (memcpy_in_range b (i * 1) [u8 v] 0 1) as (b' & -> & Hl & Hi); try (unfold blen in *; cbn; lia).
  f_equal. apply list_eq_length; [rewrite length_insert; exact Hl|]. intros k Hk.
  specialize (Hi (Z.of_nat k) ltac:(lia)). rewrite Nat2Z.id in Hi. rewrite Hi. unfold blen in *.
  destruct (Z.leb_spec (i * 1) (Z.of_nat k)), (Z.ltb_spec (Z.of_nat k) (i * 1 + 1)); cbn [andb];
    [|rewrite list_lookup_insert_ne by lia; reflexivity..].
  replace k with (Z.to_nat i) by lia. rewrite list_lookup_insert_eq by lia.
  replace (Z.to_nat (0 + (Z.of_nat (Z.to_nat i) - i * 1))) with 0%nat by lia. reflexivity.
Qed.

Lemma ld_out sz b i : i < 0 \/ blen b < (i + 1) * sz -> exists w, ld sz b i = Err (Undefined w).
Proof.
  intros H. unfold ld. destruct (Z.leb_spec 0 i), (Z.leb_spec ((i + 1) * sz) (blen b));
    cbn [andb]; try (eexists; reflexivity); lia.
Qed.

(** Writing a cell: it reads back, and the others are unchanged. *)
Lemma ld_st (sz : nat) b i v :
  0 <= i -> (i + 1) * Z.of_nat sz <= blen b -> 0 <= v < 256 ^ Z.of_nat sz ->
  exists b', st (Z.of_nat sz) b i v = Ok b' /\ blen b' = blen b /\ ld (Z.of_nat sz) b' i = Ok v
    /\ forall j, j <> i -> ld (Z.of_nat sz) b' j = ld (Z.of_nat sz) b j.
Proof.
  intros Hi Hb Hv. unfold st. rewrite Nat2Z.id.
  destruct (memcpy_in_range b (i * Z.of_nat sz) (le_encode sz v) 0 (Z.of_nat sz)) as (b' & -> & Hl & Hcells);
    try (unfold blen in *; rewrite ?le_encode_length; nia).
  exists b'. split; [reflexivity|]. unfold blen in *. split; [lia|].
  assert (Hblock : forall j (l : bytes), 0 <= j -> length l = sz -> (j + 1) * Z.of_nat sz <= Z.of_nat (length b) ->
    (forall m, (m < sz)%nat -> b' !! Z.to_nat (j * Z.of_nat sz + Z.of_nat m) = l !! m) ->
    take sz (drop (Z.to_nat (j * Z.of_nat sz)) b') = l).
  { intros j l Hj Hlen Hfit Hm. apply list_eq_length; [rewrite length_take, length_drop; nia|].
    rewrite length_take, length_drop. intros m Hlt. rewrite lookup_take_lt, lookup_drop by lia.
    rewrite <- Hm by lia. f_equal. nia. }
  split.
  - unfold ld, blen. rewrite Hl, !(proj2 (Z.leb_le _ _)) by lia. cbn [andb]. apply (f_equal Ok).
    transitivity (le_decode (le_encode sz v)); [|apply le_decode_encode, Hv]. rewrite !Nat2Z.id. f_equal.
    apply Hblock; [lia|apply le_encode_length|lia|]. intros m Hm. rewrite Hcells by nia.
    rewrite (proj2 (Z.leb_le _ _)), (proj2 (Z.ltb_lt _ _)) by lia. cbn [andb]. f_equal. lia.
  - intros j Hj. unfold ld, blen. rewrite Hl.
    destruct (Z.leb_spec 0 j) as [Hj0|]; [|reflexivity].
    destruct (Z.leb_spec ((j + 1) * Z.of_nat sz) (Z.of_nat (length b))) as [Hfit|]; [|reflexivity].
    cbn [andb]. apply (f_equal Ok). rewrite !Nat2Z.id. f_equal.
    apply Hblock; [lia|rewrite length_take, length_drop; nia|lia|]. intros m Hm. rewrite Hcells by nia.
    rewrite lookup_take_lt, lookup_drop by lia.
    assert (Hout : (i * Z.of_nat sz <=? j * Z.of_nat sz + Z.of_nat m)
      && (j * Z.of_nat sz + Z.of_nat m <? i * Z.of_nat sz + Z.of_nat sz) = false).
    { apply andb_false_iff. destruct (Z.lt_total i j) as [H|[H|H]]; [right; apply Z.ltb_ge; nia|lia|].
      left. apply Z.leb_gt. nia. }
    rewrite Hout. f_equal. nia.
Qed.

Lemma ld_ok sz b i : 0 <= i -> (i + 1) * sz <= blen b -> exists v, ld sz b i = Ok v.
Proof. intros H1 H2. unfold ld. rewrite !(proj2 (Z.leb_le _ _)) by assumption. eauto. Qed.

(** A loop that rewrites one cell at a time, every cell at most once; what a step
    writes may depend on the cell's old value. *)
Lemma foldM_cells {A} (sz : Z) (body : A -> bytes -> res bytes) (idx : A -> Z) (F : A -> Z) (l : list A) (b0 : bytes) :
  NoDup (idx <$> l) ->
  (forall a b, a ∈ l -> blen b = blen b0 -> ld sz b (idx a) = ld sz b0 (idx a) ->
     exists b', body a b = Ok b' /\ blen b' = blen b /\ ld sz b' (idx a) = Ok (F a)
       /\ forall j, j <> idx a -> ld sz b' j = ld sz b j) ->
  exists b', foldM body l b0 = Ok b' /\ blen b' = blen b0
    /\ (forall a, a ∈ l -> ld sz b' (idx a) = Ok (F a))
    /\ (forall j, j ∉ idx <$> l -> ld sz b' j = ld sz b0 j).
Proof.
  revert b0. induction l as [|a l IH]; intros b0 Hnd Hbody.
  - exists b0. split_and!; auto. intros a Ha. apply not_elem_of_nil in Ha. contradiction.
  - rewrite fmap_cons in *. apply list.NoDup_cons in Hnd as [Ha Hnd].
    destruct (Hbody a b0 (list_elem_of_here _ _) eq_refl eq_refl) as (b1 & E1 & Hl1 & Hc1 & Ho1).
    assert (Hother : forall c, c ∈ l -> idx c <> idx a).
    { intros c Hc E. apply Ha. rewrite <- E. apply list_elem_of_fmap. eauto. }
    destruct (IH b1 Hnd) as (b' & E' & Hl' & Hin & Hout).
    + intros c b Hc Hb Hld. apply Hbody; [apply list_elem_of_further, Hc|congruence|].
      rewrite Hld. apply Ho1, Hother, Hc.
    + exists b'. cbn [foldM]. rewrite E1, bind_ret. split_and!; [exact E'|congruence| |].
      * intros c Hc. apply elem_of_cons in Hc as [->|Hc]; [|apply Hin, Hc].
        rewrite (Hout (idx a) Ha). exact Hc1.
      * intros j [Hj1 Hj2]%not_elem_of_cons. rewrite (Hout j Hj2). apply Ho1, Hj1.
Qed.

(** *** [float] cells *)

(** The floats that are bit patterns of binary32. *)
Definition canonical (x : float) : Prop :=
  match x with
  | FFin _ m e => (2 ^ 23 <= m < 2 ^ 24 /\ -149 <= e <= 104) \/ (0 < m < 2 ^ 23 /\ e = -149)
  | _ => True
  end.

Lemma bits_of_float_range x : canonical x -> 0 <= bits_of_float x < 2 ^ 32.
Proof.
  intros Hc. unfold bits_of_float. destruct x as [s|s| |s m e]; [destruct s; lia|destruct s; lia|lia|].
  cbn [canonical] in Hc. destruct (Z.ltb_spec m (2 ^ 23)); destruct s; lia.
Qed.

Lemma float_of_bits_of x : canonical x -> float_of_bits (bits_of_float x) = x.
Proof.
  assert (Hsplit : forall (s : bool) ex m, 0 <= ex < 256 -> 0 <= m < 2 ^ 23 ->
    let z := (if s then 2 ^ 31 else 0) + ex * 2 ^ 23 + m in
    (2 ^ 31 <=? z) = s /\ (z / 2 ^ 23) mod 256 = ex /\ z mod 2 ^ 23 = m).
  { intros s ex m Hex Hm z.
    assert (Hz : z = ((if s then 256 else 0) + ex) * 2 ^ 23 + m) by (subst z; destruct s; lia).
    assert (Hd : z / 2 ^ 23 = (if s then 256 else 0) + ex) by (symmetry; apply (Z.div_unique_pos z (2 ^ 23) _ m); lia).
    split; [subst z; destruct s; [apply Z.leb_le|apply Z.leb_gt]; lia|]. rewrite Hd. split.
    - destruct s; [rewrite <- (Z.mul_1_l 256) at 1; rewrite Z.add_comm, Z.mod_add by lia|]; apply Z.mod_small; lia.
    - symmetry. apply (Z.mod_unique_pos z (2 ^ 23) ((if s then 256 else 0) + ex)); lia. }
  intros Hc. unfold float_of_bits, bits_of_float. destruct x as [s|s| |s m e].
  - destruct (Hsplit s 0 0) as (H1 & H2 & H3); [lia|lia|]. rewrite Z.mul_0_l, !Z.add_0_r in *. rewrite H1, H2, H3. reflexivity.
  - destruct (Hsplit s 255 0) as (H1 & H2 & H3); [lia|lia|]. rewrite !Z.add_0_r in *. rewrite H1, H2, H3. reflexivity.
  - reflexivity.
  - cbn [canonical] in Hc. destruct (Z.ltb_spec m (2 ^ 23)) as [Hm|Hm].
    + assert (e = -149 /\ 0 < m) as [-> Hm0] by lia.
      destruct (Hsplit s 0 m) as (H1 & H2 & H3); [lia|lia|]. rewrite Z.mul_0_l, !Z.add_0_r in *. rewrite H1, H2, H3.
      rewrite (proj2 (Z.eqb_neq m 0)) by lia. reflexivity.
    + destruct (Hsplit s (e + 150) (m - 2 ^ 23)) as (H1 & H2 & H3); [lia|lia|].
      rewrite H1, H2, H3. rewrite (proj2 (Z.eqb_neq (e + 150) 255)), (proj2 (Z.eqb_neq (e + 150) 0)) by lia.
      f_equal; lia.
Qed.

Lemma float_of_bits_canonical z : canonical (float_of_bits z).
Proof.
  unfold float_of_bits. pose proof (Z.mod_pos_bound z (2 ^ 23) ltac:(lia)).
  pose proof (Z.mod_pos_bound (z / 2 ^ 23) 256 ltac:(lia)).
  destruct (Z.eqb_spec ((z / 2 ^ 23) mod 256) 255); [destruct (_ =? 0); exact I|].
  destruct (Z.eqb_spec ((z / 2 ^ 23) mod 256) 0); [destruct (Z.eqb_spec (z mod 2 ^ 23) 0); [exact I|]|]; cbn; lia.
Qed.

(** Every rounded value is a bit pattern. *)
Lemma sc_shift n d a b : a <= b -> sc n (- a) * sc d b = sc n (- b) * sc d a * 2 ^ (b - a).
Proof.
  intros H. unfold sc.
  assert (E : 2 ^ Z.max (- a) 0 * 2 ^ Z.max b 0 = 2 ^ Z.max (- b) 0 * 2 ^ Z.max a 0 * 2 ^ (b - a))
    by (rewrite <- !Z.pow_add_r by lia; f_equal; lia).
  replace (n * 2 ^ Z.max (- a) 0 * (d * 2 ^ Z.max b 0)) with (n * d * (2 ^ Z.max (- a) 0 * 2 ^ Z.max b 0)) by ring.
  rewrite E. ring.
Qed.

Lemma round_pos_canonical s n d : 0 <= n -> 0 < d -> canonical (round_pos b32 s n d).
Proof.
  intros Hn Hd. unfold round_pos. destruct (Z.eq_dec n 0) as [->|Hn0].
  { assert (E : forall e, rne (sc 0 e) (sc d (- e)) = 0).
    { intros e. unfold sc at 1. rewrite Z.mul_0_l. unfold rne. rewrite Z.div_0_l, Z.mod_0_l by (pose proof (sc_pos d (- e) Hd); lia).
      pose proof (sc_pos d (- e) Hd). destruct (Z.compare_spec (2 * 0) (sc d (- e))); lia. }
    set (e := Z.max _ _). pose proof (E (- e)) as E'. rewrite Z.opp_involutive in E'. rewrite E'. exact I. }
  set (M := mag n d). set (e := Z.max (M - prec b32) (emin b32)).
  destruct (mag_spec n d ltac:(lia) Hd) as [M1 M2]. fold M in M1, M2.
  pose proof (sc_pos d e Hd) as De. change (prec b32) with 24 in *. change (emin b32) with (-149) in *.
  assert (Hhi : sc n (- e) <= 2 ^ 24 * sc d e).
  { destruct (Z.le_gt_cases e M) as [HM|HM].
    - pose proof (sc_shift n d e M HM) as E. pose proof (sc_pos d M Hd).
      assert (2 ^ (M - e) <= 2 ^ 24) by (apply Z.pow_le_mono_r; lia).
      assert (sc n (- M) * (sc d e * 2 ^ (M - e)) <= sc d M * (sc d e * 2 ^ 24)).
      { apply Z.mul_le_mono_nonneg; [unfold sc; apply Z.mul_nonneg_nonneg; [lia|apply Z.pow_nonneg; lia]|lia| |].
        - apply Z.mul_nonneg_nonneg; [lia|apply Z.pow_nonneg; lia].
        - apply Z.mul_le_mono_nonneg_l; lia. }
      apply (Z.mul_le_mono_pos_r _ _ (sc d M)); [assumption|]. rewrite E. lia.
    - pose proof (sc_shift n d M e ltac:(lia)) as E. pose proof (sc_pos d M Hd).
      assert (0 < 2 ^ (e - M)) by (apply Z.pow_pos_nonneg; lia).
      assert (sc n (- e) * sc d M * 2 ^ (e - M) < sc d M * sc d e) by (rewrite <- E; apply Z.mul_lt_mono_pos_r; assumption).
      assert (0 <= sc n (- e)) by (unfold sc; apply Z.mul_nonneg_nonneg; [lia|apply Z.pow_nonneg; lia]).
      assert (sc n (- e) * sc d M * 1 <= sc n (- e) * sc d M * 2 ^ (e - M)) by (apply Z.mul_le_mono_nonneg_l; nia).
      assert (sc n (- e) < sc d e) by (apply (Z.mul_lt_mono_pos_r (sc d M)); lia). lia. }
  assert (Hlo : e = -149 \/ 2 ^ 23 * sc d e <= sc n (- e)).
  { destruct (Z.le_gt_cases (-149) (M - 24)) as [HM|HM]; [right|left; lia].
    assert (e = M - 24) as E24 by lia. pose proof (sc_shift n d e (M - 1) ltac:(lia)) as E.
    replace (M - 1 - e) with 23 in E by lia. pose proof (sc_pos d (M - 1) Hd).
    apply (Z.mul_le_mono_pos_r _ _ (sc d (M - 1))); [assumption|]. rewrite E.
    replace (2 ^ 23 * sc d e * sc d (M - 1)) with (sc d (M - 1) * sc d e * 2 ^ 23) by ring.
    apply Z.mul_le_mono_nonneg_r; [lia|]. apply Z.mul_le_mono_nonneg_r; lia. }
  pose proof (rne_le _ _ _ De Hhi) as Q1. assert (Q0 : 0 <= rne (sc n (- e)) (sc d e)).
  { apply rne_ge; [exact De|]. unfold sc at 2. assert (0 <= 2 ^ Z.max (- e) 0) by (apply Z.pow_nonneg; lia). nia. }
  assert (Q2 : e = -149 \/ 2 ^ 23 <= rne (sc n (- e)) (sc d e))
    by (destruct Hlo as [?|Hlo]; [left; assumption|right; apply rne_ge; assumption]).
  set (q := rne _ _) in *. destruct (Z.eqb_spec q 0); [exact I|].
  destruct (Z.eqb_spec q (2 ^ 24)) as [Eq|Eq].
  - destruct (Z.ltb_spec (emax b32 - 24) (e + 1)) as [|He]; [exact I|]. cbn [emax b32] in He. cbn [canonical]. lia.
  - destruct (Z.ltb_spec (emax b32 - 24) e) as [|He]; [exact I|]. cbn [emax b32] in He. cbn [canonical]. lia.
Qed.

Lemma fmul_canonical x y : canonical (fmul b32 x y).
Proof.
  destruct x, y; try exact I. cbn [fmul]. apply round_pos_canonical; [apply Z.abs_nonneg|].
  pose proof (den_pos (FFin s m e)). pose proof (den_pos (FFin s0 m0 e0)). nia.
Qed.

Lemma fcvt_canonical x : canonical (fcvt b32 x).
Proof. destruct x; try exact I. cbn [fcvt]. apply round_pos_canonical; [apply Z.abs_nonneg|apply den_pos]. Qed.

Lemma round_rat_canonical n d : 0 < d -> canonical (round_rat b32 n d).
Proof.
  intros Hd. unfold round_rat. destruct (n =? 0); [exact I|]. apply round_pos_canonical; [apply Z.abs_nonneg|exact Hd].
Qed.

Lemma fadd_canonical x y : canonical x -> canonical y -> canonical (fadd b32 x y).
Proof.
  intros Hx Hy. pose proof (den_pos x). pose proof (den_pos y).
  destruct x, y; cbn [fadd]; try assumption; try exact I; [destruct (Bool.eqb _ _); exact I|].
  apply round_rat_canonical. nia.
Qed.

(** Reading and writing [float] cells. *)
Lemma ldf_ok b i : 0 <= i -> (i + 1) * 4 <= blen b -> exists x, ldf b i = Ok x /\ canonical x.
Proof.
  intros H1 H2. destruct (ld_ok 4 b i H1 H2) as (v & E). exists (float_of_bits v). unfold ldf. rewrite E.
  split; [reflexivity|apply float_of_bits_canonical].
Qed.

Lemma stf_ok b i x :
  0 <= i -> (i + 1) * 4 <= blen b -> canonical x ->
  exists b', stf b i x = Ok b' /\ blen b' = blen b /\ ld 4 b' i = Ok (bits_of_float x)
    /\ forall j, j <> i -> ld 4 b' j = ld 4 b j.
Proof.
  intros H1 H2 Hx. apply (ld_st 4 b i (bits_of_float x)); [exact H1|exact H2|exact (bits_of_float_range x Hx)].
Qed.

Lemma ldf_bits b i x : canonical x -> ld 4 b i = Ok (bits_of_float x) -> ldf b i = Ok x.
Proof. intros Hx E. unfold ldf. rewrite E. change (float_of_bits <$> Ok ?z) with (Ok (float_of_bits z)). rewrite float_of_bits_of by exact Hx. reflexivity. Qed.

#[export] Hint Rewrite length_new_bytes : iip_rw.

(** ** Copying tiles *)

(** The memory of a tile is what its fields say: an array of at least
    [dataLength] bytes, [dataLength] a multiple of the size of a cell. *)
Definition tile_ok (t : RawTile) : Prop :=
  0 <= dataLength t /\ copy_alloc t = dataLength t /\
  match data t with Some b => dataLength t <= blen b | None => dataLength t = 0 end.

Lemma copy_alloc_le t : 0 <= dataLength t -> 0 <= copy_alloc t <= dataLength t.
Proof.
  intros H. unfold copy_alloc.
  destruct (bpc t =? 32); [|destruct (bpc t =? 16)]; [| |lia].
  - pose proof (Z.mul_div_le (dataLength t) 4 ltac:(lia)). pose proof (Z.div_pos (dataLength t) 4). lia.
  - pose proof (Z.mul_div_le (dataLength t) 2 ltac:(lia)). pose proof (Z.div_pos (dataLength t) 2). lia.
Qed.

Lemma copy_ok junk t :
  tile_ok t ->
  exists m, copy junk t =
    Ok (set_data t (Some (match data t with Some b => take (Z.to_nat (dataLength t)) b | None => [] end)) m).
Proof.
  intros (H0 & Ha & Hd). unfold copy. rewrite Ha.
  destruct (data t) as [b|].
  2: { rewrite Hd. exists (memoryManaged t). reflexivity. }
  destruct (Z.ltb_spec 0 (dataLength t)) as [Hl|Hl].
  2: { assert (dataLength t = 0) as E by lia. rewrite E. exists (memoryManaged t). reflexivity. }
  destruct (memcpy_in_range (new_bytes junk (dataLength t)) 0 b 0 (dataLength t)) as (r & -> & Hr & Hi);
    try (rewrite ?blen_new_bytes; lia).
  exists 1. rewrite bind_ret. do 3 f_equal.
  rewrite length_new_bytes in Hr. unfold blen in Hd.
  apply list_eq_length; [rewrite length_take; lia|]. intros i Hii.
  specialize (Hi (Z.of_nat i) ltac:(lia)). rewrite Nat2Z.id in Hi. rewrite Hi.
  destruct (Z.ltb_spec (Z.of_nat i) (0 + dataLength t)); [|lia].
  rewrite (proj2 (Z.leb_le 0 (Z.of_nat i))) by lia. cbn [andb].
  rewrite lookup_take_lt by lia. f_equal. lia.
Qed.

Lemma tile_ok_set_data t b m :
  tile_ok t -> data t = Some b -> tile_ok (set_data t (Some (take (Z.to_nat (dataLength t)) b)) m).
Proof.
  intros (H0 & Ha & Hd) E. rewrite E in Hd. split; [exact H0|]. split; [exact Ha|].
  cbn. unfold blen in *. rewrite length_take. lia.
Qed.

(** ** Properties *)

(** Copying a tile, as the cache and its callers do, keeps every field and
    the [dataLength] bytes of the pixels, in an array of its own. *)
Theorem copy_preserves (junk : Z -> Z) (t : RawTile) (b : bytes) :
  tile_ok t -> data t = Some b -> 0 < dataLength t ->
  copy junk t = Ok (set_data t (Some (take (Z.to_nat (dataLength t)) b)) 1)
  /\ tile_eq t (set_data t (Some (take (Z.to_nat (dataLength t)) b)) 1) = true.
Proof.
  intros Ht Hb Hl. split.
  - destruct (copy_ok junk t Ht) as (m & E). rewrite Hb in E. rewrite E.
    unfold copy in E. rewrite Hb, (proj2 (Z.ltb_lt _ _) Hl) in E.
    destruct (memcpy _ _ _ _ _) in E; [|discriminate E]. injection E as _ <-. reflexivity.
  - unfold tile_eq, set_data; cbn. rewrite !Z.eqb_refl, !bool_decide_true by reflexivity. reflexivity.
Qed.

Definition sample_tile (b : Z) (c : CompressionType) (d : bytes) : RawTile :=
  {| tileNum := 3; resolution := 1; hSequence := 0; vSequence := 90; compressionType := c;
     quality := 75; filename := "img.tif"; timestamp := 5; data := Some d; memoryManaged := 1;
     dataLength := blen d; width := 2; height := 1; channels := 3; bpc := b;
     sampleType := FIXEDPOINT; padded := false |}.

Lemma copy_preserves_witness :
  tile_ok (sample_tile 8 JPEG [1; 2; 3; 4; 5; 6]) /\
  exists t, copy (fun _ => 99) (sample_tile 8 JPEG [1; 2; 3; 4; 5; 6]) = Ok t
    /\ data t = Some [1; 2; 3; 4; 5; 6].
Proof.
  assert (H : tile_ok (sample_tile 8 JPEG [1; 2; 3; 4; 5; 6]))
    by (repeat split; vm_compute; congruence).
  split; [exact H|].
  destruct (copy_preserves (fun _ => 99) _ [1; 2; 3; 4; 5; 6] H eq_refl ltac:(reflexivity)) as [E _].
  rewrite E. eexists. split; reflexivity.
Defined.

(** The array the copy constructor allocates is counted in whole cells: for
    a 16-bit tile that holds an odd number of compressed bytes (a PNG tile) it
    is one byte short, and the copy writes outside it. *)
Theorem copy_odd_overflow (junk : Z -> Z) (t : RawTile) (b : bytes) :
  bpc t = 16 -> dataLength t mod 2 = 1 -> 0 < dataLength t -> data t = Some b ->
  exists why, copy junk t = Err (Undefined why).
Proof.
  intros Hb Hm Hl Hd. unfold copy, copy_alloc. rewrite Hd, Hb.
  change (16 =? 32) with false. change (16 =? 16) with true. cbv iota.
  rewrite (proj2 (Z.ltb_lt _ _) Hl). pose proof (Z.div_mod (dataLength t) 2 ltac:(lia)).
  destruct (memcpy_out (new_bytes junk (2 * (dataLength t / 2))) 0 b 0 (dataLength t)) as (w & E); [lia| |].
  - right. left. rewrite blen_new_bytes by lia. lia.
  - exists w. rewrite E. reflexivity.
Qed.

Lemma copy_odd_overflow_witness :
  exists why, copy (fun _ => 0) (sample_tile 16 PNG [137; 80; 78]) = Err (Undefined why).
Proof.
  exact (copy_odd_overflow (fun _ => 0) (sample_tile 16 PNG [137; 80; 78]) [137; 80; 78]
           eq_refl eq_refl ltac:(reflexivity) eq_refl).
Defined.
