(* ===== verification/Cache.v ===== *)
(** * The tile cache (src/src/Cache.h)

    [tileList] is the linked list, most recently used first; an iterator into
    it is the identity [nid] of a node, which [splice] keeps and [erase] makes
    dangling.  [tileMap] maps a key to an iterator.  Dereferencing an iterator
    whose node is gone, or [end()], is [undef].  [currentSize] is a 64-bit
    counter.  [capacity s] is [std::string::capacity] of a string that holds
    [s], [tileSize] the constant computed by the constructor from sizes of
    types, [junk] the contents of fresh memory.

    The abstract specification is an association list, most recently used
    first ([spec_insert], [spec_get]): [abs] maps a cache to it. *)
From stdpp Require Import base gmap strings list numbers pretty.
From Stdlib Require Import ZArith Lia Ascii.
From S2P Require Import Prelude CString CFloat RawTile.
#[local] Open Scope string_scope.
#[local] Open Scope list_scope.
#[local] Open Scope Z_scope.

Record node := mkNode { nid : nat; nkey : string; ntile : RawTile }.

Record Cache := mkCache {
  maxSize : Z;
  currentSize : Z;
  tileList : list node;
  tileMap : gmap string nat;
  next_id : nat (* identity of the next node allocated *)
}.

(** [getIndex]: [snprintf (tmp, 1024, "%s:%d:%d:%d:%d:%d:%d", ..)] *)
Definition getIndex (f : string) (r t h v : Z) (c : CompressionType) (q : Z) : string :=
  snprintf 1024 (c_str f +:+ ":" +:+ dec r +:+ ":" +:+ dec t +:+ ":" +:+ dec h +:+ ":" +:+ dec v
                 +:+ ":" +:+ dec (CompressionType_code c) +:+ ":" +:+ dec q).

Definition tile_key (r : RawTile) : string :=
  getIndex (filename r) (resolution r) (tileNum r) (hSequence r) (vSequence r)
           (compressionType r) (quality r).

(** The node an iterator points to. *)
Definition deref (id : nat) (l : list node) : res node :=
  match filter (fun n => nid n = id) l with
  | n :: _ => Ok n
  | [] => undef "dangling list iterator"
  end.

Definition erase_node (id : nat) (l : list node) : list node := filter (fun n => nid n <> id) l.

Section Operations.
Context (capacity : string -> Z) (tileSize : Z) (junk : Z -> Z).

(** What a tile under a key counts for, in [size_t] arithmetic. *)
Definition entry_size (key : string) (r : RawTile) : Z :=
  u64 (dataLength r + (capacity (filename r) + capacity key) * 1 + tileSize).

Definition empty_cache (max : Z) : Cache := mkCache max 0 [] ∅ 0.

(** [Cache( float max )] *)
Definition new_Cache (max : float) : res Cache :=
  m ← to_u64 (fmul b32 max (of_Z b32 1024000));
  Ok (empty_cache m).

Definition clear (c : Cache) : Cache := mkCache (maxSize c) 0 [] ∅ (next_id c).

Definition _touch (c : Cache) (key : string) : res (Cache * option nat) :=
  match tileMap c !! key with
  | None => Ok (c, None)
  | Some id =>
      n ← deref id (tileList c);
      Ok (mkCache (maxSize c) (currentSize c) (n :: erase_node id (tileList c))
                  (tileMap c) (next_id c), Some id)
  end.

(** [_remove( miter )] where [miter = tileMap.find( key )] *)
Definition _remove (c : Cache) (key : string) : res Cache :=
  match tileMap c !! key with
  | None => undef "erase of end()"
  | Some id =>
      n ← deref id (tileList c);
      Ok (mkCache (maxSize c) (u64 (currentSize c - entry_size (nkey n) (ntile n)))
                  (erase_node id (tileList c)) (delete key (tileMap c)) (next_id c))
  end.

(** [while( currentSize > maxSize )] *)
Fixpoint evict (fuel : nat) (c : Cache) : res Cache :=
  if currentSize c <=? maxSize c then Ok c
  else match fuel with
       | O => Err OutOfFuel
       | S fuel =>
           match last (tileList c) with
           | None => undef "--end() of an empty list"
           | Some n => c ← _remove c (nkey n); evict fuel c
           end
       end.

Definition insert_front (c : Cache) (key : string) (r : RawTile) : res Cache :=
  r' ← copy junk r;
  let c := mkCache (maxSize c) (currentSize c) (mkNode (next_id c) key r' :: tileList c)
                   (<[key := next_id c]> (tileMap c)) (S (next_id c)) in
  let c := mkCache (maxSize c) (u64 (currentSize c + entry_size key r)) (tileList c)
                   (tileMap c) (next_id c) in
  evict (S (length (tileList c))) c.

Definition insert (c : Cache) (r : RawTile) : res Cache :=
  if maxSize c =? 0 then Ok c
  else
    let key := tile_key r in
    '(c, miter) ← _touch c key;
    match miter with
    | Some id =>
        n ← deref id (tileList c);
        if timestamp (ntile n) <? timestamp r then
          c ← _remove c key;
          insert_front c key r
        else Ok c
    | None => insert_front c key r
    end.

Definition getNumElements (c : Cache) : Z := u32 (Z.of_nat (length (tileList c))).

Definition getMemorySize (c : Cache) : float :=
  fcvt b32 (fdiv b64 (of_Z b64 (currentSize c)) (of_Z b64 1024000)).

(** [getTile]: the tile the returned pointer points to, or [None] for NULL. *)
Definition getTile (c : Cache) (f : string) (r t h v : Z) (ct : CompressionType) (q : Z)
  : res (option RawTile * Cache) :=
  if maxSize c =? 0 then Ok (None, c)
  else
    let key := getIndex f r t h v ct q in
    match tileMap c !! key with
    | None => Ok (None, c)
    | Some id =>
        '(c, _) ← _touch c key;
        n ← deref id (tileList c);
        Ok (Some (ntile n), c)
    end.

(** ** Abstract specification: a list of entries, most recently used first *)

Abbreviation lru := (list (string * RawTile)).

Definition lookup_key (k : string) (l : lru) : option RawTile :=
  snd <$> head (filter (fun e => fst e = k) l).

Definition without (k : string) (l : lru) : lru := filter (fun e => fst e <> k) l.

(** The longest prefix whose sizes add up to at most [max]. *)
Fixpoint fitting (max : Z) (l : lru) : lru :=
  match l with
  | [] => []
  | (k, t) :: l' =>
      if entry_size k t <=? max then (k, t) :: fitting (max - entry_size k t) l' else []
  end.

Definition total (l : lru) : Z := foldr (fun e s => entry_size (fst e) (snd e) + s) 0 l.

Definition spec_get (k : string) (l : lru) : option RawTile * lru :=
  match lookup_key k l with
  | None => (None, l)
  | Some t => (Some t, (k, t) :: without k l)
  end.

Definition spec_insert (max : Z) (r r' : RawTile) (l : lru) : lru :=
  if max =? 0 then l
  else
    let k := tile_key r in
    match lookup_key k l with
    | Some t =>
        if timestamp t <? timestamp r then fitting max ((k, r') :: without k l)
        else (k, t) :: without k l
    | None => fitting max ((k, r') :: l)
    end.

Definition abs (c : Cache) : lru := (fun n => (nkey n, ntile n)) <$> tileList c.

(** ** Representation invariant *)

Record linked (c : Cache) : Prop := {
  wf_map : forall k id, tileMap c !! k = Some id <->
                        exists n, n ∈ tileList c /\ nid n = id /\ nkey n = k;
  wf_ids : NoDup (nid <$> tileList c);
  wf_keys : NoDup (nkey <$> tileList c);
  wf_fresh : forall n, n ∈ tileList c -> (nid n < next_id c)%nat;
  wf_key : forall n, n ∈ tileList c -> nkey n = tile_key (ntile n);
  wf_size : currentSize c = total (abs c) /\ currentSize c < 2 ^ 64
}.

Definition wf (c : Cache) : Prop :=
  linked c /\ currentSize c <= maxSize c < 2 ^ 63.

(** ** Lemmas: the linked list and the index *)

Lemma deref_spec id l n :
  NoDup (nid <$> l) -> n ∈ l -> nid n = id -> deref id l = Ok n.
Proof.
  intros Hnd Hn <-. unfold deref. induction l as [|m l IH]; [set_solver|].
  cbn [fmap list_fmap] in Hnd. apply NoDup_cons in Hnd as [Hm Hnd].
  rewrite filter_cons. apply elem_of_cons in Hn as [->|Hn].
  - rewrite decide_True by reflexivity. reflexivity.
  - rewrite decide_False; [auto|]. intros E. apply Hm. rewrite E.
    apply list_elem_of_fmap. eauto.
Qed.

Lemma erase_node_keys id l n :
  NoDup (nid <$> l) -> NoDup (nkey <$> l) -> n ∈ l -> nid n = id ->
  ((fun n => (nkey n, ntile n)) <$> erase_node id l)
  = without (nkey n) ((fun n => (nkey n, ntile n)) <$> l).
Proof.
  intros Hi Hk Hn <-. unfold erase_node, without.
  assert (H : forall m, m ∈ l -> nid m = nid n <-> nkey m = nkey n).
  { intros m Hm. split; intros E.
    - f_equal. eapply (NoDup_fmap_inj nid); eassumption.
    - f_equal. eapply (NoDup_fmap_inj nkey); eassumption. }
  clear Hi Hk Hn. induction l as [|m l IH]; [reflexivity|].
  specialize (IH (fun x Hx => H x (list_elem_of_further _ _ _ Hx))).
  assert (E := H m (list_elem_of_here _ _)). rewrite fmap_cons.
  destruct (decide (nid m = nid n)) as [Em|Em].
  - rewrite !filter_cons_False by (cbn [fst]; tauto). exact IH.
  - rewrite !filter_cons_True by (cbn [fst]; tauto). rewrite fmap_cons, IH. reflexivity.
Qed.

Lemma lookup_key_abs k l n :
  NoDup (nkey <$> l) -> n ∈ l -> nkey n = k ->
  lookup_key k ((fun n => (nkey n, ntile n)) <$> l) = Some (ntile n).
Proof.
  intros Hk Hn <-. unfold lookup_key. induction l as [|m l IH]; [set_solver|].
  rewrite fmap_cons in *. apply NoDup_cons in Hk as [Hm Hk]. rewrite filter_cons. cbn [fst].
  apply elem_of_cons in Hn as [->|Hn].
  - rewrite decide_True by reflexivity. reflexivity.
  - rewrite decide_False; [auto|]. intros E. apply Hm. rewrite E. apply list_elem_of_fmap. eauto.
Qed.

Lemma lookup_key_none k l :
  (forall n, n ∈ l -> nkey n <> k) -> lookup_key k ((fun n => (nkey n, ntile n)) <$> l) = None.
Proof.
  intros H. unfold lookup_key. induction l as [|m l IH]; [reflexivity|].
  rewrite fmap_cons, filter_cons. cbn [fst].
  rewrite decide_False by (apply H; set_solver). apply IH. intros; apply H; set_solver.
Qed.

Lemma entry_size_range k t : 0 <= entry_size k t < 2 ^ 64.
Proof. unfold entry_size, u64. apply Z.mod_pos_bound. lia. Qed.

Lemma total_cons k t l : total ((k, t) :: l) = entry_size k t + total l.
Proof. reflexivity. Qed.

Lemma total_app l1 l2 : total (l1 ++ l2) = total l1 + total l2.
Proof. induction l1 as [|[k t] l1 IH]; [reflexivity|]. cbn [app]. rewrite !total_cons, IH. lia. Qed.

Lemma total_nonneg l : 0 <= total l.
Proof.
  induction l as [|[k t] l IH]; [reflexivity|].
  rewrite total_cons. pose proof (entry_size_range k t). lia.
Qed.

Lemma total_without k t l :
  NoDup (fst <$> l) -> lookup_key k l = Some t -> total l = entry_size k t + total (without k l).
Proof.
  unfold lookup_key, without. induction l as [|[k' t'] l IH]; intros Hnd H; [discriminate|].
  cbn [fmap list_fmap fst] in Hnd. apply NoDup_cons in Hnd as [Hk Hnd].
  destruct (decide (k' = k)) as [->|Hne].
  - rewrite filter_cons_True in H by reflexivity. injection H as ->.
    rewrite filter_cons_False by (cbn; tauto). rewrite total_cons. do 2 f_equal.
    symmetry. apply filter_all. intros [a b] Hin E. cbn in E. subst a.
    apply Hk, list_elem_of_fmap. exists (k, b). split; [reflexivity|assumption].
  - rewrite filter_cons_False in H by exact Hne. rewrite filter_cons_True by exact Hne.
    rewrite !total_cons, (IH Hnd H). lia.
Qed.

Lemma fitting_all max l : total l <= max -> fitting max l = l.
Proof.
  revert max. induction l as [|[k t] l IH]; intros max H; [reflexivity|].
  rewrite total_cons in H. pose proof (total_nonneg l). cbn [fitting].
  rewrite (proj2 (Z.leb_le _ _)) by lia. f_equal. apply IH. lia.
Qed.

Lemma fitting_snoc max l k t :
  max < total (l ++ [(k, t)]) -> fitting max (l ++ [(k, t)]) = fitting max l.
Proof.
  revert max. induction l as [|[k' t'] l IH]; intros max H.
  - cbn in *. destruct (Z.leb_spec (entry_size k t) max); [lia|reflexivity].
  - cbn [app fitting]. destruct (entry_size k' t' <=? max); [|reflexivity].
    f_equal. apply IH. cbn [app] in H. rewrite total_cons in H. lia.
Qed.

Lemma fitting_total max l : 0 <= max -> total (fitting max l) <= max.
Proof.
  revert max. induction l as [|[k t] l IH]; intros max H; [exact H|]. cbn [fitting].
  destruct (Z.leb_spec (entry_size k t) max); [|exact H].
  rewrite total_cons. specialize (IH (max - entry_size k t) ltac:(lia)). lia.
Qed.

Lemma abs_keys c : fst <$> abs c = nkey <$> tileList c.
Proof. unfold abs. rewrite <- list_fmap_compose. reflexivity. Qed.

(** What [tileMap.find] and the iterator it returns give. *)
Lemma linked_find c k :
  linked c ->
  match tileMap c !! k with
  | None => lookup_key k (abs c) = None
  | Some id => exists n, n ∈ tileList c /\ nid n = id /\ nkey n = k /\
                 deref id (tileList c) = Ok n /\ lookup_key k (abs c) = Some (ntile n)
  end.
Proof.
  intros [Hm Hi Hk _ _ _]. destruct (tileMap c !! k) as [id|] eqn:E.
  - apply Hm in E as (n & Hn & Hid & Hkey). exists n. repeat split; try assumption.
    + apply deref_spec; assumption.
    + apply lookup_key_abs; assumption.
  - apply lookup_key_none. intros n Hn Hkn.
    assert (tileMap c !! k = Some (nid n)) as E' by (apply Hm; eauto). congruence.
Qed.

Lemma erase_node_subset id l n : n ∈ erase_node id l -> n ∈ l /\ nid n <> id.
Proof. unfold erase_node. rewrite list_elem_of_filter. tauto. Qed.

Lemma erase_node_NoDup {B} (f : node -> B) id l : NoDup (f <$> l) -> NoDup (f <$> erase_node id l).
Proof.
  unfold erase_node. induction l as [|m l IH]; [intros; constructor|].
  rewrite fmap_cons. intros [Hm Hnd]%NoDup_cons. rewrite filter_cons.
  destruct (decide (nid m <> id)); [|auto]. rewrite fmap_cons. apply NoDup_cons. split; [|auto].
  intros (x & Ex & Hx)%list_elem_of_fmap. apply Hm. apply list_elem_of_fmap.
  exists x. split; [exact Ex|]. apply list_elem_of_filter in Hx. tauto.
Qed.

Lemma touch_members id l n :
  NoDup (nid <$> l) -> n ∈ l -> nid n = id -> forall m, m ∈ n :: erase_node id l <-> m ∈ l.
Proof.
  intros Hnd Hn Hid m. unfold erase_node. rewrite elem_of_cons, list_elem_of_filter.
  split; [intuition congruence|]. intros Hm.
  destruct (decide (nid m = id)) as [E|]; [left|right; tauto].
  eapply (NoDup_fmap_inj nid); eauto. congruence.
Qed.

Lemma touch_linked c k id n :
  linked c -> tileMap c !! k = Some id -> n ∈ tileList c -> nid n = id -> nkey n = k ->
  _touch c k = Ok (mkCache (maxSize c) (currentSize c) (n :: erase_node id (tileList c))
                           (tileMap c) (next_id c), Some id)
  /\ linked (mkCache (maxSize c) (currentSize c) (n :: erase_node id (tileList c))
                     (tileMap c) (next_id c))
  /\ abs (mkCache (maxSize c) (currentSize c) (n :: erase_node id (tileList c))
                  (tileMap c) (next_id c)) = (k, ntile n) :: without k (abs c).
Proof.
  intros Hl E Hn Hid Hkey. pose proof Hl as [Hm Hi Hk Hf Hkk [Hs1 Hs2]].
  pose proof (touch_members id (tileList c) n Hi Hn Hid) as Hmem.
  assert (Habs : (fun n => (nkey n, ntile n)) <$> (n :: erase_node id (tileList c))
                 = (k, ntile n) :: without k (abs c)).
  { rewrite fmap_cons, (erase_node_keys id (tileList c) n) by assumption. rewrite Hkey. reflexivity. }
  split; [|split].
  - unfold _touch. rewrite E, (deref_spec id _ n) by assumption. reflexivity.
  - split; cbn [tileMap tileList next_id currentSize].
    + intros k' id'. rewrite Hm. split; intros (m & Hmm & ?); exists m; (split; [apply Hmem, Hmm | assumption]).
    + rewrite fmap_cons. apply NoDup_cons. split; [|apply erase_node_NoDup, Hi].
      intros (m & Em & (_ & Hne)%erase_node_subset)%list_elem_of_fmap. congruence.
    + rewrite fmap_cons. apply NoDup_cons. split; [|apply erase_node_NoDup, Hk].
      intros (m & Em & (Hin & Hne)%erase_node_subset)%list_elem_of_fmap. apply Hne.
      rewrite <- Hid. f_equal. eapply (NoDup_fmap_inj nkey); eauto.
    + intros m Hmm. apply Hf, Hmem, Hmm.
    + intros m Hmm. apply Hkk, Hmem, Hmm.
    + split; [|exact Hs2]. unfold abs at 1. cbn [tileList]. rewrite Habs, total_cons, Hs1.
      apply total_without; [rewrite abs_keys; exact Hk|].
      unfold abs. rewrite <- Hkey. apply lookup_key_abs; auto.
  - exact Habs.
Qed.

Lemma remove_linked c k :
  linked c -> is_Some (tileMap c !! k) ->
  exists c' t, _remove c k = Ok c' /\ linked c' /\ abs c' = without k (abs c)
    /\ maxSize c' = maxSize c /\ lookup_key k (abs c) = Some t
    /\ (length (tileList c') < length (tileList c))%nat
    /\ next_id c' = next_id c /\ tileMap c' !! k = None.
Proof.
  intros Hl [id E]. pose proof Hl as [Hm Hi Hk Hf Hkk [Hs1 Hs2]].
  pose proof (linked_find c k Hl) as F. rewrite E in F.
  destruct F as (n & Hn & Hid & Hkey & Hd & Hlk).
  assert (Ht : total (abs c) = entry_size k (ntile n) + total (without k (abs c)))
    by (apply total_without; [rewrite abs_keys; exact Hk|exact Hlk]).
  pose proof (total_nonneg (without k (abs c))). pose proof (entry_size_range k (ntile n)).
  assert (Habs : (fun n => (nkey n, ntile n)) <$> erase_node id (tileList c) = without k (abs c))
    by (rewrite (erase_node_keys id (tileList c) n), Hkey by assumption; reflexivity).
  unfold _remove. rewrite E, Hd, bind_ret. eexists. exists (ntile n).
  split; [reflexivity|]. split.
  - split; cbn [tileMap tileList next_id currentSize].
    + intros k' id'. rewrite lookup_delete_Some, Hm. split.
      * intros (Hne & m & Hmm & Hmi & Hmk). exists m. split; [|tauto].
        unfold erase_node. apply list_elem_of_filter. split; [|assumption].
        intros Emi. apply Hne. rewrite <- Hkey, <- Hmk. f_equal.
        eapply (NoDup_fmap_inj nid); eauto. congruence.
      * intros (m & (Hmm & Hmn)%erase_node_subset & Hmi & Hmk). split; [|eauto].
        intros Ek. apply Hmn. rewrite <- Hid. f_equal.
        eapply (NoDup_fmap_inj nkey); eauto. congruence.
    + apply erase_node_NoDup, Hi.
    + apply erase_node_NoDup, Hk.
    + intros m (Hmm & _)%erase_node_subset. auto.
    + intros m (Hmm & _)%erase_node_subset. auto.
    + unfold abs at 1. cbn [tileList]. rewrite Habs, Hkey, Hs1, Ht, u64_small by lia. lia.
  - split; [exact Habs|]. split; [reflexivity|]. split; [exact Hlk|]. split.
    + cbn [tileList]. unfold erase_node. apply length_filter_lt with (x := n); [assumption|]. tauto.
    + split; [reflexivity|]. cbn [tileMap]. apply lookup_delete_eq.
Qed.

Lemma without_snoc k t l : NoDup (fst <$> l ++ [(k, t)]) -> without k (l ++ [(k, t)]) = l.
Proof.
  rewrite fmap_app. intros (_ & Hd & _)%NoDup_app. unfold without.
  rewrite filter_app, filter_cons_False by (cbn; tauto). cbn. rewrite app_nil_r.
  apply filter_all. intros [a b] Hin E. cbn in E. subst a.
  apply (Hd k); [|set_solver]. apply list_elem_of_fmap. exists (k, b). split; [reflexivity|assumption].
Qed.

(** The eviction loop ends, with exactly the most recently used entries that
    fit. *)
Lemma evict_spec fuel c :
  linked c -> 0 <= maxSize c < 2 ^ 63 -> (length (tileList c) <= fuel)%nat ->
  exists c', evict fuel c = Ok c' /\ wf c' /\ abs c' = fitting (maxSize c) (abs c)
    /\ maxSize c' = maxSize c.
Proof.
  revert c. induction fuel as [|fuel IH]; intros c Hl Hmax Hf; cbn [evict];
    destruct (Z.leb_spec (currentSize c) (maxSize c)) as [Hle|Hgt];
    try (exists c; pose proof Hl as [_ _ _ _ _ [Hs _]];
         rewrite fitting_all by lia; split_and!; auto; split; [assumption|lia]).
  - exfalso. pose proof Hl as [_ _ _ _ _ [Hs _]]. unfold abs in Hs.
    destruct (tileList c); cbn in *; lia.
  - pose proof Hl as [Hm _ Hk _ _ [Hs _]].
    destruct (last (tileList c)) as [n|] eqn:El.
    2: { exfalso. apply last_None in El. unfold abs in Hs. rewrite El in Hs. cbn in Hs. lia. }
    apply last_Some in El as (l' & El).
    destruct (remove_linked c (nkey n) Hl) as (c1 & t & E1 & Hl1 & Ha1 & Hmx & _ & Hlen & _).
    { exists (nid n). apply Hm. exists n. split_and!; [|reflexivity..].
      rewrite El. apply elem_of_app. right. apply list_elem_of_here. }
    rewrite E1, bind_ret. destruct (IH c1 Hl1 ltac:(lia) ltac:(lia)) as (c' & E2 & W & Ha2 & Hmx2).
    exists c'. split_and!; [exact E2|exact W| |congruence].
    assert (Eabs : abs c = ((fun n => (nkey n, ntile n)) <$> l') ++ [(nkey n, ntile n)])
      by (unfold abs; rewrite El, fmap_app; reflexivity).
    rewrite Ha2, Hmx, Ha1, Eabs, without_snoc, fitting_snoc; [reflexivity| |].
    + rewrite <- Eabs. lia.
    + rewrite <- Eabs, abs_keys. exact Hk.
Qed.

(** The arguments an insertion gets: a tile whose memory is what its fields
    say, small enough for the counters not to wrap. *)
Definition insertable (r : RawTile) : Prop :=
  tile_ok r /\ forall k, entry_size k r < 2 ^ 63.

(** The copy of a tile that the cache stores. *)
Definition is_copy (r r' : RawTile) : Prop := copy junk r = Ok r'.

Lemma is_copy_fields r r' : is_copy r r' ->
  tile_key r' = tile_key r /\ (forall k, entry_size k r' = entry_size k r)
  /\ timestamp r' = timestamp r.
Proof.
  unfold is_copy, copy. intros H.
  destruct (data r); [destruct (0 <? dataLength r)|]; inv_res; split_and!; intros; reflexivity.
Qed.

Lemma insert_front_spec c r :
  linked c -> 0 < maxSize c < 2 ^ 63 -> currentSize c < 2 ^ 63 ->
  insertable r -> lookup_key (tile_key r) (abs c) = None ->
  exists c' r', is_copy r r' /\ insert_front c (tile_key r) r = Ok c' /\ wf c'
    /\ abs c' = fitting (maxSize c) ((tile_key r, r') :: abs c) /\ maxSize c' = maxSize c.
Proof.
  intros Hl Hmax Hcur [Ht Hsz] Hnone. destruct (copy_ok junk r Ht) as (m & Ec).
  unfold insert_front. rewrite Ec. set (r' := set_data r _ m) in *. rewrite bind_ret.
  cbn [maxSize currentSize tileList tileMap next_id].
  destruct (is_copy_fields r r' Ec) as (Hkey & Hes & _).
  pose proof Hl as [Hm Hi Hk Hf Hkk [Hs1 Hs2]].
  pose proof (linked_find c (tile_key r) Hl) as Hfind.
  assert (Hmap : tileMap c !! tile_key r = None).
  { destruct (tileMap c !! tile_key r); [exfalso|reflexivity].
    destruct Hfind as (? & _ & _ & _ & _ & E). congruence. }
  pose proof (entry_size_range (tile_key r) r). specialize (Hsz (tile_key r)).
  pose proof (total_nonneg (abs c)). rewrite u64_small by lia.
  set (c1 := mkCache _ _ _ _ _).
  assert (Hl1 : linked c1).
  { split; subst c1; cbn [tileMap tileList next_id currentSize].
    - intros k id. rewrite lookup_insert_Some, Hm. split.
      + intros [[<- <-]|(Hne & n & Hn & Hid & Hkn)].
        * exists (mkNode (next_id c) (tile_key r) r'). split; [apply list_elem_of_here|auto].
        * exists n. split; [apply list_elem_of_further, Hn|auto].
      + intros (n & Hn & Hid & Hkn). apply elem_of_cons in Hn as [->|Hn]; [left; auto|right].
        split; [|eauto]. intros Ek. assert (tileMap c !! tile_key r = Some id) by (apply Hm; subst; eauto).
        congruence.
    - rewrite fmap_cons. apply NoDup_cons. split; [|exact Hi].
      intros (n & En & Hn)%list_elem_of_fmap. cbn in En. apply Hf in Hn. lia.
    - rewrite fmap_cons. apply NoDup_cons. split; [|exact Hk].
      intros (n & En & Hn)%list_elem_of_fmap. cbn in En.
      assert (tileMap c !! tile_key r = Some (nid n)) by (apply Hm; eauto). congruence.
    - intros n Hn. apply elem_of_cons in Hn as [->|Hn]; [cbn; lia|]. apply Hf in Hn. lia.
    - intros n Hn. apply elem_of_cons in Hn as [->|Hn]; [cbn; congruence|]. auto.
    - unfold abs. cbn [tileList]. rewrite fmap_cons, total_cons. cbn [nkey ntile]. fold (abs c).
      rewrite Hes. lia. }
  destruct (evict_spec (S (length (tileList c1))) c1 Hl1) as (c' & E & W & Ha & Hmx);
    [unfold c1; cbn; lia|lia|].
  exists c', r'. split; [exact Ec|]. split; [exact E|]. split; [exact W|].
  split; [exact Ha|exact Hmx].
Qed.

Lemma lookup_key_without k l : lookup_key k (without k l) = None.
Proof.
  unfold lookup_key, without. rewrite list_filter_filter.
  induction l as [|e l IH]; [reflexivity|]. rewrite filter_cons_False; [exact IH|tauto].
Qed.

(** [insert] implements [spec_insert]. *)
Lemma insert_spec c r :
  wf c -> 0 <= maxSize c -> insertable r ->
  exists c' r', is_copy r r' /\ insert c r = Ok c' /\ wf c' /\ maxSize c' = maxSize c
    /\ abs c' = spec_insert (maxSize c) r r' (abs c).
Proof.
  intros [Hl Hb] H0 Hr. pose proof Hr as [Ht _]. destruct (copy_ok junk r Ht) as (m & Ec).
  unfold insert, spec_insert.
  destruct (Z.eqb_spec (maxSize c) 0) as [Hz|Hz].
  { eexists c, _. split; [exact Ec|]. split_and!; auto; split; [assumption|lia]. }
  pose proof (linked_find c (tile_key r) Hl) as Hfind.
  destruct (tileMap c !! tile_key r) as [id|] eqn:Emap.
  2: { unfold _touch. rewrite Emap, bind_ret, Hfind.
       destruct (insert_front_spec c r Hl) as (c' & r' & Hc & E & W & Ha & Hmx); auto; try lia.
       exists c', r'. auto 6. }
  destruct Hfind as (n & Hn & Hid & Hkey & Hd & Hlk).
  destruct (touch_linked c _ id n Hl Emap Hn Hid Hkey) as (Et & Hl1 & Ha1).
  rewrite Et, bind_ret, Hlk. set (c1 := mkCache _ _ _ _ _) in *.
  assert (Hd1 : deref id (tileList c1) = Ok n).
  { apply deref_spec; [apply Hl1|apply list_elem_of_here|exact Hid]. }
  rewrite Hd1, bind_ret. destruct (timestamp (ntile n) <? timestamp r).
  - destruct (remove_linked c1 (tile_key r) Hl1) as (c2 & t & E2 & Hl2 & Ha2 & Hmx2 & _ & _ & _ & Hnone);
      [exists id; exact Emap|].
    rewrite E2, bind_ret.
    assert (Ew : without (tile_key r) (abs c1) = without (tile_key r) (abs c)).
    { rewrite Ha1. unfold without. rewrite filter_cons_False by (cbn; tauto).
      rewrite list_filter_filter. apply list_filter_iff. tauto. }
    destruct (insert_front_spec c2 r Hl2) as (c' & r' & Hc & E & W & Ha & Hmx).
    + cbn in Hmx2. lia.
    + pose proof Hl2 as [_ _ _ _ _ [S2 _]]. pose proof Hl as [_ _ _ _ _ [S1 _]].
      rewrite S2, Ha2, Ew.
      pose proof (total_without (tile_key r) (ntile n) (abs c)) as Htw.
      rewrite abs_keys in Htw. specialize (Htw (wf_keys _ Hl) Hlk).
      pose proof (entry_size_range (tile_key r) (ntile n)). lia.
    + exact Hr.
    + rewrite Ha2. apply lookup_key_without.
    + exists c', r'. split; [exact Hc|]. split; [exact E|]. split; [exact W|].
      cbn in Hmx2. split; [congruence|]. rewrite Ha, Ha2, Ew, Hmx2. reflexivity.
  - eexists c1, _. split; [exact Ec|]. split; [reflexivity|]. split_and!; auto; split; [assumption|cbn; lia].
Qed.

(** [getTile] implements [spec_get]. *)
Lemma getTile_spec c f r t h v ct q :
  wf c -> maxSize c <> 0 ->
  exists c', getTile c f r t h v ct q = Ok (fst (spec_get (getIndex f r t h v ct q) (abs c)), c')
    /\ wf c' /\ maxSize c' = maxSize c /\ abs c' = snd (spec_get (getIndex f r t h v ct q) (abs c)).
Proof.
  intros [Hl Hb] Hz. unfold getTile, spec_get. rewrite (proj2 (Z.eqb_neq _ _) Hz).
  set (k := getIndex f r t h v ct q). pose proof (linked_find c k Hl) as Hfind.
  destruct (tileMap c !! k) as [id|] eqn:Emap.
  2: { rewrite Hfind. exists c. split_and!; auto; split; [assumption|lia]. }
  destruct Hfind as (n & Hn & Hid & Hkey & Hd & Hlk). rewrite Hlk.
  destruct (touch_linked c _ id n Hl Emap Hn Hid Hkey) as (Et & Hl1 & Ha1).
  rewrite Et, bind_ret. set (c1 := mkCache _ _ _ _ _) in *.
  assert (Hd1 : deref id (tileList c1) = Ok n).
  { apply deref_spec; [apply Hl1|apply list_elem_of_here|exact Hid]. }
  rewrite Hd1, bind_ret. exists c1. split_and!; auto; split; [assumption|cbn; lia].
Qed.

(** ** Histories of a cache *)

Inductive op :=
| OpInsert (r : RawTile)
| OpGet (f : string) (r t h v : Z) (ct : CompressionType) (q : Z)
| OpClear.

Definition run_op (c : Cache) (o : op) : res (option RawTile * Cache) :=
  match o with
  | OpInsert r => c ← insert c r; Ok (None, c)
  | OpGet f r t h v ct q => getTile c f r t h v ct q
  | OpClear => Ok (None, clear c)
  end.

Fixpoint run (c : Cache) (ops : list op) : res (list (option RawTile) * Cache) :=
  match ops with
  | [] => Ok ([], c)
  | o :: ops => '(x, c) ← run_op c o; '(xs, c) ← run c ops; Ok (x :: xs, c)
  end.

(** The tile the cache stores for [r]. *)
Definition stored (r : RawTile) : RawTile :=
  match copy junk r with Ok r' => r' | Err _ => r end.

Definition spec_op (max : Z) (l : lru) (o : op) : option RawTile * lru :=
  match o with
  | OpInsert r => (None, spec_insert max r (stored r) l)
  | OpGet f r t h v ct q => if max =? 0 then (None, l) else spec_get (getIndex f r t h v ct q) l
  | OpClear => (None, [])
  end.

Fixpoint spec_run (max : Z) (l : lru) (ops : list op) : list (option RawTile) * lru :=
  match ops with
  | [] => ([], l)
  | o :: ops => let '(x, l) := spec_op max l o in let '(xs, l) := spec_run max l ops in (x :: xs, l)
  end.

Definition op_ok (o : op) : Prop := match o with OpInsert r => insertable r | _ => True end.

Lemma empty_wf m id : 0 <= m < 2 ^ 63 -> wf (mkCache m 0 [] ∅ id).
Proof.
  intros H. split; [|cbn; lia]. split; cbn [tileMap tileList currentSize].
  - intros k i. rewrite lookup_empty. split; [discriminate|].
    intros (n & Hn & _). apply not_elem_of_nil in Hn. contradiction.
  - constructor.
  - constructor.
  - intros n Hn. apply not_elem_of_nil in Hn. contradiction.
  - intros n Hn. apply not_elem_of_nil in Hn. contradiction.
  - split; [reflexivity|lia].
Qed.

Lemma run_op_spec c o :
  wf c -> 0 <= maxSize c -> op_ok o ->
  exists c', run_op c o = Ok (fst (spec_op (maxSize c) (abs c) o), c')
    /\ wf c' /\ maxSize c' = maxSize c /\ abs c' = snd (spec_op (maxSize c) (abs c) o).
Proof.
  intros W H0 Ho. destruct o as [r|f r t h v ct q|]; cbn [run_op spec_op fst snd op_ok] in *.
  - destruct (insert_spec c r W H0 Ho) as (c' & r' & Hc & E & W' & Hmx & Ha).
    exists c'. rewrite E, bind_ret. unfold stored. rewrite Hc. auto.
  - destruct (Z.eqb_spec (maxSize c) 0) as [Hz|Hz].
    + exists c. unfold getTile. rewrite Hz. auto.
    + apply getTile_spec; assumption.
  - exists (clear c). split; [reflexivity|]. split; [|auto].
    apply empty_wf. destruct W as [_ [_ W]]. lia.
Qed.

Lemma run_spec c ops :
  wf c -> 0 <= maxSize c -> Forall op_ok ops ->
  exists c', run c ops = Ok (fst (spec_run (maxSize c) (abs c) ops), c')
    /\ wf c' /\ maxSize c' = maxSize c /\ abs c' = snd (spec_run (maxSize c) (abs c) ops).
Proof.
  intros W H0 Hops. revert c W H0. induction Hops as [|o ops Ho Hops IH]; intros c W H0; cbn [run spec_run].
  - exists c. auto.
  - destruct (run_op_spec c o W H0 Ho) as (c1 & E1 & W1 & M1 & A1). rewrite E1, bind_ret.
    destruct (IH c1 W1 ltac:(lia)) as (c2 & E2 & W2 & M2 & A2). rewrite E2, bind_ret.
    rewrite M1, A1 in *. destruct (spec_op (maxSize c) (abs c) o) as [x l]. cbn [fst snd] in *.
    destruct (spec_run (maxSize c) l ops) as [xs l']. cbn [fst snd] in *.
    exists c2. split_and!; auto.
Qed.

(** Every entry of the specification was inserted under its own key. *)
Definition inserted (ops : list op) (e : string * RawTile) : Prop :=
  exists r, OpInsert r ∈ ops /\ e = (tile_key r, stored r).

Lemma fitting_incl max l e : e ∈ fitting max l -> e ∈ l.
Proof.
  revert max. induction l as [|[k t] l IH]; intros max; cbn [fitting]; [auto|].
  destruct (entry_size k t <=? max); [|intros H; apply not_elem_of_nil in H; contradiction].
  intros [->|H]%elem_of_cons; [apply list_elem_of_here|]. apply list_elem_of_further. eauto.
Qed.

Lemma lookup_key_elem k l t : lookup_key k l = Some t -> (k, t) ∈ l.
Proof.
  unfold lookup_key. destruct (filter _ l) as [|[k' t'] l'] eqn:E; [discriminate|].
  intros [= ->]. assert (H : (k', t) ∈ filter (fun e => fst e = k) l) by (rewrite E; apply list_elem_of_here).
  apply list_elem_of_filter in H as [Hk H]. cbn in Hk. congruence.
Qed.

Lemma without_incl k l e : e ∈ without k l -> e ∈ l.
Proof. unfold without. rewrite list_elem_of_filter. tauto. Qed.

Lemma spec_op_incl max l o e :
  e ∈ snd (spec_op max l o) -> e ∈ l \/ inserted [o] e.
Proof.
  assert (Hself : forall r, inserted [OpInsert r] (tile_key r, stored r))
    by (intros r; exists r; split; [apply list_elem_of_here|reflexivity]).
  destruct o as [r|f r t h v ct q|]; cbn [spec_op snd].
  - unfold spec_insert. destruct (max =? 0); [auto|].
    destruct (lookup_key (tile_key r) l) as [t|] eqn:E; [destruct (timestamp t <? timestamp r)|].
    + intros [->|H]%fitting_incl%elem_of_cons; [auto|left; eapply without_incl, H].
    + intros [->|H]%elem_of_cons; left; [apply lookup_key_elem, E|eapply without_incl, H].
    + intros [->|H]%fitting_incl%elem_of_cons; auto.
  - destruct (max =? 0); [auto|]. unfold spec_get.
    destruct (lookup_key _ l) as [t'|] eqn:E; cbn [snd]; [|auto].
    intros [->|H]%elem_of_cons; left; [apply lookup_key_elem, E|eapply without_incl, H].
  - intros H. apply not_elem_of_nil in H. contradiction.
Qed.

Lemma spec_run_incl max l ops e :
  e ∈ snd (spec_run max l ops) -> e ∈ l \/ inserted ops e.
Proof.
  revert l. induction ops as [|o ops IH]; intros l; cbn [spec_run]; [auto|].
  pose proof (spec_op_incl max l o e) as Ho. destruct (spec_op max l o) as [x l1].
  specialize (IH l1). destruct (spec_run max l1 ops) as [xs l2]. cbn [snd] in *.
  intros H. apply IH in H as [H|(r & Hr & He)].
  - apply Ho in H as [H|(r & Hr & He)]; [auto|right]. exists r. split; [|exact He].
    apply list_elem_of_singleton in Hr as ->. apply list_elem_of_here.
  - right. exists r. split; [apply list_elem_of_further, Hr|exact He].
Qed.
End Operations.

(** ** Keys *)

(** File names short enough for the key not to be cut, without a NUL. *)
Definition nameable (f : string) : Prop := c_str f = f /\ slen f <= 900.

Lemma CompressionType_code_inj a b : CompressionType_code a = CompressionType_code b -> a = b.
Proof. destruct a, b; cbn; congruence. Qed.

Lemma no_colon_dec z : smem ":" (dec z) = false.
Proof.
  destruct (smem ":" (dec z)) eqn:E; [|reflexivity].
  apply dec_chars in E as [E|E]; discriminate E.
Qed.

Lemma getIndex_uncut f r t h v c q :
  nameable f -> is_i32 r -> is_i32 t -> is_i32 h -> is_i32 v -> is_i32 q ->
  getIndex f r t h v c q =
  (((((f +:+ String ":" (dec r)) +:+ String ":" (dec t)) +:+ String ":" (dec h))
    +:+ String ":" (dec v)) +:+ String ":" (dec (CompressionType_code c))) +:+ String ":" (dec q).
Proof.
  intros [Hf Hlen] Hr Ht Hh Hv Hq. unfold getIndex, snprintf. rewrite Hf.
  rewrite stake_all.
  - rewrite !sapp_assoc, !scons_app, !snil_app. repeat (rewrite ?scons_app, ?sapp_assoc). reflexivity.
  - assert (Hc : is_i32 (CompressionType_code c)) by (destruct c; split; reflexivity || discriminate).
    pose proof (dec_length_i32 r Hr). pose proof (dec_length_i32 t Ht). pose proof (dec_length_i32 h Hh).
    pose proof (dec_length_i32 v Hv). pose proof (dec_length_i32 q Hq).
    pose proof (dec_length_i32 _ Hc). unfold slen in *. rewrite !slength_app. cbn [String.length]. lia.
Qed.

Lemma getIndex_inj_lemma f r t h v c q f' r' t' h' v' c' q' :
  nameable f -> nameable f' ->
  Forall is_i32 [r; t; h; v; q; r'; t'; h'; v'; q'] ->
  getIndex f r t h v c q = getIndex f' r' t' h' v' c' q' ->
  f = f' /\ r = r' /\ t = t' /\ h = h' /\ v = v' /\ c = c' /\ q = q'.
Proof.
  intros Hf Hf' HA. repeat (apply Forall_cons in HA as [? HA]).
  rewrite !getIndex_uncut by assumption. intros E.
  repeat (apply join_last in E as [E ?]; [|apply no_colon_dec..]).
  split; [exact E|]. repeat split; try (apply dec_inj; assumption).
  apply CompressionType_code_inj, dec_inj. assumption.
Qed.

(** ** Properties *)

(** C2. The cache is a least-recently-used cache.  Starting empty, for every
    sequence of insertions, lookups and clears: no operation ever
    dereferences a dangling iterator or fails; the lookups answer exactly what
    the abstract list of entries answers (an entry is moved to the front when
    looked up or inserted again, replaced when the new tile has a later
    timestamp, and an insertion keeps the longest run of most recently used
    entries that fits); the list and the index agree; and the memory counter is
    the exact sum over the entries and never exceeds the maximum. *)
Theorem cache_refines_lru (capacity : string -> Z) (tileSize : Z) (junk : Z -> Z) (m : Z) (ops : list op) :
  0 <= m < 2 ^ 63 -> Forall (op_ok capacity tileSize) ops ->
  exists c, run capacity tileSize junk (empty_cache m) ops
            = Ok (fst (spec_run capacity tileSize junk m [] ops), c)
    /\ abs c = snd (spec_run capacity tileSize junk m [] ops)
    /\ linked capacity tileSize c
    /\ currentSize c = total capacity tileSize (abs c) /\ currentSize c <= m.
Proof.
  intros Hm Hops.
  destruct (run_spec capacity tileSize junk (empty_cache m) ops) as (c & E & W & M & A);
    [apply empty_wf, Hm|cbn; lia|exact Hops|].
  exists c. cbn [maxSize empty_cache abs tileList fmap list_fmap] in *.
  destruct W as [Hl Hb]. pose proof (wf_size _ _ _ Hl) as [Hs _].
  change (maxSize (empty_cache m)) with m in *. split_and!; auto. lia.
Qed.

Definition demo_tile (n ts : Z) : RawTile :=
  {| tileNum := n; resolution := 1; hSequence := 0; vSequence := 90; compressionType := UNCOMPRESSED;
     quality := 0; filename := "a.tif"; timestamp := ts; data := Some [1; 2; 3; 4]; memoryManaged := 1;
     dataLength := 4; width := 2; height := 2; channels := 1; bpc := 8;
     sampleType := FIXEDPOINT; padded := false |}.

Definition demo_ops : list op :=
  [OpInsert (demo_tile 1 5); OpInsert (demo_tile 2 5);
   OpGet "a.tif" 1 1 0 90 UNCOMPRESSED 0; OpInsert (demo_tile 3 5);
   OpGet "a.tif" 1 2 0 90 UNCOMPRESSED 0; OpGet "a.tif" 1 1 0 90 UNCOMPRESSED 0].

Lemma demo_insertable n ts : insertable (fun _ => 15) 100 (demo_tile n ts).
Proof.
  split; [repeat split; vm_compute; congruence|]. intros k. vm_compute. reflexivity.
Qed.

(** Three tiles of 134 bytes in 300: the second is evicted, the first, looked
    up in between, stays. *)
Lemma cache_refines_lru_witness :
  exists c, run (fun _ => 15) 100 (fun _ => 0) (empty_cache 300) demo_ops
            = Ok ([None; None; Some (demo_tile 1 5); None; None; Some (demo_tile 1 5)], c)
            /\ length (tileList c) = 2%nat.
Proof.
  destruct (cache_refines_lru (fun _ => 15) 100 (fun _ => 0) 300 demo_ops) as (c & E & A & _).
  - lia.
  - repeat (apply Forall_cons; split); try exact I; try apply demo_insertable. apply Forall_nil; exact I.
  - exists c. split; [exact E|]. apply (f_equal length) in A. unfold abs in A.
    rewrite length_fmap in A. rewrite A. vm_compute. reflexivity.
Defined.

(** C26. A lookup never returns the tile of another image, resolution,
    position, angle, compression or quality: what it returns was inserted and
    has exactly the identity asked for, when file names are at most 900
    characters long. *)
Theorem getTile_identity (capacity : string -> Z) (tileSize : Z) (junk : Z -> Z) (m : Z)
    (ops : list op) (f : string) (r t h v : Z) (ct : CompressionType) (q : Z) outs c tile c' :
  0 <= m < 2 ^ 63 -> Forall (op_ok capacity tileSize) ops ->
  (forall x, OpInsert x ∈ ops -> nameable (filename x) /\
     Forall is_i32 [resolution x; tileNum x; hSequence x; vSequence x; quality x]) ->
  nameable f -> Forall is_i32 [r; t; h; v; q] ->
  run capacity tileSize junk (empty_cache m) ops = Ok (outs, c) ->
  getTile c f r t h v ct q = Ok (Some tile, c') ->
  filename tile = f /\ resolution tile = r /\ tileNum tile = t /\ hSequence tile = h
  /\ vSequence tile = v /\ compressionType tile = ct /\ quality tile = q
  /\ exists x, OpInsert x ∈ ops /\ tile = stored junk x.
Proof.
  intros Hm Hops Hins Hf Hints Hrun Hget.
  destruct (run_spec capacity tileSize junk (empty_cache m) ops) as (c1 & E & W & M & A);
    [apply empty_wf, Hm|cbn; lia|exact Hops|].
  rewrite Hrun in E. injection E as _ <-.
  destruct (decide (maxSize c = 0)) as [Hz|Hz].
  { unfold getTile in Hget. rewrite Hz in Hget. discriminate. }
  destruct (getTile_spec capacity tileSize junk c f r t h v ct q W Hz) as (c2 & E & _).
  rewrite Hget in E. injection E as E _. unfold spec_get in E.
  destruct (lookup_key _ (abs c)) as [t'|] eqn:El; [|discriminate]. cbn in E. injection E as ->.
  apply lookup_key_elem in El. rewrite A in El.
  apply spec_run_incl in El as [El|(x & Hx & Ex)]; [apply not_elem_of_nil in El; contradiction|].
  destruct (Hins x Hx) as [Hnx Hix]. injection Ex as Ek Et.
  unfold tile_key in Ek. apply getIndex_inj_lemma in Ek; [|assumption..|].
  2: { repeat (apply Forall_cons in Hints as [? Hints]). repeat (apply Forall_cons in Hix as [? Hix]).
       repeat (apply Forall_cons; split); assumption || apply Forall_nil; exact I. }
  assert (HE : filename t' = filename x /\ resolution t' = resolution x /\ tileNum t' = tileNum x
    /\ hSequence t' = hSequence x /\ vSequence t' = vSequence x
    /\ compressionType t' = compressionType x /\ quality t' = quality x).
  { rewrite Et. unfold stored, copy. destruct (data x); [destruct (0 <? dataLength x)|];
      try (destruct (memcpy _ _ _ _ _)); repeat split. }
  intuition (try congruence). eauto.
Qed.

Lemma getTile_identity_witness :
  exists tile, filename tile = "a.tif" /\ tileNum tile = 2.
Proof.
  destruct (run (fun _ => 15) 100 (fun _ => 0) (empty_cache 300)
              [OpInsert (demo_tile 1 5); OpInsert (demo_tile 2 5)]) as [[outs c]|] eqn:E;
    [|vm_compute in E; discriminate].
  destruct (getTile c "a.tif" 1 2 0 90 UNCOMPRESSED 0) as [[[tile|] c']|] eqn:G;
    [|vm_compute in E; injection E as _ <-; vm_compute in G; discriminate..].
  exists tile.
  destruct (getTile_identity (fun _ => 15) 100 (fun _ => 0) 300
              [OpInsert (demo_tile 1 5); OpInsert (demo_tile 2 5)] "a.tif" 1 2 0 90 UNCOMPRESSED 0
              outs c tile c' ltac:(lia)) as (H1 & _ & H3 & _); [..|exact E|exact G|].
  - repeat (apply Forall_cons; split); try apply demo_insertable. apply Forall_nil; exact I.
  - intros x Hx. repeat apply elem_of_cons in Hx as [[= ->]|Hx];
      try (apply not_elem_of_nil in Hx; contradiction); (split; [split; [reflexivity|vm_compute; congruence]|]);
      repeat (apply Forall_cons; split); try (apply Forall_nil; exact I); split; vm_compute; congruence.
  - split; [reflexivity|vm_compute; congruence].
  - repeat (apply Forall_cons; split); try (apply Forall_nil; exact I); split; vm_compute; congruence.
  - split; assumption.
Defined.

(** The key is cut at 1023 characters: two different tiles of an image
    whose path is that long have the same key, and the cache confuses them. *)
Theorem long_path_keys_collide (f : string) (r t h v q r' t' h' v' q' : Z) (c c' : CompressionType) :
  c_str f = f -> 1023 <= slen f ->
  getIndex f r t h v c q = getIndex f r' t' h' v' c' q'.
Proof.
  intros Hf Hl. unfold getIndex, snprintf. rewrite Hf. change (Z.to_nat (1024 - 1)) with 1023%nat.
  assert (H : forall n a b, (n <= String.length a)%nat -> stake n (a +:+ b) = stake n a).
  { induction n as [|n IH]; intros a b Hn; [reflexivity|].
    destruct a as [|x a]; cbn [String.length] in Hn; [lia|]. rewrite scons_app. cbn [stake].
    f_equal. apply IH. lia. }
  unfold slen in Hl. rewrite !H by lia. reflexivity.
Qed.

Fixpoint repeat_char (n : nat) (c : ascii) : string :=
  match n with O => "" | S n => String c (repeat_char n c) end.

Lemma long_path_keys_collide_witness :
  getIndex (repeat_char 1023 "d") 1 7 0 90 UNCOMPRESSED 0
  = getIndex (repeat_char 1023 "d") 2 8 0 90 JPEG 75.
Proof.
  exact (long_path_keys_collide (repeat_char 1023 "d") 1 7 0 90 0 2 8 0 90 75 UNCOMPRESSED JPEG
           ltac:(vm_compute; reflexivity) ltac:(vm_compute; congruence)).
Defined.
