(* ===== verification/View.v ===== *)
(** * The requested view (src/src/View.h, View.cc)

    The record [View] has the fields of the class.  A method that changes the
    object returns the new one.  [float] computations follow [CFloat]; a
    conversion out of the range of the target type, a division by zero and a
    shift by more than 30 are [undef].  Two loops run on fuel:
    [calculateResolution] halves a 32-bit number, so 33 steps are enough, and
    the size limit of [getResolution] takes a step per resolution. *)
From stdpp Require Import base strings list numbers.
From Stdlib Require Import ZArith Lia Ascii.
From coqutil Require Import Datatypes.RecordSetters.
From S2P Require Import Prelude CString CFloat RawTile.
Import TriangleBracketNotations.
#[local] Open Scope string_scope.
#[local] Open Scope list_scope.
#[local] Open Scope Z_scope.

Inductive cmap_type := HOT | COLD | JET | BLUE | GREEN | RED.

Record View := mkView {
  view_left : float; view_top : float; view_width : float; view_height : float;
  resolution : Z; max_resolutions : Z;
  width : Z; height : Z; res_width : Z; res_height : Z;
  min_size : Z; max_size : Z;
  requested_width : Z; requested_height : Z;
  rotation : float;
  xangle : Z; yangle : Z;
  shaded : bool; shade : list Z;
  cmapped : bool; cmap : cmap_type; inverted : bool;
  max_layers : Z; layers : Z;
  colourspace : ColourSpaces;
  ctw : list (list float);
  flip : Z;
  maintain_aspect : bool; allow_upscaling : bool; embed_icc : bool;
  output_format : CompressionType;
  contrast : float; gamma : float;
  equalization : bool
}.

Definition f0 : float := FZero false.
Definition f1 : float := FFin false (2 ^ 23) (-23).

Definition new_View : View :=
  {| view_left := f0; view_top := f0; view_width := f1; view_height := f1;
     resolution := 0; max_resolutions := 0; width := 0; height := 0;
     res_width := 0; res_height := 0; min_size := 1; max_size := 0;
     requested_width := 0; requested_height := 0; rotation := f0;
     xangle := 0; yangle := 90; shaded := false; shade := [0; 0; 0];
     cmapped := false; cmap := HOT; inverted := false;
     max_layers := 0; layers := 0; colourspace := NONE; ctw := []; flip := 0;
     maintain_aspect := true; allow_upscaling := true; embed_icc := true;
     output_format := JPEG; contrast := f1; gamma := f1; equalization := false |}.

(** ** Accessors (View.h) *)

Definition setMaxSize (m : Z) (v : View) : View := v <| max_size := m |>.
Definition getMaxSize (v : View) : Z := max_size v.
Definition setAllowUpscaling (b : bool) (v : View) : View := v <| allow_upscaling := b |>.
Definition allowUpscaling (v : View) : bool := allow_upscaling v.
Definition setEmbedICC (b : bool) (v : View) : View := v <| embed_icc := b |>.

Definition embedICC (v : View) : bool :=
  if cmapped v || shaded v || negb (length (ctw v) =? 0)%nat
     || bool_decide (colourspace v = GREYSCALE)
  then false else embed_icc v.

Definition setMaxResolutions (r : Z) (v : View) : View :=
  v <| max_resolutions := r |> <| resolution := i32 (u32 (r - 1)) |>.

Definition setRequestWidth (w : Z) (v : View) : View := v <| requested_width := u32 w |>.
Definition setRequestHeight (h : Z) (v : View) : View := v <| requested_height := u32 h |>.
Definition setImageSize (w h : Z) (v : View) : View := v <| width := w |> <| height := h |>.
Definition setMaxLayers (l : Z) (v : View) : View := v <| max_layers := l |>.
Definition setLayers (l : Z) (v : View) : View := v <| layers := l |>.
Definition getImageWidth (v : View) : Z := width v.
Definition getImageHeight (v : View) : Z := height v.
Definition setRotation (r : float) (v : View) : View := v <| rotation := r |>.
Definition getRotation (v : View) : float := rotation v.

Definition floatProcessing (v : View) : bool :=
  fne (contrast v) f1 || fne (gamma v) f1 || cmapped v || shaded v || inverted v
  || negb (length (ctw v) =? 0)%nat.

Definition requireHistogram (v : View) : bool :=
  equalization v || bool_decide (colourspace v = BINARY) || feq (contrast v) (fneg f1).

(** ** Resolution (View.cc) *)

(** The loop that looks for the closest resolution above the requested size. *)
Fixpoint calculate_loop (fuel : nat) (d rs j : Z) : res Z :=
  match fuel with
  | O => Err OutOfFuel
  | S fuel =>
      d ← half d;
      if d <? rs then Ok j else calculate_loop fuel d rs (i32 (j - 1))
  end.

Definition calculateResolution (dimension requested_size : Z) (v : View) : res View :=
  let resolution0 := 0 in
  let j := i32 (u32 (max_resolutions v - 1)) in
  let requested_size := if requested_size <? min_size v then min_size v else requested_size in
  let rs := if requested_size <? min_size v then min_size v else requested_size in
  j ← calculate_loop 33 dimension rs j;
  let j := if j <? 0 then 0 else j in
  let j := if i32 (u32 (max_resolutions v - 1)) <? j then i32 (u32 (max_resolutions v - 1)) else j in
  Ok (v <| resolution := (if resolution0 <? j then j else resolution0) |>).

(** [static_cast<unsigned int>( round( n ) )] of an integer *)
Definition round_int (n : Z) : res Z := to_u32 (fround b64 (of_Z b64 n)).

Definition getScale (v : View) : res float :=
  rw ← (if (requested_width v =? 0) && (0 <? requested_height v) then
          q ← udiv (u32 (res_width v * requested_height v)) (res_height v); round_int q
        else Ok (requested_width v));
  rh ← (if (requested_height v =? 0) && (0 <? requested_width v) then
          q ← udiv (u32 (res_height v * requested_width v)) (res_width v); round_int q
        else Ok (requested_height v));
  let scale := fdiv b32 (of_Z b32 rw) (of_Z b32 (width v)) in
  let sh := fdiv b32 (of_Z b32 rh) (of_Z b32 (res_height v)) in
  let scale := if flt sh scale then sh else scale in
  Ok (if fle scale f0 || fgt scale f1 then f1 else scale).

(** The loop that goes down to a resolution within the size limit.  The
    divisor [i] of the source stays 1. *)
Fixpoint limit_loop (fuel : nat) (dimension : Z) (v : View) : res View :=
  if (0 <? resolution v) && (u32 (max_size v) <? u32 dimension) then
    match fuel with
    | O => Err OutOfFuel
    | S fuel =>
        w ← half (width v);
        h ← half (height v);
        limit_loop fuel (Z.quot dimension 2)
          (v <| res_width := w |> <| res_height := h |> <| resolution := resolution v - 1 |>)
    end
  else Ok v.

Definition limit_size (v : View) : res View :=
  scale ← getScale v;
  let vw := fmul b32 (of_Z b32 (res_width v)) (view_width v) in
  let vh := fmul b32 (of_Z b32 (res_height v)) (view_height v) in
  let m := of_Z b32 (u32 (max_size v)) in
  let mi := of_Z b32 (max_size v) in
  if (0 <? max_size v) && (fgt (fmul b32 vw scale) m || fgt (fmul b32 vh scale) m) then
    dimension ← (if fgt (fdiv b32 vw mi) (fdiv b32 vh mi) then to_i32 (fmul b32 vw scale)
                 else to_i32 (fmul b32 vh scale));
    limit_loop (Z.to_nat (resolution v)) dimension v
  else Ok v.

Definition getResolution (v : View) : res (Z * View) :=
  v ← (if requested_width v =? 0 then Ok v
       else r ← to_u32 (ffloor b32 (fdiv b32 (of_Z b32 (requested_width v)) (view_width v)));
            calculateResolution (width v) r v);
  v ← (if requested_height v =? 0 then Ok v
       else r ← to_u32 (ffloor b32 (fdiv b32 (of_Z b32 (requested_height v)) (view_height v)));
            calculateResolution (height v) r v);
  '(rw, rh) ← foldM (fun _ '(w, h) => w ← half w; h ← half h; Ok (w, h))
                (range 1 (u32 (max_resolutions v - resolution v))) (width v, height v);
  v ← limit_size (v <| res_width := rw |> <| res_height := rh |>);
  Ok (u32 (resolution v), v).

(** ** View port *)

Definition clamp01 (x : float) : float :=
  if fgt x f1 then f1 else if flt x f0 then f0 else x.

Definition setViewLeft (x : float) (v : View) : View := v <| view_left := clamp01 x |>.
Definition setViewTop (y : float) (v : View) : View := v <| view_top := clamp01 y |>.

Definition setViewWidth (w : float) (v : View) : View :=
  let w := if fgt (fadd b32 (view_left v) w) f1
           then fcvt b32 (fsub b64 (fcvt b64 f1) (view_left v)) else w in
  v <| view_width := clamp01 w |>.

Definition setViewHeight (h : float) (v : View) : View := v <| view_height := clamp01 h |>.

Definition viewPortSet (v : View) : bool :=
  flt (view_width v) f1 || flt (view_height v) f1 || fgt (view_left v) f0 || fgt (view_top v) f0.

(** [1 << n] of an [int] *)
Definition shl1 (n : Z) : res Z := if n <? 31 then Ok (2 ^ n) else undef "shift".

(** [1 << (max_resolutions-resolution-1)] *)
Definition res_scale (v : View) : res Z := shl1 (u32 (max_resolutions v - resolution v - 1)).

(** [round( dim * pos / (1 << n) )] *)
Definition view_offset (dim : Z) (pos : float) (v : View) : res Z :=
  s ← res_scale v;
  to_u32 (fround b32 (fdiv b32 (fmul b32 (of_Z b32 dim) pos) (of_Z b32 s))).

Definition getViewLeft (v : View) : res Z := view_offset (width v) (view_left v) v.
Definition getViewTop (v : View) : res Z := view_offset (height v) (view_top v) v.

(** The body of [getViewWidth] and [getViewHeight]. *)
Definition view_extent (dim : Z) (pos size : float) (v : View) : res Z :=
  s ← res_scale v;
  rw ← to_u32 (fround b32 (fdiv b32 (of_Z b32 dim) (of_Z b32 s)));
  w ← to_u32 (fround b32 (fmul b32 size (of_Z b32 rw)));
  left ← to_u32 (fround b32 (fmul b32 pos (of_Z b32 rw)));
  let w := if rw <? u32 (w + left) then u32 (rw - left) else w in
  Ok (if w <? min_size v then min_size v else w).

Definition getViewWidth (v : View) : res Z := view_extent (width v) (view_left v) (view_width v) v.
Definition getViewHeight (v : View) : res Z := view_extent (height v) (view_top v) (view_height v) v.

Definition getRequestWidth (v : View) : res Z :=
  w ← (if requested_width v =? 0 then
         if negb (requested_height v =? 0) then
           vw ← getViewWidth v;
           vh ← getViewHeight v;
           to_u32 (fround b32 (fdiv b32 (of_Z b32 (u32 (vw * requested_height v))) (of_Z b32 vh)))
         else Ok (width v)
       else Ok (requested_width v));
  Ok (if (0 <? max_size v) && (u32 (max_size v) <? w) then max_size v else w).

Definition getRequestHeight (v : View) : res Z :=
  h ← (if requested_height v =? 0 then
         if negb (requested_width v =? 0) then
           vh ← getViewHeight v;
           vw ← getViewWidth v;
           to_u32 (fround b32 (fdiv b32 (of_Z b32 (u32 (vh * requested_width v))) (of_Z b32 vw)))
         else Ok (height v)
       else Ok (requested_height v));
  Ok (if (0 <? max_size v) && (u32 (max_size v) <? h) then max_size v else h).

Definition getLayers (v : View) : Z :=
  if 0 <? max_layers v then
    if (0 <? layers v) && (layers v <? max_layers v) then layers v else max_layers v
  else if (max_layers v <? 0) && (layers v =? 0) then -1
  else layers v.

(** ** Lemmas *)

Lemma half_range d : is_u32 d -> is_u32 (d / 2).
Proof.
  unfold is_u32. intros H. split; [apply Z.div_pos; lia|]. apply Z.div_lt_upper_bound; lia.
Qed.

Lemma div_pow_succ d k : 0 <= k -> d / 2 / 2 ^ k = d / 2 ^ (k + 1).
Proof. intros H. rewrite Z.div_div by (try apply Z.pow_nonzero; lia). f_equal. rewrite Z.pow_add_r by lia. lia. Qed.

(** The loop stops at the last halving that is not below the requested size. *)
Lemma calculate_loop_spec fuel d rs j :
  0 < rs -> is_u32 d -> d < 2 ^ Z.of_nat fuel -> (0 < fuel)%nat ->
  - 2 ^ 31 + Z.of_nat fuel <= j < 2 ^ 31 ->
  exists k, 0 <= k <= Z.of_nat fuel /\ calculate_loop fuel d rs j = Ok (j - k)
    /\ (0 < k -> rs <= d / 2 ^ k) /\ d / 2 ^ (k + 1) < rs.
Proof.
  revert d j. induction fuel as [|fuel IH]; intros d j Hrs Hd Hf H0 Hj; [lia|].
  cbn [calculate_loop]. rewrite half_spec, bind_ret by exact Hd.
  destruct (Z.ltb_spec (d / 2) rs) as [Hlt|Hge].
  - exists 0. rewrite Z.sub_0_r. split_and!; [lia|lia|reflexivity|lia|exact Hlt].
  - assert (Hd2 : d / 2 < 2 ^ Z.of_nat fuel).
    { apply Z.div_lt_upper_bound; [lia|]. rewrite Nat2Z.inj_succ, Z.pow_succ_r in Hf by lia. lia. }
    assert (0 < fuel)%nat by (destruct fuel; [cbn in Hd2; lia|lia]).
    rewrite i32_small by lia.
    destruct (IH (d / 2) (j - 1) Hrs (half_range d Hd) Hd2) as (k & Hk & E & H1 & H2); [lia|lia|].
    exists (k + 1). rewrite E. rewrite div_pow_succ in H2 by lia. split_and!; [lia|lia|f_equal; lia| |exact H2].
    intros _. destruct (Z.eq_dec k 0) as [->|]; [exact Hge|].
    rewrite <- div_pow_succ by lia. apply H1. lia.
Qed.

Definition optimal_resolution (max_res dim rs r : Z) : Prop :=
  0 <= r < max_res /\ (r < max_res - 1 -> rs <= dim / 2 ^ (max_res - 1 - r))
  /\ (forall k, 0 <= k < r -> dim / 2 ^ (max_res - 1 - k) < rs).

Lemma div_pow_antitone d a b : 0 <= d -> 0 <= a <= b -> d / 2 ^ b <= d / 2 ^ a.
Proof.
  intros Hd Hab. replace b with (a + (b - a)) by lia. rewrite Z.pow_add_r by lia.
  pose proof (Z.pow_pos_nonneg 2 a ltac:(lia) ltac:(lia)).
  pose proof (Z.pow_pos_nonneg 2 (b - a) ltac:(lia) ltac:(lia)).
  apply Z.div_le_compat_l; nia.
Qed.

Lemma calculateResolution_spec v dim req :
  0 < max_resolutions v < 2 ^ 31 -> 0 < min_size v -> is_u32 dim -> 0 <= req ->
  exists r, calculateResolution dim req v = Ok (v <| resolution := r |>)
    /\ optimal_resolution (max_resolutions v) dim (Z.max req (min_size v)) r.
Proof.
  intros Hm Hmin Hdim Hreq. unfold calculateResolution.
  set (rs := Z.max req (min_size v)).
  assert (Ers : forall x, x = req \/ x = min_size v -> (if x <? min_size v then min_size v else x)
                          = Z.max x (min_size v)).
  { intros x _. destruct (Z.ltb_spec x (min_size v)); lia. }
  rewrite !Ers by (rewrite ?Ers; lia). replace (Z.max (Z.max req _) _) with rs by lia.
  rewrite !(u32_small (max_resolutions v - 1)), !(i32_small (max_resolutions v - 1)) by lia.
  destruct (calculate_loop_spec 33 dim rs (max_resolutions v - 1)) as (k & Hk & E & H1 & H2);
    [lia|exact Hdim|unfold is_u32 in Hdim; cbn; lia|lia|cbn; lia|].
  rewrite E, bind_ret. clear E.
  set (m := max_resolutions v) in *. unfold is_u32 in Hdim.
  exists (Z.max 0 (m - 1 - k)). split.
  - match goal with |- context [constant ?x] => assert (Ex : x = Z.max 0 (m - 1 - k)) end.
    { destruct (Z.ltb_spec (m - 1 - k) 0).
      - destruct (Z.ltb_spec (m - 1) 0); [lia|]. destruct (Z.ltb_spec 0 0); lia.
      - destruct (Z.ltb_spec (m - 1) (m - 1 - k)); [lia|]. destruct (Z.ltb_spec 0 (m - 1 - k)); lia. }
    rewrite Ex. reflexivity.
  - split; [lia|]. split.
    + intros Hr. destruct (Z.le_gt_cases 0 (m - 1 - k)).
      * rewrite Z.max_r by lia. replace (m - 1 - (m - 1 - k)) with k by lia. apply H1. lia.
      * rewrite Z.max_l by lia. rewrite Z.max_l in Hr by lia.
        etransitivity; [apply H1; lia|]. apply div_pow_antitone; lia.
    + intros i Hi. eapply Z.le_lt_trans; [|exact H2]. apply div_pow_antitone; lia.
Qed.

(** It changes the resolution only, and does not look at the old one. *)
Lemma calculateResolution_update v d r v' :
  calculateResolution d r v = Ok v' -> exists k, v' = v <| resolution := k |>.
Proof. unfold calculateResolution. intros H. inv_res. eexists. reflexivity. Qed.

Lemma calculateResolution_reset v d r k :
  calculateResolution d r (v <| resolution := k |>) = calculateResolution d r v.
Proof. destruct v. reflexivity. Qed.

(** *** Float facts *)

Definition valid (x : float) : Prop :=
  match x with FNaN => False | FFin _ m _ => 0 < m | _ => True end.

Lemma f1_within : within f1 1 1.
Proof. split; [cbn; lia|vm_compute; split; congruence]. Qed.

Lemma clamp01_within x : valid x -> within (clamp01 x) 0 1.
Proof.
  intros V. destruct x as [s|s| |s m e]; try contradiction V.
  - destruct s; (split; [exact I|vm_compute; split; congruence]).
  - destruct s; [split; [exact I|]|split]; vm_compute; try split; congruence.
  - unfold clamp01, fgt, flt.
    cbn [fcompare f1 f0]. assert (Vx : okf (FFin s m e)) by exact V.
    generalize dependent (FFin s m e). intros x _ Vx. fold f1.
    change (num f0) with 0. change (den f0) with 1.
    pose proof (den_pos x). destruct f1_within as [_ [A B]]. pose proof (den_pos f1).
    destruct (Z.compare_spec (num f1 * den x) (num x * den f1));
      [| apply (within_weaken f1 1 1); [lia|lia|apply f1_within] |];
      (destruct (Z.compare_spec (num x * 1) (0 * den x)); [split; [exact Vx|nia]| |split; [exact Vx|nia]]);
      apply within_zero; lia.
Qed.

Lemma rne_nonneg n d : 0 < d -> 0 <= n -> 0 <= rne n d.
Proof. intros. apply rne_ge; lia. Qed.

Lemma round_pos_valid f s n d : 0 < prec f -> 0 <= n -> 0 < d -> valid (round_pos f s n d).
Proof.
  intros Hp Hn Hd. unfold round_pos. set (e := Z.max _ _).
  assert (0 <= rne (sc n (- e)) (sc d e)).
  { apply rne_nonneg; [apply sc_pos; lia|]. unfold sc.
    pose proof (Z.pow_pos_nonneg 2 (Z.max (- e) 0)). nia. }
  destruct (Z.eqb_spec (rne (sc n (- e)) (sc d e)) 0); [exact I|].
  destruct (rne (sc n (- e)) (sc d e) =? 2 ^ prec f).
  - destruct (emax f - prec f <? e + 1); cbn; [exact I|]. apply Z.pow_pos_nonneg; lia.
  - destruct (emax f - prec f <? e); cbn; [exact I|]. lia.
Qed.

Lemma fsub_valid f x y : 0 < prec f -> okf x -> okf y -> valid (fsub f x y).
Proof.
  intros Hp Hx Hy. unfold fsub.
  destruct x as [s|s| |s m e]; try contradiction Hx; destruct y as [t|t| |t m' e']; try contradiction Hy;
    cbn [fneg fadd valid]; try exact I; try assumption.
  unfold round_rat. destruct (_ =? 0); [exact I|]. apply round_pos_valid; [assumption|lia|].
  pose proof (den_pos (FFin s m e)). pose proof (den_pos (FFin (negb t) m' e')). nia.
Qed.

Lemma fcvt_valid f x : 0 < prec f -> valid x -> valid (fcvt f x).
Proof.
  intros Hp Hx. destruct x; cbn [fcvt]; try assumption.
  apply round_pos_valid; [assumption|lia|apply den_pos].
Qed.

(** Rounding a value in [0, k] and converting it. *)
Lemma round_to_u32_eq x k : within x 0 k -> 0 <= k < 2 ^ 24 ->
  to_u32 (fround b32 x) = Ok (roundZ x) /\ 0 <= roundZ x <= k.
Proof.
  intros Hx Hk. pose proof (roundZ_within x 0 k ltac:(lia) Hx) as Hz.
  split; [|exact Hz]. apply to_int_within; [|lia|lia].
  apply integral_within; [apply b32_ok|apply Hx|reflexivity|cbn; lia|reflexivity].
Qed.

Lemma round_to_u32 x k : within x 0 k -> 0 <= k < 2 ^ 24 ->
  exists z, to_u32 (fround b32 x) = Ok z /\ 0 <= z <= k.
Proof. intros Hx Hk. exists (roundZ x). apply round_to_u32_eq; assumption. Qed.

Lemma fround_of_Z f z : fmt_ok f -> 0 <= z < 2 ^ prec f -> z < 2 ^ 32 ->
  to_u32 (fround f (of_Z f z)) = Ok z.
Proof.
  intros F Hz H32. pose proof (of_Z_exact f z F Hz) as W.
  pose proof (roundZ_within _ z z ltac:(lia) W).
  apply to_int_within; [|lia|lia].
  apply integral_within; [exact F|apply W|lia|exact Hz|reflexivity].
Qed.

Lemma ffloor_of_Z f z : fmt_ok f -> 0 <= z < 2 ^ prec f -> z < 2 ^ 32 ->
  forall x, within x z z -> to_u32 (ffloor f x) = Ok z.
Proof.
  intros F Hz H32 x W. pose proof (floorZ_within _ z z W).
  apply to_int_within; [|lia|lia].
  apply integral_within; [exact F|apply W|lia|exact Hz|reflexivity].
Qed.

(** The powers of two that [1 << n] takes are floats. *)
Lemma pow2_float n :
  0 <= n < 31 -> exists m e, of_Z b32 (2 ^ n) = FFin false m e /\ within (FFin false m e) (2 ^ n) (2 ^ n).
Proof.
  intros Hn.
  assert (HA : forallb (fun n => match of_Z b32 (2 ^ n) with
                                 | FFin false m e => (0 <? m) && (sc m e =? 2 ^ n * sc 1 (- e))
                                 | _ => false end) (range 0 31) = true) by (vm_compute; reflexivity).
  rewrite forallb_forall in HA.
  specialize (HA n ltac:(apply list_elem_of_In, elem_of_range; lia)).
  destruct (of_Z b32 (2 ^ n)) as [| | |[] m e]; try discriminate HA.
  apply andb_prop in HA as [HA1%Z.ltb_lt HA2%Z.eqb_eq]. exists m, e. split; [reflexivity|].
  split; [exact HA1|]. cbn [num den]. lia.
Qed.

(** A number divided by a power of two, at most the quotient rounded up. *)
Lemma fdiv_pow2_within x a n :
  within x 0 a -> 0 <= a < 2 ^ 24 -> 0 <= n < 31 ->
  within (fdiv b32 x (of_Z b32 (2 ^ n))) 0 ((a + 2 ^ n - 1) / 2 ^ n).
Proof.
  intros Hx Ha Hn.
  assert (P : 0 < 2 ^ n) by (apply Z.pow_pos_nonneg; lia).
  destruct (pow2_float n Hn) as (m & e & -> & [My Wy]). set (y := FFin false m e) in *.
  set (k := (a + 2 ^ n - 1) / 2 ^ n).
  assert (Hk : a <= k * 2 ^ n /\ 0 <= k < 2 ^ 24).
  { subst k. pose proof (Z.div_mod (a + 2 ^ n - 1) (2 ^ n) ltac:(lia)).
    pose proof (Z.mod_pos_bound (a + 2 ^ n - 1) (2 ^ n) ltac:(lia)). split; [nia|].
    split; [apply Z.div_pos; lia|]. apply Z.div_lt_upper_bound; nia. }
  destruct x as [s|s| |s m' e']; try contradiction (proj1 Hx); [apply within_zero; lia|].
  rewrite (within_nonneg_sign s m' e' 0 a) in * by (lia || assumption).
  destruct Hx as [Mx Wx]. cbn [okf] in Mx, My. set (x := FFin false m' e') in *.
  unfold x at 1, y at 1. cbn [fdiv xorb]. fold x y. pose proof (den_pos x). pose proof (den_pos y).
  assert (0 < num x) by (apply sc_pos; assumption). assert (0 < num y) by (apply sc_pos; assumption).
  rewrite !Z.abs_eq by nia. apply (round_pos_le b32 _ _ k b32_ok); [nia|nia|cbn; lia|].
  assert (Hny : num y = 2 ^ n * den y) by lia. rewrite Hny.
  assert (num x <= k * 2 ^ n * den x) by nia. nia.
Qed.

(** The view port lies in the unit square. *)
Record port_ok (v : View) : Prop := {
  port_left : within (view_left v) 0 1;
  port_top : within (view_top v) 0 1;
  port_width : within (view_width v) 0 1;
  port_height : within (view_height v) 0 1
}.

(** Rounded up quotient: the size of a resolution level at most. *)
Definition level_ceil (dim n : Z) : Z := (dim + 2 ^ n - 1) / 2 ^ n.

Lemma level_ceil_range dim n : 0 <= dim < 2 ^ 24 -> 0 <= n -> 0 <= level_ceil dim n < 2 ^ 24.
Proof.
  intros Hd Hn. unfold level_ceil. pose proof (Z.pow_pos_nonneg 2 n ltac:(lia) Hn).
  split; [apply Z.div_pos; lia|]. apply Z.div_lt_upper_bound; nia.
Qed.

Lemma view_offset_spec dim pos v n :
  within pos 0 1 -> 0 <= dim < 2 ^ 24 -> res_scale v = Ok (2 ^ n) -> 0 <= n < 31 ->
  exists z, view_offset dim pos v = Ok z /\ 0 <= z <= level_ceil dim n.
Proof.
  intros Hp Hd Hs Hn. unfold view_offset. rewrite Hs, bind_ret.
  apply round_to_u32; [|apply level_ceil_range; lia].
  apply fdiv_pow2_within; [|lia|lia].
  assert (W : within (of_Z b32 dim) 0 dim) by (apply of_Z_within; [apply b32_ok|cbn; lia|lia]).
  pose proof (fmul_within b32 (of_Z b32 dim) pos dim 1 b32_ok W Hp ltac:(lia) ltac:(lia)) as M.
  rewrite Z.mul_1_r in M. apply M. cbn. lia.
Qed.

Lemma view_extent_spec dim pos size v n :
  within pos 0 1 -> within size 0 1 -> 0 <= dim < 2 ^ 24 -> res_scale v = Ok (2 ^ n) -> 0 <= n < 31 ->
  exists z, view_extent dim pos size v = Ok z /\ min_size v <= z <= Z.max (min_size v) (level_ceil dim n).
Proof.
  intros Hp Hs Hd Hn Hr. unfold view_extent. rewrite Hn, bind_ret.
  pose proof (level_ceil_range dim n Hd ltac:(lia)) as Hc.
  destruct (round_to_u32 (fdiv b32 (of_Z b32 dim) (of_Z b32 (2 ^ n))) (level_ceil dim n)) as (rw & -> & Hrw);
    [|lia|].
  { apply fdiv_pow2_within; [|lia|lia]. apply of_Z_within; [apply b32_ok|cbn; lia|lia]. }
  rewrite bind_ret.
  assert (W : within (of_Z b32 rw) 0 rw) by (apply of_Z_within; [apply b32_ok|cbn; lia|lia]).
  assert (M : forall x, within x 0 1 -> within (fmul b32 x (of_Z b32 rw)) 0 rw).
  { intros x Hx. pose proof (fmul_within b32 x (of_Z b32 rw) 1 rw b32_ok Hx W ltac:(lia) ltac:(lia)) as M.
    rewrite Z.mul_1_l in M. apply M. cbn. lia. }
  destruct (round_to_u32 _ rw (M size Hs) ltac:(lia)) as (w & -> & Hw). rewrite bind_ret.
  destruct (round_to_u32 _ rw (M pos Hp) ltac:(lia)) as (l & -> & Hl). rewrite bind_ret.
  rewrite u32_small by lia. eexists. split; [reflexivity|].
  destruct (Z.ltb_spec rw (w + l)).
  - rewrite u32_small by lia. destruct (Z.ltb_spec (rw - l) (min_size v)); lia.
  - destruct (Z.ltb_spec w (min_size v)); lia.
Qed.

(** The width of a level, as [getViewWidth] rounds it, is at most half a pixel
    below the width of the image over the power of two. *)
Lemma level_near dim n :
  0 <= dim < 2 ^ 24 -> 1 <= n < 31 ->
  2 * dim < (2 * roundZ (fdiv b32 (of_Z b32 dim) (of_Z b32 (2 ^ n))) + 1) * 2 ^ n.
Proof.
  intros Hd Hn. assert (P : 0 < 2 ^ n) by (apply Z.pow_pos_nonneg; lia).
  pose proof (of_Z_exact b32 dim b32_ok ltac:(cbn; lia)) as Wd.
  pose proof (fdiv_pow2_within _ dim n (of_Z_within b32 dim 0 dim b32_ok ltac:(cbn; lia) ltac:(lia)) Hd ltac:(lia)) as W.
  pose proof (roundZ_within _ 0 _ ltac:(lia) W) as HR. pose proof (within_num _ 0 _ ltac:(lia) W) as N.
  destruct (Z.le_gt_cases ((2 * roundZ (fdiv b32 (of_Z b32 dim) (of_Z b32 (2 ^ n))) + 1) * 2 ^ n) (2 * dim)) as [H|H];
    [exfalso|exact H].
  destruct (pow2_float n ltac:(lia)) as (m & e & Ey & [My Wy]). rewrite Ey in *. set (y := FFin false m e) in *.
  assert (Hd0 : 0 < dim) by nia. destruct Wd as [Od Wd]. pose proof (den_pos (of_Z b32 dim)) as Dd.
  destruct (of_Z b32 dim) as [s|s| |s m' e']; try contradiction Od; [cbn in Wd; lia|].
  assert (s = false) as -> by (eapply (within_nonneg_sign s m' e' 0 dim); [lia|split; [exact Od|nia]]).
  set (x := FFin false m' e') in *. pose proof (den_pos y).
  assert (Nx : num x = dim * den x) by lia. assert (Ny : num y = 2 ^ n * den y) by lia.
  assert (Eq : fdiv b32 x y = round_pos b32 false (num x * den y) (num y * den x)).
  { unfold x at 1, y at 1. cbn [fdiv xorb]. fold x y. rewrite !Z.abs_eq by nia. reflexivity. }
  set (k := roundZ (fdiv b32 x y)) in *.
  assert (H2 : dim < 2 ^ n * 2 ^ 23).
  { assert (2 ^ 1 <= 2 ^ n) by (apply Z.pow_le_mono_r; lia). lia. }
  assert (Hh : (2 * k + 1) * den (fdiv b32 x y) <= 2 * num (fdiv b32 x y)).
  { rewrite Eq. assert (0 < den x * den y) by nia. rewrite Nx, Ny.
    apply round_pos_half; [apply b32_ok|nia|nia| |].
    - change (prec b32 - 1) with 23. replace (2 ^ n * den y * den x * 2 ^ 23) with (2 ^ n * 2 ^ 23 * (den x * den y)) by ring.
      replace (dim * den x * den y) with (dim * (den x * den y)) by ring. apply Z.mul_lt_mono_pos_r; assumption.
    - replace ((2 * k + 1) * (2 ^ n * den y * den x)) with ((2 * k + 1) * 2 ^ n * (den x * den y)) by ring.
      replace (2 * (dim * den x * den y)) with (2 * dim * (den x * den y)) by ring.
      apply Z.mul_le_mono_nonneg_r; lia. }
  pose proof (roundZ_half (fdiv b32 x y) (k + 1) N) as HR1. fold k in HR1. replace (2 * (k + 1) - 1) with (2 * k + 1) in HR1 by ring.
  specialize (HR1 Hh). lia.
Qed.

(** The left edge of the port, as [getViewWidth] computes it from the rounded
    width of the level: a product with a number of the unit interval, rounded. *)
Section Edge.
Context (pos : float) (Hp : within pos 0 1).

#[local] Abbreviation edge w := (roundZ (fmul b32 pos (of_Z b32 w))).

Lemma pos_num : 0 <= num pos <= den pos.
Proof. destruct Hp as [_ H]. lia. Qed.

Lemma edge_within w : 0 <= w < 2 ^ 24 -> within (fmul b32 pos (of_Z b32 w)) 0 w.
Proof.
  intros Hw. rewrite <- (Z.mul_1_l w) at 2. apply fmul_within; [apply b32_ok|exact Hp| |lia|lia|cbn; lia].
  apply of_Z_within; [apply b32_ok|cbn; lia|lia].
Qed.

(** It is not below an integer, or below a half, that the product is not below. *)
Lemma edge_floor w k : 0 <= w < 2 ^ 24 -> 0 <= k -> k * den pos <= num pos * w -> k <= edge w.
Proof.
  intros Hw Hk H. pose proof pos_num as HN. pose proof (den_pos pos) as D.
  pose proof (edge_within w Hw) as W. pose proof (within_num _ 0 _ ltac:(lia) W) as N.
  destruct (Z.eq_dec k 0) as [->|Hk0]; [exact (proj1 (roundZ_within _ 0 w ltac:(lia) W))|].
  destruct (of_Z_exact b32 w b32_ok ltac:(cbn; lia)) as [Ow Ww]. pose proof (den_pos (of_Z b32 w)) as Dw.
  assert (0 < num pos /\ 0 < w) as [Np Hw0] by nia. apply roundZ_half; [exact N|].
  rewrite fmul_pos in * by (apply Hp || assumption || nia).
  assert (Nw : num (of_Z b32 w) = w * den (of_Z b32 w)) by lia. rewrite Nw in *.
  pose proof (round_pos_ge b32 (num pos * (w * den (of_Z b32 w))) (den pos * den (of_Z b32 w)) k b32_ok) as G.
  pose proof (den_pos (round_pos b32 false (num pos * (w * den (of_Z b32 w))) (den pos * den (of_Z b32 w)))).
  assert (k * (den pos * den (of_Z b32 w)) <= num pos * (w * den (of_Z b32 w))) by nia.
  specialize (G ltac:(nia) ltac:(nia)). assert (num pos * w <= den pos * w) by nia.
  assert (num pos * w * den (of_Z b32 w) < den pos * 2 ^ 24 * den (of_Z b32 w)) by (apply Z.mul_lt_mono_pos_r; nia).
  specialize (G ltac:(change (2 ^ prec b32) with (2 ^ 24); lia) ltac:(assumption)). lia.
Qed.

Lemma edge_half w : 0 <= w <= 2 ^ 23 -> 2 * (num pos * w) < (2 * edge w + 1) * den pos.
Proof.
  intros Hw. pose proof pos_num as HN. pose proof (den_pos pos) as D.
  pose proof (edge_within w ltac:(lia)) as W. pose proof (within_num _ 0 _ ltac:(lia) W) as N.
  pose proof (roundZ_within _ 0 w ltac:(lia) W) as HR.
  destruct (Z.le_gt_cases ((2 * edge w + 1) * den pos) (2 * (num pos * w))) as [H|H]; [exfalso|exact H].
  assert (0 < num pos /\ 0 < w) as [Np Hw0] by nia.
  destruct (of_Z_exact b32 w b32_ok ltac:(cbn; lia)) as [Ow Ww]. pose proof (den_pos (of_Z b32 w)) as Dw.
  assert (Nw : num (of_Z b32 w) = w * den (of_Z b32 w)) by lia. set (k := edge w) in *.
  destruct (Z.le_gt_cases (den pos * 2 ^ 23) (num pos * w)) as [Hbig|Hsmall].
  - pose proof (edge_floor w (2 ^ 23) ltac:(lia) ltac:(lia) ltac:(lia)) as G. fold k in G. nia.
  - assert (Hh : (2 * k + 1) * den (fmul b32 pos (of_Z b32 w)) <= 2 * num (fmul b32 pos (of_Z b32 w))).
    { apply fmul_half; [apply b32_ok|apply Hp|exact Ow|lia|nia| |]; rewrite Nw.
      - change (prec b32 - 1) with 23.
        replace (num pos * (w * den (of_Z b32 w))) with (num pos * w * den (of_Z b32 w)) by ring.
        replace (den pos * den (of_Z b32 w) * 2 ^ 23) with (den pos * 2 ^ 23 * den (of_Z b32 w)) by ring.
        apply Z.mul_lt_mono_pos_r; assumption.
      - replace ((2 * k + 1) * (den pos * den (of_Z b32 w))) with ((2 * k + 1) * den pos * den (of_Z b32 w)) by ring.
        replace (2 * (num pos * (w * den (of_Z b32 w)))) with (2 * (num pos * w) * den (of_Z b32 w)) by ring.
        apply Z.mul_le_mono_nonneg_r; lia. }
    pose proof (roundZ_half _ (k + 1) N) as HR1. replace (2 * (k + 1) - 1) with (2 * k + 1) in HR1 by ring.
    specialize (HR1 Hh). fold k in HR1. lia.
Qed.

(** The offset that [getViewLeft] returns, from the width of the image, is past
    it by one pixel at most. *)
Lemma offset_edge dim n :
  0 <= dim < 2 ^ 24 -> 0 <= n < 31 ->
  let rw := roundZ (fdiv b32 (of_Z b32 dim) (of_Z b32 (2 ^ n))) in
  roundZ (fdiv b32 (fmul b32 (of_Z b32 dim) pos) (of_Z b32 (2 ^ n))) <= edge rw + 1.
Proof.
  intros Hd Hn rw. pose proof pos_num as HN. pose proof (den_pos pos) as D.
  assert (P : 0 < 2 ^ n) by (apply Z.pow_pos_nonneg; lia).
  pose proof (fdiv_pow2_within _ dim n (of_Z_within b32 dim 0 dim b32_ok ltac:(cbn; lia) ltac:(lia)) Hd Hn) as W.
  pose proof (roundZ_within _ 0 _ ltac:(lia) W) as HR. fold rw in HR. fold (level_ceil dim n) in HR.
  pose proof (level_ceil_range dim n Hd ltac:(lia)) as HC.
  pose proof (roundZ_within _ 0 rw ltac:(lia) (edge_within rw ltac:(lia))) as HE.
  assert (A : dim * num pos <= (edge rw + 1) * 2 ^ n * den pos).
  { destruct (Z.eq_dec n 0) as [->|Hn0].
    - assert (rw = dim) as Erw.
      { pose proof (fdiv_between b32 (of_Z b32 dim) (of_Z b32 1) dim dim 1 b32_ok) as B. rewrite !Z.mul_1_r in B.
        specialize (B (of_Z_exact b32 dim b32_ok ltac:(cbn; lia)) (of_Z_exact b32 1 b32_ok ltac:(cbn; lia))
                      ltac:(lia) ltac:(lia) ltac:(cbn; lia)).
        pose proof (roundZ_within _ dim dim ltac:(lia) B). unfold rw. change (2 ^ 0) with 1. lia. }
      set (j := num pos * dim / den pos).
      pose proof (Z.div_mod (num pos * dim) (den pos) ltac:(lia)). pose proof (Z.mod_pos_bound (num pos * dim) (den pos) D).
      pose proof (Z.div_pos (num pos * dim) (den pos) ltac:(nia) D).
      pose proof (edge_floor dim j ltac:(lia) ltac:(assumption) ltac:(unfold j; nia)) as G.
      rewrite Erw. change (2 ^ 0) with 1. unfold j in G. nia.
    - pose proof (level_near dim n Hd ltac:(lia)) as L. fold rw in L.
      assert (level_ceil dim n <= 2 ^ 23).
      { assert (2 ^ 1 <= 2 ^ n) by (apply Z.pow_le_mono_r; lia). unfold level_ceil.
        assert ((dim + 2 ^ n - 1) / 2 ^ n < 2 ^ 23 + 1); [|lia]. apply Z.div_lt_upper_bound; lia. }
      pose proof (edge_half rw ltac:(lia)) as Hh. set (l := edge rw) in *.
      assert (2 * dim * num pos <= (2 * rw + 1) * 2 ^ n * num pos) by (apply Z.mul_le_mono_nonneg_r; lia).
      assert ((2 * (num pos * rw) + num pos) * 2 ^ n <= ((2 * l + 1) * den pos + den pos) * 2 ^ n)
        by (apply Z.mul_le_mono_nonneg_r; lia). lia. }
  set (k := Z.min dim ((edge rw + 1) * 2 ^ n)).
  pose proof (fmul_below b32 dim pos k b32_ok ltac:(cbn; lia) (proj1 Hp) (proj1 HN) ltac:(unfold k; cbn; nia) ltac:(unfold k; nia)) as M.
  pose proof (fdiv_pow2_within _ k n M ltac:(unfold k; nia) Hn) as M2.
  pose proof (roundZ_within _ 0 _ ltac:(lia) M2) as R2.
  assert ((k + 2 ^ n - 1) / 2 ^ n < edge rw + 1 + 1); [|lia].
  apply Z.div_lt_upper_bound; [exact P|]. unfold k. nia.
Qed.
End Edge.

(** Offset and extent together: a port that is not of the minimum size ends
    within the level, up to the pixel by which the two roundings differ. *)
Lemma view_span dim pos size v n l z :
  within pos 0 1 -> within size 0 1 -> 0 <= dim < 2 ^ 24 -> res_scale v = Ok (2 ^ n) -> 0 <= n < 31 ->
  view_offset dim pos v = Ok l -> view_extent dim pos size v = Ok z ->
  z = min_size v \/ l + z <= level_ceil dim n + 1.
Proof.
  intros Hp Hs Hd Hn Hr El Ez. pose proof (offset_edge pos Hp dim n Hd Hr) as HO. cbv zeta in HO.
  pose proof (level_ceil_range dim n Hd ltac:(lia)) as Hc.
  unfold view_offset in El. unfold view_extent in Ez. rewrite Hn, bind_ret in El, Ez.
  assert (W0 : within (of_Z b32 dim) 0 dim) by (apply of_Z_within; [apply b32_ok|cbn; lia|lia]).
  pose proof (fdiv_pow2_within _ dim n W0 Hd Hr) as W1. fold (level_ceil dim n) in W1.
  destruct (round_to_u32_eq _ _ W1 ltac:(lia)) as [E1 R1]. rewrite E1, bind_ret in Ez. set (rw := roundZ _) in *.
  assert (W2 : within (fmul b32 (of_Z b32 dim) pos) 0 dim).
  { rewrite <- (Z.mul_1_r dim) at 2. apply fmul_within; [apply b32_ok|exact W0|exact Hp|lia|lia|cbn; lia]. }
  destruct (round_to_u32_eq _ _ (fdiv_pow2_within _ dim n W2 Hd Hr) ltac:(fold (level_ceil dim n); lia)) as [E2 R2].
  rewrite E2 in El. injection El as <-.
  destruct (round_to_u32_eq _ rw (edge_within size Hs rw ltac:(lia)) ltac:(lia)) as [E3 R3]. rewrite E3, bind_ret in Ez.
  destruct (round_to_u32_eq _ rw (edge_within pos Hp rw ltac:(lia)) ltac:(lia)) as [E4 R4]. rewrite E4, bind_ret in Ez.
  set (w := roundZ (fmul b32 size _)) in *. set (left := roundZ (fmul b32 pos _)) in *.
  rewrite (u32_small (w + left)), (u32_small (rw - left)) in Ez by lia.
  injection Ez as <-. destruct (Z.ltb_spec rw (w + left)).
  - destruct (Z.ltb_spec (rw - left) (min_size v)); [left; reflexivity|right; lia].
  - destruct (Z.ltb_spec w (min_size v)); [left; reflexivity|right; lia].
Qed.

(** *** The loop over the resolutions *)

Lemma fold_half k w h :
  is_u32 w -> is_u32 h ->
  foldM (fun (_ : Z) '(w, h) => w ← half w; h ← half h; Ok (w, h)) (zseq 1 k) (w, h)
  = Ok (w / 2 ^ Z.of_nat k, h / 2 ^ Z.of_nat k).
Proof.
  generalize 1 as a. revert w h. induction k as [|k IH]; intros w h a Hw Hh.
  - cbn. rewrite !Z.div_1_r. reflexivity.
  - rewrite zseq_S. cbn [foldM]. rewrite !half_spec by assumption. rewrite !bind_ret.
    rewrite IH by (apply half_range; assumption). rewrite !div_pow_succ by lia.
    replace (Z.of_nat (S k)) with (Z.of_nat k + 1) by lia. reflexivity.
Qed.

Lemma getScale_ok v :
  0 < res_width v -> requested_height v = 0 -> 0 < requested_width v ->
  is_u32 (requested_width v) ->
  exists s, getScale v = Ok s.
Proof.
  intros Hrw Hh Hw Hu. unfold getScale, udiv, round_int. rewrite Hh.
  rewrite (proj2 (Z.eqb_neq (requested_width v) 0)) by lia. cbn [andb]. rewrite bind_ret.
  change (0 =? 0) with true. rewrite (proj2 (Z.ltb_lt 0 (requested_width v))) by lia. cbn [andb].
  rewrite (proj2 (Z.eqb_neq (res_width v) 0)), bind_ret by lia.
  pose proof (u32_range (res_height v * requested_width v)) as Hx.
  rewrite fround_of_Z; [eexists; reflexivity|apply b64_ok| |].
  all: assert (0 <= u32 (res_height v * requested_width v) / res_width v < 2 ^ 32)
    by (split; [apply Z.div_pos; lia|apply Z.div_lt_upper_bound; nia]); cbn; lia.
Qed.

(** ** Properties *)

(** C20. For a full view port, a requested width and no size limit, the
    resolution chosen is the optimal one: its width, the full width halved and
    rounded down once per level, is at least the requested width unless it is
    the full-size image, every smaller resolution is narrower than requested,
    and nothing overflows or divides by zero on the way. *)
Theorem getResolution_optimal (v : View) :
  0 < max_resolutions v < 2 ^ 31 -> 0 < min_size v <= requested_width v ->
  0 < requested_width v < 2 ^ 24 -> requested_height v = 0 -> view_width v = f1 -> max_size v = 0 ->
  0 < width v < 2 ^ 32 -> 0 < height v < 2 ^ 32 ->
  exists r v', getResolution v = Ok (r, v') /\ resolution v' = r
    /\ optimal_resolution (max_resolutions v) (width v) (requested_width v) r
    /\ res_width v' = width v / 2 ^ (max_resolutions v - 1 - r)
    /\ res_height v' = height v / 2 ^ (max_resolutions v - 1 - r).
Proof.
  intros Hm Hmin Hrw Hrh Hvw Hmax Hw Hh. unfold getResolution.
  rewrite (proj2 (Z.eqb_neq (requested_width v) 0)) by lia. rewrite Hvw.
  assert (Hfl : to_u32 (ffloor b32 (fdiv b32 (of_Z b32 (requested_width v)) f1)) = Ok (requested_width v)).
  { destruct (floor_div_exact b32 (requested_width v) 1 b32_ok) as [O E]; [cbn; lia|cbn; lia|].
    change (of_Z b32 1) with f1 in *. apply to_int_within; [|lia|lia].
    apply integral_within; [apply b32_ok|exact O|rewrite E; apply Z.div_1_r|cbn; lia|reflexivity]. }
  rewrite Hfl, bind_ret.
  destruct (calculateResolution_spec v (width v) (requested_width v)) as (r & Er & Hr);
    [lia|lia|unfold is_u32; lia|lia|].
  rewrite Er, !bind_ret. rewrite Z.max_l in Hr by lia. pose proof Hr as (Hr0 & Hr1 & _).
  cbn [requested_height]. change (requested_height (v <| resolution := r |>)) with (requested_height v).
  rewrite Hrh, Z.eqb_refl, bind_ret.
  change (max_resolutions (v <| resolution := r |>)) with (max_resolutions v).
  change (resolution (v <| resolution := r |>)) with r.
  change (width (v <| resolution := r |>)) with (width v).
  change (height (v <| resolution := r |>)) with (height v).
  rewrite u32_small by lia. unfold range.
  replace (Z.to_nat (max_resolutions v - r - 1)) with (Z.to_nat (max_resolutions v - 1 - r)) by lia.
  rewrite fold_half by (unfold is_u32; lia). rewrite Z2Nat.id, bind_ret by lia.
  set (n := max_resolutions v - 1 - r) in *. set (v1 := v <| resolution := r |> <| res_width := _ |> <| res_height := _ |>).
  destruct (getScale_ok v1) as (s & Es).
  - change (res_width v1) with (width v / 2 ^ n).
    destruct (Z.eq_dec n 0) as [->|]; [rewrite Z.div_1_r; lia|]. specialize (Hr1 ltac:(lia)). lia.
  - exact Hrh.
  - exact (proj1 Hrw).
  - unfold is_u32. change (requested_width v1) with (requested_width v). lia.
  - unfold limit_size. rewrite Es, bind_ret. change (max_size v1) with (max_size v).
    rewrite Hmax. change (0 <? 0) with false. cbn [andb]. rewrite bind_ret.
    change (resolution v1) with r. rewrite u32_small by lia.
    exists r, v1. split_and!; try reflexivity. exact Hr.
Qed.

Definition sample_view : View := setMaxResolutions 6 (setImageSize 5000 4001 new_View).

Lemma getResolution_optimal_witness :
  exists v', getResolution (setRequestWidth 600 sample_view) = Ok (2, v')
    /\ res_width v' = 625 /\ res_height v' = 500.
Proof.
  destruct (getResolution_optimal (setRequestWidth 600 sample_view)) as (r & v' & E & _ & _ & W & H);
    try (vm_compute; repeat split; congruence).
  assert (r = 2) as -> by (vm_compute in E; congruence).
  exists v'. split; [exact E|]. split; [exact W|exact H].
Defined.

(** The setters keep the view port in the unit square, unless given a NaN. *)
Lemma setters_port_ok v x y w h :
  port_ok v -> valid x -> valid y -> valid w -> valid h ->
  port_ok (setViewHeight h (setViewWidth w (setViewTop y (setViewLeft x v)))).
Proof.
  intros [_ _ _ _] Hx Hy Hw Hh. pose proof (clamp01_within x Hx) as Wx.
  constructor; cbn [view_left view_top view_width view_height]; try (apply clamp01_within; assumption).
  change (within (clamp01 (if fgt (fadd b32 (clamp01 x) w) f1
    then fcvt b32 (fsub b64 (fcvt b64 f1) (clamp01 x)) else w)) 0 1).
  apply clamp01_within. destruct (fgt _ f1); [|exact Hw].
  apply fcvt_valid; [reflexivity|]. apply fsub_valid; [reflexivity| |apply Wx]. vm_compute. reflexivity.
Qed.

(** C21. Whatever rectangle a request gives, as long as none of its numbers is
    a NaN ([nan_view_port]), the pixel view port is computed without overflow, for
    images up to 2^24 pixels wide and high.  It begins within the resolution
    level, its size rounded up; it is at least of the minimum size, and at most
    of the size of the level where that is larger.  Unless the port is of the
    minimum size it also ends within the level, rounded up, or one pixel past
    it: position and width are rounded separately, from the size of the image and
    from the size of the level.  A port of the minimum size may begin at the
    edge and lie outside (at x = 1.0). *)
Theorem view_port_in_level (v0 : View) (x y w h : float) (n : Z) :
  let v := setViewHeight h (setViewWidth w (setViewTop y (setViewLeft x v0))) in
  port_ok v0 -> valid x -> valid y -> valid w -> valid h ->
  0 <= width v0 < 2 ^ 24 -> 0 <= height v0 < 2 ^ 24 ->
  n = max_resolutions v0 - resolution v0 - 1 -> 0 <= n < 31 ->
  exists l t vw vh,
    getViewLeft v = Ok l /\ getViewTop v = Ok t /\ getViewWidth v = Ok vw /\ getViewHeight v = Ok vh
    /\ 0 <= l <= level_ceil (width v0) n /\ 0 <= t <= level_ceil (height v0) n
    /\ min_size v0 <= vw <= Z.max (min_size v0) (level_ceil (width v0) n)
    /\ min_size v0 <= vh <= Z.max (min_size v0) (level_ceil (height v0) n)
    /\ (vw = min_size v0 \/ l + vw <= level_ceil (width v0) n + 1)
    /\ (vh = min_size v0 \/ t + vh <= level_ceil (height v0) n + 1).
Proof.
  intros v Hp Hx Hy Hw Hh Hwd Hht -> Hn.
  pose proof (setters_port_ok v0 x y w h Hp Hx Hy Hw Hh) as P. fold v in P.
  assert (Hs : res_scale v = Ok (2 ^ (max_resolutions v0 - resolution v0 - 1))).
  { unfold res_scale, shl1. change (max_resolutions v) with (max_resolutions v0).
    change (resolution v) with (resolution v0). rewrite u32_small by lia.
    rewrite (proj2 (Z.ltb_lt _ _)) by lia. reflexivity. }
  destruct (view_offset_spec (width v) (view_left v) v _ (port_left v P) Hwd Hs Hn) as (l & El & Hl).
  destruct (view_offset_spec (height v) (view_top v) v _ (port_top v P) Hht Hs Hn) as (t & Et & Ht).
  destruct (view_extent_spec (width v) (view_left v) (view_width v) v _
              (port_left v P) (port_width v P) Hwd Hs Hn) as (vw & Ew & Hvw).
  destruct (view_extent_spec (height v) (view_top v) (view_height v) v _
              (port_top v P) (port_height v P) Hht Hs Hn) as (vh & Eh & Hvh).
  pose proof (view_span _ _ _ v _ l vw (port_left v P) (port_width v P) Hwd Hs Hn El Ew) as Sw.
  pose proof (view_span _ _ _ v _ t vh (port_top v P) (port_height v P) Hht Hs Hn Et Eh) as Sh.
  exists l, t, vw, vh. split_and!; assumption || apply Hl || apply Ht || apply Hvw || apply Hvh.
Qed.

Lemma view_port_in_level_witness :
  exists l vw, getViewLeft (setViewHeight (atof32 "2") (setViewWidth (atof32 "0.75")
      (setViewTop (atof32 "-1") (setViewLeft (atof32 "0.5") sample_view)))) = Ok l
    /\ getViewWidth (setViewHeight (atof32 "2") (setViewWidth (atof32 "0.75")
      (setViewTop (atof32 "-1") (setViewLeft (atof32 "0.5") sample_view)))) = Ok vw
    /\ 0 <= l <= 5000 /\ 1 <= vw <= 5000 /\ (vw = 1 \/ l + vw <= 5001).
Proof.
  assert (P : port_ok sample_view) by (constructor; (split; [vm_compute; auto|vm_compute; split; congruence])).
  destruct (view_port_in_level sample_view (atof32 "0.5") (atof32 "-1") (atof32 "0.75") (atof32 "2") 0 P)
    as (l & t & vw & vh & El & _ & Ew & _ & Hl & _ & Hw & _ & Hs & _);
    try (vm_compute; repeat split; congruence).
  exists l, vw. split_and!; [exact El|exact Ew|apply Hl|apply Hl|apply Hw|apply Hw|exact Hs].
Defined.

(** A NaN (the request RGN=nan,0,1,1) passes the clamps of the setters,
    and the pixel position is then an undefined conversion. *)
Theorem nan_view_port (v : View) (n : Z) :
  n = max_resolutions v - resolution v - 1 -> 0 <= n < 31 ->
  exists why, getViewLeft (setViewLeft (atof32 "nan") v) = Err (Undefined why).
Proof.
  intros -> Hn. unfold getViewLeft, view_offset, res_scale, shl1.
  change (max_resolutions (setViewLeft _ v)) with (max_resolutions v).
  change (resolution (setViewLeft _ v)) with (resolution v).
  rewrite u32_small, (proj2 (Z.ltb_lt _ _)), bind_ret by lia.
  change (view_left (setViewLeft (atof32 "nan") v)) with FNaN.
  assert (H : forall y, fmul b32 y FNaN = FNaN) by (intros []; reflexivity).
  rewrite H. eexists. reflexivity.
Qed.

Lemma nan_view_port_witness :
  exists why, getViewLeft (setViewLeft (atof32 "nan") sample_view) = Err (Undefined why).
Proof.
  exact (nan_view_port sample_view 0 eq_refl ltac:(lia)).
Defined.

(** When a width and a height are both requested the width has no
    influence on the resolution: the second calculation starts again from the
    smallest resolution, although it is meant to raise the first one only. *)
Theorem requested_width_ignored (v : View) (w w' : Z) (v1 v2 v3 v4 : View) :
  calculateResolution (width v) w v = Ok v1 -> calculateResolution (width v) w' v = Ok v2 ->
  calculateResolution (height v) (requested_height v) v1 = Ok v3 ->
  calculateResolution (height v) (requested_height v) v2 = Ok v4 -> v3 = v4.
Proof.
  intros (k1 & ->)%calculateResolution_update (k2 & ->)%calculateResolution_update.
  rewrite !calculateResolution_reset. congruence.
Qed.

Lemma requested_width_ignored_witness :
  exists v1 v3, calculateResolution 5000 5000 sample_view = Ok v1 /\ resolution v1 = 5
    /\ calculateResolution 4001 0 v1 = Ok v3 /\ calculateResolution 4001 0 sample_view = Ok v3
    /\ resolution v3 = 0.
Proof.
  destruct (calculateResolution 5000 5000 sample_view) as [v1|] eqn:E1; [|vm_compute in E1; discriminate].
  destruct (calculateResolution 5000 0 sample_view) as [v2|] eqn:E2; [|vm_compute in E2; discriminate].
  destruct (calculateResolution 4001 0 v1) as [v3|] eqn:E3;
    [|vm_compute in E1; injection E1 as <-; vm_compute in E3; discriminate].
  destruct (calculateResolution 4001 0 v2) as [v4|] eqn:E4;
    [|vm_compute in E2; injection E2 as <-; vm_compute in E4; discriminate].
  pose proof (requested_width_ignored sample_view 5000 0 v1 v2 v3 v4 E1 E2 E3 E4) as ->.
  exists v1, v4. split_and!; try reflexivity; try assumption.
  - vm_compute in E1. injection E1 as <-. reflexivity.
  - vm_compute in E2. injection E2 as <-. exact E4.
  - vm_compute in E2. injection E2 as <-. vm_compute in E4. injection E4 as <-. reflexivity.
Defined.
