(* ===== verification/IIPImage.v ===== *)
(** * Image sources (src/src/IIPImage.h, IIPImage.cc)

    The record [IIPImage] is the base class.  The operating system is a
    parameter ([FileSystem]): [stat], the first bytes of a file, [glob].  The
    virtual methods a codec overrides (TIFF, JPEG2000: code that calls libtiff,
    OpenJPEG or Kakadu) are the interface [Codec]. *)
From stdpp Require Import base gmap strings list numbers sorting pretty.
From Stdlib Require Import ZArith Lia Ascii.
From coqutil Require Import Datatypes.RecordSetters.
From S2P Require Import Prelude CString CFloat RawTile.
Import TriangleBracketNotations.
#[local] Open Scope string_scope.
#[local] Open Scope list_scope.
#[local] Open Scope Z_scope.

Inductive ImageFormat := TIF | JPEG2000 | UNSUPPORTED.

Record IIPImage := mkIIPImage {
  imagePath : string;
  fileSystemPrefix : string;
  fileSystemSuffix : string;
  fileNamePattern : string;
  isFile : bool;
  suffix : string;
  horizontalAnglesList : list Z;
  verticalAnglesList : list Z;
  lut : list Z;
  virtual_levels : Z;
  format : ImageFormat;
  image_widths : list Z;
  image_heights : list Z;
  tile_width : Z;
  tile_height : Z;
  colourspace : ColourSpaces;
  dpi_x : float;
  dpi_y : float;
  dpi_units : Z;
  numResolutions : Z;
  bpc : Z;
  channels : Z;
  sampleType : SampleType;
  min : list float;
  max : list float;
  quality_layers : Z;
  isSet : bool;
  currentX : Z;
  currentY : Z;
  histogram : list Z;
  metadata : gmap string string;
  timestamp : Z
}.

(** [IIPImage( const std::string& s )]; the default constructor is the one of
    the empty path.  The copy constructor and [operator =] copy every field. *)
Definition new_IIPImage (s : string) : IIPImage :=
  {| imagePath := s; fileSystemPrefix := ""; fileSystemSuffix := ""; fileNamePattern := "";
     isFile := false; suffix := ""; horizontalAnglesList := []; verticalAnglesList := [];
     lut := []; virtual_levels := 0; format := UNSUPPORTED; image_widths := []; image_heights := [];
     tile_width := 0; tile_height := 0; colourspace := NONE; dpi_x := FZero false;
     dpi_y := FZero false; dpi_units := 0; numResolutions := 0; bpc := 0; channels := 0;
     sampleType := FIXEDPOINT; min := []; max := []; quality_layers := 0; isSet := false;
     currentX := 0; currentY := 90; histogram := []; metadata := ∅; timestamp := 0 |}.

(** ** Accessors (IIPImage.h) *)

Definition getVerticalViewsList (i : IIPImage) : list Z := verticalAnglesList i.
Definition getHorizontalViewsList (i : IIPImage) : list Z := horizontalAnglesList i.
Definition getImagePath (i : IIPImage) : string := imagePath i.
Definition getImageFormat (i : IIPImage) : ImageFormat := format i.
Definition set (i : IIPImage) : bool := isSet i.
Definition setFileSystemPrefix (p : string) (i : IIPImage) : IIPImage := i <| fileSystemPrefix := p |>.
Definition setFileSystemSuffix (p : string) (i : IIPImage) : IIPImage := i <| fileSystemSuffix := p |>.
Definition setFileNamePattern (p : string) (i : IIPImage) : IIPImage := i <| fileNamePattern := p |>.
Definition getNumResolutions (i : IIPImage) : Z := numResolutions i.
Definition getNumBitsPerPixel (i : IIPImage) : Z := bpc i.
Definition getNumChannels (i : IIPImage) : Z := channels i.
Definition getMinValue (i : IIPImage) (n : Z) : res float := rd (min i) n.
Definition getMaxValue (i : IIPImage) (n : Z) : res float := rd (max i) n.
Definition getSampleType (i : IIPImage) : SampleType := sampleType i.
Definition getImageWidth (i : IIPImage) (n : Z) : res Z := rd (image_widths i) n.
Definition getImageHeight (i : IIPImage) (n : Z) : res Z := rd (image_heights i) n.
Definition getTileHeight (i : IIPImage) : Z := tile_height i.
Definition getTileWidth (i : IIPImage) : Z := tile_width i.
Definition getColourSpace (i : IIPImage) : ColourSpaces := colourspace i.

(** [metadata[index]] adds an empty entry when there is none. *)
Definition getMetadata (index : string) (i : IIPImage) : string * IIPImage :=
  match metadata i !! index with
  | Some s => (s, i)
  | None => ("", i <| metadata := <[index := ""]> (metadata i) |>)
  end.

(** ** The operating system *)

Record FileSystem := mkFileSystem {
  fs_stat : string -> option (bool * Z);   (** regular file?, modification time *)
  fs_head : string -> option (list Z);     (** up to 10 bytes; [None]: fopen fails *)
  fs_glob : string -> option (list string) (** matching paths; [None]: glob fails *)
}.

Section Files.
Context (fs : FileSystem).

Definition updateTimestamp (path : string) (i : IIPImage) : res IIPImage :=
  match fs_stat fs (c_str path) with
  | None => throw (ExnFile ("Unable to open file " +:+ path))
  | Some (_, t) => Ok (i <| timestamp := t |>)
  end.

Definition starts_with (sig header : list Z) : bool :=
  bool_decide (take (length sig) header = sig).

Definition magic_format (header : list Z) : ImageFormat :=
  if starts_with [0x00; 0x00; 0x00; 0x0C; 0x6A; 0x50; 0x20; 0x20; 0x0D; 0x0A] header then JPEG2000
  else if starts_with [0x49; 0x20; 0x49] header
          || starts_with [0x49; 0x49; 0x2A; 0x00] header || starts_with [0x4D; 0x4D; 0x00; 0x2A] header
          || starts_with [0x4D; 0x4D; 0x00; 0x2B] header || starts_with [0x49; 0x49; 0x2B; 0x00] header
  then TIF
  else UNSUPPORTED.

Definition testImageType (i : IIPImage) : res IIPImage :=
  let path := fileSystemPrefix i +:+ imagePath i +:+ fileSystemSuffix i in
  match fs_stat fs (c_str path) with
  | Some (true, mtime) =>
      match fs_head fs (c_str path) with
      | None => throw (ExnFile ("Unable to open file '" +:+ path +:+ "'"))
      | Some header =>
          if (length header <? 10)%nat then
            throw (ExnFile ("Unable to read initial byte sequence from file '" +:+ path +:+ "'"))
          else Ok (i <| isFile := true |> <| timestamp := mtime |> <| format := magic_format header |>)
      end
  | _ =>
      let filename := path +:+ fileNamePattern i +:+ "000_090.*" in
      match fs_glob fs (c_str filename) with
      | None => throw (ExnFile (path +:+ " is neither a file nor part of an image sequence"))
      | Some [tmp] =>
          let dot := i32 (find_last_of "." tmp) in
          let len := i32 (slen tmp) in
          suffix0 ← substr tmp (u64 (dot + 1)) (u64 len);
          let fmt := if bool_decide (suffix0 = "jp2") || bool_decide (suffix0 = "jpx")
                        || bool_decide (suffix0 = "j2k") then JPEG2000
                     else if bool_decide (suffix0 = "tif") || bool_decide (suffix0 = "tiff") then TIF
                     else UNSUPPORTED in
          updateTimestamp tmp (i <| isFile := false |> <| suffix := suffix0 |> <| format := fmt |>)
      | Some _ => throw (ExnFile ("There are multiple file extensions matching " +:+ filename))
      end
  end.

(** [istringstream( s ) >> angle] *)
Definition parse_int (s : string) : Z := Z.max (- 2 ^ 31) (Z.min (strtol s) (2 ^ 31 - 1)).

(** The paths a failed [glob] leaves: none. *)
Definition glob_paths (pattern : string) : list string :=
  match fs_glob fs (c_str pattern) with Some l => l | None => [] end.

Definition measureVerticalAngles (i : IIPImage) : res IIPImage :=
  let filename := fileSystemPrefix i +:+ imagePath i +:+ fileNamePattern i +:+ "000_*." +:+ suffix i in
  angles ← mapM (fun tmp =>
      let len := i32 (slen tmp - slen (suffix i) - 1) in
      sequence_no ← substr tmp (u64 (len - 3)) 3;
      Ok (parse_int sequence_no)) (glob_paths filename);
  Ok (i <| verticalAnglesList := merge_sort Z.le (rev angles) |>).

Definition measureHorizontalAngles (i : IIPImage) : res IIPImage :=
  let filename := fileSystemPrefix i +:+ imagePath i +:+ fileNamePattern i +:+ "*_090." +:+ suffix i in
  angles ← mapM (fun tmp =>
      let start := i32 (slen (fileSystemPrefix i +:+ imagePath i +:+ fileNamePattern i)) in
      let last := i32 (find_last_of "_" tmp) in
      n ← substr tmp (u64 start) (u64 (last - start));
      Ok (parse_int n)) (glob_paths filename);
  Ok (i <| horizontalAnglesList := merge_sort Z.le (rev angles) |>).

Definition Initialise (i : IIPImage) : res IIPImage :=
  i ← testImageType i;
  if negb (isFile i) then
    i ← measureHorizontalAngles i;
    measureVerticalAngles i
  else Ok (i <| horizontalAnglesList := 0 :: horizontalAnglesList i |>
             <| verticalAnglesList := 90 :: verticalAnglesList i |>).
End Files.

Definition getFileName (seq ang : Z) (i : IIPImage) : string :=
  if isFile i then fileSystemPrefix i +:+ imagePath i +:+ fileSystemSuffix i
  else snprintf 1024 (c_str (fileSystemPrefix i +:+ imagePath i) +:+ c_str (fileNamePattern i)
                      +:+ dec3 seq +:+ "_" +:+ dec3 ang +:+ "." +:+ c_str (suffix i)).

(** ** Dates *)

(** Year, month and day of a day number counted from 1 January 1970
    ([gmtime]), in the proleptic Gregorian calendar. *)
Definition civil (days : Z) : Z * Z * Z :=
  let z := days + 719468 in
  let era := z / 146097 in
  let doe := z mod 146097 in
  let yoe := (doe - doe / 1460 + doe / 36524 - doe / 146096) / 365 in
  let doy := doe - (365 * yoe + yoe / 4 - yoe / 100) in
  let mp := (5 * doy + 2) / 153 in
  let d := doy - (153 * mp + 2) / 5 + 1 in
  let m := if mp <? 10 then mp + 3 else mp - 9 in
  (yoe + era * 400 + (if m <=? 2 then 1 else 0), m, d).

Definition dec2 (z : Z) : string := if z <? 10 then "0" +:+ dec z else dec z.

Definition nth_name (l : list string) (n : Z) : string := default "" (l !! Z.to_nat n).

(** [strftime] with ["%a, %d %b %Y %H:%M:%S GMT"]. *)
Definition http_date (t : Z) : string :=
  let days := t / 86400 in
  let secs := t mod 86400 in
  let '(y, m, d) := civil days in
  nth_name ["Sun"; "Mon"; "Tue"; "Wed"; "Thu"; "Fri"; "Sat"] ((days + 4) mod 7)
  +:+ ", " +:+ dec2 d +:+ " "
  +:+ nth_name ["Jan"; "Feb"; "Mar"; "Apr"; "May"; "Jun"; "Jul"; "Aug"; "Sep"; "Oct"; "Nov"; "Dec"] (m - 1)
  +:+ " " +:+ dec y +:+ " " +:+ dec2 (secs / 3600) +:+ ":" +:+ dec2 (secs mod 3600 / 60) +:+ ":"
  +:+ dec2 (secs mod 60) +:+ " GMT".

Definition getTimestamp (i : IIPImage) : string := http_date (timestamp i).

(** [swap( first, second )] exchanges every member; [operator =] is a swap with
    a copy. *)
Definition swap (first second : IIPImage) : IIPImage * IIPImage := (second, first).

(** [operator ==] *)
Definition image_eq (a b : IIPImage) : bool := bool_decide (imagePath a = imagePath b).
Definition image_neq (a b : IIPImage) : bool := negb (image_eq a b).

(** ** The codec interface: the virtual methods *)

Class Codec := {
  codec_regionDecoding : bool;
  codec_description : string;
  codec_openImage : IIPImage -> res IIPImage;
  codec_loadImageInfo : IIPImage -> Z -> Z -> res IIPImage;
  codec_getTile : IIPImage -> Z -> Z -> Z -> Z -> Z -> res RawTile;
  codec_getRegion : IIPImage -> Z -> Z -> Z -> Z -> Z -> Z -> Z -> Z -> res RawTile
}.

(** [image_widths[num_res - res - 1]] and the height: the size of a resolution. *)
Definition level_width (i : IIPImage) (r : Z) : res Z :=
  rd (image_widths i) (numResolutions i - r - 1).
Definition level_height (i : IIPImage) (r : Z) : res Z :=
  rd (image_heights i) (numResolutions i - r - 1).

(** More levels. *)
Definition push_all (i : IIPImage) (ws hs : list Z) : IIPImage :=
  i <| image_widths := image_widths i ++ ws |> <| image_heights := image_heights i ++ hs |>.

Lemma push_all_nil i : push_all i [] [] = i.
Proof. unfold push_all. rewrite !app_nil_r. destruct i; reflexivity. Qed.

Lemma push_all_app i ws hs ws' hs' : push_all (push_all i ws hs) ws' hs' = push_all i (ws ++ ws') (hs ++ hs').
Proof. destruct i. unfold push_all. cbv -[app]. rewrite <- !app_assoc. reflexivity. Qed.

(** ** Lemmas *)

Lemma digits_value_zero s : digits_value 0 (String "0" s) = digits_value 0 s.
Proof. reflexivity. Qed.

Lemma strtol_digits c s : isdigit c = true -> strtol (String c s)
  = Z.max (- 2 ^ 63) (Z.min (digits_value 0 (String c s)) (2 ^ 63 - 1)).
Proof.
  intros Hc. unfold strtol.
  assert (E : skip_space (String c s) = String c s).
  { cbn [skip_space]. pose proof Hc as [?%Z.leb_le ?%Z.leb_le]%andb_prop. unfold isspace.
    rewrite (proj2 (Z.eqb_neq (code c) 32)), (proj2 (Z.leb_gt (code c) 13)), andb_false_r by lia.
    reflexivity. }
  rewrite E. destruct c as [[] [] [] [] [] [] [] []]; try reflexivity; discriminate.
Qed.

(** A number printed with at least three digits is read back. *)
Lemma dec3_nonneg z s : 0 <= z -> no_digit s ->
  digits_value 0 (dec3 z +:+ s) = z /\ exists c t, dec3 z +:+ s = String c t /\ isdigit c = true.
Proof.
  intros Hz Hs. unfold dec3. rewrite Z.abs_eq by assumption.
  destruct (Z.ltb_spec z 0); [lia|].
  assert (Hp : exists n : N, z = Z.of_N n /\ pretty z = @pretty N _ n).
  { exists (Z.to_N z). split; [lia|]. destruct z; [reflexivity|reflexivity|lia]. }
  destruct Hp as (n & -> & ->).
  pose proof (digits_value_dec n s Hs) as D. pose proof (dec_first_digit n s) as F.
  destruct (String.length (@pretty N _ n)) as [|[|[|k]]].
  - split; assumption.
  - rewrite !scons_app, snil_app, !digits_value_zero. split; [exact D|eauto].
  - rewrite !scons_app, snil_app, !digits_value_zero. split; [exact D|eauto].
  - split; assumption.
Qed.

Lemma parse_int_dec3 z : 0 <= z < 2 ^ 31 -> parse_int (dec3 z) = z.
Proof.
  intros Hz. destruct (dec3_nonneg z "" ltac:(lia) I) as (D & c & t & E & Hc).
  rewrite sapp_nil_r in *. unfold parse_int. rewrite E in *. rewrite strtol_digits, D by exact Hc. lia.
Qed.

Lemma srfind_if_app p a b :
  (forall c, smem c b = true -> p c = false) -> srfind_if p (a +:+ b) = srfind_if p a.
Proof.
  intros Hb. induction a as [|c a IH].
  - rewrite snil_app. induction b as [|c b IH]; [reflexivity|]. cbn [srfind_if].
    rewrite IH; [|intros d Hd; apply Hb; cbn [smem]; rewrite Hd; apply orb_true_r].
    rewrite Hb; [reflexivity|]. cbn [smem]. rewrite Ascii.eqb_refl. reflexivity.
  - rewrite scons_app. cbn [srfind_if]. rewrite IH. reflexivity.
Qed.

(** The names of a sequence, and that they are short enough not to be cut. *)
Definition seq_name (i : IIPImage) (x y : Z) : string :=
  (fileSystemPrefix i +:+ imagePath i +:+ fileNamePattern i)
  +:+ dec3 x +:+ "_" +:+ dec3 y +:+ "." +:+ suffix i.

Lemma getFileName_seq i x y :
  isFile i = false -> c_str (fileSystemPrefix i +:+ imagePath i) = fileSystemPrefix i +:+ imagePath i ->
  c_str (fileNamePattern i) = fileNamePattern i -> c_str (suffix i) = suffix i ->
  slen (seq_name i x y) <= 1023 -> getFileName x y i = seq_name i x y.
Proof.
  intros Hf H1 H2 H3 Hl. unfold getFileName. rewrite Hf, H1, H2, H3. unfold snprintf, seq_name in *.
  rewrite !sapp_assoc in *. apply stake_all. unfold slen in Hl. lia.
Qed.

Definition angle_ok (z : Z) : Prop := 0 <= z < 2 ^ 31.

Lemma dec3_digits c z : 0 <= z -> smem c (dec3 z) = true -> isdigit c = true.
Proof.
  intros Hz. unfold dec3. rewrite Z.abs_eq by assumption. destruct (Z.ltb_spec z 0); [lia|].
  assert (D : smem c (pretty z) = true -> isdigit c = true).
  { intros Hm. destruct z as [|p|p]; [|apply (dec_chars_N c (Npos p)), Hm|lia].
    cbn in Hm. apply orb_prop in Hm as [->%Ascii.eqb_eq|Hm]; [reflexivity|discriminate]. }
  destruct (String.length (pretty z)) as [|[|[|k]]]; try exact D;
    rewrite ?scons_app, ?snil_app; cbn [smem]; rewrite ?orb_true_iff;
    intros Hm; repeat (destruct Hm as [->%Ascii.eqb_eq|Hm]; [reflexivity|]); apply D, Hm.
Qed.

(** Reading the horizontal angle back off a name. *)
Lemma horizontal_name_angle i x y :
  isFile i = false -> angle_ok x -> angle_ok y -> smem "_" (suffix i) = false ->
  slen (getFileName x y i) < 1023 ->
  c_str (fileSystemPrefix i +:+ imagePath i) = fileSystemPrefix i +:+ imagePath i ->
  c_str (fileNamePattern i) = fileNamePattern i -> c_str (suffix i) = suffix i ->
  (let start := i32 (slen (fileSystemPrefix i +:+ imagePath i +:+ fileNamePattern i)) in
   let last := i32 (find_last_of "_" (getFileName x y i)) in
   n ← substr (getFileName x y i) (u64 start) (u64 (last - start)); Ok (parse_int n)) = Ok x.
Proof.
  intros Hf [Hx Hx'] [Hy _] Hs Hl H1 H2 H3. cbv zeta.
  assert (E : getFileName x y i = seq_name i x y).
  { apply getFileName_seq; auto. revert Hl. unfold getFileName, snprintf, slen.
    rewrite Hf, H1, H2, H3, length_stake. unfold seq_name. rewrite !sapp_assoc. lia. }
  rewrite E in *. unfold seq_name in *.
  set (P := fileSystemPrefix i +:+ imagePath i +:+ fileNamePattern i) in *.
  set (rest := dec3 y +:+ "." +:+ suffix i) in *.
  assert (Hr : forall c, smem c rest = true -> smem c "_" = false).
  { intros c Hc. cbn [smem]. rewrite orb_false_r. apply Ascii.eqb_neq. intros ->.
    unfold rest in Hc. rewrite !smem_app, Hs in Hc. cbn [smem] in Hc. rewrite orb_false_r in Hc.
    apply dec3_digits in Hc; [discriminate|assumption]. }
  assert (Hfind : find_last_of "_" (P +:+ dec3 x +:+ "_" +:+ rest) = slen (P +:+ dec3 x)).
  { unfold find_last_of.
    replace (P +:+ dec3 x +:+ "_" +:+ rest) with (((P +:+ dec3 x) +:+ "_") +:+ rest)
      by (rewrite !sapp_assoc; reflexivity).
    rewrite srfind_if_app by exact Hr. rewrite srfind_if_last by (reflexivity || discriminate). reflexivity. }
  rewrite Hfind. clear Hfind E. clearbody P rest.
  rewrite !slen_app in Hl. pose proof (slen_nonneg P). pose proof (slen_nonneg (dec3 x)).
  pose proof (slen_nonneg rest). pose proof (slen_nonneg "_"). rewrite slen_app.
  rewrite !(i32_small _) by lia. rewrite !u64_small by lia.
  rewrite substr_ok by (rewrite !slen_app; lia). rewrite bind_ret.
  rewrite sdrop_slen, !slen_app, Z.min_l by lia.
  replace (slen P + slen (dec3 x) - slen P) with (slen (dec3 x)) by lia.
  rewrite stake_slen, parse_int_dec3 by lia. reflexivity.
Qed.

(** ** Properties *)

(** The horizontal angles measured for an image sequence are exactly those
    for which [getFileName] names a file: reading the angles off the names that
    match the pattern gives them back, sorted, for angles of any number of
    digits. *)
Theorem horizontal_angles_roundtrip (fs : FileSystem) (i : IIPImage) (xs : list Z) :
  isFile i = false -> Forall angle_ok xs -> smem "_" (suffix i) = false ->
  Forall (fun x => slen (getFileName x 90 i) < 1023) xs ->
  c_str (fileSystemPrefix i +:+ imagePath i) = fileSystemPrefix i +:+ imagePath i ->
  c_str (fileNamePattern i) = fileNamePattern i -> c_str (suffix i) = suffix i ->
  glob_paths fs (fileSystemPrefix i +:+ imagePath i +:+ fileNamePattern i +:+ "*_090." +:+ suffix i)
    = (fun x => getFileName x 90 i) <$> xs ->
  measureHorizontalAngles fs i = Ok (i <| horizontalAnglesList := merge_sort Z.le (rev xs) |>).
Proof.
  intros Hf Hxs Hs Hlen H1 H2 H3 Hg. unfold measureHorizontalAngles. rewrite Hg.
  match goal with |- (mapM ?f _ ≫= _) = _ => assert (E : mapM f ((fun x => getFileName x 90 i) <$> xs) = Ok xs) end.
  { clear Hg. induction xs as [|x xs IH]; [reflexivity|].
    apply Forall_cons in Hxs as [Hx Hxs]. apply Forall_cons in Hlen as [Hl Hlen].
    cbn [fmap list_fmap mapM]. rewrite (IH Hxs Hlen). clear IH.
    rewrite horizontal_name_angle by (assumption || (split; lia)). reflexivity. }
  rewrite E, bind_ret. reflexivity.
Qed.

Definition sample_sequence : IIPImage :=
  (new_IIPImage "obj/frame") <| fileNamePattern := "_pyr_" |> <| suffix := "tif" |>.

Lemma horizontal_angles_roundtrip_witness :
  exists i, measureHorizontalAngles
    (mkFileSystem (fun _ => None) (fun _ => None)
       (fun _ => Some ["obj/frame_pyr_1030_090.tif"; "obj/frame_pyr_000_090.tif"; "obj/frame_pyr_015_090.tif"]))
    sample_sequence = Ok i /\ horizontalAnglesList i = [0; 15; 1030].
Proof.
  rewrite (horizontal_angles_roundtrip _ sample_sequence [1030; 0; 15]).
  - eexists. split; [reflexivity|]. vm_compute. reflexivity.
  - reflexivity.
  - repeat (apply Forall_cons; split); try (split; lia). apply Forall_nil; exact I.
  - reflexivity.
  - repeat (apply Forall_cons; split); try reflexivity. apply Forall_nil; exact I.
  - reflexivity.
  - reflexivity.
  - reflexivity.
  - vm_compute. reflexivity.
Defined.
