(* ===== verification/Watermark.v ===== *)
(** * Watermarking (src/src/Watermark.h, Watermark.cc)

    [init] reads the watermark through libtiff: [tiff_rgba] gives the size, bit
    depth and RGBA raster of a file, or [None].  The values of [rand()] are a
    parameter [rand], indexed by the number of calls made so far. *)
From stdpp Require Import base strings list numbers.
From Stdlib Require Import ZArith Lia Ascii.
From coqutil Require Import Datatypes.RecordSetters.
From S2P Require Import Prelude CString CFloat RawTile.
Import TriangleBracketNotations.
#[local] Open Scope string_scope.
#[local] Open Scope list_scope.
#[local] Open Scope Z_scope.

Record Watermark := mkWatermark {
  _width : Z; _height : Z; _channels : Z; _bpc : Z;
  _image : string;
  _opacity : float; _probability : float;
  _isSet : bool;
  _watermark : option bytes
}.

Definition new_Watermark (file : string) (opacity probability : float) : Watermark :=
  {| _width := 0; _height := 0; _channels := 0; _bpc := 0; _image := file; _opacity := opacity;
     _probability := probability; _isSet := false; _watermark := None |}.

Definition getImage (w : Watermark) : string := _image w.
Definition getOpacity (w : Watermark) : float := _opacity w.
Definition getProbability (w : Watermark) : float := _probability w.
Definition isSet (w : Watermark) : bool := _isSet w.

(** What libtiff reports of a file: width, height, bits per sample and the
    raster, [None] when it cannot be decoded. *)
Record tiff_file := mkTiff { t_width : Z; t_height : Z; t_bpc : Z; t_raster : option (list Z) }.

Section Watermark.
Context (tiff_rgba : string -> option tiff_file) (rand : Z -> Z).

Definition RAND_MAX : Z := 2 ^ 31 - 1.

(** One channel of a pixel: [v * _opacity * a] as an [unsigned char]. *)
Definition mark_value (opacity : float) (v a : Z) : res Z :=
  to_u8 (fmul b32 (fmul b32 (of_Z b32 v) opacity) (fdiv b32 (of_Z b32 a) (of_Z b32 255))).

Definition init (w : Watermark) : res Watermark :=
  if 0 <? slen (_image w) then
    match tiff_rgba (_image w) with
    | None => Ok w
    | Some t =>
        let w := w <| _width := t_width t |> <| _height := t_height t |> <| _bpc := t_bpc t |> in
        match t_raster t with
        | None => Ok w
        | Some buffer =>
            let n := u32 (_width w * _height w) in
            let w := w <| _channels := 3 |> in
            mark ← foldM (fun i mark =>
                rgba ← rd buffer i;
                let a := Z.land (Z.shiftr rgba 24) 255 in
                r ← mark_value (_opacity w) (Z.land rgba 255) a;
                mark ← st 1 mark (u32 (i * 3)) r;
                g ← mark_value (_opacity w) (Z.land (Z.shiftr rgba 8) 255) a;
                mark ← st 1 mark (u32 (i * 3 + 1)) g;
                b ← mark_value (_opacity w) (Z.land (Z.shiftr rgba 16) 255) a;
                st 1 mark (u32 (i * 3 + 2)) b)
              (range 0 n) (replicate (Z.to_nat (u32 (_width w * _height w * _channels w))) 0);
            Ok (w <| _watermark := Some mark |> <| _isSet := true |>)
        end
    end
  else Ok w.

(** [(float) rand() / RAND_MAX] of the [n]th call. *)
Definition random (n : Z) : float := fdiv b32 (of_Z b32 (rand n)) (of_Z b32 RAND_MAX).

(** The offset of the mark in one direction, and the number of calls made. *)
Definition mark_offset (size msize n : Z) : res (Z * Z) :=
  if msize <? size then
    o ← to_u32 (fmul b32 (random n) (of_Z b32 (u32 (size - msize)))); Ok (o, n + 1)
  else Ok (0, n).

(** One sample of the innermost loop. *)
Definition mark_sample (w : Watermark) (width channels bpc xoffset yoffset i j k : Z) (d : bytes) : res bytes :=
  let id := u32 ((j + yoffset) * width * channels + (i + xoffset) * channels + k) in
  mark ← match _watermark w with Some b => Ok b | None => undef "null watermark" end;
  m ← ld 1 mark (u32 (j * _width w * _channels w + i * _channels w + k));
  if bpc =? 16 then
    v ← ld 2 d id;
    let t := u32 (v + m * 256) in
    st 2 d id (u16 (if 65535 <? t then 65535 else t))
  else
    v ← ld 1 d id;
    let t := u16 (v + m) in
    st 1 d id (u8 (if 255 <? t then 255 else t)).

Definition mark_rows (w : Watermark) (width channels bpc xoffset yoffset xlimit ylimit : Z) (d : bytes)
  : res bytes :=
  foldM (fun j d =>
    foldM (fun i d =>
      foldM (fun k d => mark_sample w width channels bpc xoffset yoffset i j k d)
        (range 0 channels) d)
      (range 0 xlimit) d)
    (range 0 ylimit) d.

(** [apply]: the new bytes, and the number of calls of [rand()] made. *)
Definition apply (w : Watermark) (data : bytes) (width height channels bpc n : Z) : res (bytes * Z) :=
  if negb (_isSet w) || feq (_probability w) (FZero false) || feq (_opacity w) (FZero false)
  then Ok (data, n)
  else if flt (random n) (_probability w) then
    '(xoffset, n) ← mark_offset width (_width w) (n + 1);
    '(yoffset, n) ← mark_offset height (_height w) n;
    let xlimit := if width <? _width w then width else _width w in
    let ylimit := if height <? _height w then height else _height w in
    d ← mark_rows w width channels bpc xoffset yoffset xlimit ylimit data;
    Ok (d, n)
  else Ok (data, n + 1).
End Watermark.

(** ** Lemmas *)

(** A row-major sample index and its bounds. *)
Definition sidx (w ch x y c : Z) : Z := y * w * ch + x * ch + c.

Lemma sidx_range w h ch x y c :
  0 <= x < w -> 0 <= y < h -> 0 <= c < ch -> 0 <= sidx w ch x y c < h * w * ch.
Proof.
  intros Hx Hy Hc. unfold sidx.
  assert (0 <= y * w + x < h * w) by (apply row_major_bound; lia). nia.
Qed.

Lemma sidx_inj w ch x y c x' y' c' :
  0 <= x < w -> 0 <= x' < w -> 0 <= c < ch -> 0 <= c' < ch ->
  sidx w ch x y c = sidx w ch x' y' c' -> x = x' /\ y = y' /\ c = c'.
Proof.
  unfold sidx. intros Hx Hx' Hc Hc' E.
  assert (E1 : (y * w + x) * ch + c = (y' * w + x') * ch + c') by lia.
  destruct (row_col_unique ch (y * w + x) c (y' * w + x') c' Hc Hc' E1) as [E2 ->].
  destruct (row_col_unique w y x y' x' Hx Hx' E2) as [-> ->]. auto.
Qed.

(** A watermark whose buffer has the size its fields say. *)
Record mark_ok (w : Watermark) (mark : bytes) : Prop := {
  mk_buf : _watermark w = Some mark;
  mk_len : blen mark = _height w * _width w * _channels w;
  mk_small : _height w * _width w * _channels w < 2 ^ 32;
  mk_w : 0 < _width w < 2 ^ 24;
  mk_h : 0 < _height w < 2 ^ 24;
  mk_u8 : Forall is_u8 mark
}.

Definition clip255 (v m : Z) : Z := Z.min 255 (v + m).

Lemma mark_sample_8bit w mark width height channels bpc xo yo i j k d :
  mark_ok w mark -> bpc <> 16 -> 0 <= channels <= _channels w ->
  0 <= i < _width w -> 0 <= j < _height w -> 0 <= k < channels ->
  0 <= xo -> xo + i < width -> 0 <= yo -> yo + j < height ->
  height * width * channels <= blen d -> height * width * channels < 2 ^ 32 -> Forall is_u8 d ->
  exists v m, d !! Z.to_nat (sidx width channels (xo + i) (yo + j) k) = Some v
    /\ mark !! Z.to_nat (sidx (_width w) (_channels w) i j k) = Some m
    /\ is_u8 (clip255 v m)
    /\ mark_sample w width channels bpc xo yo i j k d
       = Ok (<[Z.to_nat (sidx width channels (xo + i) (yo + j) k) := clip255 v m]> d).
Proof.
  intros [Hb Hml Hms Hw Hh Hmu] Hbpc Hch Hi Hj Hk Hxo Hxi Hyo Hyj Hd Hd32 Hdu.
  unfold mark_sample. rewrite Hb, bind_ret.
  pose proof (sidx_range (_width w) (_height w) (_channels w) i j k Hi Hj ltac:(lia)) as Hmi.
  pose proof (sidx_range width height channels (xo + i) (yo + j) k ltac:(lia) ltac:(lia) Hk) as Hdi.
  assert (Em : u32 (j * _width w * _channels w + i * _channels w + k)
               = sidx (_width w) (_channels w) i j k)
    by (unfold sidx in *; rewrite u32_small by lia; reflexivity).
  assert (Ed : u32 ((j + yo) * width * channels + (i + xo) * channels + k)
               = sidx width channels (xo + i) (yo + j) k)
    by (unfold sidx in *; rewrite u32_small by lia; lia).
  rewrite Em, Ed.
  destruct (ld1 mark (sidx (_width w) (_channels w) i j k) ltac:(lia)) as (m & Hm & ->).
  rewrite bind_ret, (proj2 (Z.eqb_neq bpc 16)) by assumption.
  destruct (ld1 d (sidx width channels (xo + i) (yo + j) k) ltac:(lia)) as (v & Hv & ->).
  rewrite bind_ret.
  assert (Uv : is_u8 v) by (apply Forall_lookup with (1 := Hdu) (2 := Hv)).
  assert (Um : is_u8 m) by (apply Forall_lookup with (1 := Hmu) (2 := Hm)).
  unfold is_u8, clip255 in *. exists v, m. split_and!; [exact Hv|exact Hm|lia|lia|].
  rewrite st1 by lia. do 2 f_equal. unfold u16. rewrite Z.mod_small by lia.
  destruct (Z.ltb_spec 255 (v + m)).
  - rewrite !(u8_small 255) by lia. lia.
  - rewrite !(u8_small (v + m)) by lia. lia.
Qed.

(** The three loops as one over triples (row, column, channel). *)
Definition mark_cells (xlimit ylimit channels : Z) : list (Z * (Z * Z)) :=
  pairs (range 0 ylimit) (pairs (range 0 xlimit) (range 0 channels)).

Lemma mark_rows_cells w width channels bpc xo yo xlimit ylimit d :
  mark_rows w width channels bpc xo yo xlimit ylimit d
  = foldM (fun p d => mark_sample w width channels bpc xo yo (fst (snd p)) (fst p) (snd (snd p)) d)
      (mark_cells xlimit ylimit channels) d.
Proof.
  unfold mark_rows, mark_cells.
  set (B := fun j i k d => mark_sample w width channels bpc xo yo i j k d).
  etransitivity; [|apply (foldM_pairs (fun j q => B j (fst q) (snd q)))].
  apply foldM_ext. intros j t _. apply (foldM_pairs (B j)).
Qed.

Lemma elem_of_mark_cells xl yl ch j i k :
  (j, (i, k)) ∈ mark_cells xl yl ch <-> 0 <= j < yl /\ 0 <= i < xl /\ 0 <= k < ch.
Proof. unfold mark_cells. rewrite !elem_of_pairs, !elem_of_range. reflexivity. Qed.

(** Every sample of the marked rectangle is the clipped sum, every other byte is
    unchanged. *)
Definition marked (w : Watermark) (mark : bytes) (width channels xo yo xlimit ylimit : Z) (d d' : bytes) : Prop :=
  length d' = length d /\
  (forall i j k, 0 <= i < xlimit -> 0 <= j < ylimit -> 0 <= k < channels ->
     d' !! Z.to_nat (sidx width channels (xo + i) (yo + j) k)
     = (fun v => clip255 v (mark !!! Z.to_nat (sidx (_width w) (_channels w) i j k)))
       <$> d !! Z.to_nat (sidx width channels (xo + i) (yo + j) k)) /\
  (forall n, (forall i j k, 0 <= i < xlimit -> 0 <= j < ylimit -> 0 <= k < channels ->
                n <> Z.to_nat (sidx width channels (xo + i) (yo + j) k)) -> d' !! n = d !! n).

Lemma mark_rows_8bit w mark width height channels bpc xo yo xl yl d :
  mark_ok w mark -> bpc <> 16 -> 0 <= channels <= _channels w ->
  xl <= _width w -> yl <= _height w ->
  0 <= xo -> xo + xl <= width -> 0 <= yo -> yo + yl <= height ->
  height * width * channels <= blen d -> height * width * channels < 2 ^ 32 -> Forall is_u8 d ->
  exists d', mark_rows w width channels bpc xo yo xl yl d = Ok d'
    /\ marked w mark width channels xo yo xl yl d d' /\ Forall is_u8 d'.
Proof.
  intros Hmk Hbpc Hch Hxl Hyl Hxo Hxw Hyo Hyh Hd Hd32 Hdu. rewrite mark_rows_cells.
  set (idx := fun p : Z * (Z * Z) => Z.to_nat (sidx width channels (xo + fst (snd p)) (yo + fst p) (snd (snd p)))).
  set (g := fun (p : Z * (Z * Z)) v =>
              clip255 v (mark !!! Z.to_nat (sidx (_width w) (_channels w) (fst (snd p)) (fst p) (snd (snd p))))).
  assert (Hinj : forall p q, p ∈ mark_cells xl yl channels -> q ∈ mark_cells xl yl channels ->
                   idx p = idx q -> p = q).
  { intros [j [i k]] [j' [i' k']] (Hj & Hi & Hk)%elem_of_mark_cells (Hj' & Hi' & Hk')%elem_of_mark_cells E.
    unfold idx in E. cbn [fst snd] in E.
    pose proof (sidx_range width height channels (xo + i) (yo + j) k ltac:(lia) ltac:(lia) Hk).
    pose proof (sidx_range width height channels (xo + i') (yo + j') k' ltac:(lia) ltac:(lia) Hk').
    destruct (sidx_inj width channels (xo + i) (yo + j) k (xo + i') (yo + j') k') as (? & ? & ?);
      [lia|lia|lia|lia|lia|]. repeat f_equal; lia. }
  destruct (foldM_pointwise is_u8
      (fun p e => mark_sample w width channels bpc xo yo (fst (snd p)) (fst p) (snd (snd p)) e)
      idx g (length d) (mark_cells xl yl channels) d) as (d' & E & Hlen & Hu & Hin & Hout); auto.
  - intros [j [i k]] e (Hj & Hi & Hk)%elem_of_mark_cells He Hu. unfold idx, g. cbn [fst snd].
    assert (blen e = blen d) by (unfold blen; congruence).
    destruct (mark_sample_8bit w mark width height channels bpc xo yo i j k e) as (v & m & Hv & Hm & Hu' & E);
      auto; try lia. exists v. rewrite (list_lookup_total_correct _ _ _ Hm). auto.
  - apply NoDup_fmap_2_strong; [exact Hinj|]. unfold mark_cells. auto using NoDup_pairs, NoDup_range.
  - exists d'. split; [exact E|]. split; [|exact Hu]. split; [exact Hlen|]. split.
    + intros i j k Hi Hj Hk. apply (Hin (j, (i, k))). apply elem_of_mark_cells. auto.
    + intros n Hn. apply Hout. intros ([j [i k]] & -> & Hp)%list_elem_of_fmap.
      apply elem_of_mark_cells in Hp as (Hj & Hi & Hk). apply (Hn i j k Hi Hj Hk). reflexivity.
Qed.

(** The random offset leaves room for the mark. *)
Lemma mark_offset_spec rand size msize n :
  (forall n, 0 <= rand n <= RAND_MAX) -> 0 < size < 2 ^ 24 -> 0 < msize < 2 ^ 24 ->
  exists o n', mark_offset rand size msize n = Ok (o, n') /\ 0 <= o
    /\ o + (if size <? msize then size else msize) <= size.
Proof.
  intros Hr Hs Hm. unfold mark_offset.
  destruct (Z.ltb_spec msize size) as [Hlt|Hge].
  2: { exists 0, n. split; [reflexivity|]. destruct (Z.ltb_spec size msize); lia. }
  rewrite u32_small by lia.
  assert (W1 : within (random rand n) 0 1).
  { unfold random. apply (fdiv_le_one b32 _ _ (2 ^ 31) b32_ok).
    - apply of_Z_pow2; [apply b32_ok|cbn; lia|cbn; lia|]. specialize (Hr n). unfold RAND_MAX in Hr. lia.
    - split; [vm_compute; reflexivity|vm_compute; split; congruence].
    - lia. }
  assert (W2 : within (of_Z b32 (size - msize)) 0 (size - msize))
    by (apply of_Z_within; [apply b32_ok|cbn; lia|lia]).
  pose proof (fmul_within b32 _ _ 1 (size - msize) b32_ok W1 W2 ltac:(lia) ltac:(lia) ltac:(cbn; lia)) as W.
  destruct (to_u32_within _ (1 * (size - msize)) W ltac:(lia)) as (o & -> & Ho).
  rewrite bind_ret. exists o, (n + 1). split; [reflexivity|].
  destruct (Z.ltb_spec size msize); lia.
Qed.

(** ** Properties *)

(** Whether the server marks tiles at all, and whether this one is marked, by
    the next value of [rand()]. *)
Definition marks (w : Watermark) : bool :=
  _isSet w && negb (feq (_probability w) (FZero false)) && negb (feq (_opacity w) (FZero false)).

Definition drawn (rand : Z -> Z) (w : Watermark) (n : Z) : bool :=
  flt (fdiv b32 (of_Z b32 (rand n)) (of_Z b32 RAND_MAX)) (_probability w).


Definition sample_mark : Watermark :=
  {| _width := 2; _height := 1; _channels := 3; _bpc := 8; _image := "wm.tif";
     _opacity := FFin false (2 ^ 23) (-23); _probability := FFin false (2 ^ 23) (-23); _isSet := true;
     _watermark := Some [10; 20; 30; 200; 200; 200] |}.


(** The loop over the channels runs over those of the tile, but the mark
    always has three: for a tile with more channels (an alpha channel) the last
    sample of the mark is read past the end of its buffer. *)
Theorem apply_extra_channel_overrun (w : Watermark) (mark d : bytes) (width channels bpc xo yo : Z) :
  mark_ok w mark -> _channels w = 3 -> 3 < channels ->
  exists why, mark_sample w width channels bpc xo yo (_width w - 1) (_height w - 1) 3 d = Err (Undefined why).
Proof.
  intros [Hb Hml Hms Hw Hh _] Hc Hch. unfold mark_sample. rewrite Hb, bind_ret, Hc.
  rewrite Hc in *.
  replace ((_height w - 1) * _width w * 3 + (_width w - 1) * 3 + 3) with (_height w * _width w * 3) by ring.
  rewrite (u32_small (_height w * _width w * 3)) by nia.
  destruct (ld_out 1 mark (_height w * _width w * 3)) as (why & ->); [lia|]. eexists. reflexivity.
Qed.

Lemma apply_extra_channel_overrun_witness :
  exists why, mark_sample sample_mark 4 4 8 0 0 1 0 3 (replicate 64 0) = Err (Undefined why).
Proof.
  apply (apply_extra_channel_overrun sample_mark [10; 20; 30; 200; 200; 200] (replicate 64 0) 4 4 8 0 0).
  - constructor; try reflexivity; try (cbn; lia). forall_elements ltac:(split; lia).
  - reflexivity.
  - lia.
Defined.
