(* ===== verification/TileManager.v ===== *)
(** * Tiles and regions (src/src/TileManager.h, TileManager.cc)

    The object holds pointers to the tile cache, the image, the watermark and
    the compressor.  What its methods change is [TMState]: the cache and the
    number of calls of [rand()] made by the watermark.  The image is an
    [IIPImage] with a [Codec]; the compressor (libjpeg, libpng) is the
    interface [Compressor].  Logging is left out. *)
From stdpp Require Import base gmap strings list numbers.
From Stdlib Require Import ZArith Lia Ascii.
From coqutil Require Import Datatypes.RecordSetters.
From S2P Require Import Prelude CString CFloat RawTile Cache IIPImage Watermark.
Import TriangleBracketNotations.
#[local] Open Scope string_scope.
#[local] Open Scope list_scope.
#[local] Open Scope Z_scope.

(** The virtual methods of Compressor.h.  A strip-based compression threads the
    state of the encoder: [InitCompression] gives the header ([getHeader],
    [getHeaderSize]), [CompressStrip] reads lines from a position of the
    image, [Finish] the last bytes. *)
Class Compressor := {
  getQuality : Z;
  Compress : RawTile -> res (Z * RawTile);
  strip_state : Type;
  InitCompression : RawTile -> Z -> res (bytes * strip_state);
  CompressStrip : bytes -> Z -> strip_state -> res (bytes * strip_state);
  Finish : strip_state -> res bytes;
  getMimeType : string;
  getSuffix : string;
  getCompressionType : CompressionType
}.

Record TMState := mkTMState { tileCache : Cache; rand_calls : Z }.

Section TileManager.
Context (capacity : string -> Z) (tileSize : Z) (junk : Z -> Z) (rand : Z -> Z).
Context {codec : Codec} {compressor : Compressor}.
Context (image : IIPImage) (watermark : option Watermark).

(** [tileCache->insert( t )] *)
Definition cache_insert (t : RawTile) (s : TMState) : res TMState :=
  c ← Cache.insert capacity tileSize junk (tileCache s) t;
  Ok (s <| tileCache := c |>).

Definition tile_bytes (t : RawTile) : res bytes :=
  match RawTile.data t with Some b => Ok b | None => undef "null tile data" end.

(** [crop( RawTile *ttt )]: one scanline at a time from a copy of the padded
    tile. *)
Definition crop (t : RawTile) : res RawTile :=
  let tw := i32 (tile_width image) in
  let th := i32 (tile_height image) in
  let bs := RawTile.bpc t / 8 in
  let len := i32 (tw * th * RawTile.channels t * bs) in
  src ← tile_bytes t;
  buffer ← memcpy (new_bytes junk len) 0 src 0 len;
  let row := i32 (u32 (RawTile.width t * RawTile.channels t * bs)) in
  let stride := i32 (tw * RawTile.channels t * bs) in
  dst ← foldM (fun i dst => memcpy dst (i * row) buffer (i * stride) row)
          (range 0 (RawTile.height t)) src;
  let len := i32 (u32 (RawTile.width t * RawTile.height t * RawTile.channels t * bs)) in
  Ok (t <| RawTile.data := Some dst |> <| RawTile.dataLength := u32 len |> <| RawTile.padded := false |>).

(** Whether a tile is an edge tile that still carries its padding. *)
Definition needs_crop (t : RawTile) : bool :=
  (negb (RawTile.width t =? tile_width image) || negb (RawTile.height t =? tile_height image))
  && RawTile.padded t.

Definition apply_watermark (t : RawTile) (s : TMState) : res (RawTile * TMState) :=
  match watermark with
  | Some w =>
      if Watermark.isSet w then
        let tw := if RawTile.padded t then tile_width image else RawTile.width t in
        let th := if RawTile.padded t then tile_height image else RawTile.height t in
        b ← tile_bytes t;
        '(b, n) ← Watermark.apply rand w b tw th (u32 (RawTile.channels t)) (u32 (RawTile.bpc t)) (rand_calls s);
        Ok (t <| RawTile.data := Some b |>, s <| rand_calls := n |>)
      else Ok (t, s)
  | None => Ok (t, s)
  end.

Definition getNewTile (resolution tile xangle yangle layers : Z) (ctype : CompressionType) (s : TMState)
  : res (RawTile * TMState) :=
  t ← codec_getTile image xangle yangle (u32 resolution) layers (u32 tile);
  ttt ← assign junk (new_RawTile 0 0 0 0 0 0 0 0) t;
  '(ttt, s) ← apply_watermark ttt s;
  ttt ← (if needs_crop ttt then crop ttt else Ok ttt);
  match ctype with
  | UNCOMPRESSED => s ← cache_insert ttt s; Ok (ttt, s)
  | JPEG =>
      ttt ← (if (RawTile.bpc ttt =? 8) && ((RawTile.channels ttt =? 1) || (RawTile.channels ttt =? 3))
             then snd <$> Compress ttt else Ok ttt);
      s ← cache_insert ttt s; Ok (ttt, s)
  | PNG => ttt ← snd <$> Compress ttt; s ← cache_insert ttt s; Ok (ttt, s)
  | DEFLATE => s ← cache_insert ttt s; Ok (ttt, s)
  end.

(** [tileCache->getTile( image->getImagePath(), .. )] *)
Definition cache_lookup (resolution tile xangle yangle : Z) (c : CompressionType) (q : Z) (s : TMState)
  : res (option RawTile * TMState) :=
  '(r, c) ← Cache.getTile (tileCache s) (getImagePath image) resolution tile xangle yangle c q;
  Ok (r, s <| tileCache := c |>).

(** The [switch] that looks for an encoded tile, then for an uncompressed one. *)
Definition find_cached (resolution tile xangle yangle : Z) (ctype : CompressionType) (s : TMState)
  : res (option RawTile * TMState) :=
  match ctype with
  | JPEG | PNG =>
      '(r, s) ← cache_lookup resolution tile xangle yangle ctype getQuality s;
      match r with
      | Some t => Ok (Some t, s)
      | None => cache_lookup resolution tile xangle yangle UNCOMPRESSED 0 s
      end
  | UNCOMPRESSED => cache_lookup resolution tile xangle yangle UNCOMPRESSED 0 s
  | DEFLATE => Ok (None, s)
  end.

Definition getTile (resolution tile xangle yangle layers : Z) (ctype : CompressionType) (s : TMState)
  : res (RawTile * TMState) :=
  '(rawtile, s) ← find_cached resolution tile xangle yangle ctype s;
  match rawtile with
  | None => getNewTile resolution tile xangle yangle layers ctype s
  | Some rawtile =>
      if RawTile.timestamp rawtile <? IIPImage.timestamp image then
        getNewTile resolution tile xangle yangle layers ctype s
      else if bool_decide (compressionType rawtile = UNCOMPRESSED)
              && ((bool_decide (ctype = JPEG) && (RawTile.bpc rawtile =? 8)
                   && ((RawTile.channels rawtile =? 1) || (RawTile.channels rawtile =? 3)))
                  || bool_decide (ctype = PNG)) then
        ttt ← copy junk rawtile;
        ttt ← (if needs_crop ttt then crop ttt else Ok ttt);
        '(_, ttt) ← Compress ttt;
        s ← cache_insert ttt s;
        r ← copy junk ttt;
        Ok (r, s)
      else
        r ← copy junk rawtile;
        Ok (r, s)
  end.

(** ** [getRegion] *)

(** The size of the part of a tile that goes into the region, in one
    direction, and the offset inside the tile: [first] and [last] tile of the
    region, [offset] of its start in the first one. *)
Definition dst_extent (whole : bool) (t first last offset size pos basic src : Z) : res (Z * Z) :=
  if whole then Ok (src, 0)
  else if t =? first then
    Ok (if t <? u32 (last - 1) then u32 (src - offset) else size, offset)
  else if t =? u32 (last - 1) then
    remainder ← umod (u32 (size + pos)) basic;
    Ok (if remainder =? 0 then src else remainder, 0)
  else Ok (src, 0).

(** The bytes per sample the copying loop handles; other depths copy nothing. *)
Definition sample_bytes (bpc : Z) : Z :=
  if bpc =? 8 then 1 else if bpc =? 16 then 2 else if bpc =? 32 then 4 else 0.

(** The loop over the lines of one tile. *)
Definition copy_tile (channels bs width current_width current_height dst_w dst_h xf yf : Z)
    (rawtile : RawTile) (region : bytes) : res bytes :=
  ptr ← tile_bytes rawtile;
  foldM (fun k buf =>
      let buffer_index := u32 (current_width * channels + k * width * channels
                               + current_height * width * channels) in
      let inx := u32 ((k + yf) * RawTile.width rawtile * channels + xf * channels) in
      memcpy buf (buffer_index * bs) ptr (inx * bs) (u32 (dst_w * channels * bs)))
    (range 0 dst_h) region.

Record Strip := mkStrip {
  s_region : bytes;
  s_cur : Z;           (* current_width *)
  s_dst_w : Z;         (* dst_tile_width *)
  s_dst_h : Z;         (* dst_tile_height *)
  s_state : TMState
}.

(** The body of the loop over the tiles [j] of the strip [i]. *)
Definition region_tile (res0 seq ang layers x y width height : Z) (whole : bool)
    (startx endx starty endy xoffset yoffset ntlx channels bs current_height i j : Z) (st : Strip)
  : res Strip :=
  '(rawtile, s) ← getTile (i32 res0) (i32 (u32 (i * ntlx + j))) seq ang layers UNCOMPRESSED (s_state st);
  '(dst_w, xf) ← dst_extent whole j startx endx xoffset width x (tile_width image) (RawTile.width rawtile);
  '(dst_h, yf) ← dst_extent whole i starty endy yoffset height y (tile_height image) (RawTile.height rawtile);
  buf ← (if bs =? 0 then Ok (s_region st)
         else copy_tile channels bs width (s_cur st) current_height dst_w dst_h xf yf rawtile (s_region st));
  Ok (mkStrip buf (u32 (s_cur st + dst_w)) dst_w dst_h s).

Definition getRegion (res0 seq ang layers x y width height : Z) (s : TMState) : res (RawTile * TMState) :=
  if codec_regionDecoding then
    t ← codec_getRegion image seq ang res0 layers (i32 x) (i32 y) width height; Ok (t, s)
  else
    let tw := tile_width image in
    let th := tile_height image in
    let num_res := i32 (numResolutions image) in
    im_width ← rd (image_widths image) (u32 (u32 (num_res - res0) - 1));
    im_height ← rd (image_heights image) (u32 (u32 (num_res - res0) - 1));
    rem_x ← umod im_width tw;
    rem_y ← umod im_height th;
    let ntlx := u32 (im_width / tw + (if rem_x =? 0 then 0 else 1)) in
    let ntly := u32 (im_height / th + (if rem_y =? 0 then 0 else 1)) in
    let whole := (x =? 0) && (y =? 0) && (width =? im_width) && (height =? im_height) in
    '(startx, endx, starty, endy, xoffset, yoffset) ←
      (if negb whole then
         endx ← to_u32 (fceil b32 (fdiv b32 (of_Z b32 (u32 (width + x))) (of_Z b32 tw)));
         endy ← to_u32 (fceil b32 (fdiv b32 (of_Z b32 (u32 (height + y))) (of_Z b32 th)));
         Ok (x / tw, endx, y / th, endy, x mod tw, y mod th)
       else Ok (0, ntlx, 0, ntly, 0, 0));
    let channels := getNumChannels image in
    let bpc := if getNumBitsPerPixel image =? 1 then 8 else getNumBitsPerPixel image in
    let sampleType := getSampleType image in
    let bs := sample_bytes bpc in
    let region := new_RawTile 0 (i32 res0) seq ang (i32 width) (i32 height) (i32 channels) (i32 bpc) in
    let region := region <| RawTile.dataLength := u32 (width * height * channels * (bpc / 8)) |>
                         <| RawTile.sampleType := sampleType |> in
    let buf := new_bytes junk (u32 (width * height * channels) * bs) in
    '(buf, _, _, _, s) ← foldM (fun i '(buf, current_height, dst_w, dst_h, s) =>
        st ← foldM (region_tile res0 seq ang layers x y width height whole
                      startx endx starty endy xoffset yoffset ntlx channels bs current_height i)
               (range startx endx) (mkStrip buf 0 dst_w dst_h s);
        Ok (s_region st, u32 (current_height + s_dst_h st), s_dst_w st, s_dst_h st, s_state st))
      (range starty endy) (buf, 0, tw, th, s);
    Ok (region <| RawTile.data := (if bs =? 0 then None else Some buf) |>, s).
End TileManager.
