(* ===== verification/Region.v ===== *)
(** * Correctness of the tile manager

    Against an image source that decodes tiles of an image [img] ([source_ok],
    the contract a codec promises), the tile manager returns tiles and regions
    that show that image, byte for byte, whatever the cache holds from earlier
    requests. *)
From stdpp Require Import base gmap strings list numbers.
From Stdlib Require Import ZArith Lia Ascii.
From coqutil Require Import Datatypes.RecordSetters.
From S2P Require Import Prelude CString CFloat RawTile Cache IIPImage Watermark TileManager.
Import TriangleBracketNotations.
#[local] Open Scope string_scope.
#[local] Open Scope list_scope.
#[local] Open Scope Z_scope.

Section Region.
Context (capacity : string -> Z) (tileSize : Z) (junk : Z -> Z) (rand : Z -> Z).
Context {codec : Codec} {compressor : Compressor}.
Context (image : IIPImage) (seq ang layers : Z).

(** The image: level, column, row and byte within the pixel. *)
Context (img : Z -> Z -> Z -> Z -> Z).

(** Bytes per pixel. *)
Definition pixel_bytes : Z := channels image * (IIPImage.bpc image / 8).

(** Column and row of a tile, its size and its first pixel, in a level of size
    [w] x [h]. *)
Definition tile_col (w n : Z) : Z := n mod ntiles w (tile_width image).
Definition tile_row (w n : Z) : Z := n / ntiles w (tile_width image).
Definition tile_w (w n : Z) : Z :=
  Z.min (tile_width image) (w - tile_col w n * tile_width image).
Definition tile_h (w h n : Z) : Z :=
  Z.min (tile_height image) (h - tile_row w n * tile_height image).

(** An array of lines of [stride] pixels whose first [lines] lines hold, in
    their first [cols] pixels, the part of level [r] that starts at (x0, y0). *)
Definition holds (b : bytes) (stride lines cols r x0 y0 : Z) : Prop :=
  forall k x c, 0 <= k < lines -> 0 <= x < cols -> 0 <= c < pixel_bytes ->
    b !! Z.to_nat ((k * stride + x) * pixel_bytes + c) = Some (img r (x0 + x) (y0 + k) c).

Record identity (r n : Z) (t : RawTile) : Prop := {
  id_num : RawTile.tileNum t = n;
  id_res : RawTile.resolution t = r;
  id_h : RawTile.hSequence t = seq;
  id_v : RawTile.vSequence t = ang;
  id_comp : RawTile.compressionType t = UNCOMPRESSED;
  id_qual : RawTile.quality t = 0;
  id_file : RawTile.filename t = imagePath image
}.

(** A tile as the rest of the server uses it: its lines follow each other
    without padding. *)
Record shows (r w h n : Z) (t : RawTile) : Prop := {
  sh_id : identity r n t;
  sh_w : RawTile.width t = tile_w w n;
  sh_h : RawTile.height t = tile_h w h n;
  sh_len : tile_w w n * tile_h w h n * pixel_bytes <= RawTile.dataLength t < 2 ^ 31;
  sh_ok : tile_ok t;
  sh_data : exists b, RawTile.data t = Some b /\
    holds b (tile_w w n) (tile_h w h n) (tile_w w n) r
          (tile_col w n * tile_width image) (tile_row w n * tile_height image)
}.

(** A tile as a codec may return it: padded to the full tile size, or not. *)
Record decoded (r w h n : Z) (t : RawTile) : Prop := {
  de_id : identity r n t;
  de_w : RawTile.width t = tile_w w n;
  de_h : RawTile.height t = tile_h w h n;
  de_ch : RawTile.channels t = channels image;
  de_bpc : RawTile.bpc t = IIPImage.bpc image;
  de_time : RawTile.timestamp t = IIPImage.timestamp image;
  de_data : exists b, RawTile.data t = Some b /\ RawTile.dataLength t = blen b /\
    let stride := if RawTile.padded t then tile_width image else tile_w w n in
    let lines := if RawTile.padded t then tile_height image else tile_h w h n in
    blen b = stride * lines * pixel_bytes /\
    holds b stride (tile_h w h n) (tile_w w n) r
          (tile_col w n * tile_width image) (tile_row w n * tile_height image)
}.

(** What the tile manager relies on: sizes that fit the integer types, and a
    codec that decodes every tile of every level. *)
Record source_ok : Prop := {
  so_tw : 0 < tile_width image < 2 ^ 24;
  so_th : 0 < tile_height image < 2 ^ 24;
  so_ch : 0 < channels image < 2 ^ 16;
  so_bpc : IIPImage.bpc image = 8 \/ IIPImage.bpc image = 16 \/ IIPImage.bpc image = 32;
  so_res : 0 < numResolutions image < 2 ^ 31;
  so_name : nameable (imagePath image);
  so_seq : is_i32 seq;
  so_ang : is_i32 ang;
  so_tile_size : tile_width image * tile_height image * pixel_bytes < 2 ^ 31;
  so_levels : forall r w h, 0 <= r < numResolutions image -> level_width image r = Ok w -> level_height image r = Ok h ->
    0 < w < 2 ^ 24 /\ 0 < h < 2 ^ 24 /\
    ntiles w (tile_width image) * ntiles h (tile_height image) < 2 ^ 31;
  so_tiles : forall r w h n, 0 <= r < numResolutions image ->
    level_width image r = Ok w -> level_height image r = Ok h ->
    0 <= n < ntiles w (tile_width image) * ntiles h (tile_height image) ->
    exists t, codec_getTile image seq ang r layers n = Ok t /\ decoded r w h n t
}.

(** The strings of the server are far from the largest. *)
Definition small_strings : Prop := (forall s, 0 <= capacity s < 2 ^ 60) /\ 0 <= tileSize < 2 ^ 31.

Context (Hsrc : source_ok) (Hcap : small_strings).

(** ** The geometry of tiles *)

Section Level.
Context (r w h n : Z).
Context (Hr : 0 <= r < numResolutions image).
Context (Hw : level_width image r = Ok w) (Hh : level_height image r = Ok h).
Context (Hn : 0 <= n < ntiles w (tile_width image) * ntiles h (tile_height image)).

Lemma pixel_bytes_pos : 0 < pixel_bytes.
Proof.
  unfold pixel_bytes. pose proof (so_ch Hsrc). destruct (so_bpc Hsrc) as [-> | [-> | ->]]; (change (8 / 8) with 1 || change (16 / 8) with 2 || change (32 / 8) with 4); lia.
Qed.

Lemma tile_geometry :
  0 < tile_w w n <= tile_width image /\ 0 < tile_h w h n <= tile_height image
  /\ 0 <= tile_col w n < ntiles w (tile_width image)
  /\ 0 <= tile_row w n < ntiles h (tile_height image).
Proof.
  pose proof (so_tw Hsrc) as Tw. pose proof (so_th Hsrc) as Th.
  destruct (so_levels Hsrc r w h Hr Hw Hh) as (Lw & Lh & _).
  pose proof (ntiles_pos w (tile_width image) ltac:(lia) ltac:(lia)) as Pw.
  pose proof (ntiles_pos h (tile_height image) ltac:(lia) ltac:(lia)) as Ph.
  assert (Hc : 0 <= tile_col w n < ntiles w (tile_width image)) by (apply Z.mod_pos_bound; lia).
  assert (Hrow : 0 <= tile_row w n < ntiles h (tile_height image)).
  { split; [apply Z.div_pos; lia|]. apply Z.div_lt_upper_bound; lia. }
  destruct (ntiles_bounds w (tile_width image)) as [Bw|Bw]; [lia|lia| |lia].
  destruct (ntiles_bounds h (tile_height image)) as [Bh|Bh]; [lia|lia| |lia].
  unfold tile_w, tile_h. repeat split; try lia; nia.
Qed.

Lemma tile_bytes_small : tile_w w n * tile_h w h n * pixel_bytes <= tile_width image * tile_height image * pixel_bytes.
Proof.
  destruct tile_geometry as (A & B & _ & _). pose proof pixel_bytes_pos.
  assert (tile_w w n * tile_h w h n <= tile_width image * tile_height image) by nia. nia.
Qed.
End Level.

(** A whole number of cells. *)
Lemma copy_alloc_pixels t k :
  RawTile.bpc t = IIPImage.bpc image -> RawTile.dataLength t = k * pixel_bytes ->
  copy_alloc t = RawTile.dataLength t.
Proof.
  intros Hb Hl. unfold copy_alloc. rewrite Hb, Hl. unfold pixel_bytes.
  destruct (so_bpc Hsrc) as [-> | [-> | ->]].
  - reflexivity.
  - change (16 =? 32) with false. change (16 =? 16) with true. change (16 / 8) with 2. cbv iota.
    replace (k * (channels image * 2)) with (k * channels image * 2) by ring.
    rewrite Z.div_mul by lia. lia.
  - change (32 =? 32) with true. change (32 / 8) with 4. cbv iota.
    replace (k * (channels image * 4)) with (k * channels image * 4) by ring.
    rewrite Z.div_mul by lia. lia.
Qed.

(** ** Copies and crops *)

Lemma holds_take b m stride lines cols r x0 y0 :
  holds b stride lines cols r x0 y0 -> 0 <= cols <= stride ->
  stride * lines * pixel_bytes <= m ->
  holds (take (Z.to_nat m) b) stride lines cols r x0 y0.
Proof.
  intros H Hs Hm k x c Hk Hx Hc. rewrite lookup_take_lt; [apply H; assumption|].
  assert (0 <= k * stride + x < lines * stride) by (apply row_major_bound; lia). nia.
Qed.

Lemma shows_copy r w h n t t' :
  shows r w h n t -> 0 <= tile_w w n -> copy junk t = Ok t' -> shows r w h n t'.
Proof.
  intros [[] Sw Sh Sl Sok (b & Sb & Sd)] Hw0 E.
  destruct (copy_ok junk t Sok) as (m & E'). rewrite E' in E. injection E as <-. rewrite Sb.
  constructor; cbn [RawTile.dataLength RawTile.width RawTile.height RawTile.data set_data]; auto.
  - constructor; cbn; auto.
  - apply tile_ok_set_data; assumption.
  - eexists. split; [reflexivity|]. apply holds_take; [exact Sd|lia|lia].
Qed.

(** The bytes after [crop]: line [i] of the tile starts at [i * row]. *)
Lemma crop_lines src row stride lines :
  0 < row <= stride -> 0 <= lines -> lines * stride <= blen src ->
  exists dst, foldM (fun i dst => memcpy dst (i * row) src (i * stride) row) (range 0 lines) src = Ok dst
    /\ blen dst = blen src
    /\ forall i x, 0 <= i < lines -> 0 <= x < row ->
         dst !! Z.to_nat (i * row + x) = src !! Z.to_nat (i * stride + x).
Proof.
  intros Hrow Hl Hlen.
  destruct (foldM_range (fun k dst => blen dst = blen src /\
      forall i x, 0 <= i < k -> 0 <= x < row ->
         dst !! Z.to_nat (i * row + x) = src !! Z.to_nat (i * stride + x))
    (fun i dst => memcpy dst (i * row) src (i * stride) row) 0 lines src) as (dst & E & H1 & H2).
  - lia.
  - split; [reflexivity|]. intros; lia.
  - intros i d Hi [Hd1 Hd2].
    destruct (memcpy_in_range d (i * row) src (i * stride) row) as (d' & E & Hl' & Hb); try nia.
    exists d'. split; [exact E|]. split; [unfold blen in *; lia|].
    intros i' x Hi' Hx. rewrite Hb by nia.
    destruct (Z.eq_dec i' i) as [->|Hne].
    + rewrite (proj2 (Z.leb_le _ _)), (proj2 (Z.ltb_lt _ _)) by lia. cbn [andb]. f_equal. f_equal. lia.
    + destruct (Z.leb_spec (i * row) (i' * row + x)); cbn [andb]; [nia|]. apply Hd2; lia.
  - exists dst. auto.
Qed.

Lemma crop_shows r w h n t :
  0 <= r < numResolutions image -> level_width image r = Ok w -> level_height image r = Ok h ->
  0 <= n < ntiles w (tile_width image) * ntiles h (tile_height image) ->
  decoded r w h n t -> RawTile.padded t = true ->
  exists t', crop junk image t = Ok t' /\ shows r w h n t'
    /\ RawTile.timestamp t' = RawTile.timestamp t.
Proof.
  intros Hr Hw Hh Hn [Did Dw Dh Dch Dbpc _ (b & Db & Dl & Dlen & Dd)] Hp. rewrite Hp in *.
  destruct (tile_geometry r w h n Hr Hw Hh Hn) as (Gw & Gh & _ & _).
  pose proof (tile_bytes_small r w h n Hr Hw Hh Hn) as Hsmall.
  pose proof pixel_bytes_pos as Pp. pose proof (so_tile_size Hsrc) as Ts.
  pose proof (so_tw Hsrc) as Tw. pose proof (so_th Hsrc) as Th.
  assert (Hrow : tile_w w n * pixel_bytes <= tile_width image * pixel_bytes) by nia.
  assert (Htp : tile_width image * pixel_bytes <= tile_width image * tile_height image * pixel_bytes) by nia.
  unfold crop, tile_bytes. rewrite Db, bind_ret, Dch, Dbpc, Dw, Dh.
  rewrite (i32_small (tile_width image)), (i32_small (tile_height image)) by lia.
  replace (tile_width image * tile_height image * channels image * (IIPImage.bpc image / 8))
    with (tile_width image * tile_height image * pixel_bytes) by (unfold pixel_bytes; ring).
  replace (tile_w w n * channels image * (IIPImage.bpc image / 8))
    with (tile_w w n * pixel_bytes) by (unfold pixel_bytes; ring).
  replace (tile_width image * channels image * (IIPImage.bpc image / 8))
    with (tile_width image * pixel_bytes) by (unfold pixel_bytes; ring).
  replace (tile_w w n * tile_h w h n * channels image * (IIPImage.bpc image / 8))
    with (tile_w w n * tile_h w h n * pixel_bytes) by (unfold pixel_bytes; ring).
  assert (P1 : 0 < tile_w w n * pixel_bytes) by nia.
  assert (P2 : 0 < tile_w w n * tile_h w h n * pixel_bytes) by nia.
  rewrite (u32_small (tile_w w n * pixel_bytes)), (u32_small (tile_w w n * tile_h w h n * pixel_bytes)) by lia.
  rewrite !(i32_small (_ * pixel_bytes)) by lia.
  rewrite <- Dlen. rewrite memcpy_all by (apply blen_new_bytes; lia). rewrite bind_ret.
  destruct (crop_lines b (tile_w w n * pixel_bytes) (tile_width image * pixel_bytes) (tile_h w h n))
    as (dst & E & Hdl & Hd); [nia|lia|rewrite Dlen; nia|].
  rewrite E, bind_ret. eexists. split; [reflexivity|].
  assert (Hlen : 0 <= tile_w w n * tile_h w h n * pixel_bytes <= blen dst) by (rewrite Hdl, Dlen; lia).
  split; [|reflexivity].
  constructor; cbn [RawTile.dataLength RawTile.width RawTile.height RawTile.data]; auto.
  - destruct Did. constructor; assumption.
  - change (tile_w w n * tile_h w h n * pixel_bytes <= u32 (tile_w w n * tile_h w h n * pixel_bytes) < 2 ^ 31).
    rewrite u32_small by lia. lia.
  - split; [apply u32_range|]. split.
    + apply (copy_alloc_pixels _ (tile_w w n * tile_h w h n)); [exact Dbpc|].
      change (u32 (tile_w w n * tile_h w h n * pixel_bytes) = tile_w w n * tile_h w h n * pixel_bytes).
      apply u32_small. lia.
    + change (u32 (tile_w w n * tile_h w h n * pixel_bytes) <= blen dst). rewrite u32_small by lia. lia.
  - exists dst. split; [reflexivity|]. intros k x c Hk Hx Hc.
    replace ((k * tile_w w n + x) * pixel_bytes + c)
      with (k * (tile_w w n * pixel_bytes) + (x * pixel_bytes + c)) by ring.
    rewrite Hd by nia.
    replace (k * (tile_width image * pixel_bytes) + (x * pixel_bytes + c))
      with ((k * tile_width image + x) * pixel_bytes + c) by ring.
    apply Dd; assumption.
Qed.

(** ** Tiles the codec decodes *)

Lemma decoded_tile_ok r w h n t : decoded r w h n t -> tile_ok t.
Proof.
  intros [Did Dw Dh Dch Dbpc _ (b & Db & Dl & Dlen & _)]. split; [rewrite Dl; unfold blen; lia|].
  split; [|rewrite Db; lia]. eapply copy_alloc_pixels; [exact Dbpc|]. rewrite Dl. exact Dlen.
Qed.

(** [ttt = image->getTile( .. )] *)
Lemma decoded_assign r w h n t t0 :
  decoded r w h n t -> exists t', assign junk t0 t = Ok t' /\ decoded r w h n t'.
Proof.
  intros D. pose proof (decoded_tile_ok r w h n t D) as Ht.
  destruct D as [[] Dw Dh Dch Dbpc Dt (b & Db & Dl & Dlen & Dd)].
  destruct (copy_ok junk t Ht) as (m & E). unfold assign. rewrite E, Db. eexists. split; [reflexivity|].
  rewrite Dl. rewrite take_ge by (unfold blen; lia).
  constructor; cbn [set_data RawTile.width RawTile.height RawTile.channels RawTile.bpc RawTile.timestamp]; auto.
  - constructor; assumption.
  - exists b. auto.
Qed.

Lemma decoded_shows r w h n t :
  0 <= r < numResolutions image -> level_width image r = Ok w -> level_height image r = Ok h ->
  0 <= n < ntiles w (tile_width image) * ntiles h (tile_height image) ->
  decoded r w h n t ->
  exists t', (if needs_crop image t then crop junk image t else Ok t) = Ok t'
    /\ shows r w h n t' /\ RawTile.timestamp t' = IIPImage.timestamp image.
Proof.
  intros Hr Hw Hh Hn D. unfold needs_crop.
  destruct (tile_geometry r w h n Hr Hw Hh Hn) as (Gw & Gh & _ & _).
  pose proof (tile_bytes_small r w h n Hr Hw Hh Hn) as Hsmall. pose proof (so_tile_size Hsrc) as Ts.
  destruct (RawTile.padded t) eqn:Hp.
  - rewrite andb_true_r. pose proof (decoded_tile_ok r w h n t D) as Ht.
    destruct (negb (RawTile.width t =? tile_width image) || negb (RawTile.height t =? tile_height image)) eqn:Eq.
    + destruct (crop_shows r w h n t Hr Hw Hh Hn D Hp) as (t' & E & S & T).
      exists t'. split_and!; [exact E|exact S|]. rewrite T. apply (de_time _ _ _ _ _ D).
    + apply orb_false_elim in Eq as [Ew%negb_false_iff%Z.eqb_eq Eh%negb_false_iff%Z.eqb_eq].
      exists t. split; [reflexivity|]. split; [|apply (de_time _ _ _ _ _ D)].
      destruct D as [Did Dw Dh _ _ _ (b & Db & Dl & Dlen & Dd)]. rewrite Hp in *.
      rewrite Dw in Ew. rewrite Dh in Eh.
      constructor; auto; [rewrite Dl, Dlen, Ew, Eh; lia|]. exists b. split; [assumption|].
      rewrite Ew at 1. exact Dd.
  - rewrite andb_false_r. exists t. split; [reflexivity|]. split; [|apply (de_time _ _ _ _ _ D)].
    pose proof (decoded_tile_ok r w h n t D) as Ht.
    destruct D as [Did Dw Dh _ _ _ (b & Db & Dl & Dlen & Dd)]. rewrite Hp in *.
    constructor; auto; [rewrite Dl, Dlen; lia|]. exists b. split; assumption.
Qed.

(** ** The cache *)

(** An entry of the cache: short names, and if it is a tile of this image that is
    not older than the image, it shows the image. *)
Definition entry_ok (t : RawTile) : Prop :=
  nameable (RawTile.filename t)
  /\ Forall is_i32 [RawTile.resolution t; RawTile.tileNum t; RawTile.hSequence t; RawTile.vSequence t; RawTile.quality t]
  /\ forall r w h n, 0 <= r < numResolutions image ->
       level_width image r = Ok w -> level_height image r = Ok h ->
       0 <= n < ntiles w (tile_width image) * ntiles h (tile_height image) ->
       identity r n t -> IIPImage.timestamp image <= RawTile.timestamp t -> shows r w h n t.

Record tm_inv (s : TMState) : Prop := {
  ti_wf : wf capacity tileSize (tileCache s);
  ti_max : 0 <= maxSize (tileCache s);
  ti_entries : forall k t, (k, t) ∈ abs (tileCache s) -> entry_ok t
}.

Lemma shows_insertable r w h n t : shows r w h n t -> insertable capacity tileSize t.
Proof.
  intros S. split; [apply S|]. intros k. unfold entry_size. destruct Hcap as [Hc Ht].
  pose proof (Hc k). pose proof (Hc (RawTile.filename t)). pose proof (sh_len _ _ _ _ _ S).
  pose proof (sh_ok _ _ _ _ _ S) as [Hlen0 _]. rewrite u64_small by lia. lia.
Qed.

Lemma shows_entry_ok r w h n t :
  0 <= r < numResolutions image -> level_width image r = Ok w -> level_height image r = Ok h ->
  0 <= n < ntiles w (tile_width image) * ntiles h (tile_height image) ->
  shows r w h n t -> entry_ok t.
Proof.
  intros Hr Hw Hh Hn S. pose proof (sh_id _ _ _ _ _ S) as [I1 I2 I3 I4 I5 I6 I7].
  destruct (so_levels Hsrc r w h Hr Hw Hh) as (_ & _ & Hnt). pose proof (so_res Hsrc).
  split; [rewrite I7; apply (so_name Hsrc)|]. split.
  - rewrite I1, I2, I3, I4, I6. pose proof (so_seq Hsrc). pose proof (so_ang Hsrc).
    forall_elements ltac:(assumption || (unfold is_i32; lia)).
  - intros r' w' h' n' _ Hw' Hh' _ [J1 J2 _ _ _ _ _] _.
    assert (r' = r) as -> by congruence. assert (n' = n) as -> by congruence.
    assert (w' = w) as -> by congruence. assert (h' = h) as -> by congruence. exact S.
Qed.

Lemma insert_inv s r w h n t :
  tm_inv s -> 0 <= r < numResolutions image -> level_width image r = Ok w -> level_height image r = Ok h ->
  0 <= n < ntiles w (tile_width image) * ntiles h (tile_height image) ->
  shows r w h n t ->
  exists s', cache_insert capacity tileSize junk t s = Ok s' /\ tm_inv s'.
Proof.
  intros [W M En] Hr Hw Hh Hn S.
  destruct (insert_spec capacity tileSize junk (tileCache s) t W M (shows_insertable _ _ _ _ _ S))
    as (c' & t' & Hc & E & W' & M' & A).
  unfold cache_insert. rewrite E, bind_ret. eexists. split; [reflexivity|].
  constructor; [exact W'|change (0 <= maxSize c'); lia|].
  intros k u Hu. change (abs (tileCache (s <| tileCache := c' |>))) with (abs c') in Hu. rewrite A in Hu.
  pose proof (spec_op_incl capacity tileSize junk (maxSize (tileCache s)) (abs (tileCache s)) (OpInsert t) (k, u)) as Hi.
  cbn [spec_op snd] in Hi. unfold stored in Hi. rewrite Hc in Hi.
  destruct (Hi Hu) as [Ho|(x & Hx & Ex)]; [eapply En, Ho|].
  apply list_elem_of_singleton in Hx as [= ->]. injection Ex as -> ->. unfold stored. rewrite Hc.
  destruct (tile_geometry r w h n Hr Hw Hh Hn) as (Gw & _).
  eapply shows_entry_ok; eauto. eapply shows_copy; eauto. lia.
Qed.

(** What a lookup gives. *)
Lemma lookup_inv s r n :
  tm_inv s -> is_i32 r -> is_i32 n ->
  exists o s', cache_lookup image r n seq ang UNCOMPRESSED 0 s = Ok (o, s') /\ tm_inv s' /\
    match o with Some t => identity r n t /\ entry_ok t | None => True end.
Proof.
  intros [W M En] Hr Hn. unfold cache_lookup, getImagePath.
  destruct (decide (maxSize (tileCache s) = 0)) as [Hz|Hz].
  { unfold Cache.getTile. rewrite Hz. cbn. eexists None, _. split; [reflexivity|].
    split; [|exact I]. destruct s as [c q]. constructor; assumption. }
  destruct (getTile_spec capacity tileSize junk (tileCache s) (imagePath image) r n seq ang UNCOMPRESSED 0 W Hz)
    as (c' & E & W' & M' & A).
  rewrite E, bind_ret. eexists _, _. split; [reflexivity|]. split.
  - constructor; [exact W'|change (0 <= maxSize c'); lia|]. intros k t Ht. change (tileCache (s <| tileCache := c' |>)) with c' in Ht.
    rewrite A in Ht. unfold spec_get in Ht.
    destruct (lookup_key _ (abs (tileCache s))) as [u|] eqn:El; cbn [snd] in Ht; [|eapply En, Ht].
    apply elem_of_cons in Ht as [[= -> ->]|Ht]; [eapply En, lookup_key_elem, El|].
    eapply En, (without_incl capacity tileSize junk _ _ _ Ht).
  - unfold spec_get. destruct (lookup_key _ (abs (tileCache s))) as [t|] eqn:El; [|exact I]. cbn [fst].
    apply lookup_key_elem in El. pose proof (En _ _ El) as Et. split; [|exact Et].
    unfold abs in El. apply list_elem_of_fmap in El as (nd & [= Ek ->] & Hnd).
    destruct W as [Hl _]. rewrite (wf_key _ _ _ Hl nd Hnd) in Ek. unfold tile_key in Ek.
    destruct Et as (Nt & It & _). symmetry in Ek.
    apply getIndex_inj_lemma in Ek as (I1 & I2 & I3 & I4 & I5 & I6 & I7);
      [constructor; congruence|exact Nt|apply (so_name Hsrc)|].
    repeat (apply list.Forall_cons in It as [? It]). pose proof (so_seq Hsrc). pose proof (so_ang Hsrc).
    forall_elements ltac:(assumption || (unfold is_i32; lia)).
Qed.

(** ** [getTile] *)

Lemma getNewTile_shows s r w h n :
  tm_inv s -> 0 <= r < numResolutions image -> level_width image r = Ok w -> level_height image r = Ok h ->
  0 <= n < ntiles w (tile_width image) * ntiles h (tile_height image) ->
  exists t s', getNewTile capacity tileSize junk rand image None r n seq ang layers UNCOMPRESSED s = Ok (t, s')
    /\ shows r w h n t /\ tm_inv s'.
Proof.
  intros Hs Hr Hw Hh Hn. pose proof (so_res Hsrc).
  destruct (so_levels Hsrc r w h Hr Hw Hh) as (_ & _ & Hnt).
  destruct (so_tiles Hsrc r w h n Hr Hw Hh Hn) as (t0 & E0 & D0).
  unfold getNewTile. rewrite !u32_small, E0, bind_ret by lia.
  destruct (decoded_assign r w h n t0 (new_RawTile 0 0 0 0 0 0 0 0) D0) as (t1 & -> & D1).
  rewrite bind_ret. unfold apply_watermark. rewrite bind_ret.
  destruct (decoded_shows r w h n t1 Hr Hw Hh Hn D1) as (t2 & -> & S2 & _). rewrite bind_ret.
  destruct (insert_inv s r w h n t2 Hs Hr Hw Hh Hn S2) as (s' & -> & Hs'). rewrite bind_ret.
  exists t2, s'. auto.
Qed.

Lemma getTile_shows s r w h n :
  tm_inv s -> 0 <= r < numResolutions image -> level_width image r = Ok w -> level_height image r = Ok h ->
  0 <= n < ntiles w (tile_width image) * ntiles h (tile_height image) ->
  exists t s', getTile capacity tileSize junk rand image None r n seq ang layers UNCOMPRESSED s = Ok (t, s')
    /\ shows r w h n t /\ tm_inv s'.
Proof.
  intros Hs Hr Hw Hh Hn. pose proof (so_res Hsrc).
  destruct (so_levels Hsrc r w h Hr Hw Hh) as (_ & _ & Hnt).
  unfold getTile, find_cached.
  destruct (lookup_inv s r n Hs) as (o & s1 & -> & Hs1 & Ho); [unfold is_i32; lia..|]. rewrite bind_ret.
  destruct o as [t|]; [|apply getNewTile_shows; assumption].
  destruct Ho as [Hid (_ & _ & Hsh)].
  destruct (Z.ltb_spec (RawTile.timestamp t) (IIPImage.timestamp image)) as [Hlt|Hge];
    [apply getNewTile_shows; assumption|].
  rewrite (id_comp _ _ _ Hid), bool_decide_true by reflexivity.
  rewrite !bool_decide_false by discriminate. cbn [andb orb].
  pose proof (Hsh r w h n Hr Hw Hh Hn Hid Hge) as S.
  destruct (copy_ok junk t (sh_ok _ _ _ _ _ S)) as (m & E).
  destruct (tile_geometry r w h n Hr Hw Hh Hn) as (Gw & _).
  assert (S' : shows r w h n (set_data t (Some match data t with
                 | Some b => take (Z.to_nat (dataLength t)) b | None => [] end) m))
    by (eapply shows_copy; [exact S|lia|exact E]).
  rewrite E, bind_ret. eauto 6.
Qed.

(** ** Regions *)

(** Where, in a region of [size] pixels from [pos], the tile [t] begins. *)
Definition edge (pos size basic t : Z) : Z := Z.max pos (Z.min (t * basic) (pos + size)) - pos.

Definition first_tile (pos basic : Z) : Z := pos / basic.
Definition last_tile (pos size basic : Z) : Z := (size + pos + basic - 1) / basic.

Lemma tile_range pos size basic dim :
  0 < basic -> 0 <= pos -> 0 < size -> pos + size <= dim ->
  0 <= first_tile pos basic < last_tile pos size basic /\ last_tile pos size basic <= ntiles dim basic
  /\ edge pos size basic (first_tile pos basic) = 0 /\ edge pos size basic (last_tile pos size basic) = size
  /\ first_tile pos basic * basic <= pos < (first_tile pos basic + 1) * basic
  /\ (last_tile pos size basic - 1) * basic < pos + size <= last_tile pos size basic * basic.
Proof.
  intros Hb Hp Hs Hd. unfold first_tile, last_tile, edge. rewrite ntiles_ceil by lia.
  pose proof (Z.div_mod pos basic ltac:(lia)). pose proof (Z.mod_pos_bound pos basic ltac:(lia)).
  pose proof (Z.div_mod (size + pos + basic - 1) basic ltac:(lia)).
  pose proof (Z.mod_pos_bound (size + pos + basic - 1) basic ltac:(lia)).
  assert ((size + pos + basic - 1) / basic <= (dim + basic - 1) / basic) by (apply Z.div_le_mono; lia).
  assert (0 <= pos / basic) by (apply Z.div_pos; lia). split_and!; nia.
Qed.

(** The extents the loop computes for a tile are those between its edges. *)
Lemma dst_extent_spec whole t pos size basic dim :
  0 < basic < 2 ^ 24 -> 0 <= pos -> 0 < size -> pos + size <= dim < 2 ^ 24 ->
  (whole = true -> pos = 0 /\ size = dim) ->
  first_tile pos basic <= t < last_tile pos size basic ->
  dst_extent whole t (first_tile pos basic) (last_tile pos size basic) (pos mod basic) size pos basic
             (Z.min basic (dim - t * basic))
  = Ok (edge pos size basic (t + 1) - edge pos size basic t, pos + edge pos size basic t - t * basic)
  /\ 0 < edge pos size basic (t + 1) - edge pos size basic t
  /\ 0 <= pos + edge pos size basic t - t * basic
  /\ pos + edge pos size basic (t + 1) - t * basic <= Z.min basic (dim - t * basic).
Proof.
  intros Hb Hp Hs Hd Hwh Ht.
  destruct (tile_range pos size basic dim) as (Hf & Hl & _ & _ & Hfb & Hlb); try lia.
  assert (Hmod : pos mod basic = pos - first_tile pos basic * basic)
    by (unfold first_tile; pose proof (Z.div_mod pos basic ltac:(lia)); lia).
  set (f := first_tile pos basic) in *. set (l := last_tile pos size basic) in *.
  assert (Ht1 : t * basic < pos + size) by nia.
  assert (Ht2 : pos < (t + 1) * basic) by nia.
  assert (Hsmall : l < 2 ^ 24 + 1) by nia.
  assert (Ht0 : 0 <= t * basic) by nia.
  unfold edge. split; [|lia]. unfold dst_extent.
  destruct whole.
  { destruct (Hwh eq_refl) as [-> ->]. f_equal. f_equal; lia. }
  rewrite (u32_small (l - 1)) by lia. rewrite (u32_small (size + pos)) by lia.
  destruct (Z.eqb_spec t f) as [->|Hne].
  - rewrite Hmod. destruct (Z.ltb_spec f (l - 1)).
    + assert ((f + 1) * basic <= (l - 1) * basic) by nia.
      rewrite u32_small by lia. f_equal. f_equal; lia.
    + assert (f = l - 1) by lia. f_equal. f_equal; nia.
  - assert (pos <= t * basic) by nia.
    destruct (Z.eqb_spec t (l - 1)) as [->|Hne'].
    + rewrite umod_ok, bind_ret by lia.
      destruct (Z.eqb_spec ((size + pos) mod basic) 0) as [Hr|Hr].
      * apply Z.mod_divide in Hr as [q Hq]; [|lia].
        assert (q = l) by nia. subst q. f_equal. f_equal; lia.
      * assert (pos + size <> l * basic).
        { intros E. apply Hr. rewrite Z.add_comm, E. apply Z.mod_mul. lia. }
        assert ((size + pos) mod basic = size + pos - (l - 1) * basic).
        { symmetry. apply (Z.mod_unique_pos _ _ (l - 1)); lia. }
        f_equal. f_equal; lia.
    + assert ((t + 1) * basic <= (l - 1) * basic) by nia. f_equal. f_equal; lia.
Qed.

Lemma level_small r w h :
  0 <= r < numResolutions image -> level_width image r = Ok w -> level_height image r = Ok h ->
  0 < w < 2 ^ 24 /\ 0 < h < 2 ^ 24
  /\ 0 < ntiles w (tile_width image) /\ 0 < ntiles h (tile_height image)
  /\ ntiles w (tile_width image) * ntiles h (tile_height image) < 2 ^ 31.
Proof.
  intros Hr Hw Hh. destruct (so_levels Hsrc r w h Hr Hw Hh) as (A & B & C).
  pose proof (so_tw Hsrc). pose proof (so_th Hsrc).
  split_and!; try lia; apply ntiles_pos; lia.
Qed.

Lemma bs_pos : 0 < IIPImage.bpc image / 8 /\ channels image * (IIPImage.bpc image / 8) = pixel_bytes.
Proof. split; [destruct (so_bpc Hsrc) as [-> | [-> | ->]]; reflexivity|reflexivity]. Qed.

Section Area.
Context (r w h x y width height : Z).
Context (Hr : 0 <= r < numResolutions image).
Context (Hw : level_width image r = Ok w) (Hh : level_height image r = Ok h).
Context (Hx : 0 <= x) (Hy : 0 <= y) (Hwd : 0 < width) (Hht : 0 < height).
Context (Hxw : x + width <= w) (Hyh : y + height <= h).
Context (Hsize : width * height * pixel_bytes < 2 ^ 32).

(** The bytes of the region are those of the image at the positions in [S]. *)
Definition region_ok (S : Z -> Z -> Prop) (b : bytes) : Prop :=
  blen b = width * height * pixel_bytes /\
  forall dx dy c, 0 <= dx < width -> 0 <= dy < height -> 0 <= c < pixel_bytes -> S dx dy ->
    b !! Z.to_nat ((dy * width + dx) * pixel_bytes + c) = Some (img r (x + dx) (y + dy) c).

(** A byte of a pixel is in a run of pixels of a line or not. *)
Lemma in_run dx dy c row cw dw :
  0 <= dx < width -> 0 <= c < pixel_bytes -> 0 <= cw -> 0 < dw -> cw + dw <= width ->
  let i := (dy * width + dx) * pixel_bytes + c in
  let o := (row * width + cw) * pixel_bytes in
  (o <= i < o + dw * pixel_bytes) <-> (dy = row /\ cw <= dx < cw + dw).
Proof.
  intros Hdx Hc Hcw Hdw Hcd i o. subst i o. split.
  - intros [A B]. assert (row * width + cw <= dy * width + dx < row * width + cw + dw) as [C D] by nia.
    destruct (row_col_unique width dy dx row (cw + (dy * width + dx - row * width - cw))) as [-> E]; lia.
  - intros [-> Hd]. nia.
Qed.

Lemma copy_tile_spec S (chn bs cw chh dw dh xf yf : Z) (t : RawTile) (ptr : bytes) (tw lines x0 y0 : Z) buf :
  0 < chn -> 0 < bs -> chn * bs = pixel_bytes ->
  0 <= cw -> 0 < dw -> cw + dw <= width -> 0 <= chh -> 0 < dh -> chh + dh <= height ->
  RawTile.width t = tw -> RawTile.data t = Some ptr -> tw * lines * pixel_bytes <= blen ptr -> tw * lines * pixel_bytes < 2 ^ 32 ->
  0 <= xf -> xf + dw <= tw -> 0 <= yf -> yf + dh <= lines ->
  holds ptr tw lines tw r x0 y0 -> x0 + xf = x + cw -> y0 + yf = y + chh ->
  region_ok S buf ->
  exists buf', copy_tile chn bs width cw chh dw dh xf yf t buf = Ok buf'
    /\ region_ok (fun dx dy => S dx dy \/ (cw <= dx < cw + dw /\ chh <= dy < chh + dh)) buf'.
Proof.
  intros Hchn Hbs Hpb Hcw Hdw Hcd Hch Hdh Hchd Htw Hptr Hlen Hlen32 Hxf Hxd Hyf Hyd Hh' Ex Ey Hbuf.
  pose proof pixel_bytes_pos as Pp.
  unfold copy_tile, tile_bytes. rewrite Hptr, bind_ret, Htw.
  destruct (foldM_range (fun k b => region_ok (fun dx dy => S dx dy \/ (cw <= dx < cw + dw /\ chh <= dy < chh + k)) b)
    (fun k buf => memcpy buf
       (u32 (cw * chn + k * width * chn + chh * width * chn) * bs) ptr
       (u32 ((k + yf) * tw * chn + xf * chn) * bs) (u32 (dw * chn * bs))) 0 dh buf) as (b' & E & Hb'); [lia| | |].
  - destruct Hbuf as [Hl Hs]. split; [exact Hl|]. intros dx dy c ? ? ? [?|?]; [auto|lia].
  - intros k b Hk [Hl Hs].
    assert (R1 : 0 <= (chh + k) * width + cw /\ (chh + k) * width + cw + dw <= height * width) by nia.
    assert (R2 : 0 <= (k + yf) * tw + xf /\ (k + yf) * tw + xf + dw <= lines * tw) by nia.
    replace (cw * chn + k * width * chn + chh * width * chn) with (((chh + k) * width + cw) * chn) by ring.
    replace ((k + yf) * tw * chn + xf * chn) with (((k + yf) * tw + xf) * chn) by ring.
    replace (dw * chn * bs) with (dw * pixel_bytes) by (rewrite <- Hpb; ring).
    remember ((chh + k) * width + cw) as q eqn:Hq. remember ((k + yf) * tw + xf) as p eqn:Hp.
    assert (Hcp : chn <= pixel_bytes) by nia.
    pose proof (Z.mul_le_mono_nonneg_r _ _ pixel_bytes ltac:(lia) (proj2 R1)) as M1.
    pose proof (Z.mul_le_mono_nonneg_r _ _ pixel_bytes ltac:(lia) (proj2 R2)) as M2.
    pose proof (Z.mul_le_mono_nonneg_l chn pixel_bytes q ltac:(lia) Hcp) as M3.
    pose proof (Z.mul_le_mono_nonneg_l chn pixel_bytes p ltac:(lia) Hcp) as M4.
    assert (0 < dw * pixel_bytes) by nia. assert (0 <= q * chn) by nia. assert (0 <= p * chn) by nia.
    assert (0 <= p * pixel_bytes) by nia. assert (0 <= q * pixel_bytes) by nia.
    rewrite !u32_small by lia.
    replace (q * chn * bs) with (q * pixel_bytes) by (rewrite <- Hpb; ring).
    replace (p * chn * bs) with (p * pixel_bytes) by (rewrite <- Hpb; ring).
    destruct (memcpy_in_range b (q * pixel_bytes) ptr (p * pixel_bytes) (dw * pixel_bytes))
      as (b1 & E1 & L1 & B1); try lia.
    subst p q.
    exists b1. split; [exact E1|]. split; [unfold blen in *; lia|].
    intros dx dy c Hdx Hdy Hc HS.
    assert (0 <= (dy * width + dx) * pixel_bytes + c) by nia.
    rewrite B1 by assumption.
    pose proof (in_run dx dy c (chh + k) cw dw Hdx Hc Hcw Hdw Hcd) as Hrun. cbv zeta in Hrun.
    destruct (Z.leb_spec (((chh + k) * width + cw) * pixel_bytes) ((dy * width + dx) * pixel_bytes + c)),
      (Z.ltb_spec ((dy * width + dx) * pixel_bytes + c)
                  (((chh + k) * width + cw) * pixel_bytes + dw * pixel_bytes)); cbn [andb];
      try (apply Hs; auto; destruct HS as [HS|HS]; [left; exact HS|right; split; [lia|]];
           destruct (Z.eq_dec dy (chh + k)) as [Edy|]; [|lia]; exfalso;
           destruct (proj2 Hrun (conj Edy (proj1 HS))); lia).
    destruct (proj1 Hrun ltac:(lia)) as [-> Hd].
    replace (((k + yf) * tw + xf) * pixel_bytes +
             (((chh + k) * width + dx) * pixel_bytes + c - ((chh + k) * width + cw) * pixel_bytes))
      with (((k + yf) * tw + (xf + (dx - cw))) * pixel_bytes + c) by ring.
    rewrite Hh' by lia. f_equal. f_equal; lia.
  - exists b'. split; [exact E|exact Hb'].
Qed.

(** The abbreviations of the loop bounds. *)
Let tw := tile_width image.
Let th := tile_height image.
Let startx := first_tile x tw.
Let endx := last_tile x width tw.
Let starty := first_tile y th.
Let endy := last_tile y height th.
Let ex := edge x width tw.
Let ey := edge y height th.
Let chn := channels image.
Let bs := IIPImage.bpc image / 8.

Context (whole : bool).
Context (Hwhole : whole = true -> x = 0 /\ y = 0 /\ width = w /\ height = h).

(** One tile of a strip. *)
Lemma region_tile_spec i j st :
  starty <= i < endy -> startx <= j < endx ->
  s_cur st = ex j -> tm_inv (s_state st) ->
  region_ok (fun dx dy => dy < ey i \/ (dy < ey (i + 1) /\ dx < ex j)) (s_region st) ->
  exists st', region_tile capacity tileSize junk rand image None r seq ang layers x y width height whole
                startx endx starty endy (x mod tw) (y mod th) (ntiles w tw) chn bs (ey i) i j st = Ok st'
    /\ s_cur st' = ex (j + 1) /\ s_dst_h st' = ey (i + 1) - ey i /\ tm_inv (s_state st')
    /\ region_ok (fun dx dy => dy < ey i \/ (dy < ey (i + 1) /\ dx < ex (j + 1))) (s_region st').
Proof.
  intros Hi Hj Hcur Hinv Hreg.
  destruct (level_small r w h Hr Hw Hh) as (Lw & Lh & Nw & Nh & Nwh).
  fold tw in Nw, Nwh. fold th in Nh, Nwh.
  pose proof (so_tw Hsrc) as Tw. pose proof (so_th Hsrc) as Th. fold tw th in Tw, Th.
  pose proof (so_res Hsrc) as Hres. destruct bs_pos as [Hbs Hpb].
  fold bs in Hbs, Hpb. fold chn in Hpb.
  destruct (tile_range x width tw w) as (_ & Fx & _); [lia..|]. fold endx in Fx.
  destruct (tile_range y height th h) as (Fy0 & Fy & _); [lia..|]. fold endy starty in Fy, Fy0.
  destruct (tile_range x width tw w) as (Fx0 & _); [lia..|]. fold endx startx in Fx0.
  set (n := i * ntiles w tw + j).
  assert (Hn : 0 <= n < ntiles w tw * ntiles h th) by (subst n; nia).
  assert (Hcol : tile_col w n = j).
  { unfold tile_col, n. rewrite Z.add_comm, Z_mod_plus_full. apply Z.mod_small. fold tw. lia. }
  assert (Hrow : tile_row w n = i).
  { unfold tile_row, n. fold tw. rewrite Z.div_add_l by lia. rewrite Z.div_small; lia. }
  destruct (getTile_shows (s_state st) r w h n Hinv Hr Hw Hh Hn) as (t & s' & Et & St & Hs').
  unfold region_tile. fold n. rewrite u32_small, !i32_small, Et, bind_ret by lia.
  pose proof (sh_w _ _ _ _ _ St) as Swd. pose proof (sh_h _ _ _ _ _ St) as Sht.
  assert (Etw : tile_w w n = Z.min tw (w - j * tw)) by (unfold tile_w; rewrite Hcol; reflexivity).
  assert (Eth : tile_h w h n = Z.min th (h - i * th)) by (unfold tile_h; rewrite Hrow; reflexivity).
  destruct (dst_extent_spec whole j x width tw w) as (Dx & Dx1 & Dx2 & Dx3); [lia..| |exact Hj|].
  { intros E. destruct (Hwhole E) as (? & _ & ? & _). auto. }
  destruct (dst_extent_spec whole i y height th h) as (Dy & Dy1 & Dy2 & Dy3); [lia..| |exact Hi|].
  { intros E. destruct (Hwhole E) as (_ & ? & _ & ?). auto. }
  fold tw th. fold startx endx ex in Dx, Dx1, Dx2, Dx3. fold starty endy ey in Dy, Dy1, Dy2, Dy3.
  rewrite Swd, Etw, Dx, bind_ret, Sht, Eth, Dy, bind_ret.
  rewrite (proj2 (Z.eqb_neq bs 0)) by lia. rewrite Hcur.
  destruct St as [_ _ _ [Sl1 Sl2] [_ [_ Sok]] (ptr & Sp & Sd)]. rewrite Sp in Sok. rewrite Hcol, Hrow in Sd.
  assert (Ej : 0 <= ex j /\ ex (j + 1) <= width) by (unfold ex, edge; lia).
  assert (Ei : 0 <= ey i /\ ey (i + 1) <= height) by (unfold ey, edge; lia).
  pose proof (so_ch Hsrc) as Hch. fold chn in Hch.
  destruct (copy_tile_spec (fun dx dy => dy < ey i \/ (dy < ey (i + 1) /\ dx < ex j))
              chn bs (ex j) (ey i) (ex (j + 1) - ex j) (ey (i + 1) - ey i)
              (x + ex j - j * tw) (y + ey i - i * th) t ptr
              (tile_w w n) (tile_h w h n) (j * tw) (i * th) (s_region st)) as (buf & Eb & Hb);
    try lia; try assumption.
  rewrite Eb, bind_ret. eexists. split; [reflexivity|]. cbn [s_cur s_dst_h s_state s_region].
  pose proof pixel_bytes_pos. assert (Hwd32 : width < 2 ^ 24) by lia.
  split; [rewrite u32_small by lia; lia|]. split; [reflexivity|]. split; [exact Hs'|].
  destruct Hb as [Hb1 Hb2]. split; [exact Hb1|]. intros dx dy c ? ? ? HS. apply Hb2; auto. lia.
Qed.

(** A strip of tiles. *)
Lemma region_strip_spec i buf dw dh s :
  starty <= i < endy -> tm_inv s -> region_ok (fun _ dy => dy < ey i) buf ->
  exists st, foldM (region_tile capacity tileSize junk rand image None r seq ang layers x y width height whole
                startx endx starty endy (x mod tw) (y mod th) (ntiles w tw) chn bs (ey i) i)
               (range startx endx) (mkStrip buf 0 dw dh s) = Ok st
    /\ s_dst_h st = ey (i + 1) - ey i /\ tm_inv (s_state st)
    /\ region_ok (fun _ dy => dy < ey (i + 1)) (s_region st).
Proof.
  intros Hi Hs Hbuf. destruct (level_small r w h Hr Hw Hh) as (Lw & Lh & Nw & Nh & _).
  pose proof (so_tw Hsrc) as Tw. fold tw in Tw.
  destruct (tile_range x width tw w) as (Fx0 & Fx & Ex0 & Ex1 & _); [lia..|].
  fold startx endx in Fx0, Fx. fold startx ex in Ex0. fold endx ex in Ex1.
  destruct (foldM_range (fun j st => (startx < j -> s_dst_h st = ey (i + 1) - ey i) /\ s_cur st = ex j
      /\ tm_inv (s_state st)
      /\ region_ok (fun dx dy => dy < ey i \/ (dy < ey (i + 1) /\ dx < ex j)) (s_region st))
    (region_tile capacity tileSize junk rand image None r seq ang layers x y width height whole
                startx endx starty endy (x mod tw) (y mod th) (ntiles w tw) chn bs (ey i) i)
    startx endx (mkStrip buf 0 dw dh s)) as (st & E & H1 & _ & H3 & H4 & H5).
  - lia.
  - cbn [s_cur s_dst_h s_state s_region]. split_and!; [lia|symmetry; exact Ex0|exact Hs|].
    destruct Hbuf as [B1 B2]. split; [exact B1|]. intros dx dy c ? ? ? HS. apply B2; auto.
    rewrite Ex0 in HS. lia.
  - intros j st Hj (_ & Hc & Hst & Hreg).
    destruct (region_tile_spec i j st Hi Hj Hc Hst Hreg) as (st' & E & ? & ? & ? & ?).
    exists st'. split_and!; auto.
  - exists st. split; [exact E|]. split; [apply H1; lia|]. split; [exact H3|].
    split; [exact H4|]. intros dx dy c ? ? ? HS. apply H5; auto. unfold ex in *. rewrite Ex1. lia.
Qed.
End Area.

(** [(unsigned int) ceil( (float)(size + pos) / (float) basic )] *)
Lemma ceil_tiles size pos basic :
  0 < basic < 2 ^ 24 -> 0 <= pos -> 0 < size -> pos + size < 2 ^ 24 ->
  to_u32 (fceil b32 (fdiv b32 (of_Z b32 (u32 (size + pos))) (of_Z b32 basic)))
  = Ok (last_tile pos size basic).
Proof.
  intros Hb Hp Hs Hd. rewrite u32_small by lia. unfold last_tile.
  destruct (ceil_div_exact b32 (size + pos) basic b32_ok) as [O E]; [cbn; lia|cbn; lia|].
  assert (R : 0 <= (size + pos + basic - 1) / basic < 2 ^ 24).
  { split; [apply Z.div_pos; lia|]. apply Z.div_lt_upper_bound; nia. }
  apply to_int_within; [|lia|lia].
  apply integral_within; [apply b32_ok|exact O|exact E|cbn; lia|reflexivity].
Qed.

(** The tiles of a region, when it is the whole level and when it is a part. *)
Lemma tile_bounds w h x y width height :
  0 <= x -> 0 <= y -> 0 < width -> 0 < height -> x + width <= w -> y + height <= h -> w < 2 ^ 24 -> h < 2 ^ 24 ->
  let whole := (x =? 0) && (y =? 0) && (width =? w) && (height =? h) in
  (if negb whole then
     endx ← to_u32 (fceil b32 (fdiv b32 (of_Z b32 (u32 (width + x))) (of_Z b32 (tile_width image))));
     endy ← to_u32 (fceil b32 (fdiv b32 (of_Z b32 (u32 (height + y))) (of_Z b32 (tile_height image))));
     Ok (x / tile_width image, endx, y / tile_height image, endy, x mod tile_width image, y mod tile_height image)
   else Ok (0, ntiles w (tile_width image), 0, ntiles h (tile_height image), 0, 0))
  = Ok (first_tile x (tile_width image), last_tile x width (tile_width image),
        first_tile y (tile_height image), last_tile y height (tile_height image), x mod tile_width image, y mod tile_height image).
Proof.
  intros Hx Hy Hwd Hht Hxw Hyh Lw Lh whole. pose proof (so_tw Hsrc) as Tw. pose proof (so_th Hsrc) as Th.
  assert (Hwhole : whole = true -> x = 0 /\ y = 0 /\ width = w /\ height = h).
  { unfold whole. rewrite !andb_true_iff, !Z.eqb_eq. tauto. }
  destruct whole; cbn [negb].
  - destruct (Hwhole eq_refl) as (-> & -> & -> & ->). unfold first_tile, last_tile.
    rewrite !ntiles_ceil, !Z.add_0_r by lia. rewrite !Z.div_0_l, !Z.mod_0_l by lia. reflexivity.
  - rewrite !ceil_tiles by lia. reflexivity.
Qed.

(** Row after row of tiles, the region is filled. *)
Lemma strips_ok r w h x y width height dw dh s :
  tm_inv s -> 0 <= r < numResolutions image -> level_width image r = Ok w -> level_height image r = Ok h ->
  0 <= x -> 0 <= y -> 0 < width -> 0 < height -> x + width <= w -> y + height <= h -> width * height * pixel_bytes < 2 ^ 32 ->
  let whole := (x =? 0) && (y =? 0) && (width =? w) && (height =? h) in
  exists b c1 c2 c3 s',
    foldM (fun i '(buf, current_height, dst_w, dst_h, s) =>
        st ← foldM (region_tile capacity tileSize junk rand image None r seq ang layers x y width height whole
                      (first_tile x (tile_width image)) (last_tile x width (tile_width image))
                      (first_tile y (tile_height image)) (last_tile y height (tile_height image))
                      (x mod tile_width image) (y mod tile_height image)
                      (ntiles w (tile_width image)) (channels image) (IIPImage.bpc image / 8) current_height i)
               (range (first_tile x (tile_width image)) (last_tile x width (tile_width image)))
               (mkStrip buf 0 dst_w dst_h s);
        Ok (s_region st, u32 (current_height + s_dst_h st), s_dst_w st, s_dst_h st, s_state st))
      (range (first_tile y (tile_height image)) (last_tile y height (tile_height image)))
      (new_bytes junk (width * height * channels image * (IIPImage.bpc image / 8)), 0, dw, dh, s) = Ok (b, c1, c2, c3, s')
    /\ tm_inv s' /\ region_ok r x y width height (fun _ dy => dy < height) b.
Proof.
  intros Hs Hr Hw Hh Hx Hy Hwd Hht Hxw Hyh Hsz whole.
  destruct (level_small r w h Hr Hw Hh) as (Lw & Lh & _). pose proof (so_th Hsrc) as Th. pose proof pixel_bytes_pos as Pp.
  assert (Hwhole : whole = true -> x = 0 /\ y = 0 /\ width = w /\ height = h).
  { unfold whole. rewrite !andb_true_iff, !Z.eqb_eq. tauto. }
  destruct (tile_range y height (tile_height image) h) as (Fy0 & Fy & Ey0 & Ey1 & _); [lia..|].
  destruct (foldM_range (fun i '(buf, ch, dw, dh, s) =>
       ch = edge y height (tile_height image) i /\ tm_inv s
       /\ region_ok r x y width height (fun _ dy => dy < edge y height (tile_height image) i) buf)
    (fun i '(buf, current_height, dst_w, dst_h, s) =>
        st ← foldM (region_tile capacity tileSize junk rand image None r seq ang layers x y width height whole
                      (first_tile x (tile_width image)) (last_tile x width (tile_width image))
                      (first_tile y (tile_height image)) (last_tile y height (tile_height image))
                      (x mod tile_width image) (y mod tile_height image)
                      (ntiles w (tile_width image)) (channels image) (IIPImage.bpc image / 8) current_height i)
               (range (first_tile x (tile_width image)) (last_tile x width (tile_width image)))
               (mkStrip buf 0 dst_w dst_h s);
        Ok (s_region st, u32 (current_height + s_dst_h st), s_dst_w st, s_dst_h st, s_state st))
    (first_tile y (tile_height image)) (last_tile y height (tile_height image))
    (new_bytes junk (width * height * channels image * (IIPImage.bpc image / 8)), 0, dw, dh, s)) as ([[[[b c1] c2] c3] s'] & E & _ & Hs' & Hb).
  - lia.
  - split; [symmetry; exact Ey0|]. split; [exact Hs|]. split.
    + destruct bs_pos as [Hbs Hpb]. pose proof (so_ch Hsrc). rewrite blen_new_bytes by nia. unfold pixel_bytes. ring.
    + intros dx dy c ? ? ? HS. rewrite Ey0 in HS. lia.
  - intros i [[[[buf ch] dw0] dh0] s0] Hi (-> & Hs0 & Hbuf).
    destruct (region_strip_spec r w h x y width height Hr Hw Hh Hx Hy Hwd Hht Hxw Hyh Hsz whole Hwhole
                i buf dw0 dh0 s0 Hi Hs0 Hbuf) as (st & Est & Hdh & Hst & Hreg).
    rewrite Est, bind_ret. eexists. split; [reflexivity|].
    split; [|split; assumption]. rewrite Hdh.
    assert (0 <= edge y height (tile_height image) (i + 1) < 2 ^ 24) by (unfold edge; lia).
    rewrite u32_small by lia. lia.
  - rewrite Ey1 in Hb. exists b, c1, c2, c3, s'. auto.
Qed.

Lemma getRegion_ok r w h x y width height s :
  codec_regionDecoding = false -> tm_inv s ->
  0 <= r < numResolutions image -> level_width image r = Ok w -> level_height image r = Ok h ->
  0 <= x -> 0 <= y -> 0 < width -> 0 < height -> x + width <= w -> y + height <= h ->
  width * height * pixel_bytes < 2 ^ 32 ->
  exists t s' b, getRegion capacity tileSize junk rand image None r seq ang layers x y width height s = Ok (t, s')
    /\ tm_inv s' /\ RawTile.data t = Some b
    /\ RawTile.width t = width /\ RawTile.height t = height
    /\ RawTile.dataLength t = width * height * pixel_bytes
    /\ region_ok r x y width height (fun _ _ => True) b.
Proof.
  intros Hrd Hs Hr Hw Hh Hx Hy Hwd Hht Hxw Hyh Hsz. unfold getRegion. rewrite Hrd.
  destruct (level_small r w h Hr Hw Hh) as (Lw & Lh & Nw & Nh & Nwh).
  pose proof (so_tw Hsrc) as Tw. pose proof (so_th Hsrc) as Th. pose proof (so_res Hsrc) as Hres.
  pose proof pixel_bytes_pos as Pp. pose proof (so_ch Hsrc) as Hch.
  rewrite (i32_small (numResolutions image)) by lia.
  rewrite (u32_small (numResolutions image - r)), (u32_small (numResolutions image - r - 1)) by lia.
  pose proof Hw as Hw'. pose proof Hh as Hh'. unfold level_width in Hw'. unfold level_height in Hh'.
  rewrite Hw', bind_ret, Hh', bind_ret, !umod_ok, !bind_ret by lia.
  assert (Hnt : forall d b, 0 < b -> d / b + (if d mod b =? 0 then 0 else 1) = ntiles d b) by reflexivity.
  rewrite !Hnt by lia. clear Hnt.
  assert (ntiles w (tile_width image) < 2 ^ 31 /\ ntiles h (tile_height image) < 2 ^ 31) by nia.
  rewrite (u32_small (ntiles w _)), (u32_small (ntiles h _)) by lia.
  rewrite (tile_bounds w h x y width height) by (assumption || lia). rewrite bind_ret.
  unfold getNumChannels, getNumBitsPerPixel, getSampleType.
  assert (Hbpc : (if IIPImage.bpc image =? 1 then 8 else IIPImage.bpc image) = IIPImage.bpc image)
    by (destruct (so_bpc Hsrc) as [-> | [-> | ->]]; reflexivity).
  assert (Hsb : sample_bytes (IIPImage.bpc image) = IIPImage.bpc image / 8)
    by (destruct (so_bpc Hsrc) as [-> | [-> | ->]]; reflexivity).
  rewrite Hbpc, Hsb. destruct bs_pos as [Hbs Hpb].
  replace (width * height * channels image * (IIPImage.bpc image / 8)) with (width * height * pixel_bytes)
    by (unfold pixel_bytes; ring).
  assert (Hwhc : 0 < width * height * channels image < 2 ^ 32).
  { assert (Harea : 0 < width * height) by nia. assert (Hcp : channels image <= pixel_bytes) by nia.
    split; [nia|]. pose proof (Z.mul_le_mono_nonneg_l _ _ (width * height) ltac:(lia) Hcp). lia. }
  rewrite (u32_small (width * height * channels image)) by lia.
  destruct (strips_ok r w h x y width height (tile_width image) (tile_height image) s Hs Hr Hw Hh Hx Hy Hwd Hht Hxw Hyh Hsz)
    as (b & c1 & c2 & c3 & s' & E & Hs' & Hb1 & Hb2). cbv zeta in E.
  rewrite E, bind_ret. rewrite (proj2 (Z.eqb_neq (IIPImage.bpc image / 8) 0)) by lia.
  eexists _, s', b. split; [reflexivity|]. split; [exact Hs'|]. split; [reflexivity|].
  cbn [new_RawTile RawTile.width RawTile.height RawTile.dataLength].
  assert (Hc : forall z, 0 <= z < 2 ^ 24 -> u32 (i32 z) = z) by (intros; rewrite i32_small, u32_small; lia).
  split; [apply Hc; lia|]. split; [apply Hc; lia|]. split; [apply u32_small; nia|].
  split; [exact Hb1|]. intros dx dy c ? ? ? _. apply Hb2; lia.
Qed.
End Region.

(** ** Histories *)

Lemma tm_inv_empty capacity tileSize (image : IIPImage) seq ang img m n :
  0 <= m < 2 ^ 63 -> tm_inv capacity tileSize image seq ang img (mkTMState (empty_cache m) n).
Proof.
  intros Hm. constructor; [apply empty_wf, Hm|cbn; lia|].
  intros k t Ht. apply not_elem_of_nil in Ht. contradiction.
Qed.

Record request := mkRequest { q_res : Z; q_x : Z; q_y : Z; q_w : Z; q_h : Z }.

(** A request for a rectangle inside a level of the image. *)
Definition request_ok (image : IIPImage) (q : request) : Prop :=
  0 <= q_res q < numResolutions image /\
  exists w h, level_width image (q_res q) = Ok w /\ level_height image (q_res q) = Ok h
    /\ 0 <= q_x q /\ 0 <= q_y q /\ 0 < q_w q /\ 0 < q_h q
    /\ q_x q + q_w q <= w /\ q_y q + q_h q <= h
    /\ q_w q * q_h q * pixel_bytes image < 2 ^ 32.

(** The regions a sequence of requests gets, one cache serving them all. *)
Fixpoint run_requests capacity tileSize junk rand {codec : Codec} {compressor : Compressor}
    image seq ang layers (qs : list request) (s : TMState) : res (list RawTile * TMState) :=
  match qs with
  | [] => Ok ([], s)
  | q :: qs =>
      '(t, s) ← getRegion capacity tileSize junk rand image None (q_res q) seq ang layers
                  (q_x q) (q_y q) (q_w q) (q_h q) s;
      '(ts, s) ← run_requests capacity tileSize junk rand image seq ang layers qs s;
      Ok (t :: ts, s)
  end.

(** The region asked for, byte for byte. *)
Definition exact_region (image : IIPImage) (img : Z -> Z -> Z -> Z -> Z) (q : request) (t : RawTile) : Prop :=
  RawTile.width t = q_w q /\ RawTile.height t = q_h q
  /\ RawTile.dataLength t = q_w q * q_h q * pixel_bytes image
  /\ exists b, RawTile.data t = Some b /\ blen b = q_w q * q_h q * pixel_bytes image
  /\ forall dx dy c, 0 <= dx < q_w q -> 0 <= dy < q_h q -> 0 <= c < pixel_bytes image ->
       b !! Z.to_nat ((dy * q_w q + dx) * pixel_bytes image + c)
       = Some (img (q_res q) (q_x q + dx) (q_y q + dy) c).

Lemma run_requests_exact capacity tileSize junk rand {codec : Codec} {compressor : Compressor}
    image seq ang layers img qs s :
  source_ok image seq ang layers img -> small_strings capacity tileSize ->
  codec_regionDecoding = false -> tm_inv capacity tileSize image seq ang img s ->
  Forall (request_ok image) qs ->
  exists ts s', run_requests capacity tileSize junk rand image seq ang layers qs s = Ok (ts, s')
    /\ Forall2 (exact_region image img) qs ts.
Proof.
  intros Hsrc Hcap Hrd Hs Hqs. revert s Hs.
  induction Hqs as [|q qs (Hr & w & h & Hw & Hh & Hx & Hy & Hqw & Hqh & Hxw & Hyh & Hsz) Hqs IH]; intros s Hs.
  - exists [], s. split; [reflexivity|constructor].
  - cbn [run_requests].
    destruct (getRegion_ok capacity tileSize junk rand image seq ang layers img Hsrc Hcap
                (q_res q) w h (q_x q) (q_y q) (q_w q) (q_h q) s Hrd Hs Hr Hw Hh Hx Hy Hqw Hqh Hxw Hyh Hsz)
      as (t & s1 & b & -> & Hs1 & Hb & Htw & Hth & Htl & Hreg & Hpix).
    rewrite bind_ret. destruct (IH s1 Hs1) as (ts & s2 & -> & H2). rewrite bind_ret.
    eexists _, s2. split; [reflexivity|]. constructor; [|exact H2].
    split; [exact Htw|]. split; [exact Hth|]. split; [exact Htl|].
    exists b. split; [exact Hb|]. split; [exact Hreg|]. intros dx dy c ? ? ?. apply Hpix; auto.
Qed.

(** ** Properties *)

(** C1. A region is pixel exact.  Whatever sequence of rectangles is asked
    for, at whatever resolutions, starting from an empty cache of any size: each
    region is put together from the tiles without any access outside a buffer,
    and every byte of it is the byte of the image at that position, through the
    edge tiles, the padding of the codec's tiles, cropping, caching and eviction;
    for images below 2^24 pixels a side, which is what the [float] computation of
    the last tile is exact for. *)
Theorem regions_exact (capacity : string -> Z) (tileSize : Z) (junk rand : Z -> Z)
    {codec : Codec} {compressor : Compressor} (image : IIPImage) (seq ang layers : Z)
    (img : Z -> Z -> Z -> Z -> Z) (m n : Z) (qs : list request) :
  source_ok image seq ang layers img -> small_strings capacity tileSize ->
  codec_regionDecoding = false -> 0 <= m < 2 ^ 63 -> Forall (request_ok image) qs ->
  exists ts s', run_requests capacity tileSize junk rand image seq ang layers qs
                  (mkTMState (empty_cache m) n) = Ok (ts, s')
    /\ Forall2 (exact_region image img) qs ts.
Proof.
  intros Hsrc Hcap Hrd Hm Hqs. apply run_requests_exact; auto. apply tm_inv_empty, Hm.
Qed.

(** A 5 x 3 greyscale image in 2 x 2 tiles, decoded with padding. *)
Definition demo_image : IIPImage :=
  (new_IIPImage "demo.tif") <| image_widths := [5] |> <| image_heights := [3] |>
    <| tile_width := 2 |> <| tile_height := 2 |> <| numResolutions := 1 |>
    <| IIPImage.bpc := 8 |> <| IIPImage.channels := 1 |> <| IIPImage.timestamp := 7 |>.

Definition demo_pixel (r x y c : Z) : Z := 10 * y + x.

Definition demo_decode (h v r n : Z) : RawTile :=
  let x0 := n mod 3 * 2 in
  let y0 := n / 3 * 2 in
  {| RawTile.tileNum := n; RawTile.resolution := r; RawTile.hSequence := h; RawTile.vSequence := v;
     RawTile.compressionType := UNCOMPRESSED; RawTile.quality := 0; RawTile.filename := "demo.tif";
     RawTile.timestamp := 7;
     RawTile.data := Some ((fun p => if (x0 + p mod 2 <? 5) && (y0 + p / 2 <? 3)
                                     then demo_pixel r (x0 + p mod 2) (y0 + p / 2) 0 else 255) <$> range 0 4);
     RawTile.memoryManaged := 0; RawTile.dataLength := 4; RawTile.width := Z.min 2 (5 - x0);
     RawTile.height := Z.min 2 (3 - y0); RawTile.channels := 1; RawTile.bpc := 8;
     RawTile.sampleType := FIXEDPOINT; RawTile.padded := true |}.

#[global] Instance demo_codec : Codec := {|
  codec_regionDecoding := false; codec_description := "demo";
  codec_openImage := fun i => Ok i; codec_loadImageInfo := fun i _ _ => Ok i;
  codec_getTile := fun _ h v r _ n => Ok (demo_decode h v r n);
  codec_getRegion := fun _ _ _ _ _ _ _ _ _ => undef "no region decoding"
|}.

#[global] Instance demo_compressor : Compressor := {|
  getQuality := 75; Compress := fun t => Ok (0, t); strip_state := unit; InitCompression := fun _ _ => Ok ([], tt);
  CompressStrip := fun b _ s => Ok (b, s); Finish := fun _ => Ok []; getMimeType := "image/demo";
  getSuffix := "demo"; getCompressionType := JPEG
|}.

Lemma demo_levels r w h :
  level_width demo_image r = Ok w -> level_height demo_image r = Ok h -> w = 5 /\ h = 3.
Proof.
  unfold level_width, level_height. change (numResolutions demo_image) with 1.
  change (image_widths demo_image) with [5]. change (image_heights demo_image) with [3].
  intros Hw Hh. pose proof (rd_ok_range _ _ _ Hw) as Hr. cbn in Hr.
  assert (r = 0) as -> by lia. cbv in Hw, Hh. split; congruence.
Qed.

Lemma demo_source : source_ok demo_image 0 90 0 demo_pixel.
Proof.
  constructor.
  - change (0 < 2 < 2 ^ 24). lia.
  - change (0 < 2 < 2 ^ 24). lia.
  - change (0 < 1 < 2 ^ 16). lia.
  - left. reflexivity.
  - change (0 < 1 < 2 ^ 31). lia.
  - split; [reflexivity|vm_compute; congruence].
  - split; lia.
  - split; lia.
  - reflexivity.
  - intros r w h _ Hw Hh. destruct (demo_levels r w h Hw Hh) as [-> ->]. vm_compute. repeat split; congruence.
  - intros r w h n Hr Hw Hh Hn. destruct (demo_levels r w h Hw Hh) as [-> ->].
    change (numResolutions demo_image) with 1 in Hr.
    assert (r = 0) as -> by lia. change (tile_width demo_image) with 2 in Hn.
    change (tile_height demo_image) with 2 in Hn. change (ntiles 5 2 * ntiles 3 2) with 6 in Hn.
    exists (demo_decode 0 90 0 n). split; [reflexivity|].
    assert (n = 0 \/ n = 1 \/ n = 2 \/ n = 3 \/ n = 4 \/ n = 5) as Hc by lia.
    repeat (destruct Hc as [-> | Hc]); try subst n;
      (constructor; [constructor; reflexivity|reflexivity..|]; eexists; split; [reflexivity|];
       split; [reflexivity|]; split; [reflexivity|];
       intros k x c Hk Hx Hcc;
       match type of Hk with _ <= _ < ?p => let v := eval vm_compute in p in change p with v in Hk end;
       match type of Hx with _ <= _ < ?p => let v := eval vm_compute in p in change p with v in Hx end;
       match type of Hcc with _ <= _ < ?p => let v := eval vm_compute in p in change p with v in Hcc end;
       assert (k = 0 \/ k = 1) as [-> | ->] by lia; assert (x = 0 \/ x = 1) as [-> | ->] by lia;
       assert (c = 0) as -> by lia; try lia; reflexivity).
Qed.

Lemma demo_small : small_strings (fun _ => 15) 100.
Proof. split; intros; lia. Qed.

Lemma regions_exact_witness :
  exists t1 t2 s, run_requests (fun _ => 15) 100 (fun _ => 99) (fun _ => 0) demo_image 0 90 0
       [mkRequest 0 1 1 4 2; mkRequest 0 3 0 2 2] (mkTMState (empty_cache 400) 0) = Ok ([t1; t2], s)
    /\ RawTile.data t1 = Some [11; 12; 13; 14; 21; 22; 23; 24]
    /\ RawTile.data t2 = Some [3; 4; 13; 14].
Proof.
  destruct (regions_exact (fun _ => 15) 100 (fun _ => 99) (fun _ => 0) demo_image 0 90 0 demo_pixel 400 0
              [mkRequest 0 1 1 4 2; mkRequest 0 3 0 2 2] demo_source demo_small eq_refl ltac:(lia))
    as (ts & s & E & _).
  - forall_elements ltac:(split; [vm_compute; split; congruence|];
      exists 5, 3; vm_compute; repeat split; congruence).
  - vm_compute in E. injection E as <- <-. eexists _, _, _. split; [vm_compute; reflexivity|].
    split; reflexivity.
Defined.

(** C7. The cache is coherent with the image: starting from any cache in
    which the tiles of this image that are not out of date show it, a tile
    request gives a tile with the asked identity that shows the image, cropped
    to its true size, whether it comes from the cache, replaces an outdated entry
    or is decoded, and the cache is left coherent. *)
Theorem tiles_coherent (capacity : string -> Z) (tileSize : Z) (junk rand : Z -> Z)
    {codec : Codec} {compressor : Compressor} (image : IIPImage) (seq ang layers : Z)
    (img : Z -> Z -> Z -> Z -> Z) (s : TMState) (r w h n : Z) :
  source_ok image seq ang layers img -> small_strings capacity tileSize ->
  tm_inv capacity tileSize image seq ang img s ->
  0 <= r < numResolutions image -> level_width image r = Ok w -> level_height image r = Ok h ->
  0 <= n < ntiles w (tile_width image) * ntiles h (tile_height image) ->
  exists t s', getTile capacity tileSize junk rand image None r n seq ang layers UNCOMPRESSED s = Ok (t, s')
    /\ shows image seq ang img r w h n t /\ tm_inv capacity tileSize image seq ang img s'.
Proof. intros Hsrc Hcap Hs Hr Hw Hh Hn. apply getTile_shows; assumption. Qed.

(** An out of date tile in the cache, with other pixels, is replaced. *)
Definition stale_tile : RawTile :=
  (demo_decode 0 90 0 5) <| RawTile.timestamp := 6 |> <| RawTile.data := Some [0; 0; 0; 0] |>
    <| RawTile.padded := false |>.

Lemma stale_state :
  exists s, cache_insert (fun _ => 15) 100 (fun _ => 99) stale_tile (mkTMState (empty_cache 400) 0) = Ok s
    /\ tm_inv (fun _ => 15) 100 demo_image 0 90 demo_pixel s
    /\ s = mkTMState (mkCache 400 134 [mkNode 0 (tile_key stale_tile) (set_data stale_tile (Some [0; 0; 0; 0]) 1)]
                        {[ tile_key stale_tile := 0%nat ]} 1) 0.
Proof.
  assert (Hi : insertable (fun _ => 15) 100 stale_tile).
  { split; [repeat split; vm_compute; congruence|]. intros k. vm_compute. reflexivity. }
  destruct (insert_spec (fun _ => 15) 100 (fun _ => 99) (empty_cache 400) stale_tile
              ltac:(apply empty_wf; lia) ltac:(cbn; lia) Hi) as (c & t & Hc & E & W & M & A).
  assert (Ec : c = mkCache 400 134 [mkNode 0 (tile_key stale_tile) (set_data stale_tile (Some [0; 0; 0; 0]) 1)]
                     {[ tile_key stale_tile := 0%nat ]} 1) by (vm_compute in E; injection E as <-; reflexivity).
  exists (mkTMState c 0). split; [|split].
  - unfold cache_insert. cbn [tileCache]. rewrite E. reflexivity.
  - constructor; [exact W|cbn; rewrite M; cbn; lia|]. intros k u Hu. cbn [tileCache] in Hu.
    rewrite Ec in Hu. unfold abs in Hu. cbn [tileList fmap list_fmap] in Hu.
    apply list_elem_of_singleton in Hu as [= -> ->]. split; [split; [reflexivity|vm_compute; congruence]|].
    split; [forall_elements ltac:(split; vm_compute; congruence)|].
    intros r w h n _ _ _ _ _ Ht. vm_compute in Ht. contradiction Ht; reflexivity.
  - rewrite Ec. reflexivity.
Qed.

Lemma tiles_coherent_witness :
  exists s t s', cache_insert (fun _ => 15) 100 (fun _ => 99) stale_tile (mkTMState (empty_cache 400) 0) = Ok s
    /\ getTile (fun _ => 15) 100 (fun _ => 99) (fun _ => 0) demo_image None 0 5 0 90 0 UNCOMPRESSED s = Ok (t, s')
    /\ shows demo_image 0 90 demo_pixel 0 5 3 5 t /\ RawTile.timestamp t = 7.
Proof.
  destruct stale_state as (s & Ei & Hs & Es).
  destruct (tiles_coherent (fun _ => 15) 100 (fun _ => 99) (fun _ => 0) demo_image 0 90 0 demo_pixel s 0 5 3 5
              demo_source demo_small Hs) as (t & s' & E & St & _).
  - change (0 <= 0 < 1). lia.
  - reflexivity.
  - reflexivity.
  - vm_compute. split; congruence.
  - exists s, t, s'. split; [exact Ei|]. split; [exact E|]. split; [exact St|].
  rewrite Es in E. vm_compute in E. injection E as <- _. reflexivity.
Defined.
