(* ===== verification/TPTImage.v ===== *)
(** * TIFF images (src/src/TPTImage.h, TPTImage.cc)

    The class that reads tiled pyramidal TIFF files.  libtiff is the interface
    [LibTIFF]: an open file is a value that has a current directory, and an
    operation returns the file afterwards.  The levels of a pyramid are either the
    directories of the file or the sub-directories of the first one.

    A method is a computation of [T]: the object stays as it was left when an
    exception is thrown.  A variable that [TIFFGetField] does not set keeps its
    value; one that was never set has an arbitrary one ([uninit]).  The class as a
    codec of the tile manager is [TPT_codec]: every call on a new object made from
    the image; [tiff_tiles_stateless] shows that an object that keeps its file open
    between calls answers the same. *)
From stdpp Require Import base gmap strings list numbers.
From Stdlib Require Import ZArith Lia Ascii.
From coqutil Require Import Datatypes.RecordSetters.
From S2P Require Import Prelude Object CString CFloat RawTile Cache IIPImage Watermark TileManager Region.
Import TriangleBracketNotations.
#[local] Open Scope string_scope.
#[local] Open Scope list_scope.
#[local] Open Scope Z_scope.

(** ** libtiff *)

(** The tags the class reads, by the type of their value. *)
Inductive int_tag :=
| TILEWIDTH | TILELENGTH | IMAGEWIDTH | IMAGELENGTH | SAMPLESPERPIXEL | BITSPERSAMPLE | PHOTOMETRIC | SAMPLEFORMAT
| RESOLUTIONUNIT.
Inductive float_tag := XRESOLUTION | YRESOLUTION.
Inductive text_tag := ARTIST | COPYRIGHT | DATETIME | IMAGEDESCRIPTION | SOFTWARE.
Inductive data_tag := XMLPACKET | ICCPROFILE.
Inductive sample_tag := SMINSAMPLEVALUE | SMAXSAMPLEVALUE.

Class LibTIFF := {
  TIFF : Type;
  TIFFOpen : string -> option TIFF;
  TIFFCurrentDirectory : TIFF -> Z;
  TIFFNumberOfDirectories : TIFF -> Z;
  TIFFSetDirectory : Z -> TIFF -> bool * TIFF;
  TIFFReadDirectory : TIFF -> bool * TIFF;
  TIFFSetSubDirectory : Z -> TIFF -> bool * TIFF;
  get_int : int_tag -> TIFF -> option Z;              (** [TIFFGetField] *)
  get_float : float_tag -> TIFF -> option float;
  get_text : text_tag -> TIFF -> option string;
  get_data : data_tag -> TIFF -> option string;
  get_subifd : TIFF -> option (list Z);
  get_samples : sample_tag -> TIFF -> option (list float);  (** [TIFFGetFieldDefaulted], [PERSAMPLE_MULTI] *)
  get_sample : sample_tag -> TIFF -> option float;          (** [TIFFGetFieldDefaulted] *)
  set_jpeg_rgb : TIFF -> TIFF;                        (** [TIFFTAG_JPEGCOLORMODE, JPEGCOLORMODE_RGB] *)
  TIFFNumberOfTiles : TIFF -> Z;
  TIFFTileSize : TIFF -> Z;
  TIFFReadEncodedTile : Z -> TIFF -> option bytes
}.

Definition newline : string := String (chr 10) "".

Definition PHOTOMETRIC_MINISBLACK : Z := 1.
Definition PHOTOMETRIC_PALETTE : Z := 3.
Definition PHOTOMETRIC_YCBCR : Z := 6.
Definition PHOTOMETRIC_CIELAB : Z := 8.

Section TPT.
Context {lib : LibTIFF} (fs : FileSystem) (junk : Z -> Z).

(** ** The object *)

Record TPTImage := mkTPTImage {
  base : IIPImage;
  tiff : option TIFF;
  tile_buf : option bytes;
  subIfdOffsets : list Z
}.

(** [TPTImage( const IIPImage& )] *)
Definition of_image (i : IIPImage) : TPTImage := mkTPTImage i None None [].

Abbreviation T := (Obj TPTImage).

Definition on_base (f : IIPImage -> IIPImage) : T unit :=
  obj_set (fun o => mkTPTImage (f (base o)) (tiff o) (tile_buf o) (subIfdOffsets o)).
Definition set_tiff (t : option TIFF) : T unit := obj_set (fun o => mkTPTImage (base o) t (tile_buf o) (subIfdOffsets o)).
Definition set_buf (b : option bytes) : T unit := obj_set (fun o => mkTPTImage (base o) (tiff o) b (subIfdOffsets o)).

(** [tiff]: libtiff reads through the pointer. *)
Definition the_tiff : T TIFF := obj_deref tiff "null TIFF".

(** A value that was never set: the [n]th of the function. *)
Definition uninit (n : Z) : Z := u16 (junk n).
Definition uninit32 (n : Z) : Z := u32 (junk n).

Definition closeImage : T unit := _ ← set_tiff None; set_buf None.

(** ** Loading *)

Definition initializeSubIfdOffsets : T unit :=
  t ← the_tiff;
  obj_set (fun o => mkTPTImage (base o) (tiff o) (tile_buf o) (default [] (get_subifd t) ++ subIfdOffsets o)).

(** The fields of the image.  [TIFFGetField] stores 16 bits of the unit in the
    low half of an [int]. *)
Definition basic_fields (t : TIFF) (i : IIPImage) : IIPImage :=
  let units := match get_int RESOLUTIONUNIT t with
               | Some v => dpi_units i / 2 ^ 16 * 2 ^ 16 + v
               | None => dpi_units i end in
  i <| tile_width := default (tile_width i) (get_int TILEWIDTH t) |>
    <| tile_height := default (tile_height i) (get_int TILELENGTH t) |>
    <| dpi_x := default (dpi_x i) (get_float XRESOLUTION t) |>
    <| dpi_y := default (dpi_y i) (get_float YRESOLUTION t) |>
    <| dpi_units := i32 (units - 1) |>
    <| IIPImage.channels := default (uninit 0) (get_int SAMPLESPERPIXEL t) |>
    <| IIPImage.bpc := default (uninit 1) (get_int BITSPERSAMPLE t) |>
    <| IIPImage.sampleType := if default (uninit 2) (get_int SAMPLEFORMAT t) =? 3 then FLOATINGPOINT else FIXEDPOINT |>.

Definition push_size (w h : Z) : T unit :=
  on_base (fun i => i <| image_widths := image_widths i ++ [w] |> <| image_heights := image_heights i ++ [h] |>).

(** The size of the current directory, in variables that keep their value. *)
Definition read_size (w h : Z) : T (Z * Z) :=
  t ← the_tiff; mret (default w (get_int IMAGEWIDTH t), default h (get_int IMAGELENGTH t)).

Fixpoint subifd_levels (offsets : list Z) (w h : Z) : T unit :=
  match offsets with
  | [] => mret tt
  | offset :: offsets =>
      t ← the_tiff;
      _ ← set_tiff (Some (TIFFSetSubDirectory offset t).2);
      '(w, h) ← read_size w h;
      _ ← push_size w h;
      t ← the_tiff;
      _ ← set_tiff (Some (TIFFSetDirectory 0 t).2);
      subifd_levels offsets w h
  end.

(** The directories after the first; the number of them is the fuel. *)
Fixpoint directory_levels (fuel : nat) (count w h : Z) : T Z :=
  match fuel with
  | O => obj_lift (Err OutOfFuel)
  | S fuel =>
      t ← the_tiff;
      let '(more, t) := TIFFReadDirectory t in
      _ ← set_tiff (Some t);
      if more then
        '(w, h) ← read_size w h;
        _ ← push_size w h;
        directory_levels fuel (count + 1) w h
      else mret count
  end.

Definition set_directory (d : Z) (message : string) : T unit :=
  t ← the_tiff;
  let '(found, t) := TIFFSetDirectory d t in
  _ ← set_tiff (Some t);
  if found then mret tt else file_error message.

Definition load_levels (w h : Z) : T unit :=
  t ← the_tiff;
  let current_dir := TIFFCurrentDirectory t in
  _ ← set_directory 0 "TPTImage :: TIFFSetDirectory() failed";
  _ ← initializeSubIfdOffsets;
  _ ← push_size w h;
  offsets ← obj_get subIfdOffsets;
  n ← (if (0 <? length offsets)%nat then
         _ ← subifd_levels offsets w h; mret (Z.of_nat (length offsets) + 1)
       else
         count ← directory_levels (S (Z.to_nat (TIFFNumberOfDirectories t))) 0 w h; mret (count + 1));
  _ ← on_base (fun i => i <| numResolutions := u32 n |>);
  set_directory current_dir "TPTImage :: TIFFSetDirectory() failed".

(** The colour space; what a palette becomes depends on the caller. *)
Definition set_colour (palette : ColourSpaces) (palette_channels colour : Z) : T unit :=
  let colourspace_ c := on_base (fun i => i <| IIPImage.colourspace := c |>) in
  if colour =? PHOTOMETRIC_CIELAB then colourspace_ CIELAB
  else if colour =? PHOTOMETRIC_MINISBLACK then
    on_base (fun i => i <| IIPImage.colourspace := if IIPImage.bpc i =? 1 then BINARY else GREYSCALE |>)
  else if colour =? PHOTOMETRIC_PALETTE then
    on_base (fun i => i <| IIPImage.colourspace := palette |> <| IIPImage.channels := palette_channels |>)
  else if colour =? PHOTOMETRIC_YCBCR then
    t ← the_tiff; _ ← set_tiff (Some (set_jpeg_rgb t)); colourspace_ sRGB
  else colourspace_ sRGB.

(** The range of the samples of one channel, at the end of the lists.  The test
    [(!sminvalue) == smaxvalue[i]] compares the maximum with the negation of a
    pointer, which is 0. *)
Definition channel_range (sminvalue smaxvalue : list float) (k : Z) (i : IIPImage) : res IIPImage :=
  let f64 z := of_Z b64 z in
  mx ← rd smaxvalue k;
  let mx := if feq (f64 0) mx then
              if IIPImage.bpc i <=? 8 then f64 255
              else if IIPImage.bpc i =? 12 then f64 4095
              else if IIPImage.bpc i =? 16 then f64 65535
              else if (IIPImage.bpc i =? 32) && bool_decide (IIPImage.sampleType i = FIXEDPOINT) then f64 4294967295
              else mx
            else mx in
  mn ← rd sminvalue k;
  Ok (i <| IIPImage.min := IIPImage.min i ++ [fcvt b32 mn] |> <| IIPImage.max := IIPImage.max i ++ [fcvt b32 mx] |>).

Definition sample_ranges (t : TIFF) (i : IIPImage) : res IIPImage :=
  let none := replicate 4 (FZero false) in
  let values tag := if 1 <? IIPImage.channels i then default none (get_samples tag t)
                    else default (FZero false) (get_sample tag t) :: replicate 3 (FZero false) in
  foldM (channel_range (values SMINSAMPLEVALUE) (values SMAXSAMPLEVALUE)) (range 0 (IIPImage.channels i))
    (i <| IIPImage.min := [] |> <| IIPImage.max := [] |>).

Definition read_metadata (t : TIFF) (i : IIPImage) : IIPImage :=
  let add key value m := match value with Some v => <[key := v]> m | None => m end in
  let text key tag := add key (c_str <$> get_text tag t) in
  let data key tag := add key (get_data tag t) in
  i <| metadata := data "icc" ICCPROFILE (data "xmp" XMLPACKET (text "app-name" SOFTWARE (text "subject" IMAGEDESCRIPTION
                     (text "create-dtm" DATETIME (text "copyright" COPYRIGHT (text "author" ARTIST (metadata i))))))) |>.

Definition loadImageInfo (seq ang : Z) : T unit :=
  _ ← on_base (fun i => i <| currentX := seq |> <| currentY := ang |>);
  t ← the_tiff;
  let colour := default (uninit 3) (get_int PHOTOMETRIC t) in
  _ ← on_base (basic_fields t);
  '(w, h) ← read_size (uninit32 4) (uninit32 5);
  _ ← load_levels w h;
  _ ← set_colour sRGB 3 colour;
  t ← the_tiff;
  i ← obj_get base;
  i ← obj_lift (sample_ranges t i);
  on_base (fun _ => read_metadata t i).

Definition openImage : T unit :=
  o ← obj_get (fun o => o);
  match tiff o, tile_buf o with
  | None, None =>
      let filename := getFileName (currentX (base o)) (currentY (base o)) (base o) in
      i ← obj_lift (updateTimestamp fs filename (base o));
      _ ← on_base (fun _ => i);
      match TIFFOpen (c_str filename) with
      | None => file_error ("TPTImage :: TIFFOpen() failed for: " +:+ filename)
      | Some t =>
          _ ← set_tiff (Some t);
          _ ← obj_when (IIPImage.bpc i =? 0) (loadImageInfo (currentX i) (currentY i));
          i ← obj_get base;
          if (tile_width i =? 0) && (tile_height i =? 0) then file_error "TPTImage :: Image is not tiled"
          else on_base (fun i => i <| IIPImage.isSet := true |>)
      end
  | _, _ => file_error "TPTImage :: tiff or tile_buf is not NULL"
  end.

(** ** Tiles *)

(** The size of a tile: what is left of the level in the last column and row. *)
Definition edge_size (tile im_width im_height tw th : Z) : res (Z * Z) :=
  rem_x ← umod im_width tw;
  rem_y ← umod im_height th;
  let ntlx := u32 (ntiles im_width tw) in
  let ntly := u32 (ntiles im_height th) in
  column ← umod tile ntlx;
  row ← udiv tile ntlx;
  Ok (if (column =? u32 (ntlx - 1)) && negb (rem_x =? 0) then rem_x else tw,
      if (row =? u32 (ntly - 1)) && negb (rem_y =? 0) then rem_y else th).

(** The eight pixels of a byte, from the highest bit down. *)
Definition unpack_byte (mn mx t : Z) (k : Z) (st : Z * bytes) : res (Z * bytes) :=
  let '(n, buffer) := st in
  buffer ← wr buffer n (if negb (Z.land t (Z.shiftl 1 k) =? 0) then mx else mn);
  Ok (n + 1, buffer).

(** The pixels of a bilevel tile as bytes, with their number. *)
Definition unpack (colour np : Z) (tile_buf : bytes) : res (Z * bytes) :=
  let nbytes := u32 (np + 7) / 8 in
  let '(mn, mx) := if colour =? 0 then (255, 0) else (0, 255) in
  foldM (fun i st => t ← rd tile_buf i; foldM (unpack_byte mn mx t) (reverse (range 0 8)) st)
    (range 0 nbytes) (0, new_bytes junk np).

(** The directory of a resolution: the first is the highest. *)
Definition select_level (res_ : Z) : T unit :=
  o ← obj_get (fun o => o);
  t ← the_tiff;
  let numres := numResolutions (base o) in
  let vipsres := i32 (u32 (u32 (numres - 1) - res_)) in
  if (length (subIfdOffsets o) =? 0)%nat || (vipsres =? 0) then
    set_directory vipsres
      ("subifd: " +:+ dec (if (length (subIfdOffsets o) =? 0)%nat then 0 else 1) +:+ newline
       +:+ "numres: " +:+ dec numres +:+ newline +:+ "res: " +:+ dec res_ +:+ newline
       +:+ "vipsres: " +:+ dec vipsres +:+ newline)
  else
    offset ← obj_lift (rd (subIfdOffsets o) (vipsres - 1));
    let '(found, t) := TIFFSetSubDirectory offset t in
    _ ← set_tiff (Some t);
    if found then mret tt else file_error "TPTImage :: TIFFSetSubDirectory() failed".

(** Reads the tile into the buffer, which is allocated once. *)
Definition read_tile (seq ang tile : Z) : T Z :=
  o ← obj_get (fun o => o);
  t ← the_tiff;
  _ ← (match tile_buf o with None => set_buf (Some (new_bytes junk (TIFFTileSize t))) | Some _ => mret tt end);
  o ← obj_get (fun o => o);
  match TIFFReadEncodedTile tile t, tile_buf o with
  | None, _ => file_error ("TPTImage :: TIFFReadEncodedTile() failed for " +:+ getFileName seq ang (base o))
  | Some d, Some b =>
      b ← obj_lift (memcpy b 0 d 0 (blen d));
      _ ← set_buf (Some b);
      mret (i32 (blen d))
  | Some _, None => obj_lift (undef "null tile_buf")
  end.

(** The tile around the buffer.  It points to the buffer of the object, which the
    next tile overwrites; the tile manager copies it at once. *)
Definition make_tile (seq ang res_ tile tw th length : Z) (b : bytes) (i : IIPImage) : RawTile :=
  (new_RawTile tile res_ seq ang tw th (IIPImage.channels i) (IIPImage.bpc i))
    <| RawTile.data := Some b |> <| RawTile.dataLength := u32 length |> <| RawTile.filename := getImagePath i |>
    <| RawTile.timestamp := IIPImage.timestamp i |> <| RawTile.memoryManaged := 0 |> <| RawTile.padded := true |>
    <| RawTile.sampleType := IIPImage.sampleType i |>.

Definition reopen (seq ang : Z) : T unit :=
  i ← obj_get base;
  let other := negb (currentX i =? seq) || negb (currentY i =? ang) in
  _ ← obj_when other closeImage;
  o ← obj_get (fun o => o);
  _ ← (match tiff o with
       | Some _ => mret tt
       | None =>
           let filename := getFileName seq ang (base o) in
           match TIFFOpen (c_str filename) with
           | None => file_error ("TPTImage :: TIFFOpen() failed for:" +:+ filename)
           | Some t => set_tiff (Some t)
           end
       end);
  _ ← obj_when other (loadImageInfo seq ang);
  offsets ← obj_get subIfdOffsets;
  obj_when (length offsets =? 0)%nat initializeSubIfdOffsets.

Definition getTile (seq ang res_ layers tile : Z) : T RawTile :=
  i ← obj_get base;
  if numResolutions i <? res_ then file_error ("TPTImage :: Asked for non-existent resolution: " +:+ dec res_)
  else
    _ ← reopen seq ang;
    _ ← select_level res_;
    t ← the_tiff;
    if TIFFNumberOfTiles t <=? tile then file_error ("TPTImage :: Asked for non-existent tile: " +:+ dec tile)
    else
      let tw := default (uninit32 0) (get_int TILEWIDTH t) in
      let th := default (uninit32 1) (get_int TILELENGTH t) in
      let im_width := default (uninit32 2) (get_int IMAGEWIDTH t) in
      let im_height := default (uninit32 3) (get_int IMAGELENGTH t) in
      let colour := default (uninit 4) (get_int PHOTOMETRIC t) in
      if (tw =? 0) || (th =? 0) then file_error "TPTImage :: Requested resolution is not tiled"
      else
        let np := u32 (tw * th) in
        '(tw, th) ← obj_lift (edge_size tile im_width im_height tw th);
        _ ← set_colour GREYSCALE 1 colour;
        length ← read_tile seq ang tile;
        o ← obj_get (fun o => o);
        let b := default [] (tile_buf o) in
        let rawtile := make_tile seq ang res_ tile tw th length b (base o) in
        if (IIPImage.bpc (base o) =? 1) && (IIPImage.channels (base o) =? 1) then
          '(n, buffer) ← obj_lift (unpack colour np b);
          mret (rawtile <| RawTile.dataLength := u32 n |> <| RawTile.data := Some buffer |>
                        <| RawTile.bpc := 8 |> <| RawTile.memoryManaged := 1 |>)
        else mret rawtile.

(** ** The codec *)

(** A call on a new object made from the image. *)
Definition TPT_codec : Codec := {|
  codec_regionDecoding := false;
  codec_description := "IIPImage Base Class";
  codec_openImage := fun i => obj_run openImage (fun _ o => base o) (of_image i);
  codec_loadImageInfo := fun i x y => obj_run (_ ← openImage; loadImageInfo x y) (fun _ o => base o) (of_image i);
  codec_getTile := fun i x y r l t => (getTile x y r l t (of_image i)).1;
  codec_getRegion := fun _ _ _ _ _ _ _ _ _ => undef "no region decoding"
|}.
End TPT.

(** ** Computations of [T] *)

Section TLemmas.
Context {lib : LibTIFF}.
Abbreviation T := (Obj TPTImage).

(** Steps whose outcome is plain. *)
Lemma base_bind {B} f (k : unit -> T B) i t b s :
  (on_base f ≫= k) (mkTPTImage i t b s) = k tt (mkTPTImage (f i) t b s).
Proof. reflexivity. Qed.
Lemma tiff_bind {B} u (k : unit -> T B) i t b s :
  (set_tiff u ≫= k) (mkTPTImage i t b s) = k tt (mkTPTImage i u b s).
Proof. reflexivity. Qed.
Lemma buf_bind {B} u (k : unit -> T B) i t b s :
  (set_buf u ≫= k) (mkTPTImage i t b s) = k tt (mkTPTImage i t u s).
Proof. reflexivity. Qed.
Lemma the_tiff_bind {B} (k : TIFF -> T B) i t b s :
  (the_tiff ≫= k) (mkTPTImage i (Some t) b s) = k t (mkTPTImage i (Some t) b s).
Proof. reflexivity. Qed.
End TLemmas.

(** ** The files *)

Section Pyramid.
Context {lib : LibTIFF} (fs : FileSystem) (junk : Z -> Z).
Abbreviation T := (Obj TPTImage).
(** The sizes of the levels, the largest first; the size of the tiles, channels,
    depth and colours; the sub-directories, if the levels are there; the decoded
    tiles of each level. *)
Context (path : string) (widths heights : list Z) (TW TH ch bits colour : Z) (offsets : list Z).
Context (px : Z -> Z -> bytes).

Definition levels : Z := Z.of_nat (length widths).
Definition level_w (k : Z) : Z := nth (Z.to_nat k) widths 0.
Definition level_h (k : Z) : Z := nth (Z.to_nat k) heights 0.
Definition tile_count (k : Z) : Z := ntiles (level_w k) TW * ntiles (level_h k) TH.
Definition tile_bytes_ : Z := TW * TH * (ch * (bits / 8)).

(** What libtiff documents, for a file that is such a pyramid: [at_level k t] says
    that the current directory of [t] is that of level [k]. *)
Context (at_level : Z -> TIFF -> Prop).

Record pyramid : Prop := {
  py_same : length heights = length widths;
  py_open : exists t, TIFFOpen path = Some t /\ at_level 0 t;
  py_level : forall k t, at_level k t -> 0 <= k < levels;
  py_first : forall k t, at_level k t -> exists t', TIFFSetDirectory 0 t = (true, t') /\ at_level 0 t';
  py_current : forall t, at_level 0 t -> TIFFCurrentDirectory t = 0;
  py_subifd : forall t, at_level 0 t -> default [] (get_subifd t) = offsets;
  py_offsets : offsets <> [] -> Z.of_nat (length offsets) + 1 = levels;
  py_sub : forall k t j o, at_level k t -> offsets !! j = Some o ->
    exists t', TIFFSetSubDirectory o t = (true, t') /\ at_level (Z.of_nat j + 1) t';
  py_none : offsets = [] -> forall k t, at_level k t -> default [] (get_subifd t) = [];
  py_set : offsets = [] -> forall k t d, at_level k t ->
    exists t' k', TIFFSetDirectory d t = ((0 <=? d) && (d <? levels), t') /\ at_level k' t' /\ (0 <= d < levels -> k' = d);
  py_read : offsets = [] -> forall k t, at_level k t ->
    exists t' k', TIFFReadDirectory t = (k + 1 <? levels, t') /\ at_level k' t' /\ (k + 1 < levels -> k' = k + 1);
  py_number : forall k t, at_level k t -> levels <= TIFFNumberOfDirectories t \/ offsets <> [];
  py_width : forall k t, at_level k t -> get_int IMAGEWIDTH t = Some (level_w k);
  py_height : forall k t, at_level k t -> get_int IMAGELENGTH t = Some (level_h k);
  py_tw : forall k t, at_level k t -> get_int TILEWIDTH t = Some TW;
  py_th : forall k t, at_level k t -> get_int TILELENGTH t = Some TH;
  py_colour : forall k t, at_level k t -> get_int PHOTOMETRIC t = Some colour;
  py_ch : forall t, at_level 0 t -> get_int SAMPLESPERPIXEL t = Some ch;
  py_bits : forall t, at_level 0 t -> get_int BITSPERSAMPLE t = Some bits;
  py_jpeg : forall k t, at_level k t -> at_level k (set_jpeg_rgb t);
  py_tiles : forall k t, at_level k t -> TIFFNumberOfTiles t = tile_count k;
  py_size : forall k t, at_level k t -> TIFFTileSize t = tile_bytes_;
  py_px : forall k t n, at_level k t -> 0 <= n < tile_count k -> TIFFReadEncodedTile n t = Some (px k n);
  py_samples : forall tag t l, at_level 0 t -> get_samples tag t = Some l -> ch <= Z.of_nat (length l)
}.

(** Sizes in the range of the server's integers; no palette. *)
Record pyramid_sizes : Prop := {
  ps_levels : 0 < levels < 2 ^ 31;
  ps_tw : 0 < TW < 2 ^ 24;
  ps_th : 0 < TH < 2 ^ 24;
  ps_ch : 0 < ch <= 4;
  ps_bits : bits = 8 \/ bits = 16 \/ bits = 32;
  ps_bytes : tile_bytes_ < 2 ^ 31;
  ps_level : forall k, 0 <= k < levels -> 0 < level_w k < 2 ^ 24 /\ 0 < level_h k < 2 ^ 24 /\ tile_count k < 2 ^ 31;
  ps_colour : colour <> PHOTOMETRIC_PALETTE;
  ps_px : forall k n, 0 <= k < levels -> 0 <= n < tile_count k -> blen (px k n) = tile_bytes_
}.

Context (Hp : pyramid) (Hs : pyramid_sizes).

Lemma tile_bytes_pos : 0 < tile_bytes_.
Proof.
  unfold tile_bytes_. pose proof (ps_tw Hs). pose proof (ps_th Hs). pose proof (ps_ch Hs).
  destruct (ps_bits Hs) as [-> | [-> | ->]]; (change (8 / 8) with 1 || change (16 / 8) with 2 || change (32 / 8) with 4); nia.
Qed.

(** ** The state of the object *)

Definition colourspace_of : ColourSpaces :=
  if colour =? PHOTOMETRIC_CIELAB then CIELAB else if colour =? PHOTOMETRIC_MINISBLACK then GREYSCALE else sRGB.

(** The image as it was loaded from the file. *)
Record describes (seq ang : Z) (i : IIPImage) : Prop := {
  ds_widths : image_widths i = widths;
  ds_heights : image_heights i = heights;
  ds_res : numResolutions i = levels;
  ds_tw : tile_width i = TW;
  ds_th : tile_height i = TH;
  ds_ch : IIPImage.channels i = ch;
  ds_bpc : IIPImage.bpc i = bits;
  ds_colour : IIPImage.colourspace i = colourspace_of;
  ds_x : currentX i = seq;
  ds_y : currentY i = ang;
  ds_path : c_str (getFileName seq ang i) = path
}.

(** Whatever was asked of the object: the image is as it was loaded, the file is
    closed or open at some level, and the sub-directories are known or the file is
    at its first directory. *)
Inductive tpt_inv (i : IIPImage) : TPTImage -> Prop :=
| tpt_closed b s : (s = [] \/ s = offsets) -> (forall d, b = Some d -> blen d = tile_bytes_) ->
    tpt_inv i (mkTPTImage i None b s)
| tpt_opened k t b s : at_level k t -> (s = offsets \/ s = [] /\ k = 0) -> (forall d, b = Some d -> blen d = tile_bytes_) ->
    tpt_inv i (mkTPTImage i (Some t) b s).

(** ** Colours *)

Lemma set_colour_ok palette n i k t b s :
  at_level k t -> IIPImage.bpc i = bits ->
  exists t', set_colour palette n colour (mkTPTImage i (Some t) b s)
      = (Ok tt, mkTPTImage (i <| IIPImage.colourspace := colourspace_of |>) (Some t') b s) /\ at_level k t'.
Proof.
  intros Ht Hb. unfold set_colour, colourspace_of. rewrite (proj2 (Z.eqb_neq _ _) (ps_colour Hs)).
  assert (B : (IIPImage.bpc i =? 1) = false) by (rewrite Hb; destruct (ps_bits Hs) as [-> | [-> | ->]]; reflexivity).
  destruct (colour =? PHOTOMETRIC_CIELAB); [exists t; split; [reflexivity|exact Ht]|].
  destruct (colour =? PHOTOMETRIC_MINISBLACK).
  { exists t. split; [|exact Ht]. unfold on_base, obj_set. cbn [base tiff tile_buf subIfdOffsets]. rewrite B. reflexivity. }
  destruct (colour =? PHOTOMETRIC_YCBCR); [|exists t; split; [reflexivity|exact Ht]].
  exists (set_jpeg_rgb t). split; [reflexivity|apply (py_jpeg Hp), Ht].
Qed.

Lemma set_colour_same palette n i k t b s :
  at_level k t -> IIPImage.colourspace i = colourspace_of -> IIPImage.bpc i = bits ->
  exists t', set_colour palette n colour (mkTPTImage i (Some t) b s) = (Ok tt, mkTPTImage i (Some t') b s) /\ at_level k t'.
Proof.
  intros Ht Hc Hb. destruct (set_colour_ok palette n i k t b s Ht Hb) as (t' & -> & Ht'). exists t'. split; [|exact Ht'].
  rewrite <- Hc. destruct i; reflexivity.
Qed.

Lemma load_offsets i k t b s :
  at_level k t -> s = offsets \/ s = [] /\ k = 0 ->
  (o' ← obj_get subIfdOffsets; obj_when (length o' =? 0)%nat initializeSubIfdOffsets) (mkTPTImage i (Some t) b s)
  = (Ok tt, mkTPTImage i (Some t) b offsets).
Proof.
  intros Ht Hoff. rewrite obj_get_bind. cbn [subIfdOffsets]. destruct s as [|x s]; cbn [length Nat.eqb obj_when].
  - unfold initializeSubIfdOffsets. rewrite the_tiff_bind. unfold obj_set. cbn [base tiff tile_buf subIfdOffsets].
    rewrite app_nil_r. destruct Hoff as [Hoff|[_ ->]].
    + rewrite (py_none Hp (eq_sym Hoff) k t Ht), <- Hoff. reflexivity.
    + rewrite (py_subifd Hp t Ht). reflexivity.
  - destruct Hoff as [->|[[=] _]]. reflexivity.
Qed.

Lemma reopen_ok seq ang i o :
  describes seq ang i -> tpt_inv i o ->
  exists k t b, reopen junk seq ang o = (Ok tt, mkTPTImage i (Some t) b offsets) /\ at_level k t
    /\ forall d, b = Some d -> blen d = tile_bytes_.
Proof.
  intros Hd Ho. unfold reopen. rewrite obj_get_bind.
  assert (Eb : base o = i) by (destruct Ho; reflexivity). rewrite Eb.
  rewrite (ds_x _ _ _ Hd), (ds_y _ _ _ Hd), !Z.eqb_refl. cbn [negb orb obj_when]. rewrite obj_ret_bind, obj_get_bind.
  destruct Ho as [b s Hsub Hb|k t b s Ht Hoff Hb]; cbn [tiff base].
  - rewrite (ds_path _ _ _ Hd). destruct (py_open Hp) as (t & -> & Ht). rewrite tiff_bind, obj_ret_bind.
    exists 0, t, b. rewrite (load_offsets i 0 t b s Ht) by tauto. auto.
  - rewrite !obj_ret_bind. exists k, t, b. rewrite (load_offsets i k t b s Ht Hoff). auto.
Qed.

(** ** The directory of a resolution *)

Lemma set_directory_ok i k t b s d message :
  at_level k t -> offsets = [] \/ d = 0 ->
  exists k' t', set_directory d message (mkTPTImage i (Some t) b s)
      = ((if (0 <=? d) && (d <? levels) then Ok tt else throw (ExnFile message)), mkTPTImage i (Some t') b s)
    /\ at_level k' t' /\ (0 <= d < levels -> k' = d).
Proof.
  intros Ht Hd. unfold set_directory. rewrite the_tiff_bind.
  assert (E : exists k' t', TIFFSetDirectory d t = ((0 <=? d) && (d <? levels), t') /\ at_level k' t' /\ (0 <= d < levels -> k' = d)).
  { destruct Hd as [Ho|Ho].
    - destruct (py_set Hp Ho k t d Ht) as (t' & k' & E & H1 & H2). eauto.
    - subst d. destruct (py_first Hp k t Ht) as (t' & E & H1). exists 0, t'. split; [|auto].
      rewrite E. pose proof (py_level Hp k t Ht). rewrite (proj2 (Z.ltb_lt 0 levels)) by lia. reflexivity. }
  destruct E as (k' & t' & -> & H1 & H2). rewrite tiff_bind. exists k', t'.
  destruct (_ && _); auto.
Qed.

(** Level of a resolution. *)
Lemma select_level_ok i k t b r :
  at_level k t -> numResolutions i = levels -> 0 <= r < levels ->
  exists t', select_level r (mkTPTImage i (Some t) b offsets) = (Ok tt, mkTPTImage i (Some t') b offsets)
    /\ at_level (levels - 1 - r) t'.
Proof.
  intros Ht Hn Hr. pose proof (ps_levels Hs) as Hl. unfold select_level. rewrite obj_get_bind, the_tiff_bind. cbn [base subIfdOffsets].
  rewrite Hn. replace (i32 (u32 (u32 (levels - 1) - r))) with (levels - 1 - r)
    by (rewrite (u32_small (levels - 1)), u32_small, i32_small by lia; reflexivity).
  assert (Hin : (0 <=? levels - 1 - r) && (levels - 1 - r <? levels) = true)
    by (rewrite (proj2 (Z.leb_le _ _)), (proj2 (Z.ltb_lt _ _)) by lia; reflexivity).
  destruct (_ || _) eqn:E.
  - assert (Hd : offsets = [] \/ levels - 1 - r = 0).
    { apply orb_prop in E as [E|E]; [left|right].
      - apply Nat.eqb_eq, length_zero_iff_nil in E. exact E.
      - apply Z.eqb_eq, E. }
    match goal with |- context [set_directory ?d ?msg ?o] =>
      destruct (set_directory_ok i k t b offsets d msg Ht Hd) as (k' & t' & E' & H1 & H2) end.
    rewrite E', Hin. exists t'. split; [reflexivity|]. rewrite H2 in H1 by lia. exact H1.
  - apply orb_false_elim in E as [E1 E2]. apply Z.eqb_neq in E2. apply Nat.eqb_neq in E1.
    assert (Hne : offsets <> []) by (intros Ho; apply E1; rewrite Ho; reflexivity).
    pose proof (py_offsets Hp Hne) as Hlen.
    destruct (rd_in_range offsets (levels - 1 - r - 1)) as (off & Hrd & Hoff); [lia|].
    rewrite Hrd, obj_lift_bind. destruct (py_sub Hp k t _ off Ht Hoff) as (t' & -> & Ht'). rewrite tiff_bind.
    exists t'. split; [reflexivity|]. replace (levels - 1 - r) with (Z.of_nat (Z.to_nat (levels - 1 - r - 1)) + 1) by lia. exact Ht'.
Qed.

(** The resolution after the last one passes the first test. *)
Lemma select_level_past i k t b :
  at_level k t -> numResolutions i = levels ->
  exists f k' t', select_level levels (mkTPTImage i (Some t) b offsets) = (Err f, mkTPTImage i (Some t') b offsets)
    /\ at_level k' t' /\ forall k2 t2 b2, at_level k2 t2 -> (select_level levels (mkTPTImage i (Some t2) b2 offsets)).1 = Err f.
Proof.
  intros Ht Hn. pose proof (ps_levels Hs) as Hl.
  assert (Hv : i32 (u32 (u32 (levels - 1) - levels)) = -1).
  { rewrite (u32_small (levels - 1)) by lia. replace (levels - 1 - levels) with (-1) by lia. reflexivity. }
  set (msg := "subifd: " +:+ dec (if (length offsets =? 0)%nat then 0 else 1) +:+ newline +:+ "numres: " +:+ dec levels +:+ newline
              +:+ "res: " +:+ dec levels +:+ newline +:+ "vipsres: " +:+ dec (-1) +:+ newline).
  set (f := if (length offsets =? 0)%nat then Thrown (ExnFile msg) else Undefined "read before buffer").
  assert (G : forall k2 t2 b2, at_level k2 t2 -> exists k' t', select_level levels (mkTPTImage i (Some t2) b2 offsets)
                = (Err f, mkTPTImage i (Some t') b2 offsets) /\ at_level k' t').
  { intros k2 t2 b2 H2. unfold select_level. rewrite obj_get_bind, the_tiff_bind. cbn [base subIfdOffsets]. rewrite Hn, Hv.
    change (-1 =? 0) with false. rewrite orb_false_r. unfold f. destruct (Nat.eqb_spec (length offsets) 0) as [E|E].
    - apply length_zero_iff_nil in E. destruct (set_directory_ok i k2 t2 b2 offsets (-1) msg H2 (or_introl E)) as (k' & t' & E' & H1 & _).
      exists k', t'. split; [exact E'|exact H1].
    - exists k2, t2. split; [|exact H2]. reflexivity. }
  destruct (G k t b Ht) as (k' & t' & E & H'). exists f, k', t'. split; [exact E|]. split; [exact H'|].
  intros k2 t2 b2 H2. destruct (G k2 t2 b2 H2) as (? & ? & -> & _). reflexivity.
Qed.

(** ** A tile *)

Definition edge_w (k tile : Z) : Z := Z.min TW (level_w k - tile mod ntiles (level_w k) TW * TW).
Definition edge_h (k tile : Z) : Z := Z.min TH (level_h k - tile / ntiles (level_w k) TW * TH).

Lemma edge_size_ok k tile : 0 <= k < levels -> 0 <= tile < tile_count k ->
  edge_size tile (level_w k) (level_h k) TW TH = Ok (edge_w k tile, edge_h k tile).
Proof.
  intros Hk Ht. destruct (ps_level Hs k Hk) as (Hw & Hh & Hc). pose proof (ps_tw Hs). pose proof (ps_th Hs).
  pose proof (ntiles_pos (level_w k) TW ltac:(lia) ltac:(lia)) as Pw.
  pose proof (ntiles_pos (level_h k) TH ltac:(lia) ltac:(lia)) as Ph. unfold tile_count in *.
  destruct (factors_small _ _ _ Pw Ph Hc) as [Bw Bh].
  unfold edge_size. rewrite (umod_ok (level_w k)), (umod_ok (level_h k)), !bind_ret by lia. cbv zeta.
  rewrite !u32_small by (rewrite ?u32_small by lia; lia). rewrite umod_ok, udiv_ok, !bind_ret by lia.
  rewrite !rest_of_level; [reflexivity|lia|lia| |lia|lia|apply Z.mod_pos_bound; lia].
  split; [apply Z.div_pos; lia|apply Z.div_lt_upper_bound; lia].
Qed.

(** The buffer is as large as every tile, whenever it was allocated. *)
Lemma read_tile_ok seq ang i k t b s tile :
  at_level k t -> 0 <= tile < tile_count k -> (forall d, b = Some d -> blen d = tile_bytes_) ->
  read_tile junk seq ang tile (mkTPTImage i (Some t) b s) = (Ok tile_bytes_, mkTPTImage i (Some t) (Some (px k tile)) s).
Proof.
  intros Ht Htile Hb. unfold read_tile. rewrite obj_get_bind, the_tiff_bind. cbn [tile_buf].
  pose proof (py_level Hp k t Ht) as Hk. pose proof (ps_px Hs k tile Hk Htile) as Hl.
  pose proof tile_bytes_pos as Pb. pose proof (ps_bytes Hs) as Bb.
  assert (G : forall d, blen d = tile_bytes_ ->
    (o ← obj_get (fun o => o);
     match TIFFReadEncodedTile tile t, tile_buf o with
     | None, _ => file_error ("TPTImage :: TIFFReadEncodedTile() failed for " +:+ getFileName seq ang (base o))
     | Some d, Some b => b ← obj_lift (memcpy b 0 d 0 (blen d)); _ ← set_buf (Some b); mret (i32 (blen d))
     | Some _, None => obj_lift (undef "null tile_buf")
     end) (mkTPTImage i (Some t) (Some d) s) = (Ok tile_bytes_, mkTPTImage i (Some t) (Some (px k tile)) s)).
  { intros d Hd. rewrite obj_get_bind, (py_px Hp k t tile Ht Htile). cbn [tile_buf].
    rewrite memcpy_all by congruence. rewrite obj_lift_bind, buf_bind, Hl, i32_small by lia. reflexivity. }
  destruct b as [d|].
  - rewrite obj_ret_bind. apply G, Hb. reflexivity.
  - rewrite buf_bind. apply G. rewrite (py_size Hp k t Ht). apply blen_new_bytes. lia.
Qed.

(** The tile an object answers with, whatever was asked of it before. *)
Definition the_tile (seq ang r tile : Z) (i : IIPImage) : RawTile :=
  let k := levels - 1 - r in
  make_tile seq ang r tile (edge_w k tile) (edge_h k tile) tile_bytes_ (px k tile) i.

Lemma getTile_level seq ang i o r layers tile :
  describes seq ang i -> tpt_inv i o -> 0 <= r < levels -> 0 <= tile ->
  let k := levels - 1 - r in
  exists o', getTile junk seq ang r layers tile o
      = ((if tile_count k <=? tile then throw (ExnFile ("TPTImage :: Asked for non-existent tile: " +:+ dec tile))
          else Ok (the_tile seq ang r tile i)), o')
    /\ tpt_inv i o'.
Proof.
  intros Hd Ho Hr Htile k. assert (Hk : 0 <= k < levels) by (unfold k; lia).
  unfold getTile. rewrite obj_get_bind.
  assert (Eb : base o = i) by (destruct Ho; reflexivity). rewrite Eb, (ds_res _ _ _ Hd), (proj2 (Z.ltb_ge _ _)) by lia.
  destruct (reopen_ok seq ang i o Hd Ho) as (k0 & t0 & b & E0 & Ht0 & Hb). rewrite (obj_bind_val _ _ _ _ _ E0).
  destruct (select_level_ok i k0 t0 b r Ht0 (ds_res _ _ _ Hd) Hr) as (t & E1 & Ht). fold k in Ht.
  rewrite (obj_bind_val _ _ _ _ _ E1), the_tiff_bind, (py_tiles Hp k t Ht).
  destruct (Z.leb_spec (tile_count k) tile) as [Hc|Hc].
  { eexists. split; [reflexivity|]. apply (tpt_opened i k); auto. }
  rewrite (py_tw Hp k t Ht), (py_th Hp k t Ht), (py_width Hp k t Ht), (py_height Hp k t Ht), (py_colour Hp k t Ht). cbn [default id].
  pose proof (ps_tw Hs). pose proof (ps_th Hs).
  rewrite (proj2 (Z.eqb_neq TW 0)), (proj2 (Z.eqb_neq TH 0)) by lia. cbn [orb].
  rewrite edge_size_ok, obj_lift_bind by lia.
  destruct (set_colour_same GREYSCALE 1 i k t b offsets Ht (ds_colour _ _ _ Hd) (ds_bpc _ _ _ Hd)) as (t' & E2 & Ht').
  rewrite (obj_bind_val _ _ _ _ _ E2).
  rewrite (obj_bind_val _ _ _ _ _ (read_tile_ok seq ang i k t' b offsets tile Ht' ltac:(lia) Hb)), obj_get_bind. cbn [base tile_buf default].
  assert (B : (IIPImage.bpc i =? 1) = false) by (rewrite (ds_bpc _ _ _ Hd); destruct (ps_bits Hs) as [-> | [-> | ->]]; reflexivity).
  rewrite B. cbn [andb]. eexists. split; [reflexivity|].
  apply (tpt_opened i k); [exact Ht'|auto|]. intros d [= <-]. apply (ps_px Hs); [exact Hk|lia].
Qed.

(** The outcome of a request depends on the image only, and the object is left in
    a state that can answer the next one. *)
Lemma getTile_outcome seq ang i r layers tile :
  describes seq ang i -> 0 <= r -> 0 <= tile ->
  exists outcome, forall o, tpt_inv i o ->
    (getTile junk seq ang r layers tile o).1 = outcome /\ tpt_inv i (getTile junk seq ang r layers tile o).2.
Proof.
  intros Hd Hr Htile. destruct (Z.lt_total r levels) as [Hlt|[->|Hgt]].
  - eexists. intros o Ho. destruct (getTile_level seq ang i o r layers tile Hd Ho (conj Hr Hlt) Htile) as (o' & -> & Ho').
    cbn [fst snd]. split; [reflexivity|exact Ho'].
  - assert (G : forall o, tpt_inv i o -> exists k t b, at_level k t /\ (forall d, b = Some d -> blen d = tile_bytes_) /\
        forall f o', select_level levels (mkTPTImage i (Some t) b offsets) = (Err f, o') ->
                     getTile junk seq ang levels layers tile o = (Err f, o')).
    { intros o Ho. destruct (reopen_ok seq ang i o Hd Ho) as (k & t & b & E & Ht & Hb). exists k, t, b.
      split; [exact Ht|]. split; [exact Hb|]. intros f o' Ef. unfold getTile. rewrite obj_get_bind.
      assert (Eb : base o = i) by (destruct Ho; reflexivity). rewrite Eb, (ds_res _ _ _ Hd), Z.ltb_irrefl.
      rewrite (obj_bind_val _ _ _ _ _ E). apply obj_bind_err, Ef. }
    assert (H0 : tpt_inv i (of_image i)) by (apply tpt_closed; [auto|discriminate]).
    destruct (G _ H0) as (k0 & t0 & b0 & Ht0 & _ & _).
    destruct (select_level_past i k0 t0 b0 Ht0 (ds_res _ _ _ Hd)) as (f & _ & _ & _ & _ & Hf).
    exists (Err f). intros o Ho. destruct (G o Ho) as (k & t & b & Ht & Hb & Hg).
    destruct (select_level_past i k t b Ht (ds_res _ _ _ Hd)) as (f' & k' & t' & E & Ht' & _).
    pose proof (Hf k t b Ht) as Ef. rewrite E in Ef. injection Ef as ->.
    rewrite (Hg _ _ E). split; [reflexivity|]. apply (tpt_opened i k'); auto.
  - eexists. intros o Ho. unfold getTile. rewrite obj_get_bind.
    assert (Eb : base o = i) by (destruct Ho; reflexivity). rewrite Eb, (ds_res _ _ _ Hd), (proj2 (Z.ltb_lt _ _)) by lia.
    unfold file_error, obj_lift. cbn [fst snd]. split; [reflexivity|exact Ho].
Qed.

(** ** Opening *)

(** The sizes from the [k]th level on. *)
Definition rest_w (k : Z) : list Z := drop (Z.to_nat k) widths.
Definition rest_h (k : Z) : list Z := drop (Z.to_nat k) heights.

Lemma rest_cons k : 0 <= k < levels -> rest_w k = level_w k :: rest_w (k + 1) /\ rest_h k = level_h k :: rest_h (k + 1).
Proof.
  intros Hk. unfold rest_w, rest_h, level_w, level_h, levels in *. rewrite Z2Nat.inj_add, Nat.add_1_r by lia.
  pose proof (py_same Hp) as Hl. split.
  - destruct (lookup_lt_is_Some_2 widths (Z.to_nat k)) as [x E]; [lia|]. rewrite (drop_S _ _ _ E). f_equal.
    symmetry. apply nth_lookup_Some, E.
  - destruct (lookup_lt_is_Some_2 heights (Z.to_nat k)) as [x E]; [lia|]. rewrite (drop_S _ _ _ E). f_equal.
    symmetry. apply nth_lookup_Some, E.
Qed.

Lemma rest_nil k : levels <= k -> rest_w k = [] /\ rest_h k = [].
Proof.
  intros Hk. unfold rest_w, rest_h, levels in *. rewrite !drop_ge by (pose proof (py_same Hp); lia). auto.
Qed.

(** One more level: its size is read and pushed. *)
Lemma next_size i k t b s w h {B} (next : Z -> Z -> T B) :
  at_level k t ->
  ('(w, h) ← read_size w h; _ ← push_size w h; next w h) (mkTPTImage i (Some t) b s)
  = next (level_w k) (level_h k) (mkTPTImage (push_all i [level_w k] [level_h k]) (Some t) b s).
Proof.
  intros Ht. unfold read_size, mbind at 1, Obj_bind at 1. rewrite the_tiff_bind. unfold mret, Obj_ret.
  rewrite (py_width Hp k t Ht), (py_height Hp k t Ht). reflexivity.
Qed.

Lemma subifd_levels_ok offs j i k t b s w h :
  at_level k t -> offs = drop j offsets -> offsets <> [] ->
  exists k' t', subifd_levels offs w h (mkTPTImage i (Some t) b s)
      = (Ok tt, mkTPTImage (push_all i (rest_w (Z.of_nat j + 1)) (rest_h (Z.of_nat j + 1))) (Some t') b s) /\ at_level k' t'.
Proof.
  revert j i k t w h. induction offs as [|o offs IH]; intros j i k t w h Ht Hoff Hne; pose proof (py_offsets Hp Hne) as Hlen.
  - exists k, t. split; [|exact Ht].
    assert (length offsets <= j)%nat by (pose proof (f_equal length Hoff) as L; rewrite length_drop in L; cbn in L; lia).
    destruct (rest_nil (Z.of_nat j + 1)) as [-> ->]; [lia|]. rewrite push_all_nil. reflexivity.
  - assert (Hj : offsets !! j = Some o) by (rewrite <- (Nat.add_0_r j), <- lookup_drop, <- Hoff; reflexivity).
    pose proof (lookup_lt_Some _ _ _ Hj) as Hjl.
    cbn [subifd_levels]. rewrite the_tiff_bind. destruct (py_sub Hp k t j o Ht Hj) as (t1 & -> & Ht1). cbn [snd].
    rewrite tiff_bind, (next_size i _ t1 b s w h (fun w h => _) Ht1), the_tiff_bind.
    destruct (py_first Hp _ t1 Ht1) as (t2 & -> & Ht2). cbn [snd]. rewrite tiff_bind.
    destruct (IH (S j) (push_all i [level_w (Z.of_nat j + 1)] [level_h (Z.of_nat j + 1)]) 0 t2
                (level_w (Z.of_nat j + 1)) (level_h (Z.of_nat j + 1)) Ht2) as (k' & t' & -> & Ht'); [|exact Hne|].
    + rewrite <- Nat.add_1_r, <- drop_drop, <- Hoff. reflexivity.
    + exists k', t'. split; [|exact Ht']. rewrite push_all_app.
      destruct (rest_cons (Z.of_nat j + 1)) as [-> ->]; [lia|].
      replace (Z.of_nat (S j) + 1) with (Z.of_nat j + 1 + 1) by lia. reflexivity.
Qed.

Lemma directory_levels_ok fuel i k t b s count w h :
  at_level k t -> offsets = [] -> levels - k <= Z.of_nat fuel ->
  exists k' t', directory_levels fuel count w h (mkTPTImage i (Some t) b s)
      = (Ok (count + (levels - 1 - k)), mkTPTImage (push_all i (rest_w (k + 1)) (rest_h (k + 1))) (Some t') b s)
    /\ at_level k' t'.
Proof.
  revert i k t count w h. induction fuel as [|fuel IH]; intros i k t count w h Ht Ho Hf; pose proof (py_level Hp k t Ht) as Hk; [lia|].
  cbn [directory_levels]. rewrite the_tiff_bind. destruct (py_read Hp Ho k t Ht) as (t' & k' & -> & Ht' & Hk'). rewrite tiff_bind.
  destruct (Z.ltb_spec (k + 1) levels) as [Hl|Hl].
  - rewrite Hk' in Ht' by exact Hl. rewrite (next_size i _ t' b s w h (fun w h => directory_levels fuel (count + 1) w h) Ht').
    destruct (IH (push_all i [level_w (k + 1)] [level_h (k + 1)]) (k + 1) t' (count + 1) (level_w (k + 1)) (level_h (k + 1)) Ht' Ho)
      as (k2 & t2 & -> & Ht2); [lia|].
    exists k2, t2. split; [|exact Ht2]. rewrite push_all_app. destruct (rest_cons (k + 1)) as [-> ->]; [lia|].
    replace (count + 1 + (levels - 1 - (k + 1))) with (count + (levels - 1 - k)) by lia. reflexivity.
  - exists k', t'. split; [|exact Ht']. destruct (rest_nil (k + 1)) as [-> ->]; [lia|]. rewrite push_all_nil.
    replace (count + (levels - 1 - k)) with count by lia. reflexivity.
Qed.

(** The levels of a file that was just opened. *)
Lemma load_levels_ok i t b :
  at_level 0 t -> image_widths i = [] -> image_heights i = [] ->
  exists t', load_levels (level_w 0) (level_h 0) (mkTPTImage i (Some t) b [])
      = (Ok tt, mkTPTImage (i <| image_widths := widths |> <| image_heights := heights |> <| numResolutions := levels |>)
                  (Some t') b offsets)
    /\ at_level 0 t'.
Proof.
  intros Ht Hiw Hih. pose proof (ps_levels Hs) as Hl.
  assert (Hfin : forall t1, (push_all (push_all i [level_w 0] [level_h 0]) (rest_w 1) (rest_h 1)) <| numResolutions := u32 t1 |>
                 = i <| image_widths := widths |> <| image_heights := heights |> <| numResolutions := u32 t1 |>).
  { intros t1. rewrite push_all_app. destruct (rest_cons 0) as [E1 E2]; [lia|]. cbn [app]. change (0 + 1) with 1 in E1, E2.
    rewrite <- E1, <- E2. unfold push_all. rewrite Hiw, Hih. reflexivity. }
  unfold load_levels. rewrite the_tiff_bind, (py_current Hp t Ht).
  destruct (set_directory_ok i 0 t b [] 0 "TPTImage :: TIFFSetDirectory() failed" Ht (or_intror eq_refl)) as (k1 & t1 & E1 & Ht1 & Hk1).
  rewrite (proj2 (Z.ltb_lt 0 levels)) in E1 by lia. rewrite Hk1 in Ht1 by lia. cbn [Z.leb andb] in E1.
  rewrite (obj_bind_val _ _ _ _ _ E1).
  assert (E2 : initializeSubIfdOffsets (mkTPTImage i (Some t1) b []) = (Ok tt, mkTPTImage i (Some t1) b offsets)).
  { unfold initializeSubIfdOffsets. rewrite the_tiff_bind. unfold obj_set. cbn [base tiff tile_buf subIfdOffsets].
    rewrite (py_subifd Hp t1 Ht1), app_nil_r. reflexivity. }
  rewrite (obj_bind_val _ _ _ _ _ E2). unfold push_size at 1. rewrite base_bind, obj_get_bind. cbn [subIfdOffsets].
  change (i <| image_widths := image_widths i ++ [level_w 0] |> <| image_heights := image_heights i ++ [level_h 0] |>)
    with (push_all i [level_w 0] [level_h 0]).
  set (i1 := push_all i [level_w 0] [level_h 0]) in *.
  assert (E3 : exists k2 t2, (if (0 <? length offsets)%nat then
         _ ← subifd_levels offsets (level_w 0) (level_h 0); mret (Z.of_nat (length offsets) + 1)
       else
         count ← directory_levels (S (Z.to_nat (TIFFNumberOfDirectories t))) 0 (level_w 0) (level_h 0); mret (count + 1))
         (mkTPTImage i1 (Some t1) b offsets)
       = (Ok levels, mkTPTImage (push_all i1 (rest_w 1) (rest_h 1)) (Some t2) b offsets) /\ at_level k2 t2).
  { destruct (Nat.ltb_spec 0 (length offsets)) as [Hn|Hn].
    - assert (Hne : offsets <> []) by (intros E; rewrite E in Hn; cbn in Hn; lia).
      destruct (subifd_levels_ok offsets 0 i1 0 t1 b offsets (level_w 0) (level_h 0) Ht1 eq_refl Hne) as (k2 & t2 & E & Ht2).
      exists k2, t2. split; [|exact Ht2]. rewrite (obj_bind_val _ _ _ _ _ E), (py_offsets Hp Hne). reflexivity.
    - assert (Ho : offsets = []) by (apply length_zero_iff_nil; lia).
      destruct (py_number Hp 0 t Ht) as [Hm|Hm]; [|contradiction].
      destruct (directory_levels_ok (S (Z.to_nat (TIFFNumberOfDirectories t))) i1 0 t1 b offsets 0 (level_w 0) (level_h 0) Ht1 Ho)
        as (k2 & t2 & E & Ht2); [lia|].
      exists k2, t2. split; [|exact Ht2]. rewrite (obj_bind_val _ _ _ _ _ E). unfold mret, Obj_ret.
      replace (0 + (levels - 1 - 0) + 1) with levels by lia. reflexivity. }
  destruct E3 as (k2 & t2 & E3 & Ht2). rewrite (obj_bind_val _ _ _ _ _ E3), base_bind, (Hfin levels), u32_small by lia.
  match goal with |- context [set_directory ?d ?msg (mkTPTImage ?j _ _ _)] =>
    destruct (set_directory_ok j k2 t2 b offsets d msg Ht2 (or_intror eq_refl)) as (k3 & t3 & E4 & Ht3 & Hk3) end.
  rewrite (proj2 (Z.ltb_lt 0 levels)) in E4 by lia. rewrite Hk3 in Ht3 by lia. cbn [Z.leb andb] in E4.
  exists t3. auto.
Qed.

(** The ranges of the channels are there: at least as many values as channels. *)
Lemma sample_ranges_ok t i :
  at_level 0 t -> IIPImage.channels i = ch ->
  exists mn mx, sample_ranges t i = Ok (i <| IIPImage.min := mn |> <| IIPImage.max := mx |>).
Proof.
  intros Ht Hc. pose proof (ps_ch Hs) as Hch. unfold sample_ranges. rewrite Hc.
  set (values tag := if 1 <? ch then default (replicate 4 (FZero false)) (get_samples tag t)
                     else default (FZero false) (get_sample tag t) :: replicate 3 (FZero false)).
  assert (Hv : forall tag, ch <= Z.of_nat (length (values tag))).
  { intros tag. unfold values. destruct (1 <? ch); [|cbn; lia]. destruct (get_samples tag t) as [l|] eqn:E; cbn [default].
    - apply (py_samples Hp tag t l Ht E).
    - cbn. lia. }
  destruct (foldM_total (fun j => exists mn mx, j = i <| IIPImage.min := mn |> <| IIPImage.max := mx |>)
              (channel_range (values SMINSAMPLEVALUE) (values SMAXSAMPLEVALUE)) (range 0 ch)
              (i <| IIPImage.min := [] |> <| IIPImage.max := [] |>)) as (j & Ej & mn & mx & ->).
  - intros k j Hk (mn & mx & ->). apply elem_of_range in Hk.
    destruct (rd_in_range (values SMAXSAMPLEVALUE) k) as (x & Ex & _); [pose proof (Hv SMAXSAMPLEVALUE); lia|].
    destruct (rd_in_range (values SMINSAMPLEVALUE) k) as (y & Ey & _); [pose proof (Hv SMINSAMPLEVALUE); lia|].
    unfold channel_range. rewrite Ex, bind_ret. cbv zeta. rewrite Ey, bind_ret. eexists. split; [reflexivity|].
    eexists _, _. reflexivity.
  - exists [], []. reflexivity.
  - exists mn, mx. exact Ej.
Qed.

Lemma loadImageInfo_ok seq ang i t b :
  at_level 0 t -> image_widths i = [] -> image_heights i = [] -> c_str (getFileName seq ang i) = path ->
  exists i' t', loadImageInfo junk seq ang (mkTPTImage i (Some t) b []) = (Ok tt, mkTPTImage i' (Some t') b offsets)
    /\ at_level 0 t' /\ describes seq ang i' /\ imagePath i' = imagePath i /\ IIPImage.timestamp i' = IIPImage.timestamp i.
Proof.
  intros Ht Hiw Hih Hpath. unfold loadImageInfo. rewrite base_bind, the_tiff_bind, base_bind.
  unfold read_size, mbind at 1, Obj_bind at 1. rewrite the_tiff_bind. unfold mret, Obj_ret at 1.
  rewrite (py_width Hp 0 t Ht), (py_height Hp 0 t Ht), (py_colour Hp 0 t Ht). cbn [default id].
  set (i1 := basic_fields junk t _).
  destruct (load_levels_ok i1 t b Ht) as (t1 & E1 & Ht1); [exact Hiw|exact Hih|]. rewrite (obj_bind_val _ _ _ _ _ E1).
  set (i2 := i1 <| image_widths := widths |> <| image_heights := heights |> <| numResolutions := levels |>).
  assert (Hch2 : IIPImage.channels i2 = ch) by (cbn; rewrite (py_ch Hp t Ht); reflexivity).
  assert (Hbpc2 : IIPImage.bpc i2 = bits) by (cbn; rewrite (py_bits Hp t Ht); reflexivity).
  destruct (set_colour_ok sRGB 3 i2 0 t1 b offsets Ht1 Hbpc2) as (t2 & E2 & Ht2).
  rewrite (obj_bind_val _ _ _ _ _ E2), the_tiff_bind, obj_get_bind. cbn [base].
  destruct (sample_ranges_ok t2 (i2 <| IIPImage.colourspace := colourspace_of |>) Ht2) as (mn & mx & E3); [exact Hch2|].
  rewrite E3, obj_lift_bind. eexists _, t2. split; [reflexivity|]. split; [exact Ht2|].
  split; [constructor|split; reflexivity]; try reflexivity.
  - cbn. rewrite (py_tw Hp 0 t Ht). reflexivity.
  - cbn. rewrite (py_th Hp 0 t Ht). reflexivity.
  - exact Hch2.
  - exact Hbpc2.
  - exact Hpath.
Qed.

(** An image of which nothing is known but its path. *)
Record unopened (seq ang : Z) (i : IIPImage) : Prop := {
  un_widths : image_widths i = [];
  un_heights : image_heights i = [];
  un_bpc : IIPImage.bpc i = 0;
  un_x : currentX i = seq;
  un_y : currentY i = ang;
  un_path : c_str (getFileName seq ang i) = path;
  un_stat : is_Some (fs_stat fs path)
}.

Lemma openImage_ok seq ang i :
  unopened seq ang i ->
  exists i' o, openImage fs junk (of_image i) = (Ok tt, o) /\ base o = i' /\ describes seq ang i' /\ tpt_inv i' o
    /\ imagePath i' = imagePath i.
Proof.
  intros Hu. unfold openImage, of_image. rewrite obj_get_bind. cbn [tiff tile_buf base].
  rewrite (un_x _ _ _ Hu), (un_y _ _ _ Hu). destruct (un_stat _ _ _ Hu) as [[f time] Hst].
  unfold updateTimestamp. rewrite (un_path _ _ _ Hu), Hst, obj_lift_bind, base_bind.
  destruct (py_open Hp) as (t & -> & Ht). rewrite tiff_bind.
  set (i1 := i <| IIPImage.timestamp := time |>).
  assert (Eb : (IIPImage.bpc i1 =? 0) = true) by (change (IIPImage.bpc i1) with (IIPImage.bpc i); rewrite (un_bpc _ _ _ Hu); reflexivity).
  rewrite Eb. cbn [obj_when].
  destruct (loadImageInfo_ok seq ang i1 t None Ht) as (i2 & t2 & E2 & Ht2 & Hd & Hn & _);
    [exact (un_widths _ _ _ Hu)|exact (un_heights _ _ _ Hu)|exact (un_path _ _ _ Hu)|].
  change (currentX i1) with (currentX i). change (currentY i1) with (currentY i). rewrite (un_x _ _ _ Hu), (un_y _ _ _ Hu).
  rewrite (obj_bind_val _ _ _ _ _ E2), obj_get_bind. cbn [base]. pose proof (ps_tw Hs).
  rewrite (ds_tw _ _ _ Hd), (proj2 (Z.eqb_neq TW 0)) by lia. cbn [andb].
  eexists (i2 <| IIPImage.isSet := true |>), _. split; [reflexivity|]. cbn [base].
  split; [reflexivity|]. split; [|split; [|exact Hn]].
  - destruct Hd. constructor; assumption.
  - apply (tpt_opened _ 0); [exact Ht2|auto|discriminate].
Qed.

(** ** A source for the tile manager *)

(** The byte of the image a file shows: that of the tile the pixel lies in. *)
Definition file_pixel (r x y c : Z) : Z :=
  let k := levels - 1 - r in
  nth (Z.to_nat (((y mod TH) * TW + x mod TW) * (ch * (bits / 8)) + c))
    (px k (y / TH * ntiles (level_w k) TW + x / TW)) 0.

Lemma level_size i r w h seq ang :
  describes seq ang i -> level_width i r = Ok w -> level_height i r = Ok h ->
  0 <= levels - 1 - r < levels /\ w = level_w (levels - 1 - r) /\ h = level_h (levels - 1 - r).
Proof.
  intros Hd Hw Hh. unfold level_width, level_height in *.
  rewrite (ds_widths _ _ _ Hd), (ds_res _ _ _ Hd) in Hw. rewrite (ds_heights _ _ _ Hd), (ds_res _ _ _ Hd) in Hh.
  replace (levels - r - 1) with (levels - 1 - r) in * by lia.
  pose proof (rd_ok_range _ _ _ Hw) as Hr. apply rd_ok in Hw as [_ Hw]. apply rd_ok in Hh as [_ Hh].
  split; [exact Hr|]. unfold level_w, level_h. rewrite (nth_lookup_Some _ _ _ _ Hw), (nth_lookup_Some _ _ _ _ Hh). auto.
Qed.

Lemma the_tile_decoded seq ang i r w h n :
  describes seq ang i -> 0 <= r < levels -> level_width i r = Ok w -> level_height i r = Ok h ->
  0 <= n < ntiles w (tile_width i) * ntiles h (tile_height i) ->
  decoded i seq ang file_pixel r w h n (the_tile seq ang r n i).
Proof.
  intros Hd Hr Hw Hh Hn. destruct (level_size i r w h seq ang Hd Hw Hh) as (Hk & -> & ->).
  set (k := levels - 1 - r) in *. rewrite (ds_tw _ _ _ Hd), (ds_th _ _ _ Hd) in Hn.
  destruct (ps_level Hs k Hk) as (Lw & Lh & Lc). pose proof (ps_tw Hs). pose proof (ps_th Hs).
  pose proof (ntiles_pos (level_w k) TW ltac:(lia) ltac:(lia)) as Pw.
  assert (Ew : Region.tile_w i (level_w k) n = edge_w k n) by (unfold Region.tile_w, tile_col; rewrite (ds_tw _ _ _ Hd); reflexivity).
  assert (Eh : Region.tile_h i (level_w k) (level_h k) n = edge_h k n)
    by (unfold Region.tile_h, tile_row; rewrite (ds_tw _ _ _ Hd), (ds_th _ _ _ Hd); reflexivity).
  assert (Hcol : 0 <= n mod ntiles (level_w k) TW < ntiles (level_w k) TW) by (apply Z.mod_pos_bound; lia).
  assert (Hrow : 0 <= n / ntiles (level_w k) TW < ntiles (level_h k) TH)
    by (split; [apply Z.div_pos; lia|apply Z.div_lt_upper_bound; lia]).
  assert (Bw : 0 < edge_w k n <= TW).
  { unfold edge_w. destruct (ntiles_bounds (level_w k) TW); [lia|lia| |lia]. split; [|lia]. nia. }
  assert (Bh : 0 < edge_h k n <= TH).
  { unfold edge_h. destruct (ntiles_bounds (level_h k) TH); [lia|lia| |lia]. split; [|lia]. nia. }
  pose proof (ps_bytes Hs) as Bb. pose proof tile_bytes_pos as Pb. pose proof (ps_px Hs k n Hk Hn) as Hl.
  assert (Epb : pixel_bytes i = ch * (bits / 8)) by (unfold pixel_bytes; rewrite (ds_ch _ _ _ Hd), (ds_bpc _ _ _ Hd); reflexivity).
  constructor; unfold the_tile, make_tile; cbn; rewrite ?Ew, ?Eh.
  - constructor; reflexivity.
  - apply u32_small. lia.
  - apply u32_small. lia.
  - reflexivity.
  - reflexivity.
  - reflexivity.
  - exists (px k n). rewrite u32_small by lia. split; [reflexivity|]. split; [symmetry; exact Hl|].
    rewrite (ds_tw _ _ _ Hd), (ds_th _ _ _ Hd), Epb. split; [exact Hl|].
    unfold holds, tile_col, tile_row. rewrite (ds_tw _ _ _ Hd), Epb.
    intros y x c Hy Hx Hc. unfold file_pixel. fold k.
    rewrite !(in_tile TW), !(in_tile TH), !(of_tile TW), !(of_tile TH) by lia.
    replace (n / ntiles (level_w k) TW * ntiles (level_w k) TW + n mod ntiles (level_w k) TW) with n
      by (pose proof (Z.div_mod n (ntiles (level_w k) TW) ltac:(lia)); lia).
    assert (Hlt : (y * TW + x) * (ch * (bits / 8)) + c < tile_bytes_).
    { unfold tile_bytes_. set (P := ch * (bits / 8)) in *. assert (y * TW + x + 1 <= TW * TH) by nia. nia. }
    destruct (lookup_lt_is_Some_2 (px k n) (Z.to_nat ((y * TW + x) * (ch * (bits / 8)) + c))) as [v Ev];
      [unfold blen in Hl; lia|].
    rewrite Ev. f_equal. symmetry. apply nth_lookup_Some, Ev.
Qed.

Lemma tiff_source seq ang layers i :
  describes seq ang i -> nameable (imagePath i) -> is_i32 seq -> is_i32 ang ->
  source_ok (codec := TPT_codec fs junk) i seq ang layers file_pixel.
Proof.
  intros Hd Hn Hseq Hang. pose proof (ps_ch Hs).
  constructor; rewrite ?(ds_tw _ _ _ Hd), ?(ds_th _ _ _ Hd), ?(ds_ch _ _ _ Hd), ?(ds_bpc _ _ _ Hd), ?(ds_res _ _ _ Hd).
  - apply (ps_tw Hs).
  - apply (ps_th Hs).
  - lia.
  - apply (ps_bits Hs).
  - apply (ps_levels Hs).
  - exact Hn.
  - exact Hseq.
  - exact Hang.
  - unfold pixel_bytes. rewrite (ds_ch _ _ _ Hd), (ds_bpc _ _ _ Hd). apply (ps_bytes Hs).
  - intros r w h _ Hw Hh. destruct (level_size i r w h seq ang Hd Hw Hh) as (Hk & -> & ->). apply (ps_level Hs), Hk.
  - intros r w h n Hr Hw Hh Ht. exists (the_tile seq ang r n i). split.
    + cbn [codec_getTile TPT_codec]. pose proof Ht as Ht'. destruct (level_size i r w h seq ang Hd Hw Hh) as (Hk & -> & ->).
      assert (H0 : tpt_inv i (of_image i)) by (apply tpt_closed; [auto|discriminate]).
      destruct (getTile_level seq ang i _ r layers n Hd H0 Hr ltac:(lia)) as (o' & -> & _). unfold tile_count.
      rewrite (proj2 (Z.leb_gt _ _)) by lia. reflexivity.
    + apply the_tile_decoded; rewrite ?(ds_tw _ _ _ Hd), ?(ds_th _ _ _ Hd); assumption.
Qed.
End Pyramid.

(** ** Bilevel tiles *)

Section Bilevel.
Context (junk : Z -> Z).

(** Eight pixels in a byte, the first in the highest bit, and a list of them. *)
Definition pack8 (pixels : list bool) : Z := foldl (fun t b => 2 * t + (if (b : bool) then 1 else 0)) 0 pixels.
Definition pack (pixels : list bool) : bytes :=
  (fun i => pack8 (take 8 (drop (8 * Z.to_nat i) pixels))) <$> range 0 (Z.of_nat (length pixels) / 8).

(** Writing one after the other. *)
Lemma unpack_step mn mx t k before a after :
  let v := if negb (Z.land t (Z.shiftl 1 k) =? 0) then mx else mn in
  unpack_byte mn mx t k (Z.of_nat (length before), before ++ a :: after)
  = Ok (Z.of_nat (length (before ++ [v])), (before ++ [v]) ++ after).
Proof.
  intros v. unfold unpack_byte, wr. rewrite (proj2 (Z.leb_le _ _)), (proj2 (Z.ltb_lt _ _)) by (rewrite ?length_app; cbn [length]; lia).
  cbn [andb]. rewrite bind_ret, Nat2Z.id, <- app_assoc. fold v. f_equal. f_equal.
  - rewrite length_app. cbn [length]. lia.
  - replace (length before) with (length before + 0)%nat by lia. rewrite insert_app_r. reflexivity.
Qed.

Lemma unpack_bits mn mx t ks before after :
  (length ks <= length after)%nat ->
  foldM (unpack_byte mn mx t) ks (Z.of_nat (length before), before ++ after)
  = Ok (Z.of_nat (length before + length ks),
        before ++ ((fun k => if negb (Z.land t (Z.shiftl 1 k) =? 0) then mx else mn) <$> ks) ++ drop (length ks) after).
Proof.
  revert before after. induction ks as [|k ks IH]; intros before after Hl; cbn [foldM length fmap list_fmap app drop].
  - rewrite Nat.add_0_r. reflexivity.
  - destruct after as [|a after]; [cbn in Hl; lia|]. rewrite unpack_step, bind_ret.
    rewrite IH by (cbn [length] in Hl; lia). f_equal. f_equal; [rewrite length_app; cbn [length]; lia|]. rewrite <- app_assoc. reflexivity.
Qed.

Lemma pack8_bits l :
  length l = 8%nat -> (fun k => negb (Z.land (pack8 l) (Z.shiftl 1 k) =? 0)) <$> reverse (range 0 8) = l.
Proof.
  intros Hl. do 8 (destruct l as [|[] l]; [discriminate Hl| |]); destruct l; try discriminate Hl; reflexivity.
Qed.

Lemma unpack_pack8 mn mx l before after :
  length l = 8%nat -> (8 <= length after)%nat ->
  foldM (unpack_byte mn mx (pack8 l)) (reverse (range 0 8)) (Z.of_nat (length before), before ++ after)
  = Ok (Z.of_nat (length before) + 8, before ++ ((fun b : bool => if b then mx else mn) <$> l) ++ drop 8 after).
Proof.
  intros Hl Ha. rewrite unpack_bits by exact Ha. f_equal. f_equal; [change (length (reverse (range 0 8))) with 8%nat; lia|].
  f_equal. f_equal. etransitivity; [|apply (f_equal (fmap (fun b : bool => if b then mx else mn)) (pack8_bits l Hl))].
  rewrite <- list_fmap_compose. reflexivity.
Qed.

Lemma unpack_ok colour np pixels rest :
  Z.of_nat (length pixels) = np -> np mod 8 = 0 -> np < 2 ^ 32 - 8 ->
  unpack junk colour np (pack pixels ++ rest)
  = Ok (np, (fun b : bool => if b then (if colour =? 0 then 0 else 255) else (if colour =? 0 then 255 else 0)) <$> pixels).
Proof.
  intros Hl Hm Hn. pose proof (Z.div_mod np 8 ltac:(lia)) as Hd. unfold unpack.
  assert (E : u32 (np + 7) / 8 = np / 8).
  { rewrite u32_small by lia. symmetry. apply (Z.div_unique_pos _ _ _ 7); lia. }
  rewrite E. set (mn := if colour =? 0 then 255 else 0). set (mx := if colour =? 0 then 0 else 255).
  replace (if colour =? 0 then (255, 0) else (0, 255)) with (mn, mx) by (unfold mn, mx; destruct (colour =? 0); reflexivity).
  set (f := fun b : bool => if b then mx else mn).
  assert (Hz : 0 <= np / 8) by (apply Z.div_pos; lia).
  destruct (foldM_range (fun i st => st = (8 * i, (f <$> take (8 * Z.to_nat i) pixels) ++ drop (8 * Z.to_nat i) (new_bytes junk np)))
    (fun i st => t ← rd (pack pixels ++ rest) i; foldM (unpack_byte mn mx t) (reverse (range 0 8)) st)
    0 (np / 8) (0, new_bytes junk np)) as (st & Est & ->); [exact Hz|reflexivity| |].
  - intros i st Hi ->.
    assert (Hrd : rd (pack pixels ++ rest) i = Ok (pack8 (take 8 (drop (8 * Z.to_nat i) pixels)))).
    { apply rd_ok. split; [lia|]. rewrite lookup_app_l by (unfold pack; rewrite length_fmap, length_range, Hl; lia).
      unfold pack. rewrite list_lookup_fmap, Hl. replace (Z.to_nat i) with (Z.to_nat (i - 0)) at 1 by (f_equal; lia).
      rewrite lookup_range_at by lia. reflexivity. }
    rewrite Hrd, bind_ret.
    assert (Hlen : length (f <$> take (8 * Z.to_nat i) pixels) = (8 * Z.to_nat i)%nat) by (rewrite length_fmap, length_take; lia).
    replace (8 * i) with (Z.of_nat (length (f <$> take (8 * Z.to_nat i) pixels))) by lia.
    rewrite unpack_pack8; [|rewrite length_take, length_drop; lia|rewrite length_drop, length_new_bytes; lia].
    eexists. split; [reflexivity|]. f_equal; [lia|]. rewrite app_assoc, <- fmap_app. f_equal.
    + f_equal. rewrite take_take_drop. f_equal. lia.
    + rewrite drop_drop. f_equal. lia.
  - rewrite Est. f_equal. f_equal; [lia|]. rewrite drop_ge by (rewrite length_new_bytes; lia).
    rewrite app_nil_r, take_ge by lia. reflexivity.
Qed.
End Bilevel.

(** A tile whose number of pixels is not a multiple of eight: the last byte is
    unpacked past the end of the buffer. *)
Lemma unpack_overrun : exists w, unpack (fun _ => 0) 1 12 [255; 255] = Err (Undefined w).
Proof. eexists. vm_compute. reflexivity. Qed.

(** ** Properties *)

(** A sequence of tile requests to one object, whatever each of them ends with. *)
Fixpoint run_tiles {lib : LibTIFF} (junk : Z -> Z) (seq ang layers : Z) (qs : list (Z * Z)) (o : TPTImage) : list (res RawTile) :=
  match qs with
  | [] => []
  | (r, n) :: qs => let '(t, o) := getTile junk seq ang r layers n o in t :: run_tiles junk seq ang layers qs o
  end.


(** C8. From the file to the region: an image opened from a pyramidal TIFF file
    shows it.  The levels are found whether they are directories or
    sub-directories, and for any sequence of rectangles of any levels, whatever the
    caches held, every byte of the regions is the byte of the decoded tile of the
    file that covers the pixel. *)
Theorem tiff_regions_exact {lib : LibTIFF} {compressor : Compressor} (fs : FileSystem) (capacity : string -> Z) (tileSize : Z)
    (junk rand : Z -> Z) (path : string) (widths heights : list Z) (TW TH ch bits colour : Z) (offsets : list Z)
    (px : Z -> Z -> bytes) (at_level : Z -> TIFF -> Prop) (seq ang layers m n : Z) (i : IIPImage) :
  pyramid path widths heights TW TH ch bits colour offsets px at_level ->
  pyramid_sizes widths heights TW TH ch bits colour px ->
  unopened fs path seq ang i -> nameable (imagePath i) -> is_i32 seq -> is_i32 ang ->
  small_strings capacity tileSize -> 0 <= m < 2 ^ 63 ->
  exists image, codec_openImage (Codec := TPT_codec fs junk) i = Ok image
    /\ image_widths image = widths /\ image_heights image = heights
    /\ forall qs, Forall (request_ok image) qs ->
         exists ts s', run_requests (codec := TPT_codec fs junk) capacity tileSize junk rand image seq ang layers qs
                         (mkTMState (empty_cache m) n) = Ok (ts, s')
           /\ Forall2 (exact_region image (file_pixel widths TW TH ch bits px)) qs ts.
Proof.
  intros Hp Hs Hu Hn Hseq Hang Hcap Hm.
  destruct (openImage_ok fs junk path widths heights TW TH ch bits colour offsets px at_level Hp Hs seq ang i Hu)
    as (j & o & E & Hb & Hd & _ & Hpath).
  exists j. split; [cbn [codec_openImage TPT_codec]; unfold obj_run; rewrite E, Hb; reflexivity|].
  split; [apply (ds_widths _ _ _ _ _ _ _ _ _ _ _ Hd)|]. split; [apply (ds_heights _ _ _ _ _ _ _ _ _ _ _ Hd)|].
  intros qs Hq. apply run_requests_exact; [|exact Hcap|reflexivity|apply tm_inv_empty, Hm|exact Hq].
  eapply tiff_source; try eassumption. rewrite Hpath. exact Hn.
Qed.

(** C25. Bilevel tiles: unpacking inverts the packing of the TIFF format, eight
    pixels to a byte with the first in the highest bit, for both photometric
    interpretations, and ends inside both buffers when the number of pixels is a
    multiple of eight. *)
Theorem bilevel_roundtrip (junk : Z -> Z) (colour : Z) (pixels : list bool) (rest : bytes) :
  Z.of_nat (length pixels) mod 8 = 0 -> Z.of_nat (length pixels) < 2 ^ 32 - 8 ->
  unpack junk colour (Z.of_nat (length pixels)) (pack pixels ++ rest)
  = Ok (Z.of_nat (length pixels),
        (fun b : bool => if b then (if colour =? 0 then 0 else 255) else (if colour =? 0 then 255 else 0)) <$> pixels).
Proof. intros Hm Hn. apply unpack_ok; [reflexivity|exact Hm|exact Hn]. Qed.

Lemma bilevel_roundtrip_witness :
  unpack (fun _ => 9) 0 8 [0xC5] = Ok (8, [0; 0; 255; 255; 255; 0; 255; 0]).
Proof.
  change 8 with (Z.of_nat (length [true; true; false; false; false; true; false; true])).
  apply (bilevel_roundtrip (fun _ => 9) 0 [true; true; false; false; false; true; false; true] []); vm_compute; reflexivity.
Defined.

(** ** A small file

    Two levels, the second in a sub-directory: 5 x 3 and 3 x 2 pixels in tiles of
    2 x 2.  An open file is the number of its current level. *)

Definition small_tile (k n : Z) : bytes := (fun j => 100 * k + 10 * n + j) <$> range 0 4.

#[local] Instance small_lib : LibTIFF := {|
  TIFF := Z;
  TIFFOpen := fun f => if bool_decide (f = "small.tif") then Some 0 else None;
  TIFFCurrentDirectory := fun _ => 0; TIFFNumberOfDirectories := fun _ => 1;
  TIFFSetDirectory := fun d t => if d =? 0 then (true, 0) else (false, t);
  TIFFReadDirectory := fun t => (false, t);
  TIFFSetSubDirectory := fun o t => if o =? 77 then (true, 1) else (false, t);
  get_int := fun tag t => match tag with
    | TILEWIDTH | TILELENGTH => Some 2
    | IMAGEWIDTH => Some (if t =? 0 then 5 else 3) | IMAGELENGTH => Some (if t =? 0 then 3 else 2)
    | SAMPLESPERPIXEL | PHOTOMETRIC => Some 1 | BITSPERSAMPLE => Some 8 | SAMPLEFORMAT | RESOLUTIONUNIT => None end;
  get_float := fun _ _ => None; get_text := fun _ _ => None; get_data := fun _ _ => None;
  get_subifd := fun t => if t =? 0 then Some [77] else None;
  get_samples := fun _ _ => None; get_sample := fun _ _ => None; set_jpeg_rgb := fun t => t;
  TIFFNumberOfTiles := fun t => if t =? 0 then 6 else 2; TIFFTileSize := fun _ => 4;
  TIFFReadEncodedTile := fun n t => Some (small_tile t n)
|}.

Definition small_at (k : Z) (t : Z) : Prop := t = k /\ (k = 0 \/ k = 1).

Definition small_files : FileSystem := {|
  fs_stat := fun f => if bool_decide (f = "small.tif") then Some (true, 7) else None;
  fs_head := fun _ => None; fs_glob := fun _ => None
|}.

Definition small_image : IIPImage := (new_IIPImage "small.tif") <| isFile := true |>.

Lemma small_pyramid : pyramid "small.tif" [5; 3] [3; 2] 2 2 1 8 1 [77] small_tile small_at.
Proof.
  constructor; try discriminate; try reflexivity.
  - exists 0. split; [reflexivity|split; auto].
  - intros k t [-> [-> | ->]]; vm_compute; split; congruence.
  - intros k t _. exists 0. split; [reflexivity|split; auto].
  - intros t [-> _]. reflexivity.
  - intros k t [|[|j]] o _ Ho; [|discriminate..]. injection Ho as <-. exists 1. split; [reflexivity|split; auto].
  - intros k t _. right. discriminate.
  - intros k t [-> [-> | ->]]; reflexivity.
  - intros k t [-> [-> | ->]]; reflexivity.
  - intros k t H. exact H.
  - intros k t [-> [-> | ->]]; reflexivity.
  - intros k t n [-> _] _. reflexivity.
Qed.

Lemma small_sizes : pyramid_sizes [5; 3] [3; 2] 2 2 1 8 1 small_tile.
Proof.
  constructor; try (split; reflexivity); [lia|auto| |discriminate].
  intros k Hk. change (levels [5; 3]) with 2 in Hk. assert (k = 0 \/ k = 1) as [-> | ->] by lia; repeat split; reflexivity.
Qed.

Lemma small_unopened : unopened small_files "small.tif" 0 90 small_image.
Proof. constructor; try reflexivity. eexists. reflexivity. Qed.

Definition small_opened : TPTImage := (openImage small_files (fun _ => 9) (of_image small_image)).2.

(** A tile of the largest level, one of the smallest, one that does not exist. *)
Definition small_requests : list (Z * Z) := [(1, 5); (0, 1); (1, 6); (0, 0)].


(** The 3 x 2 rectangle of the largest level at (1, 1), through four tiles. *)
Lemma tiff_regions_exact_witness :
  exists image t s, codec_openImage (Codec := TPT_codec small_files (fun _ => 9)) small_image = Ok image
    /\ run_requests (codec := TPT_codec small_files (fun _ => 9)) (fun _ => 15) 100 (fun _ => 9) (fun _ => 0) image 0 90 0
         [mkRequest 1 1 1 3 2] (mkTMState (empty_cache 400) 0) = Ok ([t], s)
    /\ RawTile.data t = Some [3; 12; 13; 31; 40; 41].
Proof.
  destruct (tiff_regions_exact (lib := small_lib) small_files (fun _ => 15) 100 (fun _ => 9) (fun _ => 0) "small.tif" [5; 3] [3; 2] 2 2 1 8 1 [77]
              small_tile small_at 0 90 0 400 0 small_image small_pyramid small_sizes small_unopened)
    as (image & E & _ & _ & H); [split; [reflexivity|vm_compute; congruence]|split; vm_compute; congruence..|exact demo_small|lia|].
  destruct (H [mkRequest 1 1 1 3 2]) as (ts & s & Er & _).
  - vm_compute in E. injection E as <-. forall_elements ltac:(split; [vm_compute; split; congruence|];
      exists 5, 3; vm_compute; repeat split; congruence).
  - exists image. vm_compute in E. injection E as <-. vm_compute in Er. injection Er as <-. eexists _, _. split; [vm_compute; reflexivity|].
    split; [vm_compute; reflexivity|reflexivity].
Defined.

(** ** Where the class goes wrong *)

(** Loading again, for another sequence number or a file that has changed, adds
    the sizes to those of the first time, and the sub-directories to theirs. *)
Lemma reload_appends :
  image_widths (base (loadImageInfo (fun _ => 9) 1 90 small_opened).2) = [5; 3; 5; 3; 3]
  /\ numResolutions (base (loadImageInfo (fun _ => 9) 1 90 small_opened).2) = 3.
Proof. vm_compute. split; reflexivity. Qed.

(** The resolution after the last one is not refused: the list of sub-directories
    is read before its beginning. *)
Lemma resolution_past_last : (getTile (fun _ => 9) 0 90 2 0 0 small_opened).1 = Err (Undefined "read before buffer").
Proof. vm_compute. reflexivity. Qed.

(** Without a [SampleFormat] tag the type of the samples is that of an
    uninitialised variable. *)
Lemma sample_format_uninitialised :
  IIPImage.sampleType (base (openImage small_files (fun _ => 3) (of_image small_image)).2) = FLOATINGPOINT
  /\ IIPImage.sampleType (base small_opened) = FIXEDPOINT.
Proof. vm_compute. split; reflexivity. Qed.
