(* ===== verification/OPJImage.v ===== *)
(** * JPEG 2000 images through OpenJPEG (src/src/OpenJPEGImage.h, OpenJPEGImage.cc)

    The class that decodes JPEG 2000 files with OpenJPEG.  The library is the
    interface [OpenJPEG]: a call returns the codec, the stream and the image
    afterwards; its error handler throws, so that a call may also end with an
    exception.  The class decodes rectangles itself and closes the file after each.

    [jp2_requests_exact]: tiles and regions are the samples of the file, for any
    sequence of requests to one object; [jp2_manager_exact] brings that to the tile
    manager and its cache; [jp2_levels_halve]: the levels of the pyramid. *)
From stdpp Require Import base gmap strings list numbers.
From Stdlib Require Import ZArith Lia Ascii.
From coqutil Require Import Datatypes.RecordSetters.
From S2P Require Import Prelude Object CString CFloat RawTile Cache IIPImage Watermark TileManager Region.
Import TriangleBracketNotations.
#[local] Open Scope string_scope.
#[local] Open Scope list_scope.
#[local] Open Scope Z_scope.

(** ** OpenJPEG *)

Record opj_comp := mkComp { prec : Z; factor : Z; data : list Z }.

Record opj_image := mkImage { x0 : Z; y0 : Z; x1 : Z; y1 : Z; comps : list opj_comp; icc_profile : string }.

(** The fields of [opj_dparameters_t] the decoder reads. *)
Record opj_dparameters := mkParameters { cp_reduce : Z; cp_layer : Z; flags : Z }.

Record opj_codestream_info := mkInfo { numresolutions : Z; numlayers : Z }.

Class OpenJPEG := {
  CODEC : Type;
  STREAM : Type;
  opj_create_decompress : CODEC;
  opj_default_parameters : opj_dparameters;
  opj_setup_decoder : opj_dparameters -> CODEC -> res (bool * CODEC);
  opj_stream_create : string -> option STREAM;
  opj_read_header : STREAM -> CODEC -> res (option opj_image * STREAM * CODEC);
  opj_get_cstr_info : CODEC -> opj_codestream_info;
  opj_set_decode_area : CODEC -> opj_image -> Z -> Z -> Z -> Z -> res (bool * CODEC * opj_image);
  opj_decode : CODEC -> STREAM -> opj_image -> res (bool * CODEC * STREAM * opj_image);
  opj_end_decompress : CODEC -> STREAM -> res bool
}.

Definition TILESIZE : Z := 256.

(** Shifts of an [int] and of an [unsigned int] by an [int]. *)
Definition shl_int (x k : Z) : res Z :=
  if (0 <=? k) && (k <? 32) && (0 <=? x) && (x * 2 ^ k <? 2 ^ 32) then Ok (x * 2 ^ k) else undef "shift of an int".
Definition shl_unsigned (x k : Z) : res Z :=
  if (0 <=? k) && (k <? 32) then Ok (u32 (x * 2 ^ k)) else undef "shift of an unsigned int".

(** The values of the counter of [for( unsigned int j=0; j < bound; j += step )]. *)
Definition strided (step bound : Z) : res (list Z) :=
  if bound <=? 0 then Ok []
  else if step <=? 0 then undef "endless loop"
  else
    let n := (bound + step - 1) / step in
    if n * step <? 2 ^ 32 then Ok ((fun k => k * step) <$> range 0 n) else undef "the counter wraps".

(** The depth of the output: a whole number of bytes. *)
Definition output_bits (bpc : Z) : Z := if (bpc <=? 16) && (8 <? bpc) then 16 else if bpc <=? 8 then 8 else bpc.

Section OPJ.
Context {lib : OpenJPEG} (fs : FileSystem) (junk : Z -> Z).

(** ** The object *)

Record OpenJPEGImage := mkOpenJPEGImage {
  base : IIPImage;
  _codec : option CODEC;
  _stream : option STREAM;
  _image : option opj_image
}.

(** [OpenJPEGImage( const IIPImage& )] *)
Definition of_image (i : IIPImage) : OpenJPEGImage :=
  mkOpenJPEGImage (i <| tile_width := TILESIZE |> <| tile_height := TILESIZE |> <| virtual_levels := 0 |>) None None None.

Abbreviation J := (Obj OpenJPEGImage).

Definition on_base (f : IIPImage -> IIPImage) : J unit :=
  obj_set (fun o => mkOpenJPEGImage (f (base o)) (_codec o) (_stream o) (_image o)).
Definition set_codec (c : option CODEC) : J unit := obj_set (fun o => mkOpenJPEGImage (base o) c (_stream o) (_image o)).
Definition set_stream (s : option STREAM) : J unit := obj_set (fun o => mkOpenJPEGImage (base o) (_codec o) s (_image o)).
Definition set_image (i : option opj_image) : J unit := obj_set (fun o => mkOpenJPEGImage (base o) (_codec o) (_stream o) i).
Definition the_codec : J CODEC := obj_deref _codec "null codec".
Definition the_stream : J STREAM := obj_deref _stream "null stream".
Definition the_image : J opj_image := obj_deref _image "null image".

Definition closeImage : J unit :=
  o ← obj_get (fun o => o);
  _ ← (match _codec o, _stream o with
       | Some c, Some s => _ ← obj_lift (opj_end_decompress c s); mret tt
       | _, _ => mret tt
       end);
  _ ← set_codec None;
  _ ← set_stream None;
  set_image None.

(** ** Loading *)

Definition push_size (w h : Z) (i : IIPImage) : IIPImage :=
  i <| image_widths := image_widths i ++ [w] |> <| image_heights := image_heights i ++ [h] |>.

(** The sizes of the encoded levels after the first, each half of the last. *)
Fixpoint dwt_levels (n : nat) (w h : Z) (i : IIPImage) : IIPImage :=
  match n with
  | O => i
  | S n => dwt_levels n (w / 2) (h / 2) (push_size (w / 2) (h / 2) i)
  end.

(** Halves the size until it fits into a tile: the number of levels, and the sizes
    of those that are not encoded. *)
Fixpoint virtual_sizes (fuel : nat) (n w h numRes : Z) (i : IIPImage) : res (Z * IIPImage) :=
  match fuel with
  | O => Err OutOfFuel
  | S fuel =>
      if (tile_width i <? w) || (tile_height i <? h) then
        let n := u32 (n + 1) in
        virtual_sizes fuel n (w / 2) (h / 2) numRes (if numRes <? n then push_size (w / 2) (h / 2) i else i)
      else Ok (n, i)
  end.

Definition set_colourspace (i : IIPImage) : IIPImage :=
  if IIPImage.channels i =? 1 then
    i <| IIPImage.colourspace := if IIPImage.bpc i =? 1 then BINARY else GREYSCALE |>
  else if IIPImage.channels i =? 3 then i <| IIPImage.colourspace := sRGB |>
  else i.

(** The range of one more channel. *)
Definition channel_range (i : IIPImage) : IIPImage :=
  let f z := of_Z b32 z in
  let i := i <| IIPImage.min := IIPImage.min i ++ [f 0] |> in
  let i := if (8 <? IIPImage.bpc i) && (IIPImage.bpc i <? 16)
           then i <| IIPImage.max := IIPImage.max i ++ [f (2 ^ IIPImage.bpc i)] |> else i in
  i <| IIPImage.max := IIPImage.max i ++ [f (if IIPImage.bpc i =? 16 then 65535 else 255)] |>.

Definition image_info (info : opj_codestream_info) (im : opj_image) (i : IIPImage) : res IIPImage :=
  let numRes := numresolutions info in
  first ← rd (comps im) 0;
  let i := i <| quality_layers := numlayers info |> <| IIPImage.channels := Z.of_nat (length (comps im)) |>
             <| IIPImage.bpc := prec first |> in
  let w := u32 (x1 im - x0 im) in
  let h := u32 (y1 im - y0 im) in
  let i := dwt_levels (Z.to_nat (numRes - 1)) w h (push_size w h i) in
  w ← rd (image_widths i) 0;
  h ← rd (image_heights i) 0;
  '(n, i) ← virtual_sizes 33 1 w h numRes i;
  let i := if numRes <? n then i <| virtual_levels := u32 (n - numRes - 1) |> else i in
  let i := set_colourspace (i <| numResolutions := n |>) in
  let i := if IIPImage.bpc i =? 1 then i <| IIPImage.channels := 1 |> else i in
  let i := fold_left (fun i _ => channel_range i) (range 0 (IIPImage.channels i)) i in
  Ok (i <| IIPImage.isSet := true |>).

(** The angles are not used. *)
Definition loadImageInfo (seq ang : Z) : J unit :=
  c ← the_codec;
  im ← the_image;
  i ← obj_get base;
  i ← obj_lift (image_info (opj_get_cstr_info c) im i);
  on_base (fun _ => i).

Definition openImage : J unit :=
  i ← obj_get base;
  let filename := getFileName (currentX i) (currentY i) i in
  i ← obj_lift (updateTimestamp fs filename i);
  _ ← on_base (fun _ => i);
  _ ← set_codec (Some opj_create_decompress);
  '(done, c) ← obj_lift (opj_setup_decoder opj_default_parameters opj_create_decompress);
  _ ← set_codec (Some c);
  if negb done then file_error "OpenJPEG :: openImage() :: error setting up decoder"
  else
    match opj_stream_create (c_str filename) with
    | None => _ ← set_stream None; file_error ("OpenJPEG :: Unable to open '" +:+ filename +:+ "'")
    | Some s =>
        _ ← set_stream (Some s);
        '(im, s, c) ← obj_lift (opj_read_header s c);
        _ ← set_stream (Some s);
        _ ← set_codec (Some c);
        _ ← set_image im;
        match im with
        | None => file_error "OpenJPEG :: process() :: opj_read_header() failed"
        | Some _ => obj_when (IIPImage.bpc i =? 0) (loadImageInfo (currentX i) (currentY i))
        end
    end.

(** ** Decoding *)

(** The number of layers to decode: half of them by default. *)
Definition decoded_layers (quality_layers layers : Z) : Z :=
  let layers := if layers <? 0 then i32 quality_layers
                else if layers =? 0 then (quality_layers + 1) / 2 else layers in
  if layers <? 1 then 1 else layers.

(** The sample of one component at the pixel [n], in the cell [nk] of the output. *)
Definition put_sample (bpc n : Z) (im : opj_image) (k : Z) (st : Z * bytes) : res (Z * bytes) :=
  let '(nk, d) := st in
  comp ← rd (comps im) k;
  v ← rd (data comp) n;
  d ← (if output_bits bpc =? 16 then RawTile.st 2 d nk (Z.land v 0xffff)
       else if bpc =? 1 then RawTile.st 1 d nk (u8 (Z.land v 0xf * 255))
       else RawTile.st 1 d nk (Z.land v 0xff));
  Ok (u32 (nk + 1), d).

Definition put_pixels (bpc channels step tw th : Z) (im : opj_image) (d : bytes) : res bytes :=
  rows ← strided step th;
  '(_, _, d) ← foldM (fun _ st =>
      cols ← strided step tw;
      foldM (fun _ '(n, nk, d) =>
          '(nk, d) ← foldM (put_sample bpc n im) (range 0 channels) (nk, d);
          Ok (u32 (n + 1), nk, d)) cols st) rows (0, 0, d);
  Ok d.

(** [_image->comps[i].factor] *)
Definition set_factor (k : Z) (im : opj_image) : opj_image :=
  mkImage (x0 im) (y0 im) (x1 im) (y1 im) ((fun c => mkComp (prec c) k (data c)) <$> comps im) (icc_profile im).

(** The rectangle to decode and the reduction: a resolution that is not encoded is
    taken from the smallest one that is. *)
Definition place (i : IIPImage) (res_ xoffset yoffset tw th : Z) : Z * Z * Z * Z * Z * Z :=
  let v := virtual_levels i in
  if res_ <? v then
    let step := u32 (2 * u32 (v - res_)) in
    (step, i32 (u32 (xoffset * step)), i32 (u32 (yoffset * step)), u32 (tw * step), u32 (th * step),
     i32 (u32 (u32 (numResolutions i - 1) - v)))
  else (1, xoffset, yoffset, tw, th, i32 (u32 (u32 (numResolutions i - 1) - res_))).

Definition process (res_ layers xoffset yoffset tw th : Z) (d : bytes) : J bytes :=
  o ← obj_get (fun o => o);
  _ ← (match _image o with None => openImage | Some _ => mret tt end);
  i ← obj_get base;
  let '(step, xoffset, yoffset, tw, th, vipsres) := place i res_ xoffset yoffset tw th in
  let params := mkParameters (u32 vipsres) (u32 (decoded_layers (quality_layers i) layers)) (u32 (junk 0)) in
  c ← the_codec;
  '(done, c) ← obj_lift (opj_setup_decoder params c);
  _ ← set_codec (Some c);
  if negb done then file_error "OpenJPEG :: process() :: opj_setup_decoder() failed"
  else
    im ← the_image;
    let im := set_factor (u32 vipsres) im in
    _ ← set_image (Some im);
    left ← obj_lift (shl_int xoffset vipsres);
    top ← obj_lift (shl_int yoffset vipsres);
    right ← obj_lift (shl_unsigned (u32 (xoffset + tw)) vipsres);
    bottom ← obj_lift (shl_unsigned (u32 (yoffset + th)) vipsres);
    '(done, c, im) ← obj_lift (opj_set_decode_area c im (i32 left) (i32 top) (i32 right) (i32 bottom));
    _ ← set_codec (Some c);
    _ ← set_image (Some im);
    if negb done then file_error "OpenJPEG :: process() :: opj_set_decode_area() failed"
    else
      s ← the_stream;
      '(done, c, s, im) ← obj_lift (opj_decode c s im);
      _ ← set_codec (Some c);
      _ ← set_stream (Some s);
      _ ← set_image (Some im);
      if negb done then file_error "OpenJPEG :: process() :: opj_decode() failed"
      else
        let icc := icc_profile im in
        _ ← on_base (fun i => if 0 <? i32 (slen icc) then i <| metadata := <["icc" := icc]> (metadata i) |> else i);
        d ← obj_lift (put_pixels (IIPImage.bpc i) (IIPImage.channels i) step tw th im d);
        _ ← closeImage;
        mret d.

(** [new unsigned short[n]] or [new unsigned char[n]] *)
Definition new_samples (obpc n : Z) : res bytes :=
  if obpc =? 16 then Ok (new_bytes junk (2 * u32 n))
  else if obpc =? 8 then Ok (new_bytes junk (u32 n))
  else throw (ExnFile "OpenJPEG :: Unsupported number of bits").

(** A tile with room for the samples, before they are decoded, and the decoding. *)
Definition decode_into (tile res_ seq ang layers x y w h : Z) : J RawTile :=
  i ← obj_get base;
  let obpc := output_bits (IIPImage.bpc i) in
  let ch := IIPImage.channels i in
  d ← obj_lift (new_samples obpc (w * h * ch));
  let rawtile := (new_RawTile tile res_ seq ang w h ch obpc)
    <| RawTile.dataLength := u32 (w * h * ch * (obpc / 8)) |> <| RawTile.filename := getImagePath i |>
    <| RawTile.timestamp := IIPImage.timestamp i |> in
  d ← process res_ layers x y w h d;
  mret (rawtile <| RawTile.data := Some d |>).

(** The size and the position of a tile, if it exists. *)
Definition tile_place (tile w h tw th : Z) : res (option (Z * Z * Z * Z)) :=
  rem_x ← umod w tw;
  rem_y ← umod h th;
  let ntlx := u32 (ntiles w tw) in
  let ntly := u32 (ntiles h th) in
  if u32 (ntlx * ntly) <=? tile then Ok None
  else
    col ← umod tile ntlx;
    row ← udiv tile ntlx;
    Ok (Some (if (col =? u32 (ntlx - 1)) && negb (rem_x =? 0) then rem_x else tw,
              if (row =? u32 (ntly - 1)) && negb (rem_y =? 0) then rem_y else th,
              i32 (u32 (col * tw)), i32 (u32 (row * th)))).

Definition getTile (seq ang res_ layers tile : Z) : J RawTile :=
  i ← obj_get base;
  if numResolutions i <? res_ then file_error ("OpenJPEG :: Asked for non-existent resolution: " +:+ dec res_)
  else
    let vipsres := i32 (u32 (u32 (numResolutions i - 1) - res_)) in
    w ← obj_lift (rd (image_widths i) vipsres);
    h ← obj_lift (rd (image_heights i) vipsres);
    place ← obj_lift (tile_place tile w h (tile_width i) (tile_height i));
    match place with
    | None => file_error ("OpenJPEG :: Asked for non-existent tile: " +:+ dec tile)
    | Some (tw, th, xoffset, yoffset) => decode_into tile res_ seq ang layers xoffset yoffset tw th
    end.

Definition getRegion (ha va res_ layers x y w h : Z) : J RawTile := decode_into 0 res_ ha va layers x y w h.

(** ** The codec *)

(** An object whose file is closed: what a request leaves. *)
Definition closed (i : IIPImage) : OpenJPEGImage := mkOpenJPEGImage i None None None.

(** A call on an object made from the image.  Only the constructor, which comes
    before [openImage], sets the size of the tiles and [virtual_levels]. *)
Definition OPJ_codec : Codec := {|
  codec_regionDecoding := true;
  codec_description := "IIPImage Base Class";
  codec_openImage := fun i => obj_run openImage (fun _ o => base o) (of_image i);
  codec_loadImageInfo := fun i x y => obj_run (_ ← openImage; loadImageInfo x y) (fun _ o => base o) (closed i);
  codec_getTile := fun i x y r l t => (getTile x y r l t (closed i)).1;
  codec_getRegion := fun i ha va r l x y w h => (getRegion ha va r l x y w h (closed i)).1
|}.
End OPJ.

(** ** Computations of [J] *)

Section JLemmas.
Context {lib : OpenJPEG}.
Abbreviation J := (Obj OpenJPEGImage).
Lemma opj_base_bind {B} f (k : unit -> J B) i c s m :
  (on_base f ≫= k) (mkOpenJPEGImage i c s m) = k tt (mkOpenJPEGImage (f i) c s m).
Proof. reflexivity. Qed.
Lemma codec_bind {B} v (k : unit -> J B) i c s m :
  (set_codec v ≫= k) (mkOpenJPEGImage i c s m) = k tt (mkOpenJPEGImage i v s m).
Proof. reflexivity. Qed.
Lemma stream_bind {B} v (k : unit -> J B) i c s m :
  (set_stream v ≫= k) (mkOpenJPEGImage i c s m) = k tt (mkOpenJPEGImage i c v m).
Proof. reflexivity. Qed.
Lemma opj_image_bind {B} v (k : unit -> J B) i c s m :
  (set_image v ≫= k) (mkOpenJPEGImage i c s m) = k tt (mkOpenJPEGImage i c s v).
Proof. reflexivity. Qed.
Lemma the_codec_bind {B} (k : CODEC -> J B) i c s m :
  (the_codec ≫= k) (mkOpenJPEGImage i (Some c) s m) = k c (mkOpenJPEGImage i (Some c) s m).
Proof. reflexivity. Qed.
Lemma the_stream_bind {B} (k : STREAM -> J B) i c s m :
  (the_stream ≫= k) (mkOpenJPEGImage i c (Some s) m) = k s (mkOpenJPEGImage i c (Some s) m).
Proof. reflexivity. Qed.
Lemma the_image_bind {B} (k : opj_image -> J B) i c s m :
  (the_image ≫= k) (mkOpenJPEGImage i c s (Some m)) = k m (mkOpenJPEGImage i c s (Some m)).
Proof. reflexivity. Qed.
End JLemmas.

(** ** The samples of a rectangle *)

Section Samples.
Context (bpc ch tw th : Z).

Definition cell_size : Z := output_bits bpc / 8.

(** The cell a sample becomes. *)
Definition shown (v : Z) : Z :=
  if output_bits bpc =? 16 then Z.land v 0xffff else if bpc =? 1 then u8 (Z.land v 0xf * 255) else Z.land v 0xff.

(** The cells of an array, one after the other. *)
Definition encode (l : list Z) : bytes := mjoin (le_encode (Z.to_nat cell_size) <$> l).

Context (Hbpc : 0 < bpc <= 16) (Hch : 0 < ch) (Htw : 0 < tw) (Hth : 0 < th).

Lemma cell_cases : (output_bits bpc = 16 /\ cell_size = 2) \/ (output_bits bpc = 8 /\ cell_size = 1).
Proof.
  unfold cell_size, output_bits. destruct (Z.leb_spec bpc 16); [|lia]. destruct (Z.ltb_spec 8 bpc); cbn [andb]; [auto|].
  destruct (Z.leb_spec bpc 8); [auto|lia].
Qed.

Lemma cell_size_pos : 0 < cell_size <= 2.
Proof. destruct cell_cases as [[_ ->]|[_ ->]]; lia. Qed.

Lemma length_encode l : blen (encode l) = cell_size * Z.of_nat (length l).
Proof.
  pose proof cell_size_pos. unfold blen, encode. rewrite (concat_length_const (Z.to_nat cell_size)).
  - rewrite length_fmap. lia.
  - apply Forall_fmap, Forall_true. intros x. apply le_encode_length.
Qed.

Lemma encode_snoc l v : encode (l ++ [v]) = encode l ++ le_encode (Z.to_nat cell_size) v.
Proof. unfold encode. rewrite fmap_app, join_app. cbn. rewrite app_nil_r. reflexivity. Qed.

(** Writing the cell after those that are there. *)
Lemma st_append l d v :
  cell_size * (Z.of_nat (length l) + 1) <= blen d ->
  RawTile.st cell_size (encode l ++ drop (length (encode l)) d) (Z.of_nat (length l)) v
  = Ok (encode (l ++ [v]) ++ drop (length (encode (l ++ [v]))) d).
Proof.
  intros Hd. pose proof cell_size_pos as Hc. pose proof (length_encode l) as Hl. pose proof (length_encode (l ++ [v])) as Hl'.
  rewrite length_app in Hl'. cbn [length] in Hl'. unfold blen in *. unfold RawTile.st, memcpy.
  rewrite (proj2 (Z.eqb_neq cell_size 0)) by lia.
  unfold blen. rewrite length_app, length_drop, le_encode_length.
  rewrite !(proj2 (Z.leb_le _ _)), (proj2 (Z.ltb_lt _ _)) by lia. cbn [andb]. f_equal.
  rewrite take_app_length' by lia. rewrite (drop_0 (le_encode _ _)) || change (drop (Z.to_nat 0) ?x) with x.
  rewrite take_ge by (rewrite le_encode_length; lia). rewrite encode_snoc, <- app_assoc. f_equal. f_equal.
  rewrite drop_app_ge by lia. rewrite drop_drop. f_equal. rewrite length_app, le_encode_length. lia.
Qed.
(** The loops: component after component of pixel after pixel. *)
Context (im : opj_image) (val : Z -> Z -> Z) (d : bytes).
Context (Hval : forall p k, 0 <= p < tw * th -> 0 <= k < ch ->
  exists comp, comps im !! Z.to_nat k = Some comp /\ data comp !! Z.to_nat p = Some (val p k)).
Context (Hlen : blen d = cell_size * (tw * th * ch)) (Hsmall : tw * th * ch < 2 ^ 32).

Definition cells (m : Z) : list Z := (fun j => shown (val (j / ch) (j mod ch))) <$> range 0 m.
Definition filled (m : Z) : bytes := encode (cells m) ++ drop (length (encode (cells m))) d.

Lemma cells_snoc m : 0 <= m -> cells (m + 1) = cells m ++ [shown (val (m / ch) (m mod ch))].
Proof. intros Hm. unfold cells. rewrite range_snoc, fmap_app by lia. rewrite Z.add_simpl_r. reflexivity. Qed.

Lemma put_sample_ok p k :
  0 <= p < tw * th -> 0 <= k < ch ->
  put_sample bpc p im k (p * ch + k, filled (p * ch + k)) = Ok (p * ch + k + 1, filled (p * ch + k + 1)).
Proof.
  intros Hp Hk. destruct (Hval p k Hp Hk) as (comp & Ec & Ev). unfold put_sample.
  rewrite (proj2 (rd_ok (comps im) k comp)), bind_ret by (split; [lia|exact Ec]).
  rewrite (proj2 (rd_ok (data comp) p (val p k))), bind_ret by (split; [lia|exact Ev]).
  assert (Hm : 0 <= p * ch + k /\ p * ch + k + 1 <= tw * th * ch) by nia.
  assert (E : RawTile.st cell_size (filled (p * ch + k)) (p * ch + k) (shown (val p k)) = Ok (filled (p * ch + k + 1))).
  { unfold filled. rewrite cells_snoc, in_tile, of_tile by lia.
    assert (El : Z.of_nat (length (cells (p * ch + k))) = p * ch + k) by (unfold cells; rewrite length_fmap, length_range; lia).
    pose proof (st_append (cells (p * ch + k)) d (shown (val p k))) as A. rewrite El in A. apply A. rewrite Hlen. pose proof cell_size_pos. nia. }
  rewrite u32_small by lia. unfold shown in E. destruct cell_cases as [[E1 E2]|[E1 E2]]; rewrite E1, E2 in *.
  - change (16 =? 16) with true in *. cbv iota in *. rewrite E. reflexivity.
  - change (8 =? 16) with false in *. cbv iota in *. destruct (bpc =? 1); rewrite E; reflexivity.
Qed.

Lemma put_pixels_ok : put_pixels bpc ch 1 tw th im d = Ok (encode (cells (tw * th * ch))).
Proof.
  assert (Hpix : forall p, 0 <= p < tw * th ->
    foldM (put_sample bpc p im) (range 0 ch) (p * ch, filled (p * ch)) = Ok ((p + 1) * ch, filled ((p + 1) * ch))).
  { intros p Hp. destruct (foldM_range (fun k st => st = (p * ch + k, filled (p * ch + k))) (put_sample bpc p im) 0 ch
      (p * ch, filled (p * ch))) as (st & -> & ->); [lia|rewrite Z.add_0_r; reflexivity| |].
    - intros k st Hk ->. rewrite put_sample_ok by assumption. eexists. split; [reflexivity|]. rewrite Z.add_assoc. reflexivity.
    - replace ((p + 1) * ch) with (p * ch + ch) by ring. reflexivity. }
  assert (Hst : forall n, 0 <= n -> n <= tw * th -> strided 1 n = Ok (range 0 n)).
  { intros n H0 Hn. unfold strided. destruct (Z.leb_spec n 0); [rewrite range_nil by lia; reflexivity|].
    change (1 <=? 0) with false. cbv iota. replace (n + 1 - 1) with n by lia. rewrite Z.div_1_r, Z.mul_1_r.
    rewrite (proj2 (Z.ltb_lt _ _)) by nia. f_equal. etransitivity; [|apply list_fmap_id].
    apply list_fmap_ext. intros j x _. apply Z.mul_1_r. }
  assert (Hfull : filled (tw * th * ch) = encode (cells (tw * th * ch))).
  { unfold filled. rewrite drop_ge; [apply app_nil_r|]. pose proof (length_encode (cells (tw * th * ch))) as L.
    unfold cells in L at 2. rewrite length_fmap, length_range in L. unfold blen in *. pose proof cell_size_pos. nia. }
  unfold put_pixels. rewrite (Hst th), bind_ret by nia.
  destruct (foldM_range (fun y st => st = (y * tw, y * tw * ch, filled (y * tw * ch)))
    (fun _ st => cols ← strided 1 tw;
       foldM (fun _ '(n, nk, d) => '(nk, d) ← foldM (put_sample bpc n im) (range 0 ch) (nk, d); Ok (u32 (n + 1), nk, d)) cols st)
    0 th (0, 0, d)) as (st & -> & ->); [lia|reflexivity| |].
  - intros y st Hy ->. rewrite (Hst tw), bind_ret by nia.
    destruct (foldM_range (fun x st => st = (y * tw + x, (y * tw + x) * ch, filled ((y * tw + x) * ch)))
      (fun _ '(n, nk, d) => '(nk, d) ← foldM (put_sample bpc n im) (range 0 ch) (nk, d); Ok (u32 (n + 1), nk, d))
      0 tw (y * tw, y * tw * ch, filled (y * tw * ch))) as (st & -> & ->); [lia|rewrite Z.add_0_r; reflexivity| |].
    + intros x st Hx ->. assert (0 <= y * tw + x < th * tw) by (apply row_major_bound; lia).
      rewrite Hpix, bind_ret by lia. rewrite u32_small by nia. eexists. split; [reflexivity|]. rewrite !Z.add_assoc. reflexivity.
    + eexists. split; [reflexivity|]. replace ((y + 1) * tw) with (y * tw + tw) by ring. reflexivity.
  - rewrite bind_ret. replace (th * tw * ch) with (tw * th * ch) by ring. rewrite Hfull. reflexivity.
Qed.
End Samples.

(** One byte of the cells of a rectangle. *)
Lemma lookup_encoded bits (Hb : 0 < bits <= 16) ch w h (g : Z -> Z -> Z) dx dy c :
  0 < ch -> 0 < w -> 0 < h -> 0 <= dx < w -> 0 <= dy < h -> 0 <= c < ch * cell_size bits ->
  encode bits ((fun j => g (j / ch) (j mod ch)) <$> range 0 (w * h * ch)) !! Z.to_nat ((dy * w + dx) * (ch * cell_size bits) + c)
  = Some (nth (Z.to_nat (c mod cell_size bits)) (le_encode (Z.to_nat (cell_size bits)) (g (dy * w + dx) (c / cell_size bits))) 0).
Proof.
  intros Hn Hw Hh Hx Hy Hc. pose proof (cell_size_pos bits Hb) as Hz.
  set (z := cell_size bits) in *. pose proof (Z.mod_pos_bound c z ltac:(lia)) as Bm. pose proof (Z.div_mod c z ltac:(lia)) as Dm.
  assert (Bd : 0 <= c / z < ch) by (split; [apply Z.div_pos; lia|apply Z.div_lt_upper_bound; lia]).
  set (p := dy * w + dx). assert (Bp : 0 <= p < w * h) by (pose proof (row_major_bound w h dx dy Hx Hy); unfold p; lia).
  assert (Ei : Z.to_nat (p * (ch * z) + c) = (Z.to_nat (p * ch + c / z) * Z.to_nat z + Z.to_nat (c mod z))%nat) by nia.
  rewrite Ei. unfold encode. fold z. rewrite lookup_concat_const; [|apply Forall_fmap, Forall_true; intros; apply le_encode_length|lia].
  rewrite <- list_fmap_compose, list_lookup_fmap. rewrite <- (Z.sub_0_r (p * ch + c / z)) at 1.
  rewrite lookup_range_at by nia. cbn [fmap option_fmap option_map mbind option_bind]. unfold compose.
  rewrite in_tile, of_tile by lia.
  assert (L : (Z.to_nat (c mod z) < length (le_encode (Z.to_nat z) (g p (c / z)%Z)))%nat)
    by (rewrite le_encode_length; lia).
  destruct (lookup_lt_is_Some_2 _ _ L) as [v Ev]. rewrite Ev. f_equal. symmetry. apply nth_lookup_Some, Ev.
Qed.

(** ** The sizes of the levels *)

Definition halves (a lo hi : Z) : list Z := (fun k => a / 2 ^ k) <$> range lo hi.

Lemma half a k : 0 <= k -> a / 2 ^ k / 2 = a / 2 ^ (k + 1).
Proof. intros Hk. rewrite Z.div_div, Z.pow_add_r by lia. reflexivity. Qed.

Lemma halves_cons a lo hi : lo < hi -> halves a lo hi = a / 2 ^ lo :: halves a (lo + 1) hi.
Proof. intros Hlt. unfold halves. rewrite range_cons by exact Hlt. reflexivity. Qed.

Lemma halves_nil a lo hi : hi <= lo -> halves a lo hi = [].
Proof. intros Hle. unfold halves. rewrite range_nil by exact Hle. reflexivity. Qed.

Lemma halves_app a lo mid hi : lo <= mid <= hi -> halves a lo mid ++ halves a mid hi = halves a lo hi.
Proof. intros Hm. unfold halves. rewrite (range_app lo mid hi), fmap_app by exact Hm. reflexivity. Qed.

Lemma lookup_halves a hi k : 0 <= k < hi -> halves a 0 hi !! Z.to_nat k = Some (a / 2 ^ k).
Proof. intros Hk. unfold halves. rewrite list_lookup_fmap. rewrite <- (Z.sub_0_r k) at 1. rewrite lookup_range_at by lia. reflexivity. Qed.

Lemma dwt_levels_ok n w h k i :
  0 <= k -> dwt_levels n (w / 2 ^ k) (h / 2 ^ k) i
  = push_all i (halves w (k + 1) (k + 1 + Z.of_nat n)) (halves h (k + 1) (k + 1 + Z.of_nat n)).
Proof.
  revert k i. induction n as [|n IH]; intros k i Hk; cbn [dwt_levels].
  - rewrite !halves_nil, push_all_nil by lia. reflexivity.
  - rewrite !half, IH by lia. change (push_size ?w ?h ?j) with (push_all j [w] [h]). rewrite push_all_app. cbn [app].
    rewrite <- !halves_cons by lia. f_equal; f_equal; lia.
Qed.

(** Whether the level [k] fits into a tile. *)
Definition fits (w h k : Z) : Prop := w / 2 ^ k <= TILESIZE /\ h / 2 ^ k <= TILESIZE.

Lemma virtual_sizes_S fuel n w h numRes i :
  virtual_sizes (S fuel) n w h numRes i
  = if (tile_width i <? w) || (tile_height i <? h) then
      virtual_sizes fuel (u32 (n + 1)) (w / 2) (h / 2) numRes (if numRes <? u32 (n + 1) then push_size (w / 2) (h / 2) i else i)
    else Ok (n, i).
Proof. reflexivity. Qed.

(** The loop ends at the first level that fits, and adds the sizes that are not
    encoded. *)
Lemma virtual_sizes_ok fuel n w h numRes i :
  tile_width i = TILESIZE -> tile_height i = TILESIZE -> 0 < n -> n + Z.of_nat fuel < 2 ^ 32 ->
  w / 2 ^ (n - 1) < TILESIZE * 2 ^ Z.of_nat fuel -> h / 2 ^ (n - 1) < TILESIZE * 2 ^ Z.of_nat fuel ->
  exists N, n <= N <= n + Z.of_nat fuel /\ fits w h (N - 1) /\ (forall k, n - 1 <= k < N - 1 -> ~ fits w h k)
    /\ virtual_sizes (S fuel) n (w / 2 ^ (n - 1)) (h / 2 ^ (n - 1)) numRes i
       = Ok (N, push_all i (halves w (Z.max n numRes) N) (halves h (Z.max n numRes) N)).
Proof.
  revert n i. induction fuel as [|fuel IH]; intros n i Htw Hth Hn Hsmall Hw Hh;
    rewrite virtual_sizes_S, Htw, Hth; destruct (_ || _) eqn:E.
  - exfalso. apply orb_prop in E as [E|E]; apply Z.ltb_lt in E; cbn in Hw, Hh; lia.
  - apply orb_false_elim in E as [E1 E2]. apply Z.ltb_ge in E1, E2.
    exists n. split; [lia|]. split; [split; assumption|]. split; [intros k Hk; lia|].
    rewrite !halves_nil, push_all_nil by lia. reflexivity.
  - assert (Hno : ~ fits w h (n - 1)).
    { intros [F1 F2]. apply orb_prop in E as [E|E]; apply Z.ltb_lt in E; lia. }
    rewrite u32_small, !half by lia. rewrite Z.sub_add.
    set (j := if numRes <? n + 1 then push_size (w / 2 ^ n) (h / 2 ^ n) i else i).
    rewrite Nat2Z.inj_succ, Z.pow_succ_r in Hw, Hh by lia.
    assert (Hd : forall v, v / 2 ^ (n - 1) < TILESIZE * (2 * 2 ^ Z.of_nat fuel) -> v / 2 ^ n < TILESIZE * 2 ^ Z.of_nat fuel).
    { intros v Hv. replace (2 ^ n) with (2 ^ (n - 1 + 1)) by (f_equal; lia). rewrite <- half by lia.
      apply Z.div_lt_upper_bound; lia. }
    destruct (IH (n + 1) j) as (N & HN & Hfit & Hleast & EN); try (unfold j; destruct (numRes <? n + 1); assumption);
      rewrite ?Z.add_simpl_r in *; try apply Hd; try assumption; try lia.
    rewrite EN. exists N. split; [lia|]. split; [exact Hfit|]. split.
    { intros k Hk. destruct (Z.eq_dec k (n - 1)) as [->|]; [exact Hno|]. apply Hleast. lia. }
    f_equal. f_equal. unfold j. destruct (Z.ltb_spec numRes (n + 1)) as [Hr|Hr].
    + change (push_size ?w ?h ?j) with (push_all j [w] [h]). rewrite push_all_app. cbn [app].
      rewrite !Z.max_l by lia. rewrite <- !halves_cons by lia. reflexivity.
    + rewrite !Z.max_r by lia. reflexivity.
  - apply orb_false_elim in E as [E1 E2]. apply Z.ltb_ge in E1, E2.
    exists n. split; [lia|]. split; [split; assumption|]. split; [intros k Hk; lia|].
    rewrite !halves_nil, push_all_nil by lia. reflexivity.
Qed.

(** The sizes that are encoded and those that are not are those of all levels. *)
Lemma halves_tail v R N : 1 <= R -> 1 <= N -> halves v 0 R ++ halves v (Z.max 1 R) N = halves v 0 (Z.max R N).
Proof.
  intros HR HN. rewrite Z.max_r by lia. destruct (Z.le_gt_cases N R).
  - rewrite (halves_nil v R N), app_nil_r, Z.max_l by lia. reflexivity.
  - rewrite halves_app, Z.max_r by lia. reflexivity.
Qed.

Lemma set_colourspace_ok i : exists cs, set_colourspace i = i <| IIPImage.colourspace := cs |>.
Proof.
  unfold set_colourspace. destruct (_ =? 1); [eexists; reflexivity|]. destruct (_ =? 3); [eexists; reflexivity|].
  exists (IIPImage.colourspace i). destruct i; reflexivity.
Qed.

(** The range of the channels is all that the last loop adds. *)
Lemma channel_ranges_ok l i :
  exists mn mx, fold_left (fun i (_ : Z) => channel_range i) l i = i <| IIPImage.min := mn |> <| IIPImage.max := mx |>.
Proof.
  revert i. induction l as [|k l IH]; intros i; cbn [fold_left].
  - exists (IIPImage.min i), (IIPImage.max i). destruct i; reflexivity.
  - assert (E : exists mn mx, channel_range i = i <| IIPImage.min := mn |> <| IIPImage.max := mx |>).
    { unfold channel_range. destruct (_ && _); eexists _, _; reflexivity. }
    destruct E as (mn & mx & ->). destruct (IH (i <| IIPImage.min := mn |> <| IIPImage.max := mx |>)) as (mn' & mx' & ->).
    exists mn', mx'. reflexivity.
Qed.

(** The image after its description was read: the levels down to the [N]th, or to
    the last one that is encoded. *)
Definition loaded (i : IIPImage) (info : opj_codestream_info) (bits ch w h N : Z) (cs : ColourSpaces) (mn mx : list float) : IIPImage :=
  let R := numresolutions info in
  i <| quality_layers := numlayers info |> <| IIPImage.bpc := bits |> <| IIPImage.channels := if bits =? 1 then 1 else ch |>
    <| image_widths := halves w 0 (Z.max R N) |> <| image_heights := halves h 0 (Z.max R N) |>
    <| virtual_levels := if R <? N then u32 (N - R - 1) else virtual_levels i |> <| numResolutions := N |>
    <| IIPImage.colourspace := cs |> <| IIPImage.min := mn |> <| IIPImage.max := mx |> <| IIPImage.isSet := true |>.

(** All levels: those of the file and the others. *)
Lemma all_levels_ok i L w h :
  image_widths i = [] -> image_heights i = [] -> tile_width i = TILESIZE -> tile_height i = TILESIZE ->
  0 <= L -> 0 <= w < 2 ^ 32 -> 0 <= h < 2 ^ 32 ->
  let i1 := dwt_levels (Z.to_nat (L - 1)) w h (push_size w h i) in
  exists N, 1 <= N <= 33 /\ fits w h (N - 1) /\ (forall k, 0 <= k < N - 1 -> ~ fits w h k)
    /\ rd (image_widths i1) 0 = Ok w /\ rd (image_heights i1) 0 = Ok h
    /\ virtual_sizes 33 1 w h L i1 = Ok (N, i <| image_widths := halves w 0 (Z.max (Z.max 1 L) N) |>
                                            <| image_heights := halves h 0 (Z.max (Z.max 1 L) N) |>).
Proof.
  intros Hiw Hih Htw Hth HL Hw Hh i1. set (R := Z.max 1 L).
  assert (E1 : i1 = push_all i (halves w 0 R) (halves h 0 R)).
  { unfold i1. replace (Z.to_nat (L - 1)) with (Z.to_nat (R - 1)) by lia.
    pose proof (dwt_levels_ok (Z.to_nat (R - 1)) w h 0 (push_size w h i) ltac:(lia)) as E.
    rewrite !Z.pow_0_r, !Z.div_1_r in E. rewrite E. change (push_size w h i) with (push_all i [w] [h]). rewrite push_all_app.
    rewrite (halves_cons w 0), (halves_cons h 0), Z.pow_0_r, !Z.div_1_r by lia. cbn [app].
    replace (0 + 1 + Z.of_nat (Z.to_nat (R - 1))) with R by lia. reflexivity. }
  assert (Ew : image_widths i1 = halves w 0 R) by (rewrite E1; change (image_widths i ++ halves w 0 R = halves w 0 R); rewrite Hiw; reflexivity).
  assert (Eh : image_heights i1 = halves h 0 R) by (rewrite E1; change (image_heights i ++ halves h 0 R = halves h 0 R); rewrite Hih; reflexivity).
  assert (R0 : forall v, rd (halves v 0 R) 0 = Ok v).
  { intros v. apply rd_ok. split; [lia|]. rewrite lookup_halves, Z.pow_0_r, Z.div_1_r by lia. reflexivity. }
  assert (Htw1 : tile_width i1 = TILESIZE) by (rewrite E1; exact Htw). assert (Hth1 : tile_height i1 = TILESIZE) by (rewrite E1; exact Hth).
  destruct (virtual_sizes_ok 32 1 w h L i1 Htw1 Hth1 ltac:(lia) ltac:(lia)) as (N & HN & Hfit & Hleast & EN).
  { change (1 - 1) with 0. rewrite Z.pow_0_r, Z.div_1_r. unfold TILESIZE. lia. }
  { change (1 - 1) with 0. rewrite Z.pow_0_r, Z.div_1_r. unfold TILESIZE. lia. }
  change (1 - 1) with 0 in EN, Hleast. rewrite Z.pow_0_r, !Z.div_1_r in EN.
  exists N. split; [lia|]. split; [exact Hfit|]. split; [exact Hleast|]. rewrite Ew, Eh, !R0, EN. split; [reflexivity|]. split; [reflexivity|].
  assert (Ht : forall v, halves v 0 R ++ halves v R N = halves v 0 (Z.max R N)).
  { intros v. pose proof (halves_tail v R N) as T. rewrite (Z.max_r 1 R) in T by lia. apply T; lia. }
  fold R. rewrite E1, push_all_app, !Ht. unfold push_all. rewrite Hiw, Hih. reflexivity.
Qed.

Lemma image_info_ok info im i first rest :
  comps im = first :: rest -> image_widths i = [] -> image_heights i = [] ->
  tile_width i = TILESIZE -> tile_height i = TILESIZE -> 0 < numresolutions info < 2 ^ 31 ->
  let w := u32 (x1 im - x0 im) in
  let h := u32 (y1 im - y0 im) in
  exists N cs mn mx, 1 <= N <= 33 /\ fits w h (N - 1) /\ (forall k, 0 <= k < N - 1 -> ~ fits w h k)
    /\ image_info info im i = Ok (loaded i info (prec first) (Z.of_nat (length (comps im))) w h N cs mn mx).
Proof.
  intros Ec Hiw Hih Htw Hth HR w h. unfold image_info.
  assert (Ef : rd (comps im) 0 = Ok first) by (rewrite Ec; reflexivity). rewrite Ef, bind_ret. cbv zeta. fold w h. set (R := numresolutions info) in *.
  set (i1 := i <| quality_layers := _ |> <| IIPImage.channels := _ |> <| IIPImage.bpc := _ |>).
  destruct (all_levels_ok i1 R w h Hiw Hih Htw Hth ltac:(lia) (u32_range _) (u32_range _)) as (N & HN & Hfit & Hleast & -> & -> & EN).
  rewrite !bind_ret, EN, bind_ret. clear EN. rewrite (Z.max_r 1 R) by lia.
  match goal with |- context [set_colourspace ?j] => destruct (set_colourspace_ok j) as (cs & ->) end.
  match goal with |- context [fold_left _ (range 0 (IIPImage.channels ?j)) ?j] =>
    destruct (channel_ranges_ok (range 0 (IIPImage.channels j)) j) as (mn & mx & ->) end.
  exists N, cs, mn, mx. split; [lia|]. split; [exact Hfit|]. split; [exact Hleast|].
  apply (f_equal Ok). unfold i1, loaded. fold R. clear.
  destruct (R <? N) eqn:E; cbv zeta;
    match goal with |- context [if IIPImage.bpc ?j =? 1 then _ else _] => change (IIPImage.bpc j) with (prec first) end;
    destruct (prec first =? 1); reflexivity.
Qed.

(** ** The files *)

Section File.
Context {lib : OpenJPEG} (fs : FileSystem) (junk : Z -> Z).

(** The size, the number of encoded resolutions and of layers, the components and
    their depth, the profile; the samples: layers, reduction, component, column, row. *)
Context (path : string) (time W H R Q ncomp bits : Z) (icc : string) (sample : Z -> Z -> Z -> Z -> Z -> Z).

Definition ceil_pow (v k : Z) : Z := (v + 2 ^ k - 1) / 2 ^ k.

(** What the decoder leaves of the rectangle [X0, X1) x [Y0, Y1) of the canvas: its
    samples at the reduction [k], line after line. *)
Definition decoded_area (l k X0 Y0 X1 Y1 : Z) (im : opj_image) : Prop :=
  Z.of_nat (length (comps im)) = ncomp /\ icc_profile im = icc /\
  forall c x y, 0 <= c < ncomp ->
    let cx := ceil_pow X0 k in
    let cy := ceil_pow Y0 k in
    let w := ceil_pow X1 k - cx in
    let h := ceil_pow Y1 k - cy in
    0 <= x < w -> 0 <= y < h ->
    exists comp, comps im !! Z.to_nat c = Some comp /\ data comp !! Z.to_nat (y * w + x) = Some (sample l k c (cx + x) (cy + y)).

(** The states of the decoder: the header was read; the reduction and the layers are
    set; so is the area. *)
Context (header : CODEC -> STREAM -> opj_image -> Prop)
        (configured : Z -> Z -> CODEC -> STREAM -> opj_image -> Prop)
        (framed : Z -> Z -> Z -> Z -> Z -> Z -> CODEC -> STREAM -> opj_image -> Prop).

(** What OpenJPEG documents, for such a file, whose image starts at the origin. *)
Record jp2_file : Prop := {
  jp_open : exists c s im s' c', opj_setup_decoder opj_default_parameters opj_create_decompress = Ok (true, c)
    /\ opj_stream_create path = Some s /\ opj_read_header s c = Ok (Some im, s', c') /\ header c' s' im;
  jp_info : forall c s im, header c s im -> opj_get_cstr_info c = mkInfo R Q;
  jp_area : forall c s im, header c s im -> x0 im = 0 /\ y0 im = 0 /\ x1 im = W /\ y1 im = H;
  jp_comps : forall c s im, header c s im -> exists first rest, comps im = first :: rest
    /\ prec first = bits /\ Z.of_nat (length (comps im)) = ncomp;
  jp_setup : forall c s im k l f, header c s im -> 0 <= k < R -> 0 < l ->
    exists c', opj_setup_decoder (mkParameters k l f) c = Ok (true, c') /\ configured l k c' s im;
  jp_frame : forall c s im k l X0 Y0 X1 Y1, configured l k c s im -> 0 <= X0 < X1 -> X1 <= W -> 0 <= Y0 < Y1 -> Y1 <= H ->
    exists c' im', opj_set_decode_area c (set_factor k im) X0 Y0 X1 Y1 = Ok (true, c', im') /\ framed l k X0 Y0 X1 Y1 c' s im';
  jp_decode : forall c s im k l X0 Y0 X1 Y1, framed l k X0 Y0 X1 Y1 c s im ->
    exists c' s' im' b, opj_decode c s im = Ok (true, c', s', im') /\ decoded_area l k X0 Y0 X1 Y1 im'
      /\ opj_end_decompress c' s' = Ok b
}.

Context (N : Z).

(** Sizes in the range of the server's integers; [N] levels, none of them empty; one
    component if the samples are bits. *)
Record jp2_sizes : Prop := {
  js_w : 0 < W < 2 ^ 24;
  js_h : 0 < H < 2 ^ 24;
  js_n : 0 < N;
  js_enough : fits W H (N - 1);
  js_least : forall k, 0 <= k < N - 1 -> ~ fits W H k;
  js_some : 0 < W / 2 ^ (N - 1) /\ 0 < H / 2 ^ (N - 1);
  js_tiles : ntiles W TILESIZE * ntiles H TILESIZE < 2 ^ 31;
  js_encoded : 0 < R < 2 ^ 31;
  js_layers : 0 < Q < 2 ^ 16;
  js_comps : 0 < ncomp < 2 ^ 14;
  js_bits : 0 < bits <= 16;
  js_bilevel : bits = 1 -> ncomp = 1
}.

Context (Hf : jp2_file) (Hs : jp2_sizes).
Definition level_w (k : Z) : Z := W / 2 ^ k.
Definition level_h (k : Z) : Z := H / 2 ^ k.

(** The image as it was loaded from the file. *)
Record describes (i : IIPImage) : Prop := {
  ds_widths : forall k, 0 <= k < N -> image_widths i !! Z.to_nat k = Some (level_w k);
  ds_heights : forall k, 0 <= k < N -> image_heights i !! Z.to_nat k = Some (level_h k);
  ds_res : numResolutions i = N;
  ds_tw : tile_width i = TILESIZE;
  ds_th : tile_height i = TILESIZE;
  ds_virtual : virtual_levels i = if R <? N then u32 (N - R - 1) else 0;
  ds_ch : IIPImage.channels i = ncomp;
  ds_bpc : IIPImage.bpc i = bits;
  ds_layers : quality_layers i = Q;
  ds_path : c_str (getFileName (currentX i) (currentY i) i) = path;
  ds_time : IIPImage.timestamp i = time;
  ds_stat : exists f, fs_stat fs path = Some (f, time)
}.
(** ** The state of the object *)

(** Whatever was asked of the object: the image is as it was loaded, but for the
    profile, and the file is closed or its header was read. *)
Inductive opj_inv (i : IIPImage) : OpenJPEGImage -> Prop :=
| inv_closed m : opj_inv i (closed (i <| metadata := m |>))
| inv_opened m c s im : header c s im ->
    opj_inv i (mkOpenJPEGImage (i <| metadata := m |>) (Some c) (Some s) (Some im)).

Lemma levels_few : N <= 24.
Proof.
  pose proof (js_n Hs). pose proof (js_w Hs). destruct (js_some Hs) as [Hw _].
  destruct (Z.le_gt_cases N 24); [assumption|]. exfalso.
  assert (2 ^ 24 <= 2 ^ (N - 1)) by (apply Z.pow_le_mono_r; lia).
  rewrite Z.div_small in Hw by lia. lia.
Qed.

Lemma opj_reopen_ok i o :
  describes i -> opj_inv i o ->
  exists m c s im, (match _image o with None => openImage fs | Some _ => mret tt end) o
      = (Ok tt, mkOpenJPEGImage (i <| metadata := m |>) (Some c) (Some s) (Some im)) /\ header c s im.
Proof.
  intros Hd Ho. destruct Ho as [m|m c s im Hh]; cbn [_image closed]; [|eauto 6].
  destruct (jp_open Hf) as (c & s & im & s' & c' & E1 & E2 & E3 & Hh). exists m, c', s', im. split; [|exact Hh].
  unfold openImage. rewrite obj_get_bind. cbn [base closed].
  set (j := i <| metadata := m |>).
  assert (Ej : c_str (getFileName (currentX j) (currentY j) j) = path) by exact (ds_path i Hd).
  unfold updateTimestamp. rewrite Ej. destruct (ds_stat i Hd) as [f Hst]. rewrite Hst, obj_lift_bind. unfold closed.
  rewrite opj_base_bind, codec_bind, E1, obj_lift_bind, codec_bind. cbn [negb].
  rewrite E2, stream_bind, E3, obj_lift_bind, stream_bind, codec_bind, opj_image_bind.
  assert (Et : j <| IIPImage.timestamp := time |> = j) by (rewrite <- (ds_time i Hd); destruct i; reflexivity).
  rewrite Et.
  change (IIPImage.bpc j) with (IIPImage.bpc i). rewrite (ds_bpc i Hd). pose proof (js_bits Hs).
  rewrite (proj2 (Z.eqb_neq bits 0)) by lia. reflexivity.
Qed.

(** ** Decoding a rectangle *)

(** The samples of a rectangle as the bytes of a tile. *)
Definition rect_bytes (l k x y w h : Z) : bytes :=
  encode bits (cells bits ncomp (fun p c => sample l k c (x + p mod w) (y + p / w)) (w * h * ncomp)).

Lemma ceil_pow_shift v k : 0 <= k -> ceil_pow (v * 2 ^ k) k = v.
Proof.
  intros Hk. pose proof (Z.pow_pos_nonneg 2 k ltac:(lia) Hk). unfold ceil_pow.
  symmetry. apply (Z.div_unique_pos _ _ _ (2 ^ k - 1)); lia.
Qed.

Lemma decoded_layers_pos layers : is_i32 layers -> 0 < decoded_layers Q layers < 2 ^ 31.
Proof.
  intros [H1 H2]. pose proof (js_layers Hs). unfold decoded_layers.
  assert (0 <= (Q + 1) / 2 <= Q) by (split; [apply Z.div_pos; lia|apply Z.div_le_upper_bound; lia]).
  destruct (layers <? 0) eqn:E1; [rewrite i32_small by lia; destruct (Z.ltb_spec Q 1); lia|].
  destruct (layers =? 0); [destruct (Z.ltb_spec ((Q + 1) / 2) 1); lia|destruct (Z.ltb_spec layers 1); lia].
Qed.

(** The file has the level of the resolution. *)
Definition encoded (r : Z) : Prop := N - 1 - r < R.

(** A rectangle inside the level of a resolution. *)
Definition inside (r x y w h : Z) : Prop :=
  0 <= r < N /\ 0 <= x /\ 0 <= y /\ 0 < w /\ 0 < h /\ x + w <= level_w (N - 1 - r) /\ y + h <= level_h (N - 1 - r)
  /\ w * h * ncomp < 2 ^ 31.

Lemma on_canvas v extent k : 0 <= k -> 0 <= v <= extent / 2 ^ k -> 0 <= v * 2 ^ k <= extent.
Proof.
  intros Hk Hv. pose proof (Z.pow_pos_nonneg 2 k ltac:(lia) Hk). pose proof (Z.mul_div_le extent (2 ^ k) ltac:(lia)). nia.
Qed.

Lemma area_rect l k x y w h im :
  0 <= k -> 0 < w -> 0 < h -> decoded_area l k (x * 2 ^ k) (y * 2 ^ k) ((x + w) * 2 ^ k) ((y + h) * 2 ^ k) im ->
  forall p c, 0 <= p < w * h -> 0 <= c < ncomp ->
  exists comp, comps im !! Z.to_nat c = Some comp /\ data comp !! Z.to_nat p = Some (sample l k c (x + p mod w) (y + p / w)).
Proof.
  intros Hk Hw Hh (_ & _ & Ha) p c Hp Hc. specialize (Ha c (p mod w) (p / w) Hc). cbv zeta in Ha.
  rewrite !ceil_pow_shift in Ha by exact Hk.
  destruct Ha as (comp & E1 & E2).
  - pose proof (Z.mod_pos_bound p w Hw). lia.
  - assert (0 <= p / w < h) by (split; [apply Z.div_pos; lia|apply Z.div_lt_upper_bound; lia]). lia.
  - exists comp. split; [exact E1|]. replace (x + w - x) with w in E2 by lia.
    replace (p / w * w + p mod w) with p in E2 by (pose proof (Z.div_mod p w ltac:(lia)); lia). exact E2.
Qed.
Lemma process_ok i o r layers x y w h d :
  describes i -> opj_inv i o -> is_i32 layers -> encoded r -> inside r x y w h -> blen d = cell_size bits * (w * h * ncomp) ->
  exists o', process fs junk r layers x y w h d o
      = (Ok (rect_bytes (decoded_layers Q layers) (N - 1 - r) x y w h), o') /\ opj_inv i o'.
Proof.
  intros Hd Ho Hl He (Hr & Hx & Hy & Hw & Hh & Hxw & Hyh & Hsz) Hlen. unfold encoded in He. set (k := N - 1 - r) in *.
  pose proof levels_few as HN. pose proof (js_w Hs) as HW. pose proof (js_h Hs) as HH. pose proof (js_encoded Hs) as HR.
  pose proof (decoded_layers_pos layers Hl) as Pl. set (l := decoded_layers Q layers) in *.
  destruct (opj_reopen_ok i o Hd Ho) as (m & c & s & im & E & Hhd). unfold process.
  rewrite obj_get_bind, (obj_bind_val _ _ _ _ _ E), obj_get_bind. cbn [base]. set (j := i <| metadata := m |>).
  assert (Ep : place j r x y w h = (1, x, y, w, h, k)).
  { unfold place. change (virtual_levels j) with (virtual_levels i). change (numResolutions j) with (numResolutions i).
    rewrite (ds_virtual i Hd), (ds_res i Hd), (proj2 (Z.ltb_ge r _))
      by (destruct (Z.ltb_spec R N); [rewrite u32_small by lia|]; lia).
    rewrite (u32_small (N - 1)), u32_small, i32_small by lia. reflexivity. }
  rewrite Ep. change (quality_layers j) with (quality_layers i). rewrite (ds_layers i Hd). fold l.
  rewrite (u32_small k), (u32_small l) by lia. rewrite the_codec_bind.
  destruct (jp_setup Hf c s im k l (u32 (junk 0)) Hhd) as (c1 & -> & Hc1); [lia|lia|].
  rewrite obj_lift_bind, codec_bind. cbn [negb]. rewrite the_image_bind, opj_image_bind.
  assert (Hk : 0 <= k < 24) by lia. pose proof (Z.pow_pos_nonneg 2 k ltac:(lia) ltac:(lia)) as P2.
  assert (Ax : 0 <= x * 2 ^ k <= W /\ 0 <= (x + w) * 2 ^ k <= W) by (split; apply on_canvas; unfold level_w in Hxw; lia).
  assert (Ay : 0 <= y * 2 ^ k <= H /\ 0 <= (y + h) * 2 ^ k <= H) by (split; apply on_canvas; unfold level_h in Hyh; lia).
  assert (Sx : forall v, 0 <= v -> v * 2 ^ k <= 2 ^ 24 -> shl_int v k = Ok (v * 2 ^ k) /\ shl_unsigned (u32 v) k = Ok (v * 2 ^ k)).
  { intros v H0 H1. assert (v <= v * 2 ^ k) by nia. unfold shl_int, shl_unsigned.
    rewrite !(proj2 (Z.leb_le _ _)), !(proj2 (Z.ltb_lt _ _)) by lia. cbn [andb].
    rewrite (u32_small v), u32_small by lia. auto. }
  destruct (Sx x) as [-> _]; [lia..|]. destruct (Sx y) as [-> _]; [lia..|].
  destruct (Sx (x + w)) as [_ ->]; [lia..|]. destruct (Sx (y + h)) as [_ ->]; [lia..|].
  rewrite !obj_lift_bind, !i32_small by lia.
  destruct (jp_frame Hf c1 s im k l (x * 2 ^ k) (y * 2 ^ k) ((x + w) * 2 ^ k) ((y + h) * 2 ^ k) Hc1)
    as (c2 & im2 & -> & Hfr); [nia|lia|nia|lia|].
  rewrite obj_lift_bind, codec_bind, opj_image_bind. cbn [negb]. rewrite the_stream_bind.
  destruct (jp_decode Hf _ _ _ _ _ _ _ _ _ Hfr) as (c3 & s3 & im3 & b & -> & Harea & Eend).
  rewrite obj_lift_bind, codec_bind, stream_bind, opj_image_bind. cbn [negb]. rewrite opj_base_bind.
  change (IIPImage.bpc j) with (IIPImage.bpc i). change (IIPImage.channels j) with (IIPImage.channels i).
  rewrite (ds_bpc i Hd), (ds_ch i Hd). pose proof (js_bits Hs). pose proof (js_comps Hs).
  rewrite (put_pixels_ok bits ncomp w h) with (val := fun p c => sample l k c (x + p mod w) (y + p / w));
    [|lia..|apply area_rect; [lia..|exact Harea]|exact Hlen|lia].
  rewrite obj_lift_bind. unfold closeImage.
  match goal with |- context [mkOpenJPEGImage ?b _ _ _] => set (j' := b) end.
  eexists. split.
  - unfold mbind at 1, Obj_bind at 1. rewrite obj_get_bind. cbn [_codec _stream]. rewrite Eend. reflexivity.
  - unfold j'. destruct (0 <? i32 (slen (icc_profile im3))); [exact (inv_closed i _)|exact (inv_closed i m)].
Qed.
(** ** Tiles and regions *)

(** A rectangle as the class returns it. *)
Definition rectangle (tile r seq ang layers x y w h : Z) (i : IIPImage) : RawTile :=
  (new_RawTile tile r seq ang w h ncomp (output_bits bits))
    <| RawTile.dataLength := cell_size bits * (w * h * ncomp) |> <| RawTile.filename := imagePath i |>
    <| RawTile.timestamp := time |>
    <| RawTile.data := Some (rect_bytes (decoded_layers Q layers) (N - 1 - r) x y w h) |>.

Lemma decode_into_ok i o tile r seq ang layers x y w h :
  describes i -> opj_inv i o -> is_i32 layers -> encoded r -> inside r x y w h ->
  exists o', decode_into fs junk tile r seq ang layers x y w h o = (Ok (rectangle tile r seq ang layers x y w h i), o')
    /\ opj_inv i o'.
Proof.
  intros Hd Ho Hl He Hin. pose proof Hin as (Hr & Hx & Hy & Hw & Hh & Hxw & Hyh & Hsz).
  pose proof (js_bits Hs) as Hb. pose proof (js_comps Hs) as Hc.
  assert (P : 0 < w * h * ncomp) by nia.
  assert (Eb : exists m, base o = i <| metadata := m |>) by (destruct Ho; eexists; reflexivity). destruct Eb as [m Eb].
  unfold decode_into. rewrite obj_get_bind, Eb.
  change (IIPImage.bpc (i <| metadata := m |>)) with (IIPImage.bpc i).
  change (IIPImage.channels (i <| metadata := m |>)) with (IIPImage.channels i).
  change (IIPImage.timestamp (i <| metadata := m |>)) with (IIPImage.timestamp i).
  change (getImagePath (i <| metadata := m |>)) with (imagePath i).
  rewrite (ds_bpc i Hd), (ds_ch i Hd), (ds_time i Hd). fold (cell_size bits).
  assert (En : new_samples junk (output_bits bits) (w * h * ncomp) = Ok (new_bytes junk (cell_size bits * (w * h * ncomp)))).
  { unfold new_samples. rewrite u32_small by lia. destruct (cell_cases bits Hb) as [[-> ->]|[-> ->]]; [reflexivity|].
    change (8 =? 16) with false. change (8 =? 8) with true. cbv iota. rewrite Z.mul_1_l. reflexivity. }
  rewrite En, obj_lift_bind. pose proof (cell_size_pos bits Hb).
  destruct (process_ok i o r layers x y w h (new_bytes junk (cell_size bits * (w * h * ncomp))) Hd Ho Hl He Hin) as (o' & E & Ho').
  { apply blen_new_bytes. lia. }
  rewrite (obj_bind_val _ _ _ _ _ E). exists o'. split; [|exact Ho'].
  rewrite u32_small by nia. unfold rectangle. replace (w * h * ncomp * cell_size bits) with (cell_size bits * (w * h * ncomp)) by ring.
  reflexivity.
Qed.

(** The tile [n] of a level: its column and row, its position and its size. *)
Definition tile_x (k n : Z) : Z := n mod ntiles (level_w k) TILESIZE * TILESIZE.
Definition tile_y (k n : Z) : Z := n / ntiles (level_w k) TILESIZE * TILESIZE.
Definition tile_w (k n : Z) : Z := Z.min TILESIZE (level_w k - tile_x k n).
Definition tile_h (k n : Z) : Z := Z.min TILESIZE (level_h k - tile_y k n).
Definition tile_count (k : Z) : Z := ntiles (level_w k) TILESIZE * ntiles (level_h k) TILESIZE.

Lemma level_range k : 0 <= k < N -> 0 < level_w k <= W /\ 0 < level_h k <= H.
Proof.
  intros Hk. destruct (js_some Hs) as [Pw Ph]. pose proof (js_w Hs). pose proof (js_h Hs). unfold level_w, level_h.
  pose proof (Z.pow_pos_nonneg 2 k ltac:(lia) ltac:(lia)).
  assert (2 ^ k <= 2 ^ (N - 1)) by (apply Z.pow_le_mono_r; lia).
  pose proof (Z.div_le_compat_l W (2 ^ k) (2 ^ (N - 1)) ltac:(lia) ltac:(lia)).
  pose proof (Z.div_le_compat_l H (2 ^ k) (2 ^ (N - 1)) ltac:(lia) ltac:(lia)).
  pose proof (Z.div_le_upper_bound W (2 ^ k) W ltac:(lia) ltac:(nia)).
  pose proof (Z.div_le_upper_bound H (2 ^ k) H ltac:(lia) ltac:(nia)). lia.
Qed.

Lemma tiles_range k : 0 <= k < N ->
  0 < ntiles (level_w k) TILESIZE /\ 0 < ntiles (level_h k) TILESIZE /\ tile_count k < 2 ^ 31.
Proof.
  intros Hk. destruct (level_range k Hk) as [Lw Lh]. unfold tile_count, TILESIZE in *.
  pose proof (ntiles_pos (level_w k) 256 ltac:(lia) ltac:(lia)). pose proof (ntiles_pos (level_h k) 256 ltac:(lia) ltac:(lia)).
  assert (M : forall a b, 0 <= a <= b -> ntiles a 256 <= ntiles b 256).
  { intros a b Hab. rewrite !ntiles_ceil by lia. apply Z.div_le_mono; lia. }
  pose proof (M (level_w k) W ltac:(lia)). pose proof (M (level_h k) H ltac:(lia)). pose proof (js_tiles Hs). unfold TILESIZE in *. nia.
Qed.

Lemma tile_inside r n : 0 <= r < N -> 0 <= n < tile_count (N - 1 - r) ->
  inside r (tile_x (N - 1 - r) n) (tile_y (N - 1 - r) n) (tile_w (N - 1 - r) n) (tile_h (N - 1 - r) n)
  /\ tile_w (N - 1 - r) n <= TILESIZE /\ tile_h (N - 1 - r) n <= TILESIZE.
Proof.
  intros Hr Hn. set (k := N - 1 - r) in *. assert (Hk : 0 <= k < N) by lia.
  destruct (tiles_range k Hk) as (Pw & Ph & Pc). destruct (level_range k Hk) as [Lw Lh]. unfold tile_count in Hn.
  assert (Hcol : 0 <= n mod ntiles (level_w k) TILESIZE < ntiles (level_w k) TILESIZE) by (apply Z.mod_pos_bound; lia).
  assert (Hrow : 0 <= n / ntiles (level_w k) TILESIZE < ntiles (level_h k) TILESIZE)
    by (split; [apply Z.div_pos; lia|apply Z.div_lt_upper_bound; lia]).
  assert (Bw : tile_x k n < level_w k).
  { unfold tile_x, TILESIZE in *. destruct (ntiles_bounds (level_w k) 256); [lia|lia| |lia]. nia. }
  assert (Bh : tile_y k n < level_h k).
  { unfold tile_y, TILESIZE in *. destruct (ntiles_bounds (level_h k) 256); [lia|lia| |lia]. nia. }
  assert (0 <= tile_x k n /\ 0 <= tile_y k n) by (unfold tile_x, tile_y, TILESIZE in *; lia).
  pose proof (js_comps Hs). unfold inside. fold k. unfold tile_w, tile_h. set (w := Z.min TILESIZE (level_w k - tile_x k n)) in *.
  set (h := Z.min TILESIZE (level_h k - tile_y k n)) in *.
  assert (0 < w <= 256 /\ 0 < h <= 256) by (unfold w, h, TILESIZE; lia).
  assert (w <= level_w k - tile_x k n /\ h <= level_h k - tile_y k n) by lia.
  assert (w * h <= 65536) by nia. unfold TILESIZE. split_and!; lia || nia.
Qed.

Lemma tile_place_ok k n : 0 <= k < N -> 0 <= n ->
  tile_place n (level_w k) (level_h k) TILESIZE TILESIZE
  = Ok (if tile_count k <=? n then None else Some (tile_w k n, tile_h k n, tile_x k n, tile_y k n)).
Proof.
  intros Hk Hn. destruct (tiles_range k Hk) as (Pw & Ph & Pc). destruct (level_range k Hk) as [Lw Lh].
  pose proof (js_w Hs). pose proof (js_h Hs).
  destruct (factors_small _ _ _ Pw Ph Pc) as [Bw Bh]. unfold tile_place, tile_count in *.
  rewrite (umod_ok (level_w k)), (umod_ok (level_h k)), !bind_ret by (unfold TILESIZE; lia). cbv zeta.
  rewrite (u32_small (ntiles (level_w k) TILESIZE)), (u32_small (ntiles (level_h k) TILESIZE)), (u32_small (_ * _)) by lia.
  destruct (Z.leb_spec (ntiles (level_w k) TILESIZE * ntiles (level_h k) TILESIZE) n) as [Hc|Hc]; [reflexivity|].
  rewrite umod_ok, udiv_ok, !bind_ret by lia.
  assert (Hcol : 0 <= n mod ntiles (level_w k) TILESIZE < ntiles (level_w k) TILESIZE) by (apply Z.mod_pos_bound; lia).
  assert (Hrow : 0 <= n / ntiles (level_w k) TILESIZE < ntiles (level_h k) TILESIZE)
    by (split; [apply Z.div_pos; lia|apply Z.div_lt_upper_bound; lia]).
  rewrite !(u32_small (_ - 1)) by lia. rewrite !rest_of_level by (unfold TILESIZE in *; lia).
  assert (Bx : 0 <= tile_x k n < 2 ^ 24).
  { unfold tile_x, TILESIZE in *. destruct (ntiles_bounds (level_w k) 256); [lia|lia| |lia]. nia. }
  assert (By : 0 <= tile_y k n < 2 ^ 24).
  { unfold tile_y, TILESIZE in *. destruct (ntiles_bounds (level_h k) 256); [lia|lia| |lia]. nia. }
  unfold tile_x, tile_y in Bx, By. rewrite !u32_small, !i32_small by lia. reflexivity.
Qed.

Lemma getTile_ok i o seq ang r layers n :
  describes i -> opj_inv i o -> is_i32 layers -> encoded r -> 0 <= r < N -> 0 <= n ->
  let k := N - 1 - r in
  exists o', getTile fs junk seq ang r layers n o
      = ((if tile_count k <=? n then throw (ExnFile ("OpenJPEG :: Asked for non-existent tile: " +:+ dec n))
          else Ok (rectangle n r seq ang layers (tile_x k n) (tile_y k n) (tile_w k n) (tile_h k n) i)), o')
    /\ opj_inv i o'.
Proof.
  intros Hd Ho Hl He Hr Hn k. pose proof levels_few.
  assert (Eb : exists m, base o = i <| metadata := m |>) by (destruct Ho; eexists; reflexivity). destruct Eb as [m Eb].
  unfold getTile. rewrite obj_get_bind, Eb. set (j := i <| metadata := m |>).
  change (numResolutions j) with (numResolutions i). change (image_widths j) with (image_widths i).
  change (image_heights j) with (image_heights i). change (tile_width j) with (tile_width i). change (tile_height j) with (tile_height i).
  rewrite (ds_res i Hd), (ds_tw i Hd), (ds_th i Hd), (proj2 (Z.ltb_ge _ _)) by lia.
  rewrite (u32_small (N - 1)), u32_small, i32_small by lia. fold k.
  rewrite (proj2 (rd_ok (image_widths i) k (level_w k))), obj_lift_bind by (split; [lia|apply (ds_widths i Hd); lia]).
  rewrite (proj2 (rd_ok (image_heights i) k (level_h k))), obj_lift_bind by (split; [lia|apply (ds_heights i Hd); lia]).
  rewrite tile_place_ok, obj_lift_bind by lia.
  destruct (Z.leb_spec (tile_count k) n) as [Hc|Hc].
  - exists o. split; [reflexivity|exact Ho].
  - destruct (tile_inside r n Hr) as [Hin _]; [fold k; lia|]. apply decode_into_ok; assumption.
Qed.
(** ** Opening *)

(** An image of which nothing is known but its path. *)
Record unopened (i : IIPImage) : Prop := {
  un_widths : image_widths i = [];
  un_heights : image_heights i = [];
  un_bpc : IIPImage.bpc i = 0;
  un_path : c_str (getFileName (currentX i) (currentY i) i) = path;
  un_stat : exists f, fs_stat fs path = Some (f, time)
}.

Lemma levels_unique M : 1 <= M -> fits W H (M - 1) -> (forall k, 0 <= k < M - 1 -> ~ fits W H k) -> M = N.
Proof.
  intros HM Hf1 Hl1. pose proof (js_n Hs). destruct (Z.lt_total M N) as [Hlt|[->|Hlt]]; [|reflexivity|].
  - destruct (js_least Hs (M - 1)); [lia|exact Hf1].
  - destruct (Hl1 (N - 1)); [lia|exact (js_enough Hs)].
Qed.

Lemma opj_openImage_ok i :
  unopened i ->
  exists o, openImage fs (of_image i) = (Ok tt, o) /\ describes (base o) /\ opj_inv (base o) o /\ imagePath (base o) = imagePath i.
Proof.
  intros Hu. destruct (jp_open Hf) as (c & s & im & s' & c' & E1 & E2 & E3 & Hh).
  unfold openImage, of_image. rewrite obj_get_bind. cbn [base]. set (j := i <| tile_width := _ |> <| tile_height := _ |> <| virtual_levels := 0 |>).
  assert (Ej : c_str (getFileName (currentX j) (currentY j) j) = path) by exact (un_path i Hu).
  unfold updateTimestamp. rewrite Ej. destruct (un_stat i Hu) as [f Hst]. rewrite Hst, obj_lift_bind.
  rewrite opj_base_bind, codec_bind, E1, obj_lift_bind, codec_bind. cbn [negb].
  rewrite E2, stream_bind, E3, obj_lift_bind, stream_bind, codec_bind, opj_image_bind.
  set (j1 := j <| IIPImage.timestamp := time |>). change (IIPImage.bpc j1) with (IIPImage.bpc i). rewrite (un_bpc i Hu).
  change (0 =? 0) with true. cbn [obj_when]. unfold loadImageInfo. rewrite the_codec_bind, the_image_bind, obj_get_bind. cbn [base].
  destruct (jp_comps Hf c' s' im Hh) as (first & rest & Ec & Ep & El). destruct (jp_area Hf c' s' im Hh) as (X0 & Y0 & X1 & Y1).
  rewrite (jp_info Hf c' s' im Hh). pose proof (js_encoded Hs) as HR. pose proof (js_n Hs). pose proof (js_w Hs). pose proof (js_h Hs).
  destruct (image_info_ok (mkInfo R Q) im j1 first rest Ec (un_widths i Hu) (un_heights i Hu) eq_refl eq_refl)
    as (M & cs & mn & mx & HM & Hfit & Hleast & Einfo); [cbn [numresolutions]; lia|].
  rewrite X0, Y0, X1, Y1, !Z.sub_0_r, !u32_small in * by lia.
  assert (M = N) as -> by (apply levels_unique; [lia|exact Hfit|exact Hleast]).
  rewrite Einfo, obj_lift_bind, Ep, El. eexists. split; [reflexivity|]. cbn [base].
  assert (Ech : (if bits =? 1 then 1 else ncomp) = ncomp).
  { destruct (Z.eqb_spec bits 1) as [E|E]; [symmetry; apply (js_bilevel Hs E)|reflexivity]. }
  split; [|split; [|reflexivity]].
  - constructor; try reflexivity.
    + intros k Hk. apply lookup_halves. cbn [numresolutions]. lia.
    + intros k Hk. apply lookup_halves. cbn [numresolutions]. lia.
    + exact Ech.
    + exact (un_path i Hu).
    + exists f. exact Hst.
  - set (l := loaded _ _ _ _ _ _ _ _ _ _).
    assert (El' : l <| metadata := metadata l |> = l) by (destruct l; reflexivity). rewrite <- El' at 2.
    apply inv_opened. exact Hh.
Qed.
(** ** A source for the tile manager *)

(** The byte [c] of a pixel: that of the cell of its component. *)
Definition file_byte (layers r x y c : Z) : Z :=
  nth (Z.to_nat (c mod cell_size bits))
    (le_encode (Z.to_nat (cell_size bits))
       (shown bits (sample (decoded_layers Q layers) (N - 1 - r) (c / cell_size bits) x y))) 0.

(** The bytes of a rectangle, one at a time. *)
Lemma lookup_rect l k x y w h dx dy c :
  0 < w -> 0 < h -> 0 <= dx < w -> 0 <= dy < h -> 0 <= c < ncomp * cell_size bits ->
  rect_bytes l k x y w h !! Z.to_nat ((dy * w + dx) * (ncomp * cell_size bits) + c)
  = Some (nth (Z.to_nat (c mod cell_size bits)) (le_encode (Z.to_nat (cell_size bits))
            (shown bits (sample l k (c / cell_size bits) (x + dx) (y + dy)))) 0).
Proof.
  intros Hw Hh Hx Hy Hc. pose proof (js_comps Hs) as Hn. unfold rect_bytes, cells.
  rewrite (lookup_encoded bits (js_bits Hs) ncomp w h (fun p c => shown bits (sample l k c (x + p mod w) (y + p / w)))) by (assumption || lia).
  rewrite (in_tile w dy dx), (of_tile w dy dx) by lia. reflexivity.
Qed.

Lemma jp2_level_sizes i r w h :
  describes i -> 0 <= r < N -> level_width i r = Ok w -> level_height i r = Ok h ->
  w = level_w (N - 1 - r) /\ h = level_h (N - 1 - r).
Proof.
  intros Hd Hr Hw Hh. unfold level_width, level_height in *. rewrite (ds_res i Hd) in *.
  replace (N - r - 1) with (N - 1 - r) in * by lia. apply rd_ok in Hw as [_ Hw]. apply rd_ok in Hh as [_ Hh].
  rewrite (ds_widths i Hd) in Hw by lia. rewrite (ds_heights i Hd) in Hh by lia. split; congruence.
Qed.

Lemma closed_inv i : opj_inv i (closed i).
Proof.
  assert (E : i <| metadata := metadata i |> = i) by (destruct i; reflexivity).
  rewrite <- E at 2. apply inv_closed.
Qed.

Lemma pixel_size i : describes i -> bits = 8 \/ bits = 16 -> pixel_bytes i = ncomp * cell_size bits.
Proof. intros Hd [E|E]; unfold pixel_bytes; rewrite (ds_ch i Hd), (ds_bpc i Hd), E; reflexivity. Qed.

Lemma rectangle_decoded seq ang i r layers w h n :
  describes i -> bits = 8 \/ bits = 16 -> 0 <= r < N -> level_width i r = Ok w -> level_height i r = Ok h ->
  0 <= n < ntiles w (tile_width i) * ntiles h (tile_height i) ->
  let k := N - 1 - r in
  decoded i seq ang (file_byte layers) r w h n
    (rectangle n r seq ang layers (tile_x k n) (tile_y k n) (tile_w k n) (tile_h k n) i).
Proof.
  intros Hd Hb Hr Hw Hh Hn k. destruct (jp2_level_sizes i r w h Hd Hr Hw Hh) as [-> ->]. fold k in Hn |- *.
  rewrite (ds_tw i Hd), (ds_th i Hd) in Hn. pose proof (js_comps Hs) as Hc. pose proof (cell_size_pos bits (js_bits Hs)) as Hz.
  destruct (tile_inside r n Hr Hn) as [(_ & Px & Py & Pw & Ph & _ & _ & Ps) [Tw Th]]. fold k in Px, Py, Pw, Ph, Ps, Tw, Th.
  unfold TILESIZE in Tw, Th.
  assert (Eout : output_bits bits = IIPImage.bpc i) by (rewrite (ds_bpc i Hd); destruct Hb as [-> | ->]; reflexivity).
  assert (Ew : Region.tile_w i (level_w k) n = tile_w k n)
    by (unfold Region.tile_w, tile_w, tile_col, tile_x; rewrite (ds_tw i Hd); reflexivity).
  assert (Eh : Region.tile_h i (level_w k) (level_h k) n = tile_h k n)
    by (unfold Region.tile_h, tile_h, tile_row, tile_y; rewrite (ds_tw i Hd), (ds_th i Hd); reflexivity).
  constructor; unfold rectangle; cbn; rewrite ?Ew, ?Eh.
  - constructor; reflexivity.
  - apply u32_small. lia.
  - apply u32_small. lia.
  - symmetry. apply (ds_ch i Hd).
  - exact Eout.
  - symmetry. apply (ds_time i Hd).
  - assert (Elen : cell_size bits * (tile_w k n * tile_h k n * ncomp)
        = blen (rect_bytes (decoded_layers Q layers) k (tile_x k n) (tile_y k n) (tile_w k n) (tile_h k n))).
    { unfold rect_bytes. rewrite length_encode by apply (js_bits Hs). unfold cells. rewrite length_fmap, length_range. nia. }
    exists (rect_bytes (decoded_layers Q layers) k (tile_x k n) (tile_y k n) (tile_w k n) (tile_h k n)).
    split; [reflexivity|]. split; [exact Elen|]. rewrite <- Elen, (pixel_size i Hd Hb). split; [ring|]. unfold holds. rewrite (pixel_size i Hd Hb). intros y x c Hy Hx Hcc.
    rewrite lookup_rect by assumption. unfold file_byte, tile_col, tile_row. rewrite (ds_tw i Hd), (ds_th i Hd). fold k. reflexivity.
Qed.

Lemma jp2_source seq ang layers i :
  N <= R -> describes i -> bits = 8 \/ bits = 16 -> nameable (imagePath i) -> is_i32 seq -> is_i32 ang -> is_i32 layers ->
  source_ok (codec := OPJ_codec fs junk) i seq ang layers (file_byte layers).
Proof.
  intros HNR Hd Hb Hn Hseq Hang Hl. pose proof (js_comps Hs). pose proof levels_few. pose proof (js_n Hs).
  constructor; rewrite ?(ds_tw i Hd), ?(ds_th i Hd), ?(ds_ch i Hd), ?(ds_bpc i Hd), ?(ds_res i Hd).
  - split; reflexivity.
  - split; reflexivity.
  - lia.
  - tauto.
  - lia.
  - exact Hn.
  - exact Hseq.
  - exact Hang.
  - rewrite (pixel_size i Hd Hb). pose proof (cell_size_pos bits (js_bits Hs)). unfold TILESIZE. nia.
  - intros r w h Hr Hw Hh. destruct (jp2_level_sizes i r w h Hd Hr Hw Hh) as [-> ->].
    destruct (level_range (N - 1 - r)) as [Lw Lh]; [lia|]. destruct (tiles_range (N - 1 - r)) as (_ & _ & Lc); [lia|].
    pose proof (js_w Hs). pose proof (js_h Hs). unfold tile_count in Lc. lia.
  - intros r w h n Hr Hw Hh Ht. pose proof Ht as Ht'. eexists. split.
    + cbn [codec_getTile OPJ_codec]. destruct (jp2_level_sizes i r w h Hd Hr Hw Hh) as [-> ->].
      destruct (getTile_ok i (closed i) seq ang r layers n Hd (closed_inv i) Hl ltac:(unfold encoded; lia) Hr ltac:(lia)) as (o' & -> & _). cbn [fst].
      unfold tile_count. rewrite (proj2 (Z.leb_gt _ _)) by lia. reflexivity.
    + apply rectangle_decoded; rewrite ?(ds_tw i Hd), ?(ds_th i Hd); assumption.
Qed.
End File.

(** ** Properties *)

(** Requests to one object. *)
Inductive jp2_request := TileOf (r n : Z) | AreaOf (r x y w h : Z).

Fixpoint run_jp2 {lib : OpenJPEG} (fs : FileSystem) (junk : Z -> Z) (seq ang layers : Z) (qs : list jp2_request)
    (o : OpenJPEGImage) : list (res RawTile) :=
  match qs with
  | [] => []
  | q :: qs =>
      let '(t, o) := match q with
                     | TileOf r n => getTile fs junk seq ang r layers n o
                     | AreaOf r x y w h => getRegion fs junk seq ang r layers x y w h o
                     end in
      t :: run_jp2 fs junk seq ang layers qs o
  end.

(** Resolutions that exist, and rectangles inside their level. *)
Definition valid_jp2 (W H ncomp N : Z) (q : jp2_request) : Prop :=
  match q with
  | TileOf r n => 0 <= r < N /\ 0 <= n
  | AreaOf r x y w h => inside W H ncomp N r x y w h
  end.

(** Resolutions that are in the file. *)
Definition in_file (R N : Z) (q : jp2_request) : Prop :=
  match q with TileOf r _ | AreaOf r _ _ _ _ => encoded R N r end.

(** What they are answered with: the samples of the file, or an exception for a tile
    that does not exist. *)
Definition jp2_answer (time W H Q ncomp bits : Z) (sample : Z -> Z -> Z -> Z -> Z -> Z) (N seq ang layers : Z) (i : IIPImage)
    (q : jp2_request) : res RawTile :=
  match q with
  | TileOf r n =>
      let k := N - 1 - r in
      if tile_count W H k <=? n then throw (ExnFile ("OpenJPEG :: Asked for non-existent tile: " +:+ dec n))
      else Ok (rectangle time Q ncomp bits sample N n r seq ang layers (tile_x W k n) (tile_y W k n) (tile_w W k n) (tile_h W H k n) i)
  | AreaOf r x y w h => Ok (rectangle time Q ncomp bits sample N 0 r seq ang layers x y w h i)
  end.

(** C10. Tiles and regions of a JPEG 2000 file, of up to 16 bits and any number of
    components: for every sequence of requests to one object, at resolutions whose
    level is encoded in the file, the object opens the file, decodes and closes it again
    each time, and the answers are the samples of the file at that resolution and with
    that many layers, in the order of lines, columns and components; a tile that does
    not exist is refused; and the answers are those of the codec that makes an object
    for each request.  The file may have fewer levels than the server wants: what it
    answers for the others, which it computes itself, is wrong or an error
    ([virtual_levels_refused], [virtual_pixels]), and such requests are excluded. *)
Theorem jp2_requests_exact {lib : OpenJPEG} (fs : FileSystem) (junk : Z -> Z) (path : string)
    (time W H R Q ncomp bits : Z) (icc : string) (sample : Z -> Z -> Z -> Z -> Z -> Z)
    (header : CODEC -> STREAM -> opj_image -> Prop) (configured : Z -> Z -> CODEC -> STREAM -> opj_image -> Prop)
    (framed : Z -> Z -> Z -> Z -> Z -> Z -> CODEC -> STREAM -> opj_image -> Prop) (N seq ang layers : Z) (i : IIPImage)
    (qs : list jp2_request) :
  jp2_file path W H R Q ncomp bits icc sample header configured framed ->
  jp2_sizes W H R Q ncomp bits N -> unopened fs path time i -> is_i32 layers ->
  Forall (fun q => valid_jp2 W H ncomp N q /\ in_file R N q) qs ->
  exists o, openImage fs (of_image i) = (Ok tt, o)
    /\ run_jp2 fs junk seq ang layers qs o = jp2_answer time W H Q ncomp bits sample N seq ang layers (base o) <$> qs
    /\ run_jp2 fs junk seq ang layers qs o
       = (fun q => match q with
                   | TileOf r n => codec_getTile (Codec := OPJ_codec fs junk) (base o) seq ang r layers n
                   | AreaOf r x y w h => codec_getRegion (Codec := OPJ_codec fs junk) (base o) seq ang r layers x y w h
                   end) <$> qs.
Proof.
  intros Hf Hs Hu Hl Hq.
  destruct (opj_openImage_ok fs path time W H R Q ncomp bits icc sample header configured framed N Hf Hs i Hu) as (o & E & Hd & Ho & _).
  exists o. split; [exact E|]. clear E. remember (base o) as j eqn:Ej. clear Ej.
  assert (G : forall q o, valid_jp2 W H ncomp N q /\ in_file R N q -> opj_inv header j o -> exists o',
    match q with TileOf r n => getTile fs junk seq ang r layers n o | AreaOf r x y w h => getRegion fs junk seq ang r layers x y w h o end
    = (jp2_answer time W H Q ncomp bits sample N seq ang layers j q, o') /\ opj_inv header j o').
  { clear o Ho. intros [r n|r x y w h] o [Hv He] Ho; cbn [valid_jp2 in_file jp2_answer] in *.
    - destruct Hv as [Hr Hn]. eapply getTile_ok; eassumption.
    - eapply decode_into_ok; eassumption. }
  revert o Ho. induction Hq as [|q qs Hv Hq IH]; intros o Ho; [split; reflexivity|]. cbn [run_jp2 fmap list_fmap].
  destruct (G q o Hv Ho) as (o' & -> & Ho'). destruct (IH o' Ho') as [I1 I2].
  destruct (G q (closed j) Hv (closed_inv _ j)) as (o2 & E2 & _). split; [rewrite I1; reflexivity|].
  rewrite I2. f_equal. destruct q; cbn [codec_getTile codec_getRegion OPJ_codec]; rewrite E2; reflexivity.
Qed.

(** C11. From a JPEG 2000 file of 8 or 16 bits that has every level the server wants
    (those down to the first one that fits into a tile) through the tile manager: once
    the image is opened, whatever tiles the cache got, every tile that exists is answered
    with one that shows the file, byte for byte, and leaves the cache coherent; every
    rectangle, which the class decodes itself, is exact; the cache starts coherent when
    empty.  Files with fewer levels are excluded: there the levels in between are
    refused ([virtual_levels_refused]). *)
Theorem jp2_manager_exact {lib : OpenJPEG} {compressor : Compressor} (fs : FileSystem) (capacity : string -> Z) (tileSize : Z)
    (junk rand : Z -> Z) (path : string) (time W H R Q ncomp bits : Z) (icc : string) (sample : Z -> Z -> Z -> Z -> Z -> Z)
    (header : CODEC -> STREAM -> opj_image -> Prop) (configured : Z -> Z -> CODEC -> STREAM -> opj_image -> Prop)
    (framed : Z -> Z -> Z -> Z -> Z -> Z -> CODEC -> STREAM -> opj_image -> Prop) (N seq ang layers m n : Z) (i : IIPImage) :
  jp2_file path W H R Q ncomp bits icc sample header configured framed ->
  jp2_sizes W H R Q ncomp bits N -> N <= R -> unopened fs path time i -> bits = 8 \/ bits = 16 ->
  nameable (imagePath i) -> is_i32 seq -> is_i32 ang -> is_i32 layers -> small_strings capacity tileSize -> 0 <= m < 2 ^ 63 ->
  exists image, codec_openImage (Codec := OPJ_codec fs junk) i = Ok image /\ numResolutions image = N
    /\ let img := file_byte Q bits sample N layers in
       let coherent := tm_inv capacity tileSize image seq ang img in
       coherent (mkTMState (empty_cache m) n)
       /\ (forall s r t, coherent s -> 0 <= r < N -> 0 <= t < tile_count W H (N - 1 - r) ->
             exists tile s', TileManager.getTile (codec := OPJ_codec fs junk) capacity tileSize junk rand image None
                               r t seq ang layers UNCOMPRESSED s = Ok (tile, s')
               /\ shows image seq ang img r (level_w W (N - 1 - r)) (level_h H (N - 1 - r)) t tile /\ coherent s')
       /\ (forall s r x y w h, inside W H ncomp N r x y w h ->
             exists tile, TileManager.getRegion (codec := OPJ_codec fs junk) capacity tileSize junk rand image None
                            r seq ang layers x y w h s = Ok (tile, s)
               /\ exact_region image img (mkRequest r x y w h) tile).
Proof.
  intros Hf Hs HNR Hu Hb Hn Hseq Hang Hl Hcap Hm.
  destruct (opj_openImage_ok fs path time W H R Q ncomp bits icc sample header configured framed N Hf Hs i Hu) as (o & E & Hd & Ho & Hp).
  exists (base o). split; [cbn [codec_openImage OPJ_codec]; unfold obj_run; rewrite E; reflexivity|].
  split; [apply (ds_res _ _ _ _ _ _ _ _ _ _ _ Hd)|]. cbv zeta.
  assert (Hsrc : source_ok (codec := OPJ_codec fs junk) (base o) seq ang layers (file_byte Q bits sample N layers)).
  { eapply jp2_source; try eassumption. rewrite Hp. exact Hn. }
  split; [apply tm_inv_empty, Hm|]. split.
  - intros s r t Hst Hr Ht. apply getTile_shows; try assumption.
    + rewrite (ds_res _ _ _ _ _ _ _ _ _ _ _ Hd). exact Hr.
    + unfold level_width. apply rd_ok. rewrite (ds_res _ _ _ _ _ _ _ _ _ _ _ Hd). replace (N - r - 1) with (N - 1 - r) by lia.
      split; [lia|]. apply (ds_widths _ _ _ _ _ _ _ _ _ _ _ Hd). lia.
    + unfold level_height. apply rd_ok. rewrite (ds_res _ _ _ _ _ _ _ _ _ _ _ Hd). replace (N - r - 1) with (N - 1 - r) by lia.
      split; [lia|]. apply (ds_heights _ _ _ _ _ _ _ _ _ _ _ Hd). lia.
    + rewrite (ds_tw _ _ _ _ _ _ _ _ _ _ _ Hd), (ds_th _ _ _ _ _ _ _ _ _ _ _ Hd). exact Ht.
  - intros s r x y w h Hin. pose proof Hin as (Hr & Hx & Hy & Hw & Hh & Hxw & Hyh & Hsz).
    assert (Hxy : is_i32 x /\ is_i32 y /\ is_u32 w /\ is_u32 h).
    { destruct (level_range W H R Q ncomp bits N Hs (N - 1 - r)) as [Lw Lh]; [lia|]. pose proof (js_w _ _ _ _ _ _ _ Hs).
      pose proof (js_h _ _ _ _ _ _ _ Hs). unfold is_i32, is_u32. lia. }
    unfold TileManager.getRegion. cbn [codec_regionDecoding codec_getRegion OPJ_codec]. unfold getRegion.
    rewrite !i32_small by (unfold is_i32 in Hxy; lia).
    destruct (decode_into_ok fs junk path time W H R Q ncomp bits icc sample header configured framed N Hf Hs (base o)
                (closed (base o)) 0 r seq ang layers x y w h Hd (closed_inv _ _) Hl ltac:(unfold encoded; lia) Hin) as (o' & -> & _).
    cbn [fst]. rewrite bind_ret. eexists. split; [reflexivity|].
    unfold exact_region. cbn [q_w q_h q_x q_y q_res]. rewrite (pixel_size fs path time W H R Q ncomp bits N (base o) Hd Hb).
    assert (Elen : cell_size bits * (w * h * ncomp) = w * h * (ncomp * cell_size bits)) by ring.
    split; [apply u32_small; unfold is_u32 in Hxy; lia|]. split; [apply u32_small; unfold is_u32 in Hxy; lia|].
    split; [exact Elen|]. exists (rect_bytes ncomp bits sample (decoded_layers Q layers) (N - 1 - r) x y w h).
    split; [reflexivity|]. split.
    + unfold rect_bytes. rewrite length_encode by apply (js_bits _ _ _ _ _ _ _ Hs). unfold cells. rewrite length_fmap, length_range.
      pose proof (js_comps _ _ _ _ _ _ _ Hs). nia.
    + intros dx dy c Hdx Hdy Hc. eapply lookup_rect; try eassumption; lia.
Qed.

(** The levels of any JPEG 2000 file: the halving stops at the first level that
    fits into a tile, after at most 33 steps for every size a 32-bit number can give;
    the sizes are the halves of the full size, rounded down, through the levels that
    are encoded and those that are not. *)
Theorem jp2_levels_halve (info : opj_codestream_info) (im : opj_image) (first : opj_comp) (rest : list opj_comp) (i : IIPImage) :
  comps im = first :: rest -> image_widths i = [] -> image_heights i = [] ->
  tile_width i = TILESIZE -> tile_height i = TILESIZE -> 0 < numresolutions info < 2 ^ 31 ->
  let w := u32 (x1 im - x0 im) in
  let h := u32 (y1 im - y0 im) in
  exists i', image_info info im i = Ok i'
    /\ let N := numResolutions i' in
       1 <= N <= 33 /\ fits w h (N - 1) /\ (forall k, 0 <= k < N - 1 -> ~ fits w h k)
       /\ image_widths i' = halves w 0 (Z.max (numresolutions info) N)
       /\ image_heights i' = halves h 0 (Z.max (numresolutions info) N)
       /\ IIPImage.bpc i' = prec first /\ quality_layers i' = numlayers info.
Proof.
  intros Ec Hw Hh Htw Hth HR w h.
  destruct (image_info_ok info im i first rest Ec Hw Hh Htw Hth HR) as (N & cs & mn & mx & HN & Hf & Hl & E).
  eexists. split; [exact E|]. cbv zeta. change (numResolutions (loaded _ _ _ _ _ _ _ _ _ _)) with N. auto 10.
Qed.

(** ** A small library

    Files of one 8-bit component and two layers: the codec is the layers, the reduction
    and the area that were set.  A reduction there is no resolution for is refused. *)

Definition small_sample (l k c x y : Z) : Z := 100 * k + 10 * y + x.

Definition small_data (l k X0 Y0 X1 Y1 : Z) : list Z :=
  let cx := ceil_pow X0 k in
  let cy := ceil_pow Y0 k in
  let w := ceil_pow X1 k - cx in
  (fun j => small_sample l k 0 (cx + j mod w) (cy + j / w)) <$> range 0 (w * (ceil_pow Y1 k - cy)).

Definition small_header (W H : Z) : opj_image := mkImage 0 0 W H [mkComp 8 0 []] "".

Definition small_opj (W H R : Z) : OpenJPEG := {|
  CODEC := Z * Z * (Z * Z * Z * Z); STREAM := unit;
  opj_create_decompress := (0, 0, (0, 0, 0, 0));
  opj_default_parameters := mkParameters 0 0 0;
  opj_setup_decoder := fun p c => Ok (cp_reduce p <? R, (cp_layer p, cp_reduce p, c.2));
  opj_stream_create := fun f => if bool_decide (f = "small.jp2") then Some tt else None;
  opj_read_header := fun s c => Ok (Some (small_header W H), s, c);
  opj_get_cstr_info := fun _ => mkInfo R 2;
  opj_set_decode_area := fun c im a b a' b' => Ok (true, (c.1, (a, b, a', b')), im);
  opj_decode := fun c s im =>
    let '(l, k, (a, b, a', b')) := c in
    Ok (true, c, s, mkImage a b a' b' [mkComp 8 k (small_data l k a b a' b')] "profile");
  opj_end_decompress := fun _ _ => Ok true
|}.

Definition small_files : FileSystem := {|
  fs_stat := fun f => if bool_decide (f = "small.jp2") then Some (true, 7) else None;
  fs_head := fun _ => None; fs_glob := fun _ => None
|}.

Definition small_image : IIPImage := (new_IIPImage "small.jp2") <| isFile := true |>.

(** Two levels of 300 x 6 and 150 x 3 pixels, both encoded. *)
#[local] Instance small_lib : OpenJPEG := small_opj 300 6 2.

Definition small_configured (l k : Z) (c : Z * Z * (Z * Z * Z * Z)) (s : unit) (im : opj_image) : Prop := c.1 = (l, k).
Definition small_framed (l k X0 Y0 X1 Y1 : Z) (c : Z * Z * (Z * Z * Z * Z)) (s : unit) (im : opj_image) : Prop :=
  c = (l, k, (X0, Y0, X1, Y1)).

Lemma any_small_file W H R : 0 < R ->
  jp2_file (lib := small_opj W H R) "small.jp2" W H R 2 1 8 "profile" small_sample (fun _ _ im => im = small_header W H)
    small_configured small_framed.
Proof.
  intros HR. constructor.
  - exists (0, 0, (0, 0, 0, 0)), tt, (small_header W H), tt, (0, 0, (0, 0, 0, 0)). cbn. rewrite (proj2 (Z.ltb_lt 0 R)) by exact HR. auto.
  - reflexivity.
  - intros c s im ->. auto.
  - intros c s im ->. eexists _, _. auto.
  - intros c s im k l f _ Hk _. exists (l, k, c.2). split; [|reflexivity]. cbn. rewrite (proj2 (Z.ltb_lt k R)) by lia. reflexivity.
  - intros c s im k l X0 Y0 X1 Y1 Hc _ _ _ _. eexists _, _. split; [reflexivity|]. unfold small_framed. f_equal. exact Hc.
  - intros c s im k l X0 Y0 X1 Y1 ->. eexists _, _, _, true. split; [reflexivity|]. split; [|reflexivity].
    split; [reflexivity|]. split; [reflexivity|]. cbv zeta. intros c x y Hc Hx Hy. assert (c = 0) as -> by lia.
    eexists. split; [reflexivity|]. cbn [data]. unfold small_data. set (w := ceil_pow X1 k - ceil_pow X0 k) in *.
    rewrite list_lookup_fmap, <- (Z.sub_0_r (y * w + x)), lookup_range_at.
    + cbn. rewrite in_tile, of_tile by lia. reflexivity.
    + pose proof (row_major_bound w (ceil_pow Y1 k - ceil_pow Y0 k) x y Hx Hy). lia.
Qed.

Lemma small_file :
  jp2_file "small.jp2" 300 6 2 2 1 8 "profile" small_sample (fun _ _ im => im = small_header 300 6) small_configured small_framed.
Proof. apply any_small_file. lia. Qed.

Lemma small_jp2_sizes : jp2_sizes 300 6 2 2 1 8 2.
Proof.
  constructor; try lia; try reflexivity.
  - split; vm_compute; congruence.
  - intros k Hk. assert (k = 0) as -> by lia. intros [Hf _]. vm_compute in Hf. apply Hf. reflexivity.
  - split; reflexivity.
Qed.

(** 1200 x 8 pixels and two levels of four. *)
Lemma sparse_jp2_sizes : jp2_sizes 1200 8 2 2 1 8 4.
Proof.
  constructor; try lia; try reflexivity.
  - split; vm_compute; congruence.
  - intros k Hk. assert (k = 0 \/ k = 1 \/ k = 2) as [-> |[-> | ->]] by lia; intros [Hf _]; vm_compute in Hf; apply Hf; reflexivity.
  - split; reflexivity.
Qed.

Lemma small_jp2_unopened : unopened small_files "small.jp2" 7 small_image.
Proof. constructor; try reflexivity. eexists. reflexivity. Qed.

Definition small_opened : OpenJPEGImage := (openImage small_files (of_image small_image)).2.

(** A rectangle of the largest level, a tile of it that does not exist, and one of the
    smallest level. *)
Definition small_requests : list jp2_request := [AreaOf 1 298 1 2 2; TileOf 1 2; AreaOf 0 148 2 2 1].

Definition contents (l : list (res RawTile)) : list (option bytes) :=
  (fun t => match t with Ok t => RawTile.data t | Err _ => None end) <$> l.

Lemma jp2_requests_exact_witness :
  (exists o, openImage small_files (of_image small_image) = (Ok tt, o)
    /\ contents (run_jp2 small_files (fun _ => 9) 0 90 0 small_requests o)
       = [Some [52; 53; 62; 63]; None; Some [12; 13]])
  /\ exists o, openImage (lib := small_opj 1200 8 2) small_files (of_image small_image) = (Ok tt, o)
      /\ contents (run_jp2 (lib := small_opj 1200 8 2) small_files (fun _ => 9) 0 90 0 [AreaOf 2 10 1 2 1; AreaOf 3 1 2 1 2] o)
         = [Some [120; 121]; Some [21; 31]].
Proof.
  split.
  - destruct (jp2_requests_exact (lib := small_lib) small_files (fun _ => 9) "small.jp2" 7 300 6 2 2 1 8 "profile" small_sample
                _ small_configured small_framed 2 0 90 0 small_image small_requests small_file small_jp2_sizes small_jp2_unopened)
      as (o & E & Er & _); [split; vm_compute; congruence| |].
    + unfold small_requests. forall_elements ltac:(vm_compute; repeat split; congruence).
    + exists o. split; [exact E|]. rewrite Er. vm_compute. reflexivity.
  - destruct (jp2_requests_exact (lib := small_opj 1200 8 2) small_files (fun _ => 9) "small.jp2" 7 1200 8 2 2 1 8 "profile" small_sample
                _ small_configured small_framed 4 0 90 0 small_image [AreaOf 2 10 1 2 1; AreaOf 3 1 2 1 2]
                (any_small_file 1200 8 2 ltac:(lia)) sparse_jp2_sizes small_jp2_unopened)
      as (o & E & Er & _); [split; vm_compute; congruence| |].
    + forall_elements ltac:(vm_compute; repeat split; congruence).
    + exists o. split; [exact E|]. rewrite Er. vm_compute. reflexivity.
Defined.

(** Two pixels of the last tile of the largest level, through the tile manager. *)
Lemma jp2_manager_exact_witness :
  exists image tile, codec_openImage (Codec := OPJ_codec small_files (fun _ => 9)) small_image = Ok image
    /\ TileManager.getRegion (codec := OPJ_codec small_files (fun _ => 9)) (fun _ => 15) 100 (fun _ => 9) (fun _ => 0) image None
         1 0 90 0 298 5 2 1 (mkTMState (empty_cache 400) 0) = Ok (tile, mkTMState (empty_cache 400) 0)
    /\ RawTile.data tile = Some [92; 93].
Proof.
  destruct (jp2_manager_exact (lib := small_lib) small_files (fun _ => 15) 100 (fun _ => 9) (fun _ => 0) "small.jp2" 7 300 6 2 2 1 8
              "profile" small_sample _ small_configured small_framed 2 0 90 0 400 0 small_image small_file small_jp2_sizes ltac:(lia) small_jp2_unopened)
    as (image & E & _ & _ & _ & H); [auto|split; [reflexivity|vm_compute; congruence]|split; vm_compute; congruence..|exact demo_small|lia|].
  destruct (H (mkTMState (empty_cache 400) 0) 1 298 5 2 1) as (tile & Et & _); [vm_compute; repeat split; congruence|].
  exists image, tile. split; [exact E|]. split; [exact Et|]. vm_compute in E. injection E as <-. vm_compute in Et. injection Et as <-.
  reflexivity.
Defined.

(** 1200 x 8 pixels, two resolutions in the file: four levels. *)
Lemma jp2_levels_halve_witness :
  exists i', image_info (mkInfo 2 1) (small_header 1200 8) (base (of_image small_image)) = Ok i'
    /\ image_widths i' = [1200; 600; 300; 150] /\ image_heights i' = [8; 4; 2; 1] /\ numResolutions i' = 4.
Proof.
  destruct (jp2_levels_halve (mkInfo 2 1) (small_header 1200 8) (mkComp 8 0 []) [] (base (of_image small_image))
              eq_refl eq_refl eq_refl eq_refl eq_refl) as (i' & E & _); [split; reflexivity|].
  exists i'. vm_compute in E. injection E as <-. split; [vm_compute; reflexivity|]. repeat split.
Defined.

(** ** Where the class goes wrong *)

(** The levels that are not encoded: 1200 x 8 pixels and one resolution.  The
    smallest one that is encoded has the reduction 0; all others ask for a reduction of
    1, since [virtual_levels] is one too small, and are refused. *)
Definition one_resolution : @OpenJPEGImage (small_opj 1200 8 1) :=
  (openImage (lib := small_opj 1200 8 1) small_files (of_image small_image)).2.

Lemma virtual_levels_refused :
  virtual_levels (base one_resolution) = 2
  /\ (fun r => (place (base one_resolution) r 0 0 1 1).2) <$> [0; 1; 2; 3] = [1; 1; 1; 0]
  /\ (fun r => is_ok (getRegion (lib := small_opj 1200 8 1) small_files (fun _ => 9) 0 90 r 0 0 0 1 1 one_resolution).1) <$> [0; 1; 2; 3]
     = [false; false; false; true].
Proof. vm_compute. split_and!; reflexivity. Qed.

(** The step for a level three below the last one that is encoded is 6, not 8. *)
Lemma virtual_step : (place ((base one_resolution) <| virtual_levels := 3 |>) 0 0 0 1 1).1.1.1.1.1 = 6.
Proof. vm_compute. reflexivity. Qed.

(** The loop takes every second pixel by its counters, but reads one after the other. *)
Lemma virtual_pixels : put_pixels 8 1 2 4 2 (mkImage 0 0 4 2 [mkComp 8 0 [1; 2; 3; 4; 5; 6; 7; 8]] "") [0; 0] = Ok [1; 2].
Proof. vm_compute. reflexivity. Qed.

(** An image that comes from the cache of images has no virtual levels any more. *)
Lemma reopened_forgets :
  virtual_levels (base (openImage (lib := small_opj 1200 8 1) small_files (of_image (base one_resolution))).2) = 0
  /\ numResolutions (base one_resolution) = 4.
Proof. vm_compute. split; reflexivity. Qed.

(** Samples of 12 bits: two maxima for one channel. *)
Lemma two_maxima :
  (fun r => match r with Ok i => IIPImage.max i | Err _ => [] end)
    (image_info (mkInfo 1 1) (mkImage 0 0 8 8 [mkComp 12 0 []] "") (base (of_image small_image)))
  = [of_Z b32 4096; of_Z b32 255].
Proof. vm_compute. reflexivity. Qed.

(** Loading again adds the sizes to those of the first time. *)
Lemma reload_adds :
  image_widths (base (loadImageInfo 0 90 small_opened).2) = [300; 150; 300; 150].
Proof. vm_compute. reflexivity. Qed.

(** The resolution after the last one is not refused. *)
Lemma resolution_after_last : (getTile small_files (fun _ => 9) 0 90 2 0 0 small_opened).1 = Err (Undefined "read before buffer").
Proof. vm_compute. reflexivity. Qed.

(** A long image of one line: the level that fits into a tile has no pixels, and no
    tile. *)
Lemma empty_level :
  (fun r => match r with Ok i => image_heights i | Err _ => [] end)
    (image_info (mkInfo 2 1) (small_header 300 1) (base (of_image small_image))) = [1; 0]
  /\ tile_place 0 150 0 TILESIZE TILESIZE = Ok None.
Proof. vm_compute. split; reflexivity. Qed.

(** The angles of a sequence of images are not used: every view is decoded from the
    file of the angles the object was made with. *)
Lemma angles_ignored {lib : OpenJPEG} (fs : FileSystem) (junk : Z -> Z) seq ang seq' ang' r layers n o :
  RawTile.data <$> (getTile fs junk seq ang r layers n o).1 = RawTile.data <$> (getTile fs junk seq' ang' r layers n o).1.
Proof.
  unfold getTile, decode_into, file_error, obj_lift, obj_get, mbind, Obj_bind. cbv zeta.
  repeat (case_match; simplify_eq; try reflexivity).
Qed.
