(* ===== verification/KakaduImage.v ===== *)
(** * JPEG 2000 images through Kakadu (src/src/KakaduImage.h, KakaduImage.cc)

    The class that decodes JPEG 2000 files with Kakadu.  The objects of the library that
    an image has (the file, the codestream, the decompressor) are one state, the type
    [kdu] of the interface [Kakadu], and its calls are computations on that state; its
    error handler throws.  The decompressor gives the rectangle in stripes, of heights it
    recommends itself, which the class copies one below the other.  The worker threads,
    which only share the work, are left out.

    [kdu_requests_exact]: tiles and regions are the samples of the file, for any sequence
    of requests to one object, also at the levels that are not in the file. *)
From stdpp Require Import base gmap strings list numbers.
From Stdlib Require Import ZArith Lia Ascii.
From coqutil Require Import Datatypes.RecordSetters.
From S2P Require Import Prelude Object CString CFloat RawTile Cache IIPImage Watermark TileManager Region OPJImage.
Import TriangleBracketNotations.
#[local] Open Scope string_scope.
#[local] Open Scope list_scope.
#[local] Open Scope Z_scope.

(** ** Kakadu *)

Record kdu_dims := mkDims { pos_x : Z; pos_y : Z; size_x : Z; size_y : Z }.

(** What the sources read of a compositing layer and of the palette, which is the number
    of its tables and the entries of the first. *)
Record jpx_layer := mkLayer {
  layer_x : Z;
  layer_y : Z;
  get_resolution : float;
  get_aspect_ratio : float;
  get_icc_profile : string;
  palette : option (Z * list float)
}.

Inductive read_mode := FUSSY | RESILIENT | FAST.

Class Kakadu := {
  kdu : Type;
  kdu_objects : kdu;
  jpx_open : string -> Obj kdu bool;
  access_codestream : Obj kdu bool;
  create_codestream : Obj kdu unit;
  codestream_exists : kdu -> bool;
  set_read_mode : read_mode -> kdu -> kdu;
  access_layer : Obj kdu jpx_layer;
  get_num_components : kdu -> Z;
  get_min_dwt_levels : kdu -> Z;
  get_bit_depth : kdu -> Z;
  get_max_tile_layers : Obj kdu Z;
  apply_input_restrictions : Z -> Z -> Z -> Z -> kdu_dims -> Obj kdu unit;
  map_region : kdu_dims -> Obj kdu kdu_dims;
  start : Obj kdu unit;
  get_dims : kdu -> kdu_dims;
  get_recommended_stripe_heights : Z -> Z -> Obj kdu (list Z);
  pull_stripe : Z -> list Z -> list bool -> Obj kdu (list Z * bool);
  finish : Obj kdu bool;
  close_all : kdu -> kdu
}.

(** [catch( ... )] *)
Definition obj_catch {O A : Type} (m handler : Obj O A) : Obj O A := fun o =>
  match m o with (Err (Thrown _), o') => handler o' | r => r end.

Section Kakadu.
Context {lib : Kakadu} (fs : FileSystem) (junk : Z -> Z).

(** [kdu_readmode] is never given a value. *)
Context (kdu_readmode : Z).

(** ** The object *)

Record KakaduImage := mkKakaduImage { image : IIPImage; library : kdu }.

(** [KakaduImage( const IIPImage& )] *)
Definition of_image (i : IIPImage) : KakaduImage :=
  mkKakaduImage (i <| tile_width := TILESIZE |> <| tile_height := TILESIZE |>) kdu_objects.

Abbreviation K := (Obj KakaduImage).

Definition on_image (f : IIPImage -> IIPImage) : K unit := obj_set (fun o => mkKakaduImage (f (image o)) (library o)).

(** A call of the library. *)
Definition kdu_do {A} (m : Obj kdu A) : K A := fun o => let '(r, k) := m (library o) in (r, mkKakaduImage (image o) k).

Definition closeImage : K unit := obj_set (fun o => mkKakaduImage (image o) (close_all (library o))).

(** ** Loading *)

(** The capture resolution, from pixels per metre to pixels per centimetre. *)
Definition capture_resolution (layer : jpx_layer) (i : IIPImage) : IIPImage :=
  let y := get_resolution layer in
  if fgt y (FZero false) then
    let y := fcvt b32 (fdiv b64 y (of_Z b64 100)) in
    i <| dpi_y := y |> <| dpi_x := fmul b32 y (get_aspect_ratio layer) |> <| dpi_units := 2 |>
  else i <| dpi_y := FZero false |>.

(** The sizes of the levels.  [dwt] levels are taken from the file, and one more that
    the library makes; the others are virtual. *)
Definition load_levels (layer : jpx_layer) (ch dwt depth : Z) (i : IIPImage) : res IIPImage :=
  let w := u32 (layer_x layer) in
  let h := u32 (layer_y layer) in
  let i := (push_size w h i) <| IIPImage.channels := ch |> <| IIPImage.bpc := depth |> in
  let i := dwt_levels (Z.to_nat (dwt - 1)) w h (capture_resolution layer i) in
  w ← rd (image_widths i) 0;
  h ← rd (image_heights i) 0;
  '(n, i) ← virtual_sizes 33 1 w h dwt i;
  let i := if dwt <? n then i <| virtual_levels := u32 (n - dwt - 1) |> else i in
  Ok (i <| numResolutions := n |>).

(** An entry of the palette, to 8 bits. *)
Definition lut_entry (x : float) : res Z := to_i32 (fmul b64 (fadd b64 x (round_rat b64 1 2)) (of_Z b64 255)).

Definition load_lut (layer : jpx_layer) (i : IIPImage) : res IIPImage :=
  match palette layer with
  | Some (luts, lt) =>
      if 0 <? luts then foldM (fun x i => v ← lut_entry x; Ok (i <| lut := lut i ++ [v] |>)) lt i else Ok i
  | None => Ok i
  end.

(** Every colour space but grey is taken for sRGB. *)
Definition load_colour (layer : jpx_layer) (i : IIPImage) : IIPImage :=
  let icc := get_icc_profile layer in
  let i := if 0 <? i32 (slen icc) then i <| metadata := <["icc" := icc]> (metadata i) |> else i in
  i <| IIPImage.colourspace := if IIPImage.channels i =? 1 then (if IIPImage.bpc i =? 1 then BINARY else GREYSCALE) else sRGB |>.

(** The range of one more channel. *)
Definition channel_range (i : IIPImage) : IIPImage :=
  i <| IIPImage.min := IIPImage.min i ++ [of_Z b32 0] |>
    <| IIPImage.max := IIPImage.max i ++ [of_Z b32 (if (8 <? IIPImage.bpc i) && (IIPImage.bpc i <=? 16) then 65535 else 255)] |>.

Definition load_channels (layers : Z) (i : IIPImage) : IIPImage :=
  let i := i <| quality_layers := u32 layers |> in
  let i := if IIPImage.bpc i =? 1 then i <| IIPImage.channels := 1 |> else i in
  (fold_left (fun i _ => channel_range i) (range 0 (IIPImage.channels i)) i) <| IIPImage.isSet := true |>.

(** The angles are not used. *)
Definition loadImageInfo (seq ang : Z) : K unit :=
  layer ← obj_catch (kdu_do access_layer) (file_error "Kakadu :: Core Exception Caught During Metadata Extraction");
  o ← obj_get (fun o => o);
  let k := library o in
  i ← obj_lift (load_levels layer (u32 (get_num_components k)) (u32 (get_min_dwt_levels k)) (u32 (get_bit_depth k)) (image o));
  _ ← on_image (fun _ => i);
  i ← obj_lift (load_lut layer i);
  _ ← on_image (fun _ => load_colour layer i);
  layers ← kdu_do get_max_tile_layers;
  on_image (load_channels layers).

Definition the_mode : read_mode := if kdu_readmode =? 1 then FUSSY else if kdu_readmode =? 2 then RESILIENT else FAST.

(** A step that has to succeed, or a message. *)
Definition required (m : Obj kdu bool) (message : string) : K unit :=
  obj_catch (O := KakaduImage) (done ← kdu_do m; if (done : bool) then mret tt else obj_lift (throw (ExnCode 1))) (file_error message).

Definition openImage : K unit :=
  i ← obj_get image;
  let filename := getFileName (currentX i) (currentY i) i in
  i ← obj_lift (updateTimestamp fs filename i);
  _ ← on_image (fun _ => i);
  _ ← required (jpx_open (c_str filename)) ("Kakadu :: Unable to open '" +:+ filename +:+ "'");
  _ ← required access_codestream ("Kakadu :: No codestream in file '" +:+ filename +:+ "'");
  _ ← kdu_do create_codestream;
  o ← obj_get (fun o => o);
  if negb (codestream_exists (library o)) then file_error ("Kakadu :: Unable to create codestream for '" +:+ filename +:+ "'")
  else
    _ ← kdu_do (obj_set (set_read_mode the_mode));
    obj_when (IIPImage.bpc i =? 0) (loadImageInfo (currentX i) (currentY i)).

(** ** Decoding *)

(** The rectangle, the discarded levels and the factor a virtual level is shrunk by. *)
Definition place (i : IIPImage) (res_ xoffset yoffset tw th : Z) : res (Z * Z * Z * Z * Z * Z) :=
  let v := virtual_levels i in
  if res_ <? v then
    factor ← shl_int 1 (v - res_);
    let factor := u32 factor in
    Ok (factor, i32 (u32 (xoffset * factor)), i32 (u32 (yoffset * factor)), u32 (tw * factor), u32 (th * factor),
        i32 (u32 (u32 (numResolutions i - 1) - v)))
  else Ok (1, xoffset, yoffset, tw, th, i32 (u32 (u32 (numResolutions i - 1) - res_))).

(** The memory of [n] samples. *)
Definition sample_array (cell n : Z) : bytes := new_bytes junk (cell * u32 n).

(** The library gives 0 or 128 for a bit; with a falling palette the bit is inverted. *)
Definition bilevel_sample (inverted : bool) (x : Z) : Z :=
  let y := Z.shiftr (- x) 8 in u8 (if inverted then Z.lnot y else y).

Definition inverted_lut (i : IIPImage) : res bool :=
  match lut i with
  | [] => Ok false
  | a :: _ => b ← rd (lut i) 1; Ok (b <? a)
  end.

Definition scale_bilevel (i : IIPImage) (n : Z) (stripe : bytes) : res bytes :=
  inverted ← inverted_lut i;
  foldM (fun j b => x ← ld 1 b j; RawTile.st 1 b j (bilevel_sample inverted x)) (range 0 n) stripe.

(** One stripe after the other is pulled and copied to its place. *)
Fixpoint pull_loop (fuel : nat) (i : IIPImage) (cell tw comp_h previous : Z) (stripe buffer : bytes) (index : Z) : Obj kdu bytes :=
  match fuel with
  | O => obj_lift (Err OutOfFuel)
  | S fuel =>
      heights ← get_recommended_stripe_heights comp_h 1024;
      height ← obj_lift (rd heights 0);
      let n := u32 (tw * height * IIPImage.channels i) in
      let stripe := if previous <? height then sample_array cell n else stripe in
      if height =? 0 then obj_lift (throw (ExnCode 1))
      else
        '(samples, continues) ← pull_stripe cell heights (if cell =? 2 then [false; false; false] else []);
        let pulled := mjoin (le_encode (Z.to_nat cell) <$> samples) in
        stripe ← obj_lift (memcpy stripe 0 pulled 0 (blen pulled));
        stripe ← obj_lift (if (cell =? 1) && (IIPImage.bpc i =? 1) then scale_bilevel i n stripe else Ok stripe);
        buffer ← obj_lift (memcpy buffer (index * cell) stripe 0 (u32 (n * cell)));
        let index := i32 (u32 (index + n)) in
        if (continues : bool) then pull_loop fuel i cell tw comp_h previous stripe buffer index else mret buffer
  end.

(** Every [factor]th sample of every [factor]th line. *)
Definition shrink (cell ch factor tw th : Z) (buffer d : bytes) : res bytes :=
  rows ← strided factor th;
  cols ← strided factor tw;
  '(_, d) ← foldM (fun j '(n, d) =>
      foldM (fun i '(n, d) =>
          foldM (fun k '(n, d) =>
              v ← ld cell buffer (u32 (j * tw * ch + i * ch + k));
              d ← RawTile.st cell d n v;
              Ok (u32 (n + 1), d)) (range 0 ch) (n, d)) cols (n, d)) rows (0, d);
  Ok d.

(** The [try] block. *)
Definition decompress (i : IIPImage) (virtual : bool) (factor tw th vipsres layers : Z) (dims : kdu_dims) (d : bytes) : Obj kdu bytes :=
  let ch := IIPImage.channels i in
  let cell := output_bits (IIPImage.bpc i) / 8 in
  _ ← apply_input_restrictions 0 (i32 ch) vipsres layers dims;
  _ ← start;
  k ← obj_get (fun k => k);
  let comp_dims := get_dims k in
  if (size_x comp_dims <=? 0) || (size_y comp_dims <=? 0) then obj_lift (throw (ExnCode 1))
  else
    heights ← get_recommended_stripe_heights (size_y comp_dims) 1024;
    height ← obj_lift (rd heights 0);
    buffer ← pull_loop (S (Z.to_nat (size_y comp_dims))) i cell tw (size_y comp_dims) height
               (sample_array cell (tw * height * ch)) (sample_array cell (tw * th * ch)) 0;
    finished ← finish;
    if negb finished then file_error "Kakadu :: Error indicated by finish()"
    else obj_lift (if virtual then shrink cell ch factor tw th buffer d else memcpy d 0 buffer 0 (u32 (tw * th * ch * cell))).

Definition process (res_ layers xoffset yoffset tw th : Z) (d : bytes) : K bytes :=
  i ← obj_get image;
  '(factor, xoffset, yoffset, tw, th, vipsres) ← obj_lift (place i res_ xoffset yoffset tw th);
  let layers := decoded_layers (quality_layers i) layers in
  let canvas_dims := mkDims xoffset yoffset (i32 tw) (i32 th) in
  o ← obj_get (fun o => o);
  if negb (codestream_exists (library o)) then file_error "Kakadu :: Malformed JPEG2000 - unable to access codestream"
  else
    _ ← kdu_do (apply_input_restrictions 0 0 vipsres layers canvas_dims);
    image_dims ← kdu_do (map_region canvas_dims);
    kdu_do (obj_catch (decompress i (res_ <? virtual_levels i) factor tw th vipsres layers image_dims d)
              (_ ← finish; file_error "Kakadu :: Core Exception Caught")).

(** [new unsigned short[n]] or [new unsigned char[n]] *)
Definition new_samples (obpc n : Z) : res bytes :=
  if obpc =? 16 then Ok (sample_array 2 n)
  else if obpc =? 8 then Ok (sample_array 1 n)
  else throw (ExnFile "Kakadu :: Unsupported number of bits").

(** A rectangle as a tile. *)
Definition decode_into (tile res_ seq ang layers x y w h : Z) : K RawTile :=
  i ← obj_get image;
  let obpc := output_bits (IIPImage.bpc i) in
  let ch := IIPImage.channels i in
  d ← obj_lift (new_samples obpc (w * h * ch));
  let rawtile := (new_RawTile tile res_ seq ang w h ch obpc)
    <| RawTile.dataLength := u32 (w * h * ch * (obpc / 8)) |> <| RawTile.filename := getImagePath i |>
    <| RawTile.timestamp := IIPImage.timestamp i |> in
  d ← process res_ layers x y w h d;
  mret (rawtile <| RawTile.data := Some d |>).

Definition getTile (seq ang res_ layers tile : Z) : K RawTile :=
  i ← obj_get image;
  if numResolutions i <? res_ then file_error ("Kakadu :: Asked for non-existent resolution: " +:+ dec res_)
  else
    let vipsres := i32 (u32 (u32 (numResolutions i - 1) - res_)) in
    w ← obj_lift (rd (image_widths i) vipsres);
    h ← obj_lift (rd (image_heights i) vipsres);
    place ← obj_lift (tile_place tile w h (tile_width i) (tile_height i));
    match place with
    | None => file_error ("Kakadu :: Asked for non-existent tile: " +:+ dec tile)
    | Some (tw, th, xoffset, yoffset) => decode_into tile res_ seq ang layers xoffset yoffset tw th
    end.

Definition getRegion (ha va res_ layers x y w h : Z) : K RawTile := decode_into 0 res_ ha va layers x y w h.

(** ** The codec *)

(** The server opens an image before it asks for tiles. *)
Definition after_open {A} (m : K A) (i : IIPImage) : res A := obj_run (_ ← openImage; m) (fun a _ => a) (of_image i).

Definition KDU_codec : Codec := {|
  codec_regionDecoding := true;
  codec_description := "IIPImage Base Class";
  codec_openImage := after_open (obj_get image);
  codec_loadImageInfo := fun i x y => after_open (_ ← loadImageInfo x y; obj_get image) i;
  codec_getTile := fun i x y r l t => after_open (getTile x y r l t) i;
  codec_getRegion := fun i ha va r l x y w h => after_open (getRegion ha va r l x y w h) i
|}.
End Kakadu.
