(* ===== verification/KakaduDecode.v ===== *)
(** * What the class for Kakadu decodes

    The stripes of a rectangle fill its buffer one after the other, whatever heights the
    library recommends, and the virtual levels are the samples of the smallest level in
    the file at every [factor]th position.  The states of the library are predicates, of
    which [kdu_file] has what Kakadu documents. *)
From stdpp Require Import base gmap strings list numbers.
From Stdlib Require Import ZArith Lia Ascii.
From coqutil Require Import Datatypes.RecordSetters.
From S2P Require Import Prelude Object CString CFloat RawTile Cache IIPImage Watermark TileManager Region OPJImage KakaduImage.
Import TriangleBracketNotations.
#[local] Open Scope string_scope.
#[local] Open Scope list_scope.
#[local] Open Scope Z_scope.

(** ** Arrays of cells *)

(** A block after what an array is filled with. *)
Lemma memcpy_append (pre chunk rest d : bytes) off :
  off = blen pre -> blen pre + blen chunk <= blen d ->
  memcpy (pre ++ drop (length pre) d) off (chunk ++ rest) 0 (blen chunk) = Ok ((pre ++ chunk) ++ drop (length (pre ++ chunk)) d).
Proof.
  intros Ho Hl. unfold blen in *.
  rewrite <- (take_drop (length chunk) (drop (length pre) d)), drop_drop, <- length_app, <- app_assoc.
  apply (memcpy_move pre _ _ [] chunk rest); try reflexivity; [exact Ho|]. unfold blen. rewrite length_take, length_drop. lia.
Qed.

Section Cells.
Context (bits : Z) (Hbits : 0 < bits <= 16).

Lemma encode_app l1 l2 : encode bits (l1 ++ l2) = encode bits l1 ++ encode bits l2.
Proof. unfold encode. rewrite fmap_app, join_app. reflexivity. Qed.

Lemma ld_encode l j v : 0 <= j -> l !! Z.to_nat j = Some v -> 0 <= v < 256 ^ cell_size bits -> ld (cell_size bits) (encode bits l) j = Ok v.
Proof.
  intros Hj Hl Hv. pose proof (cell_size_pos bits Hbits) as Hc. pose proof (lookup_lt_Some _ _ _ Hl) as Hlt.
  pose proof (length_encode bits Hbits l) as He. unfold ld. rewrite He, !(proj2 (Z.leb_le _ _)) by nia. cbn [andb]. apply (f_equal Ok).
  rewrite <- (take_drop_middle l (Z.to_nat j) v Hl), encode_app.
  pose proof (length_encode bits Hbits (take (Z.to_nat j) l)) as Ht. unfold blen in Ht. rewrite length_take in Ht.
  rewrite drop_app_length' by nia. change (v :: ?x) with ([v] ++ x). rewrite encode_app.
  unfold encode at 1. cbn [fmap list_fmap mjoin list_join]. rewrite app_nil_r, take_app_length' by (rewrite le_encode_length; reflexivity).
  apply le_decode_encode. rewrite Z2Nat.id by lia. exact Hv.
Qed.

(** What a sample of the library becomes. *)
Context (inverted : bool).
Definition kdu_shown (v : Z) : Z := if bits =? 1 then bilevel_sample inverted (u8 v) else v.

Lemma kdu_shown_range v : 0 <= v < 256 ^ cell_size bits -> 0 <= kdu_shown v < 256 ^ cell_size bits.
Proof.
  intros Hv. unfold kdu_shown. destruct (Z.eqb_spec bits 1) as [->|]; [|exact Hv]. apply u8_range.
Qed.

Lemma scale_bilevel_ok i b rest : inverted_lut i = Ok inverted ->
  scale_bilevel i (blen b) (b ++ rest) = Ok ((bilevel_sample inverted <$> b) ++ rest).
Proof.
  intros Hi. unfold scale_bilevel. rewrite Hi, bind_ret. set (f := bilevel_sample inverted).
  destruct (foldM_range (fun j s => s = (f <$> take (Z.to_nat j) b) ++ drop (Z.to_nat j) b ++ rest)
    (fun j b => x ← ld 1 b j; RawTile.st 1 b j (f x)) 0 (blen b) (b ++ rest)) as (s & -> & ->); [unfold blen; lia|reflexivity| |].
  - intros j s Hj ->. unfold blen in Hj. destruct (lookup_lt_is_Some_2 b (Z.to_nat j)) as [v Ev]; [lia|].
    assert (El : length (f <$> take (Z.to_nat j) b) = Z.to_nat j) by (rewrite length_fmap, length_take; lia).
    rewrite (drop_S b v) by exact Ev. set (s := _ ++ _).
    assert (Ej : 0 <= j < blen s) by (unfold s, blen; rewrite length_app, El; cbn [app length]; lia).
    destruct (ld1 s j Ej) as (v' & Ev' & ->). rewrite bind_ret.
    assert (v' = v) as -> by (unfold s in Ev'; rewrite lookup_app_r, El, Nat.sub_diag in Ev' by lia; cbn in Ev'; congruence).
    rewrite st1 by exact Ej. eexists. split; [reflexivity|].
    rewrite Z2Nat.inj_add by lia. change (Z.to_nat 1) with 1%nat. rewrite Nat.add_1_r, (take_S_r b _ v) by exact Ev.
    rewrite fmap_app, <- app_assoc. unfold s. rewrite insert_app_r_alt, El, Nat.sub_diag by lia. cbn [app list_insert insert fmap list_fmap].
    do 2 f_equal. unfold f, bilevel_sample. rewrite !(u8_small (u8 _)) by apply u8_range. reflexivity.
  - unfold blen. rewrite Nat2Z.id, take_ge, drop_ge by lia. reflexivity.
Qed.

(** The scaling of a stripe. *)
Lemma scale_stripe i samples rest n :
  inverted_lut i = Ok inverted -> IIPImage.bpc i = bits -> n * cell_size bits = blen (encode bits samples) ->
  (if (cell_size bits =? 1) && (IIPImage.bpc i =? 1) then scale_bilevel i n (encode bits samples ++ rest) else Ok (encode bits samples ++ rest))
  = Ok (encode bits (kdu_shown <$> samples) ++ rest).
Proof.
  intros Hi Hb Hn. rewrite Hb. unfold kdu_shown. destruct (Z.eqb_spec bits 1) as [E|E].
  - rewrite E in *. change (cell_size 1) with 1 in *. change ((1 =? 1) && true) with true. cbv iota.
    rewrite Z.mul_1_r in Hn. rewrite Hn, (scale_bilevel_ok i _ rest Hi). apply (f_equal (fun b => Ok (b ++ rest))).
    unfold encode. change (Z.to_nat (cell_size 1)) with 1%nat. clear. induction samples as [|v l IH]; [reflexivity|].
    change (bilevel_sample inverted (u8 v) :: (bilevel_sample inverted <$> mjoin (le_encode 1 <$> l)) = u8 (bilevel_sample inverted (u8 v))
      :: mjoin (le_encode 1 <$> ((fun v => bilevel_sample inverted (u8 v)) <$> l))).
    rewrite IH. apply (f_equal (fun x => x :: _)). unfold bilevel_sample. rewrite (u8_small (u8 _)) by apply u8_range. reflexivity.
  - rewrite andb_false_r, list_fmap_id. reflexivity.
Qed.

(** The cells of the first [m] samples of a rectangle. *)
Definition kdu_cells (ch : Z) (val : Z -> Z -> Z) (m : Z) : list Z := (fun j => kdu_shown (val (j / ch) (j mod ch))) <$> range 0 m.

Lemma length_kdu_cells ch val m : 0 <= m -> blen (encode bits (kdu_cells ch val m)) = cell_size bits * m.
Proof. intros Hm. rewrite length_encode by exact Hbits. unfold kdu_cells. rewrite length_fmap, length_range. f_equal. lia. Qed.

Lemma lookup_kdu_cells ch val m p k : 0 < ch -> 0 <= k < ch -> 0 <= p -> p * ch + k < m ->
  kdu_cells ch val m !! Z.to_nat (p * ch + k) = Some (kdu_shown (val p k)).
Proof.
  intros Hch Hk Hp Hm. unfold kdu_cells. rewrite list_lookup_fmap. rewrite <- (Z.sub_0_r (p * ch + k)) at 1.
  rewrite lookup_range_at by nia. cbn. rewrite in_tile, of_tile by lia. reflexivity.
Qed.
End Cells.

(** ** The files *)

(** The number of components that are decoded: one for bits. *)
Definition decoded_components (bits C : Z) : Z := if bits =? 1 then 1 else C.

(** The palette as 8-bit values, and whether its first two fall. *)
Definition palette_values (layer : jpx_layer) (l : list Z) : Prop :=
  match palette layer with
  | Some (luts, lt) => if 0 <? luts then Forall2 (fun x v => lut_entry x = Ok v) lt l else l = []
  | None => l = []
  end.
Definition falls (l : list Z) (inverted : bool) : Prop :=
  match l with [] => inverted = false | a :: b :: _ => inverted = (b <? a) | _ => False end.

Lemma load_lut_ok layer l i : palette_values layer l -> load_lut layer i = Ok (i <| lut := lut i ++ l |>).
Proof.
  unfold palette_values, load_lut. assert (E0 : forall j : IIPImage, j <| lut := lut j ++ [] |> = j) by (intros []; cbn; rewrite app_nil_r; reflexivity).
  destruct (palette layer) as [[luts lt]|]; [|intros ->; rewrite E0; reflexivity].
  destruct (0 <? luts); [|intros ->; rewrite E0; reflexivity].
  intros Hl. revert i. induction Hl as [|x v lt l Hx Hl IH]; intros i; cbn [foldM]; [rewrite E0; reflexivity|].
  rewrite Hx, !bind_ret, IH. change (Ok (i <| lut := (lut i ++ [v]) ++ l |>) = Ok (i <| lut := lut i ++ v :: l |>)).
  rewrite <- app_assoc. reflexivity.
Qed.

Lemma capture_resolution_ok layer i : exists a b c, capture_resolution layer i = i <| dpi_x := a |> <| dpi_y := b |> <| dpi_units := c |>.
Proof. unfold capture_resolution. destruct (fgt _ _); [eexists _, _, _; reflexivity|]. exists (dpi_x i), (FZero false), (dpi_units i). destruct i. reflexivity. Qed.

Lemma load_colour_ok layer i : exists m cs, load_colour layer i = i <| metadata := m |> <| IIPImage.colourspace := cs |>.
Proof.
  unfold load_colour. cbv zeta. destruct (0 <? _); [eexists _, _; reflexivity|]. eexists (metadata i), _. destruct i. reflexivity.
Qed.

Lemma kdu_channel_ranges l i :
  exists mn mx, fold_left (fun i (_ : Z) => KakaduImage.channel_range i) l i = i <| IIPImage.min := mn |> <| IIPImage.max := mx |>.
Proof.
  revert i. induction l as [|k l IH]; intros i; cbn [fold_left].
  - exists (IIPImage.min i), (IIPImage.max i). destruct i; reflexivity.
  - destruct (IH (KakaduImage.channel_range i)) as (mn & mx & ->). exists mn, mx. reflexivity.
Qed.

Lemma falls_inverted i l b : lut i = l -> falls l b -> inverted_lut i = Ok b.
Proof. unfold inverted_lut, falls. intros ->. destruct l as [|a [|c l]]; [intros ->; reflexivity|contradiction|intros ->; reflexivity]. Qed.

Section File.
Context {lib : Kakadu} (fs : FileSystem) (junk : Z -> Z) (mode : Z).

(** The size, the number of reductions in the file, the quality layers, the components
    and their depth; the samples: layers, reduction, component, column, row. *)
Context (path : string) (time W H L Q C bits : Z) (layer : jpx_layer) (values : list Z) (inverted : bool)
        (sample : Z -> Z -> Z -> Z -> Z -> Z).

Definition ncomp : Z := decoded_components bits C.

(** The rows [done, done + t) of a rectangle as they are pulled. *)
Definition stripe (l k x y w done t : Z) : list Z :=
  (fun j => sample l k (j mod ncomp) (x + j / ncomp mod w) (y + done + j / ncomp / w)) <$> range 0 (t * w * ncomp).

(** Three flags are given for 16-bit samples, none for bytes. *)
Definition signs : list bool := if cell_size bits =? 2 then [false; false; false] else [].

(** The states of the library: the codestream is there; [done] rows of a rectangle were
    pulled. *)
Context (opened : kdu -> Prop) (pulling : Z -> Z -> Z -> Z -> Z -> Z -> Z -> kdu -> Prop).

(** What Kakadu documents, for such a file: stripes of the heights it is asked for follow
    each other down to the last row of the rectangle. *)
Record kdu_file : Prop := {
  kf_open : exists s1 s2 s3, jpx_open path kdu_objects = (Ok true, s1) /\ access_codestream s1 = (Ok true, s2)
    /\ create_codestream s2 = (Ok tt, s3) /\ codestream_exists s3 = true /\ forall m, opened (set_read_mode m s3);
  kf_exists : forall s, opened s -> codestream_exists s = true;
  kf_layer : forall s, opened s -> exists s', access_layer s = (Ok layer, s') /\ opened s';
  kf_size : layer_x layer = W /\ layer_y layer = H;
  kf_info : forall s, opened s -> get_num_components s = C /\ get_min_dwt_levels s = L /\ get_bit_depth s = bits;
  kf_layers : forall s, opened s -> exists s', get_max_tile_layers s = (Ok Q, s') /\ opened s';
  kf_range : forall l k c x y, 0 <= sample l k c x y < 256 ^ cell_size bits;
  kf_start : forall s l k x y w h, opened s -> 0 < l -> 0 <= k <= L -> 0 <= x -> 0 <= y -> 0 < w -> 0 < h ->
    x + w <= W / 2 ^ k -> y + h <= H / 2 ^ k ->
    exists s1 canvas s2 s3 s4, apply_input_restrictions 0 0 k l (mkDims x y w h) s = (Ok tt, s1)
      /\ map_region (mkDims x y w h) s1 = (Ok canvas, s2) /\ apply_input_restrictions 0 ncomp k l canvas s2 = (Ok tt, s3)
      /\ start s3 = (Ok tt, s4) /\ size_x (get_dims s4) = w /\ size_y (get_dims s4) = h /\ pulling l k x y w h 0 s4;
  kf_heights : forall s l k x y w h done, pulling l k x y w h done s -> done < h ->
    exists t s', get_recommended_stripe_heights h 1024 s = (Ok (replicate (Z.to_nat ncomp) t), s')
      /\ pulling l k x y w h done s' /\ 0 < t /\ done + t <= h;
  kf_pull : forall s l k x y w h done t, pulling l k x y w h done s -> 0 < t -> done + t <= h ->
    exists s', pull_stripe (cell_size bits) (replicate (Z.to_nat ncomp) t) signs s = (Ok (stripe l k x y w done t, done + t <? h), s')
      /\ pulling l k x y w h (done + t) s';
  kf_finish : forall s l k x y w h, pulling l k x y w h h s -> exists s', finish s = (Ok true, s') /\ opened s'
}.

(** [N] levels, of which those after the one [L] are not in the file; the smallest that
    is in the file can be decoded in one piece; as many flags as components. *)
Context (N : Z).
Definition virtual : Z := Z.max 0 (N - L - 1).

Record kdu_sizes : Prop := {
  ks_geometry : jp2_sizes W H N Q ncomp bits N;
  ks_dwt : 0 <= L < 2 ^ 31;
  ks_components : 0 < C < 2 ^ 14;
  ks_signs : 8 < bits -> C <= 3;
  ks_smallest : 0 < virtual -> W / 2 ^ L * (H / 2 ^ L) * ncomp < 2 ^ 31;
  ks_palette : palette_values layer values /\ falls values inverted
}.

Context (Hf : kdu_file) (Hs : kdu_sizes).

Lemma ncomp_range : 0 < ncomp < 2 ^ 14.
Proof. exact (js_comps _ _ _ _ _ _ _ (ks_geometry Hs)). Qed.

Lemma bits_range : 0 < bits <= 16.
Proof. exact (js_bits _ _ _ _ _ _ _ (ks_geometry Hs)). Qed.

(** ** Stripes *)

Section Stripes.
Context (l k x y w h : Z) (Hw : 0 < w) (Hh : 0 < h) (Hsz : w * h * ncomp < 2 ^ 31).
Context (i : IIPImage) (Hch : IIPImage.channels i = ncomp) (Hbpc : IIPImage.bpc i = bits) (Hlut : inverted_lut i = Ok inverted).
Context (d : bytes) (Hd : blen d = cell_size bits * (w * h * ncomp)).

(** The sample of a pixel of the rectangle, and the buffer after [m] samples. *)
Definition sample_of (p c : Z) : Z := sample l k c (x + p mod w) (y + p / w).
Definition cells_to (m : Z) : bytes := encode bits (kdu_cells bits inverted ncomp sample_of m).
Definition filled_to (m : Z) : bytes := cells_to m ++ drop (length (cells_to m)) d.

Lemma length_stripe done t : 0 <= t -> blen (encode bits (stripe l k x y w done t)) = cell_size bits * (t * w * ncomp).
Proof.
  intros Ht. pose proof ncomp_range. rewrite length_encode by exact bits_range. unfold stripe. rewrite length_fmap, length_range.
  f_equal. rewrite Z.sub_0_r, Z2Nat.id by nia. reflexivity.
Qed.

Lemma cells_to_stripe done t : 0 <= done -> 0 <= t ->
  cells_to (done * w * ncomp) ++ encode bits (kdu_shown bits inverted <$> stripe l k x y w done t) = cells_to ((done + t) * w * ncomp).
Proof.
  intros Hd0 Ht. pose proof ncomp_range as Hn. unfold cells_to. rewrite <- encode_app. f_equal. unfold kdu_cells.
  rewrite (range_app 0 (done * w * ncomp) ((done + t) * w * ncomp)), fmap_app by nia. f_equal.
  replace ((done + t) * w * ncomp) with (done * w * ncomp + t * w * ncomp) by ring. rewrite range_shift. unfold stripe.
  rewrite <- !list_fmap_compose. apply list_fmap_ext. intros m j Hj. unfold compose, sample_of.
  rewrite (Z.add_comm (done * w * ncomp) j), Z.mod_add, Z.div_add by lia.
  rewrite Z.mod_add, Z.div_add by lia. do 2 f_equal. ring.
Qed.

(** One stripe, from the library to its place in the buffer. *)
Lemma stripe_placed done t previous (st : bytes) :
  0 <= done -> 0 < t -> done + t <= h -> cell_size bits * (w * previous * ncomp) <= blen st -> 0 <= previous ->
  let n := u32 (w * t * IIPImage.channels i) in
  let st' := if previous <? t then sample_array junk (cell_size bits) n else st in
  let pulled := encode bits (stripe l k x y w done t) in
  exists rest, memcpy st' 0 pulled 0 (blen pulled) = Ok (pulled ++ rest)
    /\ n = t * w * ncomp
    /\ memcpy (filled_to (done * w * ncomp)) (done * w * ncomp * cell_size bits)
         (encode bits (kdu_shown bits inverted <$> stripe l k x y w done t) ++ rest) 0 (u32 (n * cell_size bits))
       = Ok (filled_to ((done + t) * w * ncomp))
    /\ cell_size bits * (w * previous * ncomp) <= blen (pulled ++ rest).
Proof.
  intros Hd0 Ht Hdt Hst Hp n st' pulled. pose proof ncomp_range as Hn. pose proof (cell_size_pos bits bits_range) as Hc.
  assert (Hm : 0 < t * w * ncomp /\ t * w * ncomp <= w * h * ncomp /\ 0 <= done * w * ncomp) by nia.
  assert (Hdone : (done + t) * w * ncomp <= w * h * ncomp) by nia.
  assert (En : n = t * w * ncomp) by (unfold n; rewrite Hch, u32_small; [ring|replace (w * t) with (t * w) by ring; lia]).
  assert (Hl : blen pulled = cell_size bits * (t * w * ncomp)) by (apply length_stripe; lia).
  assert (Hst' : blen pulled <= blen st' /\ cell_size bits * (w * previous * ncomp) <= blen st').
  { unfold st'. rewrite Hl. destruct (Z.ltb_spec previous t) as [Hlt|Hge].
    - unfold sample_array. rewrite En, u32_small, blen_new_bytes by nia. nia.
    - split; [|exact Hst]. etransitivity; [|exact Hst]. nia. }
  pose proof (memcpy_append [] pulled [] st' 0 eq_refl ltac:(rewrite blen_nil; lia)) as E.
  rewrite app_nil_r in E. cbn [app length drop] in E. exists (drop (length pulled) st'). split; [exact E|]. split; [exact En|].
  assert (Els : blen (encode bits (kdu_shown bits inverted <$> stripe l k x y w done t)) = cell_size bits * (t * w * ncomp)).
  { rewrite <- Hl. unfold pulled. rewrite !length_encode by exact bits_range. rewrite length_fmap. reflexivity. }
  split.
  - rewrite En, u32_small by nia. replace (t * w * ncomp * cell_size bits) with (blen (encode bits (kdu_shown bits inverted <$> stripe l k x y w done t))) by lia.
    unfold filled_to at 1. rewrite memcpy_append.
    + rewrite cells_to_stripe by lia. reflexivity.
    + unfold cells_to. rewrite length_kdu_cells by (exact bits_range || lia). ring.
    + unfold cells_to. rewrite length_kdu_cells by (exact bits_range || lia). rewrite Els, Hd. nia.
  - rewrite blen_app. unfold blen in *. rewrite length_drop. lia.
Qed.

Lemma pull_loop_ok fuel done previous (st : bytes) s :
  pulling l k x y w h done s -> 0 <= done < h -> h - done < Z.of_nat fuel ->
  cell_size bits * (w * previous * ncomp) <= blen st -> 0 <= previous ->
  exists s', pull_loop junk fuel i (cell_size bits) w h previous st (filled_to (done * w * ncomp)) (done * w * ncomp) s
    = (Ok (cells_to (w * h * ncomp)), s') /\ pulling l k x y w h h s'.
Proof.
  revert done st s. induction fuel as [|fuel IH]; intros done st s Hs0 Hdone Hfuel Hst Hp; [lia|].
  pose proof ncomp_range as Hn. pose proof (cell_size_pos bits bits_range) as Hc.
  destruct (kf_heights Hf s l k x y w h done Hs0 ltac:(lia)) as (t & s1 & E1 & Hs1 & Ht & Hdt). cbn [pull_loop].
  rewrite (obj_bind_val _ _ _ _ _ E1).
  rewrite (proj2 (rd_ok (replicate (Z.to_nat ncomp) t) 0 t)), obj_lift_bind by (split; [lia|apply lookup_replicate_2; lia]).
  destruct (stripe_placed done t previous st ltac:(lia) Ht Hdt Hst Hp) as (rest & M1 & En & M2 & Hrest). cbv zeta in *.
  rewrite (proj2 (Z.eqb_neq t 0)) by lia.
  destruct (kf_pull Hf s1 l k x y w h done t Hs1 Ht Hdt) as (s2 & E2 & Hs2). unfold signs in E2. rewrite (obj_bind_val _ _ _ _ _ E2).
  change (mjoin (le_encode (Z.to_nat (cell_size bits)) <$> stripe l k x y w done t)) with (encode bits (stripe l k x y w done t)).
  rewrite M1, obj_lift_bind, En in *.
  rewrite (scale_stripe bits bits_range inverted i (stripe l k x y w done t) rest (t * w * ncomp) Hlut Hbpc), obj_lift_bind
    by (rewrite length_stripe by lia; ring).
  rewrite M2, obj_lift_bind.
  assert (Hm : (done + t) * w * ncomp <= w * h * ncomp /\ 0 <= done * w * ncomp + t * w * ncomp) by nia.
  replace (i32 (u32 (done * w * ncomp + t * w * ncomp))) with ((done + t) * w * ncomp)
    by (rewrite u32_small, i32_small by nia; ring).
  destruct (Z.ltb_spec (done + t) h) as [Hlt|Hge].
  - apply IH; [exact Hs2|lia|lia| |exact Hp].
    rewrite blen_app in *. rewrite length_encode in * by exact bits_range. rewrite length_fmap. exact Hrest.
  - assert (done + t = h) as E by lia. rewrite E in *. exists s2. split; [|exact Hs2].
    unfold filled_to. replace (h * w * ncomp) with (w * h * ncomp) by ring. rewrite drop_ge, app_nil_r; [reflexivity|].
    assert (Hl : blen (cells_to (w * h * ncomp)) = cell_size bits * (w * h * ncomp)) by (apply length_kdu_cells; [exact bits_range|nia]).
    unfold blen in *. lia.
Qed.
End Stripes.

(** ** Virtual levels *)

(** The counters of a loop over [n] steps of a [factor]. *)
Lemma strided_ok factor n : 0 < factor -> 0 < n -> n * factor < 2 ^ 32 - factor ->
  strided factor (n * factor) = Ok ((fun k => k * factor) <$> range 0 n).
Proof.
  intros Hf0 Hn Hs0. unfold strided. rewrite (proj2 (Z.leb_gt _ _)), (proj2 (Z.leb_gt factor 0)) by nia.
  replace ((n * factor + factor - 1) / factor) with n by (apply (Z.div_unique_pos _ _ _ (factor - 1)); lia).
  rewrite (proj2 (Z.ltb_lt _ _)) by lia. reflexivity.
Qed.

Section Shrink.
Context (f w h : Z) (Hf0 : 0 < f) (Hw : 0 < w) (Hh : 0 < h) (Hsz : w * f * (h * f) * ncomp < 2 ^ 31).
Context (val : Z -> Z -> Z) (Hval : forall p c, 0 <= val p c < 256 ^ cell_size bits).
Context (d : bytes) (Hd : blen d = cell_size bits * (w * h * ncomp)).

(** The sample of the full rectangle a pixel of the small one is. *)
Definition shrunk (p c : Z) : Z := val (p / w * f * (w * f) + p mod w * f) c.

Definition small_to (m : Z) : bytes :=
  encode bits (kdu_cells bits inverted ncomp shrunk m) ++ drop (length (encode bits (kdu_cells bits inverted ncomp shrunk m))) d.

Lemma kdu_cells_snoc v m : 0 <= m ->
  kdu_cells bits inverted ncomp v (m + 1) = kdu_cells bits inverted ncomp v m ++ [kdu_shown bits inverted (v (m / ncomp) (m mod ncomp))].
Proof. intros Hm. unfold kdu_cells. rewrite range_snoc, fmap_app by lia. rewrite Z.add_simpl_r. reflexivity. Qed.

Lemma shrunk_size : 0 < ncomp -> w * h * ncomp <= w * f * (h * f) * ncomp.
Proof.
  intros Hn. replace (w * f * (h * f)) with (w * h * (f * f)) by ring. apply Z.mul_le_mono_nonneg_r; [lia|].
  assert (1 <= f * f) by nia. assert (0 < w * h) by nia. nia.
Qed.

(** One sample. *)
Lemma shrink_sample y x k :
  0 <= y < h -> 0 <= x < w -> 0 <= k < ncomp ->
  let m := (y * w + x) * ncomp + k in
  let buffer := encode bits (kdu_cells bits inverted ncomp val (w * f * (h * f) * ncomp)) in
  (v ← ld (cell_size bits) buffer (u32 (y * f * (w * f) * ncomp + x * f * ncomp + k));
   d ← RawTile.st (cell_size bits) (small_to m) m v; Ok (u32 (m + 1), d)) = Ok (m + 1, small_to (m + 1)).
Proof.
  intros Hy Hx Hk m buffer. pose proof ncomp_range as Hn. pose proof (cell_size_pos bits bits_range) as Hc.
  pose proof (row_major_bound w h x y Hx Hy) as Hp.
  set (q := y * f * (w * f) + x * f).
  assert (Hq : 0 <= q < w * f * (h * f)).
  { pose proof (row_major_bound (w * f) (h * f) (x * f) (y * f) ltac:(nia) ltac:(nia)). unfold q. lia. }
  assert (Hm : 0 <= m /\ m + 1 <= w * h * ncomp) by (unfold m; nia).
  pose proof (shrunk_size ltac:(lia)) as Hwh. set (T := w * f * (h * f)) in *.
  replace (y * f * (w * f) * ncomp + x * f * ncomp + k) with (q * ncomp + k) by (unfold q; ring).
  assert (Hqk : 0 <= q * ncomp + k < T * ncomp) by nia.
  rewrite (u32_small (q * ncomp + k)) by lia. unfold buffer. fold T.
  rewrite (ld_encode bits bits_range) with (v := kdu_shown bits inverted (val q k));
    [|lia|apply (lookup_kdu_cells bits bits_range inverted ncomp val _ q k); lia|apply kdu_shown_range; [exact bits_range|apply Hval]].
  rewrite bind_ret.
  assert (Ev : kdu_shown bits inverted (val q k) = kdu_shown bits inverted (shrunk (m / ncomp) (m mod ncomp))).
  { unfold m, shrunk. rewrite in_tile, of_tile by lia. rewrite (in_tile w y x), (of_tile w y x) by lia. reflexivity. }
  rewrite Ev. set (l0 := kdu_cells bits inverted ncomp shrunk m).
  assert (El : Z.of_nat (length l0) = m) by (unfold l0, kdu_cells; rewrite length_fmap, length_range; lia).
  pose proof (st_append bits bits_range l0 d (kdu_shown bits inverted (shrunk (m / ncomp) (m mod ncomp)))) as A.
  rewrite El in A. unfold small_to. fold l0. rewrite A by (rewrite Hd; nia). rewrite bind_ret, u32_small by lia.
  rewrite kdu_cells_snoc by lia. reflexivity.
Qed.

Lemma shrink_ok :
  shrink (cell_size bits) ncomp f (w * f) (h * f) (encode bits (kdu_cells bits inverted ncomp val (w * f * (h * f) * ncomp))) d
  = Ok (encode bits (kdu_cells bits inverted ncomp shrunk (w * h * ncomp))).
Proof.
  pose proof ncomp_range as Hn. pose proof (cell_size_pos bits bits_range) as Hc. unfold shrink.
  assert (Hb : f <= w * f /\ f <= h * f /\ w * f <= w * f * (h * f) /\ h * f <= w * f * (h * f) /\ w * f * (h * f) < 2 ^ 31).
  { assert (f <= w * f /\ f <= h * f) as [] by nia. revert Hsz. generalize dependent (w * f). generalize dependent (h * f). intros b Hb a Ha Hsz. nia. }
  rewrite (strided_ok f h), (strided_ok f w), !bind_ret by lia. set (buffer := encode _ _).
  assert (E0 : (0, d) = (0, small_to 0)) by reflexivity. rewrite E0, foldM_fmap.
  match goal with |- (foldM ?body _ _ ≫= _) = _ =>
    destruct (foldM_range (fun y st => st = (y * w * ncomp, small_to (y * w * ncomp))) body 0 h (0, small_to 0)) as (st & -> & ->) end;
    [lia|reflexivity| |].
  - intros y st Hy ->. rewrite foldM_fmap.
    match goal with |- exists _, foldM ?body _ _ = _ /\ _ =>
      destruct (foldM_range (fun x st => st = ((y * w + x) * ncomp, small_to ((y * w + x) * ncomp))) body 0 w
                  (y * w * ncomp, small_to (y * w * ncomp))) as (st & -> & ->) end;
      [lia|rewrite Z.add_0_r; reflexivity| |].
    + intros x st Hx ->.
      match goal with |- exists _, foldM ?body _ _ = _ /\ _ =>
        destruct (foldM_range (fun k st => st = ((y * w + x) * ncomp + k, small_to ((y * w + x) * ncomp + k))) body 0 ncomp
                    ((y * w + x) * ncomp, small_to ((y * w + x) * ncomp))) as (st & -> & ->) end;
        [lia|rewrite Z.add_0_r; reflexivity| |].
      * intros k st Hk ->. pose proof (shrink_sample y x k Hy Hx Hk) as E. cbv zeta in E. fold buffer in E. rewrite E.
        eexists. split; [reflexivity|]. rewrite !Z.add_assoc. reflexivity.
      * eexists. split; [reflexivity|]. replace ((y * w + (x + 1)) * ncomp) with ((y * w + x) * ncomp + ncomp) by ring. reflexivity.
    + eexists. split; [reflexivity|]. replace ((y + 1) * w * ncomp) with ((y * w + w) * ncomp) by ring. reflexivity.
  - rewrite bind_ret. replace (h * w * ncomp) with (w * h * ncomp) by ring. unfold small_to.
    rewrite drop_ge, app_nil_r; [reflexivity|].
    pose proof (length_kdu_cells bits bits_range inverted ncomp shrunk (w * h * ncomp) ltac:(nia)) as Hl. unfold blen in *. lia.
Qed.
End Shrink.

(** ** Rectangles *)

(** The reductions of a resolution that are made by the library, and the factor of the
    others. *)
Definition shift (r : Z) : Z := Z.max 0 (virtual - r).
Definition reduction (r : Z) : Z := N - 1 - r - shift r.
Definition zoom (r : Z) : Z := 2 ^ shift r.

(** A rectangle of a resolution as bytes. *)
Definition level_sample (l r x y w p c : Z) : Z := sample l (reduction r) c ((x + p mod w) * zoom r) ((y + p / w) * zoom r).
Definition kdu_rect (l r x y w h : Z) : bytes := encode bits (kdu_cells bits inverted ncomp (level_sample l r x y w) (w * h * ncomp)).

(** The image as it was loaded from the file. *)
Record kdu_describes (i : IIPImage) : Prop := {
  kd_widths : forall k, 0 <= k < N -> image_widths i !! Z.to_nat k = Some (level_w W k);
  kd_heights : forall k, 0 <= k < N -> image_heights i !! Z.to_nat k = Some (level_h H k);
  kd_res : numResolutions i = N;
  kd_tw : tile_width i = TILESIZE;
  kd_th : tile_height i = TILESIZE;
  kd_virtual : virtual_levels i = virtual;
  kd_ch : IIPImage.channels i = ncomp;
  kd_bpc : IIPImage.bpc i = bits;
  kd_layers : quality_layers i = Q;
  kd_lut : inverted_lut i = Ok inverted;
  kd_path : c_str (getFileName (currentX i) (currentY i) i) = path;
  kd_time : IIPImage.timestamp i = time;
  kd_stat : exists b, fs_stat fs path = Some (b, time)
}.

(** Between two requests the codestream is there. *)
Definition kdu_inv (i : IIPImage) (o : KakaduImage) : Prop := image o = i /\ opened (library o).

Lemma few_levels : 0 < N <= 24.
Proof.
  pose proof (js_n _ _ _ _ _ _ _ (ks_geometry Hs)). pose proof (levels_few _ _ _ _ _ _ _ (ks_geometry Hs)). lia.
Qed.

Lemma shift_range r : 0 <= r < N -> 0 <= shift r < 24 /\ 0 <= reduction r <= L /\ 0 < zoom r <= 2 ^ 24.
Proof.
  intros Hr. pose proof few_levels. pose proof (ks_dwt Hs). unfold zoom, reduction, shift, virtual.
  split; [lia|]. split; [lia|]. split; [apply Z.pow_pos_nonneg; lia|apply Z.pow_le_mono_r; lia].
Qed.

(** The rectangle in the level that is decoded. *)
Lemma zoomed r x y w h : inside W H ncomp N r x y w h ->
  (x + w) * zoom r <= W / 2 ^ reduction r /\ (y + h) * zoom r <= H / 2 ^ reduction r
  /\ W / 2 ^ reduction r < 2 ^ 24 /\ H / 2 ^ reduction r < 2 ^ 24 /\ w * zoom r * (h * zoom r) * ncomp < 2 ^ 31.
Proof.
  intros (Hr & Hx & Hy & Hw & Hh & Hxw & Hyh & Hsz). pose proof (ks_geometry Hs) as G. pose proof (js_w _ _ _ _ _ _ _ G) as HW.
  pose proof (js_h _ _ _ _ _ _ _ G) as HH. destruct (shift_range r Hr) as (S & K & Z0). pose proof ncomp_range as Hn.
  assert (E : forall v, v / 2 ^ (N - 1 - r) = v / 2 ^ reduction r / 2 ^ shift r).
  { intros v. rewrite Z.div_div by (try apply Z.pow_pos_nonneg; lia). rewrite <- Z.pow_add_r by lia.
    unfold reduction. do 2 f_equal. lia. }
  unfold level_w in Hxw. unfold level_h in Hyh. rewrite E in Hxw, Hyh.
  destruct (on_canvas (x + w) (W / 2 ^ reduction r) (shift r)) as [_ Bx]; [lia..|].
  destruct (on_canvas (y + h) (H / 2 ^ reduction r) (shift r)) as [_ By]; [lia..|]. fold (zoom r) in Bx, By.
  assert (P2 : 0 < 2 ^ reduction r) by (apply Z.pow_pos_nonneg; lia).
  assert (Lw : W / 2 ^ reduction r <= W) by (apply Z.div_le_upper_bound; nia).
  assert (Lh : H / 2 ^ reduction r <= H) by (apply Z.div_le_upper_bound; nia).
  split; [exact Bx|]. split; [exact By|]. split; [lia|]. split; [lia|].
  destruct (Z.eq_dec (shift r) 0) as [E0|E0].
  - unfold zoom. rewrite E0. change (2 ^ 0) with 1. rewrite !Z.mul_1_r. exact Hsz.
  - assert (V : 0 < virtual /\ reduction r = L) by (unfold reduction, shift, virtual in *; lia). destruct V as [V EL].
    pose proof (ks_smallest Hs V) as Hsm. rewrite EL in *.
    assert (w * zoom r <= W / 2 ^ L /\ h * zoom r <= H / 2 ^ L) as [Aw Ah] by (split; nia).
    eapply Z.le_lt_trans; [|exact Hsm]. apply Z.mul_le_mono_nonneg_r; [lia|]. apply Z.mul_le_mono_nonneg; nia.
Qed.

Lemma place_ok i r x y w h : kdu_describes i -> inside W H ncomp N r x y w h ->
  place i r x y w h = Ok (zoom r, x * zoom r, y * zoom r, w * zoom r, h * zoom r, reduction r).
Proof.
  intros Hd Hin. destruct (zoomed r x y w h Hin) as (Bx & By & Lw & Lh & _). destruct Hin as (Hr & Hx & Hy & Hw & Hh & _).
  destruct (shift_range r Hr) as (S & K & Z0). pose proof few_levels. pose proof (ks_dwt Hs).
  unfold place. rewrite (kd_virtual i Hd), (kd_res i Hd). destruct (Z.ltb_spec r virtual) as [Hv|Hv].
  - assert (Es : virtual - r = shift r) by (unfold shift; lia). rewrite Es.
    assert (E1 : shl_int 1 (shift r) = Ok (zoom r)).
    { unfold shl_int. rewrite Z.mul_1_l. fold (zoom r). rewrite !(proj2 (Z.leb_le _ _)), !(proj2 (Z.ltb_lt _ _)) by lia. reflexivity. }
    rewrite E1, bind_ret. rewrite (u32_small (zoom r)), (u32_small (N - 1)) by lia.
    assert (Ek : u32 (N - 1 - virtual) = reduction r) by (rewrite u32_small; unfold reduction, shift, virtual in *; lia). rewrite Ek.
    assert (0 <= x * zoom r < 2 ^ 24 /\ 0 <= y * zoom r < 2 ^ 24 /\ 0 <= w * zoom r < 2 ^ 25 /\ 0 <= h * zoom r < 2 ^ 25) by nia.
    rewrite !u32_small, !i32_small by lia. reflexivity.
  - assert (Es : shift r = 0) by (unfold shift; lia). unfold zoom, reduction. rewrite Es. change (2 ^ 0) with 1. rewrite !Z.mul_1_r, Z.sub_0_r.
    rewrite (u32_small (N - 1)), u32_small, i32_small by lia. reflexivity.
Qed.

Lemma kdu_cells_ext v1 v2 m : (forall p c, v1 p c = v2 p c) -> kdu_cells bits inverted ncomp v1 m = kdu_cells bits inverted ncomp v2 m.
Proof. intros E. apply list_fmap_ext. intros n j _. rewrite E. reflexivity. Qed.

Lemma decompress_ok i s l r x y w h canvas (d : bytes) :
  kdu_describes i -> inside W H ncomp N r x y w h -> blen d = cell_size bits * (w * h * ncomp) ->
  let f := zoom r in
  (exists s1 s2, apply_input_restrictions 0 ncomp (reduction r) l canvas s = (Ok tt, s1) /\ start s1 = (Ok tt, s2)
     /\ size_x (get_dims s2) = w * f /\ size_y (get_dims s2) = h * f
     /\ pulling l (reduction r) (x * f) (y * f) (w * f) (h * f) 0 s2) ->
  exists s', decompress junk i (r <? virtual_levels i) f (w * f) (h * f) (reduction r) l canvas d s = (Ok (kdu_rect l r x y w h), s')
    /\ opened s'.
Proof.
  intros Hd Hin Hlen f (s1 & s2 & E1 & E2 & Ex & Ey & Hp). pose proof (zoomed r x y w h Hin) as (_ & _ & _ & _ & Hsz). fold f in Hsz.
  pose proof Hin as (Hr & Hx & Hy & Hw & Hh & _ & _ & Hsz0). destruct (shift_range r Hr) as (S & K & Z0). fold f in Z0.
  pose proof ncomp_range as Hn. pose proof (cell_size_pos bits bits_range) as Hc.
  assert (Hwf : 0 < w * f /\ 0 < h * f) by nia. set (k := reduction r) in *.
  unfold decompress. rewrite (kd_ch i Hd), (kd_bpc i Hd), i32_small by lia. change (output_bits bits / 8) with (cell_size bits).
  rewrite (obj_bind_val _ _ _ _ _ E1), (obj_bind_val _ _ _ _ _ E2), obj_get_bind. cbv zeta. rewrite Ex, Ey.
  rewrite !(proj2 (Z.leb_gt _ 0)) by lia. cbn [orb].
  destruct (kf_heights Hf s2 _ _ _ _ _ _ 0 Hp ltac:(lia)) as (t & s3 & E3 & Hp3 & Ht & Ht').
  rewrite (obj_bind_val _ _ _ _ _ E3).
  rewrite (proj2 (rd_ok (replicate (Z.to_nat ncomp) t) 0 t)), obj_lift_bind by (split; [lia|apply lookup_replicate_2; lia]).
  set (b0 := sample_array junk (cell_size bits) (w * f * (h * f) * ncomp)).
  assert (Hb0 : blen b0 = cell_size bits * (w * f * (h * f) * ncomp)) by (unfold b0, sample_array; rewrite u32_small, blen_new_bytes by nia; reflexivity).
  destruct (pull_loop_ok l k (x * f) (y * f) (w * f) (h * f) ltac:(lia) ltac:(lia) Hsz i (kd_ch i Hd) (kd_bpc i Hd) (kd_lut i Hd) b0 Hb0
              (Datatypes.S (Z.to_nat (h * f))) 0 t (sample_array junk (cell_size bits) (w * f * t * ncomp)) s3 Hp3) as (s4 & E4 & Hp4); try lia.
  { assert (w * f * t * ncomp <= w * f * (h * f) * ncomp) by (apply Z.mul_le_mono_nonneg_r; nia).
    unfold sample_array. rewrite u32_small, blen_new_bytes by nia. nia. }
  change (filled_to l k (x * f) (y * f) (w * f) b0 (0 * (w * f) * ncomp)) with b0 in E4. change (0 * (w * f) * ncomp) with 0 in E4.
  rewrite (obj_bind_val _ _ _ _ _ E4). destruct (kf_finish Hf s4 _ _ _ _ _ _ Hp4) as (s5 & E5 & Hp5).
  rewrite (obj_bind_val _ _ _ _ _ E5). cbn [negb]. exists s5. split; [|exact Hp5]. unfold obj_lift. f_equal.
  rewrite (kd_virtual i Hd). unfold cells_to, kdu_rect. destruct (Z.ltb_spec r virtual) as [Hv|Hv].
  - rewrite (shrink_ok f w h) with (val := sample_of l k (x * f) (y * f) (w * f)); try assumption; try lia.
    + do 2 f_equal. apply kdu_cells_ext. intros p c. unfold shrunk, sample_of, level_sample. fold k f.
      pose proof (Z.mod_pos_bound p w Hw). rewrite in_tile, of_tile by nia. f_equal; ring.
    + intros p c. apply (kf_range Hf).
  - assert (Ef : f = 1) by (unfold f, zoom, shift; rewrite Z.max_l by lia; reflexivity).
    assert (El : kdu_cells bits inverted ncomp (sample_of l k (x * f) (y * f) (w * f)) (w * f * (h * f) * ncomp)
                 = kdu_cells bits inverted ncomp (level_sample l r x y w) (w * h * ncomp)).
    { rewrite Ef, !Z.mul_1_r. apply kdu_cells_ext. intros p c. unfold sample_of, level_sample. fold k f. rewrite Ef, !Z.mul_1_r. reflexivity. }
    rewrite El, Ef, !Z.mul_1_r. pose proof (length_kdu_cells bits bits_range inverted ncomp (level_sample l r x y w) (w * h * ncomp) ltac:(nia)) as Hl.
    rewrite u32_small by nia. replace (w * h * ncomp * cell_size bits) with (blen (encode bits (kdu_cells bits inverted ncomp (level_sample l r x y w) (w * h * ncomp)))) by lia.
    apply memcpy_all. lia.
Qed.

Lemma kdu_do_bind {A B} (m : Obj kdu A) (k : A -> Obj KakaduImage B) i s a s' :
  m s = (Ok a, s') -> (kdu_do m ≫= k) (mkKakaduImage i s) = k a (mkKakaduImage i s').
Proof. intros E. unfold mbind, Obj_bind, kdu_do. cbn [library image]. rewrite E. reflexivity. Qed.

Lemma on_image_bind {B} f (k : unit -> Obj KakaduImage B) i s : (on_image f ≫= k) (mkKakaduImage i s) = k tt (mkKakaduImage (f i) s).
Proof. reflexivity. Qed.

Lemma kdu_process_ok i o r layers x y w h d :
  kdu_describes i -> kdu_inv i o -> is_i32 layers -> inside W H ncomp N r x y w h -> blen d = cell_size bits * (w * h * ncomp) ->
  exists o', process junk r layers x y w h d o = (Ok (kdu_rect (decoded_layers Q layers) r x y w h), o') /\ kdu_inv i o'.
Proof.
  intros Hd [Eo Ho] Hl Hin Hlen. destruct o as [i' s]. cbn [image library] in *. subst i'.
  pose proof (decoded_layers_pos _ _ _ _ _ _ _ (ks_geometry Hs) layers Hl) as Pl. set (l := decoded_layers Q layers) in *.
  pose proof (zoomed r x y w h Hin) as (Bx & By & Lw & Lh & Hsz).
  pose proof Hin as (Hr & Hx & Hy & Hw & Hh & _). destruct (shift_range r Hr) as (S & K & Z0). unfold process.
  rewrite obj_get_bind. cbn [image]. rewrite (place_ok i r x y w h Hd Hin), obj_lift_bind, (kd_layers i Hd). fold l.
  rewrite !i32_small by nia. rewrite obj_get_bind. cbn [library]. rewrite (kf_exists Hf s Ho). cbn [negb].
  destruct (kf_start Hf s l (reduction r) (x * zoom r) (y * zoom r) (w * zoom r) (h * zoom r) Ho)
    as (s1 & canvas & s2 & s3 & s4 & E1 & E2 & E3 & E4 & Ex & Ey & Hp); [lia|lia|nia|nia|nia|nia|nia|nia|].
  rewrite (kdu_do_bind _ _ _ _ _ _ E1), (kdu_do_bind _ _ _ _ _ _ E2).
  destruct (decompress_ok i s2 l r x y w h canvas d Hd Hin Hlen) as (s5 & E5 & H5); [exists s3, s4; auto 10|].
  exists (mkKakaduImage i s5). split; [|split; [reflexivity|exact H5]].
  unfold kdu_do, obj_catch. cbn [library image]. rewrite E5. reflexivity.
Qed.

(** ** Tiles and regions *)

(** A rectangle as the class returns it. *)
Definition kdu_tile (tile r seq ang layers x y w h : Z) (i : IIPImage) : RawTile :=
  (new_RawTile tile r seq ang w h ncomp (output_bits bits))
    <| RawTile.dataLength := cell_size bits * (w * h * ncomp) |> <| RawTile.filename := imagePath i |>
    <| RawTile.timestamp := time |> <| RawTile.data := Some (kdu_rect (decoded_layers Q layers) r x y w h) |>.

Lemma kdu_decode_into_ok i o tile r seq ang layers x y w h :
  kdu_describes i -> kdu_inv i o -> is_i32 layers -> inside W H ncomp N r x y w h ->
  exists o', decode_into junk tile r seq ang layers x y w h o = (Ok (kdu_tile tile r seq ang layers x y w h i), o') /\ kdu_inv i o'.
Proof.
  intros Hd Ho Hl Hin. pose proof Hin as (Hr & Hx & Hy & Hw & Hh & Hxw & Hyh & Hsz).
  pose proof bits_range as Hb. pose proof ncomp_range as Hc. assert (P : 0 < w * h * ncomp) by nia.
  unfold decode_into. rewrite obj_get_bind, (proj1 Ho), (kd_bpc i Hd), (kd_ch i Hd), (kd_time i Hd). fold (cell_size bits).
  pose proof (cell_size_pos bits Hb).
  assert (En : new_samples junk (output_bits bits) (w * h * ncomp) = Ok (sample_array junk (cell_size bits) (w * h * ncomp))).
  { unfold new_samples. destruct (cell_cases bits Hb) as [[-> ->]|[-> ->]]; reflexivity. }
  rewrite En, obj_lift_bind.
  destruct (kdu_process_ok i o r layers x y w h (sample_array junk (cell_size bits) (w * h * ncomp)) Hd Ho Hl Hin) as (o' & E & Ho').
  { unfold sample_array. rewrite u32_small, blen_new_bytes by nia. reflexivity. }
  rewrite (obj_bind_val _ _ _ _ _ E). exists o'. split; [|exact Ho'].
  rewrite u32_small by nia. unfold kdu_tile. replace (w * h * ncomp * cell_size bits) with (cell_size bits * (w * h * ncomp)) by ring.
  reflexivity.
Qed.

Lemma kdu_getTile_ok i o seq ang r layers n :
  kdu_describes i -> kdu_inv i o -> is_i32 layers -> 0 <= r < N -> 0 <= n ->
  let k := N - 1 - r in
  exists o', getTile junk seq ang r layers n o
      = ((if tile_count W H k <=? n then throw (ExnFile ("Kakadu :: Asked for non-existent tile: " +:+ dec n))
          else Ok (kdu_tile n r seq ang layers (tile_x W k n) (tile_y W k n) (tile_w W k n) (tile_h W H k n) i)), o')
    /\ kdu_inv i o'.
Proof.
  intros Hd Ho Hl Hr Hn k. pose proof few_levels. pose proof (ks_geometry Hs) as G.
  unfold getTile. rewrite obj_get_bind, (proj1 Ho), (kd_res i Hd), (kd_tw i Hd), (kd_th i Hd), (proj2 (Z.ltb_ge _ _)) by lia.
  rewrite (u32_small (N - 1)), u32_small, i32_small by lia. fold k.
  rewrite (proj2 (rd_ok (image_widths i) k (level_w W k))), obj_lift_bind by (split; [lia|apply (kd_widths i Hd); lia]).
  rewrite (proj2 (rd_ok (image_heights i) k (level_h H k))), obj_lift_bind by (split; [lia|apply (kd_heights i Hd); lia]).
  rewrite (tile_place_ok _ _ _ _ _ _ _ G k n), obj_lift_bind by lia.
  destruct (Z.leb_spec (tile_count W H k) n) as [Hc|Hc].
  - exists o. split; [reflexivity|exact Ho].
  - destruct (tile_inside _ _ _ _ _ _ _ G r n Hr) as [Hin _]; [fold k; lia|]. apply kdu_decode_into_ok; assumption.
Qed.

(** ** Opening *)

(** The sizes of all levels. *)
Lemma kdu_load_levels_ok i :
  image_widths i = [] -> image_heights i = [] -> tile_width i = TILESIZE -> tile_height i = TILESIZE -> virtual_levels i = 0 ->
  exists a b c, let M := Z.max (Z.max 1 L) N in
    load_levels layer C L bits i
    = Ok (i <| IIPImage.channels := C |> <| IIPImage.bpc := bits |> <| dpi_x := a |> <| dpi_y := b |> <| dpi_units := c |>
            <| image_widths := halves W 0 M |> <| image_heights := halves H 0 M |>
            <| virtual_levels := virtual |> <| numResolutions := N |>).
Proof.
  intros Hiw Hih Htw Hth Hv. pose proof (ks_geometry Hs) as G. pose proof (js_w _ _ _ _ _ _ _ G). pose proof (js_h _ _ _ _ _ _ _ G).
  pose proof (ks_dwt Hs). destruct (kf_size Hf) as [Ex Ey]. unfold load_levels. rewrite Ex, Ey, !(u32_small W), !(u32_small H) by lia.
  set (i0 := (push_size W H i) <| IIPImage.channels := C |> <| IIPImage.bpc := bits |>).
  destruct (capture_resolution_ok layer i0) as (a & b & c & Ec). exists a, b, c. rewrite Ec.
  set (i1 := i <| IIPImage.channels := C |> <| IIPImage.bpc := bits |> <| dpi_x := a |> <| dpi_y := b |> <| dpi_units := c |>).
  change (i0 <| dpi_x := a |> <| dpi_y := b |> <| dpi_units := c |>) with (push_size W H i1).
  destruct (all_levels_ok i1 L W H Hiw Hih Htw Hth) as (M & HM & Hfit & Hleast & E1 & E2 & E3); [lia..|].
  assert (M = N) as -> by (eapply levels_unique; [exact G|lia|exact Hfit|exact Hleast]).
  cbv zeta in *. rewrite E1, bind_ret, E2, bind_ret, E3, bind_ret. apply (f_equal Ok).
  assert (Ev : (if L <? N then u32 (N - L - 1) else virtual_levels i) = virtual).
  { rewrite Hv. unfold virtual. pose proof few_levels. destruct (Z.ltb_spec L N); [rewrite u32_small|]; lia. }
  rewrite <- Ev. destruct (L <? N); reflexivity.
Qed.

(** An image of which nothing is known but its path. *)
Definition kdu_unopened (i : IIPImage) : Prop := unopened fs path time i /\ lut i = [] /\ virtual_levels i = 0.

Lemma kdu_loadImageInfo_ok i s seq ang :
  image_widths i = [] -> image_heights i = [] -> tile_width i = TILESIZE -> tile_height i = TILESIZE -> virtual_levels i = 0 ->
  lut i = [] -> IIPImage.timestamp i = time -> opened s ->
  c_str (getFileName (currentX i) (currentY i) i) = path -> (exists b, fs_stat fs path = Some (b, time)) ->
  exists o, loadImageInfo seq ang (mkKakaduImage i s) = (Ok tt, o) /\ kdu_describes (image o) /\ opened (library o)
    /\ imagePath (image o) = imagePath i.
Proof.
  intros Hiw Hih Htw Hth Hv Hl Ht Ho Hp Hst. pose proof (ks_geometry Hs) as G. pose proof (ks_dwt Hs). pose proof (ks_components Hs).
  pose proof bits_range. pose proof (js_layers _ _ _ _ _ _ _ G). destruct (ks_palette Hs) as [Hpal Hfalls].
  destruct (kf_layer Hf s Ho) as (s1 & E1 & O1). destruct (kf_info Hf s1 O1) as (I1 & I2 & I3).
  destruct (kf_layers Hf s1 O1) as (s2 & E2 & O2). unfold loadImageInfo.
  assert (Ec : obj_catch (kdu_do access_layer) (file_error "Kakadu :: Core Exception Caught During Metadata Extraction") (mkKakaduImage i s)
               = (Ok layer, mkKakaduImage i s1)) by (unfold obj_catch, kdu_do; cbn [library image]; rewrite E1; reflexivity).
  rewrite (obj_bind_val _ _ _ _ _ Ec), obj_get_bind. cbn [library image]. rewrite I1, I2, I3, !u32_small by lia.
  destruct (kdu_load_levels_ok i Hiw Hih Htw Hth Hv) as (a & b & c & EL). rewrite EL, obj_lift_bind, on_image_bind.
  set (j := i <| IIPImage.channels := C |> <| IIPImage.bpc := bits |> <| dpi_x := a |> <| dpi_y := b |> <| dpi_units := c |>
              <| image_widths := _ |> <| image_heights := _ |> <| virtual_levels := virtual |> <| numResolutions := N |>) in *.
  rewrite (load_lut_ok layer values j Hpal), obj_lift_bind, on_image_bind.
  rewrite (kdu_do_bind _ _ _ _ _ _ E2). unfold on_image, obj_set. cbn [library image].
  eexists. split; [reflexivity|]. cbn [library image].
  destruct (load_colour_ok layer (j <| lut := lut j ++ values |>)) as (m & cs & ->). unfold load_channels. cbv zeta.
  match goal with |- context [fold_left _ (range 0 (IIPImage.channels ?k)) ?k] =>
    destruct (kdu_channel_ranges (range 0 (IIPImage.channels k)) k) as (mn & mx & ->) end.
  assert (El : lut j ++ values = values) by (change (lut j) with (lut i); rewrite Hl; reflexivity).
  split; [|split; [exact O2|destruct (_ =? 1); reflexivity]].
  assert (Hlev : forall v k, 0 <= k < N -> halves v 0 (Z.max (Z.max 1 L) N) !! Z.to_nat k = Some (v / 2 ^ k))
    by (intros; apply lookup_halves; lia).
  constructor.
  - intros k Hk. unfold level_w. rewrite <- (Hlev W k Hk). destruct (_ =? 1); reflexivity.
  - intros k Hk. unfold level_h. rewrite <- (Hlev H k Hk). destruct (_ =? 1); reflexivity.
  - destruct (_ =? 1); reflexivity.
  - destruct (_ =? 1); exact Htw.
  - destruct (_ =? 1); exact Hth.
  - destruct (_ =? 1); reflexivity.
  - unfold ncomp, decoded_components. match goal with |- context [IIPImage.bpc ?k =? 1] => change (IIPImage.bpc k) with bits end.
    destruct (bits =? 1); reflexivity.
  - destruct (_ =? 1); reflexivity.
  - transitivity (u32 Q); [destruct (_ =? 1); reflexivity|apply u32_small; lia].
  - apply (falls_inverted _ values); [|exact Hfalls]. transitivity (lut j ++ values); [destruct (_ =? 1); reflexivity|exact El].
  - destruct (_ =? 1); exact Hp.
  - destruct (_ =? 1); exact Ht.
  - exact Hst.
Qed.

Lemma required_bind {B} (m : Obj kdu bool) msg (k : unit -> Obj KakaduImage B) i s s' :
  m s = (Ok true, s') -> (required m msg ≫= k) (mkKakaduImage i s) = k tt (mkKakaduImage i s').
Proof.
  intros E. apply obj_bind_val. unfold required, obj_catch. rewrite (kdu_do_bind _ _ _ _ _ _ E). reflexivity.
Qed.

(** Opening, up to the description. *)
Lemma open_steps i :
  c_str (getFileName (currentX i) (currentY i) i) = path -> (exists b, fs_stat fs path = Some (b, time)) ->
  exists s, opened s /\ openImage fs mode (mkKakaduImage i kdu_objects)
    = obj_when (IIPImage.bpc i =? 0) (loadImageInfo (currentX i) (currentY i)) (mkKakaduImage (i <| IIPImage.timestamp := time |>) s).
Proof.
  intros Hp [b Hst]. destruct (kf_open Hf) as (s1 & s2 & s3 & E1 & E2 & E3 & E4 & Ho).
  exists (set_read_mode (the_mode mode) s3). split; [apply Ho|]. unfold openImage. rewrite obj_get_bind. cbn [image].
  unfold updateTimestamp. rewrite Hp, Hst, obj_lift_bind, on_image_bind.
  rewrite (required_bind _ _ _ _ _ _ E1), (required_bind _ _ _ _ _ _ E2), (kdu_do_bind _ _ _ _ _ _ E3), obj_get_bind. cbn [library].
  rewrite E4. cbn [negb]. rewrite (kdu_do_bind (obj_set (set_read_mode (the_mode mode))) _ _ s3 tt _ eq_refl). reflexivity.
Qed.

Lemma kdu_openImage_ok i : kdu_unopened i ->
  exists o, openImage fs mode (of_image i) = (Ok tt, o) /\ kdu_describes (image o) /\ kdu_inv (image o) o /\ imagePath (image o) = imagePath i.
Proof.
  intros (Hu & Hl & Hv). unfold of_image. set (j := i <| tile_width := TILESIZE |> <| tile_height := TILESIZE |>).
  destruct (open_steps j (un_path _ _ _ _ Hu) (un_stat _ _ _ _ Hu)) as (s & Ho & E). rewrite E. change (IIPImage.bpc j) with (IIPImage.bpc i).
  rewrite (un_bpc _ _ _ _ Hu). change (0 =? 0) with true. cbn [obj_when].
  destruct (kdu_loadImageInfo_ok (j <| IIPImage.timestamp := time |>) s (currentX j) (currentY j)) as (o & EO & Hd & Ho' & Hp); try reflexivity;
    try exact Ho; try exact (un_widths _ _ _ _ Hu); try exact (un_heights _ _ _ _ Hu); try exact Hl; try exact Hv;
    try exact (un_path _ _ _ _ Hu); try exact (un_stat _ _ _ _ Hu).
  exists o. split; [exact EO|]. split; [exact Hd|]. split; [split; [reflexivity|exact Ho']|exact Hp].
Qed.

(** An image that was loaded before is as it was. *)
Lemma kdu_reopen_ok i : kdu_describes i -> exists o, openImage fs mode (of_image i) = (Ok tt, o) /\ kdu_inv i o.
Proof.
  intros Hd. unfold of_image.
  assert (E0 : i <| tile_width := TILESIZE |> <| tile_height := TILESIZE |> = i).
  { assert (G : forall a b, tile_width i = a -> tile_height i = b -> i <| tile_width := a |> <| tile_height := b |> = i)
      by (intros a b <- <-; destruct i; reflexivity).
    apply G; [exact (kd_tw i Hd)|exact (kd_th i Hd)]. }
  rewrite E0. destruct (open_steps i (kd_path i Hd) (kd_stat i Hd)) as (s & Ho & E). rewrite E, (kd_bpc i Hd).
  pose proof bits_range. rewrite (proj2 (Z.eqb_neq bits 0)) by lia. cbn [obj_when].
  assert (Et : i <| IIPImage.timestamp := time |> = i) by (rewrite <- (kd_time i Hd); destruct i; reflexivity). rewrite Et.
  eexists. split; [reflexivity|]. split; [reflexivity|exact Ho].
Qed.

(** ** A source for the tile manager *)

(** The byte [c] of a pixel: that of the cell of its component. *)
Definition kdu_byte (layers r x y c : Z) : Z :=
  nth (Z.to_nat (c mod cell_size bits))
    (le_encode (Z.to_nat (cell_size bits))
       (kdu_shown bits inverted (sample (decoded_layers Q layers) (reduction r) (c / cell_size bits) (x * zoom r) (y * zoom r)))) 0.

Lemma kdu_level_sizes i r w h :
  kdu_describes i -> 0 <= r < N -> level_width i r = Ok w -> level_height i r = Ok h ->
  w = level_w W (N - 1 - r) /\ h = level_h H (N - 1 - r).
Proof.
  intros Hd Hr Hw Hh. unfold level_width, level_height in *. rewrite (kd_res i Hd) in *.
  replace (N - r - 1) with (N - 1 - r) in * by lia. apply rd_ok in Hw as [_ Hw]. apply rd_ok in Hh as [_ Hh].
  rewrite (kd_widths i Hd) in Hw by lia. rewrite (kd_heights i Hd) in Hh by lia. split; congruence.
Qed.

Lemma kdu_pixel_bytes i : kdu_describes i -> bits = 8 \/ bits = 16 -> pixel_bytes i = ncomp * cell_size bits.
Proof. intros Hd [E|E]; unfold pixel_bytes; rewrite (kd_ch i Hd), (kd_bpc i Hd), E; reflexivity. Qed.

Lemma kdu_tile_decoded seq ang i r layers w h n :
  kdu_describes i -> bits = 8 \/ bits = 16 -> 0 <= r < N -> level_width i r = Ok w -> level_height i r = Ok h ->
  0 <= n < ntiles w (tile_width i) * ntiles h (tile_height i) ->
  let k := N - 1 - r in
  decoded i seq ang (kdu_byte layers) r w h n (kdu_tile n r seq ang layers (tile_x W k n) (tile_y W k n) (tile_w W k n) (tile_h W H k n) i).
Proof.
  intros Hd Hb Hr Hw Hh Hn k. destruct (kdu_level_sizes i r w h Hd Hr Hw Hh) as [-> ->]. fold k in Hn |- *.
  rewrite (kd_tw i Hd), (kd_th i Hd) in Hn. pose proof ncomp_range as Hc. pose proof (cell_size_pos bits bits_range) as Hz.
  destruct (tile_inside _ _ _ _ _ _ _ (ks_geometry Hs) r n Hr Hn) as [(_ & Px & Py & Pw & Ph & _ & _ & Ps) [Tw Th]].
  fold k in Px, Py, Pw, Ph, Ps, Tw, Th. unfold TILESIZE in Tw, Th.
  assert (Eout : output_bits bits = IIPImage.bpc i) by (rewrite (kd_bpc i Hd); destruct Hb as [-> | ->]; reflexivity).
  assert (Ew : Region.tile_w i (level_w W k) n = tile_w W k n)
    by (unfold Region.tile_w, tile_w, tile_col, tile_x; rewrite (kd_tw i Hd); reflexivity).
  assert (Eh : Region.tile_h i (level_w W k) (level_h H k) n = tile_h W H k n)
    by (unfold Region.tile_h, tile_h, tile_row, tile_y; rewrite (kd_tw i Hd), (kd_th i Hd); reflexivity).
  set (tx := tile_x W k n) in *. set (ty := tile_y W k n) in *. set (tw := tile_w W k n) in *. set (th := tile_h W H k n) in *.
  constructor; unfold kdu_tile; cbn; rewrite ?Ew, ?Eh.
  - constructor; reflexivity.
  - apply u32_small. lia.
  - apply u32_small. lia.
  - symmetry. apply (kd_ch i Hd).
  - exact Eout.
  - symmetry. apply (kd_time i Hd).
  - pose proof (length_kdu_cells bits bits_range inverted ncomp (level_sample (decoded_layers Q layers) r tx ty tw) (tw * th * ncomp) ltac:(nia)) as Hl.
    symmetry in Hl. change (cell_size bits * (tw * th * ncomp) = blen (kdu_rect (decoded_layers Q layers) r tx ty tw th)) in Hl.
    exists (kdu_rect (decoded_layers Q layers) r tx ty tw th). split; [reflexivity|]. split; [exact Hl|].
    rewrite <- Hl, (kdu_pixel_bytes i Hd Hb). split; [ring|]. unfold holds. rewrite (kdu_pixel_bytes i Hd Hb).
    intros y x c Hy Hx Hcc. unfold kdu_rect, kdu_cells.
    rewrite (lookup_encoded bits bits_range ncomp tw th (fun p c => kdu_shown bits inverted (level_sample (decoded_layers Q layers) r tx ty tw p c)))
      by (assumption || lia).
    unfold level_sample, kdu_byte. rewrite in_tile, of_tile by lia. unfold tile_col, tile_row. rewrite (kd_tw i Hd), (kd_th i Hd). reflexivity.
Qed.

Lemma kdu_source seq ang layers i :
  kdu_describes i -> bits = 8 \/ bits = 16 -> nameable (imagePath i) -> is_i32 seq -> is_i32 ang -> is_i32 layers ->
  source_ok (codec := KDU_codec fs junk mode) i seq ang layers (kdu_byte layers).
Proof.
  intros Hd Hb Hn Hseq Hang Hl. pose proof ncomp_range. pose proof few_levels. pose proof (ks_geometry Hs) as G.
  constructor; rewrite ?(kd_tw i Hd), ?(kd_th i Hd), ?(kd_ch i Hd), ?(kd_bpc i Hd), ?(kd_res i Hd).
  - split; reflexivity.
  - split; reflexivity.
  - lia.
  - tauto.
  - lia.
  - exact Hn.
  - exact Hseq.
  - exact Hang.
  - rewrite (kdu_pixel_bytes i Hd Hb). pose proof (cell_size_pos bits bits_range). unfold TILESIZE. nia.
  - intros r w h Hr Hw Hh. destruct (kdu_level_sizes i r w h Hd Hr Hw Hh) as [-> ->].
    destruct (level_range _ _ _ _ _ _ _ G (N - 1 - r)) as [Lw Lh]; [lia|].
    destruct (tiles_range _ _ _ _ _ _ _ G (N - 1 - r)) as (_ & _ & Lc); [lia|].
    pose proof (js_w _ _ _ _ _ _ _ G). pose proof (js_h _ _ _ _ _ _ _ G). unfold tile_count in Lc. lia.
  - intros r w h n Hr Hw Hh Ht. pose proof Ht as Ht'. eexists. split.
    + cbn [codec_getTile KDU_codec]. destruct (kdu_level_sizes i r w h Hd Hr Hw Hh) as [-> ->].
      destruct (kdu_reopen_ok i Hd) as (o & E & Ho).
      destruct (kdu_getTile_ok i o seq ang r layers n Hd Ho Hl Hr ltac:(lia)) as (o' & E' & _).
      unfold after_open, obj_run. rewrite (obj_bind_val _ _ _ _ _ E), E'.
      unfold tile_count. rewrite (proj2 (Z.leb_gt _ _)) by lia. reflexivity.
    + apply kdu_tile_decoded; rewrite ?(kd_tw i Hd), ?(kd_th i Hd); assumption.
Qed.
End File.

(** ** Properties *)

(** Requests to one object. *)
Fixpoint run_kdu {lib : Kakadu} (junk : Z -> Z) (seq ang layers : Z) (qs : list jp2_request) (o : KakaduImage) : list (res RawTile) :=
  match qs with
  | [] => []
  | q :: qs =>
      let '(t, o) := match q with
                     | TileOf r n => getTile junk seq ang r layers n o
                     | AreaOf r x y w h => getRegion junk seq ang r layers x y w h o
                     end in
      t :: run_kdu junk seq ang layers qs o
  end.

(** What they are answered with: the samples of the file, or an exception for a tile
    that does not exist. *)
Definition kdu_answer (time W H L Q C bits : Z) (inverted : bool) (sample : Z -> Z -> Z -> Z -> Z -> Z) (N seq ang layers : Z)
    (i : IIPImage) (q : jp2_request) : res RawTile :=
  match q with
  | TileOf r n =>
      let k := N - 1 - r in
      if tile_count W H k <=? n then throw (ExnFile ("Kakadu :: Asked for non-existent tile: " +:+ dec n))
      else Ok (kdu_tile time L Q C bits inverted sample N n r seq ang layers (tile_x W k n) (tile_y W k n) (tile_w W k n) (tile_h W H k n) i)
  | AreaOf r x y w h => Ok (kdu_tile time L Q C bits inverted sample N 0 r seq ang layers x y w h i)
  end.

(** C12. A JPEG 2000 file through Kakadu, of up to 16 bits, any number of components and
    any number of levels in the file: whatever heights of stripes the library recommends,
    for every sequence of requests to one object the tiles and regions are the samples of
    the file, in the order of lines, columns and components, and at the levels that are
    not in the file every second, fourth and so on of the smallest that is; bits are
    scaled to bytes, and inverted if the palette falls.  The codec answers the same, and
    for 8 and 16 bits it is a source the tile manager can rely on. *)
Theorem kdu_requests_exact {lib : Kakadu} (fs : FileSystem) (junk : Z -> Z) (mode : Z) (path : string)
    (time W H L Q C bits : Z) (layer : jpx_layer) (values : list Z) (inverted : bool) (sample : Z -> Z -> Z -> Z -> Z -> Z)
    (opened : kdu -> Prop) (pulling : Z -> Z -> Z -> Z -> Z -> Z -> Z -> kdu -> Prop) (N seq ang layers : Z) (i : IIPImage)
    (qs : list jp2_request) :
  kdu_file path W H L Q C bits layer sample opened pulling ->
  kdu_sizes W H L Q C bits layer values inverted N -> kdu_unopened fs path time i -> is_i32 layers ->
  Forall (valid_jp2 W H (decoded_components bits C) N) qs ->
  exists o, openImage fs mode (of_image i) = (Ok tt, o)
    /\ run_kdu junk seq ang layers qs o = kdu_answer time W H L Q C bits inverted sample N seq ang layers (image o) <$> qs
    /\ (fun q => match q with
                 | TileOf r n => codec_getTile (Codec := KDU_codec fs junk mode) (image o) seq ang r layers n
                 | AreaOf r x y w h => codec_getRegion (Codec := KDU_codec fs junk mode) (image o) seq ang r layers x y w h
                 end) <$> qs = run_kdu junk seq ang layers qs o
    /\ (bits = 8 \/ bits = 16 -> nameable (imagePath i) -> is_i32 seq -> is_i32 ang ->
        source_ok (codec := KDU_codec fs junk mode) (image o) seq ang layers (kdu_byte L Q bits inverted sample N layers)).
Proof.
  intros Hf Hs Hu Hl Hq.
  destruct (kdu_openImage_ok fs mode path time W H L Q C bits layer values inverted sample opened pulling N Hf Hs i Hu)
    as (o & E & Hd & Ho & Hp).
  exists o. split; [exact E|]. rewrite <- Hp. clear E Hp. remember (image o) as j eqn:Ej. clear Ej.
  assert (G : forall q o, valid_jp2 W H (decoded_components bits C) N q -> kdu_inv opened j o -> exists o',
    match q with TileOf r n => getTile junk seq ang r layers n o | AreaOf r x y w h => getRegion junk seq ang r layers x y w h o end
    = (kdu_answer time W H L Q C bits inverted sample N seq ang layers j q, o') /\ kdu_inv opened j o').
  { clear o Ho. intros [r n|r x y w h] o Hv Ho; cbn [valid_jp2 kdu_answer] in *.
    - destruct Hv as [Hr Hn]. eapply kdu_getTile_ok; eassumption.
    - eapply kdu_decode_into_ok; eassumption. }
  assert (R : run_kdu junk seq ang layers qs o = kdu_answer time W H L Q C bits inverted sample N seq ang layers j <$> qs).
  { revert o Ho. induction Hq as [|q qs Hv Hq IH]; intros o Ho; [reflexivity|]. cbn [run_kdu fmap list_fmap].
    destruct (G q o Hv Ho) as (o' & -> & Ho'). rewrite IH by exact Ho'. reflexivity. }
  split; [exact R|]. split.
  - rewrite R. apply list_fmap_ext. intros n q Hn. rewrite Forall_lookup in Hq. specialize (Hq n q Hn).
    destruct (kdu_reopen_ok fs mode path time W H L Q C bits layer values inverted sample opened pulling N Hf Hs j Hd) as (o1 & E1 & Ho1).
    destruct (G q o1 Hq Ho1) as (o2 & E2 & _). destruct q; cbn [codec_getTile codec_getRegion KDU_codec];
      unfold after_open, obj_run; rewrite (obj_bind_val _ _ _ _ _ E1), E2; destruct (kdu_answer _ _ _ _ _ _ _ _ _ _ _ _ _ _ _); reflexivity.
  - intros Hb Hn Hseq Hang. eapply kdu_source; eassumption.
Qed.

(** ** A small library

    A file of two 8-bit components; the codestream remembers the last restriction and
    how many rows were pulled, first one and then two at a time. *)

Definition small_kdu_sample (l k c x y : Z) : Z := (50 * k + 100 * c + 10 * y + x) mod 256.

Inductive small_state :=
| Closed
| Opened
| Restricted (l k : Z) (canvas : kdu_dims)
| Pulling (l k x y w h done : Z).

Definition small_kakadu (W H L : Z) : Kakadu := {|
  kdu := small_state;
  kdu_objects := Closed;
  jpx_open := fun f s => (Ok (bool_decide (f = "small.jp2")), Closed);
  access_codestream := mret true;
  create_codestream := fun s => (Ok tt, Opened);
  codestream_exists := fun s => match s with Closed => false | _ => true end;
  set_read_mode := fun _ s => s;
  access_layer := mret (mkLayer W H (of_Z b32 2000) (of_Z b32 1) "" None);
  get_num_components := fun _ => 2;
  get_min_dwt_levels := fun _ => L;
  get_bit_depth := fun _ => 8;
  get_max_tile_layers := mret 3;
  apply_input_restrictions := fun _ _ k l dims s => (Ok tt, Restricted l k dims);
  map_region := fun d s =>
    match s with
    | Restricted l k _ => (Ok (mkDims (pos_x d * 2 ^ k) (pos_y d * 2 ^ k) (size_x d * 2 ^ k) (size_y d * 2 ^ k)), s)
    | _ => (throw (ExnCode 1), s)
    end;
  start := fun s =>
    match s with
    | Restricted l k d => (Ok tt, Pulling l k (pos_x d / 2 ^ k) (pos_y d / 2 ^ k) (size_x d / 2 ^ k) (size_y d / 2 ^ k) 0)
    | _ => (throw (ExnCode 1), s)
    end;
  get_dims := fun s => match s with Pulling _ _ x y w h _ => mkDims x y w h | _ => mkDims 0 0 0 0 end;
  get_recommended_stripe_heights := fun _ _ s =>
    match s with
    | Pulling l k x y w h done => let t := if done =? 0 then 1 else Z.min 2 (h - done) in (Ok [t; t], s)
    | _ => (throw (ExnCode 1), s)
    end;
  pull_stripe := fun _ heights _ s =>
    match s, heights with
    | Pulling l k x y w h done, t :: _ => (Ok (stripe 2 8 small_kdu_sample l k x y w done t, done + t <? h), Pulling l k x y w h (done + t))
    | _, _ => (throw (ExnCode 1), s)
    end;
  finish := fun s => (Ok true, Opened);
  close_all := fun _ => Closed
|}.

(** Four levels, of 1200 x 9, 600 x 4, 300 x 2 and 150 x 1 pixels; the last two are not
    in the file. *)
#[local] Instance small_kdu_lib : Kakadu := small_kakadu 1200 9 1.

Lemma small_kdu_file :
  kdu_file "small.jp2" 1200 9 1 3 2 8 (mkLayer 1200 9 (of_Z b32 2000) (of_Z b32 1) "" None) small_kdu_sample
    (fun s => s = Opened) (fun l k x y w h done s => s = Pulling l k x y w h done).
Proof.
  assert (Hc : decoded_components 8 2 = 2) by reflexivity. constructor.
  - exists Closed, Closed, Opened. repeat split.
  - intros s ->. reflexivity.
  - intros s ->. eexists. split; reflexivity.
  - split; reflexivity.
  - intros s ->. repeat split.
  - intros s ->. eexists. split; reflexivity.
  - intros l k c x y. change (256 ^ cell_size 8) with 256. apply Z.mod_pos_bound. lia.
  - intros s l k x y w h -> Hl Hk Hx Hy Hw Hh _ _. eexists _, _, _, _, _. split; [reflexivity|]. split; [reflexivity|]. split; [reflexivity|].
    split; [reflexivity|]. cbn [get_dims small_kdu_lib small_kakadu size_x size_y pos_x pos_y]. rewrite !Z.div_mul by (apply Z.pow_nonzero; lia).
    repeat split.
  - intros s l k x y w h done -> Hd. eexists _, _. split; [reflexivity|]. split; [reflexivity|]. destruct (Z.eqb_spec done 0); lia.
  - intros s l k x y w h done t -> Ht Hd. eexists. split; reflexivity.
  - intros s l k x y w h ->. eexists. split; reflexivity.
Qed.

Lemma small_kdu_sizes : kdu_sizes 1200 9 1 3 2 8 (mkLayer 1200 9 (of_Z b32 2000) (of_Z b32 1) "" None) [] false 4.
Proof.
  constructor; try (unfold virtual; lia); [|vm_compute; auto|split; reflexivity].
  constructor; change (ncomp 2 8) with 2; try lia; try reflexivity.
  - split; vm_compute; congruence.
  - intros k Hk. assert (k = 0 \/ k = 1 \/ k = 2) as [-> |[-> | ->]] by lia; intros [F _]; vm_compute in F; apply F; reflexivity.
  - split; reflexivity.
Qed.

(** Five lines of the full image, in three stripes; two pixels of the smallest level; a
    tile there is none of. *)
Definition small_kdu_requests : list jp2_request := [AreaOf 3 7 2 1 5; AreaOf 0 148 0 2 1; TileOf 1 5].

Lemma kdu_requests_exact_witness :
  exists o, openImage small_files 2 (of_image small_image) = (Ok tt, o)
    /\ ((fun t => match t with Ok t => RawTile.data t | Err _ => None end) <$> run_kdu (fun _ => 9) 0 90 0 small_kdu_requests o)
       = [Some [27; 127; 37; 137; 47; 147; 57; 157; 67; 167]; Some [130; 230; 134; 234]; None].
Proof.
  destruct (kdu_requests_exact (lib := small_kdu_lib) small_files (fun _ => 9) 2 "small.jp2" 7 1200 9 1 3 2 8 _ [] false small_kdu_sample
              _ _ 4 0 90 0 small_image small_kdu_requests small_kdu_file small_kdu_sizes) as (o & E & Er & _).
  - split; [exact small_jp2_unopened|split; reflexivity].
  - split; vm_compute; congruence.
  - unfold small_kdu_requests. forall_elements ltac:(vm_compute; repeat split; congruence).
  - exists o. split; [exact E|]. rewrite Er. vm_compute. reflexivity.
Defined.

(** ** Where the class goes wrong *)

Definition small_kdu_opened : KakaduImage := (openImage small_files 2 (of_image small_image)).2.

(** The resolution after the last one is not refused. *)
Lemma kdu_resolution_after_last : (getTile (fun _ => 9) 0 90 4 0 0 small_kdu_opened).1 = Err (Undefined "read before buffer").
Proof. vm_compute. reflexivity. Qed.

(** The server asks for the read mode 2 of its configuration: the class never gets it,
    and what it uses is whatever its memory held. *)
Lemma kdu_read_mode_unset : the_mode 2 = RESILIENT /\ the_mode 0 = FAST /\ the_mode 170 = FAST.
Proof. repeat split. Qed.

(** Loading again adds the sizes to those of the first time. *)
Lemma kdu_reload_adds :
  image_widths (image (loadImageInfo 0 90 small_kdu_opened).2) = [1200; 600; 300; 150; 1200; 600; 300; 150].
Proof. vm_compute. reflexivity. Qed.
