(* ===== verification/Transforms.v ===== *)
(** * Geometric image transforms (src/src/Transforms.cc)

    Flipping, rotation, removal of bands, conversion to grey and to black and
    white, and resampling.  They work on the bytes of 8-bit tiles; index
    arithmetic wraps at the width of the source's index types.  The OpenMP
    pragmas are not modelled: the loops run in order.  The other transforms are
    in [ColourTransforms.v] and [Histogram.v]. *)
From stdpp Require Import base strings list numbers.
From Stdlib Require Import ZArith Lia Ascii.
From coqutil Require Import Datatypes.RecordSetters.
From S2P Require Import Prelude CString CFloat RawTile.
Import TriangleBracketNotations.
#[local] Open Scope string_scope.
#[local] Open Scope list_scope.
#[local] Open Scope Z_scope.

(** The bytes a tile points to; a NULL pointer has none, so that every access
    through it is [undef]. *)
Definition tile_data (t : RawTile) : bytes :=
  match data t with Some b => b | None => [] end.

(** The same array with new contents. *)
Definition write_data (t : RawTile) (b : bytes) : RawTile :=
  match data t with Some _ => t <| data := Some b |> | None => t end.

(** [for( int j = hi; j >= 0; j-- )] *)
Definition downto (hi : Z) : list Z := reverse (range 0 (hi + 1)).

(** The innermost loop of flips and rotations: the [ch] samples of a pixel go
    from [index] to [n], which moves on; [wrap] is the width of the indexes. *)
Definition copy_pixel (wrap : Z -> Z) (src : bytes) (ch index : Z) (s : bytes * Z) : res (bytes * Z) :=
  foldM (fun k '(buffer, n) =>
      v ← ld 1 src (wrap (index + k));
      buffer ← st 1 buffer n v;
      Ok (buffer, wrap (n + 1)))
    (range 0 ch) s.

Section Transforms.
Context (junk : Z -> Z).

(** ** [flip] *)

Definition flip_vertical (w h ch : Z) (src buffer : bytes) : res bytes :=
  foldM (fun j buffer =>
      let n := u32 ((h - 1 - j) * w * ch) in
      fst <$> foldM (fun i s => copy_pixel u64 src ch (u32 ((w * j + i) * ch)) s)
                (range 0 w) (buffer, n))
    (downto (i32 (h - 1))) buffer.

Definition flip_horizontal (w h ch : Z) (src buffer : bytes) : res bytes :=
  foldM (fun j buffer =>
      let n := u32 (j * w * ch) in
      fst <$> foldM (fun i s => copy_pixel u64 src ch (u32 ((w * j + i) * ch)) s)
                (downto (i32 (w - 1))) (buffer, n))
    (range 0 h) buffer.

Definition flip (t : RawTile) (orientation : Z) : res RawTile :=
  let w := width t in let h := height t in let ch := channels t in
  let buffer := new_bytes junk (u32 (w * h * ch)) in
  buffer ← (if orientation =? 2 then flip_vertical w h ch (tile_data t) buffer
            else flip_horizontal w h ch (tile_data t) buffer);
  Ok (t <| data := Some buffer |>).

(** ** [rotate] *)

Definition rotate_90 (w h ch : Z) (src buffer : bytes) : res bytes :=
  foldM (fun i buffer =>
      let n := u32 (i * h * ch) in
      fst <$> foldM (fun j s => copy_pixel u32 src ch (u32 ((w * j + i) * ch)) s)
                (downto (i32 (h - 1))) (buffer, n))
    (range 0 w) buffer.

Definition rotate_270 (w h ch : Z) (src buffer : bytes) : res bytes :=
  foldM (fun i buffer =>
      let n := u32 ((w - 1 - i) * h * ch) in
      fst <$> foldM (fun j s => copy_pixel u32 src ch (u32 ((w * j + i) * ch)) s)
                (range 0 h) (buffer, n))
    (downto (i32 (w - 1))) buffer.

Definition rotate_180 (w h ch : Z) (src buffer : bytes) : res bytes :=
  fst <$> foldM (fun i s => copy_pixel u32 src ch (u32 (i * ch)) s)
            (downto (i32 (u32 (w * h) - 1))) (buffer, 0).

(** [%] of C is [Z.rem].  An angle that is a negative multiple of 90 passes the
    test and matches none of the three cases. *)
Definition rotate (t : RawTile) (angle : float) : res RawTile :=
  a ← to_i32 angle;
  if (Z.rem a 90 =? 0) && negb (Z.rem a 360 =? 0) then
    let w := width t in let h := height t in let ch := channels t in
    let buffer := new_bytes junk (u32 (w * h * ch)) in
    buffer ← (if Z.rem a 360 =? 90 then rotate_90 w h ch (tile_data t) buffer
              else if Z.rem a 360 =? 270 then rotate_270 w h ch (tile_data t) buffer
              else if Z.rem a 360 =? 180 then rotate_180 w h ch (tile_data t) buffer
              else Ok buffer);
    let t := t <| data := Some buffer |> in
    if Z.rem a 180 =? 90 then Ok (t <| height := w |> <| width := h |>) else Ok t
  else Ok t.

(** ** [flatten], in the tile's own array *)

(** [data[ni++] = data[no++]] *)
Definition flatten_step (s : bytes * Z * Z) : res (bytes * Z * Z) :=
  let '(buf, ni, no) := s in
  v ← ld 1 buf no;
  buf ← st 1 buf ni v;
  Ok (buf, u64 (ni + 1), u64 (no + 1)).

Definition flatten (t : RawTile) (bands : Z) : res RawTile :=
  if channels t <=? bands then Ok t
  else
    let np := u32 (width t * height t) in
    let gap := u32 (channels t - bands) in
    '(buf, ni, no) ← foldM (fun _ s =>
        '(buf, ni, no) ← foldM (fun _ s => flatten_step s) (range 0 bands) s;
        Ok (buf, ni, u64 (no + gap)))
      (range 0 np) (tile_data t, 0, 0);
    Ok ((write_data t buf) <| channels := bands |> <| dataLength := u32 (ni * (bpc t / 8)) |>).

(** ** [greyscale] and [binary] *)

(** The fixed-point luminance of a pixel. *)
Definition luminance (R G B : Z) : Z := u8 (Z.shiftr (1254097 * R + 2462056 * G + 478151 * B) 22).

Definition greyscale (t : RawTile) : res RawTile :=
  if negb (bpc t =? 8) || negb (channels t =? 3) then Ok t
  else
    let np := u32 (width t * height t) in
    buffer ← foldM (fun i buffer =>
        let n := u32 (i * channels t) in
        R ← ld 1 (tile_data t) n;
        G ← ld 1 (tile_data t) (u32 (n + 1));
        B ← ld 1 (tile_data t) (u32 (n + 2));
        st 1 buffer i (luminance R G B))
      (range 0 np) (new_bytes junk np);
    Ok (t <| data := Some buffer |> <| channels := 1 |> <| dataLength := np |>).

Definition binary (t : RawTile) (threshold : Z) : res RawTile :=
  if negb (bpc t =? 8) then Ok t
  else
    t ← greyscale t;
    let np := u32 (width t * height t) in
    buf ← foldM (fun i buf =>
        v ← ld 1 buf i;
        st 1 buf i (if v <? threshold then 0 else 255))
      (range 0 np) (tile_data t);
    Ok (write_data t buf).

(** ** Resampling *)

Definition scale (size resampled : Z) : float := fdiv b32 (of_Z b32 size) (of_Z b32 resampled).

(** [(unsigned int) floorf( i * xscale )] *)
Definition nn_index (xscale : float) (i : Z) : res Z :=
  to_u32 (ffloor b32 (fmul b32 (of_Z b32 i) xscale)).

(** When the result is not larger than the input, it is written over it while
    the input is still being read. *)
Definition interpolate_nearestneighbour (t : RawTile) (rw rh : Z) : res RawTile :=
  let w := width t in let h := height t in let ch := channels t in
  let input := tile_data t in
  let new_buffer := u32 (w * h) <? u32 (rw * rh) in
  let output := if new_buffer then new_bytes junk (u64 (rw * rh * ch)) else input in
  let xscale := scale w rw in
  let yscale := scale h rh in
  output ← foldM (fun j out =>
      foldM (fun i out =>
          ii ← nn_index xscale i;
          jj ← nn_index yscale j;
          let pyramid_index := u64 (ch * (ii + jj * w)) in
          let resampled_index := u64 (u32 (i + j * rw) * ch) in
          foldM (fun k out =>
              v ← ld 1 (if new_buffer then input else out) (u64 (pyramid_index + k));
              st 1 out (u64 (resampled_index + k)) v)
            (range 0 ch) out)
        (range 0 rw) out)
    (range 0 rh) output;
  Ok (t <| width := rw |> <| height := rh |> <| dataLength := u32 (rw * rh * ch * (bpc t / 8)) |>
        <| data := Some output |>).

(** The four neighbours and the weights of a sample in one direction. *)
Definition bilinear_cell (xscale : float) (i : Z) : res (Z * float * float) :=
  let iscale := fmul b32 (of_Z b32 i) xscale in
  ii ← to_i32 (ffloor b32 iscale);
  Ok (ii, fsub b32 (of_Z b32 (ii + 1)) iscale, fsub b32 iscale (of_Z b32 ii)).

Definition bilinear_sample (input : bytes) (p11 p12 p21 p22 k : Z) (a b c d : float) : res Z :=
  v11 ← ld 1 input (u64 (p11 + k));
  v21 ← ld 1 input (u64 (p21 + k));
  let tx := fadd b32 (fmul b32 (of_Z b32 v11) a) (fmul b32 (of_Z b32 v21) b) in
  v12 ← ld 1 input (u64 (p12 + k));
  v22 ← ld 1 input (u64 (p22 + k));
  let ty := fadd b32 (fmul b32 (of_Z b32 v12) a) (fmul b32 (of_Z b32 v22) b) in
  to_u8 (fadd b32 (fmul b32 c tx) (fmul b32 d ty)).

Definition interpolate_bilinear (t : RawTile) (rw rh : Z) : res RawTile :=
  let w := width t in let h := height t in let ch := channels t in
  let input := tile_data t in
  let max := u64 (u32 (u32 (w * h - 1) * ch)) in
  let xscale := scale w rw in
  let yscale := scale h rh in
  output ← foldM (fun j out =>
      '(jj, c, d) ← bilinear_cell yscale j;
      foldM (fun i out =>
          '(ii, a, b) ← bilinear_cell xscale i;
          let jj_w := u32 (jj * w) in
          let p11 := u64 (ch * (ii + jj_w)) in
          let p12 := u64 (ch * (ii + (jj_w + w))) in
          let p21 := u64 (ch * (ii + 1 + jj_w)) in
          let p22 := u64 (ch * (ii + 1 + (jj_w + w))) in
          let p12 := if p12 <=? max then p12 else max in
          let p21 := if p21 <=? max then p21 else max in
          let p22 := if p22 <=? max then p22 else max in
          let resampled_index := u32 ((j * rw + i) * ch) in
          foldM (fun k out =>
              r ← bilinear_sample input p11 p12 p21 p22 k a b c d;
              st 1 out (u64 (resampled_index + k)) r)
            (range 0 ch) out)
        (range 0 rw) out)
    (range 0 rh) (new_bytes junk (u64 (rw * rh * ch)));
  Ok (t <| width := rw |> <| height := rh |> <| dataLength := u32 (rw * rh * ch * (bpc t / 8)) |>
        <| data := Some output |>).
End Transforms.

(** ** Lemmas *)

(** *** Filling an array from the left *)

Definition slice (src : bytes) (index n : Z) : bytes := take (Z.to_nat n) (drop (Z.to_nat index) src).

Lemma length_slice src index n :
  0 <= index -> 0 <= n -> index + n <= blen src -> length (slice src index n) = Z.to_nat n.
Proof. intros. unfold slice, blen in *. rewrite length_take, length_drop. lia. Qed.

Lemma slice_snoc src index k v :
  0 <= index -> 0 <= k -> src !! Z.to_nat (index + k) = Some v ->
  slice src index (k + 1) = slice src index k ++ [v].
Proof.
  intros Hi Hk Hv. unfold slice. replace (Z.to_nat (k + 1)) with (S (Z.to_nat k)) by lia.
  apply take_S_r. rewrite lookup_drop. rewrite <- Hv. f_equal. lia.
Qed.

(** Writing the first cell of what is left. *)
Lemma st1_append (done rest : bytes) n v :
  n = blen done -> 0 < blen rest -> is_u8 v ->
  st 1 (done ++ rest) n v = Ok ((done ++ [v]) ++ drop 1 rest).
Proof.
  intros -> Hr Hv. destruct rest as [|x rest]; [discriminate Hr|].
  rewrite st1 by (unfold blen; rewrite length_app; cbn [length]; lia).
  unfold blen. rewrite Nat2Z.id, u8_small by (unfold is_u8 in Hv; lia).
  rewrite insert_app_r_alt, Nat.sub_diag by lia. cbn [insert list_insert].
  rewrite <- app_assoc. reflexivity.
Qed.

Definition small_wrap (wrap : Z -> Z) : Prop := forall z, 0 <= z < 2 ^ 32 -> wrap z = z.

Lemma u32_wrap : small_wrap u32.
Proof. intros z Hz. apply u32_small, Hz. Qed.
Lemma u64_wrap : small_wrap u64.
Proof. intros z Hz. apply u64_small. lia. Qed.

Lemma copy_pixel_append wrap src ch index (done rest : bytes) :
  small_wrap wrap -> Forall is_u8 src -> 0 <= ch -> 0 <= index -> index + ch <= blen src < 2 ^ 32 ->
  ch <= blen rest -> blen done + blen rest < 2 ^ 32 ->
  copy_pixel wrap src ch index (done ++ rest, blen done)
  = Ok ((done ++ slice src index ch) ++ drop (Z.to_nat ch) rest, blen done + ch).
Proof.
  intros Hw Hsrc Hch Hi Hs Hr Hb.
  destruct (foldM_range (fun k s => s = ((done ++ slice src index k) ++ drop (Z.to_nat k) rest, blen done + k))
    (fun k '(buffer, n) => v ← ld 1 src (wrap (index + k)); buffer ← st 1 buffer n v; Ok (buffer, wrap (n + 1)))
    0 ch (done ++ rest, blen done)) as (s & E & ->); [lia| | |exact E].
  - unfold slice. cbn [Z.to_nat]. rewrite take_0, drop_0, app_nil_r. f_equal. lia.
  - intros k t Hk ->. rewrite (Hw (index + k)) by lia. unfold blen in *.
    destruct (ld1 src (index + k)) as (v & Hv & ->); [unfold blen; lia|]. rewrite bind_ret.
    rewrite st1_append.
    + rewrite bind_ret. rewrite (Hw (_ + _ + 1)) by lia. eexists. split; [reflexivity|].
      rewrite (slice_snoc _ _ _ v) by (assumption || lia). rewrite drop_drop, !app_assoc.
      f_equal; [|lia]. f_equal. f_equal. lia.
    + unfold blen. rewrite length_app, length_slice by (unfold blen; lia). lia.
    + unfold blen. rewrite length_drop. lia.
    + rewrite Forall_lookup in Hsrc. exact (Hsrc _ _ Hv).
Qed.

(** A list of pixels, written one after the other. *)
Lemma copy_pixels_append {A} wrap src ch (idx : A -> Z) (l : list A) (done rest : bytes) :
  small_wrap wrap -> Forall is_u8 src -> 0 <= ch -> blen src < 2 ^ 32 ->
  (forall a, a ∈ l -> 0 <= idx a /\ idx a + ch <= blen src) ->
  Z.of_nat (length l) * ch <= blen rest -> blen done + blen rest < 2 ^ 32 ->
  foldM (fun a s => copy_pixel wrap src ch (idx a) s) l (done ++ rest, blen done)
  = Ok ((done ++ (l ≫= fun a => slice src (idx a) ch)) ++ drop (length l * Z.to_nat ch) rest,
        blen done + Z.of_nat (length l) * ch).
Proof.
  intros Hw Hsrc Hch Hs. revert done rest. induction l as [|a l IH]; intros done rest Hl Hr Hb.
  - cbn [foldM mbind list_bind length]. rewrite app_nil_r, Nat.mul_0_l, drop_0. do 2 f_equal. lia.
  - cbn [foldM]. destruct (Hl a (list_elem_of_here _ _)) as [Ha1 Ha2]. cbn [length] in Hr.
    rewrite copy_pixel_append by (assumption || nia). rewrite bind_ret.
    assert (Hlen : blen (done ++ slice src (idx a) ch) = blen done + ch)
      by (unfold blen; rewrite length_app, length_slice by assumption; unfold blen; lia).
    rewrite <- Hlen, IH.
    + cbn [mbind list_bind length]. rewrite drop_drop, Hlen, !app_assoc. apply (f_equal Ok). apply f_equal2; [reflexivity|lia].
    + intros b Hb'. apply Hl, list_elem_of_further, Hb'.
    + unfold blen in *. rewrite length_drop. nia.
    + rewrite Hlen. unfold blen in *. rewrite length_drop. lia.
Qed.

(** Rows of pixels, each starting where the previous one ended. *)
Lemma copy_rows_append {A B} wrap src ch (idx : A -> B -> Z) (start : A -> Z) (rows : list A) (row : list B)
    (done rest : bytes) :
  small_wrap wrap -> Forall is_u8 src -> 0 <= ch -> blen src < 2 ^ 32 ->
  (forall a b, a ∈ rows -> b ∈ row -> 0 <= idx a b /\ idx a b + ch <= blen src) ->
  (forall m a, rows !! m = Some a -> start a = blen done + Z.of_nat m * (Z.of_nat (length row) * ch)) ->
  blen rest = Z.of_nat (length rows) * (Z.of_nat (length row) * ch) -> blen done + blen rest < 2 ^ 32 ->
  foldM (fun a buffer => fst <$> foldM (fun b s => copy_pixel wrap src ch (idx a b) s) row (buffer, start a))
    rows (done ++ rest)
  = Ok (done ++ (rows ≫= fun a => row ≫= fun b => slice src (idx a b) ch)).
Proof.
  intros Hw Hsrc Hch Hs. revert done rest. induction rows as [|a rows IH]; intros done rest Hi Hst Hr Hb.
  - cbn [foldM mbind list_bind length] in *. destruct rest; [reflexivity|discriminate Hr].
  - cbn [foldM]. cbn [length] in Hr. rewrite (Hst 0%nat a eq_refl).
    replace (blen done + Z.of_nat 0 * (Z.of_nat (length row) * ch)) with (blen done) by lia.
    rewrite copy_pixels_append; [|assumption..| |nia|assumption].
    2: { intros b Hb'. apply Hi; [apply list_elem_of_here|exact Hb']. }
    change (fst <$> Ok ?p) with (Ok (fst p)). cbn [fst]. rewrite bind_ret.
    assert (Hlen : blen (row ≫= fun b => slice src (idx a b) ch) = Z.of_nat (length row) * ch).
    { pose proof (fun b Hb => Hi a b (list_elem_of_here _ _) Hb) as Hrow. clear -Hrow Hch.
      induction row as [|b row IH]; [reflexivity|]. cbn [mbind list_bind length].
      destruct (Hrow b (list_elem_of_here _ _)) as [H1 H2].
      change (blen (slice src (idx a b) ch ++ (row ≫= fun b => slice src (idx a b) ch)) = Z.of_nat (S (length row)) * ch).
      unfold blen in *. rewrite length_app, length_slice by (unfold blen; lia).
      rewrite Nat2Z.inj_add, IH; [lia|]. intros c Hc. apply Hrow, list_elem_of_further, Hc. }
    rewrite IH.
    + cbn [mbind list_bind]. rewrite app_assoc. reflexivity.
    + intros b c Hb' Hc. apply Hi; [apply list_elem_of_further, Hb'|exact Hc].
    + intros m b Hm. rewrite (Hst (S m) b Hm). unfold blen in *. rewrite length_app. nia.
    + unfold blen in *. rewrite length_drop. nia.
    + unfold blen in *. rewrite length_app, length_drop. nia.
Qed.

(** ** Images as functions *)

(** The samples of the pixel [x], [y]; and the bytes of the image of [w] by [h]
    pixels given by a function. *)
Definition view (t : RawTile) (x y : Z) : bytes :=
  slice (tile_data t) ((y * width t + x) * channels t) (channels t).

Definition tabulate (w h : Z) (g : Z -> Z -> bytes) : bytes :=
  range 0 h ≫= fun y => range 0 w ≫= fun x => g x y.

(** A tile of 8-bit samples whose array is exactly its pixels. *)
Definition image_ok (t : RawTile) : Prop :=
  1 <= width t /\ 1 <= height t /\ 1 <= channels t /\ width t * height t * channels t < 2 ^ 31 /\
  exists b, data t = Some b /\ blen b = width t * height t * channels t /\ Forall is_u8 b.

Definition image_okb (t : RawTile) : bool :=
  (1 <=? width t) && (1 <=? height t) && (1 <=? channels t) && (width t * height t * channels t <? 2 ^ 31)
  && match data t with
     | Some b => (blen b =? width t * height t * channels t) && forallb (fun v => (0 <=? v) && (v <? 256)) b
     | None => false
     end.

Lemma image_okb_ok t : image_okb t = true -> image_ok t.
Proof.
  unfold image_okb, image_ok. rewrite !andb_true_iff, !Z.leb_le, Z.ltb_lt.
  intros ((((H1 & H2) & H3) & H4) & H). destruct (data t) as [b|]; [|discriminate H].
  rewrite andb_true_iff, Z.eqb_eq in H. destruct H as [Hb Hv].
  do 4 (split; [assumption|]). exists b. split; [reflexivity|]. split; [exact Hb|].
  apply Forall_forall. intros v Hin. rewrite forallb_forall in Hv.
  specialize (Hv v Hin). rewrite andb_true_iff, Z.leb_le, Z.ltb_lt in Hv. exact Hv.
Qed.

Lemma bind_ext {A B} (f g : A -> list B) (l : list A) :
  (forall a, a ∈ l -> f a = g a) -> l ≫= f = l ≫= g.
Proof.
  induction l as [|a l IH]; intros H; [reflexivity|]. cbn [mbind list_bind].
  rewrite (H a (list_elem_of_here _ _)). f_equal. apply IH. intros b Hb. apply H, list_elem_of_further, Hb.
Qed.

Lemma tabulate_ext w h f g :
  (forall x y, 0 <= x < w -> 0 <= y < h -> f x y = g x y) -> tabulate w h f = tabulate w h g.
Proof.
  intros H. apply bind_ext. intros y Hy%elem_of_range. apply bind_ext. intros x Hx%elem_of_range.
  apply H; assumption.
Qed.

Lemma elem_of_downto hi x : x ∈ downto hi <-> 0 <= x <= hi.
Proof. unfold downto. rewrite elem_of_reverse, elem_of_range. lia. Qed.

Lemma length_downto hi : -1 <= hi -> length (downto hi) = Z.to_nat (hi + 1).
Proof. intros. unfold downto. rewrite length_reverse, length_range. f_equal. lia. Qed.

Lemma lookup_range lo hi (m : nat) x : range lo hi !! m = Some x -> x = lo + Z.of_nat m /\ lo <= x < hi.
Proof.
  intros H. pose proof (proj1 (elem_of_range lo hi x) (list_elem_of_lookup_2 _ _ _ H)).
  apply lookup_lt_Some in H as L. rewrite length_range in L. unfold range in H.
  rewrite lookup_zseq in H by lia. injection H as <-. lia.
Qed.

Lemma downto_fmap hi : -1 <= hi -> downto hi = (fun y => hi - y) <$> range 0 (hi + 1).
Proof.
  intros Hh. unfold downto. apply list_eq_length; [rewrite length_reverse, length_fmap; reflexivity|].
  rewrite length_reverse, length_range. intros i Hi.
  rewrite reverse_lookup by (rewrite length_range; lia). rewrite length_range, list_lookup_fmap.
  unfold range. rewrite !lookup_zseq by lia. cbn [fmap option_fmap option_map]. f_equal. lia.
Qed.

Lemma lookup_downto hi (m : nat) x : -1 <= hi -> downto hi !! m = Some x -> x = hi - Z.of_nat m /\ 0 <= x <= hi.
Proof.
  intros Hh H. pose proof (proj1 (elem_of_downto hi x) (list_elem_of_lookup_2 _ _ _ H)).
  rewrite downto_fmap, list_lookup_fmap in H by assumption.
  destruct (range 0 (hi + 1) !! m) as [y|] eqn:E; [|discriminate H]. injection H as <-.
  apply lookup_range in E. lia.
Qed.

Lemma bind_downto {B} hi (f : Z -> list B) :
  -1 <= hi -> downto hi ≫= f = range 0 (hi + 1) ≫= fun y => f (hi - y).
Proof.
  intros Hh. rewrite downto_fmap by assumption. generalize (range 0 (hi + 1)) as l.
  induction l as [|y l IH]; [reflexivity|]. cbn [fmap list_fmap mbind list_bind]. f_equal. exact IH.
Qed.

Lemma blen_bind {A} (f : A -> bytes) (l : list A) n :
  (forall a, a ∈ l -> blen (f a) = n) -> blen (l ≫= f) = Z.of_nat (length l) * n.
Proof.
  induction l as [|a l IH]; intros H; [reflexivity|].
  change (blen (f a ++ (l ≫= f)) = Z.of_nat (S (length l)) * n).
  rewrite blen_app, (H a (list_elem_of_here _ _)), IH; [lia|].
  intros b Hb. apply H, list_elem_of_further, Hb.
Qed.

Lemma slice_slice s a m b n :
  0 <= a -> 0 <= b -> 0 <= n -> b + n <= m -> slice (slice s a m) b n = slice s (a + b) n.
Proof.
  intros. unfold slice. rewrite skipn_firstn_comm, take_take, drop_drop.
  f_equal; [lia|]. f_equal. lia.
Qed.

Lemma slice_bind {A} (f : A -> bytes) (l : list A) n (i : nat) a :
  0 <= n -> (forall a, a ∈ l -> blen (f a) = n) -> l !! i = Some a -> slice (l ≫= f) (Z.of_nat i * n) n = f a.
Proof.
  intros Hn. revert i. induction l as [|b l IH]; intros i H Hi; [discriminate Hi|].
  change ((b :: l) ≫= f) with (f b ++ (l ≫= f)).
  pose proof (H b (list_elem_of_here _ _)) as Hb. unfold blen in Hb. destruct i as [|i].
  - injection Hi as ->. unfold slice. change (Z.to_nat (Z.of_nat 0 * n)) with 0%nat. rewrite drop_0.
    rewrite take_app_le by lia. apply firstn_all2. lia.
  - rewrite <- (IH i); [|intros c Hc; apply H, list_elem_of_further, Hc|exact Hi].
    unfold slice. rewrite drop_app_ge by nia. do 2 f_equal. nia.
Qed.

Lemma blen_tabulate w h g ch :
  0 <= w -> 0 <= h -> (forall x y, 0 <= x < w -> 0 <= y < h -> blen (g x y) = ch) ->
  blen (tabulate w h g) = h * (w * ch).
Proof.
  intros Hw Hh H. unfold tabulate. rewrite (blen_bind _ _ (w * ch)).
  - rewrite length_range. f_equal. lia.
  - intros y Hy%elem_of_range. rewrite (blen_bind _ _ ch).
    + rewrite length_range. f_equal. lia.
    + intros x Hx%elem_of_range. apply H; assumption.
Qed.

(** The pixels of a tabulated image are the values of the function. *)
Lemma slice_tabulate w h g ch x y :
  0 <= ch -> (forall x y, 0 <= x < w -> 0 <= y < h -> blen (g x y) = ch) ->
  0 <= x < w -> 0 <= y < h -> slice (tabulate w h g) ((y * w + x) * ch) ch = g x y.
Proof.
  intros Hc H Hx Hy.
  assert (Hrow : forall y, 0 <= y < h -> blen (range 0 w ≫= fun x => g x y) = w * ch).
  { intros y' Hy'. rewrite (blen_bind _ _ ch).
    - rewrite length_range. f_equal. lia.
    - intros x' Hx'%elem_of_range. apply H; assumption. }
  assert (Hr : slice (tabulate w h g) (y * (w * ch)) (w * ch) = range 0 w ≫= fun x => g x y).
  { replace (y * (w * ch)) with (Z.of_nat (Z.to_nat (y - 0)) * (w * ch)) by (f_equal; lia).
    apply (slice_bind (fun y => range 0 w ≫= fun x => g x y)); [nia| |].
    - intros y' Hy'%elem_of_range. apply Hrow, Hy'.
    - apply lookup_range_at, Hy. }
  replace ((y * w + x) * ch) with (y * (w * ch) + x * ch) by ring.
  assert (0 <= y * (w * ch)) by (apply Z.mul_nonneg_nonneg; nia).
  rewrite <- (slice_slice _ _ (w * ch)) by nia. rewrite Hr.
  replace (x * ch) with (Z.of_nat (Z.to_nat (x - 0)) * ch) by (f_equal; lia).
  apply (slice_bind (fun x => g x y)); [exact Hc| |apply lookup_range_at, Hx].
  intros x' Hx'%elem_of_range. apply H; assumption.
Qed.

(** An array is its slices, one after the other. *)
Lemma bind_slices (b : bytes) n m :
  0 <= n -> 0 <= m -> blen b = m * n -> range 0 m ≫= (fun i => slice b (i * n) n) = b.
Proof.
  intros Hn Hm. remember (Z.to_nat m) as k eqn:Hk. revert m b Hm Hk.
  induction k as [|k IH]; intros m b Hm Hk Hb.
  - assert (m = 0) as -> by lia. destruct b; [reflexivity|discriminate Hb].
  - rewrite range_snoc by lia. rewrite bind_app. change ([m - 1] ≫= ?f) with (f (m - 1) ++ []).
    rewrite app_nil_r.
    rewrite (bind_ext _ (fun i => slice (slice b 0 ((m - 1) * n)) (i * n) n)).
    + rewrite IH; [|lia|lia|].
      * unfold slice. change (Z.to_nat 0) with 0%nat. rewrite drop_0.
        rewrite (take_ge (drop _ _)) by (rewrite length_drop; unfold blen in Hb; nia).
        apply take_drop.
      * unfold blen. rewrite length_slice; [nia|lia|nia|nia].
    + intros i Hi%elem_of_range. rewrite slice_slice by nia. f_equal.
Qed.

Lemma bind_fmap_l {A B C} (f : B -> list C) (g : A -> B) (l : list A) :
  (g <$> l) ≫= f = l ≫= fun a => f (g a).
Proof. induction l as [|a l IH]; [reflexivity|]. cbn [fmap list_fmap mbind list_bind]. f_equal. exact IH. Qed.

(** Pixel numbers, row by row. *)
Lemma bind_rows {B} (f : Z -> list B) w h :
  0 <= w -> 0 <= h -> range 0 (w * h) ≫= f = range 0 h ≫= fun y => range 0 w ≫= fun x => f (y * w + x).
Proof.
  intros Hw Hh. remember (Z.to_nat h) as n eqn:Hn. revert h Hh Hn.
  induction n as [|n IH]; intros h Hh Hn.
  - assert (h = 0) as -> by lia. rewrite Z.mul_0_r, range_nil by lia. reflexivity.
  - rewrite (range_snoc 0 h), bind_app, <- (IH (h - 1)) by lia.
    change ([h - 1] ≫= ?g) with (g (h - 1) ++ []). rewrite app_nil_r.
    rewrite (range_app 0 (w * (h - 1))), bind_app by nia. f_equal.
    replace (w * h) with (w * (h - 1) + w) by ring.
    rewrite range_shift, bind_fmap_l. apply bind_ext. intros x _. f_equal. ring.
Qed.

Section Images.
Context (t : RawTile) (Ht : image_ok t).

Lemma blen_tile_data : blen (tile_data t) = width t * height t * channels t.
Proof. destruct Ht as (_ & _ & _ & _ & b & E & Hb & _). unfold tile_data. rewrite E. exact Hb. Qed.

Lemma tile_data_u8 : Forall is_u8 (tile_data t).
Proof. destruct Ht as (_ & _ & _ & _ & b & E & _ & Hb). unfold tile_data. rewrite E. exact Hb. Qed.

Lemma pixel_range x y :
  0 <= x < width t -> 0 <= y < height t ->
  0 <= (y * width t + x) * channels t
  /\ (y * width t + x) * channels t + channels t <= blen (tile_data t).
Proof.
  intros Hx Hy. rewrite blen_tile_data. destruct Ht as (_ & _ & Hc & _).
  pose proof (row_major_bound (width t) (height t) x y Hx Hy). nia.
Qed.

Lemma blen_view x y :
  0 <= x < width t -> 0 <= y < height t -> blen (view t x y) = channels t.
Proof.
  intros Hx Hy. destruct (pixel_range x y Hx Hy). destruct Ht as (_ & _ & Hc & _).
  unfold view, blen. rewrite length_slice by (assumption || lia). lia.
Qed.

Lemma tabulate_view : tabulate (width t) (height t) (view t) = tile_data t.
Proof.
  pose proof blen_tile_data as Hb. destruct Ht as (Hw & Hh & Hc & _).
  rewrite <- (bind_slices (tile_data t) (width t * channels t) (height t)) by nia.
  unfold tabulate. apply bind_ext. intros y Hy%elem_of_range.
  rewrite <- (bind_slices (slice (tile_data t) (y * (width t * channels t)) (width t * channels t))
                (channels t) (width t)).
  - apply bind_ext. intros x Hx%elem_of_range. unfold view. rewrite slice_slice by nia. f_equal. lia.
  - lia.
  - lia.
  - unfold blen. rewrite length_slice; [nia|nia|nia|nia].
Qed.

(** The sizes and indexes of the loops do not wrap. *)
Lemma image_sizes :
  width t < 2 ^ 31 /\ height t < 2 ^ 31 /\ channels t < 2 ^ 31 /\ width t * height t < 2 ^ 31 /\
  0 <= width t * height t * channels t < 2 ^ 31.
Proof. destruct Ht as (Hw & Hh & Hc & Hs & _). nia. Qed.

Lemma index_u32 x y :
  0 <= x < width t -> 0 <= y < height t ->
  u32 ((width t * y + x) * channels t) = (y * width t + x) * channels t.
Proof.
  intros Hx Hy. destruct (pixel_range x y Hx Hy) as [H1 H2]. rewrite blen_tile_data in H2.
  pose proof image_sizes. destruct Ht as (_ & _ & Hc & _). rewrite u32_small by lia. ring.
Qed.

(** Rows of pixels written from the start of a new array: what the loops of a
    flip or a rotation leave, when [pos] is where they read the pixel of row [a]
    and column [b]. *)
Lemma copy_rows_image {A B} junk wrap (pos : A -> B -> Z * Z) (start : A -> Z) (rows : list A) (row : list B) :
  small_wrap wrap ->
  (forall a b, a ∈ rows -> b ∈ row -> 0 <= fst (pos a b) < width t /\ 0 <= snd (pos a b) < height t) ->
  (forall m a, rows !! m = Some a -> start a = Z.of_nat m * (Z.of_nat (length row) * channels t)) ->
  Z.of_nat (length rows) * Z.of_nat (length row) = width t * height t ->
  foldM (fun a buffer =>
      fst <$> foldM (fun b s => copy_pixel wrap (tile_data t) (channels t)
                                  (u32 ((width t * snd (pos a b) + fst (pos a b)) * channels t)) s)
                row (buffer, start a))
    rows (new_bytes junk (u32 (width t * height t * channels t)))
  = Ok (rows ≫= fun a => row ≫= fun b => view t (fst (pos a b)) (snd (pos a b))).
Proof.
  intros Hw Hp Hs Hl. pose proof image_sizes as Hsz. pose proof blen_tile_data as Hb.
  assert (Hc : 1 <= channels t) by (destruct Ht as (_ & _ & Hc & _); exact Hc).
  rewrite (u32_small (width t * height t * channels t)) by lia.
  change (new_bytes junk ?n) with ([] ++ new_bytes junk n).
  erewrite copy_rows_append; [cbn [app]; apply (f_equal Ok)|exact Hw|exact tile_data_u8|lia|lia| | | |].
  - apply bind_ext. intros a Ha. apply bind_ext. intros b Hb'. destruct (Hp a b Ha Hb').
    rewrite index_u32 by assumption. reflexivity.
  - intros a b Ha Hb'. destruct (Hp a b Ha Hb'). rewrite index_u32 by assumption. apply pixel_range; assumption.
  - intros m a Ha. rewrite (Hs m a Ha). change (blen []) with 0. lia.
  - rewrite blen_new_bytes by lia. rewrite Z.mul_assoc, Hl. reflexivity.
  - rewrite blen_new_bytes by lia. change (blen []) with 0. lia.
Qed.
End Images.

(** ** What each operation computes *)

(** The tile [t] with the image given by a function. *)
Definition reshape (t : RawTile) (w h : Z) (g : Z -> Z -> bytes) : RawTile :=
  t <| data := Some (tabulate w h g) |> <| width := w |> <| height := h |>.

(** Where a pixel comes from after [k] quarter turns of an image of [w] by [h],
    and after a flip; and the size after [k] quarter turns. *)
Definition turned (k w h x y : Z) : Z * Z :=
  if k =? 1 then (y, h - 1 - x)
  else if k =? 2 then (w - 1 - x, h - 1 - y)
  else if k =? 3 then (w - 1 - y, x) else (x, y).

Definition turned_size (k w h : Z) : Z * Z := if (k =? 1) || (k =? 3) then (h, w) else (w, h).

Definition mirrored (o w h x y : Z) : Z * Z := if o =? 2 then (x, h - 1 - y) else (w - 1 - x, y).

Definition turn (k : Z) (t : RawTile) : RawTile :=
  let s := turned_size k (width t) (height t) in
  reshape t (fst s) (snd s) (fun x y => let p := turned k (width t) (height t) x y in view t (fst p) (snd p)).

Definition mirror (o : Z) (t : RawTile) : RawTile :=
  reshape t (width t) (height t)
    (fun x y => let p := mirrored o (width t) (height t) x y in view t (fst p) (snd p)).

Lemma set_data_reshape (t : RawTile) g :
  t <| data := Some (tabulate (width t) (height t) g) |> = reshape t (width t) (height t) g.
Proof. destruct t. reflexivity. Qed.

Lemma reshape_reshape t w h g w' h' g' : reshape (reshape t w h g) w' h' g' = reshape t w' h' g'.
Proof. reflexivity. Qed.

Lemma reshape_ext t w h f g :
  (forall x y, 0 <= x < w -> 0 <= y < h -> f x y = g x y) -> reshape t w h f = reshape t w h g.
Proof. intros H. unfold reshape. rewrite (tabulate_ext w h f g H). reflexivity. Qed.

Lemma reshape_view t : image_ok t -> reshape t (width t) (height t) (view t) = t.
Proof.
  intros Ht. rewrite <- set_data_reshape, (tabulate_view t Ht).
  destruct Ht as (_ & _ & _ & _ & b & E & _). unfold tile_data. rewrite E. destruct t. cbn in E. subst. reflexivity.
Qed.

(** A reshaped image whose pixels are those of an image. *)
Lemma view_reshape t w h g x y :
  1 <= channels t -> (forall x y, 0 <= x < w -> 0 <= y < h -> blen (g x y) = channels t) ->
  0 <= x < w -> 0 <= y < h -> view (reshape t w h g) x y = g x y.
Proof. intros Hc Hg Hx Hy. apply (slice_tabulate w h g (channels t)); auto. lia. Qed.

Lemma Forall_bind {A} (P : Z -> Prop) (f : A -> bytes) (l : list A) :
  (forall a, a ∈ l -> Forall P (f a)) -> Forall P (l ≫= f).
Proof.
  induction l as [|a l IH]; intros H; [constructor|].
  change (Forall P (f a ++ (l ≫= f))). apply Forall_app. split; [apply H, list_elem_of_here|].
  apply IH. intros b Hb. apply H, list_elem_of_further, Hb.
Qed.

Lemma reshape_ok t w h (pos : Z -> Z -> Z * Z) :
  image_ok t -> w * h = width t * height t -> 1 <= w -> 1 <= h ->
  (forall x y, 0 <= x < w -> 0 <= y < h -> 0 <= fst (pos x y) < width t /\ 0 <= snd (pos x y) < height t) ->
  image_ok (reshape t w h (fun x y => view t (fst (pos x y)) (snd (pos x y)))).
Proof.
  intros Ht Hwh Hw Hh Hp.
  assert (Hl : forall x y, 0 <= x < w -> 0 <= y < h ->
    blen (view t (fst (pos x y)) (snd (pos x y))) = channels t).
  { intros x y Hx Hy. destruct (Hp x y Hx Hy). apply blen_view; assumption. }
  pose proof (tile_data_u8 t Ht) as Hu. destruct Ht as (_ & _ & Hc & Hs & _).
  unfold image_ok. change (width (reshape t w h ?g)) with w. change (height (reshape t w h ?g)) with h.
  change (channels (reshape t w h ?g)) with (channels t).
  split; [exact Hw|]. split; [exact Hh|]. split; [exact Hc|]. split; [rewrite Hwh; exact Hs|].
  eexists. split; [reflexivity|]. split.
  - rewrite (blen_tabulate _ _ _ (channels t)) by (assumption || lia). ring.
  - apply Forall_bind. intros y _. apply Forall_bind. intros x _.
    unfold view, slice. apply Forall_take, Forall_drop, Hu.
Qed.

Section Geometry.
Context (junk : Z -> Z) (t : RawTile) (Ht : image_ok t).

#[local] Abbreviation w := (width t).
#[local] Abbreviation h := (height t).
#[local] Abbreviation ch := (channels t).

Lemma start_u32 (a b : Z) :
  0 <= a -> 0 <= b -> (a + 1) * b <= w * h -> u32 (a * b * ch) = a * (b * ch).
Proof.
  intros Ha Hb Hab. pose proof (image_sizes t Ht). destruct Ht as (_ & _ & Hc & _).
  rewrite u32_small; [ring|]. assert (a * b <= w * h) by nia. assert (0 <= a * b) by nia. nia.
Qed.

Lemma flip_spec orientation : flip junk t orientation = Ok (mirror orientation t).
Proof.
  pose proof (image_sizes t Ht) as Hsz. assert (Hwh : 1 <= w /\ 1 <= h) by (destruct Ht; tauto).
  unfold flip, mirror, mirrored. rewrite <- set_data_reshape. destruct (orientation =? 2).
  - unfold flip_vertical. rewrite i32_small by lia.
    rewrite (copy_rows_image t Ht junk u64 (fun j i => (i, j)) (fun j => u32 ((h - 1 - j) * w * ch))).
    + rewrite bind_ret. rewrite bind_downto by lia. unfold tabulate.
      replace (h - 1 + 1) with h by lia. reflexivity.
    + exact u64_wrap.
    + intros j i Hj%elem_of_downto Hi%elem_of_range. cbn [fst snd]. lia.
    + intros m j [-> Hj]%lookup_downto; [|lia]. rewrite length_range.
      rewrite start_u32 by nia. apply f_equal2; [lia|f_equal; lia].
    + rewrite length_downto, length_range by lia. nia.
  - unfold flip_horizontal. rewrite i32_small by lia.
    rewrite (copy_rows_image t Ht junk u64 (fun j i => (i, j)) (fun j => u32 (j * w * ch))).
    + rewrite bind_ret. unfold tabulate.
      erewrite bind_ext; [reflexivity|]. intros y Hy. cbn [fst snd].
      rewrite bind_downto by lia. replace (w - 1 + 1) with w by lia. reflexivity.
    + exact u64_wrap.
    + intros j i Hj%elem_of_range Hi%elem_of_downto. cbn [fst snd]. lia.
    + intros m j [-> Hj]%lookup_range. rewrite length_downto by lia.
      rewrite start_u32 by nia. apply f_equal2; [lia|f_equal; lia].
    + rewrite length_downto, length_range by lia. nia.
Qed.

Lemma rotate_90_spec :
  rotate_90 w h ch (tile_data t) (new_bytes junk (u32 (w * h * ch)))
  = Ok (tabulate h w (fun x y => view t y (h - 1 - x))).
Proof.
  pose proof (image_sizes t Ht) as Hsz. assert (Hwh : 1 <= w /\ 1 <= h) by (destruct Ht; tauto).
  unfold rotate_90. rewrite i32_small by lia.
  rewrite (copy_rows_image t Ht junk u32 (fun i j => (i, j)) (fun i => u32 (i * h * ch))).
  - apply (f_equal Ok). apply bind_ext. intros y _. rewrite bind_downto by lia.
    replace (h - 1 + 1) with h by lia. reflexivity.
  - exact u32_wrap.
  - intros i j Hi%elem_of_range Hj%elem_of_downto. cbn [fst snd]. lia.
  - intros m i [-> Hi]%lookup_range. rewrite length_downto by lia.
    rewrite start_u32 by nia. apply f_equal2; [lia|f_equal; lia].
  - rewrite length_downto, length_range by lia. nia.
Qed.

Lemma rotate_270_spec :
  rotate_270 w h ch (tile_data t) (new_bytes junk (u32 (w * h * ch)))
  = Ok (tabulate h w (fun x y => view t (w - 1 - y) x)).
Proof.
  pose proof (image_sizes t Ht) as Hsz. assert (Hwh : 1 <= w /\ 1 <= h) by (destruct Ht; tauto).
  unfold rotate_270. rewrite i32_small by lia.
  rewrite (copy_rows_image t Ht junk u32 (fun i j => (i, j)) (fun i => u32 ((w - 1 - i) * h * ch))).
  - rewrite bind_downto by lia. replace (w - 1 + 1) with w by lia. reflexivity.
  - exact u32_wrap.
  - intros i j Hi%elem_of_downto Hj%elem_of_range. cbn [fst snd]. lia.
  - intros m i [-> Hi]%lookup_downto; [|lia]. rewrite length_range.
    rewrite start_u32 by nia. apply f_equal2; [lia|f_equal; lia].
  - rewrite length_downto, length_range by lia. nia.
Qed.

Lemma rotate_180_spec :
  rotate_180 w h ch (tile_data t) (new_bytes junk (u32 (w * h * ch)))
  = Ok (tabulate w h (fun x y => view t (w - 1 - x) (h - 1 - y))).
Proof.
  pose proof (image_sizes t Ht) as Hsz. pose proof (blen_tile_data t Ht) as Hb.
  assert (Hwh : 1 <= w /\ 1 <= h /\ 1 <= ch) by (destruct Ht; tauto).
  assert (0 < w * h) by nia. unfold rotate_180.
  rewrite (u32_small (w * h)), i32_small, (u32_small (w * h * ch)) by lia.
  change (new_bytes junk ?n) with ([] ++ new_bytes junk n).
  rewrite (copy_pixels_append u32 (tile_data t) ch (fun i => u32 (i * ch)) (downto (w * h - 1)) []).
  - cbn [app fst]. change (fst <$> Ok ?p) with (Ok (fst p)). cbn [fst]. apply (f_equal Ok).
    rewrite drop_ge by (rewrite length_new_bytes, length_downto by lia; nia). rewrite app_nil_r.
    rewrite bind_downto by lia. replace (w * h - 1 + 1) with (w * h) by lia.
    rewrite bind_rows by lia. apply tabulate_ext. intros x y Hx Hy. unfold view.
    pose proof (row_major_bound w h x y Hx Hy).
    rewrite u32_small by nia. f_equal. ring.
  - exact u32_wrap.
  - exact (tile_data_u8 t Ht).
  - lia.
  - lia.
  - intros i Hi%elem_of_downto. rewrite u32_small by nia. nia.
  - rewrite length_downto, blen_new_bytes by lia. nia.
  - rewrite blen_new_bytes by lia. change (blen []) with 0. lia.
Qed.

Lemma quarter_turns a :
  0 <= a -> a mod 90 = 0 -> a mod 360 = 90 * ((a / 90) mod 4) /\ 0 <= (a / 90) mod 4 < 4.
Proof.
  intros Ha H. split; [|apply Z.mod_pos_bound; lia]. pose proof (Z.div_mod a 90 ltac:(lia)) as E.
  rewrite H, Z.add_0_r in E. set (q := a / 90) in *. rewrite E. change 360 with (90 * 4).
  apply Z.mul_mod_distr_l; lia.
Qed.

Lemma rotate_spec angle a :
  to_i32 angle = Ok a -> 0 <= a ->
  rotate junk t angle = Ok (if a mod 90 =? 0 then turn ((a / 90) mod 4) t else t).
Proof.
  intros Ea Ha. unfold rotate. rewrite Ea, bind_ret.
  rewrite !Z.rem_mod_nonneg by lia.
  destruct (Z.eqb_spec (a mod 90) 0) as [H90|H90]; cbn [andb]; [|reflexivity].
  destruct (quarter_turns a Ha H90) as [E Hk]. rewrite E.
  assert (E180 : a mod 180 = (90 * ((a / 90) mod 4)) mod 180).
  { rewrite <- E. change 360 with (180 * 2). rewrite Z.rem_mul_r by lia.
    rewrite Z.mul_comm, Z.mod_add, Z.mod_mod by lia. reflexivity. }
  rewrite E180. set (k := (a / 90) mod 4) in *.
  assert (k = 0 \/ k = 1 \/ k = 2 \/ k = 3) as [-> | [-> | [-> | ->]]] by lia; cbn [negb andb].
  - change (Ok t = Ok (reshape t w h (view t))). rewrite (reshape_view t Ht). reflexivity.
  - rewrite rotate_90_spec. reflexivity.
  - transitivity (rotate_180 w h ch (tile_data t) (new_bytes junk (u32 (w * h * ch)))
                  ≫= fun b => Ok (t <| data := Some b |>)); [reflexivity|].
    rewrite rotate_180_spec, bind_ret, set_data_reshape. reflexivity.
  - rewrite rotate_270_spec. reflexivity.
Qed.
End Geometry.

(** *** Composition *)

Lemma turned_range k w h x y :
  0 <= x < fst (turned_size k w h) -> 0 <= y < snd (turned_size k w h) ->
  0 <= fst (turned k w h x y) < w /\ 0 <= snd (turned k w h x y) < h.
Proof.
  unfold turned, turned_size. intros Hx Hy.
  destruct (Z.eqb_spec k 1), (Z.eqb_spec k 2), (Z.eqb_spec k 3); cbn [fst snd orb] in *; lia.
Qed.

Lemma mirrored_range o w h x y :
  0 <= x < w -> 0 <= y < h -> 0 <= fst (mirrored o w h x y) < w /\ 0 <= snd (mirrored o w h x y) < h.
Proof. unfold mirrored. intros. destruct (o =? 2); cbn [fst snd]; lia. Qed.

Lemma turn_ok k t : image_ok t -> image_ok (turn k t).
Proof.
  intros Ht. pose proof Ht as (Hw & Hh & _). apply (reshape_ok t _ _ (turned k (width t) (height t))).
  - exact Ht.
  - unfold turned_size. destruct (_ || _); cbn [fst snd]; lia.
  - unfold turned_size. destruct (_ || _); cbn [fst snd]; lia.
  - unfold turned_size. destruct (_ || _); cbn [fst snd]; lia.
  - intros x y. apply turned_range.
Qed.

Lemma mirror_ok o t : image_ok t -> image_ok (mirror o t).
Proof.
  intros Ht. pose proof Ht as (Hw & Hh & _).
  apply (reshape_ok t _ _ (mirrored o (width t) (height t))); [exact Ht|lia|lia|lia|].
  intros x y. apply mirrored_range.
Qed.

Lemma view_turn k t x y :
  image_ok t -> 0 <= x < width (turn k t) -> 0 <= y < height (turn k t) ->
  view (turn k t) x y = view t (fst (turned k (width t) (height t) x y)) (snd (turned k (width t) (height t) x y)).
Proof.
  intros Ht Hx Hy. pose proof Ht as (_ & _ & Hc & _).
  unfold turn. rewrite view_reshape; [reflexivity|exact Hc| |exact Hx|exact Hy].
  intros x' y' Hx' Hy'. destruct (turned_range _ _ _ _ _ Hx' Hy'). apply blen_view; assumption.
Qed.

Lemma view_mirror o t x y :
  image_ok t -> 0 <= x < width t -> 0 <= y < height t ->
  view (mirror o t) x y
  = view t (fst (mirrored o (width t) (height t) x y)) (snd (mirrored o (width t) (height t) x y)).
Proof.
  intros Ht Hx Hy. pose proof Ht as (_ & _ & Hc & _).
  unfold mirror. rewrite view_reshape; [reflexivity|exact Hc| |exact Hx|exact Hy].
  intros x' y' Hx' Hy'. destruct (mirrored_range o _ _ _ _ Hx' Hy'). apply blen_view; assumption.
Qed.

(** Two tiles that are the same up to their image are equal when the images are. *)
Lemma reshape_eq t w h w' h' f g :
  w = w' -> h = h' -> (forall x y, 0 <= x < w -> 0 <= y < h -> f x y = g x y) ->
  reshape t w h f = reshape t w' h' g.
Proof. intros <- <-. apply reshape_ext. Qed.

Ltac case_quarter k :=
  let H := fresh in
  assert (H : k = 0 \/ k = 1 \/ k = 2 \/ k = 3) by lia; destruct H as [-> | [-> | [-> | ->]]].

Ltac quarter_coords :=
  repeat match goal with
  | |- context [?a mod 4] => let v := eval vm_compute in (a mod 4) in change (a mod 4) with v
  end; cbn; apply f_equal2; lia.

Lemma turn_turn k l t :
  image_ok t -> 0 <= k < 4 -> 0 <= l < 4 -> turn l (turn k t) = turn ((k + l) mod 4) t.
Proof.
  intros Ht Hk Hl. unfold turn at 1 3. unfold turn at 1. rewrite reshape_reshape.
  apply reshape_eq.
  - case_quarter k; case_quarter l; reflexivity.
  - case_quarter k; case_quarter l; reflexivity.
  - intros x y Hx Hy. destruct (turned_range l _ _ _ _ Hx Hy). rewrite view_turn by assumption.
    case_quarter k; case_quarter l; quarter_coords.
Qed.

(** A flip before a quarter turn is a flip after the inverse turn. *)
Lemma turn_mirror k o t :
  image_ok t -> 0 <= k < 4 -> turn k (mirror o t) = mirror o (turn ((4 - k) mod 4) t).
Proof.
  intros Ht Hk. set (u := turn ((4 - k) mod 4) t).
  transitivity (reshape t (width u) (height u)
    (fun x y => let p := mirrored o (width u) (height u) x y in view u (fst p) (snd p))); [|reflexivity].
  transitivity (reshape t (fst (turned_size k (width t) (height t))) (snd (turned_size k (width t) (height t)))
    (fun x y => let p := turned k (width t) (height t) x y in view (mirror o t) (fst p) (snd p))); [reflexivity|].
  apply reshape_eq; subst u.
  - case_quarter k; reflexivity.
  - case_quarter k; reflexivity.
  - intros x y Hx Hy. destruct (turned_range k _ _ _ _ Hx Hy). rewrite view_mirror by assumption.
    assert (Hm : 0 <= x < width (turn ((4 - k) mod 4) t) /\ 0 <= y < height (turn ((4 - k) mod 4) t))
      by (clear -Hx Hy Hk; case_quarter k; exact (conj Hx Hy)).
    destruct Hm as [Hx' Hy']. destruct (mirrored_range o _ _ _ _ Hx' Hy'). rewrite view_turn by assumption.
    case_quarter k; unfold mirrored; destruct (o =? 2); quarter_coords.
Qed.

Lemma mirror_mirror o t : image_ok t -> mirror o (mirror o t) = t.
Proof.
  intros Ht. rewrite <- (reshape_view t Ht) at 2.
  transitivity (reshape t (width t) (height t)
    (fun x y => let p := mirrored o (width t) (height t) x y in view (mirror o t) (fst p) (snd p))); [reflexivity|].
  apply reshape_ext. intros x y Hx Hy. destruct (mirrored_range o _ _ _ _ Hx Hy).
  rewrite view_mirror by assumption. unfold mirrored. destruct (o =? 2); cbn; apply f_equal2; lia.
Qed.

(** *** Moving pixels to the left in one array *)

Lemma flatten_step_ok (done src : bytes) no :
  Forall is_u8 src -> blen done <= no < blen src -> blen src < 2 ^ 32 ->
  flatten_step (done ++ drop (length done) src, blen done, no)
  = Ok ((done ++ slice src no 1) ++ drop (length (done ++ slice src no 1)) src, blen (done ++ slice src no 1), no + 1).
Proof.
  intros Hs Hn Hb. unfold flatten_step.
  destruct (ld1 (done ++ drop (length done) src) no) as (v & Hv & ->).
  { unfold blen in *. rewrite length_app, length_drop. lia. }
  rewrite bind_ret. unfold blen in *.
  rewrite lookup_app_r, lookup_drop in Hv by lia.
  replace (length done + (Z.to_nat no - length done))%nat with (Z.to_nat no) in Hv by lia.
  assert (Hsl : slice src no 1 = [v]).
  { change 1 with (0 + 1). rewrite (slice_snoc src no 0 v) by (lia || (rewrite Z.add_0_r; exact Hv)). reflexivity. }
  rewrite st1_append; [|reflexivity|unfold blen; rewrite length_drop; lia|rewrite Forall_lookup in Hs; exact (Hs _ _ Hv)].
  rewrite bind_ret, Hsl, drop_drop, !length_app, !u64_small by lia. cbn [length].
  do 2 f_equal. f_equal. lia.
Qed.

Lemma flatten_pixel_ok (done src : bytes) no bands :
  Forall is_u8 src -> 0 <= bands -> blen done <= no -> no + bands <= blen src < 2 ^ 32 ->
  foldM (fun _ s => flatten_step s) (range 0 bands) (done ++ drop (length done) src, blen done, no)
  = Ok ((done ++ slice src no bands) ++ drop (length (done ++ slice src no bands)) src,
        blen (done ++ slice src no bands), no + bands).
Proof.
  intros Hs Hb Hn Hl.
  destruct (foldM_range (fun k s => let d := done ++ slice src no k in s = (d ++ drop (length d) src, blen d, no + k))
    (fun _ s => flatten_step s) 0 bands (done ++ drop (length done) src, blen done, no))
    as (s & E & ->); [lia| | |exact E].
  - unfold slice. cbn [Z.to_nat]. rewrite take_0, app_nil_r. cbv zeta. f_equal. lia.
  - intros k s Hk ->. cbv zeta. assert (Hd : blen (done ++ slice src no k) = blen done + k)
      by (unfold blen in *; rewrite length_app, length_slice by (unfold blen; lia); lia).
    rewrite flatten_step_ok by (assumption || lia).
    assert (Hap : (done ++ slice src no k) ++ slice src (no + k) 1 = done ++ slice src no (k + 1)).
    { rewrite <- app_assoc. f_equal. unfold blen in *.
      destruct (lookup_lt_is_Some_2 src (Z.to_nat (no + k))) as [v Hv]; [lia|].
      rewrite (slice_snoc src no k v) by (assumption || lia). f_equal.
      change 1 with (0 + 1). rewrite (slice_snoc src (no + k) 0 v) by (lia || (rewrite Z.add_0_r; exact Hv)).
      reflexivity. }
    rewrite Hap. eexists. split; [reflexivity|]. cbv zeta. f_equal. lia.
Qed.

(** Writing one byte per pixel, or rewriting each byte in place. *)
Lemma fill_bytes (f : Z -> Z) (body : Z -> bytes -> res bytes) n (b0 : bytes) :
  0 <= n -> blen b0 = n ->
  (forall i b, 0 <= i < n -> blen b = n -> (forall j, i <= j < n -> b !! Z.to_nat j = b0 !! Z.to_nat j) ->
     body i b = st 1 b i (f i)) ->
  (forall i, 0 <= i < n -> is_u8 (f i)) ->
  foldM body (range 0 n) b0 = Ok (f <$> range 0 n).
Proof.
  intros Hn Hb Hbody Hf.
  destruct (foldM_range (fun k b => b = (f <$> range 0 k) ++ drop (Z.to_nat k) b0) body 0 n b0) as (b & E & ->);
    [lia| | |].
  - rewrite range_nil by lia. reflexivity.
  - intros i b Hi ->. assert (Hl : blen (f <$> range 0 i) = i)
      by (unfold blen; rewrite length_fmap, length_range; lia).
    rewrite Hbody.
    + rewrite st1_append; [|symmetry; exact Hl|unfold blen in *; rewrite length_drop; lia|apply Hf; lia].
      eexists. split; [reflexivity|]. rewrite drop_drop, (range_snoc 0 (i + 1)) by lia.
      replace (i + 1 - 1) with i by lia. rewrite fmap_app. f_equal. f_equal. lia.
    + lia.
    + unfold blen in *. rewrite length_app, length_drop. lia.
    + intros j Hj. unfold blen in *. rewrite lookup_app_r, lookup_drop by lia. f_equal. lia.
  - rewrite E, drop_ge, app_nil_r by (unfold blen in *; lia). reflexivity.
Qed.

Section Pixels.
Context (junk : Z -> Z) (t : RawTile) (Ht : image_ok t).

#[local] Abbreviation w := (width t).
#[local] Abbreviation h := (height t).
#[local] Abbreviation ch := (channels t).

(** The first [bands] samples of every pixel. *)
Definition bands_of (bands : Z) : bytes := tabulate w h (fun x y => take (Z.to_nat bands) (view t x y)).

Lemma flatten_spec bands :
  0 <= bands < ch ->
  flatten t bands = Ok (t <| data := Some (bands_of bands ++ drop (length (bands_of bands)) (tile_data t)) |>
                          <| channels := bands |> <| dataLength := u32 (w * h * bands * (bpc t / 8)) |>).
Proof.
  intros Hbands. pose proof (image_sizes t Ht) as Hsz. pose proof (blen_tile_data t Ht) as Hb.
  pose proof (tile_data_u8 t Ht) as Hu. assert (Hwh : 1 <= w /\ 1 <= h /\ 1 <= ch) by (destruct Ht; tauto).
  unfold flatten. rewrite (proj2 (Z.leb_gt ch bands)) by lia. cbv zeta.
  rewrite (u32_small (w * h)), (u32_small (ch - bands)) by nia.
  set (src := tile_data t) in *. set (px i := slice src (i * ch) bands).
  destruct (foldM_range (fun i s => let d := range 0 i ≫= px in
      s = (d ++ drop (length d) src, i * bands, i * ch))
    (fun _ s => '(buf, ni, no) ← foldM (fun _ s => flatten_step s) (range 0 bands) s;
                Ok (buf, ni, u64 (no + (ch - bands)))) 0 (w * h) (src, 0, 0)) as (s & E & Hs).
  - nia.
  - cbv zeta. rewrite range_nil by lia. reflexivity.
  - intros i s Hi ->. cbv zeta. set (d := range 0 i ≫= px).
    assert (Hd : blen d = i * bands).
    { unfold d. rewrite (blen_bind _ _ bands), length_range; [f_equal; lia|].
      intros j Hj%elem_of_range. unfold px, blen. rewrite length_slice by nia. lia. }
    rewrite <- Hd. rewrite flatten_pixel_ok by (assumption || nia). rewrite bind_ret.
    rewrite u64_small by nia. eexists. split; [reflexivity|]. cbv zeta.
    assert (Hs : d ++ slice src (i * ch) bands = range 0 (i + 1) ≫= px).
    { rewrite (range_snoc 0 (i + 1)), bind_app by lia. replace (i + 1 - 1) with i by lia.
      change ([i] ≫= px) with (px i ++ []). rewrite app_nil_r. reflexivity. }
    rewrite blen_app, Hd, Hs. unfold blen. rewrite length_slice by nia. apply f_equal2; [|lia].
    apply f_equal2; [reflexivity|lia].
  - cbv zeta in Hs. rewrite E, Hs, bind_ret.
    assert (Hpx : range 0 (w * h) ≫= px = bands_of bands).
    { rewrite bind_rows by lia. apply tabulate_ext. intros x y Hx Hy.
      destruct (pixel_range t Ht x y Hx Hy). unfold px, view.
      change (take (Z.to_nat bands) (slice ?s ?i ?n)) with (slice (slice s i n) 0 bands).
      rewrite slice_slice, Z.add_0_r by lia. reflexivity. }
    rewrite Hpx. unfold write_data. destruct Ht as (_ & _ & _ & _ & b & Eb & _). rewrite Eb. reflexivity.
Qed.

(** The sample [i] of the array. *)
Definition sample (i : Z) : Z := default 0 (tile_data t !! Z.to_nat i).

Lemma ld_sample i : 0 <= i < w * h * ch -> ld 1 (tile_data t) i = Ok (sample i) /\ is_u8 (sample i).
Proof.
  intros Hi. destruct (ld1 (tile_data t) i) as (v & Hv & E); [rewrite (blen_tile_data t Ht); exact Hi|].
  unfold sample. rewrite Hv. split; [exact E|].
  pose proof (tile_data_u8 t Ht) as Hu. rewrite Forall_lookup in Hu. exact (Hu _ _ Hv).
Qed.

Lemma greyscale_spec :
  bpc t = 8 -> ch = 3 ->
  greyscale junk t = Ok (t <| data := Some ((fun i => luminance (sample (3 * i)) (sample (3 * i + 1)) (sample (3 * i + 2)))
                                             <$> range 0 (w * h)) |>
                           <| channels := 1 |> <| dataLength := w * h |>).
Proof.
  intros Hbpc Hch. pose proof (image_sizes t Ht) as Hsz. assert (Hwh : 1 <= w /\ 1 <= h) by (destruct Ht; tauto).
  unfold greyscale. rewrite Hbpc, Hch. change (negb (8 =? 8) || negb (3 =? 3)) with false. cbv iota zeta.
  rewrite (u32_small (w * h)) by nia.
  rewrite (fill_bytes (fun i => luminance (sample (3 * i)) (sample (3 * i + 1)) (sample (3 * i + 2)))).
  - reflexivity.
  - nia.
  - rewrite blen_new_bytes; nia.
  - intros i b Hi Hb _. rewrite Hch in Hsz. rewrite (u32_small (i * 3)), !u32_small by lia.
    rewrite (Z.mul_comm i 3).
    rewrite (proj1 (ld_sample (3 * i) ltac:(rewrite Hch; lia))), bind_ret.
    rewrite (proj1 (ld_sample (3 * i + 1) ltac:(rewrite Hch; lia))), bind_ret.
    rewrite (proj1 (ld_sample (3 * i + 2) ltac:(rewrite Hch; lia))), bind_ret. reflexivity.
  - intros i Hi. apply u8_range.
Qed.

(** Black and white, of a tile with one channel. *)
Lemma binary_one_spec threshold :
  bpc t = 8 -> ch = 1 ->
  binary junk t threshold = Ok (t <| data := Some ((fun i => if sample i <? threshold then 0 else 255)
                                                    <$> range 0 (w * h)) |>).
Proof.
  intros Hbpc Hch. pose proof (image_sizes t Ht) as Hsz. pose proof (blen_tile_data t Ht) as Hbl.
  assert (Hwh : 1 <= w /\ 1 <= h) by (destruct Ht; tauto).
  unfold binary, greyscale. rewrite Hbpc, Hch. change (negb (8 =? 8)) with false. cbn [orb].
  change (negb (1 =? 3)) with true. cbv iota. rewrite bind_ret. cbv zeta.
  rewrite (u32_small (w * h)) by nia.
  rewrite (fill_bytes (fun i => if sample i <? threshold then 0 else 255)).
  - rewrite bind_ret. unfold write_data. destruct Ht as (_ & _ & _ & _ & b & Eb & _). rewrite Eb. reflexivity.
  - nia.
  - rewrite Hbl, Hch. lia.
  - intros i b Hi Hb Hsame. destruct (ld1 b i) as (v & Hv & E); [lia|]. rewrite E, bind_ret.
    rewrite Hsame in Hv by lia. unfold sample. rewrite Hv. reflexivity.
  - intros i Hi. destruct (_ <? _); unfold is_u8; lia.
Qed.
End Pixels.

(** The weights of the luminance add up to one: it is between the smallest and
    the largest of the three samples, and a grey pixel keeps its value. *)
Lemma luminance_bounds lo hi R G B :
  0 <= lo -> hi < 256 -> lo <= R <= hi -> lo <= G <= hi -> lo <= B <= hi -> lo <= luminance R G B <= hi.
Proof.
  intros Hlo Hhi HR HG HB. unfold luminance. rewrite Z.shiftr_div_pow2 by lia. change (2 ^ 22) with 4194304.
  assert (H : lo <= (1254097 * R + 2462056 * G + 478151 * B) / 4194304 <= hi).
  { split; [apply Z.div_le_lower_bound; lia|].
    assert ((1254097 * R + 2462056 * G + 478151 * B) / 4194304 < hi + 1); [|lia].
    apply Z.div_lt_upper_bound; lia. }
  rewrite u8_small by lia. exact H.
Qed.

(** ** Resampling to the nearest neighbour *)

(** The source column (or row) of the column (or row) [i] of the result. *)
Definition nearest (size resampled i : Z) : Z := floorZ (fmul b32 (of_Z b32 i) (scale size resampled)).

Lemma nn_index_ok a b i :
  0 < a < 2 ^ 23 -> 0 < b < 2 ^ 23 -> 0 <= i < b ->
  nn_index (scale a b) i = Ok (nearest a b i) /\ 0 <= nearest a b i < a
  /\ (forall k, k * b <= a -> k * i <= nearest a b i).
Proof.
  intros Ha Hb Hi. destruct (floor_scaled a b i Ha Hb Hi) as (O & R & K).
  split; [|split; [exact R|exact K]]. unfold nn_index, to_u32, ffloor.
  apply to_int_within; [|exact (proj1 R)|unfold nearest, scale; lia].
  apply integral_within; [exact b32_ok|exact O|reflexivity| |reflexivity].
  unfold nearest, scale. cbn [prec b32]. lia.
Qed.

(** The samples of one pixel; [new] tells whether the result has an array of
    its own or is written over the input, of which only the pixels that are
    still to come are then intact. *)
Lemma nn_pixel (new : bool) (src done rest : bytes) ch p :
  Forall is_u8 src -> 0 <= ch -> 0 <= p -> p + ch <= blen src < 2 ^ 32 ->
  ch <= blen rest -> blen done + blen rest < 2 ^ 32 ->
  (new = false -> rest = drop (length done) src /\ blen done <= p) ->
  foldM (fun k out =>
      v ← ld 1 (if new then src else out) (u64 (p + k));
      st 1 out (u64 (blen done + k)) v) (range 0 ch) (done ++ rest)
  = Ok ((done ++ slice src p ch) ++ drop (Z.to_nat ch) rest).
Proof.
  intros Hs Hch Hp Hl Hr Hb Hin.
  destruct (foldM_range (fun k b => b = (done ++ slice src p k) ++ drop (Z.to_nat k) rest)
    (fun k out => v ← ld 1 (if new then src else out) (u64 (p + k)); st 1 out (u64 (blen done + k)) v)
    0 ch (done ++ rest)) as (b & E & ->); [lia| | |exact E].
  - unfold slice. cbn [Z.to_nat]. rewrite take_0, drop_0, app_nil_r. reflexivity.
  - intros k b Hk ->. rewrite !u64_small by (unfold blen in *; lia).
    assert (Hd : blen (done ++ slice src p k) = blen done + k)
      by (rewrite blen_app; unfold blen; rewrite length_slice by lia; lia).
    assert (Hv : exists v, src !! Z.to_nat (p + k) = Some v /\
      ld 1 (if new then src else (done ++ slice src p k) ++ drop (Z.to_nat k) rest) (p + k) = Ok v).
    { destruct new; [apply ld1; lia|]. destruct (Hin eq_refl) as [Hrest Hle].
      destruct (ld1 ((done ++ slice src p k) ++ drop (Z.to_nat k) rest) (p + k)) as (v & Hv & E).
      { rewrite blen_app, Hd. unfold blen in *. rewrite length_drop, Hrest, length_drop. lia. }
      exists v. split; [|exact E]. rewrite <- Hv, lookup_app_r, lookup_drop by (unfold blen in *; lia).
      rewrite Hrest, lookup_drop. f_equal. unfold blen in *. lia. }
    destruct Hv as (v & Hv & E). rewrite E, bind_ret.
    rewrite st1_append; [|symmetry; exact Hd|unfold blen in *; rewrite length_drop; lia
                        |rewrite Forall_lookup in Hs; exact (Hs _ _ Hv)].
    eexists. split; [reflexivity|]. rewrite (slice_snoc _ _ _ v) by (assumption || lia).
    rewrite drop_drop, !app_assoc. f_equal. f_equal. lia.
Qed.

Section Nearest.
Context (junk : Z -> Z) (t : RawTile) (Ht : image_ok t) (rw rh : Z).
Context (Hw : width t < 2 ^ 23) (Hh : height t < 2 ^ 23) (Hrw : 0 < rw < 2 ^ 23) (Hrh : 0 < rh < 2 ^ 23).
Context (Hsize : rw * rh * channels t < 2 ^ 31).
Context (Hshape : (rw <= width t /\ rh <= height t) \/ width t * height t < rw * rh).

#[local] Abbreviation w := (width t).
#[local] Abbreviation h := (height t).
#[local] Abbreviation ch := (channels t).

Definition nn_image (x y : Z) : bytes := view t (nearest w rw x) (nearest h rh y).

Definition nn_new : bool := w * h <? rw * rh.
Definition nn_target : bytes := if nn_new then new_bytes junk (rw * rh * ch) else tile_data t.

Lemma nn_sizes : 1 <= w /\ 1 <= h /\ 1 <= ch /\ 0 < rw * rh /\ rw * rh < 2 ^ 31 /\ 0 < rw * rh * ch.
Proof. destruct Ht as (H1 & H2 & H3 & _). nia. Qed.

Lemma nn_nearest x y :
  0 <= x < rw -> 0 <= y < rh ->
  0 <= nearest w rw x < w /\ 0 <= nearest h rh y < h
  /\ (nn_new = false -> x + y * rw <= nearest w rw x + nearest h rh y * w).
Proof.
  intros Hx Hy. pose proof nn_sizes as (Hw1 & Hh1 & _).
  destruct (nn_index_ok w rw x) as (_ & Rx & Kx); [lia|lia|lia|].
  destruct (nn_index_ok h rh y) as (_ & Ry & Ky); [lia|lia|lia|].
  split; [exact Rx|]. split; [exact Ry|]. intros Hn.
  unfold nn_new in Hn. apply Z.ltb_ge in Hn. destruct Hshape as [[S1 S2]|S]; [|lia].
  pose proof (Kx 1 ltac:(lia)). pose proof (Ky 1 ltac:(lia)). nia.
Qed.

Lemma blen_nn_image x y : 0 <= x < rw -> 0 <= y < rh -> blen (nn_image x y) = ch.
Proof. intros Hx Hy. destruct (nn_nearest x y Hx Hy) as (R1 & R2 & _). apply blen_view; assumption. Qed.

Lemma blen_nn_target : rw * rh * ch <= blen nn_target /\ blen nn_target < 2 ^ 31.
Proof.
  pose proof nn_sizes as (Hw1 & Hh1 & Hc & H3 & H4 & H5). pose proof (image_sizes t Ht) as Hsz.
  unfold nn_target, nn_new. destruct (Z.ltb_spec (w * h) (rw * rh)) as [L|L].
  - rewrite blen_new_bytes; lia.
  - rewrite (blen_tile_data t Ht). nia.
Qed.

(** The pixels of the first rows, and of the current row. *)
Definition nn_done (j i : Z) : bytes :=
  (range 0 j ≫= fun y => range 0 rw ≫= fun x => nn_image x y) ++ (range 0 i ≫= fun x => nn_image x j).

Lemma blen_nn_done j i : 0 <= j <= rh -> 0 <= i <= rw -> (j < rh \/ i = 0) -> blen (nn_done j i) = (i + j * rw) * ch.
Proof.
  intros Hj Hi Hji. unfold nn_done. rewrite blen_app.
  rewrite (blen_bind _ _ (rw * ch)), (blen_bind _ _ ch), !length_range.
  - rewrite !Z2Nat.id by lia. ring.
  - intros x Hx%elem_of_range. apply blen_nn_image; lia.
  - intros y Hy%elem_of_range. rewrite (blen_bind _ _ ch), length_range; [f_equal; lia|].
    intros x Hx%elem_of_range. apply blen_nn_image; lia.
Qed.

Lemma nn_done_snoc j i : 0 <= i -> nn_done j i ++ nn_image i j = nn_done j (i + 1).
Proof.
  intros Hi. unfold nn_done. rewrite (range_snoc 0 (i + 1)), bind_app by lia.
  replace (i + 1 - 1) with i by lia. change ([i] ≫= ?f) with (f i ++ []). rewrite app_nil_r, app_assoc. reflexivity.
Qed.

Lemma nn_done_row j : 0 <= j -> nn_done j rw = nn_done (j + 1) 0.
Proof.
  intros Hj. unfold nn_done. rewrite (range_snoc 0 (j + 1)), bind_app by lia.
  replace (j + 1 - 1) with j by lia. change ([j] ≫= ?f) with (f j ++ []).
  rewrite (range_nil 0 0) by lia. change ([] ≫= ?f) with (@nil Z). rewrite !app_nil_r. reflexivity.
Qed.

(** One pixel of the double loop. *)
Lemma nn_body j i :
  0 <= j < rh -> 0 <= i < rw ->
  (ii ← nn_index (scale w rw) i;
   jj ← nn_index (scale h rh) j;
   foldM (fun k out =>
       v ← ld 1 (if nn_new then tile_data t else out) (u64 (u64 (ch * (ii + jj * w)) + k));
       st 1 out (u64 (u64 (u32 (i + j * rw) * ch) + k)) v) (range 0 ch)
     (nn_done j i ++ drop (length (nn_done j i)) nn_target))
  = Ok (nn_done j (i + 1) ++ drop (length (nn_done j (i + 1))) nn_target).
Proof.
  intros Hj Hi. pose proof nn_sizes as (Hw1 & Hh1 & Hc & H3 & H4 & H5). pose proof (image_sizes t Ht) as Hsz.
  pose proof blen_nn_target as [HT1 HT2]. pose proof (blen_tile_data t Ht) as HB.
  destruct (nn_index_ok w rw i) as (-> & Rx & _); [lia|lia|lia|].
  destruct (nn_index_ok h rh j) as (-> & Ry & _); [lia|lia|lia|]. rewrite !bind_ret.
  destruct (nn_nearest i j Hi Hj) as (_ & _ & Hle).
  pose proof (pixel_range t Ht _ _ Rx Ry) as [P1 P2].
  pose proof (blen_nn_done j i ltac:(lia) ltac:(lia) ltac:(lia)) as Hd.
  pose proof (row_major_bound rw rh i j Hi Hj) as Hij.
  assert (Hfit : (i + j * rw) * ch + ch <= rw * rh * ch) by nia.
  rewrite (u32_small (i + j * rw)), (u64_small ((i + j * rw) * ch)) by lia.
  replace (ch * (nearest w rw i + nearest h rh j * w)) with ((nearest h rh j * w + nearest w rw i) * ch) by ring.
  rewrite (u64_small (_ * ch)) by lia. rewrite <- Hd.
  rewrite (nn_pixel nn_new (tile_data t)); [|exact (tile_data_u8 t Ht)|lia|exact P1|lia| | |].
  - apply (f_equal Ok). change (slice (tile_data t) _ ch) with (nn_image i j).
    rewrite nn_done_snoc, drop_drop by lia. f_equal. f_equal.
    rewrite <- nn_done_snoc, length_app by lia. pose proof (blen_nn_image i j Hi Hj) as Hb. unfold blen in Hb. lia.
  - unfold blen in *. rewrite length_drop. lia.
  - unfold blen in *. rewrite length_drop. lia.
  - intros Hn. unfold nn_target. rewrite Hn. split; [reflexivity|]. rewrite Hd. specialize (Hle Hn). nia.
Qed.

Lemma nn_spec :
  interpolate_nearestneighbour junk t rw rh
  = Ok ((reshape t rw rh nn_image)
          <| data := Some (tabulate rw rh nn_image ++ drop (length (tabulate rw rh nn_image)) nn_target) |>
          <| dataLength := u32 (rw * rh * ch * (bpc t / 8)) |>).
Proof.
  pose proof nn_sizes as (Hw1 & Hh1 & Hc & H3 & H4 & H5). pose proof (image_sizes t Ht) as Hsz.
  unfold interpolate_nearestneighbour. cbv zeta.
  rewrite (u32_small (w * h)), (u32_small (rw * rh)), (u64_small (rw * rh * ch)) by lia.
  change (w * h <? rw * rh) with nn_new. change (if nn_new then new_bytes junk (rw * rh * ch) else tile_data t) with nn_target.
  set (P j i (b : bytes) := b = nn_done j i ++ drop (length (nn_done j i)) nn_target).
  match goal with |- (foldM ?body _ _ ≫= _) = _ =>
    destruct (foldM_range (fun j => P j 0) body 0 rh nn_target) as (b & E & Hb) end.
  - lia.
  - unfold P, nn_done. rewrite !(range_nil 0 0) by lia. reflexivity.
  - intros j b Hj Hb.
    match goal with |- exists t', foldM ?body _ _ = _ /\ _ =>
      destruct (foldM_range (P j) body 0 rw b) as (b' & E & Hb') end.
    + lia.
    + exact Hb.
    + intros i c Hi ->. eexists. split; [apply nn_body; assumption|reflexivity].
    + exists b'. split; [exact E|]. unfold P in *. rewrite Hb', nn_done_row by lia. reflexivity.
  - rewrite E, bind_ret. unfold P in Hb. rewrite Hb.
    assert (Ed : nn_done rh 0 = tabulate rw rh nn_image).
    { unfold nn_done. rewrite (range_nil 0 0) by lia. apply app_nil_r. }
    rewrite Ed. reflexivity.
Qed.
End Nearest.

(** ** Bilinear resampling *)

(** The weights of a cell are between 0 and 1 and add up to 1, up to [2 ^ - 14]. *)
Lemma bilinear_cell_ok a b i :
  0 < a < 2 ^ 23 -> 0 < b < 2 ^ 23 -> 0 <= i < b ->
  0 <= nearest a b i < a /\
  exists wa wb q, bilinear_cell (scale a b) i = Ok (nearest a b i, wa, wb) /\ 0 <= q < 2 ^ 14
    /\ fx wa (2 ^ 14 - q - 1) (2 ^ 14 - q) /\ fx wb q (q + 1).
Proof.
  intros Ha Hb Hi. destruct (floor_scaled a b i Ha Hb Hi) as (O & R & _).
  change (fmul b32 (of_Z b32 i) (fdiv b32 (of_Z b32 a) (of_Z b32 b)))
    with (fmul b32 (of_Z b32 i) (scale a b)) in O, R.
  split; [exact R|]. unfold bilinear_cell, nearest in *. set (s := fmul b32 (of_Z b32 i) (scale a b)) in *.
  set (ii := floorZ s) in *. pose proof (den_pos s) as Ds.
  assert (E : to_i32 (ffloor b32 s) = Ok ii).
  { unfold to_i32, ffloor. apply to_int_within; [|lia|lia].
    apply integral_within; [exact b32_ok|exact O|reflexivity|cbn; lia|reflexivity]. }
  rewrite E, bind_ret.
  destruct (of_Z_exact b32 ii b32_ok ltac:(cbn; lia)) as [O0 W0].
  destruct (of_Z_exact b32 (ii + 1) b32_ok ltac:(cbn; lia)) as [O1 W1].
  pose proof (den_pos (of_Z b32 ii)) as D0. pose proof (den_pos (of_Z b32 (ii + 1))) as D1.
  assert (N0 : num (of_Z b32 ii) = ii * den (of_Z b32 ii)) by lia.
  assert (N1 : num (of_Z b32 (ii + 1)) = (ii + 1) * den (of_Z b32 (ii + 1))) by lia.
  assert (Hfl : ii * den s <= num s < (ii + 1) * den s).
  { subst ii. unfold floorZ. pose proof (Z.div_mod (num s) (den s) ltac:(lia)).
    pose proof (Z.mod_pos_bound (num s) (den s) Ds). nia. }
  set (r := (num s - ii * den s) * 2 ^ 14). set (q := r / den s).
  assert (Hq : q * den s <= r < (q + 1) * den s).
  { subst q. pose proof (Z.div_mod r (den s) ltac:(lia)). pose proof (Z.mod_pos_bound r (den s) Ds). nia. }
  assert (Hqr : 0 <= q < 2 ^ 14).
  { split; [apply Z.div_pos; subst r; lia|]. apply Z.div_lt_upper_bound; subst r; lia. }
  do 3 eexists. split; [reflexivity|]. split; [exact Hqr|]. split.
  - apply fx_sub; [exact O1|exact O|lia|lia|]. rewrite N1. set (d1 := den (of_Z b32 (ii + 1))) in *.
    replace (((ii + 1) * d1 * den s - num s * d1) * 2 ^ 14) with (d1 * (2 ^ 14 * den s - r)) by (subst r; ring).
    split; [replace ((2 ^ 14 - q - 1) * (d1 * den s)) with (d1 * ((2 ^ 14 - q - 1) * den s)) by ring
           |replace ((2 ^ 14 - q) * (d1 * den s)) with (d1 * ((2 ^ 14 - q) * den s)) by ring];
      apply Z.mul_le_mono_nonneg_l; lia.
  - apply fx_sub; [exact O|exact O0|lia|lia|]. rewrite N0. set (d0 := den (of_Z b32 ii)) in *.
    replace ((num s * d0 - ii * d0 * den s) * 2 ^ 14) with (d0 * r) by (subst r; ring).
    split; [replace (q * (den s * d0)) with (d0 * (q * den s)) by ring
           |replace ((q + 1) * (den s * d0)) with (d0 * ((q + 1) * den s)) by ring];
      apply Z.mul_le_mono_nonneg_l; lia.
Qed.

(** Two samples between [lo] and [hi], weighted. *)
Lemma fx_lerp v v' wa wb q lo hi :
  0 <= q < 2 ^ 14 -> fx wa (2 ^ 14 - q - 1) (2 ^ 14 - q) -> fx wb q (q + 1) ->
  0 <= lo -> hi < 256 -> lo <= v <= hi -> lo <= v' <= hi ->
  fx (fadd b32 (fmul b32 (of_Z b32 v) wa) (fmul b32 (of_Z b32 v') wb)) (lo * (2 ^ 14 - 1)) (hi * (2 ^ 14 + 1)).
Proof.
  intros Hq Ha Hb Hlo Hhi Hv Hv'.
  assert (H1 : fx (fmul b32 (of_Z b32 v) wa) (v * (2 ^ 14 - q - 1)) (v * (2 ^ 14 - q))).
  { eapply fx_mul; [apply fx_of_Z; lia|exact Ha|nia|lia|lia|nia]. }
  assert (H2 : fx (fmul b32 (of_Z b32 v') wb) (v' * q) (v' * (q + 1))).
  { eapply fx_mul; [apply fx_of_Z; lia|exact Hb|nia|lia|lia|nia]. }
  eapply fx_weaken; [| |exact (fx_add _ _ _ _ _ _ H1 H2 ltac:(nia))]; nia.
Qed.

Lemma to_u8_fx x lo hi :
  fx x lo hi -> hi < 256 * 2 ^ 14 -> exists r, to_u8 x = Ok r /\ 0 <= r /\ lo / 2 ^ 14 <= r <= hi / 2 ^ 14.
Proof.
  intros Hx Hhi. pose proof (fx_num _ _ _ Hx) as Nx. destruct Hx as (O & Hlo & H). pose proof (den_pos x) as D.
  unfold to_u8, to_int. rewrite (okf_finite x O). unfold truncZ. rewrite Z.quot_div_nonneg by lia.
  set (r := num x / den x). assert (Hr : r * den x <= num x < (r + 1) * den x).
  { subst r. pose proof (Z.div_mod (num x) (den x) ltac:(lia)). pose proof (Z.mod_pos_bound (num x) (den x) D). nia. }
  assert (H1 : r * 2 ^ 14 <= hi).
  { apply (Z.mul_le_mono_pos_r _ _ (den x)); [exact D|]. nia. }
  assert (H2 : lo < (r + 1) * 2 ^ 14).
  { apply (Z.mul_lt_mono_pos_r (den x)); [exact D|]. nia. }
  assert (0 <= r) by (apply Z.div_pos; lia).
  rewrite (proj2 (Z.leb_le 0 r)), (proj2 (Z.ltb_lt r (2 ^ 8))) by lia. cbn [andb].
  exists r. split; [reflexivity|]. split; [assumption|]. split.
  - assert (lo / 2 ^ 14 < r + 1) by (apply Z.div_lt_upper_bound; lia). lia.
  - apply Z.div_le_lower_bound; lia.
Qed.

(** The numbers of the last step, in units of [2 ^ - 14]. *)
Lemma lerp_numbers q lo hi :
  0 <= q < 2 ^ 14 -> 0 <= lo -> hi < 256 ->
  let sl := (2 ^ 14 - q - 1) * (lo * (2 ^ 14 - 1)) / 2 ^ 14 + q * (lo * (2 ^ 14 - 1)) / 2 ^ 14 in
  let sh := (2 ^ 14 - q) * (hi * (2 ^ 14 + 1)) / 2 ^ 14 + 1 + ((q + 1) * (hi * (2 ^ 14 + 1)) / 2 ^ 14 + 1) in
  lo <= hi -> 0 <= sl /\ sh < 256 * 2 ^ 14 /\ lo - 1 <= sl / 2 ^ 14 /\ sh / 2 ^ 14 <= hi.
Proof.
  intros Hq Hlo Hhi sl sh Hle.
  set (x1 := (2 ^ 14 - q - 1) * (lo * (2 ^ 14 - 1))) in *. set (x2 := q * (lo * (2 ^ 14 - 1))) in *.
  set (y1 := (2 ^ 14 - q) * (hi * (2 ^ 14 + 1))) in *. set (y2 := (q + 1) * (hi * (2 ^ 14 + 1))) in *.
  assert (Hx : x1 + x2 = (2 ^ 14 - 1) * (lo * (2 ^ 14 - 1))) by (subst x1 x2; ring).
  assert (Hy : y1 + y2 = (2 ^ 14 + 1) * (hi * (2 ^ 14 + 1))) by (subst y1 y2; ring).
  pose proof (Z.mul_succ_div_gt x1 (2 ^ 14) ltac:(lia)). pose proof (Z.mul_succ_div_gt x2 (2 ^ 14) ltac:(lia)).
  pose proof (Z.mul_div_le y1 (2 ^ 14) ltac:(lia)). pose proof (Z.mul_div_le y2 (2 ^ 14) ltac:(lia)).
  assert (0 <= x1 / 2 ^ 14) by (apply Z.div_pos; subst x1; nia).
  assert (0 <= x2 / 2 ^ 14) by (apply Z.div_pos; subst x2; nia).
  clearbody x1 x2 y1 y2. subst sl sh. split; [lia|]. split; [lia|]. split.
  - apply Z.div_le_lower_bound; lia.
  - assert ((y1 / 2 ^ 14 + 1 + (y2 / 2 ^ 14 + 1)) / 2 ^ 14 < hi + 1); [|lia].
    apply Z.div_lt_upper_bound; lia.
Qed.

(** A weighted sum, rounded outwards to units of [2 ^ - 14]. *)
Lemma fx_mul_outward x y a b c d :
  fx x a b -> fx y c d -> 0 <= a * c -> 0 <= b * d < 2 ^ 37 ->
  fx (fmul b32 x y) (a * c / 2 ^ 14) (b * d / 2 ^ 14 + 1).
Proof.
  intros Hx Hy H1 H2. eapply fx_mul; [exact Hx|exact Hy| | | |].
  - apply Z.div_pos; lia.
  - rewrite Z.mul_comm. apply Z.mul_div_le. lia.
  - pose proof (Z.mul_succ_div_gt (b * d) (2 ^ 14) ltac:(lia)). lia.
  - assert (b * d / 2 ^ 14 < 2 ^ 24 - 1); [|lia]. apply Z.div_lt_upper_bound; lia.
Qed.

(** A sample of the result is at most the largest and at least the smallest of
    its four neighbours less one: the sum is truncated. *)
Lemma bilinear_sample_ok input p11 p12 p21 p22 k wa wb wc wd qx qy lo hi v11 v12 v21 v22 :
  0 <= qx < 2 ^ 14 -> fx wa (2 ^ 14 - qx - 1) (2 ^ 14 - qx) -> fx wb qx (qx + 1) ->
  0 <= qy < 2 ^ 14 -> fx wc (2 ^ 14 - qy - 1) (2 ^ 14 - qy) -> fx wd qy (qy + 1) ->
  ld 1 input (u64 (p11 + k)) = Ok v11 -> ld 1 input (u64 (p12 + k)) = Ok v12 ->
  ld 1 input (u64 (p21 + k)) = Ok v21 -> ld 1 input (u64 (p22 + k)) = Ok v22 ->
  0 <= lo -> hi < 256 -> Forall (fun v => lo <= v <= hi) [v11; v12; v21; v22] ->
  exists r, bilinear_sample input p11 p12 p21 p22 k wa wb wc wd = Ok r /\ 0 <= r /\ lo - 1 <= r <= hi.
Proof.
  intros Hqx Ha Hb Hqy Hc Hd E11 E12 E21 E22 Hlo Hhi Hv.
  repeat (apply list.Forall_cons in Hv as [? Hv]).
  unfold bilinear_sample. rewrite E11, E21, E12, E22, !bind_ret.
  pose proof (fx_lerp v11 v21 wa wb qx lo hi Hqx Ha Hb Hlo Hhi ltac:(lia) ltac:(lia)) as Tx.
  pose proof (fx_lerp v12 v22 wa wb qx lo hi Hqx Ha Hb Hlo Hhi ltac:(lia) ltac:(lia)) as Ty.
  set (tx := fadd b32 _ _) in Tx |- *. set (ty := fadd b32 (fmul b32 (of_Z b32 v12) _) _) in Ty |- *.
  assert (0 <= lo * (2 ^ 14 - 1)) by lia. assert (0 <= hi * (2 ^ 14 + 1) < 2 ^ 22 + 2 ^ 9) by lia.
  pose proof (fx_mul_outward _ _ _ _ _ _ Hc Tx ltac:(nia) ltac:(nia)) as Px.
  pose proof (fx_mul_outward _ _ _ _ _ _ Hd Ty ltac:(nia) ltac:(nia)) as Py.
  destruct (lerp_numbers qy lo hi Hqy Hlo Hhi ltac:(lia)) as (S1 & S2 & S3 & S4).
  destruct (to_u8_fx _ _ _ (fx_add _ _ _ _ _ _ Px Py ltac:(lia)) S2) as (r & Er & Hr0 & Hr).
  exists r. split; [exact Er|lia].
Qed.

Section Bilinear.
Context (junk : Z -> Z) (t : RawTile) (Ht : image_ok t) (rw rh : Z).
Context (Hw : width t < 2 ^ 23) (Hh : height t < 2 ^ 23) (Hrw : 0 < rw < 2 ^ 23) (Hrh : 0 < rh < 2 ^ 23).
Context (Hsize : rw * rh * channels t < 2 ^ 31).

#[local] Abbreviation w := (width t).
#[local] Abbreviation h := (height t).
#[local] Abbreviation ch := (channels t).

(** The index of the pixel at column [x], row [y] of the input, held to the last
    pixel of the array. *)
Definition corner (x y : Z) : Z := Z.min (ch * (x + y * w)) ((w * h - 1) * ch).

(** The samples of channel [k] the pixel at [x], [y] of the result is made of. *)
Definition corners (x y k : Z) : list Z :=
  let ii := nearest w rw x in
  let jj := nearest h rh y in
  [sample t (corner ii jj + k); sample t (corner ii (jj + 1) + k);
   sample t (corner (ii + 1) jj + k); sample t (corner (ii + 1) (jj + 1) + k)].

(** What a sample of the result may be. *)
Definition blended (x y k r : Z) : Prop :=
  forall lo hi, 0 <= lo -> hi < 256 -> Forall (fun v => lo <= v <= hi) (corners x y k) -> lo - 1 <= r <= hi.

Lemma corner_ok x y k :
  0 <= x -> 0 <= y -> 0 <= k < ch -> 0 <= corner x y + k < w * h * ch.
Proof.
  intros Hx Hy Hk. destruct Ht as (W & H & C & _). unfold corner.
  assert (1 <= w * h) by nia. assert (0 <= (w * h - 1) * ch) by nia.
  assert ((w * h - 1) * ch = w * h * ch - ch) by ring.
  assert (0 <= ch * (x + y * w)) by (apply Z.mul_nonneg_nonneg; nia).
  pose proof (Z.le_min_r (ch * (x + y * w)) ((w * h - 1) * ch)).
  pose proof (Z.min_glb (ch * (x + y * w)) ((w * h - 1) * ch) 0 ltac:(assumption) ltac:(assumption)).
  split; lia.
Qed.

(** The source's clamped index is [corner]. *)
Lemma corner_index x y :
  0 <= x <= w -> 0 <= y <= h ->
  let max := u64 (u32 (u32 (w * h - 1) * ch)) in
  let p := u64 (ch * (x + y * w)) in (if p <=? max then p else max) = corner x y.
Proof.
  intros Hx Hy. cbv zeta. pose proof (image_sizes t Ht) as Hsz. destruct Ht as (W & H & C & _).
  assert (1 <= w * h) by nia. assert (0 <= (w * h - 1) * ch < 2 ^ 31) by nia.
  rewrite (u32_small (w * h - 1)), (u32_small (_ * ch)), (u64_small ((_ - 1) * ch)) by lia.
  assert (0 <= ch * (x + y * w) < 2 ^ 64).
  { assert (0 <= x + y * w <= 2 ^ 31 + 2 ^ 32) by nia. nia. }
  rewrite (u64_small (ch * _)) by assumption. unfold corner.
  destruct (Z.leb_spec (ch * (x + y * w)) ((w * h - 1) * ch)); lia.
Qed.

Lemma corner_inside x y : 0 <= x < w -> 0 <= y < h -> corner x y = ch * (x + y * w).
Proof.
  intros Hx Hy. destruct Ht as (W & H & C & _). unfold corner.
  pose proof (row_major_bound w h x y Hx Hy). nia.
Qed.

Lemma ld_corner x y k :
  0 <= x -> 0 <= y -> 0 <= k < ch -> ld 1 (tile_data t) (u64 (corner x y + k)) = Ok (sample t (corner x y + k)).
Proof.
  intros Hx Hy Hk. pose proof (corner_ok x y k Hx Hy Hk) as Hc. pose proof (image_sizes t Ht).
  rewrite u64_small by lia. apply (ld_sample t Ht). exact Hc.
Qed.

(** The samples written so far, in the order of the loops. *)
Definition bilinear_done (n : Z) (b : bytes) : Prop :=
  blen b = rw * rh * ch /\
  forall x y k, 0 <= x < rw -> 0 <= y < rh -> 0 <= k < ch -> (y * rw + x) * ch + k < n ->
    exists r, b !! Z.to_nat ((y * rw + x) * ch + k) = Some r /\ blended x y k r.

Lemma bilinear_write x y k r b :
  0 <= x < rw -> 0 <= y < rh -> 0 <= k < ch -> 0 <= r < 256 -> blended x y k r ->
  bilinear_done ((y * rw + x) * ch + k) b ->
  exists b', st 1 b ((y * rw + x) * ch + k) r = Ok b' /\ bilinear_done ((y * rw + x) * ch + k + 1) b'.
Proof.
  intros Hx Hy Hk Hr Hb [Hl HD]. pose proof (row_major_bound rw rh x y Hx Hy) as Hxy.
  assert (Hn : 0 <= (y * rw + x) * ch + k < rw * rh * ch) by nia.
  eexists. split; [apply st1; lia|]. rewrite u8_small by lia. split; [unfold blen in *; rewrite length_insert; exact Hl|].
  intros x' y' k' Hx' Hy' Hk' Hlt.
  pose proof (row_major_bound rw rh x' y' Hx' Hy') as Hxy'.
  destruct (Z.eq_dec ((y' * rw + x') * ch + k') ((y * rw + x) * ch + k)) as [E|E].
  - destruct (row_col_unique ch (y' * rw + x') k' (y * rw + x) k Hk' Hk E) as [E1 ->].
    destruct (row_col_unique rw y' x' y x Hx' Hx E1) as [-> ->].
    exists r. split; [|exact Hb]. apply list_lookup_insert_eq. unfold blen in Hl. lia.
  - destruct (HD x' y' k' Hx' Hy' Hk' ltac:(lia)) as (r' & Hr' & Hb').
    assert (0 <= (y' * rw + x') * ch + k') by nia.
    exists r'. split; [|exact Hb']. rewrite list_lookup_insert_ne by lia. exact Hr'.
Qed.

(** The loop over the channels of one pixel. *)
Lemma bilinear_pixel x y a b c d qx qy buf :
  0 <= x < rw -> 0 <= y < rh ->
  0 <= nearest w rw x < w -> 0 <= nearest h rh y < h ->
  0 <= qx < 2 ^ 14 -> fx a (2 ^ 14 - qx - 1) (2 ^ 14 - qx) -> fx b qx (qx + 1) ->
  0 <= qy < 2 ^ 14 -> fx c (2 ^ 14 - qy - 1) (2 ^ 14 - qy) -> fx d qy (qy + 1) ->
  bilinear_done ((y * rw + x) * ch) buf ->
  let ii := nearest w rw x in let jj := nearest h rh y in
  exists buf',
    foldM (fun k out =>
        r ← bilinear_sample (tile_data t) (corner ii jj) (corner ii (jj + 1)) (corner (ii + 1) jj)
              (corner (ii + 1) (jj + 1)) k a b c d;
        st 1 out (u64 (u32 ((y * rw + x) * ch) + k)) r) (range 0 ch) buf = Ok buf'
    /\ bilinear_done ((y * rw + (x + 1)) * ch) buf'.
Proof.
  intros Hx Hy Rx Ry Hqx Ha Hb Hqy Hc Hd HB ii jj. pose proof (image_sizes t Ht) as Hsz.
  pose proof (row_major_bound rw rh x y Hx Hy) as Hxy. assert (HC : 1 <= ch) by (destruct Ht; tauto).
  assert (Hfit : (y * rw + x) * ch + ch <= rw * rh * ch) by nia. assert (0 <= (y * rw + x) * ch) by nia.
  rewrite (u32_small ((y * rw + x) * ch)) by lia.
  replace ((y * rw + (x + 1)) * ch) with ((y * rw + x) * ch + ch) by ring.
  apply (foldM_range (fun k => bilinear_done ((y * rw + x) * ch + k))); [lia|rewrite Z.add_0_r; exact HB|].
  intros k out Hk HBk.
  assert (Hld : forall x' y', 0 <= x' -> 0 <= y' ->
    ld 1 (tile_data t) (u64 (corner x' y' + k)) = Ok (sample t (corner x' y' + k)) /\ is_u8 (sample t (corner x' y' + k))).
  { intros x' y' Hx' Hy'. split; [apply ld_corner; assumption|]. apply (ld_sample t Ht), corner_ok; assumption. }
  assert (HQ : forall lo hi, 0 <= lo -> hi < 256 -> Forall (fun v => lo <= v <= hi) (corners x y k) ->
    exists r, bilinear_sample (tile_data t) (corner ii jj) (corner ii (jj + 1)) (corner (ii + 1) jj)
                (corner (ii + 1) (jj + 1)) k a b c d = Ok r /\ 0 <= r /\ lo - 1 <= r <= hi).
  { intros lo hi Hlo Hhi HF. eapply bilinear_sample_ok with (qx := qx) (qy := qy); try eassumption; apply Hld; lia. }
  destruct (HQ 0 255) as (r & Er & Hr0 & Hr); [lia|lia| |].
  { assert (H255 : forall x' y', 0 <= x' -> 0 <= y' -> 0 <= sample t (corner x' y' + k) <= 255)
      by (intros x' y' Hx' Hy'; destruct (Hld x' y' Hx' Hy') as [_ [? ?]]; lia).
    unfold corners. fold ii jj. forall_elements ltac:(apply H255; lia). }
  rewrite Er, bind_ret. rewrite u64_small by lia.
  assert (Hbl : blended x y k r).
  { intros lo hi Hlo Hhi HF. destruct (HQ lo hi Hlo Hhi HF) as (r' & Er' & _ & Hr'). rewrite Er in Er'.
    injection Er' as <-. exact Hr'. }
  destruct (bilinear_write x y k r out Hx Hy Hk ltac:(lia) Hbl HBk) as (b' & E' & HB').
  exists b'. split; [exact E'|]. replace ((y * rw + x) * ch + (k + 1)) with ((y * rw + x) * ch + k + 1) by ring. exact HB'.
Qed.

Lemma bilinear_spec :
  exists b, interpolate_bilinear junk t rw rh
            = Ok (t <| width := rw |> <| height := rh |> <| dataLength := u32 (rw * rh * ch * (bpc t / 8)) |>
                    <| data := Some b |>)
    /\ bilinear_done (rw * rh * ch) b.
Proof.
  pose proof (image_sizes t Ht) as Hsz. assert (HC : 1 <= ch /\ 1 <= w /\ 1 <= h) by (destruct Ht; tauto).
  assert (Hrr : 0 <= rw * rh) by nia. assert (0 <= rw * rh * ch) by nia.
  unfold interpolate_bilinear. cbv zeta. rewrite (u64_small (rw * rh * ch)) by lia.
  match goal with |- context [foldM ?body (range 0 rh) ?b0] =>
    destruct (foldM_range (fun y => bilinear_done (y * rw * ch)) body 0 rh b0) as (b & E & HB) end.
  - lia.
  - split; [apply blen_new_bytes; lia|]. intros x y k Hx Hy Hk. pose proof (row_major_bound rw rh x y Hx Hy). nia.
  - intros y buf Hy HB.
    destruct (bilinear_cell_ok h rh y) as (Ry & c & d & qy & -> & Hqy & Hc & Hd); [lia|lia|lia|].
    rewrite bind_ret.
    match goal with |- context [foldM ?body (range 0 rw) buf] =>
      destruct (foldM_range (fun x => bilinear_done ((y * rw + x) * ch)) body 0 rw buf) as (b' & E & HB') end.
    + lia.
    + rewrite Z.add_0_r. exact HB.
    + intros x out Hx HBx.
      destruct (bilinear_cell_ok w rw x) as (Rx & a & b & qx & -> & Hqx & Ha & Hb); [lia|lia|lia|].
      rewrite bind_ret. rewrite (u32_small (nearest h rh y * w)) by nia.
      replace (u64 (ch * (nearest w rw x + nearest h rh y * w)))
        with (corner (nearest w rw x) (nearest h rh y)) by (rewrite corner_inside, u64_small by nia; reflexivity).
      replace (nearest h rh y * w + w) with ((nearest h rh y + 1) * w) by ring.
      rewrite !corner_index by lia.
      apply (bilinear_pixel x y a b c d qx qy); assumption.
    + exists b'. split; [exact E|]. replace ((y + 1) * rw * ch) with ((y * rw + rw) * ch) by ring. exact HB'.
  - rewrite E, bind_ret. exists b. split; [reflexivity|]. replace (rw * rh * ch) with (rh * rw * ch) by ring. exact HB.
Qed.
End Bilinear.

(** Closed facts about integers. *)
Ltac zcompute := split_and?; vm_compute; congruence.

(** ** Properties *)

(** C37. Rotation by non-negative multiples of 90 degrees.  The angle, cut to an
    integer [a], turns the image clockwise by [q] quarter turns, [q] being
    [a / 90] modulo 4: the size is exchanged for an odd [q], and the pixel at
    [(x, y)] of the result is the pixel of the original at [(y, h - 1 - x)] for
    one quarter turn, [(w - 1 - x, h - 1 - y)] for two, [(w - 1 - y, x)] for
    three and [(x, y)] for none ([turned]).  Rotating by two such angles one
    after the other gives the very tile that rotating by their sum gives, and
    no access is outside an array.  A negative angle is excluded: for it the
    code returns an array that was never written ([rotate_negative_leaks]). *)
Theorem rotate_compose (junk : Z -> Z) (t : RawTile) (f g fg : float) (a b : Z) :
  image_ok t -> to_i32 f = Ok a -> to_i32 g = Ok b -> to_i32 fg = Ok (a + b) ->
  0 <= a -> a mod 90 = 0 -> 0 <= b -> b mod 90 = 0 ->
  ((t' ← rotate junk t f; rotate junk t' g) = rotate junk t fg /\ is_ok (rotate junk t fg) = true)
  /\ exists t', rotate junk t f = Ok t'
       /\ (width t', height t') = turned_size ((a / 90) mod 4) (width t) (height t)
       /\ channels t' = channels t
       /\ forall x y, 0 <= x < width t' -> 0 <= y < height t' ->
            let p := turned ((a / 90) mod 4) (width t) (height t) x y in
            0 <= fst p < width t /\ 0 <= snd p < height t /\ view t' x y = view t (fst p) (snd p).
Proof.
  intros Ht Ea Eb Eab Ha Ha90 Hb Hb90.
  rewrite (rotate_spec junk t Ht f a Ea Ha), bind_ret, Ha90. cbn [Z.eqb].
  rewrite (rotate_spec junk _ (turn_ok _ t Ht) g b Eb Hb), Hb90. cbn [Z.eqb].
  rewrite (rotate_spec junk t Ht fg (a + b) Eab ltac:(lia)). split.
  - split; [|reflexivity].
    rewrite Z.add_mod, Ha90, Hb90 by lia. change ((0 + 0) mod 90 =? 0) with true. cbv iota.
    rewrite turn_turn by (assumption || (apply Z.mod_pos_bound; lia)).
    rewrite <- Z.add_mod by lia. do 3 f_equal.
    pose proof (Z.div_mod a 90 ltac:(lia)). pose proof (Z.div_mod b 90 ltac:(lia)).
    apply (Z.div_unique_exact (a + b) 90); lia.
  - eexists. split; [reflexivity|]. split; [symmetry; apply surjective_pairing|]. split; [reflexivity|].
    intros x y Hx Hy. cbv zeta. destruct (turned_range ((a / 90) mod 4) _ _ x y Hx Hy) as [Rx Ry].
    split; [exact Rx|]. split; [exact Ry|]. apply view_turn; assumption.
Qed.

(** A tile of 3 by 2 pixels of two samples, and one of one sample. *)
Definition image_3x2 : RawTile :=
  {| tileNum := 0; resolution := 0; hSequence := 0; vSequence := 0; compressionType := UNCOMPRESSED;
     quality := 0; filename := "a.tif"; timestamp := 0;
     data := Some [11; 12; 21; 22; 31; 32; 41; 42; 51; 52; 61; 62];
     memoryManaged := 1; dataLength := 12; width := 3; height := 2; channels := 2; bpc := 8;
     sampleType := FIXEDPOINT; padded := false |}.

Lemma image_3x2_ok : image_ok image_3x2.
Proof. apply image_okb_ok. reflexivity. Qed.

Lemma rotate_compose_witness :
  (t' ← rotate (fun _ => 0) image_3x2 (of_Z b32 90); rotate (fun _ => 0) t' (of_Z b32 270)) = Ok image_3x2
  /\ exists t', rotate (fun _ => 0) image_3x2 (of_Z b32 90) = Ok t' /\ width t' = 2 /\ height t' = 3
       /\ view t' 1 2 = view image_3x2 2 0.
Proof.
  destruct (rotate_compose (fun _ => 0) image_3x2 (of_Z b32 90) (of_Z b32 270) (of_Z b32 360) 90 270
    image_3x2_ok ltac:(vm_compute; reflexivity) ltac:(vm_compute; reflexivity) ltac:(vm_compute; reflexivity)
    ltac:(lia) ltac:(reflexivity) ltac:(lia) ltac:(reflexivity)) as [[E _] (t' & Et & Es & _ & Hv)].
  split; [rewrite E; vm_compute; reflexivity|]. exists t'. split; [exact Et|].
  change ((width t', height t') = (2, 3)) in Es. apply pair_equal_spec in Es as [Ew Eh].
  split; [exact Ew|]. split; [exact Eh|].
  destruct (Hv 1 2 ltac:(lia) ltac:(lia)) as (_ & _ & E'). exact E'.
Defined.

(** Flips and rotations form the symmetries of the rectangle: a flip is its
    own inverse, the two flips together are half a turn, and rotating a flipped
    image is flipping the image rotated the other way. *)
Theorem flip_rotate_dihedral (junk : Z -> Z) (t : RawTile) (o : Z) (f g half_turn : float) (a : Z) :
  image_ok t -> to_i32 f = Ok a -> to_i32 g = Ok (360 - a) -> to_i32 half_turn = Ok 180 ->
  0 <= a <= 360 -> a mod 90 = 0 ->
  (t' ← flip junk t o; flip junk t' o) = Ok t
  /\ (t' ← flip junk t 1; flip junk t' 2) = rotate junk t half_turn
  /\ (t' ← flip junk t o; rotate junk t' f) = (t' ← rotate junk t g; flip junk t' o)
  /\ is_ok (rotate junk t g) = true.
Proof.
  intros Ht Ef Eg Eh Ha Ha90. rewrite !(flip_spec junk t Ht), !bind_ret.
  rewrite !(flip_spec junk) by (apply mirror_ok; exact Ht). rewrite (mirror_mirror o t Ht).
  rewrite (rotate_spec junk t Ht half_turn 180 Eh ltac:(lia)).
  rewrite (rotate_spec junk _ (mirror_ok o t Ht) f a Ef ltac:(lia)).
  rewrite (rotate_spec junk t Ht g (360 - a) Eg ltac:(lia)), bind_ret, Ha90.
  assert (Hb90 : (360 - a) mod 90 = 0)
    by (rewrite Zminus_mod, Ha90; reflexivity).
  rewrite Hb90. cbn [Z.eqb]. rewrite (flip_spec junk) by (apply turn_ok; exact Ht).
  split; [reflexivity|]. split; [|split; [|reflexivity]].
  - apply (f_equal Ok). change ((180 / 90) mod 4) with 2.
    transitivity (reshape t (width t) (height t)
      (fun x y => let p := mirrored 2 (width t) (height t) x y in view (mirror 1 t) (fst p) (snd p))); [reflexivity|].
    apply reshape_ext. intros x y Hx Hy. destruct (mirrored_range 2 _ _ _ _ Hx Hy).
    rewrite view_mirror by assumption. reflexivity.
  - apply (f_equal Ok). rewrite turn_mirror by (assumption || (apply Z.mod_pos_bound; lia)).
    f_equal. f_equal. pose proof (Z.div_mod a 90 ltac:(lia)).
    assert (E : (360 - a) / 90 = 4 - a / 90) by (symmetry; apply (Z.div_unique_exact (360 - a) 90); lia).
    rewrite E. assert (0 <= a / 90 <= 4) by lia.
    assert (C : a / 90 = 0 \/ a / 90 = 1 \/ a / 90 = 2 \/ a / 90 = 3 \/ a / 90 = 4) by lia.
    destruct C as [-> | [-> | [-> | [-> | ->]]]]; reflexivity.
Qed.

Lemma flip_rotate_dihedral_witness :
  (t' ← flip (fun _ => 0) image_3x2 1; rotate (fun _ => 0) t' (of_Z b32 90))
  = (t' ← rotate (fun _ => 0) image_3x2 (of_Z b32 270); flip (fun _ => 0) t' 1).
Proof.
  exact (proj1 (proj2 (proj2 (flip_rotate_dihedral (fun _ => 0) image_3x2 1 (of_Z b32 90) (of_Z b32 270) (of_Z b32 180) 90
    image_3x2_ok ltac:(vm_compute; reflexivity) ltac:(vm_compute; reflexivity) ltac:(vm_compute; reflexivity)
    ltac:(lia) ltac:(reflexivity))))).
Defined.

(** A negative multiple of 90 degrees passes the test for rectangular
    angles but matches none of the three rotations: the tile is left with the
    contents of a new array, whatever the memory held. *)
Theorem rotate_negative_leaks (junk : Z -> Z) (t : RawTile) (angle : float) (a : Z) :
  image_ok t -> to_i32 angle = Ok a -> a < 0 -> Z.rem a 90 = 0 -> Z.rem a 360 <> 0 ->
  rotate junk t angle = Ok (t <| data := Some (junk <$> range 0 (width t * height t * channels t)) |>).
Proof.
  intros Ht Ea Ha H90 H360. unfold rotate. rewrite Ea, bind_ret, H90.
  rewrite (proj2 (Z.eqb_neq (Z.rem a 360) 0) H360). cbn [Z.eqb negb andb]. cbv zeta.
  pose proof (Z.rem_sign_nz a 360). pose proof (Z.rem_nonpos a 360 ltac:(lia) ltac:(lia)).
  pose proof (Z.rem_nonpos a 180 ltac:(lia) ltac:(lia)).
  rewrite !(proj2 (Z.eqb_neq _ _)) by lia. rewrite bind_ret.
  rewrite u32_small by (pose proof (image_sizes t Ht); lia). reflexivity.
Qed.

Lemma rotate_negative_leaks_witness :
  exists t', rotate (fun i => i) image_3x2 (of_Z b32 (-90)) = Ok t'
    /\ data t' = Some [0; 1; 2; 3; 4; 5; 6; 7; 8; 9; 10; 11].
Proof.
  eexists. split.
  - exact (rotate_negative_leaks (fun i => i) image_3x2 (of_Z b32 (-90)) (-90) image_3x2_ok
             ltac:(vm_compute; reflexivity) ltac:(lia) ltac:(reflexivity) ltac:(vm_compute; discriminate)).
  - vm_compute. reflexivity.
Defined.

(** Removing bands, in the tile's own array, leaves the first bands of every
    pixel at the front of the array, in order, with the new channel count and
    length; nothing outside the array is read or written. *)
Theorem flatten_bands (t : RawTile) (bands : Z) :
  image_ok t -> 0 <= bands < channels t ->
  exists t' b, flatten t bands = Ok t' /\ data t' = Some b
    /\ channels t' = bands /\ width t' = width t /\ height t' = height t
    /\ dataLength t' = u32 (width t * height t * bands * (bpc t / 8))
    /\ forall x y, 0 <= x < width t -> 0 <= y < height t ->
         slice b ((y * width t + x) * bands) bands = take (Z.to_nat bands) (view t x y).
Proof.
  intros Ht Hb. rewrite (flatten_spec (fun _ => 0) t Ht bands Hb). do 2 eexists. split; [reflexivity|].
  split; [reflexivity|]. repeat (split; [reflexivity|]). intros x y Hx Hy.
  assert (Hl : forall x y, 0 <= x < width t -> 0 <= y < height t -> blen (take (Z.to_nat bands) (view t x y)) = bands).
  { intros x' y' Hx' Hy'. pose proof (blen_view t Ht x' y' Hx' Hy'). unfold blen in *. rewrite length_take. lia. }
  rewrite <- (slice_tabulate (width t) (height t) (fun x y => take (Z.to_nat bands) (view t x y)) bands x y)
    by (assumption || lia).
  unfold slice, bands_of. set (d := tabulate _ _ _).
  assert (Hd : blen d = height t * (width t * bands))
    by (apply blen_tabulate; [destruct Ht; lia|destruct Ht as (_ & ? & _); lia|exact Hl]).
  pose proof (row_major_bound (width t) (height t) x y Hx Hy). unfold blen in Hd.
  rewrite drop_app_le by nia. rewrite take_app_le by (rewrite length_drop; nia). reflexivity.
Qed.

Lemma flatten_bands_witness :
  exists t' b, flatten image_3x2 1 = Ok t' /\ data t' = Some b /\ slice b 4 1 = [51].
Proof.
  destruct (flatten_bands image_3x2 1 image_3x2_ok ltac:(zcompute)) as (t' & b & E & Eb & _ & _ & _ & _ & H).
  exists t', b. split; [exact E|]. split; [exact Eb|]. exact (H 1 1 ltac:(zcompute) ltac:(zcompute)).
Defined.

(** The grey image has one byte per pixel, each between the smallest and the
    largest sample of its pixel (the fixed-point weights add up to one and the
    product does not overflow), and black and white keeps of it the comparison
    with the threshold. *)
Theorem greyscale_bounds (junk : Z -> Z) (t : RawTile) (threshold : Z) :
  image_ok t -> bpc t = 8 -> channels t = 3 ->
  exists g b, greyscale junk t = Ok (t <| data := Some g |> <| channels := 1 |> <| dataLength := width t * height t |>)
    /\ blen g = width t * height t
    /\ (forall i lo hi, 0 <= i < width t * height t -> 0 <= lo -> hi < 256 ->
          Forall (fun v => lo <= v <= hi) [sample t (3 * i); sample t (3 * i + 1); sample t (3 * i + 2)] ->
          exists v, g !! Z.to_nat i = Some v /\ lo <= v <= hi)
    /\ binary junk t threshold
       = Ok (t <| data := Some b |> <| channels := 1 |> <| dataLength := width t * height t |>)
    /\ b = (fun v => if v <? threshold then 0 else 255) <$> g.
Proof.
  intros Ht Hbpc Hch. pose proof (greyscale_spec junk t Ht Hbpc Hch) as Eg.
  pose proof (image_sizes t Ht) as Hsz. assert (Hwh : 1 <= width t /\ 1 <= height t) by (destruct Ht; tauto).
  set (g := _ <$> range 0 (width t * height t)) in Eg.
  set (t1 := t <| data := Some g |> <| channels := 1 |> <| dataLength := width t * height t |>) in Eg.
  assert (Hlg : blen g = width t * height t) by (unfold g, blen; rewrite length_fmap, length_range; nia).
  assert (Ht1 : image_ok t1).
  { unfold image_ok. change (width t1) with (width t). change (height t1) with (height t).
    change (channels t1) with 1. split_and!; try lia. exists g. split; [reflexivity|].
    split; [lia|]. unfold g. apply Forall_fmap, Forall_true. intros i. apply u8_range. }
  exists g, ((fun v => if v <? threshold then 0 else 255) <$> g).
  split; [exact Eg|]. split; [exact Hlg|]. split; [|split; [|reflexivity]].
  - intros i lo hi Hi Hlo Hhi HF. repeat (apply list.Forall_cons in HF as [? HF]).
    exists (luminance (sample t (3 * i)) (sample t (3 * i + 1)) (sample t (3 * i + 2))). split.
    + unfold g. rewrite list_lookup_fmap. replace (Z.to_nat i) with (Z.to_nat (i - 0)) by (f_equal; lia).
      rewrite lookup_range_at by lia. reflexivity.
    + apply luminance_bounds; assumption.
  - pose proof (binary_one_spec junk t1 Ht1 threshold Hbpc eq_refl) as Eb.
    assert (Ebt : binary junk t threshold = binary junk t1 threshold).
    { unfold binary at 1 2. rewrite Hbpc. change (bpc t1) with (bpc t). rewrite Hbpc. cbn [negb Z.eqb Pos.eqb].
      rewrite Eg. unfold greyscale. change (bpc t1) with (bpc t). change (channels t1) with 1.
      rewrite Hbpc. reflexivity. }
    assert (E : (fun i => if sample t1 i <? threshold then 0 else 255) <$> range 0 (width t1 * height t1)
                = (fun v => if v <? threshold then 0 else 255) <$> g); [|rewrite Ebt, Eb, E; reflexivity].
    change (width t1) with (width t). change (height t1) with (height t).
    apply list_eq_length; [rewrite !length_fmap, length_range; unfold blen in Hlg; lia|].
    rewrite length_fmap, length_range. intros i Hi. rewrite !list_lookup_fmap.
    unfold range. rewrite lookup_zseq by lia. cbn [fmap option_fmap option_map].
    unfold sample. change (tile_data t1) with g. replace (Z.to_nat (0 + Z.of_nat i)) with i by lia.
    destruct (lookup_lt_is_Some_2 g i) as [v ->]; [unfold blen in Hlg; lia|reflexivity].
Qed.

Definition image_2x1_rgb : RawTile :=
  image_3x2 <| data := Some [255; 0; 0; 90; 90; 90] |> <| dataLength := 6 |>
            <| width := 2 |> <| height := 1 |> <| channels := 3 |>.

Lemma greyscale_bounds_witness :
  exists g, greyscale (fun _ => 0) image_2x1_rgb
            = Ok (image_2x1_rgb <| data := Some g |> <| channels := 1 |> <| dataLength := 2 |>)
    /\ g !! 1%nat = Some 90.
Proof.
  assert (Ht : image_ok image_2x1_rgb) by (apply image_okb_ok; reflexivity).
  destruct (greyscale_bounds (fun _ => 0) image_2x1_rgb 128 Ht eq_refl eq_refl) as (g & b & Eg & _ & Hg & _).
  exists g. split; [exact Eg|].
  destruct (Hg 1 90 90 ltac:(zcompute) ltac:(lia) ltac:(lia)) as (v & Hv & Hr).
  - forall_elements ltac:(zcompute).
  - change (Z.to_nat 1) with 1%nat in Hv. rewrite Hv. f_equal. lia.
Defined.

(** C38. Resampling to the nearest neighbour, when both sizes shrink (and the
    result overwrites the input as it is read) or the area grows (and it has an
    array of its own): every pixel of the result is the pixel of the original
    image at the scaled position, which is inside the image, and no access is
    outside an array.  When only one size shrinks and the area does not grow, the result
    overwrites pixels that are still needed ([nearest_neighbour_aliasing]). *)
Theorem nearest_neighbour_exact (junk : Z -> Z) (t : RawTile) (rw rh : Z) :
  image_ok t -> width t < 2 ^ 23 -> height t < 2 ^ 23 -> 0 < rw < 2 ^ 23 -> 0 < rh < 2 ^ 23 ->
  rw * rh * channels t < 2 ^ 31 ->
  (rw <= width t /\ rh <= height t) \/ width t * height t < rw * rh ->
  exists t' b, interpolate_nearestneighbour junk t rw rh = Ok t' /\ data t' = Some b
    /\ width t' = rw /\ height t' = rh /\ channels t' = channels t
    /\ forall x y, 0 <= x < rw -> 0 <= y < rh ->
         0 <= nearest (width t) rw x < width t /\ 0 <= nearest (height t) rh y < height t
         /\ view t' x y = view t (nearest (width t) rw x) (nearest (height t) rh y).
Proof.
  intros Ht Hw Hh Hrw Hrh Hs Hshape. rewrite (nn_spec junk t Ht rw rh Hw Hh Hrw Hrh Hs Hshape).
  do 2 eexists. split; [reflexivity|]. split; [reflexivity|]. repeat (split; [reflexivity|]). intros x y Hx Hy.
  destruct (nn_nearest t Ht rw rh Hw Hh Hrw Hrh Hs Hshape x y Hx Hy) as (R1 & R2 & _).
  split; [exact R1|]. split; [exact R2|].
  pose proof (blen_nn_image t Ht rw rh Hw Hh Hrw Hrh Hs Hshape) as Hl.
  change (view t (nearest (width t) rw x) (nearest (height t) rh y)) with (nn_image t rw rh x y).
  assert (Hc : 1 <= channels t) by (destruct Ht as (_ & _ & Hc & _); exact Hc).
  rewrite <- (slice_tabulate rw rh (nn_image t rw rh) (channels t) x y) by (assumption || lia).
  pose proof (blen_tabulate rw rh (nn_image t rw rh) (channels t) ltac:(lia) ltac:(lia) Hl) as Hd.
  pose proof (row_major_bound rw rh x y Hx Hy).
  unfold view, slice, tile_data. change (data ?r) with (Some (tabulate rw rh (nn_image t rw rh)
    ++ drop (length (tabulate rw rh (nn_image t rw rh))) (nn_target junk t rw rh))).
  change (channels ?r) with (channels t). change (width ?r) with rw. cbv iota.
  set (d := tabulate _ _ _) in *. unfold blen in Hd.
  rewrite drop_app_le by nia. rewrite take_app_le by (rewrite length_drop; nia). reflexivity.
Qed.

Lemma nearest_neighbour_exact_witness :
  exists t' b, interpolate_nearestneighbour (fun _ => 0) image_3x2 2 1 = Ok t' /\ data t' = Some b
    /\ view t' 1 0 = view image_3x2 1 0.
Proof.
  destruct (nearest_neighbour_exact (fun _ => 0) image_3x2 2 1 image_3x2_ok ltac:(zcompute) ltac:(zcompute)
    ltac:(lia) ltac:(lia) ltac:(zcompute) ltac:(left; zcompute)) as (t' & b & E & Eb & _ & _ & _ & H).
  exists t', b. split; [exact E|]. split; [exact Eb|].
  destruct (H 1 0 ltac:(lia) ltac:(lia)) as (_ & _ & Hv). rewrite Hv.
  replace (nearest (width image_3x2) 2 1) with 1 by (vm_compute; reflexivity).
  replace (nearest (height image_3x2) 1 0) with 0 by (vm_compute; reflexivity). reflexivity.
Defined.

Definition image_2x4 : RawTile :=
  image_3x2 <| data := Some [10; 20; 30; 40; 50; 60; 70; 80] |> <| dataLength := 8 |>
            <| width := 2 |> <| height := 4 |> <| channels := 1 |>.

(** When the width grows and the height shrinks, the area staying the same,
    the result is written over pixels that are still needed: the image of 2 by 4
    pixels resampled to 4 by 2 has in its first row the first pixel four times,
    and not the scaled first row. *)
Theorem nearest_neighbour_aliasing (junk : Z -> Z) :
  exists t', interpolate_nearestneighbour junk image_2x4 4 2 = Ok t'
    /\ nearest (width image_2x4) 4 2 = 1 /\ nearest (height image_2x4) 2 0 = 0
    /\ view image_2x4 1 0 = [20] /\ view t' 2 0 = [10].
Proof. eexists. split; [vm_compute; reflexivity|]. vm_compute. auto. Qed.

(** C39. Bilinear resampling reads and writes inside its arrays, all its
    conversions are in range, and every sample of the result is at most the
    largest of the four samples it is made of, and less than the smallest by one
    at most (the sum is truncated). *)
Theorem bilinear_bounds (junk : Z -> Z) (t : RawTile) (rw rh : Z) :
  image_ok t -> width t < 2 ^ 23 -> height t < 2 ^ 23 -> 0 < rw < 2 ^ 23 -> 0 < rh < 2 ^ 23 ->
  rw * rh * channels t < 2 ^ 31 ->
  exists t' b, interpolate_bilinear junk t rw rh = Ok t' /\ data t' = Some b
    /\ width t' = rw /\ height t' = rh /\ channels t' = channels t /\ blen b = rw * rh * channels t
    /\ forall x y k lo hi, 0 <= x < rw -> 0 <= y < rh -> 0 <= k < channels t -> 0 <= lo -> hi < 256 ->
         Forall (fun v => lo <= v <= hi) (corners t rw rh x y k) ->
         exists r, b !! Z.to_nat ((y * rw + x) * channels t + k) = Some r /\ lo - 1 <= r <= hi.
Proof.
  intros Ht Hw Hh Hrw Hrh Hs.
  destruct (bilinear_spec junk t Ht rw rh Hw Hh Hrw Hrh Hs) as (b & -> & Hl & HB).
  do 2 eexists. split; [reflexivity|]. split; [reflexivity|]. repeat (split; [reflexivity|]).
  split; [exact Hl|]. intros x y k lo hi Hx Hy Hk Hlo Hhi HF.
  pose proof (row_major_bound rw rh x y Hx Hy).
  destruct (HB x y k Hx Hy Hk ltac:(nia)) as (r & Hr & Hbl). exists r. split; [exact Hr|].
  apply Hbl; assumption.
Qed.

Lemma bilinear_bounds_witness :
  exists t' b r, interpolate_bilinear (fun _ => 0) image_2x4 3 3 = Ok t' /\ data t' = Some b
    /\ b !! 4%nat = Some r /\ 29 <= r <= 60.
Proof.
  assert (Ht : image_ok image_2x4) by (apply image_okb_ok; reflexivity).
  destruct (bilinear_bounds (fun _ => 0) image_2x4 3 3 Ht ltac:(zcompute) ltac:(zcompute) ltac:(lia) ltac:(lia)
    ltac:(zcompute)) as (t' & b & E & Eb & _ & _ & _ & _ & H).
  destruct (H 1 1 0 30 60) as (r & Hr & Hb); try zcompute.
  - replace (corners image_2x4 3 3 1 1 0) with [30; 50; 40; 60] by (vm_compute; reflexivity).
    forall_elements ltac:(lia).
  - exists t', b, r. split; [exact E|]. split; [exact Eb|]. split; [exact Hr|]. lia.
Defined.

Definition image_2x2 : RawTile :=
  image_3x2 <| data := Some [0; 0; 255; 255] |> <| dataLength := 4 |>
            <| width := 2 |> <| height := 2 |> <| channels := 1 |>.

(** The comment says that edge pixels are replicated; but only the end of
    the whole array is held back: to the right of the last column of the first row
    the code reads the first pixel of the next row, and an image with a black row
    above a white one shows white in the black row. *)
Theorem bilinear_wraps_rows (junk : Z -> Z) :
  exists t', interpolate_bilinear junk image_2x2 4 2 = Ok t'
    /\ view image_2x2 0 0 = [0] /\ view image_2x2 1 0 = [0] /\ view t' 3 0 = [127].
Proof. eexists. split; [vm_compute; reflexivity|]. vm_compute. auto. Qed.
