(* ===== verification/ColourTransforms.v ===== *)
(** * Colour and tone transforms (src/src/Transforms.cc)

    Normalisation to [float], hill shading, colour maps, inversion, contrast,
    gamma, logarithm, channel recombination and the conversion from CIELAB.
    Each expression is rounded where the source's types round it: a [float]
    operand next to a [double] literal is computed in binary64 and rounded when
    it is stored.  [cosf], [sinf], [powf], [logf] and [pow] of libm are
    parameters; [sqrt] is the correctly rounded one of [CFloat]. *)
From stdpp Require Import base strings list numbers.
From Stdlib Require Import ZArith Lia Ascii.
From coqutil Require Import Datatypes.RecordSetters.
From S2P Require Import Prelude CString CFloat View RawTile Transforms.
Import TriangleBracketNotations.
#[local] Open Scope string_scope.
#[local] Open Scope list_scope.
#[local] Open Scope Z_scope.

(** A [double] literal, an integer as [double] and as [float], and a [double]
    stored in a [float]. *)
#[local] Abbreviation lit s := (atof s).
#[local] Abbreviation dbl z := (of_Z b64 z).
#[local] Abbreviation flo z := (of_Z b32 z).
#[local] Abbreviation to_float x := (fcvt b32 x).

(** [for( n = lo; n < hi; n += step )] *)
Definition stride (lo hi step : Z) : res (list Z) :=
  if hi <=? lo then Ok []
  else if step =? 0 then undef "endless loop"
  else Ok ((fun k => lo + k * step) <$> range 0 ((hi - lo + step - 1) / step)).

Section ColourTransforms.
Context (junk : Z -> Z) (cosf sinf logf : float -> float) (powf pow : float -> float -> float).

(** The number of samples, from the length of the array. *)
Definition samples (t : RawTile) : res Z := udiv (u32 (dataLength t * 8)) (bpc t).

(** ** [normalize] *)

(** [invdiffc] *)
Definition inverse_range (maxc minc : float) : float :=
  let diffc := fsub b32 maxc minc in
  let absdiff := match diffc with FZero _ => FZero false | FInf _ => FInf false | FNaN => FNaN
                                | FFin _ m e => FFin false m e end in
  to_float (if fgt absdiff (lit "1e-30") then fdiv b64 (dbl 1) diffc else lit "1e30").

Definition normalize (t : RawTile) (max min : list float) : res RawTile :=
  np ← samples t;
  let nc := u32 (channels t) in
  let floats := (bpc t =? 32) && bool_decide (sampleType t = FLOATINGPOINT) in
  let size := if bpc t =? 32 then 4 else if bpc t =? 16 then 2 else 1 in
  normdata ← foldM (fun c normdata =>
      minc ← rd min c;
      maxc ← rd max c;
      let invdiffc := inverse_range maxc minc in
      ns ← stride c np nc;
      foldM (fun n normdata =>
          if floats then
            v ← ldf normdata n;
            stf normdata n (if finite v then fmul b32 (fsub b32 v minc) invdiffc else FZero false)
          else
            v ← ld size (tile_data t) n;
            stf normdata n (fmul b32 (fsub b32 (flo v) minc) invdiffc))
        ns normdata)
    (range 0 nc) (if floats then tile_data t else new_bytes junk (4 * np));
  Ok (t <| data := Some normdata |> <| bpc := 32 |> <| dataLength := u32 (np * 4) |>).

(** ** [shade] *)

Definition M_PI : float := lit "3.14159265358979323846".

(** The direction of the light. *)
Definition light (h_angle v_angle : Z) : float * float * float :=
  let angle x := to_float (fdiv b64 (fmul b64 (dbl (i32 (x * 2))) M_PI) (dbl 360)) in
  let s_y := cosf (angle h_angle) in
  let s_x := to_float (fsqrt b64 (fsub b64 (dbl 1) (fmul b32 s_y s_y))) in
  let s_x := if 180 <? h_angle then fneg s_x else s_x in
  let s_z := fneg (sinf (angle v_angle)) in
  let s_norm := fsqrt b32 (fadd b32 (fadd b32 (fmul b32 s_x s_x) (fmul b32 s_y s_y)) (fmul b32 s_z s_z)) in
  (fdiv b32 s_x s_norm, fdiv b32 s_y s_norm, fdiv b32 s_z s_norm).

Definition shade_pixel (s : float * float * float) (x y z : float) : float :=
  let '(s_x, s_y, s_z) := s in
  let zero v := feq v (FZero false) in
  let o v := to_float (fmul b64 (to_float (fneg (fsub b64 v (lit "0.5")))) (dbl 2)) in
  let '(o_x, o_y, o_z) := if zero x && zero y && zero z then (FZero false, FZero false, FZero false)
                          else (o x, o y, o z) in
  let dot := fadd b32 (fadd b32 (fmul b32 s_x o_x) (fmul b32 s_y o_y)) (fmul b32 s_z o_z) in
  let dot := to_float (fmul b64 (lit "0.5") dot) in
  let dot := if flt dot (FZero false) then FZero false else dot in
  if fgt dot (dbl 1) then flo 1 else dot.

(** The loop counts samples, and reads three for each. *)
Definition shade (t : RawTile) (h_angle v_angle : Z) : res RawTile :=
  let s := light h_angle v_angle in
  ndata ← samples t;
  buffer ← foldM (fun k buffer =>
      let n := u32 (k * 3) in
      x ← ldf (tile_data t) n;
      y ← ldf (tile_data t) (u32 (n + 1));
      z ← ldf (tile_data t) (u32 (n + 2));
      stf buffer k (shade_pixel s x y z))
    (range 0 ndata) (new_bytes junk (4 * ndata));
  Ok (t <| data := Some buffer |> <| channels := 1 |>
        <| dataLength := u32 (width t * height t * (bpc t / 8)) |>).

(** ** CIELAB *)

Definition schar (v : Z) : Z := if v <? 128 then v else v - 256.

Definition D65_X0 : float := lit "95.0470".
Definition D65_Y0 : float := lit "100.0".
Definition D65_Z0 : float := lit "108.8827".

Definition _sRGB : list (list float) :=
  [[to_float (lit "3.240479"); to_float (lit "-1.537150"); to_float (lit "-0.498535")];
   [to_float (lit "-0.969256"); to_float (lit "1.875992"); to_float (lit "0.041556")];
   [to_float (lit "0.055648"); to_float (lit "-0.204043"); to_float (lit "1.057311")]].

(** One of the linear components to a byte. *)
Definition display_value (v : float) : res Z :=
  let v := if flt v (FZero false) then FZero false else v in
  let v := if fle v (lit "0.0031308") then fmul b64 v (lit "12.92")
           else fsub b64 (fmul b64 (lit "1.055") (pow v (fdiv b64 (dbl 1) (lit "2.4")))) (lit "0.055") in
  let v := fmul b64 v (dbl 255) in
  to_u8 (if fgt v (dbl 255) then dbl 255 else v).

Definition xyz_component (scale tmp : float) : float :=
  to_float (if flt tmp (lit "0.2069")
            then fdiv b64 (fmul b64 scale (fsub b64 tmp (lit "0.13793"))) (lit "7.787")
            else fmul b64 (fmul b64 (fmul b64 scale tmp) tmp) tmp).

Definition LAB2sRGB_pixel (i0 i1 i2 : Z) : res (Z * Z * Z) :=
  let L := to_float (fdiv b64 (dbl i0) (lit "2.55")) in
  let a := flo (schar i1) in
  let b := flo (schar i2) in
  let '(Y, cby) :=
    if flt L (dbl 8) then
      let Y := to_float (fdiv b64 (fmul b64 L D65_Y0) (lit "903.3")) in
      (Y, fadd b64 (fmul b64 (lit "7.787") (fdiv b64 Y D65_Y0)) (fdiv b64 (dbl 16) (dbl 116)))
    else
      let cby := fdiv b64 (fadd b64 L (dbl 16)) (dbl 116) in
      (to_float (fmul b64 (fmul b64 (fmul b64 D65_Y0 cby) cby) cby), cby) in
  let X := xyz_component D65_X0 (fadd b64 (fdiv b64 a (dbl 500)) cby) in
  let Z' := xyz_component D65_Z0 (fsub b64 cby (fdiv b64 b (dbl 200))) in
  let X := to_float (fdiv b64 X (dbl 100)) in
  let Y := to_float (fdiv b64 Y (dbl 100)) in
  let Z' := to_float (fdiv b64 Z' (dbl 100)) in
  let component row := match row with
    | [r0; r1; r2] => fadd b32 (fadd b32 (fmul b32 X r0) (fmul b32 Y r1)) (fmul b32 Z' r2)
    | _ => FNaN end in
  match component <$> _sRGB with
  | [R; G; B] => r ← display_value R; g ← display_value G; b ← display_value B; Ok (r, g, b)
  | _ => undef "no matrix"
  end.

Definition LAB2sRGB (t : RawTile) : res RawTile :=
  let np := u32 (width t * height t * channels t) in
  ns ← stride 0 np (channels t);
  d ← foldM (fun n d =>
      i0 ← ld 1 d n; i1 ← ld 1 d (n + 1); i2 ← ld 1 d (n + 2);
      '(r, g, b) ← LAB2sRGB_pixel i0 i1 i2;
      d ← st 1 d n r; d ← st 1 d (n + 1) g; st 1 d (n + 2) b)
    ns (tile_data t);
  Ok (write_data t d).
(** ** [cmap] *)

Definition max3 : float := to_float (fdiv b64 (dbl 1) (dbl 3)).
Definition max8 : float := to_float (fdiv b64 (dbl 1) (dbl 8)).

(** [k * value + c] in [double], stored in a [float]. *)
Definition lin (k : Z) (c : string) (v : float) : float := to_float (fadd b64 (fmul b64 (dbl k) v) (lit c)).
Definition times (k : Z) (v : float) : float := to_float (fmul b64 (dbl k) v).

Definition hot (v : float) : float * float * float :=
  let o := flo 1 in let z := FZero false in
  if fgt v (dbl 1) then (o, o, o)
  else if fle v (FZero false) then (z, z, z)
  else if flt v max3 then (times 3 v, z, z)
  else if flt v (fmul b32 (flo 2) max3) then (o, lin 3 "-1" v, z)
  else if flt v (dbl 1) then (o, o, lin 3 "-2" v)
  else (o, o, o).

Definition cold (v : float) : float * float * float :=
  let o := flo 1 in let z := FZero false in
  if fgt v (dbl 1) then (o, o, o)
  else if fle v (FZero false) then (z, z, z)
  else if flt v max3 then (z, z, times 3 v)
  else if flt v (fmul b64 (dbl 2) max3) then (z, lin 3 "-1" v, o)
  else if flt v (dbl 1) then (lin 3 "-2" v, o, o)
  else (o, o, o).

Definition jet (v : float) : float * float * float :=
  let o := flo 1 in let z := FZero false in
  if flt v (FZero false) then (z, z, z)
  else if flt v max8 then (z, z, lin 4 "0.5" v)
  else if flt v (fmul b64 (dbl 3) max8) then (z, lin 4 "-0.5" v, o)
  else if flt v (fmul b64 (dbl 5) max8) then
    (to_float (fsub b64 (fmul b32 (flo 4) v) (lit "1.5")), o, lin (-4) "2.5" v)
  else if flt v (fmul b64 (dbl 7) max8) then (o, lin (-4) "3.5" v, z)
  else if flt v (dbl 1) then (lin (-4) "4.5" v, z, z)
  else (to_float (lit "0.5"), z, z).

Definition map_colour (c : cmap_type) (v : float) : float * float * float :=
  let z := FZero false in
  match c with
  | HOT => hot v | COLD => cold v | JET => jet v
  | RED => (v, z, z) | GREEN => (z, v, z) | BLUE => (z, z, v)
  end.

(** The new array has three samples for every sample, and [dataLength] says so,
    although only one pixel in [in_chan] samples is written. *)
Definition cmap (t : RawTile) (c : cmap_type) : res RawTile :=
  let in_chan := u32 (channels t) in
  ndata ← samples t;
  ns ← stride 0 ndata in_chan;
  '(outptr, _) ← foldM (fun n '(out, outv) =>
      value ← ldf (tile_data t) n;
      let '(r, g, b) := map_colour c value in
      out ← stf out outv r;
      out ← stf out (outv + 1) g;
      out ← stf out (outv + 2) b;
      Ok (out, outv + 3))
    ns (new_bytes junk (4 * u32 (ndata * 3)), 0);
  Ok (t <| data := Some outptr |> <| channels := 3 |> <| dataLength := u32 (ndata * 3 * (bpc t / 8)) |>).

(** ** Point operations on [float] samples *)

(** A loop that replaces every one of the first [np] samples. *)
Definition map_floats (f : float -> float) (np : Z) (b : bytes) : res bytes :=
  foldM (fun n b => v ← ldf b n; stf b n (f v)) (range 0 np) b.

Definition one_minus (v : float) : float := to_float (fsub b64 (dbl 1) v).

Definition inv (t : RawTile) : res RawTile :=
  np ← samples t;
  b ← map_floats one_minus np (tile_data t);
  Ok (write_data t b).

(** [(unsigned char)( (v<max) ? (v<0.0? 0.0 : v) : max )] *)
Definition clip (v : float) : res Z :=
  to_u8 (if flt v (dbl 255) then (if flt v (FZero false) then FZero false else v) else dbl 255).

Definition contrast (t : RawTile) (c : float) : res RawTile :=
  let np := u32 (width t * height t * channels t) in
  buffer ← foldM (fun n buffer =>
      v ← ldf (tile_data t) n;
      r ← clip (fmul b32 (fmul b32 v (flo 255)) c);
      st 1 buffer n r)
    (range 0 np) (new_bytes junk np);
  Ok (t <| data := Some buffer |> <| bpc := 8 |> <| dataLength := u32 (np * (8 / 8)) |>).

Definition gamma (t : RawTile) (g : float) : res RawTile :=
  if feq g (dbl 1) then Ok t
  else
    let np := u32 (width t * height t * channels t) in
    b ← map_floats (fun v => powf (if flt v (FZero false) then FZero false else v) g) np (tile_data t);
    Ok (write_data t b).

Definition log (t : RawTile) : res RawTile :=
  let max := flo 255 in
  let scale := to_float (fdiv b64 (dbl 1) (logf (to_float (fadd b64 max (dbl 1))))) in
  let np := u32 (width t * height t * channels t) in
  b ← map_floats (fun v => fmul b32 scale (logf (to_float (fadd b64 (dbl 1) (fmul b32 v max))))) np (tile_data t);
  Ok (write_data t b).

(** ** [twist] *)

(** The new value of one channel: [n] is the index of the pixel's first sample. *)
Definition twist_channel (d : bytes) (row : list float) (n nrow : Z) : res float :=
  foldM (fun j acc =>
      m ← rd row j;
      if fne m (FZero false) then
        v ← ldf d (n + j);
        Ok (fadd b32 acc (if feq m (dbl 1) then v else fmul b32 v m))
      else Ok acc)
    (range 0 nrow) (FZero false).

(** [pixel] is a new array and is kept from one pixel to the next: the channels
    beyond the rows of the matrix are never set. *)
Definition twist (t : RawTile) (matrix : list (list float)) : res RawTile :=
  let np := u32 (width t * height t) in
  let ch := channels t in
  let limit n := if u32 ch <? n then u32 ch else n in
  let ncols := limit (Z.of_nat (length matrix)) in
  '(d, _) ← foldM (fun i '(d, pixel) =>
      let n := u64 (i * ch) in
      pixel ← foldM (fun k pixel =>
          row ← rd matrix k;
          v ← twist_channel d row n (limit (Z.of_nat (length row)));
          stf pixel k v)
        (range 0 ncols) pixel;
      d ← foldM (fun k d => v ← ldf pixel k; stf d (n + k) v) (range 0 ch) d;
      Ok (d, pixel))
    (range 0 np) (tile_data t, new_bytes junk (4 * ch));
  Ok (write_data t d).
End ColourTransforms.

(** ** Lemmas *)

Lemma samples_8bit t : bpc t = 8 -> 0 <= dataLength t < 2 ^ 29 -> samples t = Ok (dataLength t).
Proof.
  intros Hb Hd. unfold samples. rewrite Hb, u32_small, udiv_ok by lia. apply (f_equal Ok). apply Z.div_mul. lia.
Qed.

Lemma samples_float t : bpc t = 32 -> 0 <= dataLength t < 2 ^ 29 -> samples t = Ok (dataLength t / 4).
Proof.
  intros Hb Hd. unfold samples. rewrite Hb, u32_small, udiv_ok by lia. apply (f_equal Ok).
  change 32 with (4 * 8). apply Z.div_mul_cancel_r; lia.
Qed.

Lemma stride_ok lo hi step :
  0 < step -> exists l, stride lo hi step = Ok l /\ NoDup l
    /\ forall n, n ∈ l <-> lo <= n < hi /\ (n - lo) mod step = 0.
Proof.
  intros Hs. unfold stride. destruct (Z.leb_spec hi lo) as [H|H].
  { exists []. split; [reflexivity|]. split; [constructor|]. intros n. rewrite elem_of_nil. split; [contradiction|lia]. }
  rewrite (proj2 (Z.eqb_neq step 0)) by lia. eexists. split; [reflexivity|]. split.
  { apply NoDup_fmap_2; [intros x y E; nia|apply NoDup_range]. }
  intros n. rewrite list_elem_of_fmap. split.
  - intros (k & -> & Hk%elem_of_range). replace (lo + k * step - lo) with (k * step) by ring. rewrite Z.mod_mul by lia.
    pose proof (Z.mul_div_le (hi - lo + step - 1) step Hs). nia.
  - intros [Hn Hm]. exists ((n - lo) / step). pose proof (Z.div_mod (n - lo) step ltac:(lia)) as E. split; [lia|].
    apply elem_of_range. split; [apply Z.div_pos; lia|]. apply Z.div_lt_upper_bound; [lia|].
    pose proof (Z.mul_succ_div_gt (hi - lo + step - 1) step Hs). lia.
Qed.

Lemma residue_class n c s : 0 <= c < s -> c <= n -> (n - c) mod s = 0 <-> n mod s = c.
Proof.
  intros Hc Hn. split; intros H.
  - pose proof (Z.div_mod (n - c) s ltac:(lia)). symmetry. apply (Z.mod_unique_pos n s ((n - c) / s)); lia.
  - pose proof (Z.div_mod n s ltac:(lia)). replace (n - c) with (n / s * s) by lia. apply Z.mod_mul. lia.
Qed.

(** Normalisation of samples that are not [float]: every sample is scaled by the
    range of its own channel. *)
Section Normalize.
Context (junk : Z -> Z) (t : RawTile) (max min : list float) (np : Z) (value : Z -> Z).
Context (Hfl : (bpc t =? 32) && bool_decide (sampleType t = FLOATINGPOINT) = false).
Context (Hnp : samples t = Ok np) (Hnp0 : 0 <= np < 2 ^ 29) (Hch : 1 <= channels t < 2 ^ 31).
Context (Hmax : channels t <= Z.of_nat (length max)) (Hmin : channels t <= Z.of_nat (length min)).
Context (Hval : forall n, 0 <= n < np ->
  ld (if bpc t =? 32 then 4 else if bpc t =? 16 then 2 else 1) (tile_data t) n = Ok (value n)).

Definition normalized (n : Z) : float :=
  let c := Z.to_nat (n mod channels t) in
  fmul b32 (fsub b32 (of_Z b32 (value n)) (default FNaN (min !! c)))
    (inverse_range (default FNaN (max !! c)) (default FNaN (min !! c))).

Lemma normalize_spec :
  exists b, normalize junk t max min
            = Ok (t <| data := Some b |> <| bpc := 32 |> <| dataLength := u32 (np * 4) |>)
    /\ blen b = 4 * np /\ forall n, 0 <= n < np -> ldf b n = Ok (normalized n).
Proof.
  unfold normalize. rewrite Hnp, bind_ret, Hfl. cbv zeta. rewrite (u32_small (channels t)) by lia.
  match goal with |- context [foldM ?body (range 0 (channels t)) ?b0] =>
    destruct (foldM_range (fun c b => blen b = 4 * np /\
      forall n, 0 <= n < np -> n mod channels t < c -> ld 4 b n = Ok (bits_of_float (normalized n))) body 0 (channels t) b0)
      as (b & E & Hb & Hn) end.
  - lia.
  - split; [apply blen_new_bytes; lia|]. intros n Hn Hm. pose proof (Z.mod_pos_bound n (channels t)). lia.
  - intros c b Hc [Hb Hdone].
    destruct (rd_in_range min c) as (minc & Emin & Lmin); [lia|]. destruct (rd_in_range max c) as (maxc & Emax & Lmax); [lia|].
    rewrite Emin, Emax, !bind_ret. destruct (stride_ok c np (channels t) ltac:(lia)) as (ns & -> & Hnd & Hns).
    rewrite bind_ret.
    destruct (foldM_cells 4 (fun n normdata =>
        v ← ld (if bpc t =? 32 then 4 else if bpc t =? 16 then 2 else 1) (tile_data t) n;
        stf normdata n (fmul b32 (fsub b32 (of_Z b32 v) minc) (inverse_range maxc minc)))
      (fun n => n) (fun n => bits_of_float (normalized n)) ns b) as (b' & E & Hb' & Hin & Hout).
    + rewrite list_fmap_id. exact Hnd.
    + intros n b1 Hnin Hb1 _. apply Hns in Hnin as [Hr Hm].
      assert (Hmod : n mod channels t = c) by (apply residue_class; lia).
      rewrite Hval, bind_ret by lia.
      assert (En : normalized n = fmul b32 (fsub b32 (of_Z b32 (value n)) minc) (inverse_range maxc minc))
        by (unfold normalized; rewrite Hmod, Lmin, Lmax; reflexivity).
      rewrite <- En. apply stf_ok; [lia|lia|rewrite En; apply fmul_canonical].
    + exists b'. split; [exact E|]. split; [lia|]. intros n Hn Hm.
      destruct (decide (n mod channels t = c)) as [Hmc|Hmc].
      * pose proof (Z.mod_le n (channels t) ltac:(lia) ltac:(lia)).
        apply Hin, Hns. split; [lia|]. apply residue_class; lia.
      * rewrite Hout; [apply Hdone; lia|]. rewrite list_fmap_id. intros [Hr Hm']%Hns.
        apply Hmc. apply residue_class; lia.
  - rewrite E, bind_ret. exists b. split; [reflexivity|]. split; [exact Hb|].
    intros n Hn'. apply ldf_bits; [apply fmul_canonical|]. apply Hn; [exact Hn'|]. apply Z.mod_pos_bound. lia.
Qed.
End Normalize.

(** ** [contrast] *)

(** Whatever the [float], NaN and infinities included, the clipped value is a
    byte. *)
Lemma clip_total v : exists r, clip v = Ok r /\ 0 <= r <= 255.
Proof.
  assert (H255 : of_Z b64 255 = FFin false 8972014882652160 (-45)) by (vm_compute; reflexivity).
  unfold clip. destruct (flt v (of_Z b64 255)) eqn:Hlt.
  2: { exists 255. rewrite H255. split; [vm_compute; reflexivity|lia]. }
  destruct (flt v (FZero false)) eqn:Hneg; [exists 0; split; [reflexivity|lia]|].
  assert (Hnum : num v * 2 ^ 45 < 8972014882652160 * den v).
  { rewrite H255 in Hlt. unfold flt, fcompare in Hlt. pose proof (den_pos v).
    destruct v as [s|[]| |s m e]; try discriminate Hlt.
    - cbn. lia.
    - cbn in Hneg. discriminate Hneg.
    - destruct (Z.compare_spec (num (FFin s m e) * den (FFin false 8972014882652160 (-45)))
        (num (FFin false 8972014882652160 (-45)) * den (FFin s m e))) as [E|E|E]; try discriminate Hlt.
      change (den (FFin false 8972014882652160 (-45))) with (2 ^ 45) in E.
      change (num (FFin false 8972014882652160 (-45))) with 8972014882652160 in E. exact E. }
  assert (Hpos : 0 <= num v /\ finite v = true).
  { unfold flt, fcompare in Hneg, Hlt. rewrite H255 in Hlt. destruct v as [s|[]| |s m e]; try discriminate Hlt; try discriminate Hneg.
    - split; [cbn; lia|reflexivity].
    - split; [|reflexivity].
      destruct (Z.compare_spec (num (FFin s m e) * den (FZero false)) (num (FZero false) * den (FFin s m e))) as [E|E|E];
        try discriminate Hneg; cbn [num den] in E |- *; lia. }
  destruct Hpos as [Hpos Hfin]. pose proof (den_pos v) as D.
  unfold to_u8, to_int. rewrite Hfin. unfold truncZ. rewrite Z.quot_div_nonneg by lia.
  assert (0 <= num v / den v < 255) by (split; [apply Z.div_pos; lia|apply Z.div_lt_upper_bound; lia]).
  rewrite (proj2 (Z.leb_le 0 _)), (proj2 (Z.ltb_lt _ (2 ^ 8))) by lia. cbn [andb]. eexists. split; [reflexivity|lia].
Qed.

Definition clipped (v : float) : Z := match clip v with Ok r => r | Err _ => 0 end.

Lemma clip_clipped v : clip v = Ok (clipped v) /\ 0 <= clipped v <= 255.
Proof. destruct (clip_total v) as (r & E & Hr). unfold clipped. rewrite E. split; [reflexivity|exact Hr]. Qed.

Section Contrast.
Context (junk : Z -> Z) (t : RawTile) (c : float) (np : Z) (x : Z -> float).
Context (Hnp : u32 (width t * height t * channels t) = np).
Context (Hx : forall n, 0 <= n < np -> ldf (tile_data t) n = Ok (x n)).

Lemma contrast_spec :
  contrast junk t c
  = Ok (t <| data := Some ((fun n => clipped (fmul b32 (fmul b32 (x n) (of_Z b32 255)) c)) <$> range 0 np) |>
          <| bpc := 8 |> <| dataLength := np |>).
Proof.
  pose proof (u32_range (width t * height t * channels t)) as Hr. rewrite Hnp in Hr.
  unfold contrast. rewrite Hnp. cbv zeta.
  rewrite (fill_bytes (fun n => clipped (fmul b32 (fmul b32 (x n) (of_Z b32 255)) c))).
  - rewrite bind_ret. change (8 / 8) with 1. rewrite Z.mul_1_r, u32_small by lia. reflexivity.
  - lia.
  - apply blen_new_bytes. lia.
  - intros n b Hn Hb _. rewrite Hx, bind_ret by assumption.
    rewrite (proj1 (clip_clipped _)), bind_ret. reflexivity.
  - intros n Hn. pose proof (clip_clipped (fmul b32 (fmul b32 (x n) (of_Z b32 255)) c)). unfold is_u8. lia.
Qed.
End Contrast.

(** Point operations in the tile's own array. *)
Lemma map_floats_ok f np b x :
  0 <= np -> 4 * np <= blen b -> (forall v, canonical (f v)) -> (forall n, 0 <= n < np -> ldf b n = Ok (x n)) ->
  exists b', map_floats f np b = Ok b' /\ blen b' = blen b /\ forall n, 0 <= n < np -> ldf b' n = Ok (f (x n)).
Proof.
  intros Hnp Hb Hf Hx. unfold map_floats.
  destruct (foldM_cells 4 (fun n b => v ← ldf b n; stf b n (f v)) (fun n => n) (fun n => bits_of_float (f (x n)))
    (range 0 np) b) as (b' & E & Hl & Hin & _).
  - rewrite list_fmap_id. apply NoDup_range.
  - intros n b1 Hn%elem_of_range Hb1 Hsame.
    assert (Ev : ldf b1 n = Ok (x n)) by (unfold ldf; rewrite Hsame; apply Hx, Hn).
    rewrite Ev, bind_ret. apply stf_ok; [lia|lia|apply Hf].
  - exists b'. split; [exact E|]. split; [exact Hl|]. intros n Hn. apply ldf_bits; [apply Hf|].
    apply Hin, elem_of_range, Hn.
Qed.

(** ** [twist] *)

Section Twist.
Context (junk : Z -> Z) (t : RawTile) (matrix : list (list float)) (np : Z) (x : Z -> float).
Context (Hnp : u32 (width t * height t) = np) (Hch : 1 <= channels t < 2 ^ 31) (Hsize : np * channels t < 2 ^ 29).
Context (Hlen : 4 * (np * channels t) <= blen (tile_data t)).
Context (Hx : forall n, 0 <= n < np * channels t -> ldf (tile_data t) n = Ok (x n)).
Context (Hcan : forall n, canonical (x n)).

#[local] Abbreviation ch := (channels t).

(** The weighted sum of the samples of the pixel that starts at [n], in the
    order of the source; weights of 0 are skipped and those of 1 not multiplied. *)
Definition recombined (row : list float) (n : Z) : float :=
  foldl (fun acc j =>
    let m := default FNaN (row !! Z.to_nat j) in
    if fne m (FZero false)
    then fadd b32 acc (if feq m (of_Z b32 1) then x (n + j) else fmul b32 (x (n + j)) m)
    else acc) (FZero false) (range 0 (Z.min ch (Z.of_nat (length row)))).

(** What the temporary array holds of a channel without a row. *)
Definition uninitialised (k : Z) : float :=
  match ldf (new_bytes junk (4 * ch)) k with Ok v => v | Err _ => FNaN end.

Definition twisted (n k : Z) : float :=
  match matrix !! Z.to_nat k with Some row => recombined row n | None => uninitialised k end.

Lemma feq_formats m : feq m (of_Z b64 1) = feq m (of_Z b32 1).
Proof.
  assert (E1 : of_Z b64 1 = FFin false 4503599627370496 (-52)) by (vm_compute; reflexivity).
  assert (E2 : of_Z b32 1 = FFin false 8388608 (-23)) by (vm_compute; reflexivity).
  rewrite E1, E2. unfold feq, fcompare. destruct m as [s|s| |s m e]; try reflexivity.
  pose proof (den_pos (FFin s m e)) as D. set (y := FFin s m e) in *.
  change (num (FFin false 4503599627370496 (-52))) with (8388608 * 2 ^ 29).
  change (den (FFin false 4503599627370496 (-52))) with (2 ^ 23 * 2 ^ 29).
  change (num (FFin false 8388608 (-23))) with 8388608. change (den (FFin false 8388608 (-23))) with (2 ^ 23).
  destruct (Z.compare_spec (num y * (2 ^ 23 * 2 ^ 29)) (8388608 * 2 ^ 29 * den y)),
    (Z.compare_spec (num y * 2 ^ 23) (8388608 * den y)); try reflexivity; lia.
Qed.

Lemma twist_channel_ok d row n :
  (forall j, 0 <= j < ch -> ldf d (n + j) = Ok (x (n + j))) ->
  twist_channel d row n (Z.min ch (Z.of_nat (length row))) = Ok (recombined row n)
  /\ canonical (recombined row n).
Proof.
  intros Hd. unfold twist_channel, recombined.
  assert (H : forall l acc, (forall j, j ∈ l -> 0 <= j < Z.min ch (Z.of_nat (length row))) -> canonical acc ->
    let f := fun acc j => let m := default FNaN (row !! Z.to_nat j) in
      if fne m (FZero false)
      then fadd b32 acc (if feq m (of_Z b32 1) then x (n + j) else fmul b32 (x (n + j)) m) else acc in
    foldM (fun j acc => m ← rd row j;
        if fne m (FZero false) then
          v ← ldf d (n + j);
          Ok (fadd b32 acc (if feq m (of_Z b64 1) then v else fmul b32 v m))
        else Ok acc) l acc = Ok (foldl f acc l) /\ canonical (foldl f acc l)).
  { induction l as [|j l IH]; intros acc Hl Hacc f; [split; [reflexivity|exact Hacc]|].
    pose proof (Hl j (list_elem_of_here _ _)) as Hj. cbn [foldM foldl].
    destruct (rd_in_range row j) as (m & Em & Lm); [lia|]. rewrite Em, bind_ret.
    assert (Ef : f acc j = if fne m (FZero false)
      then fadd b32 acc (if feq m (of_Z b32 1) then x (n + j) else fmul b32 (x (n + j)) m) else acc)
      by (unfold f; rewrite Lm; reflexivity).
    rewrite Hd by lia. rewrite Ef, feq_formats. destruct (fne m (FZero false)); rewrite !bind_ret;
      apply IH; try (intros i Hi; apply Hl, list_elem_of_further, Hi); [|exact Hacc].
    apply fadd_canonical; [exact Hacc|]. destruct (feq _ _); [apply Hcan|apply fmul_canonical]. }
  apply H; [intros j Hj%elem_of_range; exact Hj|exact I].
Qed.

Lemma uninitialised_ok k : 0 <= k < ch -> ldf (new_bytes junk (4 * ch)) k = Ok (uninitialised k) /\ canonical (uninitialised k).
Proof.
  intros Hk. destruct (ldf_ok (new_bytes junk (4 * ch)) k) as (v & E & Hv); [lia|rewrite blen_new_bytes; lia|].
  unfold uninitialised. rewrite E. split; [reflexivity|exact Hv].
Qed.

Definition ncols : Z := Z.min ch (Z.of_nat (length matrix)).

(** One pixel: the temporary array is computed from the samples of the pixel,
    then written over them. *)
Lemma twist_pixel i d pixel :
  0 <= i < np -> blen d = blen (tile_data t) -> blen pixel = 4 * ch ->
  (forall n, i * ch <= n < np * ch -> ldf d n = Ok (x n)) ->
  (forall k, ncols <= k < ch -> ldf pixel k = Ok (uninitialised k)) ->
  exists pixel' d',
    foldM (fun k pixel =>
        row ← rd matrix k;
        v ← twist_channel d row (i * ch) (Z.min ch (Z.of_nat (length row)));
        stf pixel k v) (range 0 ncols) pixel = Ok pixel'
    /\ foldM (fun k d => v ← ldf pixel' k; stf d (i * ch + k) v) (range 0 ch) d = Ok d'
    /\ blen d' = blen d /\ blen pixel' = 4 * ch
    /\ (forall k, 0 <= k < ch -> ldf d' (i * ch + k) = Ok (twisted (i * ch) k))
    /\ (forall n, n < i * ch \/ (i + 1) * ch <= n -> ldf d' n = ldf d n)
    /\ (forall k, ncols <= k < ch -> ldf pixel' k = Ok (uninitialised k)).
Proof.
  intros Hi Hd Hp Hsame Hjunk. assert (Hfit : (i + 1) * ch <= np * ch) by (apply Z.mul_le_mono_nonneg_r; lia).
  assert (Hrow : forall k, 0 <= k < ncols -> exists row, rd matrix k = Ok row /\ matrix !! Z.to_nat k = Some row
    /\ twist_channel d row (i * ch) (Z.min ch (Z.of_nat (length row))) = Ok (recombined row (i * ch))
    /\ canonical (recombined row (i * ch))).
  { intros k Hk. unfold ncols in Hk. destruct (rd_in_range matrix k) as (row & E & L); [lia|].
    exists row. split; [exact E|]. split; [exact L|]. apply twist_channel_ok. intros j Hj. apply Hsame. lia. }
  destruct (foldM_cells 4 (fun k pixel =>
        row ← rd matrix k;
        v ← twist_channel d row (i * ch) (Z.min ch (Z.of_nat (length row)));
        stf pixel k v) (fun k => k) (fun k => bits_of_float (twisted (i * ch) k)) (range 0 ncols) pixel)
    as (pixel' & E1 & Hl1 & Hin1 & Hout1).
  { rewrite list_fmap_id. apply NoDup_range. }
  { intros k b Hk%elem_of_range Hb _. destruct (Hrow k Hk) as (row & -> & L & E & Hc). rewrite bind_ret, E, bind_ret.
    unfold twisted. rewrite L. unfold ncols in Hk. apply stf_ok; [lia|lia|exact Hc]. }
  assert (Hpix : forall k, 0 <= k < ch -> ldf pixel' k = Ok (twisted (i * ch) k) /\ canonical (twisted (i * ch) k)).
  { intros k Hk. destruct (Z.lt_ge_cases k ncols) as [Hkn|Hkn].
    - destruct (Hrow k ltac:(lia)) as (row & _ & L & _ & Hc).
      assert (Hc' : canonical (twisted (i * ch) k)) by (unfold twisted; rewrite L; exact Hc).
      split; [|exact Hc']. apply ldf_bits; [exact Hc'|]. apply Hin1, elem_of_range. lia.
    - assert (Et : twisted (i * ch) k = uninitialised k).
      { unfold twisted. rewrite (lookup_ge_None_2 matrix); [reflexivity|]. unfold ncols in Hkn. lia. }
      rewrite Et. split; [|apply uninitialised_ok, Hk]. unfold ldf. rewrite Hout1.
      + apply Hjunk. lia.
      + rewrite list_fmap_id, elem_of_range. lia. }
  destruct (foldM_cells 4 (fun k d => v ← ldf pixel' k; stf d (i * ch + k) v) (fun k => i * ch + k)
    (fun k => bits_of_float (twisted (i * ch) k)) (range 0 ch) d) as (d' & E2 & Hl2 & Hin2 & Hout2).
  { apply NoDup_fmap_2; [intros a b Hab; lia|apply NoDup_range]. }
  { intros k b Hk%elem_of_range Hb _. destruct (Hpix k Hk) as [E Hc]. rewrite E, bind_ret.
    assert (0 <= i * ch) by nia. apply stf_ok; [lia|lia|exact Hc]. }
  exists pixel', d'. split; [exact E1|]. split; [exact E2|]. split; [exact Hl2|]. split; [lia|]. split; [|split].
  - intros k Hk. apply ldf_bits; [apply Hpix, Hk|]. apply Hin2, elem_of_range, Hk.
  - intros n Hn. unfold ldf. rewrite Hout2; [reflexivity|]. intros (k & -> & Hk%elem_of_range)%list_elem_of_fmap. lia.
  - intros k Hk. unfold ldf. rewrite Hout1; [apply Hjunk, Hk|]. rewrite list_fmap_id, elem_of_range. lia.
Qed.

Lemma twist_spec :
  exists d, twist junk t matrix = Ok (write_data t d) /\ blen d = blen (tile_data t)
    /\ forall i k, 0 <= i < np -> 0 <= k < ch -> ldf d (i * ch + k) = Ok (twisted (i * ch) k).
Proof.
  pose proof (u32_range (width t * height t)) as Hr. rewrite Hnp in Hr.
  unfold twist. rewrite Hnp. cbv zeta. rewrite (u32_small ch) by lia.
  assert (Hlim : forall m, 0 <= m -> (if ch <? m then ch else m) = Z.min ch m)
    by (intros m _; destruct (Z.ltb_spec ch m); lia).
  rewrite Hlim by lia. fold ncols.
  match goal with |- context [foldM ?body (range 0 np) ?s0] =>
    destruct (foldM_range (fun i s => blen (fst s) = blen (tile_data t) /\ blen (snd s) = 4 * ch
      /\ (forall j k, 0 <= j < i -> 0 <= k < ch -> ldf (fst s) (j * ch + k) = Ok (twisted (j * ch) k))
      /\ (forall n, i * ch <= n < np * ch -> ldf (fst s) n = Ok (x n))
      /\ (forall k, ncols <= k < ch -> ldf (snd s) k = Ok (uninitialised k))) body 0 np s0)
      as ([d pixel] & E & Hd & _ & Hdone & _) end.
  - lia.
  - cbn [fst snd]. split; [reflexivity|]. split; [apply blen_new_bytes; lia|]. split; [lia|]. split.
    + intros n Hn. apply Hx. lia.
    + intros k Hk. apply uninitialised_ok. unfold ncols in Hk. lia.
  - intros i [d pixel] Hi (Hd & Hp & Hdone & Hsame & Hjunk). cbn [fst snd] in *.
    destruct (twist_pixel i d pixel Hi Hd Hp Hsame Hjunk) as (pixel' & d' & E1 & E2 & Hd' & Hp' & Hin & Hout & Hj').
    rewrite u64_small by nia.
    rewrite (foldM_ext _ (fun k pixel => row ← rd matrix k;
        v ← twist_channel d row (i * ch) (Z.min ch (Z.of_nat (length row))); stf pixel k v)).
    2: { intros k b _. destruct (rd matrix k); [|reflexivity]. rewrite !bind_ret, Hlim by lia. reflexivity. }
    rewrite E1, bind_ret, E2, bind_ret. exists (d', pixel'). split; [reflexivity|]. cbn [fst snd].
    split; [lia|]. split; [exact Hp'|]. split; [|split; [|exact Hj']].
    + intros j k Hj Hk. destruct (Z.eq_dec j i) as [->|Hne]; [apply Hin, Hk|].
      rewrite Hout; [apply Hdone; lia|]. left. assert ((j + 1) * ch <= i * ch) by (apply Z.mul_le_mono_nonneg_r; lia). lia.
    + intros n Hn. rewrite Hout by lia. apply Hsame. lia.
  - rewrite E, bind_ret. exists d. split; [reflexivity|]. split; [exact Hd|]. exact Hdone.
Qed.
End Twist.

(** ** Properties *)

(** *** The 8-bit pipeline *)

Definition nrm (v : Z) : float :=
  fmul b32 (fsub b32 (of_Z b32 v) (of_Z b32 0)) (inverse_range (of_Z b32 255) (of_Z b32 0)).

(** All 256 values, computed. *)
Lemma nrm_clipped v :
  0 <= v < 256 ->
  clipped (fmul b32 (fmul b32 (nrm v) (of_Z b32 255)) (of_Z b32 1)) = v
  /\ 254 - v <= clipped (fmul b32 (fmul b32 (one_minus (nrm v)) (of_Z b32 255)) (of_Z b32 1)) <= 255 - v.
Proof.
  intros Hv.
  assert (H : forallb (fun v =>
      let r := clipped (fmul b32 (fmul b32 (one_minus (nrm v)) (of_Z b32 255)) (of_Z b32 1)) in
      (clipped (fmul b32 (fmul b32 (nrm v) (of_Z b32 255)) (of_Z b32 1)) =? v) && (254 - v <=? r) && (r <=? 255 - v))
    (range 0 256) = true) by (vm_compute; reflexivity).
  rewrite forallb_forall in H. specialize (H v (proj1 (list_elem_of_In _ _) (proj2 (elem_of_range 0 256 v) Hv))).
  cbv zeta in H. rewrite !andb_true_iff, Z.eqb_eq, !Z.leb_le in H. tauto.
Qed.

Section Clipped.
Context (junk : Z -> Z) (t : RawTile).
Context (Ht : image_ok t) (Hbpc : bpc t = 8) (Hlen : dataLength t = width t * height t * channels t).

Lemma clipped_samples (g : Z -> float) (b : bytes) :
  (forall n, 0 <= n < dataLength t -> ldf b n = Ok (g (sample t n))) ->
  contrast junk (t <| data := Some b |> <| bpc := 32 |> <| dataLength := dataLength t * 4 |>) (of_Z b32 1)
  = Ok (t <| data := Some ((fun n => clipped (fmul b32 (fmul b32 (g (sample t n)) (of_Z b32 255)) (of_Z b32 1)))
                            <$> range 0 (dataLength t)) |>).
Proof.
  intros Hg. pose proof (image_sizes t Ht) as Hsz.
  rewrite (contrast_spec junk _ (of_Z b32 1) (dataLength t) (fun n => g (sample t n))).
  - apply (f_equal Ok). clear -Hbpc. destruct t. cbn in *. subst. reflexivity.
  - change (u32 (width t * height t * channels t) = dataLength t). rewrite u32_small by lia. lia.
  - exact Hg.
Qed.
End Clipped.

Section Pipeline.
Context (junk : Z -> Z) (t : RawTile) (max min : list float).
Context (Ht : image_ok t) (Hbpc : bpc t = 8) (Hlen : dataLength t = width t * height t * channels t)
        (Hsize : dataLength t < 2 ^ 29)
        (Hmax : channels t <= Z.of_nat (length max)) (Hmin : channels t <= Z.of_nat (length min))
        (Emax : Forall (eq (of_Z b32 255)) max) (Emin : Forall (eq (of_Z b32 0)) min).

Lemma normalize_8bit :
  exists b, normalize junk t max min
            = Ok (t <| data := Some b |> <| bpc := 32 |> <| dataLength := dataLength t * 4 |>)
    /\ blen b = 4 * dataLength t /\ forall n, 0 <= n < dataLength t -> ldf b n = Ok (nrm (sample t n)).
Proof.
  pose proof (image_sizes t Ht) as Hsz. assert (Hc : 1 <= channels t) by (destruct Ht as (_ & _ & Hc & _); exact Hc).
  destruct (normalize_spec junk t max min (dataLength t) (sample t)) as (b & E & Hb & Hn).
  - rewrite Hbpc. reflexivity.
  - apply samples_8bit; [exact Hbpc|lia].
  - lia.
  - lia.
  - exact Hmax.
  - exact Hmin.
  - intros n Hn. rewrite Hbpc. apply (ld_sample t Ht). lia.
  - exists b. rewrite u32_small in E by lia. split; [exact E|]. split; [exact Hb|]. intros n Hn'.
    rewrite Hn by exact Hn'. apply (f_equal Ok). unfold normalized, nrm.
    assert (Hl : forall (l : list float) v, channels t <= Z.of_nat (length l) -> Forall (eq v) l ->
      default FNaN (l !! Z.to_nat (n mod channels t)) = v).
    { intros l v Hlen' HF. pose proof (Z.mod_pos_bound n (channels t) ltac:(lia)).
      destruct (lookup_lt_is_Some_2 l (Z.to_nat (n mod channels t))) as [u Hu]; [lia|].
      rewrite Hu. symmetry. exact (Forall_lookup_1 _ _ _ _ HF Hu). }
    rewrite (Hl min (of_Z b32 0)), (Hl max (of_Z b32 255)) by assumption. reflexivity.
Qed.

End Pipeline.

(** C40. Converting 8-bit data to [float] with the range 0 to 255 in every channel and
    back with contrast 1, as a request does that needs floating point for some other
    step, gives exactly the tile it started from. *)
Theorem normalize_contrast_identity (junk : Z -> Z) (t : RawTile) (max min : list float) :
  image_ok t -> bpc t = 8 -> dataLength t = width t * height t * channels t -> dataLength t < 2 ^ 29 ->
  channels t <= Z.of_nat (length max) -> channels t <= Z.of_nat (length min) ->
  Forall (eq (of_Z b32 255)) max -> Forall (eq (of_Z b32 0)) min ->
  (t' ← normalize junk t max min; contrast junk t' (of_Z b32 1)) = Ok t.
Proof.
  intros Ht Hb Hl Hs Hmax Hmin Emax Emin.
  destruct (normalize_8bit junk t max min Ht Hb Hl Hs Hmax Hmin Emax Emin) as (b & -> & _ & Hn). rewrite bind_ret.
  rewrite (clipped_samples junk t Ht Hb Hl nrm b Hn). apply (f_equal Ok).
  assert (E : (fun n => clipped (fmul b32 (fmul b32 (nrm (sample t n)) (of_Z b32 255)) (of_Z b32 1)))
              <$> range 0 (dataLength t) = tile_data t).
  { pose proof (blen_tile_data t Ht) as Hbl. apply list_eq_length; [rewrite length_fmap, length_range; unfold blen in Hbl; lia|].
    rewrite length_fmap, length_range. intros i Hi. rewrite list_lookup_fmap. unfold range. rewrite lookup_zseq by lia.
    destruct (lookup_lt_is_Some_2 (tile_data t) i) as [v Hv]; [unfold blen in Hbl; lia|]. rewrite Hv.
    pose proof (tile_data_u8 t Ht) as Hu. rewrite Forall_lookup in Hu.
    cbn [fmap option_fmap option_map]. apply f_equal. unfold sample.
    replace (Z.to_nat (0 + Z.of_nat i)) with i by lia. rewrite Hv. apply (nrm_clipped v (Hu _ _ Hv)). }
  rewrite E. destruct Ht as (_ & _ & _ & _ & d & Ed & _). unfold tile_data. rewrite Ed. destruct t. cbn in *. subst. reflexivity.
Qed.

Definition image_2x1 : RawTile :=
  {| tileNum := 0; resolution := 0; hSequence := 0; vSequence := 0; compressionType := UNCOMPRESSED;
     quality := 0; filename := "a.tif"; timestamp := 0; data := Some [0; 100; 200; 255];
     memoryManaged := 1; dataLength := 4; width := 2; height := 1; channels := 2; bpc := 8;
     sampleType := FIXEDPOINT; padded := false |}.

Lemma image_2x1_ok : image_ok image_2x1.
Proof. apply image_okb_ok. reflexivity. Qed.

Lemma normalize_contrast_identity_witness :
  (t' ← normalize (fun _ => 0) image_2x1 [of_Z b32 255; of_Z b32 255] [of_Z b32 0; of_Z b32 0];
   contrast (fun _ => 0) t' (of_Z b32 1)) = Ok image_2x1.
Proof.
  apply (normalize_contrast_identity (fun _ => 0) image_2x1); try (vm_compute; congruence).
  - exact image_2x1_ok.
  - forall_elements ltac:(reflexivity).
  - forall_elements ltac:(reflexivity).
Defined.

(** Inverting 8-bit data gives [255 - v] or, because the result is truncated,
    one less. *)
Theorem inversion_8bit (junk : Z -> Z) (t : RawTile) (max min : list float) :
  image_ok t -> bpc t = 8 -> dataLength t = width t * height t * channels t -> dataLength t < 2 ^ 27 ->
  channels t <= Z.of_nat (length max) -> channels t <= Z.of_nat (length min) ->
  Forall (eq (of_Z b32 255)) max -> Forall (eq (of_Z b32 0)) min ->
  exists b, (t' ← normalize junk t max min; t' ← inv t'; contrast junk t' (of_Z b32 1))
            = Ok (t <| data := Some b |>)
    /\ blen b = dataLength t
    /\ forall n, 0 <= n < dataLength t ->
         exists r, b !! Z.to_nat n = Some r /\ 254 - sample t n <= r <= 255 - sample t n.
Proof.
  intros Ht Hb Hl Hs Hmax Hmin Emax Emin. pose proof (image_sizes t Ht) as Hsz.
  destruct (normalize_8bit junk t max min Ht Hb Hl ltac:(lia) Hmax Hmin Emax Emin) as (b & -> & Hbl & Hn). rewrite bind_ret.
  destruct (map_floats_ok one_minus (dataLength t) b (fun n => nrm (sample t n))) as (b' & E & _ & Hn');
    [lia|lia|intros v; apply fcvt_canonical|exact Hn|].
  assert (Einv : inv (t <| data := Some b |> <| bpc := 32 |> <| dataLength := dataLength t * 4 |>)
                 = Ok (t <| data := Some b' |> <| bpc := 32 |> <| dataLength := dataLength t * 4 |>)).
  { unfold inv, samples. change (dataLength (?u <| dataLength := ?z |>)) with z.
    change (bpc (t <| data := Some b |> <| bpc := 32 |> <| dataLength := dataLength t * 4 |>)) with 32.
    rewrite u32_small, udiv_ok by lia. replace (dataLength t * 4 * 8) with (dataLength t * 32) by ring.
    rewrite Z.div_mul, bind_ret by lia. change (tile_data _) with b. rewrite E, bind_ret. reflexivity. }
  rewrite Einv, bind_ret, (clipped_samples junk t Ht Hb Hl (fun v => one_minus (nrm v)) b' Hn').
  eexists. split; [reflexivity|]. split; [unfold blen; rewrite length_fmap, length_range; lia|].
  intros n Hr. eexists. split.
  - rewrite list_lookup_fmap. replace (Z.to_nat n) with (Z.to_nat (n - 0)) by (f_equal; lia).
    rewrite lookup_range_at by lia. reflexivity.
  - apply nrm_clipped. apply (ld_sample t Ht). lia.
Qed.

Lemma inversion_8bit_witness :
  exists b, (t' ← normalize (fun _ => 0) image_2x1 [of_Z b32 255; of_Z b32 255] [of_Z b32 0; of_Z b32 0];
             t' ← inv t'; contrast (fun _ => 0) t' (of_Z b32 1)) = Ok (image_2x1 <| data := Some b |>)
    /\ exists r, b !! 1%nat = Some r /\ 154 <= r <= 155.
Proof.
  destruct (inversion_8bit (fun _ => 0) image_2x1 [of_Z b32 255; of_Z b32 255] [of_Z b32 0; of_Z b32 0]
    image_2x1_ok eq_refl eq_refl eq_refl ltac:(cbn; lia) ltac:(cbn; lia)
    ltac:(forall_elements ltac:(reflexivity)) ltac:(forall_elements ltac:(reflexivity))) as (b & E & _ & H).
  exists b. split; [exact E|]. exact (H 1 ltac:(cbn; lia)).
Defined.

(** The conversion to bytes is defined for every bit pattern of the
    samples, NaN and infinities included, and every contrast: each byte of the
    result is the sample scaled and clipped. *)
Theorem contrast_total (junk : Z -> Z) (t : RawTile) (c : float) (np : Z) :
  width t * height t * channels t = np -> 0 <= np < 2 ^ 32 -> 4 * np <= blen (tile_data t) ->
  exists b, contrast junk t c = Ok (t <| data := Some b |> <| bpc := 8 |> <| dataLength := np |>)
    /\ blen b = np
    /\ forall n, 0 <= n < np -> exists x r, ldf (tile_data t) n = Ok x /\ b !! Z.to_nat n = Some r
         /\ clip (fmul b32 (fmul b32 x (of_Z b32 255)) c) = Ok r /\ 0 <= r <= 255.
Proof.
  intros Enp Hnp Hlen.
  set (x n := match ldf (tile_data t) n with Ok v => v | Err _ => FNaN end).
  assert (Hx : forall n, 0 <= n < np -> ldf (tile_data t) n = Ok (x n)).
  { intros n Hn. unfold x. destruct (ldf_ok (tile_data t) n) as (v & E & _); [lia|lia|]. rewrite E. reflexivity. }
  rewrite (contrast_spec junk t c np x) by (rewrite ?Enp, ?u32_small by lia; (reflexivity || exact Hx)).
  eexists. split; [reflexivity|]. split; [unfold blen; rewrite length_fmap, length_range; lia|]. intros n Hn.
  destruct (clip_clipped (fmul b32 (fmul b32 (x n) (of_Z b32 255)) c)) as [E Hr].
  exists (x n), (clipped (fmul b32 (fmul b32 (x n) (of_Z b32 255)) c)).
  split; [exact (Hx n Hn)|]. split; [|split; [exact E|exact Hr]].
  rewrite list_lookup_fmap. replace (Z.to_nat n) with (Z.to_nat (n - 0)) by (f_equal; lia).
  rewrite lookup_range_at by lia. reflexivity.
Qed.

(** Two pixels of one channel: a NaN and minus infinity. *)
Definition odd_floats : RawTile :=
  image_2x1 <| data := Some [0; 0; 192; 127; 0; 0; 128; 255] |> <| channels := 1 |> <| bpc := 32 |>
            <| dataLength := 8 |>.

Lemma contrast_total_witness :
  exists b, contrast (fun _ => 0) odd_floats (of_Z b32 1)
            = Ok (odd_floats <| data := Some b |> <| bpc := 8 |> <| dataLength := 2 |>)
    /\ b = [255; 0].
Proof.
  destruct (contrast_total (fun _ => 0) odd_floats (of_Z b32 1) 2 eq_refl ltac:(lia) ltac:(vm_compute; congruence))
    as (b & E & _).
  exists b. split; [exact E|].
  assert (E' : contrast (fun _ => 0) odd_floats (of_Z b32 1)
    = Ok (odd_floats <| data := Some [255; 0] |> <| bpc := 8 |> <| dataLength := 2 |>)) by (vm_compute; reflexivity).
  rewrite E' in E. injection E as E. symmetry. exact E.
Defined.

(** *** Hill shading reads past the samples *)

(** It returns, or what it does is undefined. *)
Definition no_throw {A} (r : res A) : Prop := match r with Err (Thrown _) | Err OutOfFuel => False | _ => True end.

Lemma no_throw_bind {A B} (m : res A) (k : A -> res B) :
  no_throw m -> (forall a, no_throw (k a)) -> no_throw (m ≫= k).
Proof. destruct m as [a|f]; intros Hm Hk; [apply Hk|exact Hm]. Qed.

Lemma no_throw_ld sz b i : no_throw (ld sz b i).
Proof. unfold ld. destruct (_ && _); exact I. Qed.

Lemma no_throw_ldf b i : no_throw (ldf b i).
Proof. unfold ldf. pose proof (no_throw_ld 4 b i). destruct (ld 4 b i); exact H. Qed.

Lemma no_throw_st sz b i v : no_throw (st sz b i v).
Proof. unfold st, memcpy. destruct (sz =? 0); [exact I|]. destruct (_ && _); exact I. Qed.

Lemma no_throw_foldM {A S} (body : A -> S -> res S) l s :
  (forall a t, no_throw (body a t)) -> no_throw (foldM body l s).
Proof.
  intros H. revert s. induction l as [|a l IH]; intros s; [exact I|]. cbn [foldM].
  apply no_throw_bind; [apply H|exact IH].
Qed.

(** A loop with a step that fails whatever the state does not end well. *)
Lemma foldM_fails {A S} (body : A -> S -> res S) l a s :
  a ∈ l -> (forall t t', body a t <> Ok t') -> forall s', foldM body l s <> Ok s'.
Proof.
  intros Ha Hf. revert s. induction l as [|b l IH]; intros s s' E; [apply not_elem_of_nil in Ha; exact Ha|].
  cbn [foldM] in E. destruct (body b s) as [u|f] eqn:Eb; [|discriminate E].
  apply elem_of_cons in Ha as [->|Ha]; [exact (Hf s u Eb)|]. exact (IH Ha u s' E).
Qed.

(** Hill shading counts the samples of the tile and reads three for each of
    them: on any tile whose array is as long as it says, the loop reads past its
    end. *)
Theorem shade_overread (junk : Z -> Z) (cosf sinf : float -> float) (t : RawTile) (b : bytes) (h v : Z) :
  bpc t = 32 -> data t = Some b -> blen b = dataLength t -> 4 <= dataLength t < 2 ^ 29 ->
  exists why, shade junk cosf sinf t h v = Err (Undefined why).
Proof.
  intros Hbpc Hd Hb Hl. unfold shade. rewrite (samples_float t Hbpc), bind_ret by lia.
  assert (Hn : 1 <= dataLength t / 4) by (apply Z.div_le_lower_bound; lia).
  pose proof (Z.div_mod (dataLength t) 4 ltac:(lia)). pose proof (Z.mod_pos_bound (dataLength t) 4 ltac:(lia)).
  match goal with |- context [foldM ?body ?l ?s] =>
    pose proof (foldM_fails body l (dataLength t / 4 - 1) s) as Hf;
    assert (Hnt : no_throw (foldM body l s)) end.
  { apply no_throw_foldM. intros k u. cbv zeta.
    do 3 (apply no_throw_bind; [apply no_throw_ldf|intros ?]). apply no_throw_st. }
  destruct (foldM _ _ _) as [u|[e|w|]]; [|contradiction|exists w; reflexivity|contradiction].
  exfalso. apply (Hf ltac:(apply elem_of_range; lia)) with (s' := u); [|reflexivity].
  intros s s' E. cbv zeta in E.
  destruct (ldf (tile_data t) (u32 ((dataLength t / 4 - 1) * 3))) as [x|]; [|discriminate E].
  destruct (ldf (tile_data t) (u32 (u32 ((dataLength t / 4 - 1) * 3) + 1))) as [y|]; [|discriminate E].
  rewrite !bind_ret in E.
  assert (Hout : exists w, ldf (tile_data t) (u32 (u32 ((dataLength t / 4 - 1) * 3) + 2)) = Err (Undefined w)).
  { rewrite (u32_small ((dataLength t / 4 - 1) * 3)), u32_small by lia. unfold ldf, tile_data. rewrite Hd.
    destruct (ld_out 4 b ((dataLength t / 4 - 1) * 3 + 2)) as (w & ->); [right; lia|]. exists w. reflexivity. }
  destruct Hout as (w & Ew). rewrite Ew in E. discriminate E.
Qed.

Lemma shade_overread_witness :
  exists why, shade (fun _ => 0) (fun x => x) (fun x => x) odd_floats 45 45 = Err (Undefined why).
Proof.
  exact (shade_overread (fun _ => 0) (fun x => x) (fun x => x) odd_floats _ 45 45 eq_refl eq_refl eq_refl
           ltac:(zcompute)).
Defined.

(** Recombining channels with a matrix that has a row for every channel: each
    sample of the result is the weighted sum of the original samples of its own
    pixel, although the result overwrites them. *)
Theorem twist_recombines (junk : Z -> Z) (t : RawTile) (matrix : list (list float)) (np : Z) :
  u32 (width t * height t) = np -> 1 <= channels t < 2 ^ 31 -> np * channels t < 2 ^ 29 ->
  4 * (np * channels t) <= blen (tile_data t) -> channels t <= Z.of_nat (length matrix) ->
  exists d x, twist junk t matrix = Ok (write_data t d) /\ blen d = blen (tile_data t)
    /\ (forall n, 0 <= n < np * channels t -> ldf (tile_data t) n = Ok (x n))
    /\ forall i k row, 0 <= i < np -> 0 <= k < channels t -> matrix !! Z.to_nat k = Some row ->
         ldf d (i * channels t + k) = Ok (recombined t x row (i * channels t)).
Proof.
  intros Hnp Hch Hsize Hlen Hmat.
  set (x n := match ldf (tile_data t) n with Ok v => v | Err _ => FNaN end).
  assert (Hx : forall n, 0 <= n < np * channels t -> ldf (tile_data t) n = Ok (x n)).
  { intros n Hn. unfold x. destruct (ldf_ok (tile_data t) n) as (v & E & _); [lia|lia|]. rewrite E. reflexivity. }
  assert (Hc : forall n, canonical (x n)).
  { intros n. unfold x, ldf. destruct (ld 4 (tile_data t) n) as [v|f]; [apply float_of_bits_canonical|exact I]. }
  destruct (twist_spec junk t matrix np x Hnp Hch Hsize Hlen Hx Hc) as (d & E & Hd & Hdone).
  exists d, x. split; [exact E|]. split; [exact Hd|]. split; [exact Hx|]. intros i k row Hi Hk Hrow.
  rewrite (Hdone i k Hi Hk). unfold twisted. rewrite Hrow. reflexivity.
Qed.

(** Two pixels of two channels: 1.0, 2.0, 0.5, 4.0. *)
Definition two_by_two : RawTile :=
  image_2x1 <| data := Some [0; 0; 128; 63; 0; 0; 0; 64; 0; 0; 0; 63; 0; 0; 128; 64] |>
            <| bpc := 32 |> <| dataLength := 16 |>.

(** The channels exchanged. *)
Definition exchange : list (list float) :=
  [[of_Z b32 0; of_Z b32 1]; [of_Z b32 1; of_Z b32 0]].

Lemma twist_recombines_witness :
  exists d, twist (fun _ => 0) two_by_two exchange = Ok (two_by_two <| data := Some d |>)
    /\ ldf d 2 = Ok (of_Z b32 4).
Proof.
  destruct (twist_recombines (fun _ => 0) two_by_two exchange 2 eq_refl ltac:(zcompute) ltac:(zcompute)
    ltac:(vm_compute; congruence) ltac:(zcompute)) as (d & x & E & _ & Hx & H).
  exists d. split; [exact E|].
  transitivity (ldf d (1 * channels two_by_two + 0)); [reflexivity|].
  rewrite (H 1 0 _ ltac:(lia) ltac:(zcompute) eq_refl).
  assert (E3 : Ok (x 3) = Ok (of_Z b32 4)) by (rewrite <- (Hx 3 ltac:(zcompute)); vm_compute; reflexivity).
  injection E3 as E3. apply (f_equal Ok). vm_compute. vm_compute in E3. rewrite E3. reflexivity.
Defined.

(** A matrix with fewer rows than the tile has channels: the last channels of
    every pixel are replaced by what the memory of the temporary array held. *)
Theorem twist_uninitialised (junk : Z -> Z) (t : RawTile) (matrix : list (list float)) (np : Z) :
  u32 (width t * height t) = np -> 1 <= channels t < 2 ^ 31 -> np * channels t < 2 ^ 29 ->
  4 * (np * channels t) <= blen (tile_data t) -> Z.of_nat (length matrix) < channels t ->
  exists d, twist junk t matrix = Ok (write_data t d)
    /\ forall i k, 0 <= i < np -> Z.of_nat (length matrix) <= k < channels t ->
         ldf d (i * channels t + k) = ldf (new_bytes junk (4 * channels t)) k.
Proof.
  intros Hnp Hch Hsize Hlen Hmat.
  set (x n := match ldf (tile_data t) n with Ok v => v | Err _ => FNaN end).
  assert (Hx : forall n, 0 <= n < np * channels t -> ldf (tile_data t) n = Ok (x n)).
  { intros n Hn. unfold x. destruct (ldf_ok (tile_data t) n) as (v & E & _); [lia|lia|]. rewrite E. reflexivity. }
  assert (Hc : forall n, canonical (x n)).
  { intros n. unfold x, ldf. destruct (ld 4 (tile_data t) n) as [v|f]; [apply float_of_bits_canonical|exact I]. }
  destruct (twist_spec junk t matrix np x Hnp Hch Hsize Hlen Hx Hc) as (d & E & _ & Hdone).
  exists d. split; [exact E|]. intros i k Hi Hk. rewrite (Hdone i k Hi ltac:(lia)).
  unfold twisted. rewrite (lookup_ge_None_2 matrix) by lia. symmetry. apply uninitialised_ok; lia.
Qed.

Lemma twist_uninitialised_witness :
  exists d, twist (fun i => i) two_by_two [[of_Z b32 1; of_Z b32 0]] = Ok (two_by_two <| data := Some d |>)
    /\ ldf d 1 = ldf (new_bytes (fun i => i) 8) 1.
Proof.
  destruct (twist_uninitialised (fun i => i) two_by_two [[of_Z b32 1; of_Z b32 0]] 2 eq_refl ltac:(zcompute)
    ltac:(zcompute) ltac:(vm_compute; congruence) ltac:(zcompute)) as (d & E & H).
  exists d. split; [exact E|]. exact (H 0 1 ltac:(lia) ltac:(zcompute)).
Defined.
