(* ===== verification/Histogram.v ===== *)
(** * Histograms, thresholds and equalisation (src/src/Transforms.cc)

    The histogram of a tile, Otsu's threshold computed from it, and histogram
    equalisation.  [vector::operator[]] and plain arrays do not check their
    index: an access outside is [undef]. *)
From stdpp Require Import base strings list numbers.
From Stdlib Require Import ZArith Lia Ascii.
From coqutil Require Import Datatypes.RecordSetters.
From S2P Require Import Prelude CString CFloat RawTile Transforms ColourTransforms.
Import TriangleBracketNotations.
#[local] Open Scope string_scope.
#[local] Open Scope list_scope.
#[local] Open Scope Z_scope.

#[local] Abbreviation flo z := (of_Z b32 z).

Section Histogram.
Context (junk : Z -> Z).

(** The bin of a pixel: the rounded average of its channels. *)
Definition pixel_level (t : RawTile) (n : Z) : res Z :=
  value ← foldM (fun k value =>
      v ← ld 1 (tile_data t) (u32 (n * channels t + k));
      Ok (fadd b32 value (flo v)))
    (range 0 (channels t)) (FZero false);
  to_u32 (fround b32 (fdiv b32 value (flo (channels t)))).

(** The tile is converted to 8 bits first when it has more. *)
Definition histogram (t : RawTile) (max min : list float) : res (list Z * RawTile) :=
  t ← (if 8 <? bpc t then t ← normalize junk t max min; contrast junk t (flo 1) else Ok t);
  let np := u32 (width t * height t) in
  h ← foldM (fun n h =>
      i ← pixel_level t n;
      c ← rd h i;
      wr h i (u32 (c + 1)))
    (range 0 np) (replicate (Z.to_nat (Z.shiftl 1 (bpc t))) 0);
  Ok (h, t).

(** ** [threshold] *)

Record Otsu := mkOtsu { o_wb : float; o_sumb : float; o_max : float; o_otsu : Z; o_stop : bool }.

(** The between-class variance, as it is computed. *)
Definition otsu_diff (wb wf sum sumb : float) : float :=
  let mb := fdiv b32 sumb wb in
  let mf := fdiv b32 (fsub b32 sum sumb) wf in
  let d := fsub b32 mb mf in
  fmul b32 (fmul b32 (fmul b32 wb wf) d) d.

(** The body of the loop: [continue] while the first class is empty, [break]
    ([o_stop]) when the second one is. *)
Definition otsu_step (np : Z) (sum : float) (histogram : list Z) (n : Z) (s : Otsu) : res Otsu :=
  if o_stop s then Ok s
  else
    hn ← rd histogram n;
    let wb := fadd b32 (o_wb s) (flo hn) in
    let s := s <| o_wb := wb |> in
    if feq wb (FZero false) then Ok s
    else
      let wf := fsub b32 (flo np) wb in
      if feq wf (FZero false) then Ok (s <| o_stop := true |>)
      else
        let sumb := fadd b32 (o_sumb s) (fmul b32 (flo n) (flo hn)) in
        let s := s <| o_sumb := sumb |> in
        let diff := otsu_diff wb wf sum sumb in
        Ok (if fgt diff (o_max s) then s <| o_otsu := u8 n |> <| o_max := diff |> else s).

Definition threshold (histogram : list Z) : res Z :=
  let bits := Z.of_nat (length histogram) in
  '(np, sum) ← foldM (fun n '(np, sum) =>
      hn ← rd histogram n;
      Ok (u32 (np + hn), fadd b32 sum (fmul b32 (flo n) (flo hn))))
    (range 0 bits) (0, FZero false);
  let s0 := mkOtsu (FZero false) (FZero false) (FZero false) 0 false in
  s ← foldM (otsu_step np sum histogram) (range 0 bits) s0;
  Ok (o_otsu s).

(** ** [equalize] *)

(** [while( histogram[n0] == 0 ) ++n0]: the search ends inside the vector or
    reads past its end. *)
Fixpoint first_bin (h : list Z) (n0 : Z) : res Z :=
  match h with
  | [] => undef "read outside a vector"
  | c :: h' => if c =? 0 then first_bin h' (n0 + 1) else Ok n0
  end.

(** The table of new levels. *)
Definition equalize_table (t : RawTile) (histogram : list Z) : res (list float) :=
  let bits := Z.of_nat (length histogram) in
  let cdf := replicate (length histogram) (FZero false) in
  n0 ← first_bin histogram 0;
  h0 ← rd histogram 0;
  cdf ← wr cdf 0 (flo h0);
  cdf ← foldM (fun i cdf =>
      prev ← rd cdf (i - 1);
      hi ← rd histogram i;
      wr cdf i (fadd b32 prev (flo hi)))
    (range 1 bits) cdf;
  last ← rd cdf (bits - 1);
  c0 ← rd cdf n0;
  let scale := fdiv b32 (flo (bits - 1)) last in
  let cdfmin := fdiv b32 c0 (flo (u32 (width t * height t))) in
  foldM (fun i cdf =>
      c ← rd cdf i;
      wr cdf i (fround b32 (fmul b32 scale (fsub b32 c cdfmin))))
    (range 0 bits) cdf.

Definition equalize (t : RawTile) (histogram : list Z) : res RawTile :=
  cdf ← equalize_table t histogram;
  d ← foldM (fun i d =>
      foldM (fun j d =>
          let index := u32 (i * channels t + j) in
          value ← ld 1 d index;
          c ← rd cdf value;
          r ← to_u8 c;
          st 1 d index r)
        (range 0 (channels t)) d)
    (range 0 (u32 (width t * height t))) (tile_data t);
  Ok (write_data t d).
End Histogram.

(** ** Lemmas *)

Section Levels.
Context (t : RawTile) (Ht : image_ok t) (Hch : channels t < 2 ^ 16).

Lemma pixel_level_between n lo hi :
  0 <= n < width t * height t -> 0 <= lo -> hi < 256 ->
  (forall k, 0 <= k < channels t -> lo <= sample t (n * channels t + k) <= hi) ->
  exists i, pixel_level t n = Ok i /\ lo <= i <= hi.
Proof.
  intros Hn Hlo Hhi Hs. assert (Hc : 1 <= channels t) by (destruct Ht as (_ & _ & Hc & _); exact Hc).
  pose proof (image_sizes t Ht) as Hsz. unfold pixel_level.
  assert (Hlohi : lo <= hi) by (specialize (Hs 0 ltac:(lia)); lia).
  assert (Hfit : n * channels t + channels t <= width t * height t * channels t) by nia.
  assert (0 <= n * channels t) by nia.
  destruct (foldM_range (fun k value => within value (lo * k) (hi * k)) (fun k value =>
      v ← ld 1 (tile_data t) (u32 (n * channels t + k)); Ok (fadd b32 value (flo v))) 0 (channels t) (FZero false))
    as (value & E & Hv).
  - lia.
  - split; [exact I|]. cbn [num den]. lia.
  - intros k value Hk Hv. rewrite u32_small by lia.
    destruct (ld_sample t Ht (n * channels t + k)) as [-> Hu]; [lia|]. rewrite bind_ret. eexists. split; [reflexivity|].
    specialize (Hs k Hk). rewrite !Z.mul_add_distr_l, !Z.mul_1_r.
    apply fadd_between; [exact b32_ok|exact Hv| |nia|exact Hlo|cbn; nia].
    apply of_Z_within; [exact b32_ok|cbn; lia|lia].
  - rewrite E, bind_ret.
    assert (Hd : within (fdiv b32 value (flo (channels t))) lo hi).
    { apply (fdiv_between b32 _ _ _ _ (channels t)); [exact b32_ok|exact Hv|apply of_Z_exact|lia|lia|cbn; lia];
        [exact b32_ok|cbn; lia]. }
    unfold to_u32. apply to_int_between; [|lia|lia|lia].
    apply integral_between; [exact b32_ok|exact (proj1 Hd)|apply roundZ_within; [exact Hlo|exact Hd]|lia|cbn; lia|reflexivity].
Qed.

(** The level of a pixel. *)
Definition level (n : Z) : Z := match pixel_level t n with Ok i => i | Err _ => 0 end.

Lemma level_between n lo hi :
  0 <= n < width t * height t -> 0 <= lo -> hi < 256 ->
  (forall k, 0 <= k < channels t -> lo <= sample t (n * channels t + k) <= hi) ->
  pixel_level t n = Ok (level n) /\ lo <= level n <= hi.
Proof.
  intros Hn Hlo Hhi Hs. destruct (pixel_level_between n lo hi Hn Hlo Hhi Hs) as (i & E & Hi).
  unfold level. rewrite E. split; [reflexivity|exact Hi].
Qed.

Lemma sample_byte n k :
  0 <= n < width t * height t -> 0 <= k < channels t -> 0 <= sample t (n * channels t + k) <= 255.
Proof.
  intros Hn Hk. destruct (ld_sample t Ht (n * channels t + k)) as [_ [? ?]]; [nia|]. lia.
Qed.

(** How many of the first [m] pixels have level [v]. *)
Definition count (m v : Z) : Z := Z.of_nat (length (filter (fun n => level n = v) (range 0 m))).

Lemma count_step m v : 0 <= m -> count (m + 1) v = count m v + (if level m =? v then 1 else 0).
Proof.
  intros Hm. unfold count. rewrite (range_snoc 0 (m + 1)) by lia. replace (m + 1 - 1) with m by lia.
  rewrite list.filter_app, length_app.
  destruct (Z.eqb_spec (level m) v) as [E|E].
  - rewrite (filter_cons_True _ m []) by exact E. cbn [length filter list_filter]. lia.
  - rewrite (filter_cons_False _ m []) by exact E. cbn [length filter list_filter]. lia.
Qed.

Lemma count_le m v : 0 <= m -> 0 <= count m v <= m.
Proof.
  intros Hm. unfold count. pose proof (list.length_filter (fun n => level n = v) (range 0 m)) as H.
  rewrite length_range in H. lia.
Qed.

Lemma histogram_spec junk max min :
  bpc t = 8 -> histogram junk t max min = Ok (count (width t * height t) <$> range 0 256, t).
Proof.
  intros Hb. pose proof (image_sizes t Ht) as Hsz. assert (Hwh : 1 <= width t /\ 1 <= height t) by (destruct Ht; tauto).
  assert (Hnp : 0 <= width t * height t) by nia.
  unfold histogram. rewrite Hb. change (8 <? 8) with false. cbv iota. rewrite bind_ret. cbv zeta.
  rewrite Hb. change (Z.to_nat (Z.shiftl 1 8)) with 256%nat. rewrite u32_small by lia.
  destruct (foldM_range (fun m h => h = count m <$> range 0 256) (fun n h => i ← pixel_level t n; c ← rd h i; wr h i (u32 (c + 1)))
    0 (width t * height t) (replicate 256 0)) as (h & E & ->).
  - exact Hnp.
  - vm_compute. reflexivity.
  - intros n h Hn ->. destruct (level_between n 0 255 Hn) as [-> Hl]; [lia|lia|intros k Hk; apply sample_byte; assumption|].
    rewrite bind_ret. set (v := level n) in *.
    assert (Er : rd (count n <$> range 0 256) v = Ok (count n v)).
    { apply rd_ok. split; [lia|]. rewrite list_lookup_fmap.
      replace (Z.to_nat v) with (Z.to_nat (v - 0)) by (f_equal; lia). rewrite lookup_range_at by lia. reflexivity. }
    rewrite Er, bind_ret. pose proof (count_le n v ltac:(lia)). rewrite u32_small by lia.
    eexists. split; [apply wr_ok; split; [rewrite length_fmap, length_range; lia|reflexivity]|].
    apply list_eq_length; [rewrite length_insert, !length_fmap; reflexivity|].
    rewrite length_insert, length_fmap, length_range. intros i Hi.
    assert (Ei : range 0 256 !! i = Some (Z.of_nat i))
      by (unfold range; rewrite lookup_zseq by lia; f_equal; lia).
    rewrite (list_lookup_fmap (count (n + 1))), Ei. cbn [fmap option_fmap option_map]. rewrite count_step by lia. fold v.
    destruct (Z.eqb_spec v (Z.of_nat i)) as [Ev|Ev].
    + replace i with (Z.to_nat v) by lia. rewrite list_lookup_insert_eq by (rewrite length_fmap, length_range; lia).
      f_equal. f_equal. f_equal. lia.
    + rewrite list_lookup_insert_ne by lia. rewrite list_lookup_fmap, Ei. cbn [fmap option_fmap option_map]. f_equal. lia.
  - rewrite E, bind_ret. reflexivity.
Qed.
End Levels.

(** ** Properties *)

(** The histogram of an 8-bit tile has 256 bins, and each holds the number of
    pixels of that level; the level of a pixel is between its smallest and its
    largest sample (so it is the sample itself for one channel), no access is
    outside an array and the tile is unchanged. *)
Theorem histogram_counts (junk : Z -> Z) (t : RawTile) (max min : list float) :
  image_ok t -> bpc t = 8 -> channels t < 2 ^ 16 ->
  exists lvl : Z -> Z,
    histogram junk t max min
    = Ok ((fun v => Z.of_nat (length (filter (fun n => lvl n = v) (range 0 (width t * height t))))) <$> range 0 256, t)
    /\ forall n lo hi, 0 <= n < width t * height t -> 0 <= lo -> hi < 256 ->
         (forall k, 0 <= k < channels t -> lo <= sample t (n * channels t + k) <= hi) -> lo <= lvl n <= hi.
Proof.
  intros Ht Hb Hc. exists (level t). split; [apply (histogram_spec t Ht Hc); exact Hb|].
  intros n lo hi Hn Hlo Hhi Hs. apply (level_between t Ht Hc n lo hi Hn Hlo Hhi Hs).
Qed.

Lemma histogram_counts_witness :
  exists h, histogram (fun _ => 0) image_2x2 [] [] = Ok (h, image_2x2) /\ h !! 255%nat = Some 2.
Proof.
  destruct (histogram_counts (fun _ => 0) image_2x2 [] [] ltac:(apply image_okb_ok; reflexivity) eq_refl ltac:(zcompute))
    as (lvl & E & _).
  eexists. split; [exact E|].
  assert (E' : histogram (fun _ => 0) image_2x2 [] []
    = Ok ((fun v => if v =? 0 then 2 else if v =? 255 then 2 else 0) <$> range 0 256, image_2x2))
    by (vm_compute; reflexivity).
  rewrite E' in E. apply (f_equal (fun r => match r with Ok (h, _) => h !! 255%nat | Err _ => None end)) in E.
  cbv beta iota in E. rewrite <- E. vm_compute. reflexivity.
Defined.

(** Otsu's threshold is the last level of the darker class, but [binary]
    paints black only what is below the threshold: of an image that is half black
    and half white the threshold is 0, and the black and white version of it is
    white everywhere. *)
Theorem bitonal_all_white (junk : Z -> Z) (max min : list float) :
  tile_data image_2x2 = [0; 0; 255; 255]
  /\ ('(h, t) ← histogram junk image_2x2 max min; threshold h) = Ok 0
  /\ ('(h, t) ← histogram junk image_2x2 max min; th ← threshold h; t ← binary junk t th; Ok (tile_data t))
     = Ok [255; 255; 255; 255].
Proof. split; [reflexivity|]. split; vm_compute; reflexivity. Qed.

(** Equalisation subtracts the share of the first level, a number of at most
    one, from cumulated counts: the darkest level is not mapped to 0 nor the
    lightest to 255, and an image that already has black and white loses both. *)
Theorem equalize_loses_range (junk : Z -> Z) (max min : list float) :
  tile_data image_2x2 = [0; 0; 255; 255]
  /\ ('(h, t) ← histogram junk image_2x2 max min; t ← equalize t h; Ok (tile_data t))
     = Ok [96; 96; 223; 223].
Proof. split; [reflexivity|]. vm_compute. reflexivity. Qed.
