(* ===== verification/IIPResponse.v ===== *)
(** * Responses (src/src/IIPResponse.h, IIPResponse.cc)

    The record has the strings and flags of the class; a method that changes
    the object returns the new one.  [VERSION] comes from the build
    ([configure]) and is a parameter.  A [char tmp[n]] filled by [snprintf]
    holds at most [n - 1] characters. *)
From stdpp Require Import base strings list numbers pretty.
From Stdlib Require Import ZArith Lia Ascii.
From coqutil Require Import Datatypes.RecordSetters.
From S2P Require Import Prelude CString.
Import TriangleBracketNotations.
#[local] Open Scope string_scope.
#[local] Open Scope list_scope.
#[local] Open Scope Z_scope.

Definition CR : ascii := chr 13.
Definition LF : ascii := chr 10.
Definition crlf : string := String CR (String LF "").
Definition dq : string := String (chr 34) "".

Record IIPResponse := mkIIPResponse {
  server : string;
  powered : string;
  modified : string;
  cacheControl : string;
  mimeType : string;
  eof : string;
  protocol : string;
  responseBody : string;
  error : string;
  cors : string;
  status : string;
  _cachable : bool;
  _sent : bool
}.

Section Response.
Context (VERSION : string).

Definition new_IIPResponse : IIPResponse :=
  {| server := "Server: iipsrv/" +:+ VERSION; powered := "X-Powered-By: IIPImage"; modified := "";
     cacheControl := ""; mimeType := "Content-Type: application/vnd.netfpx"; eof := crlf; protocol := "";
     responseBody := ""; error := ""; cors := ""; status := ""; _cachable := true; _sent := false |}.

(** ** Setters and tests (IIPResponse.h) *)

Definition setProtocol (p : string) (r : IIPResponse) : IIPResponse := r <| protocol := p |>.
Definition setLastModified (m : string) (r : IIPResponse) : IIPResponse := r <| modified := "Last-Modified: " +:+ m |>.
Definition setCORS (c : string) (r : IIPResponse) : IIPResponse :=
  if empty c then r
  else r <| cors := "Access-Control-Allow-Origin: " +:+ c +:+ eof r
                    +:+ "Access-Control-Allow-Headers: X-Requested-With" |>.
Definition getCORS (r : IIPResponse) : string := cors r.
Definition setCacheControl (c : string) (r : IIPResponse) : IIPResponse := r <| cacheControl := "Cache-Control: " +:+ c |>.
Definition setCachability (b : bool) (r : IIPResponse) : IIPResponse := r <| _cachable := b |>.
Definition cachable (r : IIPResponse) : bool := _cachable r.
Definition getCacheControl (r : IIPResponse) : string := cacheControl r.
Definition setStatus (s : string) (r : IIPResponse) : IIPResponse := r <| status := "Status: " +:+ s |>.
Definition isSet (r : IIPResponse) : bool :=
  negb (empty (error r)) || negb (empty (responseBody r)) || negb (empty (protocol r)).
Definition errorIsSet (r : IIPResponse) : bool := negb (empty (error r)).
Definition setImageSent (r : IIPResponse) : IIPResponse := r <| _sent := true |>.
Definition imageSent (r : IIPResponse) : bool := _sent r.

(** ** The body (IIPResponse.cc) *)

(** [addResponse( const string& )]; of a [const char*] what precedes its NUL. *)
Definition addResponse (s : string) (r : IIPResponse) : IIPResponse :=
  r <| responseBody := responseBody r +:+ s +:+ eof r |>.

Definition addResponse_c (c : string) (r : IIPResponse) : IIPResponse := addResponse (c_str c) r.

(** [addResponse( const char* c, int a )] *)
Definition addResponse_int (c : string) (a : Z) (r : IIPResponse) : IIPResponse :=
  let tmp := snprintf 64 (c_str c +:+ ":" +:+ dec a) in
  r <| responseBody := responseBody r +:+ tmp +:+ eof r |>.

(** [addResponse( string arg, const string& s )] *)
Definition addResponse_string (arg s : string) (r : IIPResponse) : IIPResponse :=
  let tmp := snprintf 8 ("/" +:+ dec (i32 (slen s)) +:+ ":") in
  r <| responseBody := responseBody r +:+ arg +:+ tmp +:+ s +:+ eof r |>.

(** [addResponse( const char* c, int a, int b )] *)
Definition addResponse_ints (c : string) (a b : Z) (r : IIPResponse) : IIPResponse :=
  let tmp := snprintf 64 (c_str c +:+ ":" +:+ dec a +:+ " " +:+ dec b) in
  r <| responseBody := responseBody r +:+ tmp +:+ eof r |>.

Definition setError (code arg : string) (r : IIPResponse) : IIPResponse :=
  let tmp := snprintf 32 ("Error/" +:+ dec (slen code + slen arg + 1) +:+ ":" +:+ c_str code +:+ " " +:+ c_str arg) in
  r <| error := error r +:+ tmp +:+ eof r |>.

Definition formatResponse (r : IIPResponse) : string :=
  if negb (empty (error r)) then
    let response := server r +:+ eof r +:+ "Cache-Control: no-cache" +:+ eof r +:+ mimeType r +:+ eof r in
    let response := if negb (empty (cors r)) then response +:+ cors r +:+ eof r else response in
    response +:+ status r +:+ eof r
      +:+ "Content-Disposition: inline;filename=" +:+ dq +:+ "IIPisAMadGameClosedToOurUnderstanding.netfpx" +:+ dq
      +:+ eof r +:+ eof r +:+ error r
  else
    let response := server r +:+ eof r +:+ powered r +:+ eof r +:+ cacheControl r +:+ eof r
                    +:+ modified r +:+ eof r +:+ mimeType r +:+ eof r in
    let response := if negb (empty (cors r)) then response +:+ cors r +:+ eof r else response in
    response +:+ eof r +:+ protocol r +:+ eof r +:+ responseBody r.

(** The page of the banner, before and after the version. *)
Definition attr (name value : string) : string := name +:+ "=" +:+ dq +:+ value +:+ dq.

Definition getAdvert (r : IIPResponse) : string :=
  server r +:+ eof r +:+ "Content-Type: text/html" +:+ eof r
  +:+ "Content-Disposition: inline;" +:+ attr "filename" "iipsrv.html" +:+ eof r
  +:+ status r +:+ eof r +:+ eof r
  +:+ "<!DOCTYPE html><html " +:+ attr "lang" "en" +:+ "><head><meta " +:+ attr "charset" "utf-8"
  +:+ "/><title>IIPImage Server</title><meta " +:+ attr "name" "DC.creator" +:+ " "
  +:+ attr "content" "Ruven Pillay &lt;ruven@users.sourceforge.net&gt;" +:+ "/><meta "
  +:+ attr "name" "DC.title" +:+ " " +:+ attr "content" "IIPImage Server" +:+ "/><meta "
  +:+ attr "name" "DC.source" +:+ " " +:+ attr "content" "https://iipimage.sourceforge.io"
  +:+ "/></head><body " +:+ attr "style" "font-family:Helvetica,sans-serif; margin:4em"
  +:+ "><center><h1>IIPImage Server</h1><h2>Version " +:+ VERSION
  +:+ "</h2><br/><h3>Project Home Page: <a " +:+ attr "href" "https://iipimage.sourceforge.io"
  +:+ ">https://iipimage.sourceforge.io</a></h3><br/><h4>by<br/>Ruven Pillay</h4></center></body></html>".

Definition createHTTPHeader (mimeType0 timeStamp : string) (contentLength : Z) (r : IIPResponse) : string :=
  let _mimeType := if find "/" mimeType0 =? npos then "application/" +:+ mimeType0 else mimeType0 in
  "Server: iipsrv/" +:+ VERSION +:+ eof r
  +:+ "X-Powered-By: IIPImage" +:+ eof r
  +:+ "Content-Type: " +:+ _mimeType +:+ eof r
  +:+ "Last-Modified: " +:+ timeStamp +:+ eof r
  +:+ cacheControl r +:+ eof r
  +:+ (if 0 <? contentLength then "Content-Length: " +:+ dec contentLength +:+ eof r else "")
  +:+ (if negb (empty (cors r)) then cors r +:+ eof r else "")
  +:+ eof r.
End Response.

(** ** Specification: how a client reads a response *)

(** The text up to the first CRLF, and what follows. *)
Fixpoint cut_line (s : string) : option (string * string) :=
  match s with
  | "" => None
  | String c s' =>
      if String.prefix crlf s then Some ("", sdrop 2 s)
      else '(l, rest) ← cut_line s'; Some (String c l, rest)
  end.

(** The header lines up to the first empty one, and the body. *)
Fixpoint http_lines (fuel : nat) (s : string) : option (list string * string) :=
  match fuel with
  | O => None
  | S fuel =>
      '(l, rest) ← cut_line s;
      if empty l then Some ([], rest)
      else '(ls, body) ← http_lines fuel rest; Some (l :: ls, body)
  end.

Definition http_parse (s : string) : option (list string * string) := http_lines (S (String.length s)) s.

(** A text that is one header line. *)
Definition is_line (s : string) : bool := negb (empty s) && negb (smem CR s).

(** The lines of a header: what [+ eof] after each one gives. *)
Definition unlines (l : list string) : string := foldr (fun s acc => s +:+ crlf +:+ acc) "" l.

(** ** Lemmas *)

Lemma cut_line_app l rest : smem CR l = false -> cut_line (l +:+ crlf +:+ rest) = Some (l, rest).
Proof.
  induction l as [|c l IH]; intros H.
  - rewrite snil_app. change (cut_line (String CR (String LF rest)) = Some ("", rest)). cbn [cut_line].
    rewrite (proj2 (prefix_app crlf _)) by (exists rest; reflexivity). cbn [sdrop]. rewrite ?sdrop_0. reflexivity.
  - cbn [smem] in H. apply orb_false_elim in H as [Hc Hl]. rewrite scons_app. cbn [cut_line].
    destruct (String.prefix crlf (String c (l +:+ crlf +:+ rest))) eqn:P.
    + apply prefix_app in P as (t & P). injection P as -> _. rewrite Ascii.eqb_refl in Hc. discriminate.
    + rewrite IH by exact Hl. reflexivity.
Qed.

Lemma is_line_spec s : is_line s = true -> empty s = false /\ smem CR s = false.
Proof. unfold is_line. intros [H1%negb_true_iff H2%negb_true_iff]%andb_prop. auto. Qed.

Lemma is_line_app a b : is_line a = true -> smem CR b = false -> is_line (a +:+ b) = true.
Proof.
  intros [H1 H2]%is_line_spec Hb. unfold is_line. rewrite smem_app, H2, Hb.
  destruct a; [discriminate|]. reflexivity.
Qed.

Lemma slength_unlines ls body :
  Forall (fun l => is_line l = true) ls -> (length ls <= String.length (unlines ls +:+ body))%nat.
Proof.
  induction 1 as [|l ls Hl _ IH]; cbn [length unlines foldr]; [lia|].
  fold (unlines ls). rewrite !sapp_assoc, !slength_app in *. cbn [String.length crlf]. lia.
Qed.

Lemma http_lines_unlines ls body fuel :
  Forall (fun l => is_line l = true) ls -> (length ls < fuel)%nat ->
  http_lines fuel (unlines ls +:+ crlf +:+ body) = Some (ls, body).
Proof.
  intros H. revert fuel. induction H as [|l ls Hl _ IH]; intros [|fuel] Hf; cbn [length] in Hf; try lia.
  - cbn [unlines foldr http_lines]. rewrite snil_app.
    change (crlf +:+ body) with ("" +:+ crlf +:+ body). rewrite cut_line_app by reflexivity. reflexivity.
  - apply is_line_spec in Hl as [Hl1 Hl2].
    cbn [unlines foldr http_lines]. fold (unlines ls). rewrite !sapp_assoc, cut_line_app by exact Hl2.
    cbn [mbind option_bind]. rewrite Hl1, IH by lia. reflexivity.
Qed.

Lemma http_parse_unlines ls body :
  Forall (fun l => is_line l = true) ls -> http_parse (unlines ls +:+ crlf +:+ body) = Some (ls, body).
Proof.
  intros H. apply http_lines_unlines; [exact H|].
  pose proof (slength_unlines ls (crlf +:+ body) H). lia.
Qed.

Lemma unlines_app a b : unlines (a ++ b) = unlines a +:+ unlines b.
Proof.
  induction a as [|s a IH]; [reflexivity|]. cbn [app unlines foldr]. fold (unlines (a ++ b)) (unlines a).
  rewrite IH, !sapp_assoc. reflexivity.
Qed.

(** ** Responses as the server builds them *)

Inductive op :=
| OpProtocol (p : string)
| OpLastModified (m : string)
| OpCachability (b : bool)
| OpStatus (s : string)
| OpImageSent
| OpAdd (s : string)
| OpAddC (c : string)
| OpAddInt (c : string) (a : Z)
| OpAddString (arg s : string)
| OpAddInts (c : string) (a b : Z)
| OpError (code arg : string).

Definition apply_op (r : IIPResponse) (o : op) : IIPResponse :=
  match o with
  | OpProtocol p => setProtocol p r
  | OpLastModified m => setLastModified m r
  | OpCachability b => setCachability b r
  | OpStatus s => setStatus s r
  | OpImageSent => setImageSent r
  | OpAdd s => addResponse s r
  | OpAddC c => addResponse_c c r
  | OpAddInt c a => addResponse_int c a r
  | OpAddString arg s => addResponse_string arg s r
  | OpAddInts c a b => addResponse_ints c a b r
  | OpError code arg => setError code arg r
  end.

(** Dates and status texts are one line. *)
Definition op_ok (o : op) : Prop :=
  match o with OpLastModified m => smem CR m = false | OpStatus s => smem CR s = false | _ => True end.

(** The response of a request: configured once, then changed by the commands. *)
Definition respond (VERSION cors0 cache : string) (ops : list op) : IIPResponse :=
  foldl apply_op (setCacheControl cache (setCORS cors0 (new_IIPResponse VERSION))) ops.

Definition cors_lines (c : string) : list string :=
  if empty c then []
  else ["Access-Control-Allow-Origin: " +:+ c; "Access-Control-Allow-Headers: X-Requested-With"].

(** What the operations keep. *)
Record headers_ok (VERSION cors0 cache : string) (r : IIPResponse) : Prop := {
  h_server : server r = "Server: iipsrv/" +:+ VERSION;
  h_powered : powered r = "X-Powered-By: IIPImage";
  h_cache : cacheControl r = "Cache-Control: " +:+ cache;
  h_mime : mimeType r = "Content-Type: application/vnd.netfpx";
  h_eof : eof r = crlf;
  h_cors : (if negb (empty (cors r)) then cors r +:+ crlf else "") = unlines (cors_lines cors0);
  h_modified : smem CR (modified r) = false;
  h_status : smem CR (status r) = false
}.

Lemma respond_ok VERSION cors0 cache ops :
  Forall op_ok ops -> headers_ok VERSION cors0 cache (respond VERSION cors0 cache ops).
Proof.
  intros H. unfold respond.
  assert (H0 : headers_ok VERSION cors0 cache (setCacheControl cache (setCORS cors0 (new_IIPResponse VERSION)))).
  { unfold setCORS. destruct (empty cors0) eqn:E; constructor; try reflexivity; unfold cors_lines; rewrite E; [reflexivity|].
    set (x := "Access-Control-Allow-Origin: " +:+ cors0 +:+ crlf +:+ "Access-Control-Allow-Headers: X-Requested-With").
    change (x +:+ crlf = ("Access-Control-Allow-Origin: " +:+ cors0) +:+ crlf
              +:+ "Access-Control-Allow-Headers: X-Requested-With" +:+ crlf +:+ "").
    unfold x. rewrite sapp_nil_r, !sapp_assoc. reflexivity. }
  revert H H0. generalize (setCacheControl cache (setCORS cors0 (new_IIPResponse VERSION))).
  induction ops as [|o ops IH]; intros r H Hr; [exact Hr|].
  apply list.Forall_cons in H as [Ho Hops]. cbn [foldl]. apply IH; [exact Hops|].
  destruct Hr. destruct o; constructor; cbn [apply_op]; cbn; auto.
Qed.

Lemma cors_lines_ok c : smem CR c = false -> Forall (fun l => is_line l = true) (cors_lines c).
Proof.
  intros H. unfold cors_lines. destruct (empty c); [constructor|].
  forall_elements ltac:(first [reflexivity | apply is_line_app; [reflexivity|exact H]]).
Qed.

(** Reads a header made of the lines [ls] followed by the CORS lines. *)
Lemma parse_header ls c body :
  Forall (fun l => is_line l = true) ls -> smem CR c = false ->
  http_parse (unlines ls +:+ unlines (cors_lines c) +:+ crlf +:+ body) = Some (ls ++ cors_lines c, body).
Proof.
  intros H Hc. rewrite <- sapp_assoc, <- unlines_app. apply http_parse_unlines.
  apply list.Forall_app. split; [exact H|apply cors_lines_ok, Hc].
Qed.

Lemma empty_true s : empty s = true <-> s = "".
Proof. destruct s; split; (reflexivity || discriminate). Qed.

Lemma is_line_of s : empty s = false -> smem CR s = false -> is_line s = true.
Proof. intros H1 H2. unfold is_line. rewrite H1, H2. reflexivity. Qed.

(** Rewrites the response's strings, then shows it as [unlines]. *)
Ltac header_lines Hr :=
  rewrite ?(h_eof _ _ _ _ Hr), ?(h_server _ _ _ _ Hr), ?(h_powered _ _ _ _ Hr), ?(h_cache _ _ _ _ Hr), ?(h_mime _ _ _ _ Hr).

Ltac line_ok := first [assumption | reflexivity | apply is_line_app; [reflexivity|assumption]].

Lemma no_cr_dec n : smem CR (dec n) = false.
Proof.
  destruct (smem CR (dec n)) eqn:E; [|reflexivity].
  apply dec_chars in E as [E|E]; vm_compute in E; discriminate.
Qed.

(** A blank optional string in front of the CRLF, or the lines it makes. *)
Lemma cors_append VERSION c cache r x :
  headers_ok VERSION c cache r ->
  (if negb (empty (cors r)) then x +:+ cors r +:+ crlf else x) = x +:+ unlines (cors_lines c).
Proof.
  intros Hr. rewrite <- (h_cors _ _ _ _ Hr). destruct (negb _); [reflexivity|]. rewrite sapp_nil_r. reflexivity.
Qed.

Lemma format_ok VERSION c cache r :
  headers_ok VERSION c cache r -> error r = "" ->
  formatResponse r = unlines [server r; powered r; cacheControl r; modified r; mimeType r]
    +:+ unlines (cors_lines c) +:+ crlf +:+ protocol r +:+ crlf +:+ responseBody r.
Proof.
  intros Hr He. unfold formatResponse. rewrite He, (h_eof _ _ _ _ Hr). cbn [empty negb].
  rewrite (cors_append VERSION c cache r _ Hr). cbn [unlines foldr]. rewrite !sapp_assoc, ?snil_app. reflexivity.
Qed.

Lemma format_error VERSION c cache r :
  headers_ok VERSION c cache r -> error r <> "" ->
  formatResponse r = unlines [server r; "Cache-Control: no-cache"; mimeType r] +:+ unlines (cors_lines c)
    +:+ status r +:+ crlf
    +:+ ("Content-Disposition: inline;filename=" +:+ dq +:+ "IIPisAMadGameClosedToOurUnderstanding.netfpx" +:+ dq)
    +:+ crlf +:+ crlf +:+ error r.
Proof.
  intros Hr He. unfold formatResponse. rewrite (h_eof _ _ _ _ Hr).
  destruct (empty (error r)) eqn:E; [destruct (error r); [contradiction|discriminate]|]. cbn [negb].
  rewrite (cors_append VERSION c cache r _ Hr). cbn [unlines foldr]. rewrite !sapp_assoc, ?snil_app. reflexivity.
Qed.

(** ** Properties *)

(** An empty string printed as a header line ends the header.  Without a
    Last-Modified date the Content-Type line is part of the body; an error
    response without a status has its Content-Disposition in the body. *)
Theorem blank_line_cuts_header (VERSION cors0 cache : string) (ops : list op) :
  let r := respond VERSION cors0 cache ops in
  Forall op_ok ops -> smem CR VERSION = false -> smem CR cors0 = false -> smem CR cache = false ->
  (error r = "" -> modified r = "" ->
   http_parse (formatResponse r)
   = Some (["Server: iipsrv/" +:+ VERSION; "X-Powered-By: IIPImage"; "Cache-Control: " +:+ cache],
           mimeType r +:+ crlf +:+ unlines (cors_lines cors0) +:+ crlf +:+ protocol r +:+ crlf +:+ responseBody r))
  /\ (error r <> "" -> status r = "" ->
      http_parse (formatResponse r)
      = Some (["Server: iipsrv/" +:+ VERSION; "Cache-Control: no-cache"; "Content-Type: application/vnd.netfpx"]
              ++ cors_lines cors0,
              "Content-Disposition: inline;filename=" +:+ dq +:+ "IIPisAMadGameClosedToOurUnderstanding.netfpx" +:+ dq
              +:+ crlf +:+ crlf +:+ error r)).
Proof.
  intros r Ho Hv Hc Hk. pose proof (respond_ok VERSION cors0 cache ops Ho) as Hr. fold r in Hr. split; intros He Hm.
  - rewrite (format_ok _ _ _ r Hr He), Hm. cbn [unlines foldr].
    etransitivity; [|apply http_parse_unlines].
    + cbn [unlines foldr]. rewrite !sapp_assoc, ?snil_app. header_lines Hr. reflexivity.
    + header_lines Hr. forall_elements ltac:(line_ok).
  - rewrite (format_error _ _ _ r Hr He), Hm, snil_app, parse_header; [header_lines Hr; reflexivity| |exact Hc].
    header_lines Hr. forall_elements ltac:(line_ok).
Qed.

Lemma blank_line_cuts_header_witness :
  http_parse (formatResponse (respond "1.2" "" "no-store" [OpAdd "IIP-server:3.65"]))
  = Some (["Server: iipsrv/1.2"; "X-Powered-By: IIPImage"; "Cache-Control: no-store"],
          "Content-Type: application/vnd.netfpx" +:+ crlf +:+ crlf +:+ crlf +:+ "IIP-server:3.65" +:+ crlf).
Proof.
  refine (proj1 (blank_line_cuts_header "1.2" "" "no-store" [OpAdd "IIP-server:3.65"] _ _ _ _) _ _);
    [constructor; [exact I|constructor]|reflexivity..].
Defined.

(** What a client is to read of a response: the header lines up to the first
    empty one, and the rest. *)
Definition disposition : string :=
  "Content-Disposition: inline;filename=" +:+ dq +:+ "IIPisAMadGameClosedToOurUnderstanding.netfpx" +:+ dq.

Definition read_header (VERSION cors0 cache : string) (r : IIPResponse) : list string :=
  if empty (error r) then
    ["Server: iipsrv/" +:+ VERSION; "X-Powered-By: IIPImage"; "Cache-Control: " +:+ cache]
    ++ (if empty (modified r) then []
        else [modified r; "Content-Type: application/vnd.netfpx"] ++ cors_lines cors0)
  else ["Server: iipsrv/" +:+ VERSION; "Cache-Control: no-cache"; "Content-Type: application/vnd.netfpx"]
    ++ cors_lines cors0 ++ (if empty (status r) then [] else [status r; disposition]).

Definition read_body (cors0 : string) (r : IIPResponse) : string :=
  if empty (error r) then
    (if empty (modified r)
     then "Content-Type: application/vnd.netfpx" +:+ crlf +:+ unlines (cors_lines cors0) +:+ crlf else "")
    +:+ protocol r +:+ crlf +:+ responseBody r
  else (if empty (status r) then disposition +:+ crlf +:+ crlf else "") +:+ error r.

(** C23. Whatever sequence of commands built it, a response is read back by a
    client: one without an error and with a Last-Modified date as the server's
    header lines, the configured cache and CORS lines among them, and a body
    that is the protocol line and the accumulated answers; an error with a
    status as its header lines, the status and the disposition among them, and a
    body that is the error.  In the two other cases an empty string is printed
    as a line and ends the header early: without a date the content type and the
    CORS lines, and with an error that has no status the disposition, are read
    as the start of the body ([blank_line_cuts_header]). *)
Theorem responses_parse (VERSION cors0 cache : string) (ops : list op) :
  let r := respond VERSION cors0 cache ops in
  Forall op_ok ops -> smem CR VERSION = false -> smem CR cors0 = false -> smem CR cache = false ->
  http_parse (formatResponse r) = Some (read_header VERSION cors0 cache r, read_body cors0 r).
Proof.
  intros r Ho Hv Hc Hk. pose proof (respond_ok VERSION cors0 cache ops Ho) as Hr. fold r in Hr.
  destruct (blank_line_cuts_header VERSION cors0 cache ops Ho Hv Hc Hk) as [B1 B2]. fold r in B1, B2.
  unfold read_header, read_body. destruct (empty (error r)) eqn:Ee.
  - apply empty_true in Ee. destruct (empty (modified r)) eqn:Em.
    + rewrite (B1 Ee (proj1 (empty_true _) Em)). header_lines Hr. rewrite !sapp_assoc. reflexivity.
    + rewrite (format_ok _ _ _ r Hr Ee), parse_header; [header_lines Hr; reflexivity| |exact Hc].
      pose proof (is_line_of _ Em (h_modified _ _ _ _ Hr)). header_lines Hr. forall_elements ltac:(line_ok).
  - assert (Ne : error r <> "") by (intros E; rewrite E in Ee; discriminate).
    destruct (empty (status r)) eqn:Es.
    + rewrite (B2 Ne (proj1 (empty_true _) Es)). rewrite app_nil_r, !sapp_assoc. reflexivity.
    + pose proof (is_line_of _ Es (h_status _ _ _ _ Hr)) as Hs.
      rewrite (format_error _ _ _ r Hr Ne), snil_app.
      etransitivity; [|apply http_parse_unlines].
      * rewrite !unlines_app. cbn [unlines foldr]. rewrite !sapp_assoc, ?snil_app. header_lines Hr. reflexivity.
      * apply list.Forall_app. split; [header_lines Hr; forall_elements ltac:(line_ok)|].
        apply list.Forall_app. split; [apply cors_lines_ok, Hc|forall_elements ltac:(line_ok)].
Qed.

Lemma responses_parse_witness :
  let answer := [OpProtocol "IIP:1.0"; OpLastModified "Thu, 01 Jan 1970 00:00:00 GMT"; OpAddInts "Max-size" 512 384] in
  let refusal := [OpAddInts "Max-size" 512 384; OpStatus "404 Not Found"; OpError "1 3" "FIF"] in
  http_parse (formatResponse (respond "1.2" "*" "max-age=86400" answer))
  = Some (["Server: iipsrv/1.2"; "X-Powered-By: IIPImage"; "Cache-Control: max-age=86400";
           "Last-Modified: Thu, 01 Jan 1970 00:00:00 GMT"; "Content-Type: application/vnd.netfpx";
           "Access-Control-Allow-Origin: *"; "Access-Control-Allow-Headers: X-Requested-With"],
          "IIP:1.0" +:+ crlf +:+ "Max-size:512 384" +:+ crlf)
  /\ http_parse (formatResponse (respond "1.2" "" "max-age=86400" refusal))
  = Some (["Server: iipsrv/1.2"; "Cache-Control: no-cache"; "Content-Type: application/vnd.netfpx";
           "Status: 404 Not Found"; disposition], "Error/7:1 3 FIF" +:+ crlf)
  /\ http_parse (formatResponse (respond "1.2" "" "no-store" [OpAdd "IIP-server:3.65"]))
  = Some (["Server: iipsrv/1.2"; "X-Powered-By: IIPImage"; "Cache-Control: no-store"],
          "Content-Type: application/vnd.netfpx" +:+ crlf +:+ crlf +:+ crlf +:+ "IIP-server:3.65" +:+ crlf).
Proof.
  intros answer refusal. split; [|split].
  - apply (responses_parse "1.2" "*" "max-age=86400" answer); try reflexivity.
    forall_elements ltac:(first [exact I|reflexivity]).
  - apply (responses_parse "1.2" "" "max-age=86400" refusal); try reflexivity.
    forall_elements ltac:(first [exact I|reflexivity]).
  - apply (responses_parse "1.2" "" "no-store" [OpAdd "IIP-server:3.65"]); try reflexivity.
    forall_elements ltac:(exact I).
Defined.

(** The header an image is sent with, followed by any bytes, is read back
    as its lines and exactly those bytes. *)
Theorem createHTTPHeader_parses (VERSION cors0 cache mime date body : string) (n : Z) (ops : list op) :
  Forall op_ok ops -> smem CR VERSION = false -> smem CR cors0 = false -> smem CR cache = false ->
  smem CR mime = false -> smem CR date = false ->
  http_parse (createHTTPHeader VERSION mime date n (respond VERSION cors0 cache ops) +:+ body)
  = Some (["Server: iipsrv/" +:+ VERSION; "X-Powered-By: IIPImage";
           "Content-Type: " +:+ (if find "/" mime =? npos then "application/" +:+ mime else mime);
           "Last-Modified: " +:+ date; "Cache-Control: " +:+ cache]
          ++ (if 0 <? n then ["Content-Length: " +:+ dec n] else []) ++ cors_lines cors0, body).
Proof.
  intros Ho Hv Hc Hk Hm Hd. set (r := respond VERSION cors0 cache ops).
  pose proof (respond_ok VERSION cors0 cache ops Ho) as Hr. fold r in Hr.
  set (m := if find "/" mime =? npos then "application/" +:+ mime else mime).
  assert (Hm' : smem CR m = false) by (unfold m; destruct (_ =? _); [rewrite smem_app, Hm; reflexivity|exact Hm]).
  set (len := if 0 <? n then ["Content-Length: " +:+ dec n] else []).
  set (ls := ["Server: iipsrv/" +:+ VERSION; "X-Powered-By: IIPImage"; "Content-Type: " +:+ m;
              "Last-Modified: " +:+ date; "Cache-Control: " +:+ cache]).
  assert (E : createHTTPHeader VERSION mime date n r +:+ body
              = unlines (ls ++ len) +:+ unlines (cors_lines cors0) +:+ crlf +:+ body).
  { assert (E : (if 0 <? n then "Content-Length: " +:+ dec n +:+ crlf else "") = unlines len).
    { unfold len. destruct (0 <? n); [|reflexivity]. cbn [unlines foldr]. rewrite sapp_nil_r. reflexivity. }
    unfold createHTTPHeader. fold m. rewrite !(h_eof _ _ _ _ Hr), E, (h_cors _ _ _ _ Hr), unlines_app. header_lines Hr.
    cbn [unlines foldr ls]. rewrite !sapp_assoc, ?snil_app. reflexivity. }
  rewrite E, parse_header, <- app_assoc; [reflexivity| |exact Hc].
  apply list.Forall_app. split; [forall_elements ltac:(line_ok)|].
  unfold len. destruct (0 <? n); [|constructor]. constructor; [|constructor].
  apply is_line_app; [reflexivity|apply no_cr_dec].
Qed.

Lemma createHTTPHeader_parses_witness :
  http_parse (createHTTPHeader "1.2" "image/jpeg" "Thu, 01 Jan 1970 00:00:00 GMT" 3 (respond "1.2" "" "no-store" []) +:+ "abc")
  = Some (["Server: iipsrv/1.2"; "X-Powered-By: IIPImage"; "Content-Type: image/jpeg";
           "Last-Modified: Thu, 01 Jan 1970 00:00:00 GMT"; "Cache-Control: no-store"; "Content-Length: 3"], "abc").
Proof.
  apply (createHTTPHeader_parses "1.2" "" "no-store" "image/jpeg" "Thu, 01 Jan 1970 00:00:00 GMT" "abc" 3 []);
    [constructor|reflexivity..].
Defined.
