(* ===== verification/Compressors.v ===== *)
(** * Image encoders (src/src/Compressor.h, JPEGCompressor.h, JPEGCompressor.cc,
      PNGCompressor.h, PNGCompressor.cc)

    The encoding itself is done by libjpeg and libpng, parameters of the model
    ([JPEGLib], [PNGLib]): they produce bytes, and hand them to the functions of
    the source that keep the output buffer.  libjpeg fills the buffer a byte at
    a time through [next_output_byte] and [free_in_buffer] and calls
    [empty_output_buffer] when it is full; libpng calls [png_write_data] with
    one block at a time.

    The settings of an encoder are [CompressorState].  The constructors do not
    set the resolution, nor the filter type of PNG: [None]. *)
From stdpp Require Import base strings list numbers.
From Stdlib Require Import ZArith Lia Ascii.
From coqutil Require Import Datatypes.RecordSetters.
From S2P Require Import Prelude CString CFloat RawTile TileManager.
Import TriangleBracketNotations.
#[local] Open Scope string_scope.
#[local] Open Scope list_scope.
#[local] Open Scope Z_scope.

Definition to_bytes (s : string) : bytes := code <$> String.list_ascii_of_string s.

(** ** Settings (Compressor.h) *)

Record CompressorState := mkCompressorState {
  Q : Z;
  dpi : option (float * float * Z);   (** [dpi_x], [dpi_y], [dpi_units] *)
  icc : string;
  xmp : string;
  filterType : option Z               (** PNG only *)
}.

Definition setResolution (x y : float) (units : Z) (c : CompressorState) : CompressorState := c <| dpi := Some (x, y, units) |>.
Definition setICCProfile (profile : string) (c : CompressorState) : CompressorState := c <| icc := profile |>.
Definition setXMPMetadata (x : string) (c : CompressorState) : CompressorState := c <| xmp := x |>.

Definition resolution_of (c : CompressorState) : res (float * float * Z) :=
  match dpi c with Some d => Ok d | None => undef "uninitialised resolution" end.

Definition new_JPEGCompressor (quality : Z) : CompressorState := mkCompressorState quality None "" "" None.

Definition jpeg_setQuality (factor : Z) (c : CompressorState) : CompressorState :=
  c <| Q := if factor <? 0 then 0 else if 100 <? factor then 100 else factor |>.

Definition new_PNGCompressor (compressionLevel : Z) : CompressorState := mkCompressorState compressionLevel None "" "" None.

Definition PNG_FAST_FILTERS : Z := 0x38.

Definition png_setQuality (quality : Z) (c : CompressorState) : CompressorState :=
  c <| Q := if quality <? 0 then 0 else if 9 <? quality then 9 else quality |> <| filterType := Some PNG_FAST_FILTERS |>.

Definition MX : Z := 65536.
Definition ICC_OVERHEAD_LEN : Z := 14.
Definition MAX_BYTES_IN_MARKER : Z := 65533.
Definition MAX_DATA_BYTES_IN_MARKER : Z := MAX_BYTES_IN_MARKER - ICC_OVERHEAD_LEN.
Definition XMP_PREFIX_SIZE : Z := 29.
Definition JPEG_APP0 : Z := 0xE0.
Definition JPEG_COM : Z := 0xFE.

(** ** The destination manager of libjpeg (JPEGCompressor.cc) *)

Record Dest := mkDest {
  source : bytes;
  source_size : Z;
  written : Z;
  next_output_byte : Z;   (** index into [source] *)
  free_in_buffer : Z
}.

Section JPEG.
Context (junk : Z -> Z).

Definition iip_init_destination (d : Dest) : Dest :=
  d <| written := 0 |> <| next_output_byte := 0 |> <| free_in_buffer := source_size d |>.

Definition iip_empty_output_buffer (d : Dest) : res Dest :=
  let new_size := u32 (source_size d * 2) in
  s ← memcpy (new_bytes junk new_size) 0 (source d) 0 (source_size d);
  let w := u64 (written d + source_size d) in
  Ok (mkDest s new_size w (source_size d) (u64 (new_size - w))).

Definition iip_term_destination (d : Dest) : Dest := d <| written := u64 (source_size d - free_in_buffer d) |>.

(** libjpeg's [emit_byte]: [*next_output_byte++ = b; if( --free_in_buffer == 0 )
    empty_output_buffer()]. *)
Definition emit_byte (b : Z) (d : Dest) : res Dest :=
  s ← wr (source d) (next_output_byte d) b;
  let d := d <| source := s |> <| next_output_byte := next_output_byte d + 1 |>
             <| free_in_buffer := u64 (free_in_buffer d - 1) |> in
  if free_in_buffer d =? 0 then iip_empty_output_buffer d else Ok d.

Definition emit (bs : bytes) (d : Dest) : res Dest := foldM emit_byte bs d.

(** What libjpeg does: each call gives the bytes it emits. *)
Class JPEGLib := {
  jpeg_state : Type;
  (** [jpeg_create_compress] to [jpeg_start_compress]: width, height,
      components, density, unit, quality *)
  jpeg_start : Z -> Z -> Z -> Z -> Z -> Z -> Z -> res (bytes * jpeg_state);
  (** [jpeg_write_marker], or [jpeg_write_m_header] and [jpeg_write_m_byte] *)
  jpeg_marker : Z -> bytes -> res bytes;
  jpeg_write_scanline : bytes -> jpeg_state -> res (bytes * jpeg_state);
  jpeg_finish : jpeg_state -> res bytes
}.
Context {lib : JPEGLib}.

(** *** Metadata *)

(** The APP2 markers of [writeICCProfile], from marker [cur_marker] on. *)
Fixpoint icc_markers (fuel : nat) (icc_data : bytes) (cur_marker num_markers : Z) : res (list bytes) :=
  let icc_data_len := blen icc_data in
  if 0 <? icc_data_len then
    match fuel with
    | O => Err OutOfFuel
    | S fuel =>
        let length := if MAX_DATA_BYTES_IN_MARKER <? icc_data_len then MAX_DATA_BYTES_IN_MARKER else icc_data_len in
        rest ← icc_markers fuel (drop (Z.to_nat length) icc_data) (cur_marker + 1) num_markers;
        Ok (([0x49; 0x43; 0x43; 0x5F; 0x50; 0x52; 0x4F; 0x46; 0x49; 0x4C; 0x45; 0x0; u8 cur_marker; u8 num_markers]
             ++ take (Z.to_nat length) icc_data) :: rest)
    end
  else Ok [].

Definition writeICCProfile (c : CompressorState) : res (list bytes) :=
  if slen (icc c) =? 0 then Ok []
  else
    let len := u32 (slen (icc c)) in
    let n := len / MAX_DATA_BYTES_IN_MARKER in
    let num_markers := if u32 (n * MAX_DATA_BYTES_IN_MARKER) =? len then n else n + 1 in
    icc_markers (String.length (icc c)) (take (Z.to_nat len) (to_bytes (icc c))) 1 num_markers.

(** The buffer [xmpstr], which is not initialised, after the [snprintf]. *)
Definition xmp_buffer (c : CompressorState) : bytes :=
  let text := to_bytes (snprintf 65536 ("http://ns.adobe.com/xap/1.0/" +:+ String (chr 0) (c_str (xmp c)))) ++ [0] in
  text ++ drop (length text) (new_bytes junk 65536).

(** The data of the APP1 marker, if there is one. *)
Definition writeXMPMetadata (c : CompressorState) : option bytes :=
  if (slen (xmp c) =? 0) || (65536 - XMP_PREFIX_SIZE <? slen (xmp c)) then None
  else Some (take (Z.to_nat (XMP_PREFIX_SIZE + slen (xmp c))) (xmp_buffer c)).

Definition metadata_size (icc_overhead xmp_overhead : Z) (c : CompressorState) : Z :=
  u32 ((if 0 <? slen (icc c) then slen (icc c) + icc_overhead else 0)
       + (if 0 <? slen (xmp c) then slen (xmp c) + xmp_overhead else 0)).

(** The markers both ways of compressing write after the start of the image. *)
Definition write_markers (c : CompressorState) (d : Dest) : res Dest :=
  com ← jpeg_marker JPEG_COM (to_bytes "Generated by IIPImage");
  d ← emit com d;
  iccs ← writeICCProfile c;
  d ← foldM (fun m d => bs ← jpeg_marker (JPEG_APP0 + 2) m; emit bs d) iccs d;
  match writeXMPMetadata c with
  | None => Ok d
  | Some m => bs ← jpeg_marker (JPEG_APP0 + 1) m; emit bs d
  end.

(** *** Compression *)

(** The tests on channels and depth. *)
Definition check_jpeg (t : RawTile) : res unit :=
  if negb ((channels t =? 1) || (channels t =? 3)) then
    throw (ExnString "JPEGCompressor: JPEG can only handle images of either 1 or 3 channels")
  else if negb (bpc t =? 8) then throw (ExnString "JPEGCompressor: JPEG can only handle 8 bit images")
  else Ok tt.

(** From the setting of the image parameters to the metadata, with an output
    buffer of [output_size] bytes. *)
Definition start_image (c : CompressorState) (t : RawTile) (output_size : Z) : res (Dest * jpeg_state) :=
  '(dpi_x, dpi_y, dpi_units) ← resolution_of c;
  xd ← to_u16 (fround b32 dpi_x);
  yd ← to_u16 (fround b32 dpi_y);
  '(bs, st) ← jpeg_start (u32 (width t)) (u32 (height t)) (u32 (channels t)) xd yd (u8 dpi_units) (Q c);
  d ← emit bs (iip_init_destination (mkDest (new_bytes junk output_size) output_size 0 0 0));
  d ← write_markers c d;
  Ok (d, st).

(** Compresses the lines of [input], [stride] bytes each. *)
Definition write_lines (input : bytes) (stride lines : Z) (s : Dest * jpeg_state) : res (Dest * jpeg_state) :=
  foldM (fun n '(d, st) =>
      row ← memcpy (new_bytes junk stride) 0 input (n * stride) stride;
      '(bs, st) ← jpeg_write_scanline row st;
      d ← emit bs d;
      Ok (d, st))
    (range 0 lines) s.

Definition jpeg_Compress (c : CompressorState) (t : RawTile) : res (Z * RawTile) :=
  _ ← check_jpeg t;
  raw ← to_u32 (fmul b64 (of_Z b64 (u32 (width t * height t * channels t))) (atof "1.5"));
  let output_size := u32 (raw + metadata_size ICC_OVERHEAD_LEN XMP_PREFIX_SIZE c) in
  '(d, st) ← start_image c t output_size;
  src ← tile_bytes t;
  '(d, st) ← write_lines src (u32 (width t * channels t)) (height t) (d, st);
  bs ← jpeg_finish st;
  d ← emit bs d;
  let d := iip_term_destination d in
  let dataLength := written d in
  let data := if RawTile.dataLength t <? dataLength then new_bytes junk dataLength else src in
  data ← memcpy data 0 (source d) 0 dataLength;
  Ok (u32 dataLength,
      t <| RawTile.data := Some data |> <| RawTile.dataLength := u32 dataLength |>
        <| compressionType := JPEG |> <| quality := Q c |>).

(** What was written to a buffer other code holds a pointer to (the header, the
    output of a strip): enlarging it frees it. *)
Definition caller_buffer (size : Z) (d : Dest) : res bytes :=
  if source_size d =? size then Ok (take (Z.to_nat (size - free_in_buffer d)) (source d))
  else undef "the caller's buffer is freed".

(** The state between the calls of a strip-based compression. *)
Record JPEGStrip := mkJPEGStrip { js_width : Z; js_channels : Z; js_size : Z; js_lib : jpeg_state }.

Definition jpeg_InitCompression (c : CompressorState) (t : RawTile) (strip_height : Z) : res (bytes * JPEGStrip) :=
  _ ← check_jpeg t;
  let output_size := metadata_size ICC_OVERHEAD_LEN XMP_PREFIX_SIZE c + MX in
  '(d, st) ← start_image c t output_size;
  header ← caller_buffer output_size d;
  Ok (header, mkJPEGStrip (u32 (width t)) (u32 (channels t)) output_size st).

Definition jpeg_CompressStrip (input : bytes) (tile_height : Z) (s : JPEGStrip) : res (bytes * JPEGStrip) :=
  let size := u32 (tile_height * js_width s * js_channels s + MX) in
  '(d, st) ← write_lines input (js_width s * js_channels s) tile_height
               (mkDest (new_bytes junk size) size 0 0 size, js_lib s);
  out ← caller_buffer size d;
  Ok (out, s <| js_size := size |> <| js_lib := st |>).

Definition jpeg_Finish (s : JPEGStrip) : res bytes :=
  bs ← jpeg_finish (js_lib s);
  d ← emit bs (mkDest (new_bytes junk (js_size s)) (js_size s) 0 0 (js_size s));
  caller_buffer (js_size s) d.

Definition JPEGCompressor (c : CompressorState) : Compressor := {|
  getQuality := Q c; Compress := jpeg_Compress c; strip_state := JPEGStrip;
  InitCompression := jpeg_InitCompression c; CompressStrip := jpeg_CompressStrip; Finish := jpeg_Finish;
  getMimeType := "image/jpeg"; getSuffix := "jpg"; getCompressionType := JPEG
|}.
End JPEG.

(** ** PNG (PNGCompressor.cc) *)

Record PNGDest := mkPNGDest { output : bytes; output_size : Z; p_written : Z }.

Section PNG.
Context (junk : Z -> Z) (VERSION : string).

(** The buffer is enlarged at most once for a block. *)
Definition png_reserve (length : Z) (d : PNGDest) : res PNGDest :=
  if output_size d <? p_written d + length then
    let new_size := u32 (output_size d * 2) in
    o ← memcpy (new_bytes junk new_size) 0 (output d) 0 (output_size d);
    Ok (d <| output := o |> <| output_size := new_size |>)
  else Ok d.

Definition png_write_data (buffer : bytes) (d : PNGDest) : res PNGDest :=
  let length := blen buffer in
  d ← png_reserve length d;
  o ← memcpy (output d) (p_written d) buffer 0 length;
  Ok (d <| output := o |> <| p_written := p_written d + length |>).

Definition png_write_blocks (l : list bytes) (d : PNGDest) : res PNGDest := foldM png_write_data l d.

Inductive png_color := PNG_GRAY | PNG_GRAY_ALPHA | PNG_RGB | PNG_RGB_ALPHA.

(** What libpng is told before [png_write_info]. *)
Record PNGInfo := mkPNGInfo {
  i_width : Z; i_height : Z; i_bpc : Z; i_color : png_color; i_level : Z; i_filter : Z;
  i_res_x : Z; i_res_y : Z; i_metre : bool; i_software : bytes;
  i_icc : option bytes; i_xmp : option bytes
}.

(** What libpng does: each call gives the blocks it writes. *)
Class PNGLib := {
  png_state : Type;
  png_start : PNGInfo -> res (list bytes * png_state);      (** up to [png_write_info] *)
  png_set_swap : png_state -> png_state;
  png_write_row : bytes -> png_state -> res (list bytes * png_state);
  png_write_end : png_state -> res (list bytes)
}.
Context {lib : PNGLib}.

Definition ICC_OVERHEAD_SIZE : Z := 5.
Definition XMP_OVERHEAD_SIZE : Z := 18.

Definition check_png (t : RawTile) : res unit :=
  if negb ((channels t =? 1) || (channels t =? 2) || (channels t =? 3) || (channels t =? 4)) then
    throw (ExnString "PNGCompressor:: only 1-4 channels are supported")
  else Ok tt.

Definition color_of (channels : Z) : png_color :=
  if channels <? 3 then (if channels =? 2 then PNG_GRAY_ALPHA else PNG_GRAY)
  else if channels =? 4 then PNG_RGB_ALPHA else PNG_RGB.

(** The resolution in the unit of the pHYs chunk. *)
Definition png_resolution (x : float) (units : Z) : res Z :=
  to_u32 (if units =? 2 then fmul b32 x (of_Z b32 10)
          else if units =? 1 then fmul b64 x (atof "25.4") else x).

Definition png_writeICCProfile (c : CompressorState) : option bytes :=
  if slen (icc c) =? 0 then None else Some (to_bytes (icc c)).

Definition png_writeXMPMetadata (c : CompressorState) : option bytes :=
  if slen (xmp c) =? 0 then None else Some (to_bytes (xmp c)).

Definition png_info (c : CompressorState) (t : RawTile) : res PNGInfo :=
  filter ← match filterType c with Some f => Ok f | None => undef "uninitialised filter" end;
  '(dpi_x, dpi_y, dpi_units) ← resolution_of c;
  res_x ← png_resolution dpi_x dpi_units;
  res_y ← png_resolution dpi_y dpi_units;
  Ok (mkPNGInfo (u32 (width t)) (u32 (height t)) (bpc t) (color_of (u32 (channels t))) (Q c) filter
        res_x res_y (negb (dpi_units =? 0)) (to_bytes ("iipsrv/" +:+ VERSION))
        (png_writeICCProfile c) (png_writeXMPMetadata c)).

(** [png_set_swap] on a little endian machine. *)
Definition png_begin (c : CompressorState) (t : RawTile) (size : Z) : res (PNGDest * png_state) :=
  info ← png_info c t;
  '(blocks, st) ← png_start info;
  d ← png_write_blocks blocks (mkPNGDest (new_bytes junk size) size 0);
  Ok (d, if bpc t =? 16 then png_set_swap st else st).

Definition png_rows (input : bytes) (row_bytes lines : Z) (s : PNGDest * png_state) : res (PNGDest * png_state) :=
  foldM (fun i '(d, st) =>
      row ← memcpy (new_bytes junk row_bytes) 0 input (u32 (i * row_bytes)) row_bytes;
      '(blocks, st) ← png_write_row row st;
      d ← png_write_blocks blocks d;
      Ok (d, st))
    (range 0 lines) s.

Definition png_Compress (c : CompressorState) (t : RawTile) : res (Z * RawTile) :=
  _ ← check_png t;
  let bytes_per_pixel := u32 (bpc t / 8) in
  raw ← to_u64 (fmul b64 (fmul b64 (of_Z b64 (u32 (width t * height t * channels t))) (atof "1.5")) (of_Z b64 bytes_per_pixel));
  let size := u64 (raw + metadata_size ICC_OVERHEAD_SIZE XMP_OVERHEAD_SIZE c + MX) in
  s ← png_begin c t size;
  src ← tile_bytes t;
  '(d, st) ← png_rows src (u32 (u32 (width t) * u32 (channels t) * bytes_per_pixel)) (u32 (height t)) s;
  blocks ← png_write_end st;
  d ← png_write_blocks blocks d;
  let data := if RawTile.dataLength t <? p_written d then new_bytes junk (p_written d) else src in
  let dataLength := u32 (p_written d) in
  data ← memcpy data 0 (output d) 0 dataLength;
  Ok (dataLength,
      t <| RawTile.data := Some data |> <| RawTile.dataLength := dataLength |>
        <| compressionType := PNG |> <| quality := Q c |>).

Record PNGStrip := mkPNGStrip { ps_row : Z; ps_size : Z; ps_lib : png_state }.

(** What was written to a buffer other code holds a pointer to. *)
Definition held_buffer (size : Z) (d : PNGDest) : res bytes :=
  if output_size d =? size then Ok (take (Z.to_nat (p_written d)) (output d)) else undef "the caller's buffer is freed".

Definition png_InitCompression (c : CompressorState) (t : RawTile) (strip_height : Z) : res (bytes * PNGStrip) :=
  let size := metadata_size ICC_OVERHEAD_SIZE XMP_OVERHEAD_SIZE c + MX in
  _ ← check_png t;
  '(d, st) ← png_begin c t size;
  header ← held_buffer size d;
  Ok (header, mkPNGStrip (u32 (u32 (width t) * u32 (channels t) * u32 (bpc t / 8))) size st).

Definition png_CompressStrip (input : bytes) (strip_height : Z) (s : PNGStrip) : res (bytes * PNGStrip) :=
  let size := u32 (strip_height * ps_row s + MX) in
  '(d, st) ← png_rows input (ps_row s) strip_height (mkPNGDest (new_bytes junk size) size 0, ps_lib s);
  out ← held_buffer size d;
  Ok (out, s <| ps_size := size |> <| ps_lib := st |>).

(** The size of the buffer is still that of the last strip. *)
Definition png_Finish (s : PNGStrip) : res bytes :=
  blocks ← png_write_end (ps_lib s);
  d ← png_write_blocks blocks (mkPNGDest (new_bytes junk (ps_size s)) (ps_size s) 0);
  held_buffer (ps_size s) d.

Definition PNGCompressor (c : CompressorState) : Compressor := {|
  getQuality := Q c; Compress := png_Compress c; strip_state := PNGStrip;
  InitCompression := png_InitCompression c; CompressStrip := png_CompressStrip; Finish := png_Finish;
  getMimeType := "image/png"; getSuffix := "png"; getCompressionType := PNG
|}.
End PNG.

(** ** Lemmas *)

#[local] Ltac dest := cbn in *; unfold constant in *.

Lemma blen_to_bytes s : blen (to_bytes s) = slen s.
Proof. unfold to_bytes, blen, slen. rewrite length_fmap. f_equal. induction s as [|x s IH]; cbn; congruence. Qed.

Section Destination.
Context (junk : Z -> Z).

Lemma emit_app a b d : emit junk (a ++ b) d = (emit junk a d ≫= emit junk b).
Proof. apply foldM_app. Qed.

(** The destination after a byte, before the test. *)
Definition stored (b : Z) (d : Dest) : Dest :=
  d <| source := <[Z.to_nat (next_output_byte d) := b]> (source d) |>
    <| next_output_byte := next_output_byte d + 1 |> <| free_in_buffer := u64 (free_in_buffer d - 1) |>.

Lemma emit_byte_spec b d :
  0 <= next_output_byte d < blen (source d) ->
  emit_byte junk b d = if u64 (free_in_buffer d - 1) =? 0 then iip_empty_output_buffer junk (stored b d) else Ok (stored b d).
Proof.
  intros H. unfold emit_byte.
  rewrite (proj2 (wr_ok (source d) (<[Z.to_nat (next_output_byte d) := b]> (source d)) _ b)) by (split; [exact H|reflexivity]).
  reflexivity.
Qed.

Lemma emit_cons b bs d : emit junk (b :: bs) d = (emit_byte junk b d ≫= emit junk bs).
Proof. reflexivity. Qed.

(** Bytes that do not fill the buffer. *)
Lemma emit_within bs d :
  0 <= next_output_byte d -> blen bs < free_in_buffer d < 2 ^ 63 -> next_output_byte d + blen bs <= blen (source d) ->
  exists s, emit junk bs d = Ok (d <| source := s |> <| next_output_byte := next_output_byte d + blen bs |>
                                   <| free_in_buffer := free_in_buffer d - blen bs |>)
    /\ blen s = blen (source d)
    /\ take (Z.to_nat (next_output_byte d + blen bs)) s = take (Z.to_nat (next_output_byte d)) (source d) ++ bs
    /\ drop (Z.to_nat (next_output_byte d + blen bs)) s = drop (Z.to_nat (next_output_byte d + blen bs)) (source d).
Proof.
  revert d. induction bs as [|b bs IH]; intros d Hn Hf Hl.
  - exists (source d). change (blen []) with 0 in *. rewrite Z.add_0_r, Z.sub_0_r, app_nil_r. destruct d. auto.
  - assert (Lb : blen (b :: bs) = blen bs + 1) by (unfold blen; cbn [length]; lia).
    assert (0 <= blen bs) by (unfold blen; lia). rewrite Lb in *.
    rewrite emit_cons, emit_byte_spec by lia. set (d1 := stored b d).
    assert (E1 : free_in_buffer d1 = free_in_buffer d - 1) by (change (u64 (free_in_buffer d - 1) = free_in_buffer d - 1); apply u64_small; lia).
    change (u64 (free_in_buffer d - 1)) with (free_in_buffer d1). rewrite E1, (proj2 (Z.eqb_neq (free_in_buffer d - 1) 0)), bind_ret by lia.
    change (next_output_byte d1) with (next_output_byte d + 1) in *.
    destruct (IH d1) as (s & E & Hs & Ht & Hd).
    + change (next_output_byte d1) with (next_output_byte d + 1). lia.
    + rewrite E1. lia.
    + change (next_output_byte d1) with (next_output_byte d + 1).
      change (source d1) with (<[Z.to_nat (next_output_byte d) := b]> (source d)).
      unfold blen in *. rewrite length_insert. lia.
    + change (next_output_byte d1) with (next_output_byte d + 1) in *.
      change (source d1) with (<[Z.to_nat (next_output_byte d) := b]> (source d)) in *.
      replace (next_output_byte d + 1 + blen bs) with (next_output_byte d + (blen bs + 1)) in * by lia.
      exists s. split_and!.
      * rewrite E, E1. replace (free_in_buffer d - 1 - blen bs) with (free_in_buffer d - (blen bs + 1)) by lia. reflexivity.
      * unfold blen in *. rewrite Hs, length_insert. reflexivity.
      * rewrite Ht. replace (Z.to_nat (next_output_byte d + 1)) with (S (Z.to_nat (next_output_byte d))) by lia.
        assert (Hlt : (Z.to_nat (next_output_byte d) < length (source d))%nat) by (unfold blen in *; lia).
        rewrite (take_S_r _ _ b) by (apply list_lookup_insert_eq; exact Hlt).
        rewrite take_insert_ge by lia. rewrite <- app_assoc. reflexivity.
      * rewrite Hd. apply drop_insert_lt. lia.
Qed.

(** The byte that fills the buffer. *)
Lemma emit_full b d :
  0 <= next_output_byte d < blen (source d) -> free_in_buffer d = 1 -> blen (source d) = source_size d ->
  source_size d < 2 ^ 31 -> 0 <= written d -> written d + source_size d <= source_size d * 2 ->
  exists s, emit junk [b] d = Ok (mkDest s (source_size d * 2) (written d + source_size d) (source_size d) (source_size d - written d))
    /\ blen s = source_size d * 2
    /\ take (Z.to_nat (source_size d)) s = <[Z.to_nat (next_output_byte d) := b]> (source d)
    /\ drop (Z.to_nat (source_size d)) s = drop (Z.to_nat (source_size d)) (new_bytes junk (source_size d * 2)).
Proof.
  intros Hn Hf Hl Hs Hw Hle. rewrite emit_cons, emit_byte_spec by lia.
  rewrite Hf. change (u64 (1 - 1) =? 0) with true. cbv iota.
  set (src := <[Z.to_nat (next_output_byte d) := b]> (source d)).
  assert (Lsrc : blen src = source_size d) by (unfold src, blen in *; rewrite length_insert; exact Hl).
  unfold iip_empty_output_buffer.
  change (source_size (stored b d)) with (source_size d). change (source (stored b d)) with src.
  change (written (stored b d)) with (written d). rewrite !u32_small by lia. rewrite !u64_small by (rewrite ?u64_small; lia).
  destruct (memcpy_in_range (new_bytes junk (source_size d * 2)) 0 src 0 (source_size d)) as (s & E & Hlen & Hb);
    [lia|lia|rewrite blen_new_bytes; lia|lia|lia|].
  exists s. rewrite E, !bind_ret.
  assert (Ls : blen s = source_size d * 2).
  { unfold blen. rewrite Hlen, length_new_bytes. lia. }
  split_and!; [do 2 f_equal; lia|exact Ls| |].
  - apply list_eq_length; [unfold blen in *; rewrite length_take; lia|].
    intros i Hi. rewrite length_take in Hi.
    rewrite lookup_take_lt by lia. pose proof (Hb (Z.of_nat i) ltac:(unfold blen in *; lia)) as B.
    rewrite Nat2Z.id in B. rewrite B.
    rewrite (proj2 (Z.leb_le 0 _)), (proj2 (Z.ltb_lt _ _)) by lia. cbn [andb]. f_equal. lia.
  - apply list_eq_length; [rewrite !length_drop; unfold blen in *; rewrite length_new_bytes; lia|].
    intros i Hi. rewrite length_drop in Hi. rewrite !lookup_drop.
    pose proof (Hb (Z.of_nat (Z.to_nat (source_size d) + i)) ltac:(unfold blen in *; lia)) as B.
    rewrite Nat2Z.id in B. rewrite B. rewrite (proj2 (Z.ltb_ge _ _)) by lia. rewrite andb_false_r. reflexivity.
Qed.

(** Bytes that fill the buffer exactly. *)
Lemma emit_fill bs d :
  0 <= next_output_byte d -> 0 < free_in_buffer d -> blen bs = free_in_buffer d ->
  next_output_byte d + free_in_buffer d = source_size d -> blen (source d) = source_size d ->
  source_size d < 2 ^ 31 -> 0 <= written d -> written d + source_size d <= source_size d * 2 ->
  exists s, emit junk bs d = Ok (mkDest s (source_size d * 2) (written d + source_size d) (source_size d) (source_size d - written d))
    /\ blen s = source_size d * 2
    /\ take (Z.to_nat (source_size d)) s = take (Z.to_nat (next_output_byte d)) (source d) ++ bs
    /\ drop (Z.to_nat (source_size d)) s = drop (Z.to_nat (source_size d)) (new_bytes junk (source_size d * 2)).
Proof.
  intros Hn Hf Hbs Hsz Hl Hs Hw Hle.
  destruct (exists_last (l := bs)) as (bs' & b & ->); [intros ->; change (blen []) with 0 in Hbs; lia|].
  assert (L : blen (bs' ++ [b]) = blen bs' + 1) by (unfold blen; rewrite length_app; cbn [length]; lia).
  assert (0 <= blen bs') by (unfold blen; lia).
  rewrite emit_app. destruct (emit_within bs' d) as (s1 & E1 & L1 & T1 & _); [lia|lia|lia|].
  rewrite E1, bind_ret.
  set (d1 := d <| source := s1 |> <| next_output_byte := next_output_byte d + blen bs' |>
               <| free_in_buffer := free_in_buffer d - blen bs' |>).
  destruct (emit_full b d1) as (s & E & Ls & T & D);
    [change (0 <= next_output_byte d + blen bs' < blen s1); lia|change (free_in_buffer d - blen bs' = 1); lia
    |change (blen s1 = source_size d); lia|exact Hs|exact Hw|exact Hle|].
  change (source_size d1) with (source_size d) in *. change (written d1) with (written d) in *.
  exists s. split_and!; [exact E|exact Ls| |exact D].
  rewrite T. change (source d1) with s1. change (next_output_byte d1) with (next_output_byte d + blen bs').
  rewrite app_assoc, <- T1. assert (Hlt : (Z.to_nat (next_output_byte d + blen bs') < length s1)%nat) by (unfold blen in *; lia).
  apply list_eq_length; [rewrite length_insert, length_app, length_take; cbn [length]; unfold blen in *; lia|].
  intros i Hi. rewrite length_insert in Hi. destruct (decide (i = Z.to_nat (next_output_byte d + blen bs'))) as [->|Hne].
  - rewrite list_lookup_insert_eq by exact Hlt. rewrite lookup_app_r; rewrite length_take; [|lia].
    replace (_ - _)%nat with 0%nat by lia. reflexivity.
  - rewrite list_lookup_insert_ne by congruence. unfold blen in *. rewrite lookup_app_l by (rewrite length_take; lia).
    symmetry. apply lookup_take_lt. lia.
Qed.

(** The buffer at the start of an image. *)
Definition fresh_dest (size : Z) : Dest := mkDest (new_bytes junk size) size 0 0 size.

Lemma fresh_init size w n f : iip_init_destination (mkDest (new_bytes junk size) size w n f) = fresh_dest size.
Proof. reflexivity. Qed.

(** The stream is split where the buffer is full. *)
Lemma split_stream (bs : bytes) n : 0 <= n <= blen bs -> exists a b, bs = a ++ b /\ blen a = n /\ blen b = blen bs - n.
Proof.
  intros H. exists (take (Z.to_nat n) bs), (drop (Z.to_nat n) bs). rewrite take_drop. unfold blen in *.
  rewrite length_take, length_drop. split; [reflexivity|lia].
Qed.

Lemma emit_once bs size :
  0 < size < 2 ^ 29 -> size <= blen bs < 2 * size ->
  exists s, emit junk bs (fresh_dest size) = Ok (mkDest s (size * 2) size (blen bs) (2 * size - blen bs))
    /\ blen s = size * 2 /\ take (Z.to_nat (blen bs)) s = bs.
Proof.
  intros Hs Hb. destruct (split_stream bs size) as (a & b & -> & La & Lb); [lia|].
  assert (L0 : blen (new_bytes junk size) = size) by (apply blen_new_bytes; lia).
  rewrite emit_app.
  destruct (emit_fill a (fresh_dest size)) as (s & E & Ls & T & _); unfold fresh_dest in *; dest; try lia.
  rewrite E, bind_ret, Z.add_0_l, Z.sub_0_r. clear E.
  destruct (emit_within b (mkDest s (size * 2) size size size)) as (s' & E' & Ls' & T' & _); dest; try lia.
  rewrite E'. exists s'. assert (Hsum : size + blen b = blen (a ++ b)) by lia. rewrite Hsum in *.
  split_and!; [|lia|].
  - do 2 f_equal; cbn; lia.
  - rewrite T', T. rewrite take_0. reflexivity.
Qed.
End Destination.

(** ** Properties *)

(** libjpeg's output survives the buffer of the server when it needs at most
    one enlargement: a stream shorter than twice the buffer is returned byte
    for byte, with its length. *)
Theorem jpeg_stream_exact (junk : Z -> Z) (size : Z) (bs : bytes) :
  0 < size < 2 ^ 29 -> blen bs < 2 * size ->
  exists d, emit junk bs (iip_init_destination (mkDest (new_bytes junk size) size 0 0 0)) = Ok d
    /\ written (iip_term_destination d) = blen bs /\ take (Z.to_nat (blen bs)) (source d) = bs.
Proof.
  intros Hs Hb. rewrite fresh_init. assert (0 <= blen bs) by (unfold blen; lia).
  destruct (Z.lt_ge_cases (blen bs) size) as [Hlt|Hge].
  - assert (L0 : blen (new_bytes junk size) = size) by (apply blen_new_bytes; lia).
    destruct (emit_within junk bs (fresh_dest junk size)) as (s & E & _ & T & _); unfold fresh_dest in *; dest; try lia.
    eexists. split; [exact E|]. split; [|exact T].
    dest. rewrite u64_small; lia.
  - destruct (emit_once junk bs size Hs ltac:(lia)) as (s & E & Ls & T).
    eexists. split; [exact E|]. split; [|exact T]. dest. rewrite u64_small; lia.
Qed.

Definition three_bytes : bytes := [1; 2; 3].

Lemma jpeg_stream_exact_witness :
  exists d, emit (fun _ => 9) three_bytes (iip_init_destination (mkDest [9; 9] 2 0 0 0)) = Ok d
    /\ written (iip_term_destination d) = 3 /\ take 3 (source d) = three_bytes.
Proof. apply (jpeg_stream_exact (fun _ => 9) 2 three_bytes); vm_compute; intuition congruence. Defined.

(** From the second enlargement on, [written] counts the first buffer twice:
    a stream of two to three times the buffer is returned with as many
    uninitialised bytes at its end as the buffer had. *)
Theorem jpeg_stream_garbage (junk : Z -> Z) (size : Z) (bs : bytes) :
  0 < size < 2 ^ 29 -> 2 * size <= blen bs < 3 * size ->
  exists d, emit junk bs (iip_init_destination (mkDest (new_bytes junk size) size 0 0 0)) = Ok d
    /\ written (iip_term_destination d) = blen bs + size
    /\ take (Z.to_nat (written (iip_term_destination d))) (source d)
       = bs ++ take (Z.to_nat size) (drop (Z.to_nat (blen bs)) (new_bytes junk (4 * size))).
Proof.
  intros Hs Hb. rewrite fresh_init. destruct (split_stream bs (2 * size)) as (a & b & -> & La & Lb); [lia|].
  destruct (split_stream a (2 * size - 1)) as (a1 & c & -> & La1 & Lc); [lia|].
  rewrite emit_app, emit_app.
  destruct (emit_once junk a1 size Hs ltac:(lia)) as (s & E & Ls & T). rewrite E, bind_ret. clear E.
  destruct (emit_fill junk c (mkDest s (size * 2) size (blen a1) (2 * size - blen a1))) as (s2 & E2 & L2 & T2 & D2);
    dest; try lia.
  rewrite E2, bind_ret. clear E2.
  destruct (emit_within junk b (mkDest s2 (size * 2 * 2) (size + size * 2) (size * 2) (size * 2 - size))) as (s3 & E3 & L3 & T3 & D3);
    dest; try lia.
  rewrite E3. eexists. split; [reflexivity|]. dest.
  assert (Hsum : size * 2 + blen b = blen ((a1 ++ c) ++ b)) by lia. rewrite Hsum in *.
  rewrite u64_small by lia.
  replace (size * 2 * 2 - (size * 2 - size - blen b)) with (blen ((a1 ++ c) ++ b) + size) by lia.
  split; [reflexivity|].
  rewrite <- (take_drop (Z.to_nat (blen ((a1 ++ c) ++ b))) s3) at 1.
  rewrite T3, T2, T, take_app. f_equal.
  - rewrite take_ge; [reflexivity|]. unfold blen in *. lia.
  - rewrite D3. replace (size * 2 * 2) with (4 * size) in D2 by lia.
    assert (E : drop (Z.to_nat (blen ((a1 ++ c) ++ b))) s2 = drop (Z.to_nat (blen ((a1 ++ c) ++ b))) (new_bytes junk (4 * size))).
    { replace (Z.to_nat (blen ((a1 ++ c) ++ b))) with (Z.to_nat (size * 2) + Z.to_nat (blen b))%nat by (unfold blen in *; lia).
      rewrite <- !drop_drop, D2. reflexivity. }
    rewrite E. f_equal. unfold blen in *. lia.
Qed.

Lemma jpeg_stream_garbage_witness :
  exists d, emit (fun _ => 9) [1; 2; 3; 4; 5] (iip_init_destination (mkDest [9; 9] 2 0 0 0)) = Ok d
    /\ written (iip_term_destination d) = 7 /\ take 7 (source d) = [1; 2; 3; 4; 5; 9; 9].
Proof.
  destruct (jpeg_stream_garbage (fun _ => 9) 2 [1; 2; 3; 4; 5]) as (d & E & W & T); [lia|vm_compute; intuition congruence|].
  exists d. rewrite W in T. split; [exact E|]. split; [exact W|exact T].
Defined.

(** *** PNG and ICC *)

Section Blocks.
Context (junk : Z -> Z) (size total : Z).
Context (Hsize : 0 < size < 2 ^ 31) (Htotal : total < 2 ^ 31).

(** The buffer holds what was written so far and has not wrapped. *)
Record png_holds (acc : bytes) (d : PNGDest) : Prop := {
  pg_len : blen (output d) = output_size d;
  pg_written : p_written d = blen acc;
  pg_fits : blen acc <= output_size d;
  pg_size : size <= output_size d <= Z.max size (2 * total);
  pg_data : take (Z.to_nat (blen acc)) (output d) = acc
}.

Lemma png_reserve_holds acc d n :
  png_holds acc d -> 0 <= n <= size -> blen acc + n <= total ->
  exists d', png_reserve junk n d = Ok d' /\ png_holds acc d' /\ blen acc + n <= output_size d'.
Proof.
  intros [P1 P2 P3 P4 P5] Hb Ht. unfold png_reserve. assert (0 <= blen acc) by (unfold blen; lia).
  destruct (Z.ltb_spec (output_size d) (p_written d + n)); [|exists d; split; [reflexivity|]; split; [constructor; auto|lia]].
    cbv zeta. rewrite u32_small by lia.
    destruct (memcpy_in_range (new_bytes junk (output_size d * 2)) 0 (output d) 0 (output_size d)) as (o & E & L & Ho);
      [lia|lia|rewrite blen_new_bytes; lia|lia|lia|].
    rewrite E, bind_ret. eexists. split; [reflexivity|].
    assert (Lo : blen o = output_size d * 2) by (unfold blen; rewrite L, length_new_bytes; lia).
    split; [|change (blen acc + n <= output_size d * 2); lia].
    constructor; [exact Lo|exact P2|change (blen acc <= output_size d * 2); lia|change (size <= output_size d * 2 <= Z.max size (2 * total)); lia|].
    change (take (Z.to_nat (blen acc)) o = acc). transitivity (take (Z.to_nat (blen acc)) (output d)); [|exact P5].
    apply list_eq_length; [rewrite !length_take; unfold blen in *; lia|].
    intros i Hi. rewrite length_take in Hi. rewrite !lookup_take_lt by lia.
    pose proof (Ho (Z.of_nat i) ltac:(lia)) as B. rewrite Nat2Z.id in B. rewrite B.
    rewrite (proj2 (Z.leb_le 0 _)), (proj2 (Z.ltb_lt _ _)) by lia. cbn [andb]. f_equal. lia.
Qed.

Lemma png_write_data_holds acc d b :
  png_holds acc d -> blen b <= size -> blen acc + blen b <= total ->
  exists d', png_write_data junk b d = Ok d' /\ png_holds (acc ++ b) d'.
Proof.
  intros Hd Hb Ht. unfold png_write_data.
  assert (0 <= blen b /\ 0 <= blen acc) as [Hb0 Ha0] by (unfold blen; lia).
  assert (Lab : blen (acc ++ b) = blen acc + blen b) by (unfold blen; rewrite length_app; lia).
  destruct (png_reserve_holds acc d (blen b) Hd) as (d1 & E1 & [Q1 Q2 Q3 Q4 Q5] & Hfit); [lia|lia|].
  rewrite E1, bind_ret. clear E1.
  destruct (memcpy_in_range (output d1) (p_written d1) b 0 (blen b)) as (o & E & L & Ho); [lia|lia|lia|lia|lia|].
  rewrite E, bind_ret. eexists. split; [reflexivity|].
  constructor; [change (blen o = output_size d1); unfold blen in *; lia|change (p_written d1 + blen b = blen (acc ++ b)); lia
    |change (blen (acc ++ b) <= output_size d1); lia|exact Q4|].
  change (take (Z.to_nat (blen (acc ++ b))) o = acc ++ b).
  apply list_eq_length; [rewrite length_take, length_app; unfold blen in *; lia|].
  intros i Hi. rewrite length_take in Hi. rewrite lookup_take_lt by lia.
  pose proof (Ho (Z.of_nat i) ltac:(lia)) as B. rewrite Nat2Z.id in B. rewrite B, Q2.
  destruct (Z.leb_spec (blen acc) (Z.of_nat i)).
  - rewrite (proj2 (Z.ltb_lt _ _)) by lia. cbn [andb].
    rewrite lookup_app_r by (unfold blen in *; lia). f_equal. unfold blen in *. lia.
  - cbn [andb]. rewrite lookup_app_l by (unfold blen in *; lia). transitivity (take (Z.to_nat (blen acc)) (output d1) !! i); [|rewrite Q5; reflexivity].
    symmetry. apply lookup_take_lt. lia.
Qed.
End Blocks.

(** The blocks libpng writes are returned one after the other, byte for byte,
    however often the buffer is enlarged, as long as no block is larger than
    the first buffer (64K and the metadata: libpng writes image data in 8K blocks). *)
Theorem png_stream_exact (junk : Z -> Z) (size : Z) (blocks : list bytes) :
  0 < size < 2 ^ 31 -> blen (mjoin blocks) < 2 ^ 31 -> Forall (fun b => blen b <= size) blocks ->
  exists d, png_write_blocks junk blocks (mkPNGDest (new_bytes junk size) size 0) = Ok d
    /\ p_written d = blen (mjoin blocks) /\ take (Z.to_nat (p_written d)) (output d) = mjoin blocks.
Proof.
  intros Hs Ht Hb. set (total := blen (mjoin blocks)) in *.
  enough (H : exists d, png_write_blocks junk blocks (mkPNGDest (new_bytes junk size) size 0) = Ok d
                        /\ png_holds size total ([] ++ mjoin blocks) d).
  { destruct H as (d & E & [_ P2 _ _ P5]). exists d. rewrite P2. split_and!; [exact E|reflexivity|exact P5]. }
  assert (Hacc : blen [] + blen (mjoin blocks) <= total) by (unfold total; change (blen []) with 0; lia).
  assert (H0 : png_holds size total [] (mkPNGDest (new_bytes junk size) size 0)).
  { constructor; cbn; [apply blen_new_bytes; lia|reflexivity|change (blen []) with 0; lia|lia|]. rewrite take_0. reflexivity. }
  clearbody total. revert Hacc H0. generalize (@nil Z) (mkPNGDest (new_bytes junk size) size 0).
  induction Hb as [|b blocks Hb1 _ IH]; intros acc d Hacc Hd.
  - exists d. cbn. rewrite app_nil_r. split; [reflexivity|exact Hd].
  - assert (L : blen (mjoin (b :: blocks)) = blen b + blen (mjoin blocks)).
    { unfold blen. change (mjoin (b :: blocks)) with (b ++ mjoin blocks). rewrite length_app. lia. }
    assert (0 <= blen (mjoin blocks)) by (unfold blen; lia).
    destruct (png_write_data_holds junk size total Hs Ht acc d b Hd Hb1 ltac:(lia)) as (d' & E & Hd').
    destruct (IH (acc ++ b) d') as (d'' & E' & Hd''); [unfold blen in *; rewrite length_app; lia|exact Hd'|].
    exists d''. unfold png_write_blocks. cbn [foldM]. rewrite E, bind_ret. split; [exact E'|].
    change (mjoin (b :: blocks)) with (b ++ mjoin blocks). rewrite app_assoc. exact Hd''.
Qed.

Lemma png_stream_exact_witness :
  exists d, png_write_blocks (fun _ => 9) [[1; 2]; [3; 4; 5]; [6]] (mkPNGDest [9; 9; 9] 3 0) = Ok d
    /\ p_written d = 6 /\ take 6 (output d) = [1; 2; 3; 4; 5; 6].
Proof.
  destruct (png_stream_exact (fun _ => 9) 3 [[1; 2]; [3; 4; 5]; [6]]) as (d & E & W & T);
    [lia|vm_compute; reflexivity|forall_elements ltac:(vm_compute; congruence)|].
  exists d. rewrite W in T. split; [exact E|]. split; [exact W|exact T].
Defined.

(** The text at the start of an ICC marker, and its two numbers. *)
Definition icc_signature : bytes := [0x49; 0x43; 0x43; 0x5F; 0x50; 0x52; 0x4F; 0x46; 0x49; 0x4C; 0x45; 0x0].

(** A marker as a decoder reads it: number, count, data. *)
Definition read_marker (m : bytes) : option (Z * Z * bytes) :=
  if bool_decide (take 12 m = icc_signature) then
    match drop 12 m with i :: n :: d => Some (i, n, d) | _ => None end
  else None.

Lemma icc_markers_spec fuel d k n :
  (length d <= fuel)%nat -> 1 <= k -> k - 1 + (blen d + MAX_DATA_BYTES_IN_MARKER - 1) / MAX_DATA_BYTES_IN_MARKER <= 255 -> 0 <= n <= 255 ->
  exists ms ds, icc_markers fuel d k n = Ok ms /\ mjoin ds = d
    /\ Z.of_nat (length ds) = (blen d + MAX_DATA_BYTES_IN_MARKER - 1) / MAX_DATA_BYTES_IN_MARKER
    /\ read_marker <$> ms = imap (fun i x => Some (k + Z.of_nat i, n, x)) ds
    /\ Forall (fun m => blen m <= MAX_BYTES_IN_MARKER) ms.
Proof.
  set (M := MAX_DATA_BYTES_IN_MARKER). assert (HM : M = 65519) by reflexivity.
  revert d k. induction fuel as [|fuel IH]; intros d k Hf Hk Hc Hn; cbn [icc_markers]; fold M.
  - assert (d = []) as -> by (destruct d; [reflexivity|cbn in Hf; lia]).
    exists [], []. refine (conj eq_refl (conj eq_refl (conj eq_refl (conj eq_refl _)))). constructor.
  - destruct (Z.ltb_spec 0 (blen d)) as [H|H].
    2: { assert (d = []) as -> by (destruct d; [reflexivity|unfold blen in H; cbn in H; lia]).
         exists [], []. refine (conj eq_refl (conj eq_refl (conj eq_refl (conj eq_refl _)))). constructor. }
    set (L := if M <? blen d then M else blen d).
    assert (HL : 0 < L <= blen d /\ L <= M /\ (L < M -> L = blen d)) by (unfold L; destruct (Z.ltb_spec M (blen d)); lia).
    assert (Ld : blen (drop (Z.to_nat L) d) = blen d - L) by (unfold blen in *; rewrite length_drop; lia).
    assert (Lt : blen (take (Z.to_nat L) d) = L) by (unfold blen in *; rewrite length_take; lia).
    assert (Hdiv : (blen d + M - 1) / M = 1 + (blen d - L + M - 1) / M).
    { destruct (Z.eq_dec L M) as [->|].
      - replace (blen d + M - 1) with (blen d - M + M - 1 + 1 * M) by lia. rewrite Z.div_add by lia. lia.
      - replace (blen d - L) with 0 by lia. rewrite (Z.div_small (0 + M - 1) M) by lia.
        symmetry. apply (Z.div_unique_pos _ _ _ (blen d - 1)); lia. }
    destruct (IH (drop (Z.to_nat L) d) (k + 1)) as (ms & ds & E & Hj & Hl & Hr & HF);
      [rewrite length_drop; unfold blen in *; lia|lia|rewrite Ld; lia|exact Hn|].
    rewrite E, bind_ret. eexists; exists (take (Z.to_nat L) d :: ds). split_and!; [reflexivity| | | |].
    + change (take (Z.to_nat L) d ++ mjoin ds = d). rewrite Hj, take_drop. reflexivity.
    + cbn [length]. rewrite Ld in Hl. rewrite Hdiv, <- Hl. lia.
    + cbn [fmap list_fmap imap]. f_equal.
      * unfold read_marker. rewrite bool_decide_eq_true_2 by reflexivity. cbn [drop app].
        rewrite !u8_small by (pose proof (Z.div_pos (blen d - L + M - 1) M ltac:(lia) ltac:(lia)); lia). do 3 f_equal. lia.
      * rewrite Hr. apply imap_ext. intros i x _. cbn. do 3 f_equal. lia.
    + constructor; [|exact HF]. unfold blen in *. rewrite length_app. cbn [length]. unfold MAX_BYTES_IN_MARKER. lia.
Qed.

(** C24. The ICC profile of a JPEG is cut into markers that fit the format,
    numbered from 1, each with the right count, and a decoder that puts the
    data together gets the profile back. *)
Theorem icc_profile_roundtrip (c : CompressorState) :
  0 < slen (icc c) <= 255 * MAX_DATA_BYTES_IN_MARKER ->
  exists ms ds, writeICCProfile c = Ok ms /\ mjoin ds = to_bytes (icc c)
    /\ read_marker <$> ms = imap (fun i x => Some (1 + Z.of_nat i, Z.of_nat (length ds), x)) ds
    /\ Forall (fun m => blen m <= MAX_BYTES_IN_MARKER) ms.
Proof.
  intros H. set (M := MAX_DATA_BYTES_IN_MARKER) in *. assert (HM : M = 65519) by reflexivity.
  unfold writeICCProfile. rewrite (proj2 (Z.eqb_neq _ 0)) by lia. rewrite u32_small by lia. cbv zeta. fold M.
  assert (Hn0 : 0 <= slen (icc c) / M <= 255) by (split; [apply Z.div_pos; lia|apply Z.div_le_upper_bound; lia]).
  rewrite u32_small by nia.
  assert (Lb : blen (to_bytes (icc c)) = slen (icc c)).
  { apply blen_to_bytes. }
  rewrite take_ge by (unfold blen in *; lia).
  set (n := if _ =? _ then _ else _).
  assert (Hn : n = (slen (icc c) + M - 1) / M).
  { unfold n. pose proof (Z.div_mod (slen (icc c)) M ltac:(lia)). pose proof (Z.mod_pos_bound (slen (icc c)) M ltac:(lia)).
    destruct (Z.eqb_spec (slen (icc c) / M * M) (slen (icc c))).
    - apply (Z.div_unique_pos _ _ _ (M - 1)); lia.
    - apply (Z.div_unique_pos _ _ _ (slen (icc c) mod M - 1)); lia. }
  assert (Hn1 : 0 <= n <= 255).
  { rewrite Hn. split; [apply Z.div_pos; lia|]. apply Z.lt_succ_r, Z.div_lt_upper_bound; lia. }
  destruct (icc_markers_spec (String.length (icc c)) (to_bytes (icc c)) 1 n) as (ms & ds & E & Hj & Hl & Hr & HF);
    [unfold blen, slen in *; lia|lia|fold M; rewrite Lb; lia|exact Hn1|].
  exists ms, ds. fold M in Hl. rewrite Lb, <- Hn in Hl. rewrite Hl. split_and!; assumption.
Qed.

Definition icc_settings : CompressorState := setICCProfile "profile" (new_JPEGCompressor 75).

Lemma icc_profile_roundtrip_witness :
  exists ms ds, writeICCProfile icc_settings = Ok ms /\ mjoin ds = to_bytes "profile"
    /\ read_marker <$> ms = imap (fun i x => Some (1 + Z.of_nat i, Z.of_nat (length ds), x)) ds
    /\ Forall (fun m => blen m <= MAX_BYTES_IN_MARKER) ms.
Proof. apply (icc_profile_roundtrip icc_settings). vm_compute. intuition congruence. Defined.
