(* ===== verification/Lines.v ===== *)
(** * Encoders line by line

    What the strip-based interface of the encoders ([InitCompression],
    [CompressStrip], [Finish]) promises to its client: the library gets the lines
    of the input, one after the other, and what it writes for them is what the
    function returns, as long as it fits into the buffer of the strip.
    [LineEncoder] is that interface; [JPEG_lines] and [PNG_lines] prove it of the
    two classes of the server. *)
From stdpp Require Import base strings list numbers.
From Stdlib Require Import ZArith Lia Ascii.
From coqutil Require Import Datatypes.RecordSetters.
From S2P Require Import Prelude CString CFloat RawTile TileManager Transforms Compressors.
Import TriangleBracketNotations.
#[local] Open Scope string_scope.
#[local] Open Scope list_scope.
#[local] Open Scope Z_scope.

(** The lines [a] to [b - 1] of an image of [row] bytes a line. *)
Definition lines (row : Z) (data : bytes) (a b : Z) : list bytes := (fun i => slice data (i * row) row) <$> range a b.

(** What a library that gets lines writes for them. *)
Fixpoint feed {St} (write_row : bytes -> St -> res (bytes * St)) (rows : list bytes) (st : St) : res (bytes * St) :=
  match rows with
  | [] => Ok ([], st)
  | r :: rows => '(b, st) ← write_row r st; '(bs, st) ← feed write_row rows st; Ok (b ++ bs, st)
  end.

Lemma feed_app {St} (write_row : bytes -> St -> res (bytes * St)) l k st o st2 :
  feed write_row (l ++ k) st = Ok (o, st2) ->
  exists o1 st1 o2, feed write_row l st = Ok (o1, st1) /\ feed write_row k st1 = Ok (o2, st2) /\ o = o1 ++ o2.
Proof.
  revert st o. induction l as [|r l IH]; intros st o; cbn [feed app].
  - intros H. exists [], st, o. auto.
  - intros ([b st'] & Hr & ([bs st''] & H & [= <- <-])%bind_ok)%bind_ok.
    destruct (IH _ _ H) as (o1 & st1 & o2 & H1 & H2 & ->). exists (b ++ o1), st1, o2.
    rewrite Hr, bind_ret, H1, bind_ret, app_assoc. auto.
Qed.

Lemma feed_both {St} (write_row : bytes -> St -> res (bytes * St)) l k st o1 st1 o2 st2 :
  feed write_row l st = Ok (o1, st1) -> feed write_row k st1 = Ok (o2, st2) -> feed write_row (l ++ k) st = Ok (o1 ++ o2, st2).
Proof.
  revert st o1. induction l as [|r l IH]; intros st o1; cbn [feed app].
  - intros [= <- <-] H. exact H.
  - intros ([b st'] & Hr & ([bs st''] & H & [= <- <-])%bind_ok)%bind_ok Hk.
    rewrite Hr, bind_ret, (IH _ _ H Hk), bind_ret, app_assoc. reflexivity.
Qed.

Lemma lines_cons row data a b : a < b -> lines row data a b = slice data (a * row) row :: lines row data (a + 1) b.
Proof. intros H. unfold lines. rewrite range_cons by exact H. reflexivity. Qed.

Lemma lines_nil row data a b : b <= a -> lines row data a b = [].
Proof. intros H. unfold lines. rewrite range_nil by exact H. reflexivity. Qed.

Lemma lines_app row data a m b : a <= m <= b -> lines row data a b = lines row data a m ++ lines row data m b.
Proof. intros H. unfold lines. rewrite (range_app a m b), fmap_app by exact H. reflexivity. Qed.

(** ** The interface *)

Class LineEncoder (compressor : Compressor) := {
  library : Type;
  write_line : bytes -> library -> res (bytes * library);
  write_end : library -> res bytes;
  progress : strip_state -> library;      (** the library in the state between the calls *)
  line_size : strip_state -> Z;
  buffer_size : strip_state -> Z;
  init_lines : forall t h header st,
    InitCompression t h = Ok (header, st) -> 0 < width t -> 0 < channels t -> bpc t = 8 -> width t * channels t < 2 ^ 31 ->
    line_size st = width t * channels t /\ MX <= buffer_size st < 2 ^ 33;
  strip_lines : forall input n st o l,
    0 < n -> 0 <= line_size st -> n * line_size st <= blen input -> n * line_size st + MX < 2 ^ 32 ->
    feed write_line (lines (line_size st) input 0 n) (progress st) = Ok (o, l) -> blen o < n * line_size st + MX ->
    exists st', CompressStrip input n st = Ok (o, st')
      /\ progress st' = l /\ line_size st' = line_size st /\ MX <= buffer_size st' < 2 ^ 33;
  finish_lines : forall st o,
    MX <= buffer_size st < 2 ^ 33 -> write_end (progress st) = Ok o -> blen o < MX -> Finish st = Ok o
}.

(** A line read into a new array. *)
Lemma read_line junk input i row :
  0 <= i -> 0 <= row -> (i + 1) * row <= blen input ->
  memcpy (new_bytes junk row) 0 input (i * row) row = Ok (slice input (i * row) row).
Proof.
  intros Hi Hr Hl. assert (0 <= i * row) by nia.
  assert (L : length (slice input (i * row) row) = Z.to_nat row) by (apply length_slice; lia).
  assert (Ei : input = take (Z.to_nat (i * row)) input ++ slice input (i * row) row ++ drop (Z.to_nat row) (drop (Z.to_nat (i * row)) input))
    by (unfold slice; rewrite !take_drop; reflexivity).
  rewrite Ei at 1. apply memcpy_read.
  - unfold blen in *. rewrite length_take. lia.
  - unfold blen. lia.
  - apply blen_new_bytes. exact Hr.
Qed.

(** ** JPEG *)

Section JPEG.
Context (junk : Z -> Z) {lib : JPEGLib}.

(** The lines of a strip, the emitted bytes together. *)
Lemma write_lines_feed input stride a b d l o l' :
  0 <= a -> 0 <= stride -> b * stride <= blen input ->
  feed jpeg_write_scanline (lines stride input a b) l = Ok (o, l') ->
  foldM (fun n '(d, st) =>
      row ← memcpy (new_bytes junk stride) 0 input (n * stride) stride;
      '(bs, st) ← jpeg_write_scanline row st;
      d ← emit junk bs d;
      Ok (d, st)) (range a b) (d, l)
  = (d ← emit junk o d; Ok (d, l')).
Proof.
  intros Ha Hs. remember (Z.to_nat (b - a)) as n eqn:En. revert a Ha En d l o.
  induction n as [|n IH]; intros a Ha En d l o Hb; [rewrite lines_nil, range_nil by lia; intros [= <- <-]; reflexivity|].
  rewrite lines_cons, range_cons by lia. cbn [feed foldM].
  intros ([o1 l1] & H1 & ([o2 l2] & H2 & [= <- <-])%bind_ok)%bind_ok.
  rewrite read_line, bind_ret, H1, bind_ret by nia. rewrite emit_app.
  destruct (emit junk o1 d) as [d1|e]; [|reflexivity]. rewrite !bind_ret.
  exact (IH (a + 1) ltac:(lia) ltac:(lia) d1 l1 o2 Hb H2).
Qed.

(** What was emitted into a buffer that it does not fill. *)
Lemma emit_buffer size o :
  0 <= size < 2 ^ 63 -> blen o < size ->
  (d ← emit junk o (mkDest (new_bytes junk size) size 0 0 size); caller_buffer size d) = Ok o.
Proof.
  intros Hs Ho. assert (0 <= blen o) by (unfold blen; lia).
  set (d0 := mkDest _ _ _ _ _). assert (L0 : blen (source d0) = size) by (apply blen_new_bytes; lia).
  destruct (emit_within junk o d0) as (s & E & Ls & T & _);
    [change (0 <= 0); lia|change (blen o < size < 2 ^ 63); lia|change (0 + blen o <= blen (source d0)); lia|].
  rewrite E, bind_ret. unfold caller_buffer.
  change (source_size _) with size. rewrite Z.eqb_refl. change (source (_ <| source := s |> <| next_output_byte := _ |> <| free_in_buffer := _ |>)) with s.
  change (free_in_buffer (_ <| source := s |> <| next_output_byte := _ |> <| free_in_buffer := ?x |>)) with x.
  change (free_in_buffer d0) with size. change (next_output_byte d0) with 0 in T.
  replace (size - (size - blen o)) with (0 + blen o) by lia. rewrite T. change (take (Z.to_nat 0) _) with (@nil Z). reflexivity.
Qed.

#[export] Program Instance JPEG_lines (c : CompressorState) : LineEncoder (JPEGCompressor junk c) := {|
  library := jpeg_state; write_line := jpeg_write_scanline; write_end := jpeg_finish;
  progress := js_lib; line_size := fun st => js_width st * js_channels st; buffer_size := js_size
|}.
Next Obligation.
  intros c t h header st H Hw Hc _ Hwc. destruct (factors_small _ _ _ Hw Hc Hwc).
  revert H. cbn [InitCompression JPEGCompressor]. unfold jpeg_InitCompression.
  intros (u & _ & ([d l] & _ & (hd & _ & [= _ <-])%bind_ok)%bind_ok)%bind_ok. cbn [js_width js_channels js_size].
  rewrite !u32_small by lia. split; [reflexivity|].
  unfold metadata_size. match goal with |- context [u32 ?x] => pose proof (u32_range x) as R end. unfold is_u32 in R. unfold MX. lia.
Qed.
Next Obligation.
  intros c input n st o l Hn Hrow Hin Hsz Hf Ho. cbn [CompressStrip JPEGCompressor]. unfold jpeg_CompressStrip.
  rewrite <- Z.mul_assoc, u32_small by (unfold MX in *; lia). cbv zeta. unfold write_lines.
  rewrite (write_lines_feed input _ 0 n _ _ o l ltac:(lia) Hrow Hin Hf).
  pose proof (emit_buffer (n * (js_width st * js_channels st) + MX) o ltac:(unfold MX in *; lia) Ho) as E.
  destruct (emit junk o _) as [d|e]; [|discriminate E]. rewrite !bind_ret in *. rewrite E, bind_ret.
  eexists. split; [reflexivity|]. split; [reflexivity|]. split; [reflexivity|].
  change (MX <= n * (js_width st * js_channels st) + MX < 2 ^ 33). nia.
Qed.
Next Obligation.
  intros c st o Hb Hf Ho. cbn [Finish JPEGCompressor]. unfold jpeg_Finish. rewrite Hf, bind_ret.
  apply emit_buffer; unfold MX in *; lia.
Qed.
End JPEG.

(** ** PNG *)

Section PNG.
Context (junk : Z -> Z) (VERSION : string) {lib : PNGLib}.

(** The blocks of a line, together. *)
Definition png_line (row : bytes) (st : png_state) : res (bytes * png_state) :=
  '(blocks, st) ← png_write_row row st; Ok (mjoin (M := list) blocks, st).

(** A buffer with [acc] at its start, and room for what is to come. *)
Definition holding (size : Z) (acc : bytes) (d : PNGDest) : Prop :=
  output_size d = size /\ p_written d = blen acc /\ exists rest, output d = acc ++ rest /\ blen acc + blen rest = size.

Lemma holding_write size acc d b :
  holding size acc d -> blen acc + blen b <= size ->
  exists d', png_write_data junk b d = Ok d' /\ holding size (acc ++ b) d'.
Proof.
  intros (Hs & Hw & rest & Ho & Hl) Hb. assert (0 <= blen b /\ 0 <= blen rest) as [? ?] by (unfold blen; lia).
  unfold png_write_data, png_reserve. rewrite Hs, Hw, (proj2 (Z.ltb_ge _ _)), bind_ret by lia.
  rewrite Hw, Ho, <- (take_drop (length b) rest).
  rewrite memcpy_block; [|reflexivity|unfold blen in *; rewrite length_take; lia].
  rewrite bind_ret. eexists. split; [reflexivity|].
  split; [exact Hs|]. split; [change (blen acc + blen b = blen (acc ++ b)); unfold blen in *; rewrite length_app; lia|].
  exists (drop (length b) rest). split; [rewrite <- app_assoc; reflexivity|].
  unfold blen in *. rewrite length_app, length_drop. lia.
Qed.

Lemma holding_blocks size bs acc d :
  holding size acc d -> blen acc + blen (mjoin bs) <= size ->
  exists d', png_write_blocks junk bs d = Ok d' /\ holding size (acc ++ mjoin bs) d'.
Proof.
  revert acc d. induction bs as [|b bs IH]; intros acc d Hd Hb.
  - exists d. cbn. rewrite app_nil_r. split; [reflexivity|exact Hd].
  - change (mjoin (b :: bs)) with (b ++ mjoin bs) in *.
    assert (L : blen (b ++ mjoin bs) = blen b + blen (mjoin bs)) by (unfold blen; rewrite length_app; lia).
    assert (0 <= blen (mjoin bs)) by (unfold blen; lia).
    destruct (holding_write size acc d b Hd) as (d1 & E & H1); [lia|].
    destruct (IH (acc ++ b) d1 H1) as (d2 & E2 & H2); [unfold blen in *; rewrite length_app; lia|].
    exists d2. unfold png_write_blocks in *. cbn [foldM]. rewrite E, bind_ret. split; [exact E2|]. rewrite app_assoc. exact H2.
Qed.

Lemma holding_buffer size acc d : holding size acc d -> held_buffer size d = Ok acc.
Proof.
  intros (Hs & Hw & rest & Ho & Hl). unfold held_buffer. rewrite Hs, Z.eqb_refl, Hw, Ho.
  unfold blen. rewrite Nat2Z.id, take_app_length. reflexivity.
Qed.

Lemma holding_new size : 0 <= size -> holding size [] (mkPNGDest (new_bytes junk size) size 0).
Proof.
  intros Hs. split; [reflexivity|]. split; [reflexivity|]. exists (new_bytes junk size). split; [reflexivity|].
  rewrite blen_new_bytes by exact Hs. reflexivity.
Qed.

Lemma png_rows_feed input row a b size acc d l o l' :
  0 <= a -> 0 <= row -> b * row <= blen input -> b * row < 2 ^ 32 ->
  feed png_line (lines row input a b) l = Ok (o, l') -> holding size acc d -> blen acc + blen o <= size ->
  exists d', foldM (fun i '(d, st) =>
      row' ← memcpy (new_bytes junk row) 0 input (u32 (i * row)) row;
      '(blocks, st) ← png_write_row row' st;
      d ← png_write_blocks junk blocks d;
      Ok (d, st)) (range a b) (d, l) = Ok (d', l') /\ holding size (acc ++ o) d'.
Proof.
  intros Ha Hs. remember (Z.to_nat (b - a)) as n eqn:En. revert a Ha En d l o acc.
  induction n as [|n IH]; intros a Ha En d l o acc Hb H32.
  { rewrite lines_nil, range_nil by lia. intros [= <- <-] Hd _. exists d. rewrite app_nil_r. auto. }
  rewrite lines_cons, range_cons by lia. cbn [feed foldM].
  intros ([o1 l1] & H1 & ([o2 l2] & H2 & [= <- <-])%bind_ok)%bind_ok Hd Ho.
  apply bind_ok in H1 as ([blocks l0] & H1 & [= <- <-]).
  assert (L : blen (mjoin blocks ++ o2) = blen (mjoin blocks) + blen o2) by (unfold blen; rewrite length_app; lia).
  assert (0 <= blen o2) by (unfold blen; lia). assert (0 <= a * row /\ (a + 1) * row <= b * row) as [? ?] by nia.
  rewrite u32_small, read_line, bind_ret, H1, bind_ret by lia.
  destruct (holding_blocks size blocks acc d Hd) as (d1 & -> & Hd1); [lia|]. rewrite !bind_ret.
  destruct (IH (a + 1) ltac:(lia) ltac:(lia) d1 l0 o2 (acc ++ mjoin blocks) Hb H32 H2 Hd1) as (d2 & E & Hd2);
    [unfold blen in *; rewrite length_app; lia|].
  exists d2. split; [exact E|]. rewrite app_assoc. exact Hd2.
Qed.

#[export] Program Instance PNG_lines (c : CompressorState) : LineEncoder (PNGCompressor junk VERSION c) := {|
  library := png_state; write_line := png_line; write_end := fun st => blocks ← png_write_end st; Ok (mjoin (M := list) blocks);
  progress := ps_lib; line_size := ps_row; buffer_size := ps_size
|}.
Next Obligation.
  intros c t h header st H Hw Hc Hb Hwc. destruct (factors_small _ _ _ Hw Hc Hwc).
  revert H. cbn [InitCompression PNGCompressor]. unfold png_InitCompression.
  intros (u & _ & ([d l] & _ & (hd & _ & [= _ <-])%bind_ok)%bind_ok)%bind_ok. cbn [ps_row ps_size].
  rewrite Hb. change (u32 (8 / 8)) with 1. rewrite (u32_small (width t)), (u32_small (channels t)), u32_small by nia.
  split; [lia|]. unfold metadata_size. match goal with |- context [u32 ?x] => pose proof (u32_range x) as R end.
  unfold is_u32 in R. unfold MX. lia.
Qed.
Next Obligation.
  intros c input n st o l Hn Hrow Hin Hsz Hf Ho. cbn [CompressStrip PNGCompressor]. unfold png_CompressStrip.
  rewrite u32_small by (unfold MX in *; nia). cbv zeta. unfold png_rows.
  destruct (png_rows_feed input (ps_row st) 0 n (n * ps_row st + MX) [] _ (ps_lib st) o l ltac:(lia) Hrow Hin
              ltac:(unfold MX in *; lia) Hf (holding_new (n * ps_row st + MX) ltac:(unfold MX in *; nia))) as (d & E & Hd);
    [change (blen []) with 0; lia|].
  rewrite E, bind_ret, (holding_buffer _ _ _ Hd), bind_ret. eexists. split; [reflexivity|].
  split; [reflexivity|]. split; [reflexivity|]. change (MX <= n * ps_row st + MX < 2 ^ 33). nia.
Qed.
Next Obligation.
  intros c st o Hb (blocks & Hf & [= <-])%bind_ok Ho. cbn [Finish PNGCompressor]. unfold png_Finish. rewrite Hf, bind_ret.
  destruct (holding_blocks (ps_size st) blocks [] _ (holding_new (ps_size st) ltac:(unfold MX in *; lia))) as (d & -> & Hd);
    [change (blen []) with 0; unfold MX in *; lia|].
  rewrite bind_ret. apply holding_buffer, Hd.
Qed.
End PNG.
