(* ===== verification/FCGX.v ===== *)
(** * The FastCGI library (src/fcgi/libfcgi/fcgiapp.c, src/fcgi/include)

    The streams, records and parameters the server talks to the web server with.  A
    buffer is the bytes of the array and a pointer into it an offset.  The connection
    is what the operating system gives: the bytes the next calls of [read] return, one
    element for each call, and how much the next calls of [write] take; [None] is an
    error.  A function of a stream is a computation on the stream, the request it
    belongs to and the connection ([World]); [FCGX_Accept_r] and [FCGX_Finish_r] work on
    the whole request ([Server]).

    Reading the content of a record, the library calls itself: [FillBuffProc] reads a
    header, [ProcessHeader] reads the content through the stream, and that fills the
    buffer again, up to the end of the record ([eorStop]).  [depth] is the number of
    calls inside each other. *)
From stdpp Require Import base strings list numbers.
From Stdlib Require Import ZArith Lia.
From coqutil Require Import Datatypes.RecordSetters.
From S2P Require Import Prelude Object CString RawTile.
Import TriangleBracketNotations.
#[local] Open Scope string_scope.
#[local] Open Scope list_scope.
#[local] Open Scope Z_scope.

(** ** Constants (fastcgi.h, fcgiapp.h) *)

Definition FCGI_MAX_LENGTH : Z := 0xffff.
Definition FCGI_HEADER_LEN : Z := 8.
Definition FCGI_VERSION_1 : Z := 1.
Definition FCGI_BEGIN_REQUEST : Z := 1.
Definition FCGI_END_REQUEST : Z := 3.
Definition FCGI_PARAMS : Z := 4.
Definition FCGI_STDIN : Z := 5.
Definition FCGI_STDOUT : Z := 6.
Definition FCGI_STDERR : Z := 7.
Definition FCGI_DATA : Z := 8.
Definition FCGI_GET_VALUES : Z := 9.
Definition FCGI_GET_VALUES_RESULT : Z := 10.
Definition FCGI_UNKNOWN_TYPE : Z := 11.
Definition FCGI_NULL_REQUEST_ID : Z := 0.
Definition FCGI_KEEP_CONN : Z := 1.
Definition FCGI_RESPONDER : Z := 1.
Definition FCGI_AUTHORIZER : Z := 2.
Definition FCGI_FILTER : Z := 3.
Definition FCGI_REQUEST_COMPLETE : Z := 0.
Definition FCGI_CANT_MPX_CONN : Z := 1.
Definition FCGX_UNSUPPORTED_VERSION : Z := -2.
Definition FCGX_PROTOCOL_ERROR : Z := -3.
Definition FCGX_PARAMS_ERROR : Z := -4.
Definition FCGX_CALL_SEQ_ERROR : Z := -5.
Definition EOF : Z := -1.

(** The characters of a string literal. *)
Definition chars (s : string) : bytes := (fun c => Z.of_N (Ascii.N_of_ascii c)) <$> String.list_ascii_of_string s.

(** ** Records of the protocol *)

(** [FCGI_Header] *)
Record Header := mkHeader {
  version : Z; hdr_type : Z; requestIdB1 : Z; requestIdB0 : Z;
  contentLengthB1 : Z; contentLengthB0 : Z; paddingLength : Z; reserved : Z
}.

(** The structure as memory, and memory as the structure. *)
Definition header_bytes (h : Header) : bytes :=
  [version h; hdr_type h; requestIdB1 h; requestIdB0 h; contentLengthB1 h; contentLengthB0 h; paddingLength h; reserved h].
Definition header_of (b : bytes) : Header :=
  let at_ k := nth k b 0 in mkHeader (at_ 0%nat) (at_ 1%nat) (at_ 2%nat) (at_ 3%nat) (at_ 4%nat) (at_ 5%nat) (at_ 6%nat) (at_ 7%nat).

Definition byte_of (v k : Z) : Z := Z.land (Z.shiftr v k) 0xff.

Definition MakeHeader (type requestId contentLength paddingLength : Z) : res Header :=
  if negb ((0 <=? contentLength) && (contentLength <=? FCGI_MAX_LENGTH)) then undef "assertion"
  else if negb ((0 <=? paddingLength) && (paddingLength <=? 0xff)) then undef "assertion"
  else Ok (mkHeader FCGI_VERSION_1 (u8 type) (byte_of requestId 8) (byte_of requestId 0)
             (byte_of contentLength 8) (byte_of contentLength 0) (u8 paddingLength) 0).

(** [FCGI_EndRequestBody] and [FCGI_UnknownTypeBody] as memory. *)
Definition MakeEndRequestBody (appStatus protocolStatus : Z) : bytes :=
  [byte_of appStatus 24; byte_of appStatus 16; byte_of appStatus 8; byte_of appStatus 0; u8 protocolStatus; 0; 0; 0].
Definition MakeUnknownTypeBody (type : Z) : bytes := [u8 type; 0; 0; 0; 0; 0; 0; 0].

Definition AlignInt8 (n : Z) : Z := i32 (Z.land (u32 (n + 7)) (2 ^ 32 - 1 - 7)).

(** ** The state *)

(** [FCGX_Stream] with its [FCGX_Stream_Data]; the pointers are offsets from [buff]. *)
Record Stream := mkStream {
  rdNext : Z; wrNext : Z; stop : Z; stopUnget : Z;
  isReader : bool; isClosed : bool; wasFCloseCalled : bool; FCGI_errno : Z;
  buff : bytes; bufflen : Z; buffStop : Z; stream_type : Z; eorStop : bool; skip : bool;
  contentLen : Z; paddingLen : Z; isAnythingWritten : bool; rawWrite : bool
}.

(** What the streams of an [FCGX_Request] share. *)
Record Request := mkRequest {
  requestId : Z; role : Z; isBeginProcessed : bool; keepConnection : bool; appStatus : Z; nWriters : Z
}.

Record Conn := mkConn { incoming : list (option bytes); accepts : list (option Z); written : bytes }.

Record World := mkWorld { stream : Stream; request : Request; conn : Conn }.

Abbreviation F := (Obj World).

Definition on_stream (f : Stream -> Stream) : F unit := obj_set (fun w => mkWorld (f (stream w)) (request w) (conn w)).
Definition on_request (f : Request -> Request) : F unit := obj_set (fun w => mkWorld (stream w) (f (request w)) (conn w)).
Definition on_conn (f : Conn -> Conn) : F unit := obj_set (fun w => mkWorld (stream w) (request w) (f (conn w))).
Definition gets {A} (f : Stream -> A) : F A := obj_get (fun w => f (stream w)).

Section FCGX.
Context (junk : Z -> Z) (OS_Errno : Z).

(** ** The operating system *)

(** The number of bytes [read] returns, and the bytes. *)
Definition OS_Read (len : Z) : F (Z * bytes) := fun w =>
  let c := conn w in
  let next i := mkWorld (stream w) (request w) (mkConn i (accepts c) (written c)) in
  match incoming c with
  | [] => (Ok (0, []), w)
  | None :: i => (Ok (-1, []), next i)
  | Some b :: i =>
      if blen b <=? len then (Ok (blen b, b), next i)
      else (Ok (len, take (Z.to_nat len) b), next (Some (drop (Z.to_nat len) b) :: i))
  end.

(** How many bytes [write] takes: all of them when nothing else is said. *)
Definition OS_Write (b : bytes) : F Z := fun w =>
  let c := conn w in
  match accepts c with
  | [] => (Ok (blen b), mkWorld (stream w) (request w) (mkConn (incoming c) [] (written c ++ b)))
  | None :: a => (Ok (-1), mkWorld (stream w) (request w) (mkConn (incoming c) a (written c)))
  | Some n :: a =>
      let n := Z.max 0 (Z.min n (blen b)) in
      (Ok n, mkWorld (stream w) (request w) (mkConn (incoming c) a (written c ++ take (Z.to_nat n) b)))
  end.

Fixpoint write_loop (fuel : nat) (b : bytes) : F Z :=
  match fuel with
  | O => obj_lift (Err OutOfFuel)
  | S fuel =>
      if blen b =? 0 then mret 0
      else
        wrote ← OS_Write b;
        if wrote <? 0 then mret wrote else write_loop fuel (drop (Z.to_nat wrote) b)
  end.

(** Every step uses up an element of [accepts], and the last one writes the rest. *)
Definition write_it_all (b : bytes) : F Z :=
  n ← obj_get (fun w => length (accepts (conn w)));
  write_loop (S (S n)) b.

(** ** Errors *)

Definition SetError (e : Z) : F unit :=
  on_stream (fun s => s <| FCGI_errno := if FCGI_errno s =? 0 then e else FCGI_errno s |> <| isClosed := true |>).

Definition FCGX_GetError : F Z := gets FCGI_errno.
Definition FCGX_ClearError : F unit := on_stream (fun s => s <| FCGI_errno := 0 |>).

(** ** Writing *)

(** Fills in the header and the padding of the record in the buffer. *)
Definition frame : F unit :=
  s ← gets (fun s => s);
  if rawWrite s then mret tt
  else
    let cLen := i32 (wrNext s - FCGI_HEADER_LEN) in
    if 0 <? cLen then
      let eLen := AlignInt8 cLen in
      b ← obj_lift (memcpy (buff s) (wrNext s) (replicate (Z.to_nat (eLen - cLen)) 0) 0 (eLen - cLen));
      id ← obj_get (fun w => requestId (request w));
      h ← obj_lift (MakeHeader (stream_type s) id cLen (eLen - cLen));
      b ← obj_lift (memcpy b 0 (header_bytes h) 0 FCGI_HEADER_LEN);
      on_stream (fun s => s <| wrNext := wrNext s + (eLen - cLen) |> <| buff := b |>)
    else on_stream (fun s => s <| wrNext := 0 |>).

(** Writes the buffer out. *)
Definition send : F unit :=
  s ← gets (fun s => s);
  sent ← (if wrNext s =? 0 then mret true
          else
            _ ← on_stream (fun s => s <| isAnythingWritten := true |>);
            r ← write_it_all (take (Z.to_nat (wrNext s)) (buff s));
            if r <? 0 then _ ← SetError OS_Errno; mret false
            else _ ← on_stream (fun s => s <| wrNext := 0 |>); mret true);
  if negb sent then mret tt
  else if rawWrite s then mret tt
  else on_stream (fun s => s <| wrNext := wrNext s + FCGI_HEADER_LEN |>).

(** [EmptyBuffProc( stream, FALSE )] *)
Definition EmptyBuff : F unit := _ ← frame; send.

(** Copies into the buffer at [wrNext]. *)
Definition put_bytes (b : bytes) : F unit :=
  s ← gets (fun s => s);
  d ← obj_lift (memcpy (buff s) (wrNext s) b 0 (blen b));
  on_stream (fun s => s <| buff := d |> <| wrNext := wrNext s + blen b |>).

(** The loop of [FCGX_PutStr] on the bytes that are left. *)
Fixpoint put_loop (fuel : nat) (n moved : Z) (str : bytes) : F Z :=
  match fuel with
  | O => obj_lift (Err OutOfFuel)
  | S fuel =>
      s ← gets (fun s => s);
      let m := if wrNext s =? stop s then 0 else Z.min (n - moved) (stop s - wrNext s) in
      _ ← (if wrNext s =? stop s then mret tt else put_bytes (take (Z.to_nat m) str));
      let moved := moved + m in
      if negb (wrNext s =? stop s) && (moved =? n) then mret moved
      else if isClosed s || isReader s then mret (-1)
      else
        _ ← EmptyBuff;
        put_loop fuel n moved (drop (Z.to_nat m) str)
  end.

Definition FCGX_PutStr (str : bytes) : F Z :=
  s ← gets (fun s => s);
  let n := blen str in
  if n <=? stop s - wrNext s then _ ← put_bytes str; mret n
  else put_loop (3 + length str) n 0 str.

Definition FCGX_PutChar (c : Z) : F Z :=
  s ← gets (fun s => s);
  if negb (wrNext s =? stop s) then _ ← put_bytes [u8 c]; mret (u8 c)
  else if isClosed s || isReader s then mret EOF
  else
    _ ← EmptyBuff;
    s ← gets (fun s => s);
    if negb (wrNext s =? stop s) then _ ← put_bytes [u8 c]; mret (u8 c)
    else if isClosed s then mret EOF else obj_lift (undef "assertion").

(** [strlen] and the bytes before the terminator. *)
Definition FCGX_PutS (s : string) : F Z := FCGX_PutStr (chars (c_str s)).

Definition WriteCloseRecords : F unit :=
  _ ← on_stream (fun s => s <| rawWrite := true |>);
  s ← gets (fun s => s);
  r ← obj_get request;
  _ ← (if negb ((stream_type s =? FCGI_STDERR) && (wrNext s =? 0) && negb (isAnythingWritten s)) then
         h ← obj_lift (MakeHeader (stream_type s) (requestId r) 0 0);
         _ ← FCGX_PutStr (header_bytes h); mret tt
       else mret tt);
  _ ← (if nWriters r =? 1 then
         h ← obj_lift (MakeHeader FCGI_END_REQUEST (requestId r) 8 0);
         _ ← FCGX_PutStr (header_bytes h ++ MakeEndRequestBody (appStatus r) FCGI_REQUEST_COMPLETE); mret tt
       else mret tt);
  on_request (fun r => r <| nWriters := i32 (nWriters r - 1) |>).

Definition EmptyBuffProc (doClose : bool) : F unit :=
  _ ← frame;
  _ ← obj_when doClose WriteCloseRecords;
  send.

Definition FCGX_FFlush : F Z :=
  s ← gets (fun s => s);
  if isClosed s || isReader s then mret 0
  else
    _ ← EmptyBuffProc false;
    s ← gets (fun s => s);
    mret (if isClosed s then -1 else 0).

Definition FCGX_FClose : F Z :=
  s ← gets (fun s => s);
  _ ← (if wasFCloseCalled s then mret tt
       else
         _ ← obj_when (negb (isReader s)) (EmptyBuffProc true);
         on_stream (fun s =>
           let s := s <| wasFCloseCalled := true |> <| isClosed := true |> in
           if isReader s then s <| stop := rdNext s |> <| wrNext := rdNext s |>
           else s <| stop := wrNext s |> <| rdNext := wrNext s |>));
  s ← gets (fun s => s);
  mret (if FCGI_errno s =? 0 then 0 else EOF).

(** ** Parameters *)

(** [Params]: the strings without their terminators, and the room there is. *)
Record Params := mkParams { vec : list bytes; length_ : Z }.

Definition NewParams (n : Z) : Params := mkParams [] n.

(** Both writes, of the entry and of the NULL after it, are inside the vector. *)
Definition PutParam (p : Params) (nameValue : bytes) : res Params :=
  let size := Z.of_nat (length (vec p)) + 1 in
  if length_ p <=? size - 1 then undef "write past the parameters"
  else
    let p := mkParams (vec p ++ [nameValue]) (if length_ p <=? size then length_ p * 2 else length_ p) in
    if length_ p <=? size then undef "write past the parameters" else Ok p.

(** The bytes of a C string. *)
Fixpoint cstring (b : bytes) : bytes :=
  match b with [] => [] | c :: b => if c =? 0 then [] else c :: cstring b end.

(** [strncmp( name, p, strlen(name) ) == 0] and the character after it. *)
Definition param_value (name p : bytes) : option bytes :=
  let p := cstring p in
  if bool_decide (take (length name) p = name) then
    match drop (length name) p with c :: v => if c =? 61 then Some v else None | [] => None end
  else None.

Fixpoint FCGX_GetParam (name : bytes) (envp : list bytes) : option bytes :=
  match envp with
  | [] => None
  | p :: envp => match param_value name p with Some v => Some v | None => FCGX_GetParam name envp end
  end.

(** ** Reading *)

Section Reading.
(** [stream->fillBuffProc] *)
Context (fill : F unit).

(** The bytes from [rdNext] on. *)
Definition take_bytes (m : Z) : F bytes :=
  s ← gets (fun s => s);
  d ← obj_lift (memcpy (new_bytes junk m) 0 (buff s) (rdNext s) m);
  _ ← on_stream (fun s => s <| rdNext := rdNext s + m |>);
  mret d.

Definition next_byte : F Z :=
  s ← gets (fun s => s);
  c ← obj_lift (rd (buff s) (rdNext s));
  _ ← on_stream (fun s => s <| rdNext := rdNext s + 1 |>);
  mret c.

Definition FCGX_GetChar : F Z :=
  s ← gets (fun s => s);
  if isClosed s || negb (isReader s) then mret EOF
  else if negb (rdNext s =? stop s) then next_byte
  else
    _ ← fill;
    s ← gets (fun s => s);
    if isClosed s then mret EOF
    else
      _ ← on_stream (fun s => s <| stopUnget := rdNext s |>);
      if negb (rdNext s =? stop s) then next_byte else obj_lift (undef "assertion").

(** The loop of [FCGX_GetStr]: the bytes it moved. *)
Fixpoint get_loop (fuel : nat) (n : Z) (moved : bytes) : F bytes :=
  match fuel with
  | O => obj_lift (Err OutOfFuel)
  | S fuel =>
      s ← gets (fun s => s);
      moved' ← (if rdNext s =? stop s then mret moved
                else m ← take_bytes (Z.min (n - blen moved) (stop s - rdNext s)); mret (moved ++ m));
      if negb (rdNext s =? stop s) && (blen moved' =? n) then mret moved'
      else if isClosed s || negb (isReader s) then mret moved'
      else
        _ ← fill;
        s ← gets (fun s => s);
        if isClosed s then mret moved'
        else
          _ ← on_stream (fun s => s <| stopUnget := rdNext s |>);
          get_loop fuel n moved'
  end.

(** The bytes that may still come. *)
Definition bytes_left (w : World) : nat :=
  Z.to_nat (buffStop (stream w) - rdNext (stream w)) + sum_list_with (from_option length 0%nat) (incoming (conn w)).

(** [str] gets the bytes; their number is the result. *)
Definition FCGX_GetStr (n : Z) : F bytes :=
  s ← gets (fun s => s);
  if isClosed s || negb (isReader s) || (n <=? 0) then mret []
  else if n <=? stop s - rdNext s then take_bytes n
  else
    left ← obj_get bytes_left;
    get_loop (3 + left) n [].

(** The loop of [FCGX_GetLine] over the characters that are left. *)
Fixpoint line_loop (n : nat) (line : bytes) : F (option bytes) :=
  match n with
  | O => mret (Some line)
  | S n =>
      c ← FCGX_GetChar;
      if c =? EOF then mret (match line with [] => None | _ => Some line end)
      else if c =? 10 then mret (Some (line ++ [c])) else line_loop n (line ++ [c])
  end.

(** The line without its terminator. *)
Definition FCGX_GetLine (n : Z) : F (option bytes) := line_loop (Z.to_nat (n - 1)) [].

Definition FCGX_UnGetChar (c : Z) : F Z :=
  s ← gets (fun s => s);
  if (c =? EOF) || isClosed s || negb (isReader s) || (rdNext s =? stopUnget s) then mret EOF
  else
    b ← obj_lift (wr (buff s) (rdNext s - 1) (u8 c));
    _ ← on_stream (fun s => s <| rdNext := rdNext s - 1 |> <| buff := b |>);
    mret c.

Definition FCGX_HasSeenEOF : F Z := closed ← gets isClosed; mret (if (closed : bool) then EOF else 0).

(** ** Name-value pairs *)

(** A length of four bytes, the first of which was read; [None]: the input ended. *)
Definition read_length (first : Z) : F (option Z) :=
  if Z.land first 0x80 =? 0 then mret (Some first)
  else
    b ← FCGX_GetStr 3;
    if blen b =? 3 then
      mret (Some (Z.shiftl (Z.land first 0x7f) 24 + Z.shiftl (nth 0 b 0) 16 + Z.shiftl (nth 1 b 0) 8 + nth 2 b 0))
    else mret None.

(** The sum of two [int]s. *)
Definition add_int (a b : Z) : res Z := if (- 2 ^ 31 <=? a + b) && (a + b <? 2 ^ 31) then Ok (a + b) else undef "int overflow".

Definition params_error {A} (p : Params) (a : A) : F (Params * A) := _ ← SetError FCGX_PARAMS_ERROR; mret (p, a).

(** A pair after the first byte of the length of its name; [false]: an error. *)
Definition read_pair (p : Params) (first : Z) : F (Params * bool) :=
  nameLen ← read_length first;
  match nameLen with
  | None => params_error p false
  | Some nameLen =>
      c ← FCGX_GetChar;
      if c =? EOF then params_error p false
      else
        valueLen ← read_length c;
        match valueLen with
        | None => params_error p false
        | Some valueLen =>
            room ← obj_lift (n ← add_int nameLen valueLen; add_int n 2);
            name ← FCGX_GetStr nameLen;
            if negb (blen name =? nameLen) then params_error p false
            else
              value ← FCGX_GetStr valueLen;
              if negb (blen value =? valueLen) then params_error p false
              else p ← obj_lift (PutParam p (name ++ [61] ++ value)); mret (p, true)
        end
  end.

Fixpoint pairs_loop (fuel : nat) (p : Params) : F (Params * Z) :=
  match fuel with
  | O => obj_lift (Err OutOfFuel)
  | S fuel =>
      c ← FCGX_GetChar;
      if c =? EOF then mret (p, 0)
      else
        '(p, good) ← read_pair p c;
        if (good : bool) then pairs_loop fuel p else mret (p, -1)
  end.

Definition ReadParams (p : Params) : F (Params * Z) :=
  left ← obj_get bytes_left;
  pairs_loop (2 + left) p.

(** ** Headers *)

Definition STREAM_RECORD : Z := 0.
Definition SKIP : Z := 1.
Definition BEGIN_RECORD : Z := 2.
Definition MGMT_RECORD : Z := 3.

(** The reply to one variable, at the end of the response. *)
Definition put_variable (entry : bytes) (st : bytes * Z) : res (bytes * Z) :=
  let '(response, p) := st in
  let name := cstring entry in
  match list_find (fun c => c = 61) name with
  | None => undef "null pointer"
  | Some (k, _) =>
      let name := take k name in
      let answer := if bool_decide (name = chars "FCGI_MAX_CONNS") then Some 49
                    else if bool_decide (name = chars "FCGI_MAX_REQS") then Some 49
                    else if bool_decide (name = chars "FCGI_MPXS_CONNS") then Some 48
                    else None in
      match answer with
      | None => Ok st
      | Some value =>
          let text := [u8 (blen name); 1] ++ name ++ [value; 0] in
          response ← memcpy response p text 0 (blen text);
          Ok (response, p + blen name + 3)
      end
  end.

(** Sends the first bytes of [response]. *)
Definition respond (response : bytes) (n : Z) (result : Z) : F Z :=
  b ← obj_lift (memcpy (new_bytes junk n) 0 response 0 n);
  r ← write_it_all b;
  if r <? 0 then _ ← SetError OS_Errno; mret (-1) else mret result.

Definition ProcessManagementRecord (type : Z) : F Z :=
  let response := new_bytes junk 64 in
  if type =? FCGI_GET_VALUES then
    '(p, _) ← ReadParams (NewParams 3);
    s ← gets (fun s => s);
    if negb (FCGI_errno s =? 0) || negb (contentLen s =? 0) then mret FCGX_PROTOCOL_ERROR
    else
      '(response, responseP) ← obj_lift (foldM put_variable (vec p) (response, FCGI_HEADER_LEN));
      let len := responseP - FCGI_HEADER_LEN in
      let paddedLen := AlignInt8 len in
      h ← obj_lift (MakeHeader FCGI_GET_VALUES_RESULT FCGI_NULL_REQUEST_ID len (paddedLen - len));
      response ← obj_lift (memcpy response 0 (header_bytes h) 0 FCGI_HEADER_LEN);
      respond response (FCGI_HEADER_LEN + paddedLen) MGMT_RECORD
  else
    h ← obj_lift (MakeHeader FCGI_UNKNOWN_TYPE FCGI_NULL_REQUEST_ID 8 0);
    response ← obj_lift (memcpy response 0 (header_bytes h) 0 FCGI_HEADER_LEN);
    response ← obj_lift (memcpy response FCGI_HEADER_LEN (MakeUnknownTypeBody type) 0 8);
    respond response (FCGI_HEADER_LEN + 8) MGMT_RECORD.

Definition ProcessBeginRecord (id : Z) : F Z :=
  w ← obj_get (fun w => w);
  if (id =? 0) || negb (contentLen (stream w) =? 8) then mret FCGX_PROTOCOL_ERROR
  else if isBeginProcessed (request w) then
    h ← obj_lift (MakeHeader FCGI_END_REQUEST id 8 0);
    r ← write_it_all (header_bytes h ++ MakeEndRequestBody 0 FCGI_CANT_MPX_CONN);
    if r <? 0 then _ ← SetError OS_Errno; mret (-1) else mret SKIP
  else
    _ ← on_request (fun r => r <| requestId := id |>);
    body ← FCGX_GetStr 8;
    if negb (blen body =? 8) then mret FCGX_PROTOCOL_ERROR
    else
      _ ← on_request (fun r => r <| keepConnection := negb (Z.land (nth 2 body 0) FCGI_KEEP_CONN =? 0) |>
                                 <| role := Z.shiftl (nth 0 body 0) 8 + nth 1 body 0 |>
                                 <| isBeginProcessed := true |>);
      mret BEGIN_RECORD.

Definition ProcessHeader (b : bytes) : F Z :=
  let h := header_of b in
  if negb (version h =? FCGI_VERSION_1) then mret FCGX_UNSUPPORTED_VERSION
  else
    let id := Z.shiftl (requestIdB1 h) 8 + requestIdB0 h in
    _ ← on_stream (fun s => s <| contentLen := Z.shiftl (contentLengthB1 h) 8 + contentLengthB0 h |>
                              <| paddingLen := paddingLength h |>);
    w ← obj_get (fun w => w);
    if hdr_type h =? FCGI_BEGIN_REQUEST then ProcessBeginRecord id
    else if id =? FCGI_NULL_REQUEST_ID then ProcessManagementRecord (hdr_type h)
    else if negb (id =? requestId (request w)) then mret SKIP
    else if negb (hdr_type h =? stream_type (stream w)) then mret FCGX_PROTOCOL_ERROR
    else mret STREAM_RECORD.

(** ** Filling the buffer *)

(** What a record in the buffer still has for the client: [true] when the buffer has
    to be filled again, [None] when the bytes are delivered. *)
Definition deliver : F (option bool) :=
  s ← gets (fun s => s);
  if 0 <? contentLen s then
    let count := Z.min (contentLen s) (buffStop s - rdNext s) in
    _ ← on_stream (fun s => s <| contentLen := contentLen s - count |>);
    if negb (skip s) then
      _ ← on_stream (fun s => s <| stop := rdNext s + count |> <| wrNext := rdNext s + count |>); mret None
    else
      _ ← on_stream (fun s => s <| rdNext := rdNext s + count |>);
      if 0 <? contentLen s - count then mret (Some true)
      else _ ← on_stream (fun s => s <| skip := false |>); mret (Some false)
  else mret (Some false).

(** Skips the padding: whether there is more of it. *)
Definition skip_padding : F bool :=
  s ← gets (fun s => s);
  if 0 <? paddingLen s then
    let count := Z.min (paddingLen s) (buffStop s - rdNext s) in
    _ ← on_stream (fun s => s <| paddingLen := paddingLen s - count |> <| rdNext := rdNext s + count |>);
    mret (0 <? paddingLen s - count)
  else mret false.

(** Reads into the buffer when it is empty: whether there is something in it. *)
Definition refill : F bool :=
  s ← gets (fun s => s);
  if rdNext s =? buffStop s then
    '(count, b) ← OS_Read (bufflen s);
    if count <=? 0 then _ ← SetError (if count =? 0 then FCGX_PROTOCOL_ERROR else OS_Errno); mret false
    else
      d ← obj_lift (memcpy (buff s) 0 b 0 count);
      _ ← on_stream (fun s => s <| buff := d |> <| rdNext := 0 |> <| buffStop := count |>);
      mret true
  else mret true.

(** The [switch] on the status of a header: whether the loop goes on. *)
Definition after_header (status : Z) : F bool :=
  _ ← on_stream (fun s => s <| eorStop := false |> <| isClosed := false |>);
  s ← gets (fun s => s);
  if status =? STREAM_RECORD then
    if contentLen s =? 0 then
      _ ← on_stream (fun s => s <| stop := rdNext s |> <| wrNext := rdNext s |> <| isClosed := true |>); mret false
    else mret true
  else if status =? SKIP then _ ← on_stream (fun s => s <| skip := true |>); mret true
  else if status =? BEGIN_RECORD then mret false
  else if status =? MGMT_RECORD then mret true
  else if status <? 0 then _ ← SetError status; mret false
  else obj_lift (undef "assertion").
End Reading.

(** The loop of [FillBuffProc] with the bytes of the header that are there. *)
Fixpoint fill_loop (process : bytes -> F Z) (fuel : nat) (header : bytes) (headerLen : Z) : F unit :=
  match fuel with
  | O => obj_lift (Err OutOfFuel)
  | S fuel =>
      filled ← refill;
      if negb filled then mret tt
      else
        more ← deliver;
        match more with
        | None => mret tt
        | Some true => fill_loop process fuel header headerLen
        | Some false =>
            more ← skip_padding;
            if (more : bool) then fill_loop process fuel header headerLen
            else
              s ← gets (fun s => s);
              if eorStop s then on_stream (fun s => s <| stop := rdNext s |> <| isClosed := true |>)
              else
                let count := Z.min (FCGI_HEADER_LEN - headerLen) (buffStop s - rdNext s) in
                header ← obj_lift (memcpy header headerLen (buff s) (rdNext s) count);
                _ ← on_stream (fun s => s <| rdNext := rdNext s + count |>);
                if headerLen + count <? FCGI_HEADER_LEN then fill_loop process fuel header (headerLen + count)
                else
                  _ ← on_stream (fun s => s <| eorStop := true |> <| stop := rdNext s |>);
                  status ← process header;
                  more ← after_header status;
                  if (more : bool) then fill_loop process fuel header 0 else mret tt
        end
  end.

(** Every step uses up a byte of the connection or ends the loop. *)
Fixpoint fill (depth : nat) : F unit :=
  left ← obj_get bytes_left;
  fill_loop (match depth with O => fun _ => obj_lift (Err OutOfFuel) | S depth => ProcessHeader (fill depth) end)
    (2 + left) (new_bytes junk FCGI_HEADER_LEN) 0.

(** In a call from [ProcessHeader] [eorStop] is set, and no header is read. *)
Definition FillBuffProc : F unit := fill 1.

(** ** Streams *)

(** What [AlignPtr8] adds to an address. *)
Definition AlignPtr8 (p : Z) : Z := Z.land (u64 (p + 7)) (2 ^ 64 - 1 - 7) - p.

(** [NewStream], with the address [malloc] gives to the buffer. *)
Definition NewStream (address size : Z) (reader : bool) (streamType : Z) : Stream :=
  let size := AlignInt8 (Z.min (Z.max size 32) (FCGI_MAX_LENGTH + 1)) in
  let offset := AlignPtr8 address in
  let size' := if offset =? 0 then size else size - 8 in
  let next := if reader then 0 else FCGI_HEADER_LEN in
  mkStream (if reader then 0 else size') (if reader then 0 else FCGI_HEADER_LEN) (if reader then 0 else size') 0
    reader false false 0 (new_bytes junk (size - offset)) size' (if reader then 0 else size') streamType false false 0 0 false false.

Definition NewReader (address size streamType : Z) : Stream := NewStream address size true streamType.
Definition NewWriter (address size streamType : Z) : Stream := NewStream address size false streamType.

(** [FCGX_CreateWriter]: the stream and its own request, of which the rest is not set. *)
Definition FCGX_CreateWriter (address : Z) (unset : Request) (id size streamType : Z) : Stream * Request :=
  (NewWriter address size streamType, unset <| requestId := id |> <| nWriters := 2 |>).

Definition SetReaderType (streamType : Z) : F unit :=
  s ← gets (fun s => s);
  if negb (isReader s) then obj_lift (undef "assertion")
  else on_stream (fun s => s <| stream_type := streamType |> <| eorStop := false |> <| skip := false |> <| contentLen := 0 |>
                             <| paddingLen := 0 |> <| wrNext := rdNext s |> <| stop := rdNext s |> <| isClosed := false |>).

Definition FCGX_StartFilterData : F Z :=
  w ← obj_get (fun w => w);
  let s := stream w in
  if negb (role (request w) =? FCGI_FILTER) || negb (isReader s) || negb (isClosed s) || negb (stream_type s =? FCGI_STDIN) then
    _ ← SetError FCGX_CALL_SEQ_ERROR; mret (-1)
  else _ ← SetReaderType FCGI_DATA; mret 0.

Definition FCGX_SetExitStatus (status : Z) : F unit := on_request (fun r => r <| appStatus := status |>).

(** ** Requests *)

(** [FCGX_Request] and the connections: the one that is open, those that wait to be
    accepted and those that were closed. *)
Record Server := mkServer {
  libInitialized : bool;
  req : Request;
  in_ : option Stream;
  out : option Stream;
  err : option Stream;
  paramsPtr : option Params;
  envp : list bytes;
  ipc : option Conn;
  waiting : list Conn;
  served : list Conn
}.

Abbreviation G := (Obj Server).

(** [address] is where [malloc] puts the buffer of a stream of some type. *)
Context (address : Z -> Z).

(** A function of one of the streams. *)
Definition on (get : Server -> option Stream) (put : Stream -> Server -> Server) {A} (m : F A) : G A := fun g =>
  match get g, ipc g with
  | Some s, Some c =>
      let '(r, w) := m (mkWorld s (req g) c) in
      (r, (put (stream w) g) <| req := request w |> <| ipc := Some (conn w) |>)
  | _, _ => (undef "null stream", g)
  end.
Definition on_in {A} : F A -> G A := on in_ (fun s g => g <| in_ := Some s |>).
Definition on_out {A} : F A -> G A := on out (fun s g => g <| out := Some s |>).
Definition on_err {A} : F A -> G A := on err (fun s g => g <| err := Some s |>).

(** [FCGX_FreeStream] of the three streams, [FreeParams] and [OS_IpcClose].  The strings
    of [envp] are freed with the parameters: there is nothing the client can read. *)
Definition FCGX_Free (close : bool) : G unit := obj_set (fun g =>
  let g := g <| in_ := None |> <| out := None |> <| err := None |> <| paramsPtr := None |> <| envp := [] |> in
  if close then g <| ipc := None |> <| served := served g ++ from_option (fun c => [c]) [] (ipc g) |> else g).

Definition FCGX_Finish_r : G unit :=
  g ← obj_get (fun g => g);
  let close := negb (keepConnection (req g)) in
  match in_ g with
  | None => FCGX_Free close
  | Some _ =>
      let close_stream (s : option Stream) (m : G Z) : G Z := match s with None => mret 0 | Some _ => m end in
      e ← close_stream (err g) (on_err FCGX_FClose);
      o ← close_stream (out g) (on_out FCGX_FClose);
      i ← on_in FCGX_GetError;
      FCGX_Free (close || negb (e =? 0) || negb (o =? 0) || negb (i =? 0))
  end.

(** The role as a parameter. *)
Definition role_string (r : Z) : option bytes :=
  if r =? FCGI_RESPONDER then Some (chars "FCGI_ROLE=RESPONDER")
  else if r =? FCGI_AUTHORIZER then Some (chars "FCGI_ROLE=AUTHORIZER")
  else if r =? FCGI_FILTER then Some (chars "FCGI_ROLE=FILTER")
  else None.

(** Reads the beginning of a request from the open connection: whether there is one. *)
Definition begin_request : G bool :=
  _ ← obj_set (fun g => g <| req := (req g) <| isBeginProcessed := false |> |>
                          <| in_ := Some (NewReader (address 0) 8192 0) |>);
  _ ← on_in FillBuffProc;
  g ← obj_get (fun g => g);
  if negb (isBeginProcessed (req g)) then mret false
  else
    match role_string (role (req g)) with
    | None => mret false
    | Some r =>
        p ← obj_lift (PutParam (NewParams 30) r);
        _ ← obj_set (fun g => g <| paramsPtr := Some p |>);
        _ ← on_in (SetReaderType FCGI_PARAMS);
        '(p, result) ← on_in (ReadParams FillBuffProc p);
        _ ← obj_set (fun g => g <| paramsPtr := Some p |>);
        mret (0 <=? result)
    end.

(** The loop over connections: an error of [OS_Accept] ends it. *)
Fixpoint accept_loop (fuel : nat) : G Z :=
  match fuel with
  | O => obj_lift (Err OutOfFuel)
  | S fuel =>
      g ← obj_get (fun g => g);
      connected ← (match ipc g, waiting g with
                   | Some _, _ => mret true
                   | None, [] => mret false
                   | None, c :: cs => _ ← obj_set (fun g => g <| ipc := Some c |> <| waiting := cs |>); mret true
                   end);
      if negb (connected : bool) then mret (if 0 <? OS_Errno then - OS_Errno else -9999)
      else
        accepted ← begin_request;
        if negb (accepted : bool) then _ ← FCGX_Free true; accept_loop fuel
        else
          _ ← on_in (SetReaderType FCGI_STDIN);
          _ ← obj_set (fun g =>
            g <| out := Some (NewWriter (address FCGI_STDOUT) 8192 FCGI_STDOUT) |>
              <| err := Some (NewWriter (address FCGI_STDERR) 512 FCGI_STDERR) |>
              <| req := (req g) <| nWriters := 2 |> |> <| envp := from_option vec [] (paramsPtr g) |>);
          mret 0
  end.

Definition FCGX_Accept_r : G Z :=
  g ← obj_get (fun g => g);
  if negb (libInitialized g) then mret (-9998)
  else
    _ ← FCGX_Finish_r;
    g ← obj_get (fun g => g);
    accept_loop (2 + length (waiting g)).

(** ** The library *)

(** The socket and the flags of the request are the operating system's. *)
Definition FCGX_InitRequest : G Z :=
  _ ← obj_set (fun g => mkServer (libInitialized g) (mkRequest 0 0 false false 0 0) None None None None [] None (waiting g) (served g));
  mret 0.

(** [OS_LibInit]: what the function returns. *)
Definition FCGX_Init (OS_LibInit : Z) : G Z :=
  g ← obj_get (fun g => g);
  if libInitialized g then mret 0
  else
    _ ← FCGX_InitRequest;
    if OS_LibInit =? -1 then mret (if OS_Errno =? 0 then -9997 else OS_Errno)
    else _ ← obj_set (fun g => g <| libInitialized := true |>); mret 0.

(** On the library's own request. *)
Definition FCGX_Accept (OS_LibInit : Z) : G Z :=
  g ← obj_get (fun g => g);
  rc ← (if libInitialized g then mret 0 else FCGX_Init OS_LibInit);
  if negb (rc =? 0) then mret rc else FCGX_Accept_r.

Definition FCGX_Finish : G unit := FCGX_Finish_r.

(** On the request of the library while the program has one of its own: of the latter
    nothing changes. *)
Definition own_request {A} (m : G A) : G A := fun g => let '(r, g') := m g in (r, g <| libInitialized := libInitialized g' |>).

(** [isFastCGI] is the global of that name, [fd] what [OS_CreateLocalIpcFd] returns. *)
Definition FCGX_OpenSocket (fd isFastCGI : Z) : Z * Z := (fd, if (fd =? 0) && (isFastCGI =? 0) then 1 else isFastCGI).

(** [inl] is a call of [exit]; [OS_IsFcgi] is what the function returns. *)
Definition FCGX_IsCGI (OS_LibInit OS_IsFcgi isFastCGI : Z) : G (Z + bool) :=
  if negb (isFastCGI =? -1) then mret (inr (isFastCGI =? 0))
  else
    g ← obj_get (fun g => g);
    rc ← (if libInitialized g then mret 0 else FCGX_Init OS_LibInit);
    mret (if negb (rc =? 0) then inl (if rc <? 0 then rc else - rc) else inr (OS_IsFcgi =? 0)).
End FCGX.
