(* ===== verification/FCGXRecords.v ===== *)
(** * The FastCGI protocol as it is specified

    Records and name-value pairs with their encoding and a reference decoder, which the
    proofs about the library ([FCGXWriter], [FCGXReader]) refer to, and the lemmas that
    tie them to the functions of [FCGX] that make and take headers. *)
From stdpp Require Import base strings list numbers.
From Stdlib Require Import ZArith Lia.
From coqutil Require Import Datatypes.RecordSetters.
From S2P Require Import Prelude Object CString RawTile FCGX.
Import TriangleBracketNotations.
#[local] Open Scope string_scope.
#[local] Open Scope list_scope.
#[local] Open Scope Z_scope.

(** ** Records *)

Record record := mkRecord { r_type : Z; r_id : Z; r_content : bytes; r_padding : bytes }.

Definition encode_record (r : record) : bytes :=
  [FCGI_VERSION_1; r_type r; r_id r / 256; r_id r mod 256; blen (r_content r) / 256; blen (r_content r) mod 256;
   blen (r_padding r); 0] ++ r_content r ++ r_padding r.

Definition encode_records (rs : list record) : bytes := mjoin (encode_record <$> rs).

(** What the fields of the header can hold. *)
Record record_ok (r : record) : Prop := {
  ok_type : 0 <= r_type r < 256;
  ok_id : 0 <= r_id r < 2 ^ 16;
  ok_content : blen (r_content r) < 2 ^ 16;
  ok_padding : blen (r_padding r) < 256
}.

(** The records of a stream of bytes that consists of whole records. *)
Fixpoint decode_records (fuel : nat) (b : bytes) : option (list record) :=
  match fuel with
  | O => None
  | S fuel =>
      match b with
      | [] => Some []
      | v :: t :: i1 :: i0 :: l1 :: l0 :: p :: _ :: b =>
          let n := Z.to_nat (256 * l1 + l0) in
          let p := Z.to_nat p in
          if (v =? FCGI_VERSION_1) && (n + p <=? length b)%nat then
            rs ← decode_records fuel (drop (n + p) b);
            Some (mkRecord t (256 * i1 + i0) (take n b) (take p (drop n b)) :: rs)
          else None
      | _ => None
      end
  end.

Lemma encode_records_app a b : encode_records (a ++ b) = encode_records a ++ encode_records b.
Proof. unfold encode_records. rewrite fmap_app, join_app. reflexivity. Qed.

Lemma encode_records_cons r rs : encode_records (r :: rs) = encode_record r ++ encode_records rs.
Proof. reflexivity. Qed.

Lemma encode_record_length r : blen (encode_record r) = 8 + blen (r_content r) + blen (r_padding r).
Proof. unfold encode_record. rewrite blen_app, blen_app. change (blen [_; _; _; _; _; _; _; _]) with 8. lia. Qed.

(** Decoding inverts encoding. *)
Lemma decode_encode_records rs fuel :
  Forall record_ok rs -> (length rs < fuel)%nat -> decode_records fuel (encode_records rs) = Some rs.
Proof.
  intros Hok. revert fuel. induction Hok as [|r rs [Ht Hi Hc Hp] Hok IH]; intros fuel Hf.
  - destruct fuel; [cbn in Hf; lia|reflexivity].
  - destruct fuel as [|fuel]; [lia|]. rewrite encode_records_cons. unfold encode_record. rewrite <- !app_assoc.
    cbn [app decode_records]. pose proof (Z.div_mod (blen (r_content r)) 256 ltac:(lia)) as E.
    replace (256 * (blen (r_content r) / 256) + blen (r_content r) mod 256) with (blen (r_content r)) by lia.
    change (FCGI_VERSION_1 =? FCGI_VERSION_1) with true. cbn [andb].
    assert (El : Z.to_nat (blen (r_content r)) = length (r_content r) /\ Z.to_nat (blen (r_padding r)) = length (r_padding r))
      by (unfold blen; lia). destruct El as [-> ->].
    rewrite !length_app. rewrite (proj2 (Nat.leb_le _ _)) by lia.
    rewrite <- drop_drop, !drop_app_length. rewrite IH by (cbn in Hf; lia). cbn.
    rewrite !take_app_length. f_equal. f_equal.
    destruct r; cbn in *. f_equal. pose proof (Z.div_mod r_id0 256 ltac:(lia)). lia.
Qed.

(** ** Name-value pairs *)

(** A length below 128 is one byte, others four. *)
Definition encode_length (n : Z) : bytes :=
  if n <? 128 then [n] else [128 + n / 2 ^ 24; n / 2 ^ 16 mod 256; n / 2 ^ 8 mod 256; n mod 256].

Definition encode_pair (p : bytes * bytes) : bytes :=
  encode_length (blen p.1) ++ encode_length (blen p.2) ++ p.1 ++ p.2.

Definition encode_pairs (ps : list (bytes * bytes)) : bytes := mjoin (encode_pair <$> ps).

(** ** Headers *)

Lemma byte_of_8 v : 0 <= v < 2 ^ 16 -> byte_of v 8 = v / 256.
Proof.
  intros Hv. unfold byte_of. rewrite Z.shiftr_div_pow2 by lia. change 0xff with (Z.ones 8). rewrite Z.land_ones by lia.
  change (2 ^ 8) with 256. apply Z.mod_small. split; [apply Z.div_pos; lia|apply Z.div_lt_upper_bound; lia].
Qed.

Lemma byte_of_0 v : byte_of v 0 = v mod 256.
Proof. unfold byte_of. rewrite Z.shiftr_0_r. change 0xff with (Z.ones 8). rewrite Z.land_ones by lia. reflexivity. Qed.

(** The header the library makes is that of the record. *)
Lemma MakeHeader_ok type id (content padding : bytes) :
  0 <= type < 256 -> 0 <= id < 2 ^ 16 -> blen content < 2 ^ 16 -> blen padding < 256 ->
  exists h, MakeHeader type id (blen content) (blen padding) = Ok h
    /\ header_bytes h ++ content ++ padding = encode_record (mkRecord type id content padding)
    /\ blen (header_bytes h) = 8.
Proof.
  intros Ht Hi Hc Hp. pose proof (blen_nonneg content). pose proof (blen_nonneg padding). unfold MakeHeader, FCGI_MAX_LENGTH.
  rewrite !(proj2 (Z.leb_le _ _)) by lia. cbn [andb negb]. eexists. split; [reflexivity|]. split; [|reflexivity].
  unfold header_bytes, encode_record. cbn [version hdr_type requestIdB1 requestIdB0 contentLengthB1 contentLengthB0 paddingLength
    reserved r_type r_id r_content r_padding].
  rewrite !byte_of_8, !byte_of_0, !u8_small by lia. reflexivity.
Qed.

(** Clearing the low three bits of a word. *)
Lemma land_align w n : 3 <= w -> 0 <= n < 2 ^ w -> Z.land n (2 ^ w - 1 - 7) = n / 8 * 8.
Proof.
  intros Hw Hn. replace (2 ^ w - 1 - 7) with (Z.shiftl (Z.ones (w - 3)) 3).
  2: { rewrite Z.shiftl_mul_pow2, Z.ones_equiv by lia. replace (2 ^ w) with (2 ^ (w - 3) * 2 ^ 3) by (rewrite <- Z.pow_add_r by lia; f_equal; lia). lia. }
  apply Z.bits_inj'. intros k Hk. rewrite Z.land_spec, Z.shiftl_spec by lia.
  change 8 with (2 ^ 3). rewrite <- Z.shiftr_div_pow2, <- Z.shiftl_mul_pow2, Z.shiftl_spec, Z.testbit_ones by lia.
  destruct (Z.leb_spec 0 (k - 3)) as [H3|H3]; cbn [andb].
  - rewrite Z.shiftr_spec by lia. replace (k - 3 + 3) with k by lia. destruct (Z.ltb_spec (k - 3) (w - 3)); [apply andb_true_r|].
    rewrite andb_false_r. symmetry. destruct (Z.eq_dec n 0) as [->|]; [apply Z.testbit_0_l|]. apply Z.bits_above_log2; [lia|].
    apply Z.log2_lt_pow2; [lia|]. apply Z.lt_le_trans with (2 ^ w); [lia|]. apply Z.pow_le_mono_r; lia.
  - rewrite andb_false_r. symmetry. apply Z.testbit_neg_r. lia.
Qed.

Lemma AlignInt8_ok n : 0 <= n < 2 ^ 30 -> AlignInt8 n = (n + 7) / 8 * 8.
Proof.
  intros Hn. unfold AlignInt8. rewrite u32_small, (land_align 32) by lia.
  apply i32_small. pose proof (Z.mul_div_le (n + 7) 8 ltac:(lia)). pose proof (Z.div_pos (n + 7) 8 ltac:(lia) ltac:(lia)). lia.
Qed.

Lemma align_bounds n : 0 <= n < 2 ^ 30 -> n <= AlignInt8 n < n + 8 /\ AlignInt8 n mod 8 = 0.
Proof.
  intros Hn. rewrite AlignInt8_ok by exact Hn. pose proof (Z.div_mod (n + 7) 8 ltac:(lia)). pose proof (Z.mod_pos_bound (n + 7) 8 ltac:(lia)).
  split; [lia|]. apply Z.mod_mul. lia.
Qed.

(** An aligned address is less than eight bytes further on. *)
Lemma AlignPtr8_range p : 0 <= p < 2 ^ 63 -> 0 <= AlignPtr8 p < 8.
Proof.
  intros Hp. unfold AlignPtr8. rewrite u64_small, (land_align 64) by lia.
  pose proof (Z.div_mod (p + 7) 8 ltac:(lia)). pose proof (Z.mod_pos_bound (p + 7) 8 ltac:(lia)). lia.
Qed.

(** The buffer of a new stream. *)
Lemma NewStream_size junk address size reader type :
  0 <= address < 2 ^ 63 ->
  exists n, bufflen (NewStream junk address size reader type) = n /\ n mod 8 = 0 /\ 24 <= n <= 2 ^ 16
    /\ n <= blen (buff (NewStream junk address size reader type)).
Proof.
  intros Had. set (n := Z.min (Z.max size 32) (FCGI_MAX_LENGTH + 1)). assert (32 <= n <= 2 ^ 16) by (unfold n, FCGI_MAX_LENGTH; lia).
  assert (Hal : 32 <= AlignInt8 n <= 2 ^ 16 /\ AlignInt8 n mod 8 = 0).
  { destruct (align_bounds n ltac:(lia)) as [[] ?]. rewrite AlignInt8_ok in * by lia. split; [|assumption]. split; [lia|].
    change (2 ^ 16) with (8192 * 8). apply Z.mul_le_mono_nonneg_r; [lia|]. apply Z.lt_succ_r, Z.div_lt_upper_bound; lia. }
  destruct Hal as [Hal Hmod]. pose proof (AlignPtr8_range address Had) as Hoff. set (off := AlignPtr8 address) in *.
  assert (Hb : blen (new_bytes junk (AlignInt8 n - off)) = AlignInt8 n - off) by (rewrite blen_new_bytes; lia).
  exists (if off =? 0 then AlignInt8 n else AlignInt8 n - 8). split; [reflexivity|].
  change (buff (NewStream junk address size reader type)) with (new_bytes junk (AlignInt8 n - off)). rewrite Hb.
  destruct (Z.eqb_spec off 0); [auto with lia|]. split; [|lia].
  replace (AlignInt8 n - 8) with (AlignInt8 n + (-1) * 8) by lia. rewrite Z.mod_add by lia. exact Hmod.
Qed.
