(* ===== verification/FCGXWriter.v ===== *)
(** * Correctness of the output streams

    What is put into a stream, in whatever pieces and with whatever flushes in between,
    reaches the connection as records of the protocol whose contents are the bytes that
    were put, followed by the records that close the stream and the request. *)
From stdpp Require Import base strings list numbers.
From Stdlib Require Import ZArith Lia.
From coqutil Require Import Datatypes.RecordSetters.
From S2P Require Import Prelude Object CString RawTile FCGX FCGXRecords.
Import TriangleBracketNotations.
#[local] Open Scope string_scope.
#[local] Open Scope list_scope.
#[local] Open Scope Z_scope.

(** ** Steps *)

Lemma F_gets {A B} (f : Stream -> A) (k : A -> F B) s r c :
  (gets f ≫= k) (mkWorld s r c) = k (f s) (mkWorld s r c).
Proof. reflexivity. Qed.

Lemma F_gets_world {A B} (f : Stream -> A) (k : A -> F B) w : (gets f ≫= k) w = k (f (stream w)) w.
Proof. reflexivity. Qed.

Lemma F_stream {B} f (k : unit -> F B) s r c : (on_stream f ≫= k) (mkWorld s r c) = k tt (mkWorld (f s) r c).
Proof. reflexivity. Qed.

Lemma F_request {B} f (k : unit -> F B) s r c : (on_request f ≫= k) (mkWorld s r c) = k tt (mkWorld s (f r) c).
Proof. reflexivity. Qed.

Section Writer.
Context (OS_Errno : Z).

(** A connection whose writes succeed, each taking what it likes. *)
Definition writable (c : Conn) : Prop := Forall is_Some (accepts c).

Definition add_written (c : Conn) (a : list (option Z)) (b : bytes) : Conn := mkConn (incoming c) a (written c ++ b).

Lemma write_loop_ok fuel b s r c :
  writable c -> (length (accepts c) + 2 <= fuel)%nat ->
  exists a, write_loop fuel b (mkWorld s r c) = (Ok 0, mkWorld s r (add_written c a b)) /\ Forall is_Some a.
Proof.
  revert b c. induction fuel as [|fuel IH]; intros b c Hw Hf; [lia|]. cbn [write_loop].
  destruct (Z.eqb_spec (blen b) 0) as [E|E].
  { exists (accepts c). rewrite (blen_zero b E). unfold add_written. rewrite app_nil_r. destruct c. auto. }
  pose proof (blen_nonneg b). unfold writable in Hw. unfold mbind at 1, Obj_bind at 1, OS_Write. cbn [conn].
  destruct (accepts c) as [|[n|] a] eqn:Ea; [| |inversion Hw as [|? ? [? Hn]]; discriminate Hn].
  - rewrite (proj2 (Z.ltb_ge _ _)) by lia. unfold blen at 1. rewrite Nat2Z.id, drop_all.
    destruct fuel as [|fuel]; [cbn in Hf; lia|]. cbn [write_loop]. exists []. auto.
  - set (m := Z.max 0 (Z.min n (blen b))). rewrite (proj2 (Z.ltb_ge _ _)) by lia.
    inversion Hw as [|? ? _ Hw']. subst.
    destruct (IH (drop (Z.to_nat m) b) (mkConn (incoming c) a (written c ++ take (Z.to_nat m) b))) as (a' & E' & Ha');
      [exact Hw'|cbn in Hf |- *; lia|].
    exists a'. cbn [stream request]. rewrite E'. split; [|exact Ha']. unfold add_written. cbn [incoming written]. rewrite <- app_assoc, take_drop. reflexivity.
Qed.

Lemma write_it_all_ok b s r c :
  writable c ->
  exists a, write_it_all b (mkWorld s r c) = (Ok 0, mkWorld s r (add_written c a b)) /\ Forall is_Some a.
Proof. intros Hw. unfold write_it_all. rewrite obj_get_bind. apply write_loop_ok; [exact Hw|cbn; lia]. Qed.

(** ** Putting bytes

    For any invariant [P] of the bytes that were put: there is room for what the buffer
    says there is, and emptying the buffer makes some. *)
Section Put.
Context (P : bytes -> World -> Prop).
Context (Hopen : forall d w, P d w ->
  isClosed (stream w) = false /\ isReader (stream w) = false /\ wrNext (stream w) <= stop (stream w)).
Context (Hput : forall d b w, P d w -> blen b <= stop (stream w) - wrNext (stream w) ->
  exists w', put_bytes b w = (Ok tt, w') /\ P (d ++ b) w').
Context (Hempty : forall d w, P d w ->
  exists w', EmptyBuff OS_Errno w = (Ok tt, w') /\ P d w' /\ wrNext (stream w') < stop (stream w')).

Lemma put_loop_ok fuel n d str w :
  P d w -> 0 < blen str ->
  (length str + (if (wrNext (stream w) =? stop (stream w))%Z then 2 else 1) <= fuel)%nat ->
  exists w', put_loop OS_Errno fuel n (n - blen str) str w = (Ok n, w') /\ P (d ++ str) w'.
Proof.
  revert d str w. induction fuel as [|fuel IH]; intros d str w HP Hs Hf; [destruct (_ =? _); lia|].
  cbn [put_loop]. unfold gets at 1. rewrite obj_get_bind. destruct (Hopen d w HP) as (Hc & Hr & Hle).
  rewrite Hc, Hr. cbn [orb]. set (room := stop (stream w) - wrNext (stream w)).
  assert (Hnext : forall k str' w1, P (d ++ take k str) w1 -> str' = drop k str -> 0 < blen str' ->
    (length str' + 1 <= fuel)%nat ->
    exists w', (_ ← EmptyBuff OS_Errno; put_loop OS_Errno fuel n (n - blen str') str') w1 = (Ok n, w') /\ P (d ++ str) w').
  { intros k str' w1 H1 -> H2 H3. destruct (Hempty _ _ H1) as (w2 & E2 & P2 & Hlt). rewrite (obj_bind_val _ _ _ _ _ E2).
    destruct (IH (d ++ take k str) (drop k str) w2 P2 H2) as (w' & E' & P').
    { rewrite (proj2 (Z.eqb_neq _ _)) by lia. exact H3. }
    exists w'. split; [exact E'|]. rewrite <- app_assoc, take_drop in P'. exact P'. }
  destruct (Z.eqb_spec (wrNext (stream w)) (stop (stream w))) as [E|E]; cbn [negb andb].
  - rewrite obj_ret_bind. rewrite Z.add_0_r. change (Z.to_nat 0) with 0%nat. rewrite drop_0.
    apply (Hnext 0%nat); [rewrite take_0, app_nil_r; exact HP|rewrite drop_0; reflexivity|exact Hs|lia].
  - assert (Em : Z.min (n - (n - blen str)) room = Z.min (blen str) room) by lia. rewrite Em.
    set (m := Z.min (blen str) room) in *. assert (0 < m) by lia.
    assert (El : blen (take (Z.to_nat m) str) = m) by (unfold blen in *; rewrite length_take; lia).
    destruct (Hput d (take (Z.to_nat m) str) w HP) as (w1 & E1 & P1); [fold room; lia|].
    rewrite (obj_bind_val _ _ _ _ _ E1). destruct (Z.eqb_spec (n - blen str + m) n) as [En|En].
    + exists w1. rewrite En. split; [reflexivity|]. rewrite take_ge in P1 by (unfold blen in *; lia). exact P1.
    + assert (Ed : blen (drop (Z.to_nat m) str) = blen str - m) by (unfold blen in *; rewrite length_drop; lia).
      replace (n - blen str + m) with (n - blen (drop (Z.to_nat m) str)) by lia.
      apply (Hnext (Z.to_nat m)); [exact P1|reflexivity|lia|unfold blen in *; lia].
Qed.

Lemma PutStr_ok d str w :
  P d w -> exists w', FCGX_PutStr OS_Errno str w = (Ok (blen str), w') /\ P (d ++ str) w'.
Proof.
  intros HP. unfold FCGX_PutStr, gets. rewrite obj_get_bind. destruct (Hopen d w HP) as (Hc & Hr & Hle). cbv zeta.
  destruct (Z.leb_spec (blen str) (stop (stream w) - wrNext (stream w))) as [H|H].
  - destruct (Hput d str w HP H) as (w' & E & P'). rewrite (obj_bind_val _ _ _ _ _ E). exists w'. auto.
  - rewrite <- (Z.sub_diag (blen str)). apply put_loop_ok; [exact HP|lia|destruct (_ =? _); lia].
Qed.

Lemma PutChar_ok d c w :
  P d w -> exists w', FCGX_PutChar OS_Errno c w = (Ok (u8 c), w') /\ P (d ++ [u8 c]) w'.
Proof.
  intros HP. unfold FCGX_PutChar, gets. rewrite obj_get_bind. destruct (Hopen d w HP) as (Hc & Hr & Hle). rewrite Hc, Hr. cbn [orb].
  assert (G : forall w, P d w -> wrNext (stream w) < stop (stream w) ->
    exists w', (_ ← put_bytes [u8 c]; mret (u8 c)) w = (Ok (u8 c), w') /\ P (d ++ [u8 c]) w').
  { intros w1 P1 Hlt. destruct (Hput d [u8 c] w1 P1) as (w' & E & P'); [change (blen [u8 c]) with 1; lia|].
    rewrite (obj_bind_val _ _ _ _ _ E). exists w'. auto. }
  destruct (Z.eqb_spec (wrNext (stream w)) (stop (stream w))) as [E|E]; cbn [negb].
  - destruct (Hempty d w HP) as (w1 & E1 & P1 & Hlt). rewrite (obj_bind_val _ _ _ _ _ E1), obj_get_bind.
    rewrite (proj2 (Z.eqb_neq _ _)) by lia. cbn [negb]. apply G; [exact P1|exact Hlt].
  - apply G; [exact HP|lia].
Qed.
End Put.

(** ** The state of a writer *)

(** A record of stream data: of this stream and request, not empty, and a multiple of
    eight bytes long. *)
Record data_record (T ID : Z) (r : record) : Prop := {
  dr_type : r_type r = T;
  dr_id : r_id r = ID;
  dr_some : 0 < blen (r_content r) < 2 ^ 16;
  dr_padding : blen (r_padding r) < 8;
  dr_aligned : blen (encode_record r) mod 8 = 0
}.

(** The buffer: room for a header, the bytes that wait, and the rest. *)
Record writer (size T : Z) (pending : bytes) (s : Stream) : Prop := {
  wr_reader : isReader s = false;
  wr_closed : isClosed s = false;
  wr_raw : rawWrite s = false;
  wr_errno : FCGI_errno s = 0;
  wr_fclose : wasFCloseCalled s = false;
  wr_stop : stop s = size;
  wr_type : stream_type s = T;
  wr_next : wrNext s = 8 + blen pending;
  wr_fits : wrNext s <= size;
  wr_size : size mod 8 = 0 /\ 24 <= size <= 2 ^ 16;
  wr_buff : exists hdr rest, buff s = hdr ++ pending ++ rest /\ blen hdr = 8 /\ size <= blen (buff s)
}.

(** The request of the stream, the bytes that were on the connection before and the
    bytes that were put since. *)
Context (T ID : Z) (rq : Request) (before : bytes) (inc : list (option bytes)).
Context (HT : 0 <= T < 256) (HID : requestId rq = ID) (HID' : 0 <= ID < 2 ^ 16).

Definition writing (d : bytes) (w : World) : Prop :=
  exists size pending recs a,
    writer size T pending (stream w) /\ (isAnythingWritten (stream w) = negb (bool_decide (recs = [])))
    /\ request w = rq /\ conn w = mkConn inc a (before ++ encode_records recs) /\ Forall is_Some a
    /\ Forall (data_record T ID) recs /\ mjoin (r_content <$> recs) ++ pending = d.

Lemma writing_open d w : writing d w ->
  isClosed (stream w) = false /\ isReader (stream w) = false /\ wrNext (stream w) <= stop (stream w).
Proof.
  intros (size & pending & recs & a & Hw & _). rewrite (wr_stop _ _ _ _ Hw). destruct Hw. auto.
Qed.

Lemma put_bytes_buff (s : Stream) r c hdr rest b k :
  buff s = hdr ++ rest -> wrNext s = blen hdr -> k = blen b -> wrNext s + k <= blen (buff s) ->
  put_bytes b (mkWorld s r c)
  = (Ok tt, mkWorld (s <| buff := hdr ++ b ++ drop (length b) rest |> <| wrNext := wrNext s + k |>) r c).
Proof.
  intros Hb Hn -> Hl. unfold put_bytes. rewrite F_gets. rewrite Hb in *. rewrite blen_app in Hl.
  rewrite <- (take_drop (length b) rest) at 1. rewrite memcpy_block.
  - rewrite obj_lift_bind. reflexivity.
  - exact Hn.
  - unfold blen in *. rewrite length_take. lia.
Qed.

Lemma writing_put d b w : writing d w -> blen b <= stop (stream w) - wrNext (stream w) ->
  exists w', put_bytes b w = (Ok tt, w') /\ writing (d ++ b) w'.
Proof.
  intros (size & pending & recs & a & Hw & Hany & Hrq & Hc & Ha & Hr & Hd) Hb. destruct w as [s r c]. cbn [stream request conn] in *.
  pose proof Hw as []. destruct wr_buff0 as (hdr & rest & Eb & Eh & Hl). rewrite wr_stop0 in Hb.
  rewrite (put_bytes_buff s r c (hdr ++ pending) rest b (blen b)); [|rewrite Eb, app_assoc; reflexivity|rewrite blen_app; lia|reflexivity|lia].
  eexists. split; [reflexivity|]. exists size, (pending ++ b), recs, a. cbn [stream request conn].
  split; [|split_and!; try assumption; rewrite (app_assoc _ pending b), Hd; reflexivity].
  constructor; try assumption; cbn; unfold constant; rewrite ?blen_app; try lia.
  exists hdr, (drop (length b) rest). rewrite <- !app_assoc. split; [reflexivity|]. split; [exact Eh|].
  rewrite Eb in Hl. unfold blen in *. rewrite !length_app in *. rewrite length_drop. lia.
Qed.

(** Framing makes a record of the bytes that wait. *)
Lemma frame_ok size pending s r c :
  writer size T pending s -> requestId r = ID -> 0 < blen pending ->
  exists pad rest, let rec := mkRecord T ID pending pad in
    frame (mkWorld s r c)
    = (Ok tt, mkWorld (s <| wrNext := blen (encode_record rec) |> <| buff := encode_record rec ++ rest |>) r c)
    /\ data_record T ID rec /\ size <= blen (encode_record rec ++ rest) /\ blen (encode_record rec) <= size.
Proof.
  intros Hw Hid Hp. pose proof Hw as []. destruct wr_buff0 as (hdr & rest & Eb & Eh & Hl). destruct wr_size0 as [Hm Hs].
  pose proof (align_bounds (blen pending) ltac:(lia)) as [Hal Hmod]. set (n := AlignInt8 (blen pending)) in *.
  set (pad := replicate (Z.to_nat (n - blen pending)) 0). assert (Epad : blen pad = n - blen pending) by (apply blen_replicate; lia).
  assert (Hfit : 8 + n <= size).
  { pose proof (Z.div_mod n 8 ltac:(lia)). pose proof (Z.div_mod size 8 ltac:(lia)). lia. }
  destruct (MakeHeader_ok T ID pending pad) as (h & Eh' & Eenc & Elen); [lia|lia|lia|lia|].
  exists pad, (drop (length pad) rest). cbv zeta.
  assert (Hlen : blen (encode_record (mkRecord T ID pending pad)) = 8 + n) by (rewrite encode_record_length; cbn; lia).
  rewrite Eb in Hl. rewrite !blen_app in Hl.
  split; [|split; [|split]].
  - unfold frame. rewrite F_gets, wr_raw0, wr_next0. replace (8 + blen pending - FCGI_HEADER_LEN) with (blen pending) by (unfold FCGI_HEADER_LEN; lia).
    rewrite i32_small by lia. rewrite (proj2 (Z.ltb_lt _ _)) by lia. fold n pad. cbv zeta.
    rewrite Eb, app_assoc. rewrite <- (take_drop (length pad) rest) at 1. rewrite <- Epad.
    rewrite memcpy_block; [|rewrite blen_app; lia|unfold blen in *; rewrite length_take; lia].
    rewrite obj_lift_bind, obj_get_bind. cbn [request]. rewrite Hid, wr_type0, Eh', obj_lift_bind.
    rewrite <- app_assoc. change (hdr ++ pending ++ pad ++ drop (length pad) rest) with ([] ++ hdr ++ (pending ++ pad ++ drop (length pad) rest)).
    replace FCGI_HEADER_LEN with (blen (header_bytes h)) by exact Elen.
    rewrite memcpy_block; [|reflexivity|lia]. rewrite obj_lift_bind. unfold on_stream, obj_set. cbn [stream request conn app].
    rewrite Hlen, wr_next0, <- Eenc, <- !app_assoc. replace (8 + blen pending + blen pad) with (8 + n) by lia. reflexivity.
  - constructor; cbn [r_type r_id r_content r_padding]; try lia; try reflexivity. rewrite Hlen.
    rewrite <- Z.add_mod_idemp_r, Hmod by lia. reflexivity.
  - rewrite blen_app, Hlen. unfold blen in *. rewrite length_drop. lia.
  - lia.
Qed.

(** Sending writes the bytes of the buffer out. *)
Lemma send_ok s r c out rest :
  writable c -> buff s = out ++ rest -> wrNext s = blen out ->
  exists a, send OS_Errno (mkWorld s r c)
    = (Ok tt, mkWorld (s <| isAnythingWritten := isAnythingWritten s || negb (bool_decide (out = [])) |>
                         <| wrNext := if rawWrite s then 0 else 8 |>) r (add_written c a out))
    /\ Forall is_Some a.
Proof.
  intros Hc Hb Hn. unfold send. rewrite F_gets. cbv zeta. destruct (Z.eqb_spec (wrNext s) 0) as [E|E].
  - rewrite E in Hn. assert (out = []) as -> by (apply blen_zero; lia). exists (accepts c). split; [|exact Hc].
    rewrite obj_ret_bind. cbn [negb app]. rewrite orb_false_r. unfold add_written. rewrite app_nil_r.
    destruct s as [? ? ? ? ? ? ? ? ? ? ? ? ? ? ? ? ? raw], c; cbn in E |- *; subst; destruct raw; reflexivity.
  - destruct (write_it_all_ok out (s <| isAnythingWritten := true |>) r c Hc) as (a & Ea & Ha). exists a. split; [|exact Ha].
    assert (out <> []) by (intros ->; apply E; rewrite Hn; reflexivity). rewrite (bool_decide_eq_false_2 (out = [])) by assumption.
    rewrite orb_true_r. unfold mbind at 1, Obj_bind at 1. rewrite F_stream.
    rewrite Hb, take_blen_app by exact Hn. rewrite (obj_bind_val _ _ _ _ _ Ea). change (0 <? 0) with false. cbv iota.
    rewrite F_stream. cbn [mret Obj_ret negb]. destruct (rawWrite s) eqn:Er; [reflexivity|].
    unfold on_stream, obj_set. cbn [stream request conn]. reflexivity.
Qed.

Lemma writing_empty d w : writing d w ->
  exists w', EmptyBuff OS_Errno w = (Ok tt, w') /\ writing d w' /\ wrNext (stream w') < stop (stream w').
Proof.
  intros (size & pending & recs & a & Hw & Hany & Hrq & Hc & Ha & Hr & Hd). destruct w as [s r c]. cbn [stream request conn] in *.
  pose proof Hw as []. destruct wr_size0 as [Hm Hs]. unfold EmptyBuff. destruct (decide (pending = [])) as [->|Hp].
  - destruct wr_buff0 as (hdr & rest & Eb & Eh & Hl).
    destruct (send_ok (s <| wrNext := 0 |>) r c [] (buff s)) as (a' & E & Ha'); [subst; exact Ha|reflexivity|reflexivity|].
    eexists. split.
    + unfold frame. rewrite (obj_bind_val _ _ _ tt (mkWorld (s <| wrNext := 0 |>) r c)); [exact E|].
      rewrite F_gets, wr_raw0, wr_next0. reflexivity.
    + change (rawWrite (s <| wrNext := 0 |>)) with (rawWrite s). rewrite wr_raw0. split; [|change (8 < stop s); lia].
      exists size, [], recs, a'. cbn [stream request conn].
      split; [|split_and!; try assumption].
      * constructor; try assumption; cbn; unfold constant; try lia; [reflexivity|].
        exists hdr, rest. auto.
      * change (isAnythingWritten s || false = negb (bool_decide (recs = []))). rewrite Hany. apply orb_false_r.
      * cbn. subst c. unfold add_written. cbn. rewrite app_nil_r. reflexivity.
  - destruct (frame_ok size pending s r c Hw) as (pad & rest & Ef & Hdr & Hl & Hle); [subst; reflexivity| |].
    { destruct (Z.eq_dec (blen pending) 0) as [E|E]; [destruct (Hp (blen_zero _ E))|]. pose proof (blen_nonneg pending). lia. }
    set (rec := mkRecord T ID pending pad) in *. rewrite (obj_bind_val _ _ _ _ _ Ef).
    set (s1 := s <| wrNext := _ |> <| buff := _ |>).
    destruct (send_ok s1 r c (encode_record rec) rest) as (a' & E & Ha'); [subst; exact Ha|reflexivity|reflexivity|].
    eexists. split; [exact E|]. change (rawWrite s1) with (rawWrite s). rewrite wr_raw0.
    split; [|change (8 < stop s); lia]. exists size, [], (recs ++ [rec]), a'. cbn [stream request conn].
    split; [|split_and!; try assumption].
    + constructor; try assumption; cbn -[encode_record]; unfold constant; try lia; [reflexivity|].
      pose proof (encode_record_length rec). exists (take 8 (encode_record rec ++ rest)), (drop 8 (encode_record rec ++ rest)).
      rewrite take_drop. split; [reflexivity|]. split; [|exact Hl]. unfold blen in *. rewrite length_take, length_app. lia.
    + change (isAnythingWritten s || negb (bool_decide (encode_record rec = [])) = negb (bool_decide (recs ++ [rec] = []))).
      rewrite !bool_decide_eq_false_2; [apply orb_true_r|intros Hx; destruct recs; discriminate Hx|discriminate].
    + subst c. unfold add_written. cbn [accepts incoming written]. rewrite encode_records_app. unfold encode_records at 3.
      cbn [fmap list_fmap mjoin list_join]. rewrite app_nil_r, app_assoc. reflexivity.
    + apply Forall_app. split; [exact Hr|]. constructor; [exact Hdr|constructor].
    + rewrite fmap_app, join_app, app_nil_r. cbn. rewrite app_nil_r. exact Hd.
Qed.

(** ** Closing *)

(** The buffer without a header. *)
Record raw_writer (size : Z) (pending : bytes) (s : Stream) : Prop := {
  rw_reader : isReader s = false;
  rw_closed : isClosed s = false;
  rw_raw : rawWrite s = true;
  rw_errno : FCGI_errno s = 0;
  rw_fclose : wasFCloseCalled s = false;
  rw_stop : stop s = size;
  rw_next : wrNext s = blen pending;
  rw_fits : wrNext s <= size;
  rw_size : 24 <= size;
  rw_buff : exists rest, buff s = pending ++ rest /\ size <= blen (buff s)
}.

Definition raw_writing (d : bytes) (w : World) : Prop :=
  exists size pending out a,
    raw_writer size pending (stream w) /\ request w = rq /\ conn w = mkConn inc a (before ++ out)
    /\ Forall is_Some a /\ out ++ pending = d.

Lemma raw_open d w : raw_writing d w ->
  isClosed (stream w) = false /\ isReader (stream w) = false /\ wrNext (stream w) <= stop (stream w).
Proof. intros (size & pending & out & a & Hw & _). rewrite (rw_stop _ _ _ Hw). destruct Hw. auto. Qed.

Lemma raw_put d b w : raw_writing d w -> blen b <= stop (stream w) - wrNext (stream w) ->
  exists w', put_bytes b w = (Ok tt, w') /\ raw_writing (d ++ b) w'.
Proof.
  intros (size & pending & out & a & Hw & Hrq & Hc & Ha & Hd) Hb. destruct w as [s r c]. cbn [stream request conn] in *.
  pose proof Hw as []. destruct rw_buff0 as (rest & Eb & Hl). rewrite rw_stop0 in Hb.
  rewrite (put_bytes_buff s r c pending rest b (blen b)) by (assumption || reflexivity || lia).
  eexists. split; [reflexivity|]. exists size, (pending ++ b), out, a. cbn [stream request conn].
  split; [|split_and!; try assumption; rewrite (app_assoc _ pending b), Hd; reflexivity].
  constructor; try assumption; cbn; unfold constant; rewrite ?blen_app; try lia.
  exists (drop (length b) rest). rewrite <- !app_assoc. split; [reflexivity|].
  rewrite Eb in Hl. unfold blen in *. rewrite !length_app in *. rewrite length_drop. lia.
Qed.

Lemma raw_empty d w : raw_writing d w ->
  exists w', EmptyBuff OS_Errno w = (Ok tt, w') /\ raw_writing d w' /\ wrNext (stream w') = 0 /\ 0 < stop (stream w').
Proof.
  intros (size & pending & out & a & Hw & Hrq & Hc & Ha & Hd). destruct w as [s r c]. cbn [stream request conn] in *.
  pose proof Hw as []. destruct rw_buff0 as (rest & Eb & Hl).
  destruct (send_ok s r c pending rest) as (a' & E & Ha'); [subst; exact Ha|exact Eb|exact rw_next0|].
  eexists. split.
  - unfold EmptyBuff, frame. unfold mbind at 1, Obj_bind at 1. rewrite F_gets. rewrite rw_raw0. exact E.
  - rewrite rw_raw0. split; [|split; [reflexivity|change (0 < stop s); lia]]. exists size, [], (out ++ pending), a'. cbn [stream request conn].
    split; [|split_and!; try assumption].
    + constructor; try assumption; cbn; unfold constant; try lia; [reflexivity|]. exists (buff s). split; [reflexivity|exact Hl].
    + subst c. unfold add_written. cbn [accepts incoming written]. rewrite app_assoc. reflexivity.
    + rewrite app_nil_r. exact Hd.
Qed.

Lemma raw_PutStr d str w : raw_writing d w ->
  exists w', FCGX_PutStr OS_Errno str w = (Ok (blen str), w') /\ raw_writing (d ++ str) w'.
Proof.
  apply (PutStr_ok raw_writing raw_open raw_put). intros d' w' Hw. destruct (raw_empty d' w' Hw) as (w1 & E & H1 & H2 & H3).
  exists w1. rewrite H2. auto.
Qed.

(** The records that close a stream and, when it is the last one, the request. *)
Definition close_records (d : bytes) : list record :=
  (if (T =? FCGI_STDERR) && bool_decide (d = []) then [] else [mkRecord T ID [] []])
  ++ (if nWriters rq =? 1 then [mkRecord FCGI_END_REQUEST ID (MakeEndRequestBody (appStatus rq) FCGI_REQUEST_COMPLETE) []] else []).

Lemma header_put e type content w :
  0 <= type < 256 -> blen content < 2 ^ 16 -> raw_writing e w ->
  exists w', (h ← obj_lift (MakeHeader type ID (blen content) 0); _ ← FCGX_PutStr OS_Errno (header_bytes h ++ content); mret tt) w = (Ok tt, w')
    /\ raw_writing (e ++ encode_records [mkRecord type ID content []]) w'.
Proof.
  intros Ht Hc Hw. destruct (MakeHeader_ok type ID content [] Ht HID' Hc ltac:(reflexivity)) as (h & Eh & Eenc & _).
  rewrite blen_nil in Eh. rewrite Eh, obj_lift_bind. destruct (raw_PutStr e (header_bytes h ++ content) w Hw) as (w' & E & H').
  rewrite (obj_bind_val _ _ _ _ _ E). exists w'. split; [reflexivity|]. rewrite encode_records_cons, <- Eenc, !app_nil_r. exact H'.
Qed.

Lemma WriteCloseRecords_ok d e s c :
  raw_writing e (mkWorld (s <| rawWrite := true |>) rq c) -> stream_type s = T ->
  (wrNext s =? 0) && negb (isAnythingWritten s) = bool_decide (d = []) ->
  exists s' c', WriteCloseRecords OS_Errno (mkWorld s rq c)
      = (Ok tt, mkWorld s' (rq <| nWriters := i32 (nWriters rq - 1) |>) c')
    /\ raw_writing (e ++ encode_records (close_records d)) (mkWorld s' rq c').
Proof.
  intros Hraw Ht Hd. unfold WriteCloseRecords. rewrite F_stream, F_gets, obj_get_bind. cbn [request].
  change (stream_type (s <| rawWrite := true |>)) with (stream_type s). change (wrNext (s <| rawWrite := true |>)) with (wrNext s).
  change (isAnythingWritten (s <| rawWrite := true |>)) with (isAnythingWritten s). rewrite <- andb_assoc, Hd, Ht, HID. unfold close_records.
  assert (Hfin : forall e w, raw_writing e w ->
    exists s' c', (_ ← (if nWriters rq =? 1 then
         h ← obj_lift (MakeHeader FCGI_END_REQUEST ID 8 0);
         _ ← FCGX_PutStr OS_Errno (header_bytes h ++ MakeEndRequestBody (appStatus rq) FCGI_REQUEST_COMPLETE); mret tt
       else mret tt); on_request (fun r => r <| nWriters := i32 (nWriters r - 1) |>)) w
      = (Ok tt, mkWorld s' (rq <| nWriters := i32 (nWriters rq - 1) |>) c')
      /\ raw_writing (e ++ encode_records (if nWriters rq =? 1 then [mkRecord FCGI_END_REQUEST ID (MakeEndRequestBody (appStatus rq) FCGI_REQUEST_COMPLETE) []] else []))
           (mkWorld s' rq c')).
  { assert (Hlast : forall e w, raw_writing e w -> exists s' c', on_request (fun r => r <| nWriters := i32 (nWriters r - 1) |>) w
        = (Ok tt, mkWorld s' (rq <| nWriters := i32 (nWriters rq - 1) |>) c') /\ raw_writing e (mkWorld s' rq c')).
    { intros e' [s1 r1 c1] H. pose proof H as (? & ? & ? & ? & _ & Er & _). cbn [request] in Er. subst r1. eexists _, _. split; [reflexivity|exact H]. }
    intros e' w Hw. destruct (nWriters rq =? 1).
    - destruct (header_put e' FCGI_END_REQUEST (MakeEndRequestBody (appStatus rq) FCGI_REQUEST_COMPLETE) w ltac:(vm_compute; auto; split; congruence)
        eq_refl Hw) as (w1 & E1 & H1). rewrite (obj_bind_val _ _ _ _ _ E1). apply (Hlast _ _ H1).
    - rewrite obj_ret_bind. rewrite app_nil_r. apply (Hlast _ _ Hw). }
  rewrite encode_records_app, app_assoc. destruct ((T =? FCGI_STDERR) && bool_decide (d = [])); cbn [negb].
  - rewrite obj_ret_bind, app_nil_r. apply Hfin, Hraw.
  - destruct (header_put e T [] _ HT eq_refl Hraw) as (w1 & E1 & H1). rewrite blen_nil in E1.
    assert (E2 : (h ← obj_lift (MakeHeader T ID 0 0); _ ← FCGX_PutStr OS_Errno (header_bytes h); mret tt)
        (mkWorld (s <| rawWrite := true |>) rq c) = (Ok tt, w1)).
    { rewrite <- E1. destruct (MakeHeader T ID 0 0); [|reflexivity]. rewrite !obj_lift_bind, app_nil_r. reflexivity. }
    rewrite (obj_bind_val _ _ _ _ _ E2). apply Hfin, H1.
Qed.

Lemma data_contents recs : Forall (data_record T ID) recs -> mjoin (r_content <$> recs) = [] -> recs = [].
Proof.
  intros [|r rs [_ _ [Hr _] _ _] _] H; [reflexivity|]. cbn in H. apply app_eq_nil in H as [H _]. rewrite H, blen_nil in Hr. lia.
Qed.

(** The last frame, with the stream in raw mode afterwards. *)
Lemma frame_closing d w : writing d w ->
  exists recs s1, frame w = (Ok tt, mkWorld s1 rq (conn w))
    /\ raw_writing (encode_records recs) (mkWorld (s1 <| rawWrite := true |>) rq (conn w))
    /\ Forall (data_record T ID) recs /\ mjoin (r_content <$> recs) = d
    /\ stream_type s1 = T /\ (wrNext s1 =? 0) && negb (isAnythingWritten s1) = bool_decide (d = []).
Proof.
  intros (size & pending & recs & a & Hw & Hany & Hrq & Hc & Ha & Hr & Hd). destruct w as [s r c]. cbn [stream request conn] in *. subst r.
  pose proof Hw as []. destruct wr_size0 as [Hm Hs]. destruct (decide (pending = [])) as [->|Hp].
  - destruct wr_buff0 as (hdr & rest & Eb & Eh & Hl). rewrite app_nil_r in Hd. exists recs, (s <| wrNext := 0 |>).
    split_and!; try assumption.
    + unfold frame. rewrite F_gets, wr_raw0, wr_next0. reflexivity.
    + exists size, [], (encode_records recs), a. cbn [stream request conn]. rewrite app_nil_r. split_and!; try assumption; [|reflexivity|reflexivity].
      constructor; try assumption; cbn; unfold constant; try lia; try reflexivity. exists (buff s). split; [reflexivity|exact Hl].
    + change (isAnythingWritten (s <| wrNext := 0 |>)) with (isAnythingWritten s). rewrite Hany, negb_involutive. cbn. subst d.
      apply bool_decide_ext. split; [intros ->; reflexivity|apply data_contents, Hr].
  - assert (0 < blen pending).
    { destruct (Z.eq_dec (blen pending) 0) as [E|E]; [destruct (Hp (blen_zero _ E))|]. pose proof (blen_nonneg pending). lia. }
    destruct (frame_ok size pending s rq c Hw) as (pad & rest & Ef & Hdr & Hl & Hle); [exact HID|assumption|].
    set (rec := mkRecord T ID pending pad) in *. eexists (recs ++ [rec]), _. split; [exact Ef|].
    set (s1 := s <| wrNext := _ |> <| buff := _ |>). split_and!.
    + exists size, (encode_record rec), (encode_records recs), a. cbn [stream request conn].
      split_and!; try assumption; [|reflexivity|rewrite encode_records_app; rewrite (encode_records_cons rec []); unfold encode_records at 3; cbn [fmap list_fmap mjoin list_join]; rewrite app_nil_r; reflexivity].
      constructor; try assumption; try reflexivity; [lia|]. exists rest. split; [reflexivity|exact Hl].
    + apply Forall_app. split; [exact Hr|]. constructor; [exact Hdr|constructor].
    + rewrite fmap_app, join_app. cbn. rewrite app_nil_r. exact Hd.
    + exact wr_type0.
    + change (wrNext s1) with (blen (encode_record rec)). pose proof (encode_record_length rec).
      pose proof (blen_nonneg (r_content rec)). pose proof (blen_nonneg (r_padding rec)). rewrite (proj2 (Z.eqb_neq _ _)) by lia.
      symmetry. apply bool_decide_eq_false_2. intros Hn. subst d. apply app_eq_nil in Hn as [_ Hn]. exact (Hp Hn).
Qed.

(** A stream that is closed was written completely: its records, then those that close
    it. *)
Lemma FClose_ok d w : writing d w ->
  exists recs a s', FCGX_FClose OS_Errno w
      = (Ok 0, mkWorld s' (rq <| nWriters := i32 (nWriters rq - 1) |>)
                 (mkConn inc a (before ++ encode_records (recs ++ close_records d))))
    /\ Forall (data_record T ID) recs /\ mjoin (r_content <$> recs) = d /\ Forall is_Some a.
Proof.
  intros Hw. destruct (frame_closing d w Hw) as (recs & s1 & Ef & Hraw & Hr & Hd & Ht & Hnone).
  destruct (WriteCloseRecords_ok d _ s1 (conn w) Hraw Ht Hnone) as (s2 & c2 & Ec & H2).
  destruct H2 as (size & pending & out & a & Hs & _ & Hc & Ha & Ho). cbn [stream conn] in *.
  pose proof Hs as []. destruct rw_buff0 as (rest & Eb & Hl).
  destruct (send_ok s2 (rq <| nWriters := i32 (nWriters rq - 1) |>) c2 pending rest) as (a' & E & Ha'); [subst; exact Ha|exact Eb|exact rw_next0|].
  assert (Hopen : wasFCloseCalled (stream w) = false /\ isReader (stream w) = false /\ FCGI_errno (stream w) = 0).
  { destruct Hw as (? & ? & ? & ? & [] & _). auto. }
  destruct Hopen as (Hcl & Hrd & He). exists recs, a'. eexists. split; [|auto].
  destruct w as [s r c]. cbn [stream request conn] in *. unfold FCGX_FClose. rewrite F_gets. cbv zeta. rewrite Hcl.
  assert (Ee : EmptyBuffProc OS_Errno true (mkWorld s r c) = send OS_Errno (mkWorld s2 (rq <| nWriters := i32 (nWriters rq - 1) |>) c2)).
  { unfold EmptyBuffProc. rewrite (obj_bind_val _ _ _ _ _ Ef). cbn [obj_when]. rewrite (obj_bind_val _ _ _ _ _ Ec). reflexivity. }
  rewrite E in Ee. unfold mbind at 1, Obj_bind at 1. rewrite Hrd. cbn [negb obj_when]. rewrite (obj_bind_val _ _ _ _ _ Ee).
  unfold on_stream at 1, obj_set at 1.
  cbn [stream request conn]. rewrite F_gets, rw_raw0.
  match goal with |- mret (if ?e =? 0 then _ else _) _ = _ => replace e with 0 by (rewrite <- rw_errno0; destruct (isReader _); reflexivity) end.
  unfold mret, Obj_ret. cbn [Z.eqb]. do 2 f_equal. subst c2. unfold add_written. cbn [incoming accepts written].
  rewrite encode_records_app, <- Ho, app_assoc. reflexivity.
Qed.

Lemma writing_PutStr d str w : writing d w ->
  exists w', FCGX_PutStr OS_Errno str w = (Ok (blen str), w') /\ writing (d ++ str) w'.
Proof. apply (PutStr_ok writing writing_open writing_put writing_empty). Qed.

Lemma writing_PutChar d c w : writing d w ->
  exists w', FCGX_PutChar OS_Errno c w = (Ok (u8 c), w') /\ writing (d ++ [u8 c]) w'.
Proof. apply (PutChar_ok writing writing_open writing_put writing_empty). Qed.

Lemma writing_FFlush d w : writing d w ->
  exists w', FCGX_FFlush OS_Errno w = (Ok 0, w') /\ writing d w'.
Proof.
  intros Hw. destruct (writing_open d w Hw) as (Hc & Hr & _). destruct (writing_empty d w Hw) as (w' & E & H' & _).
  exists w'. split; [|exact H']. unfold FCGX_FFlush, gets. rewrite obj_get_bind, Hc, Hr. cbn [orb].
  assert (Ee : EmptyBuffProc OS_Errno false w = (Ok tt, w')).
  { rewrite <- E. unfold EmptyBuff, EmptyBuffProc, mbind, Obj_bind. destruct (frame w) as [[] ?]; reflexivity. }
  rewrite (obj_bind_val _ _ _ _ _ Ee), obj_get_bind. destruct (writing_open d w' H') as (-> & _ & _). reflexivity.
Qed.

(** A new stream has nothing to write. *)
Lemma NewStream_writing junk address size a :
  0 <= address < 2 ^ 63 -> Forall is_Some a ->
  writing [] (mkWorld (NewStream junk address size false T) rq (mkConn inc a before)).
Proof.
  intros Had Ha. destruct (NewStream_size junk address size false T Had) as (n & Hl & Hm & Hn & Hb).
  exists n, [], [], a. cbn [stream request conn]. split_and!; try (reflexivity || assumption).
  2: { unfold encode_records. cbn. rewrite app_nil_r. reflexivity. }
  2: constructor.
  set (b := buff (NewStream junk address size false T)) in *. constructor; try reflexivity; try assumption; [change (8 <= n); lia|auto|].
  exists (take 8 b), (drop 8 b). cbn [app]. rewrite take_drop. split; [reflexivity|]. split; [unfold blen in *; rewrite length_take; lia|exact Hb].
Qed.
End Writer.

(** ** What a client of the stream does *)

Inductive put_op :=
| PutStr (b : bytes)
| PutS (s : string)
| PutChar (c : Z)
| Flush.

Definition put_op_bytes (op : put_op) : bytes :=
  match op with PutStr b => b | PutS s => chars (c_str s) | PutChar c => [u8 c] | Flush => [] end.

Definition run_put (OS_Errno : Z) (op : put_op) : F Z :=
  match op with
  | PutStr b => FCGX_PutStr OS_Errno b
  | PutS s => FCGX_PutS OS_Errno s
  | PutChar c => FCGX_PutChar OS_Errno c
  | Flush => FCGX_FFlush OS_Errno
  end.

Fixpoint run_puts (OS_Errno : Z) (ops : list put_op) : F unit :=
  match ops with [] => mret tt | op :: ops => _ ← run_put OS_Errno op; run_puts OS_Errno ops end.

Section Client.
Context (OS_Errno T ID : Z) (rq : Request) (before : bytes) (inc : list (option bytes)).
Context (HT : 0 <= T < 256) (HID : requestId rq = ID) (HID' : 0 <= ID < 2 ^ 16).

Lemma run_puts_writing ops d w : writing T ID rq before inc d w ->
  exists w', run_puts OS_Errno ops w = (Ok tt, w') /\ writing T ID rq before inc (d ++ mjoin (put_op_bytes <$> ops)) w'.
Proof.
  revert d w. induction ops as [|op ops IH]; intros d w Hw; cbn [run_puts fmap list_fmap mjoin list_join].
  - exists w. rewrite app_nil_r. auto.
  - assert (Hop : exists r w', run_put OS_Errno op w = (Ok r, w') /\ writing T ID rq before inc (d ++ put_op_bytes op) w').
    { destruct op as [b|s|c|]; cbn [run_put put_op_bytes].
      - destruct (writing_PutStr OS_Errno T ID rq before inc HT HID HID' d b w Hw) as (w' & E & H'). eauto.
      - destruct (writing_PutStr OS_Errno T ID rq before inc HT HID HID' d (chars (c_str s)) w Hw) as (w' & E & H'). eauto.
      - destruct (writing_PutChar OS_Errno T ID rq before inc HT HID HID' d c w Hw) as (w' & E & H'). eauto.
      - destruct (writing_FFlush OS_Errno T ID rq before inc HT HID HID' d w Hw) as (w' & E & H'). rewrite app_nil_r. eauto. }
    destruct Hop as (r & w1 & E1 & H1). rewrite (obj_bind_val _ _ _ _ _ E1). destruct (IH _ _ H1) as (w' & E & H').
    exists w'. rewrite app_assoc. auto.
Qed.

Lemma data_record_ok r : data_record T ID r -> record_ok r.
Proof. intros [Et Ei [] ? _]. constructor; rewrite ?Et, ?Ei; try assumption; lia. Qed.

Lemma close_records_ok d : Forall record_ok (close_records T ID rq d).
Proof.
  unfold close_records. apply Forall_app. split.
  - destruct (_ && _); constructor; [|constructor]. constructor; cbn [r_type r_id r_content r_padding]; first [assumption | reflexivity | unfold FCGI_END_REQUEST; lia].
  - destruct (_ =? _); constructor; [|constructor]. constructor; cbn [r_type r_id r_content r_padding]; first [assumption | reflexivity | unfold FCGI_END_REQUEST; lia].
Qed.

Lemma length_encode_records rs : (length rs <= length (encode_records rs))%nat.
Proof.
  induction rs as [|r rs IH]; [cbn; lia|]. rewrite encode_records_cons, length_app. pose proof (encode_record_length r).
  pose proof (blen_nonneg (r_content r)). pose proof (blen_nonneg (r_padding r)). unfold blen in *. cbn [length]. lia.
Qed.
End Client.

(** C6. What is put into a new stream with [FCGX_PutStr], [FCGX_PutS] and [FCGX_PutChar],
    with flushes anywhere, reaches the web server when the stream is closed, however the
    operating system cuts the writes: the bytes on the connection are whole records,
    which a decoder of the protocol takes apart; the records of the stream are of its
    type and request, a multiple of eight bytes long, and their contents are the bytes
    that were put, in order; after them come the empty record that ends the stream (not
    for an error stream nothing was put into) and, from the last stream of the request,
    the record that ends it with its status. *)
Theorem output_framed junk OS_Errno address size T rq before inc a ops :
  0 <= T < 256 -> 0 <= requestId rq < 2 ^ 16 -> 0 <= address < 2 ^ 63 -> Forall is_Some a ->
  exists recs a' s',
    let data := mjoin (put_op_bytes <$> ops) in
    let sent := encode_records (recs ++ close_records T (requestId rq) rq data) in
    (_ ← run_puts OS_Errno ops; FCGX_FClose OS_Errno) (mkWorld (NewStream junk address size false T) rq (mkConn inc a before))
    = (Ok 0, mkWorld s' (rq <| nWriters := i32 (nWriters rq - 1) |>) (mkConn inc a' (before ++ sent)))
    /\ decode_records (S (length sent)) sent = Some (recs ++ close_records T (requestId rq) rq data)
    /\ Forall (data_record T (requestId rq)) recs /\ mjoin (r_content <$> recs) = data.
Proof.
  intros HT HID' Had Ha. cbv zeta.
  pose proof (NewStream_writing T (requestId rq) rq before inc junk address size a Had Ha) as Hw.
  destruct (run_puts_writing OS_Errno T (requestId rq) rq before inc HT eq_refl HID' ops [] _ Hw) as (w1 & E1 & H1). cbn [app] in H1.
  destruct (FClose_ok OS_Errno T (requestId rq) rq before inc HT eq_refl HID' _ w1 H1) as (recs & a' & s' & E & Hr & Hd & _).
  exists recs, a', s'. rewrite (obj_bind_val _ _ _ _ _ E1). split; [exact E|]. split; [|auto].
  apply decode_encode_records; [|pose proof (length_encode_records (recs ++ close_records T (requestId rq) rq (mjoin (put_op_bytes <$> ops)))); lia].
  apply Forall_app. split; [|apply close_records_ok; assumption]. revert Hr. apply Forall_impl. intros r. apply data_record_ok; assumption.
Qed.
