(* ===== verification/FCGXReader.v ===== *)
(** * Correctness of the input streams

    Whatever pieces the operating system gives the incoming bytes in, a stream delivers
    the contents of its records, in order; the records of other requests are skipped and
    requests that are begun on the same connection refused; the name-value pairs of the
    parameters are those the web server encoded. *)
From stdpp Require Import base strings list numbers.
From Stdlib Require Import ZArith Lia.
From coqutil Require Import Datatypes.RecordSetters.
From S2P Require Import Prelude Object CString RawTile FCGX FCGXRecords FCGXWriter.
Import TriangleBracketNotations.
#[local] Open Scope string_scope.
#[local] Open Scope list_scope.
#[local] Open Scope Z_scope.

(** ** What a client asks for, and what it gets from the bytes [d] of the stream *)

Inductive get_op :=
| ReadStr (n : Z)
| ReadChar
| ReadLine (n : Z).

Inductive got :=
| GotStr (b : bytes)
| GotChar (c : Z)
| GotLine (l : option bytes).

Definition run_get (junk : Z -> Z) (fill : F unit) (op : get_op) : F got :=
  match op with
  | ReadStr n => b ← FCGX_GetStr junk fill n; mret (GotStr b)
  | ReadChar => c ← FCGX_GetChar fill; mret (GotChar c)
  | ReadLine n => l ← FCGX_GetLine fill n; mret (GotLine l)
  end.

Fixpoint run_gets (junk : Z -> Z) (fill : F unit) (ops : list get_op) : F (list got) :=
  match ops with
  | [] => mret []
  | op :: ops => g ← run_get junk fill op; gs ← run_gets junk fill ops; mret (g :: gs)
  end.

(** At most [n] bytes, to the end of the line. *)
Fixpoint take_line (n : nat) (d : bytes) : bytes * bytes :=
  match n, d with
  | O, _ => ([], d)
  | S n, [] => ([], [])
  | S n, c :: d => if c =? 10 then ([c], d) else let '(l, d) := take_line n d in (c :: l, d)
  end.

Definition get_spec (op : get_op) (d : bytes) : got * bytes :=
  match op with
  | ReadStr n => (GotStr (take (Z.to_nat n) d), drop (Z.to_nat n) d)
  | ReadChar => match d with [] => (GotChar EOF, []) | c :: d => (GotChar c, d) end
  | ReadLine n =>
      let '(l, d') := take_line (Z.to_nat (n - 1)) d in
      (GotLine (if (1 <? n) && bool_decide (d = []) then None else Some l), d')
  end.

Fixpoint gets_spec (ops : list get_op) (d : bytes) : list got * bytes :=
  match ops with
  | [] => ([], d)
  | op :: ops => let '(g, d) := get_spec op d in let '(gs, d) := gets_spec ops d in (g :: gs, d)
  end.

(** ** The client's functions

    For any invariant [R] of the bytes the client has still to get: the buffer has some
    of them, and filling it gives more or, at the end, closes the stream. *)
Section Get.
Context (junk : Z -> Z) (fill : F unit) (R : bytes -> World -> Prop).
Context (Hopen : forall d w, R d w ->
  isReader (stream w) = true /\ 0 <= stop (stream w) - rdNext (stream w) <= blen d
  /\ (isClosed (stream w) = true -> d = []) /\ (length d <= bytes_left w)%nat).
Context (Htake : forall b d w, R (b ++ d) w -> isClosed (stream w) = false -> blen b <= stop (stream w) - rdNext (stream w) ->
  exists w', take_bytes junk (blen b) w = (Ok b, w') /\ R d w' /\ isClosed (stream w') = false
    /\ stop (stream w') - rdNext (stream w') = stop (stream w) - rdNext (stream w) - blen b).
Context (Hnext : forall c d w, R (c :: d) w -> isClosed (stream w) = false -> rdNext (stream w) <> stop (stream w) ->
  exists w', next_byte w = (Ok c, w') /\ R d w').
Context (Hfill : forall d w, R d w -> isClosed (stream w) = false -> rdNext (stream w) = stop (stream w) ->
  exists w', fill w = (Ok tt, w') /\ R d w' /\ isClosed (stream w') = bool_decide (d = [])
    /\ (d <> [] -> rdNext (stream w') <> stop (stream w'))).
Context (Hunget : forall d s r c, R d (mkWorld s r c) -> R d (mkWorld (s <| stopUnget := rdNext s |>) r c)).

Lemma get_loop_ok fuel n d moved w :
  R d w -> isClosed (stream w) = false -> blen moved < n ->
  (length d + (if (rdNext (stream w) =? stop (stream w))%Z then 2 else 1) <= fuel)%nat ->
  exists w', get_loop junk fill fuel n moved w = (Ok (moved ++ take (Z.to_nat (n - blen moved)) d), w')
    /\ R (drop (Z.to_nat (n - blen moved)) d) w'.
Proof.
  revert d moved w. induction fuel as [|fuel IH]; intros d moved w HR Hc Hn Hf; [destruct (_ =? _); lia|].
  cbn [get_loop]. rewrite F_gets_world. destruct (Hopen d w HR) as (Hr & Hroom & _ & _).
  set (k := Z.to_nat (n - blen moved)).
  assert (Hnext' : forall d' moved' w1, R d' w1 -> isClosed (stream w1) = false -> rdNext (stream w1) = stop (stream w1) ->
    blen moved' < n -> (length d' + 1 <= fuel)%nat ->
    moved' ++ take (Z.to_nat (n - blen moved')) d' = moved ++ take k d -> drop (Z.to_nat (n - blen moved')) d' = drop k d ->
    exists w', (_ ← fill; s ← gets (fun s => s);
        if isClosed s then mret moved'
        else _ ← on_stream (fun s => s <| stopUnget := rdNext s |>); get_loop junk fill fuel n moved') w1
      = (Ok (moved ++ take k d), w') /\ R (drop k d) w').
  { intros d' moved' w1 H1 Hc1 He Hm Hf' Et Ed. destruct (Hfill d' w1 H1 Hc1 He) as (w2 & E2 & H2 & Hc2 & Hne).
    rewrite (obj_bind_val _ _ _ _ _ E2). rewrite F_gets_world, Hc2. case_bool_decide as Hd.
    - subst d'. exists w2. rewrite take_nil, app_nil_r in Et. rewrite drop_nil in Ed. rewrite <- Et, <- Ed. auto.
    - destruct w2 as [s2 r2 c2]. unfold on_stream. rewrite obj_set_bind. cbn [stream request conn].
      destruct (IH d' moved' (mkWorld (s2 <| stopUnget := rdNext s2 |>) r2 c2)) as (w' & E' & H').
      + apply Hunget, H2.
      + exact Hc2.
      + exact Hm.
      + rewrite (proj2 (Z.eqb_neq _ _)); [exact Hf'|exact (Hne Hd)].
      + exists w'. rewrite E', Et, <- Ed. auto. }
  destruct (Z.eqb_spec (rdNext (stream w)) (stop (stream w))) as [E|E]; cbn [negb andb].
  - rewrite obj_ret_bind, Hc, Hr. cbn [negb orb]. apply (Hnext' d moved w); auto; lia.
  - set (m := Z.min (n - blen moved) (stop (stream w) - rdNext (stream w))).
    assert (El : blen (take (Z.to_nat m) d) = m) by (unfold blen in *; rewrite length_take; lia).
    rewrite <- (take_drop (Z.to_nat m) d) in HR.
    destruct (Htake _ _ _ HR Hc ltac:(lia)) as (w1 & E1 & H1 & Hc1 & Hs1). rewrite El in E1, Hs1.
    unfold mbind at 1, Obj_bind at 1. rewrite (obj_bind_val _ _ _ _ _ E1). cbn [mret Obj_ret].
    rewrite blen_app, El. destruct (Z.eqb_spec (blen moved + m) n) as [En|En].
    + exists w1. unfold k. replace (n - blen moved) with m by lia. auto.
    + rewrite Hc, Hr. cbn [negb orb]. apply (Hnext' (drop (Z.to_nat m) d)).
      * exact H1.
      * exact Hc1.
      * lia.
      * rewrite blen_app, El. lia.
      * unfold blen in *. rewrite length_drop. lia.
      * rewrite blen_app, El, <- app_assoc. f_equal. unfold k. replace (Z.to_nat (n - blen moved)) with (Z.to_nat m + Z.to_nat (n - (blen moved + m)))%nat by lia.
        rewrite take_take_drop. reflexivity.
      * rewrite blen_app, El. unfold k. rewrite drop_drop. f_equal. lia.
Qed.

(** [FCGX_GetStr]: the next bytes, and fewer only at the end. *)
Lemma GetStr_ok n d w :
  0 <= n -> R d w ->
  exists w', FCGX_GetStr junk fill n w = (Ok (take (Z.to_nat n) d), w') /\ R (drop (Z.to_nat n) d) w'.
Proof.
  intros Hn HR. unfold FCGX_GetStr. rewrite F_gets_world. destruct (Hopen d w HR) as (Hr & Hroom & Hcl & Hleft).
  rewrite Hr. cbn [negb]. rewrite orb_false_r. destruct (isClosed (stream w)) eqn:Hc; cbn [orb].
  - rewrite (Hcl eq_refl) in *. rewrite take_nil, drop_nil. exists w. auto.
  - destruct (Z.leb_spec n 0) as [H0|H0].
    { replace n with 0 by lia. change (Z.to_nat 0) with 0%nat. rewrite take_0, drop_0. exists w. auto. }
    destruct (Z.leb_spec n (stop (stream w) - rdNext (stream w))) as [Hfit|Hfit].
    + assert (El : blen (take (Z.to_nat n) d) = n) by (unfold blen in *; rewrite length_take; lia).
      rewrite <- (take_drop (Z.to_nat n) d) in HR. destruct (Htake _ _ _ HR Hc ltac:(lia)) as (w1 & E1 & H1 & _). rewrite El in E1. eauto.
    + rewrite obj_get_bind. destruct (get_loop_ok (3 + bytes_left w) n d [] w HR Hc) as (w' & E' & H').
      * rewrite blen_nil. lia.
      * destruct (_ =? _); lia.
      * rewrite blen_nil, Z.sub_0_r in *. eauto.
Qed.

Lemma GetChar_ok c d w : R (c :: d) w -> exists w', FCGX_GetChar fill w = (Ok c, w') /\ R d w'.
Proof.
  intros HR. unfold FCGX_GetChar. rewrite F_gets_world. destruct (Hopen _ w HR) as (Hr & Hroom & Hcl & Hleft).
  rewrite Hr. destruct (isClosed (stream w)) eqn:Hc; [discriminate (Hcl eq_refl)|]. cbn [negb orb].
  destruct (Z.eqb_spec (rdNext (stream w)) (stop (stream w))) as [E|E]; cbn [negb]; [|apply (Hnext c d w HR Hc E)].
  destruct (Hfill _ w HR Hc E) as (w1 & E1 & H1 & Hc1 & Hne). rewrite (obj_bind_val _ _ _ _ _ E1), F_gets_world, Hc1.
  rewrite bool_decide_eq_false_2 in * by discriminate. destruct w1 as [s1 r1 c1]. unfold on_stream. rewrite obj_set_bind. cbn [stream request conn] in *.
  rewrite (proj2 (Z.eqb_neq _ _)) by (apply Hne; discriminate). cbn [negb].
  apply Hnext; [apply Hunget, H1|exact Hc1|apply Hne; discriminate].
Qed.

Lemma GetChar_end w : R [] w -> exists w', FCGX_GetChar fill w = (Ok EOF, w') /\ R [] w' /\ isClosed (stream w') = true.
Proof.
  intros HR. unfold FCGX_GetChar. rewrite F_gets_world. destruct (Hopen _ w HR) as (Hr & Hroom & Hcl & Hleft).
  rewrite Hr. destruct (isClosed (stream w)) eqn:Hc; cbn [negb orb]; [exists w; auto|]. rewrite blen_nil in Hroom.
  rewrite (proj2 (Z.eqb_eq _ _)) by lia. cbn [negb]. destruct (Hfill _ w HR Hc ltac:(lia)) as (w1 & E1 & H1 & Hc1 & Hne).
  rewrite (obj_bind_val _ _ _ _ _ E1), F_gets_world, Hc1. exists w1. auto.
Qed.

Lemma line_loop_ok n line d w :
  R d w -> Forall (fun c => 0 <= c) d ->
  exists w', line_loop fill n line w = (Ok (if (0 <? n)%nat && bool_decide (line ++ d = []) then None else Some (line ++ (take_line n d).1)), w')
    /\ R (take_line n d).2 w'.
Proof.
  revert line d w. induction n as [|n IH]; intros line d w HR Hd; cbn [line_loop take_line].
  - exists w. cbn. rewrite app_nil_r. auto.
  - destruct d as [|c d].
    + destruct (GetChar_end w HR) as (w' & E & H' & _). rewrite (obj_bind_val _ _ _ _ _ E), Z.eqb_refl. exists w'. cbn [fst snd].
      split; [|exact H']. rewrite app_nil_r. destruct line; reflexivity.
    + pose proof (Forall_inv Hd) as Hc. pose proof (Forall_inv_tail Hd) as Hd'. cbn beta in Hc.
      destruct (GetChar_ok c d w HR) as (w1 & E1 & H1). rewrite (obj_bind_val _ _ _ _ _ E1), (proj2 (Z.eqb_neq c EOF)) by (unfold EOF; lia).
      rewrite (bool_decide_eq_false_2 (line ++ c :: d = [])) by (intros E; destruct line; discriminate E). rewrite andb_false_r.
      destruct (c =? 10); [exists w1; auto|]. destruct (IH (line ++ [c]) d w1 H1 Hd') as (w' & E' & H').
      exists w'. rewrite E'. rewrite (bool_decide_eq_false_2 ((line ++ [c]) ++ d = [])) by (intros E; destruct line; discriminate E). rewrite andb_false_r.
      destruct (take_line n d) as [l d']. cbn [fst snd] in *. rewrite <- app_assoc. auto.
Qed.

(** Each function of the client gets what the bytes of the stream say. *)
Lemma run_get_ok op d w :
  R d w -> Forall (fun c => 0 <= c) d -> exists w', run_get junk fill op w = (Ok (get_spec op d).1, w') /\ R (get_spec op d).2 w'.
Proof.
  intros HR Hd. destruct op as [n| |n]; cbn [run_get get_spec].
  - destruct (Z.leb_spec 0 n) as [Hn|Hn].
    + destruct (GetStr_ok n d w Hn HR) as (w' & E & H'). rewrite (obj_bind_val _ _ _ _ _ E). eauto.
    + exists w. assert (Hn0 : (n <=? 0) = true) by (apply Z.leb_le; lia). replace (Z.to_nat n) with 0%nat by lia. rewrite take_0, drop_0. split; [|exact HR]. unfold FCGX_GetStr.
      unfold mbind at 1, Obj_bind at 1. rewrite F_gets_world, Hn0, orb_true_r. reflexivity.
  - destruct d as [|c d].
    + destruct (GetChar_end w HR) as (w' & E & H' & _). rewrite (obj_bind_val _ _ _ _ _ E). eauto.
    + destruct (GetChar_ok c d w HR) as (w' & E & H'). rewrite (obj_bind_val _ _ _ _ _ E). eauto.
  - destruct (line_loop_ok (Z.to_nat (n - 1)) [] d w HR Hd) as (w' & E & H'). unfold FCGX_GetLine. rewrite (obj_bind_val _ _ _ _ _ E).
    exists w'. destruct (take_line _ d) as [l d']. cbn [fst snd app] in *. split; [|exact H']. unfold mret, Obj_ret. do 3 f_equal.
    replace (0 <? Z.to_nat (n - 1))%nat with (1 <? n); [reflexivity|]. destruct (Z.ltb_spec 1 n), (Nat.ltb_spec 0 (Z.to_nat (n - 1))); (reflexivity || lia).
Qed.

Lemma take_line_suffix n d : Forall (fun c => 0 <= c) d -> Forall (fun c => 0 <= c) (take_line n d).2.
Proof.
  revert d. induction n as [|n IH]; intros d Hd; [exact Hd|]. destruct d as [|c d]; [exact Hd|]. cbn [take_line].
  pose proof (Forall_inv_tail Hd) as Hd'. destruct (c =? 10); [exact Hd'|]. specialize (IH d Hd'). destruct (take_line n d). exact IH.
Qed.

Lemma run_gets_ok ops d w :
  R d w -> Forall (fun c => 0 <= c) d -> exists w', run_gets junk fill ops w = (Ok (gets_spec ops d).1, w') /\ R (gets_spec ops d).2 w'.
Proof.
  revert d w. induction ops as [|op ops IH]; intros d w HR Hd; cbn [run_gets gets_spec]; [exists w; auto|].
  destruct (run_get_ok op d w HR Hd) as (w1 & E1 & H1). rewrite (obj_bind_val _ _ _ _ _ E1).
  assert (Hd1 : Forall (fun c => 0 <= c) (get_spec op d).2).
  { destruct op as [n| |n]; cbn [get_spec].
    - apply Forall_drop, Hd.
    - destruct d as [|c d]; [constructor|apply (Forall_inv_tail Hd)].
    - pose proof (take_line_suffix (Z.to_nat (n - 1)) d Hd). destruct (take_line _ d). assumption. }
  destruct (IH _ w1 H1 Hd1) as (w' & E' & H'). rewrite (obj_bind_val _ _ _ _ _ E'). exists w'.
  destruct (get_spec op d) as [g d1]. cbn [fst snd] in *. destruct (gets_spec ops d1). auto.
Qed.

(** ** Parameters *)

Lemma read_length_ok n d w h t :
  0 <= n < 2 ^ 31 -> encode_length n = h :: t -> R (t ++ d) w ->
  exists w', read_length junk fill h w = (Ok (Some n), w') /\ R d w'.
Proof.
  intros Hn He HR. unfold encode_length in He. destruct (Z.ltb_spec n 128) as [Hs|Hs]; injection He as <- <-; unfold read_length.
  - assert (E : Z.land n 0x80 = 0).
    { apply Z.bits_inj'. intros k Hk. rewrite Z.land_spec, Z.testbit_0_l. change 0x80 with (2 ^ 7). rewrite Z.pow2_bits_eqb by lia.
      destruct (Z.eqb_spec 7 k) as [<-|]; [|apply andb_false_r]. rewrite andb_true_r. destruct (Z.eq_dec n 0) as [->|]; [reflexivity|].
      apply Z.bits_above_log2; [lia|]. apply Z.log2_lt_pow2; lia. }
    rewrite E. exists w. auto.
  - assert (Hq : 0 <= n / 2 ^ 24 < 2 ^ 7) by (split; [apply Z.div_pos; lia|apply Z.div_lt_upper_bound; lia]).
    assert (El : Z.land (128 + n / 2 ^ 24) 0x7f = n / 2 ^ 24).
    { change 0x7f with (Z.ones 7). rewrite Z.land_ones by lia. replace (128 + n / 2 ^ 24) with (n / 2 ^ 24 + 1 * 2 ^ 7) by lia.
      rewrite Z.mod_add by lia. apply Z.mod_small, Hq. }
    assert (Eh : Z.land (128 + n / 2 ^ 24) 0x80 <> 0).
    { intros E. assert (B : Z.testbit (128 + n / 2 ^ 24) 7 = true).
      { apply Z.testbit_true; [lia|]. replace (128 + n / 2 ^ 24) with (n / 2 ^ 24 + 1 * 2 ^ 7) by lia. rewrite Z.div_add, Z.div_small by lia. reflexivity. }
      pose proof (f_equal (fun x => Z.testbit x 7) E) as E'. cbn beta in E'. rewrite Z.land_spec, B in E'. discriminate E'. }
    rewrite (proj2 (Z.eqb_neq _ _) Eh). destruct (GetStr_ok 3 _ w ltac:(lia) HR) as (w' & E & H').
    rewrite (obj_bind_val _ _ _ _ _ E). change (Z.to_nat 3) with 3%nat. cbn [app take drop firstn] in H' |- *. exists w'. split; [|exact H'].
    change (blen _ =? 3) with true. cbv iota. unfold mret, Obj_ret. do 3 f_equal. rewrite El. cbn [nth]. rewrite !Z.shiftl_mul_pow2 by lia.
    pose proof (Z.div_mod n (2 ^ 8) ltac:(lia)) as E1. pose proof (Z.div_mod (n / 2 ^ 8) (2 ^ 8) ltac:(lia)) as E2.
    pose proof (Z.div_mod (n / 2 ^ 16) (2 ^ 8) ltac:(lia)) as E3. rewrite Z.div_div in E2, E3 by lia.
    change (2 ^ 8 * 2 ^ 8) with (2 ^ 16) in E2. change (2 ^ 16 * 2 ^ 8) with (2 ^ 24) in E3. change 256 with (2 ^ 8). lia.
Qed.

Lemma encode_length_head n : 0 <= n -> exists h t, encode_length n = h :: t /\ 0 <= h.
Proof.
  intros Hn. unfold encode_length. destruct (n <? 128); [eauto|]. eexists _, _. split; [reflexivity|]. pose proof (Z.div_pos n (2 ^ 24) Hn ltac:(lia)). lia.
Qed.

(** Pairs a request can have: their lengths fit in an [int], with the room for the
    string that is made of them. *)
Definition pair_fits (p : bytes * bytes) : Prop := blen p.1 + blen p.2 + 2 < 2 ^ 31.

(** The entry of the environment. *)
Definition entry (p : bytes * bytes) : bytes := p.1 ++ [61] ++ p.2.

Lemma PutParam_ok p e :
  Z.of_nat (length (vec p)) < length_ p ->
  exists p', PutParam p e = Ok p' /\ vec p' = vec p ++ [e] /\ Z.of_nat (length (vec p')) < length_ p'.
Proof.
  intros Hp. unfold PutParam. rewrite (proj2 (Z.leb_gt _ _)) by lia. cbn [length_ vec].
  destruct (Z.leb_spec (length_ p) (Z.of_nat (length (vec p)) + 1)) as [H|H].
  - rewrite (proj2 (Z.leb_gt _ _)) by lia. eexists. split; [reflexivity|]. cbn. rewrite length_app. cbn. split; [reflexivity|lia].
  - rewrite (proj2 (Z.leb_gt _ _)) by lia. eexists. split; [reflexivity|]. cbn. rewrite length_app. cbn. split; [reflexivity|lia].
Qed.

Lemma GetStr_exact b d w : R (b ++ d) w -> exists w', FCGX_GetStr junk fill (blen b) w = (Ok b, w') /\ R d w'.
Proof.
  intros HR. destruct (GetStr_ok (blen b) _ w (blen_nonneg b) HR) as (w' & E & H').
  rewrite take_blen_app, drop_blen_app in * by reflexivity. eauto.
Qed.

Lemma read_pair_ok p q d w h t :
  pair_fits q -> Z.of_nat (length (vec p)) < length_ p -> encode_pair q = h :: t -> R (t ++ d) w ->
  exists p' w', read_pair junk fill p h w = (Ok (p', true), w') /\ R d w'
    /\ vec p' = vec p ++ [entry q] /\ Z.of_nat (length (vec p')) < length_ p'.
Proof.
  intros Hq Hp He HR. destruct q as [name value]. unfold pair_fits in Hq. unfold encode_pair in He. cbn [fst snd] in *.
  pose proof (blen_nonneg name). pose proof (blen_nonneg value).
  destruct (encode_length_head (blen name) ltac:(lia)) as (h1 & t1 & E1 & _). destruct (encode_length_head (blen value) ltac:(lia)) as (h2 & t2 & E2 & Hh2).
  rewrite E1 in He. cbn [app] in He. injection He as <- <-. rewrite <- !app_assoc in HR.
  destruct (read_length_ok (blen name) _ w h1 t1 ltac:(lia) E1 HR) as (w1 & R1 & H1). unfold read_pair. rewrite (obj_bind_val _ _ _ _ _ R1).
  rewrite E2 in H1. destruct (GetChar_ok _ _ _ H1) as (w2 & R2 & H2). rewrite (obj_bind_val _ _ _ _ _ R2).
  rewrite (proj2 (Z.eqb_neq h2 EOF)) by (unfold EOF; lia).
  destruct (read_length_ok (blen value) _ w2 h2 t2 ltac:(lia) E2 H2) as (w3 & R3 & H3). rewrite (obj_bind_val _ _ _ _ _ R3).
  assert (Ea : (n ← add_int (blen name) (blen value); add_int n 2) = Ok (blen name + blen value + 2)).
  { unfold add_int at 2. rewrite !(proj2 (Z.leb_le _ _)), (proj2 (Z.ltb_lt _ _)) by lia. cbn [andb]. unfold mbind, res_bind, add_int.
    rewrite !(proj2 (Z.leb_le _ _)), (proj2 (Z.ltb_lt _ _)) by lia. reflexivity. }
  rewrite Ea, obj_lift_bind.
  destruct (GetStr_exact _ _ _ H3) as (w4 & R4 & H4). rewrite (obj_bind_val _ _ _ _ _ R4), Z.eqb_refl. cbn [negb].
  destruct (GetStr_exact _ _ _ H4) as (w5 & R5 & H5). rewrite (obj_bind_val _ _ _ _ _ R5), Z.eqb_refl. cbn [negb].
  destruct (PutParam_ok p (entry (name, value)) Hp) as (p' & Ep & Ev & Hp'). unfold entry in Ep. cbn [fst snd] in Ep. rewrite Ep, obj_lift_bind.
  exists p', w5. auto.
Qed.

Lemma pairs_loop_ok fuel p ps w :
  Forall pair_fits ps -> Z.of_nat (length (vec p)) < length_ p -> R (encode_pairs ps) w -> (length ps < fuel)%nat ->
  exists p' w', pairs_loop junk fill fuel p w = (Ok (p', 0), w') /\ R [] w' /\ isClosed (stream w') = true
    /\ vec p' = vec p ++ (entry <$> ps) /\ Z.of_nat (length (vec p')) < length_ p'.
Proof.
  intros Hps. revert fuel p w. induction Hps as [|q ps Hq Hps IH]; intros [|fuel] p w Hp HR Hf; try (cbn in Hf; lia); cbn [pairs_loop].
  - destruct (GetChar_end w HR) as (w' & E & H' & Hc). rewrite (obj_bind_val _ _ _ _ _ E). exists p, w'. rewrite app_nil_r. auto.
  - unfold encode_pairs in HR. cbn [fmap list_fmap mjoin list_join] in HR.
    destruct (encode_length_head (blen q.1) (blen_nonneg _)) as (h & t & Eh & Hh).
    assert (Eq : encode_pair q = h :: (t ++ encode_length (blen q.2) ++ q.1 ++ q.2)) by (unfold encode_pair; rewrite Eh; reflexivity).
    rewrite Eq in HR. cbn [app] in HR. destruct (GetChar_ok _ _ _ HR) as (w1 & E1 & H1). rewrite (obj_bind_val _ _ _ _ _ E1).
    rewrite (proj2 (Z.eqb_neq h EOF)) by (unfold EOF; lia).
    destruct (read_pair_ok p q _ w1 h _ Hq Hp Eq H1) as (p2 & w2 & E2 & H2 & Ev & Hp2). rewrite (obj_bind_val _ _ _ _ _ E2).
    destruct (IH fuel p2 w2 Hp2 H2 ltac:(cbn in Hf; lia)) as (p' & w' & E' & H' & Hc & Ev' & Hp'). exists p', w'.
    split_and!; try assumption. rewrite Ev', Ev, <- app_assoc. reflexivity.
Qed.

Lemma length_encode_pairs ps : (length ps <= length (encode_pairs ps))%nat.
Proof.
  induction ps as [|q ps IH]; [cbn; lia|]. change (encode_pairs (q :: ps)) with (encode_pair q ++ encode_pairs ps). rewrite length_app.
  destruct (encode_length_head (blen q.1) (blen_nonneg _)) as (h & t & Eh & Hh). unfold encode_pair. rewrite Eh. cbn [app length]. lia.
Qed.

(** [ReadParams]: the entries of the pairs, in order, up to the end of the stream. *)
Lemma ReadParams_ok p ps w :
  Forall pair_fits ps -> Z.of_nat (length (vec p)) < length_ p -> R (encode_pairs ps) w ->
  exists p' w', ReadParams junk fill p w = (Ok (p', 0), w') /\ R [] w' /\ isClosed (stream w') = true
    /\ vec p' = vec p ++ (entry <$> ps) /\ Z.of_nat (length (vec p')) < length_ p'.
Proof.
  intros Hps Hp HR. unfold ReadParams. rewrite obj_get_bind. apply pairs_loop_ok; try assumption.
  destruct (Hopen _ w HR) as (_ & _ & _ & Hl). pose proof (length_encode_pairs ps). lia.
Qed.
End Get.
