(* ===== verification/FCGXFill.v ===== *)
(** * Correctness of filling the buffer

    [FillBuffProc] on a connection that delivers whole records, in pieces of any size:
    what it skips, what it gives the client and what it answers. *)
From stdpp Require Import base strings list numbers.
From Stdlib Require Import ZArith Lia.
From coqutil Require Import Datatypes.RecordSetters.
From S2P Require Import Prelude Object CString RawTile FCGX FCGXRecords FCGXWriter FCGXReader.
Import TriangleBracketNotations.
#[local] Open Scope string_scope.
#[local] Open Scope list_scope.
#[local] Open Scope Z_scope.

(** ** The bytes that are coming *)

Definition flat (l : list (option bytes)) : bytes := mjoin (from_option id [] <$> l).

(** The bytes [i] still have to be taken: those of the buffer from [rn] to [bs], then
    those the connection will give. *)
Record src_ok (i : bytes) (rn bs : Z) (b : bytes) (bl : Z) (inc : list (option bytes)) : Prop := {
  src_room : 0 < bl <= blen b;
  src_chunks : Forall (fun o => exists c, o = Some c /\ c <> []) inc;
  src_input : exists pre mid post, b = pre ++ mid ++ post /\ rn = blen pre /\ bs = blen pre + blen mid /\ i = mid ++ flat inc
}.

Definition source (i : bytes) (w : World) : Prop :=
  src_ok i (rdNext (stream w)) (buffStop (stream w)) (buff (stream w)) (bufflen (stream w)) (incoming (conn w)).

(** The fields that change from record to record, and those that do not. *)
Definition state (w : World) : Z * Z * bool * bool * bool :=
  (contentLen (stream w), paddingLen (stream w), skip (stream w), eorStop (stream w), isClosed (stream w)).
Definition fixed (w : World) : bool * Z * Z * Request * list (option Z) * bytes :=
  (isReader (stream w), FCGI_errno (stream w), stream_type (stream w), request w, accepts (conn w), written (conn w)).

(** Each field of a state that was updated. *)
Ltac fields := unfold state; repeat apply f_equal2; first [reflexivity | assumption].

Definition avail (w : World) : Z := buffStop (stream w) - rdNext (stream w).

Lemma src_avail i w : source i w -> 0 <= avail w <= blen i.
Proof.
  intros [_ _ (pre & mid & post & _ & Hr & Hb & ->)]. unfold avail. rewrite Hr, Hb, blen_app. pose proof (blen_nonneg mid).
  pose proof (blen_nonneg (flat (incoming (conn w)))). lia.
Qed.

Lemma src_drop i rn bs b bl inc k : src_ok i rn bs b bl inc -> 0 <= k <= bs - rn -> src_ok (drop (Z.to_nat k) i) (rn + k) bs b bl inc.
Proof.
  intros [Hr Hc (pre & mid & post & Hb & Hrn & Hbs & Hi)] Hk. constructor; [exact Hr|exact Hc|].
  exists (pre ++ take (Z.to_nat k) mid), (drop (Z.to_nat k) mid), post.
  assert (El : blen (take (Z.to_nat k) mid) = k /\ blen (drop (Z.to_nat k) mid) = blen mid - k)
    by (unfold blen in *; rewrite length_take, length_drop; lia). destruct El as [El1 El2].
  rewrite blen_app, El1, El2. split_and!; try lia.
  - rewrite <- app_assoc, (app_assoc (take _ _)), take_drop. exact Hb.
  - subst i. apply drop_app_le. unfold blen in *. lia.
Qed.

Lemma bytes_left_source i w : source i w -> bytes_left w = length i.
Proof.
  intros [_ _ (pre & mid & post & _ & Hr & Hb & ->)]. unfold bytes_left. rewrite Hr, Hb, length_app. f_equal; [unfold blen; lia|].
  unfold flat. induction (incoming (conn w)) as [|[c|] l IH]; cbn; rewrite ?length_app, ?IH; reflexivity.
Qed.

Lemma source_head b i w : source (b ++ i) w -> blen b <= avail w ->
  exists pre post, buff (stream w) = pre ++ b ++ post /\ rdNext (stream w) = blen pre.
Proof.
  intros [_ _ (pre & mid & post & Eb & Er & Ebs & Ei)] Ha. unfold avail in Ha. rewrite Ebs, Er in Ha.
  assert (Et : take (length b) mid = b).
  { apply (f_equal (take (length b))) in Ei. rewrite take_app_length, take_app_le in Ei by (unfold blen in *; lia). auto. }
  exists pre, (drop (length b) mid ++ post). split; [|exact Er]. rewrite Eb, <- (take_drop (length b) mid), Et at 1. rewrite <- app_assoc. reflexivity.
Qed.

(** Bytes the client takes. *)
Lemma take_bytes_ok junk b i s r co :
  source (b ++ i) (mkWorld s r co) -> blen b <= avail (mkWorld s r co) ->
  let w' := mkWorld (s <| rdNext := rdNext s + blen b |>) r co in
  take_bytes junk (blen b) (mkWorld s r co) = (Ok b, w') /\ source i w'.
Proof.
  intros Hs Ha. pose proof (src_drop _ _ _ _ _ _ (blen b) Hs) as Hd. cbn [stream conn] in Hd. pose proof (blen_nonneg b). unfold avail in Ha. cbn [stream] in Ha.
  specialize (Hd ltac:(lia)). rewrite drop_blen_app in Hd by reflexivity.
  destruct (source_head b i _ Hs Ha) as (pre & post & Eb & Er). cbn [stream] in *. split; [|exact Hd].
  unfold take_bytes. rewrite F_gets, Eb, memcpy_read by (auto; apply blen_new_bytes; lia). reflexivity.
Qed.

Lemma next_byte_ok c i s r co :
  source (c :: i) (mkWorld s r co) -> 0 < avail (mkWorld s r co) ->
  let w' := mkWorld (s <| rdNext := rdNext s + 1 |>) r co in next_byte (mkWorld s r co) = (Ok c, w') /\ source i w'.
Proof.
  intros Hs Ha. pose proof (src_drop _ _ _ _ _ _ 1 Hs) as Hd. cbn [stream conn] in Hd. unfold avail in Ha. cbn [stream] in Ha.
  specialize (Hd ltac:(lia)). destruct (source_head [c] i _ Hs) as (pre & post & Eb & Er); [change (blen [c]) with 1; unfold avail; cbn [stream]; lia|]. cbn [stream] in *.
  split; [|exact Hd]. unfold next_byte. rewrite F_gets.
  assert (E : rd (buff s) (rdNext s) = Ok c).
  { rewrite Eb, Er. apply rd_ok. split; [apply blen_nonneg|]. unfold blen. rewrite Nat2Z.id. apply list_lookup_middle. reflexivity. }
  rewrite E. reflexivity.
Qed.

Section Fill.
Context (junk : Z -> Z) (OS_Errno : Z).

Lemma refill_ok i w : source i w -> i <> [] ->
  exists w1, refill OS_Errno w = (Ok true, w1) /\ source i w1 /\ 0 < avail w1 /\ state w1 = state w /\ fixed w1 = fixed w.
Proof.
  intros Hs Hi. unfold refill. rewrite F_gets_world. pose proof (src_avail i w Hs) as Ha. unfold avail in *.
  destruct (Z.eqb_spec (rdNext (stream w)) (buffStop (stream w))) as [E|E].
  2: { exists w. split_and!; try reflexivity; [exact Hs|lia]. }
  destruct Hs as [Hr Hc (pre & mid & post & Hb & Hrn & Hbs & Hi')]. rewrite (blen_zero mid) in Hi' by lia. cbn [app] in Hi'.
  destruct w as [s r [inc acc wr]]. cbn [stream conn request incoming] in *.
  destruct inc as [|o inc]; [destruct (Hi Hi')|]. inversion Hc as [|? ? (c & -> & Hne) Hc']. subst.
  assert (Hread : exists n b inc', OS_Read (bufflen s) (mkWorld s r (mkConn (Some c :: inc) acc wr)) = (Ok (n, b), mkWorld s r (mkConn inc' acc wr))
    /\ n = blen b /\ 0 < n <= bufflen s /\ flat (Some c :: inc) = b ++ flat inc' /\ Forall (fun o => exists c, o = Some c /\ c <> []) inc').
  { unfold OS_Read. cbn [conn incoming stream request accepts written].
    assert (0 < blen c) by (destruct c; [destruct (Hne eq_refl)|rewrite blen_cons; pose proof (blen_nonneg c); lia]).
    destruct (Z.leb_spec (blen c) (bufflen s)).
    - exists (blen c), c, inc. split_and!; auto; lia.
    - exists (bufflen s), (take (Z.to_nat (bufflen s)) c), (Some (drop (Z.to_nat (bufflen s)) c) :: inc).
      split; [reflexivity|]. split; [unfold blen in *; rewrite length_take; lia|]. split; [lia|]. split.
      + unfold flat. cbn. rewrite app_assoc, take_drop. reflexivity.
      + constructor; [|exact Hc']. eexists. split; [reflexivity|]. intros E'. apply (f_equal blen) in E'. unfold blen in *. rewrite length_drop in E'. cbn in E'. lia. }
  destruct Hread as (n & b & inc' & Eread & Hn & Hnr & Hflat & Hc'').
  rewrite (obj_bind_val _ _ _ _ _ Eread). rewrite (proj2 (Z.leb_gt _ _)) by lia. subst n.
  rewrite <- (take_drop (length b) (buff s)), <- (app_nil_l (take _ _ ++ _)).
  rewrite memcpy_block; [|reflexivity|unfold blen in *; rewrite length_take; lia].
  rewrite obj_lift_bind, F_stream. eexists. split; [reflexivity|]. split_and!; try reflexivity.
  - constructor.
    + change (0 < bufflen s <= blen (b ++ drop (length b) (buff s))). rewrite blen_app. unfold blen in *. rewrite length_drop. lia.
    + exact Hc''.
    + exists [], b, (drop (length b) (buff s)). split_and!; [reflexivity|reflexivity|reflexivity|exact Hflat].
  - change (0 < blen b - 0). lia.
Qed.

(** ** Content *)

(** Content for the client: as much of it as is in the buffer. *)
Lemma content_step process fuel hdr hl c p eor cl i w :
  source i w -> state w = (c, p, false, eor, cl) -> 0 < c -> i <> [] ->
  exists w1 k, fill_loop OS_Errno process (S fuel) hdr hl w = (Ok tt, w1) /\ source i w1 /\ fixed w1 = fixed w
    /\ 0 < k <= c /\ state w1 = (c - k, p, false, eor, cl)
    /\ stop (stream w1) = rdNext (stream w1) + k /\ stop (stream w1) <= buffStop (stream w1).
Proof.
  intros Hs Hst Hc Hi. cbn [fill_loop]. destruct (refill_ok i w Hs Hi) as (w1 & E1 & H1 & Ha & Est & Efx).
  rewrite (obj_bind_val _ _ _ _ _ E1). cbn [negb]. rewrite <- Est in Hst. destruct w1 as [s r co]. injection Hst as Ec Ep Esk Eeor Ecl.
  unfold deliver. unfold mbind at 1, Obj_bind at 1. rewrite F_gets, Ec, Esk. rewrite (proj2 (Z.ltb_lt _ _)) by exact Hc. cbv zeta.
  rewrite !F_stream. cbn [negb]. rewrite F_stream. unfold avail in Ha. cbn [stream] in *.
  set (k := Z.min c (buffStop s - rdNext s)). eexists _, k. split; [reflexivity|]. split; [exact H1|]. split; [exact Efx|].
  split; [lia|]. split.
  - subst. fields.
  - split; [reflexivity|]. change (rdNext s + k <= buffStop s). lia.
Qed.

(** One step of skipping: the rest of a record that is not for the client. *)
Lemma deliver_skip c p eor cl i w :
  source i w -> state w = (c, p, 0 <? c, eor, cl) -> 0 <= c ->
  let k := Z.min c (avail w) in
  exists w1, deliver w = (Ok (Some (0 <? c - k)), w1) /\ source (drop (Z.to_nat k) i) w1 /\ fixed w1 = fixed w
    /\ state w1 = (c - k, p, 0 <? c - k, eor, cl) /\ avail w1 = avail w - k.
Proof.
  intros Hs Hst Hc k. pose proof (src_avail i w Hs) as Ha. destruct w as [s r co]. injection Hst as Ec Ep Esk Eeor Ecl. unfold deliver.
  rewrite F_gets, Ec. destruct (Z.ltb_spec 0 c) as [H0|H0].
  - cbv zeta. rewrite F_stream, Esk. cbn [negb]. rewrite F_stream. fold (avail (mkWorld s r co)). change (buffStop s - rdNext s) with (avail (mkWorld s r co)). fold k.
    destruct (Z.ltb_spec 0 (c - k)) as [Hk|Hk].
    + eexists. split; [reflexivity|]. split; [apply (src_drop _ _ _ _ _ _ k Hs); unfold avail in *; cbn [stream] in *; lia|].
      split; [reflexivity|]. split; [|apply Z.sub_add_distr]. subst. fields.
    + rewrite F_stream. eexists. split; [reflexivity|]. split; [apply (src_drop _ _ _ _ _ _ k Hs); unfold avail in *; cbn [stream] in *; lia|].
      split; [reflexivity|]. split; [|apply Z.sub_add_distr]. subst. fields.
  - assert (c = 0) as -> by lia. replace k with 0 by (unfold k; lia). eexists. split; [reflexivity|]. split; [exact Hs|].
    split; [reflexivity|]. split; [|lia]. rewrite ?Z.sub_0_r. subst. fields.
Qed.

Lemma skip_padding_ok c p sk eor cl i w :
  source i w -> state w = (c, p, sk, eor, cl) -> 0 <= p ->
  let k := Z.min p (avail w) in
  exists w1, skip_padding w = (Ok (0 <? p - k), w1) /\ source (drop (Z.to_nat k) i) w1 /\ fixed w1 = fixed w
    /\ state w1 = (c, p - k, sk, eor, cl) /\ avail w1 = avail w - k.
Proof.
  intros Hs Hst Hp k. pose proof (src_avail i w Hs) as Ha. destruct w as [s r co]. injection Hst as Ec Ep Esk Eeor Ecl. unfold skip_padding.
  rewrite F_gets, Ep. destruct (Z.ltb_spec 0 p) as [H0|H0].
  - cbv zeta. rewrite F_stream. change (buffStop s - rdNext s) with (avail (mkWorld s r co)). fold k.
    eexists. split; [reflexivity|]. split; [apply (src_drop _ _ _ _ _ _ k Hs); unfold avail in *; cbn [stream] in *; lia|].
    split; [reflexivity|]. split; [|apply Z.sub_add_distr]. subst. fields.
  - assert (p = 0) as -> by lia. replace k with 0 by (unfold k; lia). eexists. split; [reflexivity|]. split; [exact Hs|].
    split; [reflexivity|]. split; [|lia]. rewrite ?Z.sub_0_r. subst. fields.
Qed.

(** ** Between the records *)

(** What the loop does when there is nothing left to skip. *)
Definition at_boundary (process : bytes -> F Z) (fuel : nat) (header : bytes) (headerLen : Z) : F unit :=
  s ← gets (fun s => s);
  if eorStop s then on_stream (fun s => s <| stop := rdNext s |> <| isClosed := true |>)
  else
    let count := Z.min (FCGI_HEADER_LEN - headerLen) (buffStop s - rdNext s) in
    header ← obj_lift (memcpy header headerLen (buff s) (rdNext s) count);
    _ ← on_stream (fun s => s <| rdNext := rdNext s + count |>);
    if headerLen + count <? FCGI_HEADER_LEN then fill_loop OS_Errno process fuel header (headerLen + count)
    else
      _ ← on_stream (fun s => s <| eorStop := true |> <| stop := rdNext s |>);
      status ← process header;
      more ← after_header status;
      if (more : bool) then fill_loop OS_Errno process fuel header 0 else mret tt.

(** The rest of the record before, and its padding, are skipped. *)
Lemma skip_loop process fuel hdr hl c p eor cl skd rest w :
  source (skd ++ rest) w -> state w = (c, p, 0 <? c, eor, cl) -> 0 <= c -> 0 <= p -> blen skd = c + p -> skd ++ rest <> [] ->
  (Nat.max 1 (length skd) <= fuel)%nat ->
  exists fuel' w1, fill_loop OS_Errno process fuel hdr hl w = at_boundary process fuel' hdr hl w1 /\ source rest w1
    /\ state w1 = (0, 0, false, eor, cl) /\ fixed w1 = fixed w /\ (skd = [] -> 0 < avail w1)
    /\ (fuel <= fuel' + Nat.max 1 (length skd))%nat.
Proof.
  revert c p skd w. induction fuel as [|fuel IH]; intros c p skd w Hs Hst Hc Hp Hl Hne Hf; [lia|]. cbn [fill_loop].
  destruct (refill_ok _ w Hs Hne) as (w0 & E0 & H0 & Ha & Est & Efx). rewrite (obj_bind_val _ _ _ _ _ E0). cbn [negb].
  rewrite <- Est in Hst. pose proof (src_avail _ _ H0) as Ha'. rewrite blen_app in Ha'.
  destruct (deliver_skip c p eor cl _ w0 H0 Hst Hc) as (w1 & E1 & H1 & Efx1 & Est1 & Ha1). set (k := Z.min c (avail w0)) in *.
  rewrite (obj_bind_val _ _ _ _ _ E1).
  assert (Hcut : forall j, 0 <= j <= c + p -> drop (Z.to_nat j) (skd ++ rest) = drop (Z.to_nat j) skd ++ rest
    /\ blen (drop (Z.to_nat j) skd) = c + p - j /\ (length (drop (Z.to_nat j) skd) + Z.to_nat j = length skd)%nat).
  { intros j Hj. unfold blen in *. rewrite length_drop. split; [apply drop_app_le; lia|lia]. }
  destruct (Z.ltb_spec 0 (c - k)) as [Hk|Hk].
  { destruct (Hcut k ltac:(lia)) as (Ec & El & El'). rewrite Ec in H1.
    assert (E : true = (0 <? c - k)) by (symmetry; apply Z.ltb_lt; exact Hk). rewrite E in Est1.
    destruct (IH (c - k) p (drop (Z.to_nat k) skd) w1 H1 Est1) as (fuel' & w' & Ef & Hs' & Est' & Efx' & _ & Hfu); try (unfold blen in *; lia).
    { intros E'. apply app_eq_nil in E' as [E' _]. rewrite E', blen_nil in El. lia. }
    exists fuel', w'. split_and!; try assumption; [congruence| |unfold blen in *; lia].
    intros ->. rewrite blen_nil in Hl. lia. }
  assert (Ek : k = c) by lia. rewrite Ek, Z.sub_diag in Est1. change (0 <? 0) with false in Est1.
  destruct (skip_padding_ok 0 p false eor cl _ w1 H1 Est1 Hp) as (w2 & E2 & H2 & Efx2 & Est2 & Ha2). set (j := Z.min p (avail w1)) in *.
  rewrite (obj_bind_val _ _ _ _ _ E2). rewrite drop_drop in H2.
  replace (Z.to_nat k + Z.to_nat j)%nat with (Z.to_nat (c + j)) in H2 by lia.
  destruct (Hcut (c + j) ltac:(lia)) as (Ec & El & El'). rewrite Ec in H2.
  destruct (Z.ltb_spec 0 (p - j)) as [Hj|Hj].
  { destruct (IH 0 (p - j) (drop (Z.to_nat (c + j)) skd) w2 H2 Est2) as (fuel' & w' & Ef & Hs' & Est' & Efx' & _ & Hfu); try (unfold blen in *; lia).
    { intros E'. apply app_eq_nil in E' as [E' _]. rewrite E', blen_nil in El. lia. }
    exists fuel', w'. split_and!; try assumption; [congruence| |unfold blen in *; lia].
    intros ->. rewrite blen_nil in Hl. lia. }
  exists fuel, w2. split; [reflexivity|]. rewrite (blen_zero (drop (Z.to_nat (c + j)) skd)) in H2 by lia. replace (p - j) with 0 in Est2 by lia.
  split_and!; try assumption; [congruence| |lia]. intros ->. rewrite blen_nil in Hl. lia.
Qed.

(** Takes the part of the header that is in the buffer, and processes the header when
    that is the rest of it. *)
Lemma boundary_step process fuel hb hj hrest rest cl w :
  source (hrest ++ rest) w -> state w = (0, 0, false, false, cl) -> blen hb + blen hrest = 8 -> blen hj = blen hrest ->
  let k := Z.min (blen hrest) (avail w) in
  (k < blen hrest /\ exists w1,
     at_boundary process fuel (hb ++ hj) (blen hb) w
     = fill_loop OS_Errno process fuel ((hb ++ take (Z.to_nat k) hrest) ++ drop (Z.to_nat k) hj) (blen (hb ++ take (Z.to_nat k) hrest)) w1
     /\ source (drop (Z.to_nat k) hrest ++ rest) w1 /\ state w1 = (0, 0, false, false, cl) /\ fixed w1 = fixed w)
  \/ (exists w1, at_boundary process fuel (hb ++ hj) (blen hb) w
     = (status ← process (hb ++ hrest); more ← after_header status;
        if (more : bool) then fill_loop OS_Errno process fuel (hb ++ hrest) 0 else mret tt) w1
     /\ source rest w1 /\ state w1 = (0, 0, false, true, cl) /\ fixed w1 = fixed w /\ stop (stream w1) = rdNext (stream w1)).
Proof.
  intros Hs Hst Hb Hj k. unfold at_boundary. pose proof (src_avail _ _ Hs) as Ha. rewrite blen_app in Ha. pose proof (blen_nonneg hrest).
  destruct w as [s r co]. unfold avail in k, Ha. cbn [stream] in k, Ha.
  injection Hst as Ec Ep Esk Eeor Ecl. rewrite F_gets, Eeor. cbv zeta.
  replace (FCGI_HEADER_LEN - blen hb) with (blen hrest) by (unfold FCGI_HEADER_LEN; lia). fold k.
  assert (El : blen (take (Z.to_nat k) hrest) = k) by (unfold blen in *; rewrite length_take; lia).
  pose proof (src_drop _ _ _ _ _ _ k Hs ltac:(cbn [stream]; lia)) as Hs2. cbn [stream conn] in Hs2.
  rewrite drop_app_le in Hs2 by (unfold blen in *; lia).
  assert (Em : memcpy (hb ++ hj) (blen hb) (buff s) (rdNext s) k = Ok (hb ++ take (Z.to_nat k) hrest ++ drop (Z.to_nat k) hj)).
  { destruct Hs as [_ _ (pre & mid & post & Eb & Er & Ebs & Ei)]. cbn [stream conn] in *. rewrite Eb, <- (take_drop (Z.to_nat k) hj) at 1.
    assert (Et : take (Z.to_nat k) hrest = take (Z.to_nat k) mid).
    { apply (f_equal (take (Z.to_nat k))) in Ei. rewrite !take_app_le in Ei by (unfold blen in *; lia). exact Ei. }
    rewrite <- (take_drop (Z.to_nat k) mid), <- Et, <- (app_assoc (take _ _)). apply memcpy_move; [reflexivity| |exact Er|lia].
    rewrite El. unfold blen in *. rewrite length_take. lia. }
  rewrite Em, obj_lift_bind, F_stream.
  destruct (Z.ltb_spec (blen hb + k) FCGI_HEADER_LEN) as [Hk|Hk]; unfold FCGI_HEADER_LEN in Hk.
  - left. split; [lia|]. eexists. split; [rewrite <- app_assoc, blen_app, El; reflexivity|].
    split; [unfold source; cbn [stream conn]; exact Hs2|]. split; [subst; fields|reflexivity].
  - right. rewrite F_stream. assert (Ek : k = blen hrest) by lia.
    eexists. split; [rewrite Ek; rewrite take_blen, (drop_ge hj), app_nil_r by (unfold blen in *; lia); reflexivity|].
    rewrite <- Ek. rewrite (drop_ge hrest) in Hs2 by (unfold blen in *; lia).
    split_and!; [exact Hs2|subst; fields|reflexivity|reflexivity].
Qed.

(** What is left of a header. *)
Lemma header_rest process fuel hb hj hrest rest cl w :
  source (hrest ++ rest) w -> state w = (0, 0, false, false, cl) -> blen hb + blen hrest = 8 -> blen hj = blen hrest -> hrest <> [] ->
  (length hrest <= fuel)%nat ->
  exists fuel' w1, fill_loop OS_Errno process fuel (hb ++ hj) (blen hb) w
    = (status ← process (hb ++ hrest); more ← after_header status;
       if (more : bool) then fill_loop OS_Errno process fuel' (hb ++ hrest) 0 else mret tt) w1
    /\ source rest w1 /\ state w1 = (0, 0, false, true, cl) /\ fixed w1 = fixed w /\ stop (stream w1) = rdNext (stream w1)
    /\ (fuel <= fuel' + length hrest)%nat.
Proof.
  remember (length hrest) as n eqn:En. revert fuel hb hj hrest w En. induction (Nat.lt_wf_0 n) as [n _ IH].
  intros fuel hb hj hrest w -> Hs Hst Hb Hj Hne Hf. assert (0 < length hrest)%nat by (destruct hrest; [congruence|cbn; lia]).
  destruct (skip_loop process fuel (hb ++ hj) (blen hb) 0 0 false cl [] (hrest ++ rest) w Hs Hst) as (fuel' & w1 & E & Hs1 & Hst1 & Hfx1 & Ha & Hf');
    [lia|lia|reflexivity|intros E; destruct hrest; [congruence|discriminate E]|cbn; lia|].
  rewrite E. clear E. specialize (Ha eq_refl). cbn [length Nat.max] in Hf'. pose proof (blen_nonneg hrest).
  destruct (boundary_step process fuel' hb hj hrest rest cl w1 Hs1 Hst1 Hb Hj) as [(Hk & w2 & E2 & Hs2 & Hst2 & Hfx2)|(w2 & E2 & Hs2 & Hst2 & Hfx2 & Hstop)].
  - set (k := Z.min (blen hrest) (avail w1)) in *. rewrite E2.
    assert (El : (length (take (Z.to_nat k) hrest) = Z.to_nat k) /\ (length (drop (Z.to_nat k) hrest) = length hrest - Z.to_nat k)%nat)
      by (unfold blen in *; rewrite length_take, length_drop; lia). destruct El as [El1 El2].
    destruct (IH (length (drop (Z.to_nat k) hrest)) ltac:(unfold blen in *; lia) fuel' (hb ++ take (Z.to_nat k) hrest) (drop (Z.to_nat k) hj)
      (drop (Z.to_nat k) hrest) w2 eq_refl Hs2 Hst2) as (fuel2 & w3 & E3 & Hs' & Hst' & Hfx' & Hstop & Hf2).
    + rewrite blen_app. unfold blen in *. lia.
    + unfold blen in *. rewrite length_drop. lia.
    + intros E. rewrite E in El2. cbn in El2. unfold blen in *. lia.
    + unfold blen in *. lia.
    + exists fuel2, w3. rewrite E3, <- !app_assoc, take_drop. split_and!; try assumption; [reflexivity|congruence|unfold blen in *; lia].
  - exists fuel', w2. split_and!; try assumption; [congruence|lia].
Qed.

(** The header of the next record, after what is skipped of the one before. *)
Lemma next_header process fuel hj c p cl skd hdr rest w :
  source (skd ++ hdr ++ rest) w -> state w = (c, p, 0 <? c, false, cl) -> 0 <= c -> 0 <= p -> blen skd = c + p ->
  blen hdr = 8 -> blen hj = 8 -> (length skd + 8 <= fuel)%nat ->
  exists fuel' w1, fill_loop OS_Errno process fuel hj 0 w
    = (status ← process hdr; more ← after_header status;
       if (more : bool) then fill_loop OS_Errno process fuel' hdr 0 else mret tt) w1
    /\ source rest w1 /\ state w1 = (0, 0, false, true, cl) /\ fixed w1 = fixed w /\ stop (stream w1) = rdNext (stream w1)
    /\ (fuel <= fuel' + (length skd + 8))%nat.
Proof.
  intros Hs Hst Hc Hp Hl Hh Hj Hf. assert (hdr <> []) by (intros ->; discriminate Hh).
  assert (El : length hdr = 8%nat) by (unfold blen in Hh; lia). destruct (decide (skd = [])) as [->|Hne].
  { rewrite blen_nil in Hl. assert (c = 0 /\ p = 0) as [-> ->] by lia.
    destruct (header_rest process fuel [] hj hdr rest cl w Hs Hst) as (fuel' & w1 & E & H'); [exact Hh|lia|assumption|cbn in Hf; lia|].
    exists fuel', w1. rewrite blen_nil in E. cbn [app length] in *. rewrite E. split; [reflexivity|]. rewrite El in H'. exact H'. }
  destruct (skip_loop process fuel hj 0 c p false cl skd (hdr ++ rest) w Hs Hst) as (fuel' & w1 & E & Hs1 & Hst1 & Hfx1 & _ & Hf'); try assumption.
  { intros E. apply app_eq_nil in E as [E _]. contradiction. }
  { lia. }
  rewrite E. clear E. assert (0 < length skd)%nat by (destruct skd; [congruence|cbn; lia]).
  destruct (boundary_step process fuel' [] hj hdr rest cl w1 Hs1 Hst1) as [(Hk & w2 & E2 & Hs2 & Hst2 & Hfx2)|(w2 & E2 & Hs2 & Hst2 & Hfx2 & Hstop)]; [exact Hh|lia| |].
  - set (k := Z.min (blen hdr) (avail w1)) in *. cbn [app] in E2. rewrite blen_nil in E2. rewrite E2. pose proof (src_avail _ _ Hs1).
    assert (Ed : (length (drop (Z.to_nat k) hdr) = 8 - Z.to_nat k)%nat) by (rewrite length_drop; lia).
    destruct (header_rest process fuel' (take (Z.to_nat k) hdr) (drop (Z.to_nat k) hj) (drop (Z.to_nat k) hdr) rest cl w2 Hs2 Hst2)
      as (fuel2 & w3 & E3 & Hs' & Hst' & Hfx' & Hstop & Hf2).
    + rewrite <- blen_app, take_drop. exact Hh.
    + unfold blen in *. rewrite !length_drop. lia.
    + intros E. rewrite E in Ed. cbn in Ed. lia.
    + lia.
    + exists fuel2, w3. rewrite E3, take_drop. split_and!; try assumption; [reflexivity|congruence|lia].
  - exists fuel', w2. cbn [app] in E2. rewrite blen_nil in E2. split_and!; try assumption; [congruence|lia].
Qed.

(** Inside a record: the end of it closes the stream, and its padding is skipped. *)
Lemma record_end process fuel hdr hl p cl pad rest w :
  source (pad ++ rest) w -> state w = (0, p, false, true, cl) -> blen pad = p -> pad ++ rest <> [] -> (Nat.max 1 (length pad) <= fuel)%nat ->
  exists w1, fill_loop OS_Errno process fuel hdr hl w = (Ok tt, w1) /\ source rest w1 /\ state w1 = (0, 0, false, true, true)
    /\ fixed w1 = fixed w /\ stop (stream w1) = rdNext (stream w1).
Proof.
  intros Hs Hst Hl Hne Hf. pose proof (blen_nonneg pad).
  destruct (skip_loop process fuel hdr hl 0 p true cl pad rest w Hs Hst) as (fuel' & w1 & E & Hs1 & Hst1 & Hfx1 & _ & _); try (assumption || lia).
  rewrite E. unfold at_boundary. destruct w1 as [s r co]. injection Hst1 as Ec Ep Esk Eeor Ecl. rewrite F_gets, Eeor.
  eexists. split; [reflexivity|]. split; [exact Hs1|]. split; [fields|]. split; [exact Hfx1|reflexivity].
Qed.

(** ** Headers *)

Definition record_header (r : record) : bytes := take 8 (encode_record r).

Lemma encode_header r : encode_record r = record_header r ++ r_content r ++ r_padding r.
Proof. reflexivity. Qed.

Lemma blen_header r : blen (record_header r) = 8.
Proof. reflexivity. Qed.

Lemma high_low n : Z.shiftl (n / 256) 8 + n mod 256 = n.
Proof. rewrite Z.shiftl_mul_pow2 by lia. pose proof (Z.div_mod n 256 ltac:(lia)). lia. Qed.

(** What [ProcessHeader] does with the header of a record. *)
Lemma ProcessHeader_record fill r s q co :
  ProcessHeader junk OS_Errno fill (record_header r) (mkWorld s q co)
  = (let id := r_id r in
     w ← obj_get (fun w => w);
     if r_type r =? FCGI_BEGIN_REQUEST then ProcessBeginRecord junk OS_Errno fill id
     else if id =? FCGI_NULL_REQUEST_ID then ProcessManagementRecord junk OS_Errno fill (r_type r)
     else if negb (id =? requestId (request w)) then mret SKIP
     else if negb (r_type r =? stream_type (stream w)) then mret FCGX_PROTOCOL_ERROR
     else mret STREAM_RECORD)
      (mkWorld (s <| contentLen := blen (r_content r) |> <| paddingLen := blen (r_padding r) |>) q co).
Proof.
  unfold ProcessHeader. change (version (header_of (record_header r))) with FCGI_VERSION_1. rewrite Z.eqb_refl. cbn [negb].
  change (requestIdB1 (header_of (record_header r))) with (r_id r / 256). change (requestIdB0 (header_of (record_header r))) with (r_id r mod 256).
  change (contentLengthB1 (header_of (record_header r))) with (blen (r_content r) / 256).
  change (contentLengthB0 (header_of (record_header r))) with (blen (r_content r) mod 256).
  change (paddingLength (header_of (record_header r))) with (blen (r_padding r)). change (hdr_type (header_of (record_header r))) with (r_type r).
  rewrite !high_low. cbv zeta. rewrite F_stream. reflexivity.
Qed.

Lemma after_header_ok status c p cl i w :
  source i w -> state w = (c, p, false, true, cl) -> 0 <= c -> status = STREAM_RECORD \/ status = SKIP \/ status = MGMT_RECORD ->
  exists w1, after_header status w = (Ok (negb ((status =? STREAM_RECORD) && (c =? 0))), w1) /\ source i w1 /\ fixed w1 = fixed w
    /\ state w1 = (c, p, status =? SKIP, false, (status =? STREAM_RECORD) && (c =? 0))
    /\ (stop (stream w) = rdNext (stream w) -> stop (stream w1) = rdNext (stream w1)).
Proof.
  intros Hs Hst Hc Hk. destruct w as [s r co]. injection Hst as Ec Ep Esk Eeor Ecl. unfold after_header. rewrite F_stream, F_gets.
  change (contentLen (s <| eorStop := false |> <| isClosed := false |>)) with (contentLen s). rewrite Ec.
  destruct Hk as [->|[->| ->]]; unfold STREAM_RECORD, SKIP, MGMT_RECORD; cbn [Z.eqb andb negb].
  - destruct (Z.eqb_spec c 0) as [E|E].
    + eexists. split; [reflexivity|]. split; [exact Hs|]. split; [reflexivity|]. split; [subst; fields|reflexivity].
    + eexists. split; [reflexivity|]. split; [exact Hs|]. split; [reflexivity|]. split; [subst; fields|auto].
  - eexists. split; [reflexivity|]. split; [exact Hs|]. split; [reflexivity|]. split; [subst; fields|auto].
  - eexists. split; [reflexivity|]. split; [exact Hs|]. split; [reflexivity|]. split; [subst; fields|auto].
Qed.

(** A reply in the middle of reading. *)
Lemma write_it_all_source b i w :
  source i w -> Forall is_Some (accepts (conn w)) ->
  exists a w1, write_it_all b w = (Ok 0, w1) /\ source i w1 /\ state w1 = state w /\ Forall is_Some a
    /\ fixed w1 = (isReader (stream w), FCGI_errno (stream w), stream_type (stream w), request w, a, written (conn w) ++ b)
    /\ stop (stream w1) = stop (stream w) /\ rdNext (stream w1) = rdNext (stream w).
Proof.
  intros Hs Ha. destruct w as [s r co]. destruct (write_it_all_ok b s r co Ha) as (a & E & Ha'). exists a. eexists. split; [exact E|].
  split; [exact Hs|]. auto 10.
Qed.
End Fill.

(** ** What a client can still get

    [K later i st fx]: after the bytes of the buffer the client gets [later] from the
    input [i], in that state; [Ended]: the stream is closed. *)
Section Buffered.
Context (junk : Z -> Z).
Context (K : bytes -> bytes -> Z * Z * bool * bool * bool -> bool * Z * Z * Request * list (option Z) * bytes -> Prop).
Context (Ended : World -> Prop).
Context (HK : forall later i w, K later i (state w) (fixed w) ->
  isReader (stream w) = true /\ isClosed (stream w) = false /\ (length later <= length i)%nat).
Context (HE : forall w, Ended w -> isReader (stream w) = true /\ isClosed (stream w) = true /\ stop (stream w) = rdNext (stream w)).
Context (Hunget : forall s r c, Ended (mkWorld s r c) -> Ended (mkWorld (s <| stopUnget := rdNext s |>) r c)).

(** [a] is in the buffer and [later] comes after it. *)
Definition open_at (a later : bytes) (w : World) : Prop :=
  exists i, K later i (state w) (fixed w) /\ source (a ++ i) w
    /\ stop (stream w) = rdNext (stream w) + blen a /\ stop (stream w) <= buffStop (stream w).

Definition reading (d : bytes) (w : World) : Prop :=
  (exists a later, d = a ++ later /\ open_at a later w) \/ (d = [] /\ Ended w).

Lemma reading_open d w : reading d w ->
  isReader (stream w) = true /\ 0 <= stop (stream w) - rdNext (stream w) <= blen d
  /\ (isClosed (stream w) = true -> d = []) /\ (length d <= bytes_left w)%nat.
Proof.
  intros [(a & later & -> & i & Hk & Hs & Hstop & Hle)|[-> He]].
  - destruct (HK _ _ _ Hk) as (Er & Ec & Hl). rewrite (bytes_left_source _ _ Hs), Er, Ec, Hstop, !blen_app, !length_app.
    pose proof (blen_nonneg a). pose proof (blen_nonneg later). split_and!; (reflexivity || discriminate || lia).
  - destruct (HE w He) as (Er & Ec & Hstop). rewrite Hstop, blen_nil. cbn [length]. split_and!; (assumption || auto || lia).
Qed.

(** Bytes taken from those in the buffer. *)
Lemma open_take b a later s r co :
  open_at (b ++ a) later (mkWorld s r co) ->
  take_bytes junk (blen b) (mkWorld s r co) = (Ok b, mkWorld (s <| rdNext := rdNext s + blen b |>) r co)
  /\ open_at a later (mkWorld (s <| rdNext := rdNext s + blen b |>) r co).
Proof.
  intros (i & Hk & Hs & Hstop & Hle). rewrite <- app_assoc in Hs. cbn [stream] in *. rewrite blen_app in Hstop. pose proof (blen_nonneg a). pose proof (blen_nonneg b).
  destruct (take_bytes_ok junk b _ s r co Hs) as [E Hs']; [unfold avail; cbn [stream]; lia|]. split; [exact E|].
  exists i. split_and!; try assumption. change (stop s = (rdNext s + blen b) + blen a). lia.
Qed.

Lemma reading_take b d w : reading (b ++ d) w -> isClosed (stream w) = false -> blen b <= stop (stream w) - rdNext (stream w) ->
  exists w', take_bytes junk (blen b) w = (Ok b, w') /\ reading d w' /\ isClosed (stream w') = false
    /\ stop (stream w') - rdNext (stream w') = stop (stream w) - rdNext (stream w) - blen b.
Proof.
  intros HR Hc Hb. destruct HR as [(a & later & E & Ho)|[_ He]]; [|destruct (HE w He) as (_ & Hc' & _); congruence].
  pose proof Ho as (i & _ & _ & Hstop & _).
  assert (Ea : a = b ++ drop (length b) a).
  { rewrite <- (take_drop (length b) a) at 1. f_equal. apply (f_equal (take (length b))) in E. rewrite take_app_length in E.
    rewrite take_app_le in E by (unfold blen in *; lia). symmetry. exact E. }
  rewrite Ea in Ho, E. destruct w as [s r co]. destruct (open_take _ _ _ _ _ _ Ho) as [Et Ho']. rewrite <- app_assoc in E. apply app_inv_head in E.
  eexists. split; [exact Et|]. split; [left; eauto|]. split; [exact Hc|]. cbn [stream]. change (stop s - (rdNext s + blen b) = stop s - rdNext s - blen b). lia.
Qed.

Lemma reading_next c d w : reading (c :: d) w -> isClosed (stream w) = false -> rdNext (stream w) <> stop (stream w) ->
  exists w', next_byte w = (Ok c, w') /\ reading d w'.
Proof.
  intros HR Hc Hn. destruct HR as [(a & later & E & Ho)|(E & _)]; [|discriminate E].
  pose proof Ho as (i & _ & Hs & Hstop & Hle).
  destruct a as [|x a]; [rewrite blen_nil in Hstop; lia|]. injection E as <- ->. destruct w as [s r co].
  destruct (open_take [c] a later s r co Ho) as [_ Ho']. pose proof (blen_nonneg a). rewrite blen_cons in Hstop. cbn [stream] in *.
  destruct (next_byte_ok c _ s r co Hs) as [E _]; [unfold avail; cbn [stream]; lia|]. eexists. split; [exact E|]. left. eauto.
Qed.

Lemma reading_unget d s r c : reading d (mkWorld s r c) -> reading d (mkWorld (s <| stopUnget := rdNext s |>) r c).
Proof. intros [(a & later & E & Ho)|(E & Ho)]; [left; exists a, later; split; [exact E|exact Ho]|right; auto]. Qed.

(** What a step that fills the buffer has to give. *)
Lemma reading_filled d w' :
  ((d = [] /\ Ended w') \/ (exists a later, a <> [] /\ d = a ++ later /\ open_at a later w')) ->
  reading d w' /\ isClosed (stream w') = bool_decide (d = []) /\ (d <> [] -> rdNext (stream w') <> stop (stream w')).
Proof.
  intros [[-> He]|(a & later & Hne & -> & Ho)].
  - destruct (HE w' He) as (_ & Hc & _). split; [right; auto|]. split; [exact Hc|congruence].
  - split; [left; eauto|]. destruct Ho as (i & Hk & _ & Hstop & _). destruct (HK _ _ _ Hk) as (_ & Hc & _).
    rewrite bool_decide_eq_false_2 by (intros E'; apply app_eq_nil in E' as [E' _]; contradiction).
    split; [exact Hc|]. intros _ E'. apply Hne, blen_zero. lia.
Qed.
End Buffered.
