(* ===== verification/FCGXStream.v ===== *)
(** * Correctness of a stream of records

    The contents of the records of a stream, whatever the connection carries between
    them: records of other requests, requests that are begun on the same connection and
    management records of unknown types. *)
From stdpp Require Import base strings list numbers.
From Stdlib Require Import ZArith Lia.
From coqutil Require Import Datatypes.RecordSetters.
From S2P Require Import Prelude Object CString RawTile FCGX FCGXRecords FCGXWriter FCGXReader FCGXFill.
Import TriangleBracketNotations.
#[local] Open Scope string_scope.
#[local] Open Scope list_scope.
#[local] Open Scope Z_scope.

(** ** The records a connection carries *)

(** What a record gives the client of stream [T] of request [ID]. *)
Definition delivered (T ID : Z) (r : record) : bytes :=
  if (r_type r =? T) && (r_id r =? ID) then r_content r else [].

(** What the library answers: another request is refused, a type that is not known is
    said to be so. *)
Definition reply (r : record) : list record :=
  if r_type r =? FCGI_BEGIN_REQUEST then [mkRecord FCGI_END_REQUEST (r_id r) (MakeEndRequestBody 0 FCGI_CANT_MPX_CONN) []]
  else if r_id r =? FCGI_NULL_REQUEST_ID then [mkRecord FCGI_UNKNOWN_TYPE 0 (MakeUnknownTypeBody (r_type r)) []]
  else [].

Inductive expected (T ID : Z) (r : record) : Prop :=
| Own : r_type r = T -> r_id r = ID -> r_content r <> [] -> expected T ID r
| Other : r_type r <> FCGI_BEGIN_REQUEST -> r_id r <> 0 -> r_id r <> ID -> r_content r <> [] -> expected T ID r
| Begin : r_type r = FCGI_BEGIN_REQUEST -> r_id r <> 0 -> blen (r_content r) = 8 -> expected T ID r
| Unknown : r_type r <> FCGI_BEGIN_REQUEST -> r_type r <> FCGI_GET_VALUES -> r_id r = 0 -> r_content r = [] -> expected T ID r.

Definition status_of (ID : Z) (r : record) : Z :=
  if r_type r =? FCGI_BEGIN_REQUEST then SKIP
  else if r_id r =? 0 then MGMT_RECORD
  else if r_id r =? ID then STREAM_RECORD else SKIP.

Section Stream.
Context (junk : Z -> Z) (OS_Errno T ID : Z) (rq : Request) (eof : record) (tail before answers : bytes).
Context (HT : T <> FCGI_BEGIN_REQUEST) (HID : requestId rq = ID) (HID0 : ID <> 0) (Hbegun : isBeginProcessed rq = true).
Context (Heof : r_type eof = T /\ r_id eof = ID /\ r_content eof = []) (Heofok : record_ok eof).

Lemma record_processed fill r i cl a sent w :
  expected T ID r \/ (r_type r = T /\ r_id r = ID) -> record_ok r -> source i w -> state w = (0, 0, false, true, cl) ->
  fixed w = (true, 0, T, rq, a, sent) -> Forall is_Some a ->
  exists a' w1, ProcessHeader junk OS_Errno fill (record_header r) w = (Ok (status_of ID r), w1) /\ source i w1
    /\ state w1 = (blen (r_content r), blen (r_padding r), false, true, cl)
    /\ fixed w1 = (true, 0, T, rq, a', sent ++ encode_records (reply r)) /\ Forall is_Some a'
    /\ (stop (stream w) = rdNext (stream w) -> stop (stream w1) = rdNext (stream w1)).
Proof.
  intros Hr Hok Hs Hst Hfx Ha. destruct w as [s q co]. injection Hst as Ec Ep Esk Eeor Ecl. injection Hfx as Er Ee Et Eq Ea Es. cbn [request conn stream] in *. subst q.
  rewrite ProcessHeader_record. set (s1 := s <| contentLen := _ |> <| paddingLen := _ |>). cbv zeta. rewrite obj_get_bind. cbn [request stream].
  assert (Hs1 : source i (mkWorld s1 rq co)) by exact Hs.
  assert (Hst1 : state (mkWorld s1 rq co) = (blen (r_content r), blen (r_padding r), false, true, cl)) by fields.
  assert (Hfx1 : fixed (mkWorld s1 rq co) = (true, 0, T, rq, a, sent)) by (unfold fixed; repeat apply f_equal2; first [reflexivity|assumption]).
  assert (Ha1 : Forall is_Some (accepts (conn (mkWorld s1 rq co)))) by (cbn; rewrite Ea; exact Ha).
  assert (Hanswer : forall b n, exists a' w1, (r ← write_it_all b; if r <? 0 then _ ← SetError OS_Errno; mret (-1) else mret n) (mkWorld s1 rq co) = (Ok n, w1)
    /\ source i w1 /\ state w1 = (blen (r_content r), blen (r_padding r), false, true, cl)
    /\ fixed w1 = (true, 0, T, rq, a', sent ++ b) /\ Forall is_Some a'
    /\ (stop s = rdNext s -> stop (stream w1) = rdNext (stream w1))).
  { intros b n. destruct (write_it_all_source b i _ Hs1 Ha1) as (a' & w1 & Ew & Hs' & Hst' & Ha' & Hfx' & Hstop & Hrn).
    exists a', w1. rewrite (obj_bind_val _ _ _ _ _ Ew). split; [reflexivity|]. rewrite Hst', Hfx', Hstop, Hrn. split_and!; try assumption.
    - cbn [stream request conn]. change (isReader s1) with (isReader s). change (FCGI_errno s1) with (FCGI_errno s). change (stream_type s1) with (stream_type s).
      rewrite Er, Ee, Et, Es. reflexivity.
    - intros E. exact E. }
  unfold status_of, reply. destruct (Z.eqb_spec (r_type r) FCGI_BEGIN_REQUEST) as [Eb|Eb].
  - destruct Hr as [[E ? ?|? ? ? ?|_ E0 E8|? ? ? ?]|[? ?]]; try congruence. unfold ProcessBeginRecord. rewrite obj_get_bind. cbn [stream request].
    change (contentLen s1) with (blen (r_content r)). rewrite (proj2 (Z.eqb_neq _ _) E0), (proj2 (Z.eqb_eq _ _) E8). cbn [negb orb]. rewrite Hbegun.
    destruct (MakeHeader_ok FCGI_END_REQUEST (r_id r) (MakeEndRequestBody 0 FCGI_CANT_MPX_CONN) []) as (h & Eh & Een & _);
      [unfold FCGI_END_REQUEST; lia|apply Hok|reflexivity|reflexivity|].
    change (blen (MakeEndRequestBody 0 FCGI_CANT_MPX_CONN)) with 8 in Eh. rewrite blen_nil in Eh. rewrite Eh, obj_lift_bind. rewrite encode_records_cons, <- Een, !app_nil_r.
    apply Hanswer.
  - assert (Hr' : (r_type r = T /\ r_id r = ID) \/ (r_id r <> 0 /\ r_id r <> ID) \/ (r_type r <> FCGI_GET_VALUES /\ r_id r = 0))
      by (destruct Hr as [[]|]; auto; congruence). destruct Hr' as [[Et' Eid]|[[E0 Eid]|[Eg E0]]].
    + rewrite Eid. unfold FCGI_NULL_REQUEST_ID. rewrite (proj2 (Z.eqb_neq _ _) HID0), Z.eqb_refl, HID, Z.eqb_refl. cbn [negb].
      change (stream_type s1) with (stream_type s). rewrite Et, Et', Z.eqb_refl. cbn [negb]. exists a, (mkWorld s1 rq co). rewrite app_nil_r. split_and!; auto.
    + unfold FCGI_NULL_REQUEST_ID. rewrite (proj2 (Z.eqb_neq _ _) E0), HID, (proj2 (Z.eqb_neq _ _) Eid). cbn [negb].
      exists a, (mkWorld s1 rq co). rewrite app_nil_r. split_and!; auto.
    + rewrite E0. cbn [Z.eqb FCGI_NULL_REQUEST_ID]. unfold ProcessManagementRecord. rewrite (proj2 (Z.eqb_neq _ _) Eg). cbv zeta.
      destruct (MakeHeader_ok FCGI_UNKNOWN_TYPE FCGI_NULL_REQUEST_ID (MakeUnknownTypeBody (r_type r)) []) as (h & Eh & Een & Elh);
        [unfold FCGI_UNKNOWN_TYPE; lia|unfold FCGI_NULL_REQUEST_ID; lia|reflexivity|reflexivity|].
      change (blen (MakeUnknownTypeBody (r_type r))) with 8 in Eh. rewrite blen_nil in Eh. rewrite Eh, obj_lift_bind.
      change FCGI_NULL_REQUEST_ID with 0 in Een. rewrite encode_records_cons, <- Een, !app_nil_r. clear Een.
      rewrite <- (take_drop 16 (new_bytes junk 64)), <- (take_drop 8 (take 16 (new_bytes junk 64))), <- app_assoc.
      rewrite <- (app_nil_l (take 8 _ ++ _)). change FCGI_HEADER_LEN with (blen (header_bytes h)) at 1. rewrite memcpy_block by reflexivity.
      rewrite obj_lift_bind, app_nil_l. change 8 with (blen (MakeUnknownTypeBody (r_type r))) at 1. rewrite memcpy_block by reflexivity.
      rewrite obj_lift_bind. unfold respond. rewrite app_assoc, <- (app_nil_l ((header_bytes h ++ _) ++ _)). rewrite memcpy_read by reflexivity.
      rewrite obj_lift_bind. apply Hanswer.
Qed.

(** ** The client's view *)

Definition contents (rs : list record) : bytes := mjoin (delivered T ID <$> rs).
Definition replies (rs : list record) : bytes := encode_records (mjoin (reply <$> rs)).

(** Before the stream [before] was written, since then the answers to the records that
    have been read. *)
Definition answered (sent : bytes) (rs : list record) : Prop :=
  exists sent', sent = before ++ sent' /\ sent' ++ replies rs = answers.

Lemma answered_next sent r rs : answered sent (r :: rs) -> answered (sent ++ encode_records (reply r)) rs.
Proof.
  intros (sent' & -> & E). exists (sent' ++ encode_records (reply r)). rewrite <- !app_assoc. split; [reflexivity|].
  rewrite <- E. unfold replies. cbn [fmap list_fmap mjoin list_join]. rewrite encode_records_app. reflexivity.
Qed.

Lemma answered_all sent : answered sent [] -> sent = before ++ answers.
Proof. intros (sent' & -> & E). rewrite app_nil_r in E. subst sent'. reflexivity. Qed.

(** Content that is begun, its padding and the records that follow. *)
Definition open_stream (later i : bytes) (st : Z * Z * bool * bool * bool) (fx : bool * Z * Z * Request * list (option Z) * bytes) : Prop :=
  exists cur pad rs acc sent,
    later = cur ++ contents rs /\ Forall (expected T ID) rs /\ Forall record_ok rs
    /\ i = cur ++ pad ++ encode_records rs ++ encode_record eof ++ tail
    /\ st = (blen cur, blen pad, false, false, false)
    /\ fx = (true, 0, T, rq, acc, sent) /\ Forall is_Some acc /\ answered sent rs.

(** The end: the padding of the last record is not read. *)
Definition ended_at (w : World) : Prop :=
  source (r_padding eof ++ tail) w /\ state w = (0, blen (r_padding eof), false, false, true)
  /\ (exists acc, fixed w = (true, 0, T, rq, acc, before ++ answers) /\ Forall is_Some acc) /\ stop (stream w) = rdNext (stream w).

Lemma status_cases r : expected T ID r -> status_of ID r = STREAM_RECORD \/ status_of ID r = SKIP \/ status_of ID r = MGMT_RECORD.
Proof. unfold status_of. destruct (_ =? _); [auto|]. destruct (_ =? _); [auto|]. destruct (_ =? _); auto. Qed.

(** A record that is not for the client, and what is skipped of it. *)
Lemma not_own r : expected T ID r -> status_of ID r <> STREAM_RECORD ->
  delivered T ID r = [] /\ (status_of ID r =? SKIP) = (0 <? blen (r_content r)).
Proof.
  assert (Hpos : forall b, b <> [] -> (0 <? blen b) = true).
  { intros b Hb. apply Z.ltb_lt. pose proof (blen_nonneg b). destruct (Z.eq_dec (blen b) 0) as [E|]; [destruct (Hb (blen_zero b E))|lia]. }
  intros [Et Ei Hc|Eb E0 Ei Hc|Eb E0 Ec|Eb Eg E0 Ec]; unfold status_of, delivered, STREAM_RECORD, SKIP, MGMT_RECORD.
  - rewrite Ei, Et. rewrite (proj2 (Z.eqb_neq _ _) HT), (proj2 (Z.eqb_neq _ _) HID0), !Z.eqb_refl. congruence.
  - rewrite (proj2 (Z.eqb_neq _ _) Eb), (proj2 (Z.eqb_neq _ _) E0), (proj2 (Z.eqb_neq _ _) Ei), andb_false_r, (Hpos _ Hc). auto.
  - rewrite Eb, Z.eqb_refl, Ec. rewrite (proj2 (Z.eqb_neq FCGI_BEGIN_REQUEST T)) by congruence. auto.
  - rewrite (proj2 (Z.eqb_neq _ _) Eb), E0, Ec, Z.eqb_refl. rewrite (proj2 (Z.eqb_neq 0 ID)) by congruence. rewrite andb_false_r. auto.
Qed.

Lemma own_record r : expected T ID r -> status_of ID r = STREAM_RECORD ->
  delivered T ID r = r_content r /\ r_content r <> [] /\ reply r = [].
Proof.
  intros [Et Ei Hc|Eb E0 Ei Hc|Eb E0 Ec|Eb Eg E0 Ec]; unfold status_of, delivered, reply, STREAM_RECORD, SKIP, MGMT_RECORD, FCGI_NULL_REQUEST_ID.
  - rewrite Et, Ei, !Z.eqb_refl, (proj2 (Z.eqb_neq _ _) HT), (proj2 (Z.eqb_neq _ _) HID0). auto.
  - rewrite (proj2 (Z.eqb_neq _ _) Eb), (proj2 (Z.eqb_neq _ _) E0), (proj2 (Z.eqb_neq _ _) Ei). discriminate.
  - rewrite Eb, Z.eqb_refl. discriminate.
  - rewrite (proj2 (Z.eqb_neq _ _) Eb), E0. discriminate.
Qed.

(** Content that is begun: a part of it gets into the buffer. *)
Lemma content_open process fuel hdr hl cur pad rs acc sent w :
  cur <> [] -> Forall (expected T ID) rs -> Forall record_ok rs ->
  source (cur ++ pad ++ encode_records rs ++ encode_record eof ++ tail) w -> state w = (blen cur, blen pad, false, false, false) ->
  fixed w = (true, 0, T, rq, acc, sent) -> Forall is_Some acc -> answered sent rs ->
  exists w1 a later, fill_loop OS_Errno process (S fuel) hdr hl w = (Ok tt, w1) /\ a <> [] /\ cur ++ contents rs = a ++ later /\ open_at open_stream a later w1.
Proof.
  intros Hne Hr Hok Hs Hst Hfx Ha Hf. assert (0 < blen cur).
  { pose proof (blen_nonneg cur). destruct (Z.eq_dec (blen cur) 0) as [E|]; [destruct (Hne (blen_zero _ E))|lia]. }
  destruct (content_step OS_Errno process fuel hdr hl _ _ _ _ _ w Hs Hst) as (w1 & k & E & H1 & Hfx1 & Hk & Hst1 & Hstop & Hle); [assumption| |].
  { intros E. apply app_eq_nil in E as [E _]. contradiction. }
  exists w1, (take (Z.to_nat k) cur), (drop (Z.to_nat k) cur ++ contents rs).
  assert (El : blen (take (Z.to_nat k) cur) = k /\ blen (drop (Z.to_nat k) cur) = blen cur - k)
    by (unfold blen in *; rewrite length_take, length_drop; lia). destruct El as [El1 El2].
  split; [exact E|]. split; [intros E'; rewrite E', blen_nil in El1; lia|]. split; [rewrite app_assoc, take_drop; reflexivity|].
  eexists. split; [exists (drop (Z.to_nat k) cur), pad, rs, acc, sent; rewrite El2; split_and!; try assumption; [reflexivity|reflexivity|congruence]|].
  rewrite El1, app_assoc, take_drop. auto.
Qed.

Lemma next_records fuel hj c p skd rs acc sent w :
  Forall (expected T ID) rs -> Forall record_ok rs ->
  source (skd ++ encode_records rs ++ encode_record eof ++ tail) w -> state w = (c, p, 0 <? c, false, false) ->
  0 <= c -> 0 <= p -> blen skd = c + p -> blen hj = 8 ->
  fixed w = (true, 0, T, rq, acc, sent) -> Forall is_Some acc -> answered sent rs ->
  (length (skd ++ encode_records rs ++ encode_record eof) < fuel)%nat ->
  exists w', fill_loop OS_Errno (ProcessHeader junk OS_Errno (fill junk OS_Errno 0)) fuel hj 0 w = (Ok tt, w')
    /\ ((contents rs = [] /\ ended_at w') \/ (exists a later, a <> [] /\ contents rs = a ++ later /\ open_at open_stream a later w')).
Proof.
  intros Hr. revert fuel hj c p skd acc sent w. induction Hr as [|r rs Hr Hrs IH]; intros fuel hj c p skd acc sent w Hok Hs Hst Hc Hp Hl Hj Hfx Ha Hf Hfu.
  - destruct Heof as (Et & Ei & Ec). cbn [encode_records fmap list_fmap mjoin list_join app] in Hs, Hfu. rewrite !length_app in Hfu.
    rewrite encode_header, Ec in Hs. cbn [app] in Hs.
    destruct (next_header OS_Errno (ProcessHeader junk OS_Errno (fill junk OS_Errno 0)) fuel hj c p false skd (record_header eof) (r_padding eof ++ tail) w Hs Hst)
      as (fuel' & w1 & E & Hs1 & Hst1 & Hfx1 & Hstop & _); try (assumption || reflexivity).
    { rewrite encode_header in Hfu. rewrite length_app in Hfu. change (length (record_header eof)) with 8%nat in Hfu. lia. }
    rewrite E. clear E. rewrite <- Hfx1 in Hfx.
    destruct (record_processed (fill junk OS_Errno 0) eof _ false acc sent w1 (or_intror (conj Et Ei)) Heofok Hs1 Hst1 Hfx Ha)
      as (a' & w2 & E2 & Hs2 & Hst2 & Hfx2 & Ha2 & Hstop2). rewrite (obj_bind_val _ _ _ _ _ E2). rewrite Ec, blen_nil in Hst2.
    assert (Est : status_of ID eof = STREAM_RECORD /\ reply eof = []).
    { unfold status_of, reply, FCGI_NULL_REQUEST_ID. rewrite Et, Ei, (proj2 (Z.eqb_neq _ _) HT), (proj2 (Z.eqb_neq _ _) HID0), Z.eqb_refl. auto. }
    destruct Est as [-> Ere]. destruct (after_header_ok STREAM_RECORD 0 _ false _ w2 Hs2 Hst2 ltac:(lia) ltac:(auto)) as (w3 & E3 & Hs3 & Hfx3 & Hst3 & Hstop3).
    rewrite (obj_bind_val _ _ _ _ _ E3). exists w3. split; [reflexivity|]. left. split; [reflexivity|].
    split; [exact Hs3|]. split; [exact Hst3|]. split; [|auto]. exists a'. rewrite Hfx3, Hfx2, Ere. split; [|exact Ha2]. rewrite app_nil_r, (answered_all _ Hf). reflexivity.
  - pose proof (Forall_inv Hok) as Hr1. pose proof (Forall_inv_tail Hok) as Hok1. rewrite encode_records_cons, <- !app_assoc in Hs. rewrite encode_records_cons, !length_app in Hfu.
    rewrite encode_header, <- !app_assoc in Hs. rewrite (encode_header r), !length_app in Hfu. change (length (record_header r)) with 8%nat in Hfu.
    destruct (next_header OS_Errno (ProcessHeader junk OS_Errno (fill junk OS_Errno 0)) fuel hj c p false skd (record_header r) _ w Hs Hst)
      as (fuel' & w1 & E & Hs1 & Hst1 & Hfx1 & Hstop & Hfu'); try (assumption || reflexivity || lia).
    rewrite E. clear E. rewrite <- Hfx1 in Hfx.
    destruct (record_processed (fill junk OS_Errno 0) r _ false acc sent w1 (or_introl Hr) Hr1 Hs1 Hst1 Hfx Ha)
      as (a' & w2 & E2 & Hs2 & Hst2 & Hfx2 & Ha2 & Hstop2). rewrite (obj_bind_val _ _ _ _ _ E2).
    destruct (after_header_ok (status_of ID r) _ _ false _ w2 Hs2 Hst2 (blen_nonneg _) (status_cases r Hr)) as (w3 & E3 & Hs3 & Hfx3 & Hst3 & Hstop3).
    rewrite (obj_bind_val _ _ _ _ _ E3). rewrite <- Hfx3 in Hfx2.
    pose proof (answered_next _ _ _ Hf) as Hf'.
    unfold contents. cbn [fmap list_fmap mjoin list_join]. fold (contents rs).
    destruct (decide (status_of ID r = STREAM_RECORD)) as [Ek|Ek].
    + destruct (own_record r Hr Ek) as (Ed & Hne & _). rewrite Ek in Hst3 |- *. change (STREAM_RECORD =? STREAM_RECORD) with true in *. cbn [andb] in *.
      assert (Hc0 : (blen (r_content r) =? 0) = false).
      { apply Z.eqb_neq. intros E. exact (Hne (blen_zero _ E)). } rewrite Hc0 in *. cbn [negb]. rewrite Ed.
      destruct fuel' as [|fuel']; [lia|].
      destruct (content_open (ProcessHeader junk OS_Errno (fill junk OS_Errno 0)) fuel' (record_header r) 0 _ _ _ _ _ w3 Hne Hrs Hok1 Hs3 Hst3 Hfx2 Ha2 Hf')
        as (w4 & a & later & E4 & Hna & Eal & H4). exists w4. rewrite E4. eauto 8.
    + destruct (not_own r Hr Ek) as [Ed Esk]. rewrite (proj2 (Z.eqb_neq _ _) Ek) in *. cbn [andb negb] in *. rewrite Ed. cbn [app]. rewrite Esk in Hst3.
      rewrite app_assoc in Hs3.
      apply (IH fuel' (record_header r) _ _ _ _ _ w3 Hok1 Hs3 Hst3 (blen_nonneg _) (blen_nonneg _) (blen_app _ _) (blen_header r) Hfx2 Ha2 Hf').
      rewrite !length_app. lia.
Qed.

(** ** The stream as the client's functions need it *)

Lemma length_contents rs : (length (contents rs) <= length (encode_records rs))%nat.
Proof.
  induction rs as [|r rs IH]; [cbn; lia|]. change (contents (r :: rs)) with (delivered T ID r ++ contents rs).
  rewrite encode_records_cons, encode_header, !length_app. unfold delivered. destruct (_ && _); cbn [length]; lia.
Qed.

Lemma open_stream_ok later i w : open_stream later i (state w) (fixed w) ->
  isReader (stream w) = true /\ isClosed (stream w) = false /\ (length later <= length i)%nat.
Proof.
  intros (cur & pad & rs & acc & sent & -> & _ & _ & -> & Hst & Hfx & _). injection Hst as Ec Ep Esk Eeor Ecl. injection Hfx as Er Ee Et Eq Ea Es.
  rewrite !length_app. pose proof (length_contents rs). split_and!; (assumption || lia).
Qed.

Lemma ended_ok w : ended_at w -> isReader (stream w) = true /\ isClosed (stream w) = true /\ stop (stream w) = rdNext (stream w).
Proof. intros (_ & Hst & (acc & Hfx & _) & Hstop). injection Hst as Ec Ep Esk Eeor Ecl. injection Hfx as Er Ee Et Eq Ea Es. auto. Qed.

Lemma ended_unget s r c : ended_at (mkWorld s r c) -> ended_at (mkWorld (s <| stopUnget := rdNext s |>) r c).
Proof. intros H. exact H. Qed.

Lemma stream_fill d w : reading open_stream ended_at d w -> isClosed (stream w) = false -> rdNext (stream w) = stop (stream w) ->
  exists w', FillBuffProc junk OS_Errno w = (Ok tt, w') /\ reading open_stream ended_at d w' /\ isClosed (stream w') = bool_decide (d = [])
    /\ (d <> [] -> rdNext (stream w') <> stop (stream w')).
Proof.
  intros HR Hc Hn. destruct HR as [(a & later & -> & i & (cur & pad & rs & acc & sent & -> & Hr & Hok & -> & Hst & Hfx & Ha & Hf) & Hs & Hstop & Hle)|[_ He]];
    [|destruct (ended_ok w He) as (_ & Hc' & _); congruence].
  assert (a = []) as -> by (apply blen_zero; lia). cbn [app] in Hs |- *. unfold FillBuffProc. change (fill junk OS_Errno 1) with
    (left ← obj_get bytes_left; fill_loop OS_Errno (ProcessHeader junk OS_Errno (fill junk OS_Errno 0)) (2 + left) (new_bytes junk FCGI_HEADER_LEN) 0).
  rewrite obj_get_bind, (bytes_left_source _ _ Hs). destruct (decide (cur = [])) as [->|Hne].
  - cbn [app] in *. rewrite blen_nil in Hst.
    destruct (next_records (2 + length (pad ++ encode_records rs ++ encode_record eof ++ tail)) (new_bytes junk FCGI_HEADER_LEN) 0 (blen pad) pad rs acc sent w)
      as (w' & E & Hd); try (assumption || reflexivity || apply blen_nonneg || lia).
    { rewrite !length_app. lia. }
    exists w'. split; [exact E|]. apply (reading_filled open_stream ended_at open_stream_ok ended_ok), Hd.
  - destruct (content_open (ProcessHeader junk OS_Errno (fill junk OS_Errno 0)) (1 + length (cur ++ pad ++ encode_records rs ++ encode_record eof ++ tail))
      (new_bytes junk FCGI_HEADER_LEN) 0 cur pad rs acc sent w Hne Hr Hok Hs Hst Hfx Ha Hf) as (w' & a & later & E & Hna & Eal & Ho).
    exists w'. split; [exact E|]. apply (reading_filled open_stream ended_at open_stream_ok ended_ok). eauto 8.
Qed.
End Stream.
