(* ===== verification/FCGXAccept.v ===== *)
(** * Correctness of accepting and finishing requests

    From the bytes of a connection, in pieces of any size, [FCGX_Accept_r] makes the
    environment, the input and the output streams of the request; when it is finished,
    the web server has got what was put into them. *)
From stdpp Require Import base strings list numbers.
From Stdlib Require Import ZArith Lia.
From coqutil Require Import Datatypes.RecordSetters.
From S2P Require Import Prelude Object CString RawTile FCGX FCGXRecords FCGXWriter FCGXReader FCGXFill FCGXStream.
Import TriangleBracketNotations.
#[local] Open Scope string_scope.
#[local] Open Scope list_scope.
#[local] Open Scope Z_scope.

Section Accept.
Context (junk : Z -> Z) (OS_Errno : Z).

(** ** The body of a record *)

Section Body.
Context (rest : bytes) (fx0 : bool * Z * Z * Request * list (option Z) * bytes).
Context (Hrest : rest <> []) (Hfx0 : fx0.1.1.1.1.1 = true).

Definition open_body (later i : bytes) (st : Z * Z * bool * bool * bool) (fx : bool * Z * Z * Request * list (option Z) * bytes) : Prop :=
  i = later ++ rest /\ st = (blen later, 0, false, true, false) /\ fx = fx0.

Definition ended_body (w : World) : Prop :=
  source rest w /\ state w = (0, 0, false, true, true) /\ fixed w = fx0 /\ stop (stream w) = rdNext (stream w).

Lemma open_body_ok later i w : open_body later i (state w) (fixed w) ->
  isReader (stream w) = true /\ isClosed (stream w) = false /\ (length later <= length i)%nat.
Proof.
  intros (-> & Hst & Hfx). injection Hst as Ec Ep Esk Eeor Ecl. rewrite <- Hfx in Hfx0. rewrite length_app. split; [exact Hfx0|]. split; [exact Ecl|lia].
Qed.

Lemma ended_body_ok w : ended_body w -> isReader (stream w) = true /\ isClosed (stream w) = true /\ stop (stream w) = rdNext (stream w).
Proof.
  intros (_ & Hst & Hfx & Hstop). injection Hst as Ec Ep Esk Eeor Ecl. rewrite <- Hfx in Hfx0. auto.
Qed.

Lemma body_fill d w : reading open_body ended_body d w -> isClosed (stream w) = false -> rdNext (stream w) = stop (stream w) ->
  exists w', fill junk OS_Errno 0 w = (Ok tt, w') /\ reading open_body ended_body d w' /\ isClosed (stream w') = bool_decide (d = [])
    /\ (d <> [] -> rdNext (stream w') <> stop (stream w')).
Proof.
  intros HR Hc Hn. destruct HR as [(a & later & -> & i & (-> & Hst & Hfx) & Hs & Hstop & Hle)|[_ He]];
    [|destruct (ended_body_ok w He) as (_ & Hc' & _); congruence].
  assert (a = []) as -> by (apply blen_zero; lia). cbn [app] in Hs |- *.
  change (fill junk OS_Errno 0) with
    (left ← obj_get bytes_left; fill_loop OS_Errno (fun _ => obj_lift (Err OutOfFuel)) (2 + left) (new_bytes junk FCGI_HEADER_LEN) 0).
  rewrite obj_get_bind, (bytes_left_source _ _ Hs).
  assert (Hne : forall b, b ++ rest <> []) by (intros b E; apply app_eq_nil in E as [_ E]; contradiction).
  destruct (decide (later = [])) as [->|Hl].
  - destruct (record_end OS_Errno (fun _ => obj_lift (Err OutOfFuel)) (2 + length ([] ++ rest)) (new_bytes junk FCGI_HEADER_LEN) 0 0 false [] rest w Hs Hst
      eq_refl (Hne [])) as (w' & E & Hs' & Hst' & Hfx' & Hstop'); [cbn; lia|].
    exists w'. split; [exact E|]. apply (reading_filled open_body ended_body open_body_ok ended_body_ok). left. split; [reflexivity|].
    split; [exact Hs'|]. split; [exact Hst'|]. split; [congruence|exact Hstop'].
  - assert (0 < blen later) by (pose proof (blen_nonneg later); destruct (Z.eq_dec (blen later) 0) as [E|]; [destruct (Hl (blen_zero _ E))|lia]).
    destruct (content_step OS_Errno (fun _ => obj_lift (Err OutOfFuel)) (1 + length (later ++ rest)) (new_bytes junk FCGI_HEADER_LEN) 0 _ _ _ _ _ w Hs Hst)
      as (w1 & k & E & H1 & Hfx1 & Hk & Hst1 & Hstop1 & Hle1); [assumption|apply Hne|].
    exists w1. split; [exact E|]. apply (reading_filled open_body ended_body open_body_ok ended_body_ok). right.
    assert (El : blen (take (Z.to_nat k) later) = k /\ blen (drop (Z.to_nat k) later) = blen later - k)
      by (unfold blen in *; rewrite length_take, length_drop; lia). destruct El as [El1 El2].
    exists (take (Z.to_nat k) later), (drop (Z.to_nat k) later). split; [intros E'; rewrite E', blen_nil in El1; lia|]. split; [rewrite take_drop; reflexivity|].
    eexists. split; [split_and!; [reflexivity|rewrite El2; exact Hst1|congruence]|]. rewrite El1, app_assoc, take_drop. auto.
Qed.
End Body.

(** The whole body of a record, read from inside [ProcessHeader]. *)
Lemma body_read b rest w :
  source (b ++ rest) w -> state w = (blen b, 0, false, true, false) -> isReader (stream w) = true ->
  stop (stream w) = rdNext (stream w) -> rest <> [] ->
  exists w' cl, FCGX_GetStr junk (fill junk OS_Errno 0) (blen b) w = (Ok b, w') /\ source rest w' /\ fixed w' = fixed w
    /\ state w' = (0, 0, false, true, cl) /\ stop (stream w') = rdNext (stream w').
Proof.
  intros Hs Hst Hr Hstop Hne.
  set (fx0 := fixed w). assert (Hfx0 : fx0.1.1.1.1.1 = true) by exact Hr.
  assert (HR : reading (open_body rest fx0) (ended_body rest fx0) (b ++ []) w).
  { left. exists [], b. rewrite app_nil_r. split; [reflexivity|]. exists (b ++ rest). split; [split_and!; auto|]. split; [exact Hs|].
    rewrite blen_nil, Z.add_0_r. pose proof (src_avail _ _ Hs). unfold avail in *. split; [exact Hstop|lia]. }
  destruct (GetStr_exact junk (fill junk OS_Errno 0) _ (reading_open _ _ (open_body_ok rest fx0 Hfx0) (ended_body_ok rest fx0 Hfx0))
    (reading_take junk _ _ (ended_body_ok rest fx0 Hfx0)) (body_fill rest fx0 Hne Hfx0)
    (reading_unget _ _ (fun s r c (H : ended_body rest fx0 (mkWorld s r c)) => H)) b [] w HR) as (w' & E & [(a & later & Ed & i & (Ei & Hst' & Hfx') & Hs' & Hstop' & _)|(_ & Hs' & Hst' & Hfx' & Hstop')]).
  - symmetry in Ed. apply app_eq_nil in Ed as [-> ->]. subst i. exists w', false. rewrite blen_nil, Z.add_0_r in *. auto.
  - exists w', true. auto.
Qed.

(** ** The beginning of a request *)

(** The record a request begins with. *)
Definition begin_body (role flags : Z) : bytes := [role / 256; role mod 256; flags; 0; 0; 0; 0; 0].
Definition begin_record (id role flags : Z) : record := mkRecord FCGI_BEGIN_REQUEST id (begin_body role flags) [].

(** What it makes of the request. *)
Definition begun (q : Request) (id r flags : Z) : Request :=
  q <| requestId := id |> <| keepConnection := negb (Z.land flags FCGI_KEEP_CONN =? 0) |> <| role := r |> <| isBeginProcessed := true |>.

Lemma NewStream_source address size i inc q acc sent :
  0 <= address < 2 ^ 63 -> Forall (fun o => exists c, o = Some c /\ c <> []) inc -> flat inc = i ->
  let w := mkWorld (NewStream junk address size true 0) q (mkConn inc acc sent) in
  source i w /\ state w = (0, 0, false, false, false) /\ fixed w = (true, 0, 0, q, acc, sent) /\ stop (stream w) = rdNext (stream w).
Proof.
  intros Had Hc Hi. cbv zeta. split; [|auto]. destruct (NewStream_size junk address size true 0 Had) as (n & Hl & Hm & H24 & Hb).
  unfold source. cbn [stream conn incoming]. constructor; [rewrite Hl; lia|exact Hc|].
  exists [], [], (buff (NewStream junk address size true 0)). cbn. auto.
Qed.

Lemma begin_ok fuel hj id r flags rest w q acc sent :
  0 < id < 2 ^ 16 -> 0 <= r < 2 ^ 16 -> isBeginProcessed q = false -> rest <> [] ->
  source (encode_record (begin_record id r flags) ++ rest) w -> state w = (0, 0, false, false, false) -> fixed w = (true, 0, 0, q, acc, sent) ->
  blen hj = 8 -> (8 <= fuel)%nat ->
  exists w', fill_loop OS_Errno (ProcessHeader junk OS_Errno (fill junk OS_Errno 0)) fuel hj 0 w = (Ok tt, w')
    /\ source rest w' /\ fixed w' = (true, 0, 0, begun q id r flags, acc, sent).
Proof.
  intros Hid Hr Hq Hne Hs Hst Hfx Hj Hf. rewrite encode_header, <- app_assoc in Hs. cbn [r_content r_padding begin_record app] in Hs.
  destruct (next_header OS_Errno (ProcessHeader junk OS_Errno (fill junk OS_Errno 0)) fuel hj 0 0 false [] (record_header (begin_record id r flags))
    (begin_body r flags ++ rest) w Hs Hst) as (fuel' & w1 & E & Hs1 & Hst1 & Hfx1 & Hstop & _); try (reflexivity || assumption || lia).
  rewrite E. clear E. rewrite <- Hfx1 in Hfx. destruct w1 as [s q1 co]. injection Hst1 as Ec Ep Esk Eeor Ecl. injection Hfx as Er Ee Et Eq Ea Es.
  cbn [stream request conn] in *. subst q1.
  assert (Ehead : exists w2, ProcessHeader junk OS_Errno (fill junk OS_Errno 0) (record_header (begin_record id r flags)) (mkWorld s q co) = (Ok BEGIN_RECORD, w2)
    /\ source rest w2 /\ fixed w2 = (true, 0, 0, begun q id r flags, acc, sent)).
  { rewrite ProcessHeader_record. set (s1 := s <| contentLen := _ |> <| paddingLen := _ |>). cbv zeta. rewrite obj_get_bind.
    cbn [r_type r_id begin_record]. rewrite Z.eqb_refl. unfold ProcessBeginRecord. rewrite obj_get_bind. cbn [stream request].
    change (contentLen s1) with 8. rewrite (proj2 (Z.eqb_neq id 0)) by lia. rewrite Z.eqb_refl, Hq. cbn [negb orb]. rewrite F_request.
    destruct (body_read (begin_body r flags) rest (mkWorld s1 (q <| requestId := id |>) co)) as (w2 & cl & E2 & Hs2 & Hfx2 & _);
      [exact Hs1|fields|exact Er|exact Hstop|exact Hne|].
    change (blen (begin_body r flags)) with 8 in E2. rewrite (obj_bind_val _ _ _ _ _ E2). change (blen (begin_body r flags) =? 8) with true. cbn [negb].
    destruct w2 as [s2 q2 co2]. rewrite F_request. eexists. split; [reflexivity|]. split; [exact Hs2|].
    unfold fixed in *. cbn [stream request conn] in *. injection Hfx2 as Er2 Ee2 Et2 Eq2 Ea2 Es2. subst q2.
    repeat apply f_equal2; [exact (eq_trans Er2 Er)|exact (eq_trans Ee2 Ee)|exact (eq_trans Et2 Et)| |exact (eq_trans Ea2 Ea)|exact (eq_trans Es2 Es)].
    unfold begun. cbn [nth begin_body]. rewrite high_low. reflexivity. }
  destruct Ehead as (w2 & E2 & Hs2 & Hfx2). rewrite (obj_bind_val _ _ _ _ _ E2). destruct w2 as [s2 q2 co2].
  unfold after_header. unfold mbind at 1, Obj_bind at 1. rewrite F_stream, F_gets. change (BEGIN_RECORD =? STREAM_RECORD) with false. cbv iota.
  eexists. split; [reflexivity|]. split; [exact Hs2|exact Hfx2].
Qed.

(** A stream is set to the records of a type. *)
Lemma start_reading T T0 rq eof rs tail w acc sent :
  source (encode_records rs ++ encode_record eof ++ tail) w -> fixed w = (true, 0, T0, rq, acc, sent) -> Forall is_Some acc ->
  Forall (expected T (requestId rq)) rs -> Forall record_ok rs ->
  exists w', SetReaderType T w = (Ok tt, w')
    /\ reading (open_stream T (requestId rq) rq eof tail sent (replies rs)) (ended_at T rq eof tail sent (replies rs))
         (contents T (requestId rq) rs) w'
    /\ fixed w' = (true, 0, T, rq, acc, sent).
Proof.
  intros Hs Hfx Ha Hr Hok. destruct w as [s q co]. injection Hfx as Er Ee Et Eq Ea Es. cbn [stream request conn] in *. subst q.
  unfold SetReaderType. rewrite F_gets, Er. cbn [negb]. eexists. split; [reflexivity|]. split.
  - left. exists [], (contents T (requestId rq) rs). split; [reflexivity|]. exists (encode_records rs ++ encode_record eof ++ tail). split.
    + exists [], [], rs, acc, sent. split_and!; try (reflexivity || assumption); [repeat apply f_equal2; first [reflexivity|assumption]|].
      exists []. rewrite app_nil_r. auto.
    + pose proof (src_avail _ _ Hs) as Hav. unfold avail in Hav. cbn [stream] in Hav. split; [exact Hs|]. split; [change (rdNext s = rdNext s + 0); lia|].
      change (rdNext s <= buffStop s). lia.
  - repeat apply f_equal2; first [reflexivity|assumption].
Qed.

(** ** The whole request *)

Record client_request := mkClient {
  q_id : Z; q_role : Z; q_flags : Z; q_params : list (bytes * bytes);
  q_records : list record; q_stdin : list record; q_padding : bytes
}.

Definition params_eof (r : client_request) : record := mkRecord FCGI_PARAMS (q_id r) [] [].
Definition stdin_eof (r : client_request) : record := mkRecord FCGI_STDIN (q_id r) [] (q_padding r).

Definition request_bytes (r : client_request) : bytes :=
  encode_record (begin_record (q_id r) (q_role r) (q_flags r))
  ++ encode_records (q_records r) ++ encode_record (params_eof r) ++ encode_records (q_stdin r) ++ encode_record (stdin_eof r).

(** The parameters and the input can be in any records, and others between them. *)
Record client_ok (r : client_request) : Prop := {
  cl_id : 0 < q_id r < 2 ^ 16;
  cl_role : is_Some (role_string (q_role r));
  cl_records : Forall (expected FCGI_PARAMS (q_id r)) (q_records r) /\ Forall record_ok (q_records r);
  cl_params : contents FCGI_PARAMS (q_id r) (q_records r) = encode_pairs (q_params r) /\ Forall pair_fits (q_params r);
  cl_stdin : Forall (expected FCGI_STDIN (q_id r)) (q_stdin r) /\ Forall record_ok (q_stdin r);
  cl_padding : blen (q_padding r) < 256
}.

(** The request as the library has it, the strings of the environment and the bytes the
    client's input is. *)
Definition accepted (q : Request) (r : client_request) : Request :=
  begun (q <| isBeginProcessed := false |>) (q_id r) (q_role r) (q_flags r).
Definition environment (r : client_request) : list bytes := from_option (fun s => [s]) [] (role_string (q_role r)) ++ (entry <$> q_params r).
Definition stdin_bytes (r : client_request) : bytes := contents FCGI_STDIN (q_id r) (q_stdin r).

Context (address : Z -> Z) (Haddress : forall t, 0 <= address t < 2 ^ 63).

Lemma on_in_eq {A} (m : F A) li q s o e pp ev c wt sv :
  on_in m (mkServer li q (Some s) o e pp ev (Some c) wt sv)
  = let '(r, w) := m (mkWorld s q c) in (r, mkServer li (request w) (Some (stream w)) o e pp ev (Some (conn w)) wt sv).
Proof. reflexivity. Qed.

Lemma on_in_bind {A B} (m : F A) (k : A -> Obj Server B) a s' q' c' li q s o e pp ev c wt sv :
  m (mkWorld s q c) = (Ok a, mkWorld s' q' c') ->
  (on_in m ≫= k) (mkServer li q (Some s) o e pp ev (Some c) wt sv) = k a (mkServer li q' (Some s') o e pp ev (Some c') wt sv).
Proof. intros E. apply obj_bind_val. rewrite on_in_eq, E. reflexivity. Qed.

Lemma role_range r s : role_string r = Some s -> 0 <= r < 2 ^ 16.
Proof.
  unfold role_string, FCGI_RESPONDER, FCGI_AUTHORIZER, FCGI_FILTER. destruct (Z.eqb_spec r 1); [lia|]. destruct (Z.eqb_spec r 2); [lia|].
  destruct (Z.eqb_spec r 3); [lia|discriminate].
Qed.

Lemma eof_ok T id padding : 0 <= T < 256 -> 0 <= id < 2 ^ 16 -> blen padding < 256 -> record_ok (mkRecord T id [] padding).
Proof. intros. constructor; cbn [r_type r_id r_content r_padding]; try assumption. reflexivity. Qed.

(** Reading the beginning of a request: the parameters are there, and the input is
    next. *)
Lemma begin_request_ok li q i o e pp ev inc acc sent wt sv r tail :
  client_ok r -> Forall (fun o => exists c, o = Some c /\ c <> []) inc -> flat inc = request_bytes r ++ tail -> Forall is_Some acc ->
  exists s c p acc', begin_request junk OS_Errno address (mkServer li q i o e pp ev (Some (mkConn inc acc sent)) wt sv)
      = (Ok true, mkServer li (accepted q r) (Some s) o e (Some p) ev (Some c) wt sv)
    /\ vec p = environment r
    /\ source (encode_records (q_stdin r) ++ encode_record (stdin_eof r) ++ tail) (mkWorld s (accepted q r) c)
    /\ fixed (mkWorld s (accepted q r) c) = (true, 0, FCGI_PARAMS, accepted q r, acc', sent ++ replies (q_records r)) /\ Forall is_Some acc'.
Proof.
  intros [Hid [role Hrole] [Hr Hrok] [Hp Hfit] _ _] Hc Hi Ha. unfold begin_request.
  set (q0 := q <| isBeginProcessed := false |>). set (s0 := NewReader junk (address 0) 8192 0).
  rewrite obj_set_bind.
  change (_ <| in_ := Some s0 |>) with (mkServer li q0 (Some s0) o e pp ev (Some (mkConn inc acc sent)) wt sv).
  destruct (NewStream_source (address 0) 8192 _ inc q0 acc sent (Haddress 0) Hc Hi) as (Hs & Hst & Hfx & _).
  change (NewStream junk (address 0) 8192 true 0) with s0 in Hs, Hst, Hfx. unfold request_bytes in Hs. rewrite <- !app_assoc in Hs. pose proof (role_range _ _ Hrole) as Hrange.
  set (rest := encode_records (q_records r) ++ encode_record (params_eof r) ++ encode_records (q_stdin r) ++ encode_record (stdin_eof r) ++ tail) in *.
  assert (Hne : rest <> []) by (unfold rest; intros E; apply app_eq_nil in E as [_ E]; discriminate E).
  destruct (begin_ok (2 + bytes_left (mkWorld s0 q0 (mkConn inc acc sent))) (new_bytes junk FCGI_HEADER_LEN) (q_id r) (q_role r) (q_flags r) rest _ q0 acc sent
    Hid Hrange eq_refl Hne Hs Hst Hfx eq_refl) as ([s1 q1 c1] & E1 & Hs1 & Hfx1).
  { rewrite (bytes_left_source _ _ Hs), encode_header, !length_app. change (length (record_header (begin_record (q_id r) (q_role r) (q_flags r)))) with 8%nat. lia. }
  assert (q1 = accepted q r) as -> by (injection Hfx1; auto).
  rewrite (on_in_bind _ _ tt s1 (accepted q r) c1); [|unfold FillBuffProc; cbn [fill]; rewrite obj_get_bind; exact E1].
  rewrite obj_get_bind. cbn [req]. change (isBeginProcessed (accepted q r)) with true. change (FCGX.role (accepted q r)) with (q_role r). cbn [negb]. rewrite Hrole.
  change (PutParam (NewParams 30) role) with (Ok (mkParams [role] 30)). rewrite obj_lift_bind, obj_set_bind.
  change (_ <| paramsPtr := Some (mkParams [role] 30) |>) with (mkServer li (accepted q r) (Some s1) o e (Some (mkParams [role] 30)) ev (Some c1) wt sv).
  destruct (start_reading FCGI_PARAMS 0 (accepted q r) (params_eof r) (q_records r) (encode_records (q_stdin r) ++ encode_record (stdin_eof r) ++ tail)
    (mkWorld s1 (accepted q r) c1) acc sent Hs1 Hfx1 Ha Hr Hrok) as ([s2 q2 c2] & E2 & HR & Hfx2).
  assert (q2 = accepted q r) as -> by (injection Hfx2; auto).
  rewrite (on_in_bind _ _ _ _ _ _ _ _ _ _ _ _ _ _ _ _ E2).
  change (requestId (accepted q r)) with (q_id r) in HR. rewrite Hp in HR.
  set (ans := replies (q_records r)) in *. set (tail' := encode_records (q_stdin r) ++ encode_record (stdin_eof r) ++ tail) in *.
  destruct (ReadParams_ok junk (FillBuffProc junk OS_Errno) _
    (reading_open _ _ (open_stream_ok FCGI_PARAMS (q_id r) (accepted q r) (params_eof r) tail' sent ans) (ended_ok FCGI_PARAMS (accepted q r) (params_eof r) tail' sent ans))
    (reading_take junk _ _ (ended_ok FCGI_PARAMS (accepted q r) (params_eof r) tail' sent ans))
    (reading_next junk _ _)
    (stream_fill junk OS_Errno FCGI_PARAMS (q_id r) (accepted q r) (params_eof r) tail' sent ans ltac:(discriminate) eq_refl ltac:(lia) eq_refl (conj eq_refl (conj eq_refl eq_refl)) (eof_ok FCGI_PARAMS (q_id r) [] ltac:(unfold FCGI_PARAMS; lia) ltac:(lia) eq_refl))
    (reading_unget _ _ (ended_unget FCGI_PARAMS (accepted q r) (params_eof r) tail' sent ans))
    (mkParams [role] 30) (q_params r) _ Hfit ltac:(cbn; lia) HR) as (p & [s3 q3 c3] & E3 & HR3 & Hcl & Hv & _).
  destruct HR3 as [(a3 & l3 & _ & i3 & Hk & _)|(_ & Hs3 & Hst3 & (acc3 & Hfx3 & Ha3) & Hstop3)].
  { destruct (open_stream_ok _ _ _ _ _ _ _ _ _ _ Hk) as (_ & Hc3 & _). congruence. }
  assert (q3 = accepted q r) as -> by (injection Hfx3; auto).
  rewrite (on_in_bind _ _ _ _ _ _ _ _ _ _ _ _ _ _ _ _ E3). rewrite obj_set_bind.
  exists s3, c3, p, acc3. split; [reflexivity|]. split; [|split; [exact Hs3|split; [exact Hfx3|exact Ha3]]].
  rewrite Hv. unfold environment. rewrite Hrole. reflexivity.
Qed.

(** The stream does not depend on the rest of the request. *)
Lemma reading_request T ID q q' eof tail before answers d s c :
  reading (open_stream T ID q eof tail before answers) (ended_at T q eof tail before answers) d (mkWorld s q c) ->
  reading (open_stream T ID q' eof tail before answers) (ended_at T q' eof tail before answers) d (mkWorld s q' c).
Proof.
  assert (Hfx : forall acc sent, fixed (mkWorld s q c) = (true, 0, T, q, acc, sent) -> fixed (mkWorld s q' c) = (true, 0, T, q', acc, sent)).
  { intros acc sent H. injection H as Er Ee Et Ea Es. repeat apply f_equal2; first [reflexivity|assumption]. }
  intros [(a & later & Ed & i & (cur & pad & rs & acc & sent & Hl & Hr & Hok & Hi & Hst & Hf & Ha & Han) & Hs & Hstop)|(Ed & Hs & Hst & (acc & Hf & Ha) & Hstop)].
  - left. exists a, later. split; [exact Ed|]. exists i. split; [|split; [exact Hs|exact Hstop]]. exists cur, pad, rs, acc, sent. split_and!; auto.
  - right. split; [exact Ed|]. split; [exact Hs|]. split; [exact Hst|]. split; [eauto|exact Hstop].
Qed.

(** The input stream of an accepted request. *)
Definition input_stream (r : client_request) (q : Request) (tail before : bytes) : bytes -> World -> Prop :=
  reading (open_stream FCGI_STDIN (q_id r) q (stdin_eof r) tail before (replies (q_stdin r)))
    (ended_at FCGI_STDIN q (stdin_eof r) tail before (replies (q_stdin r))).

Lemma input_gets r q tail before ops d w :
  client_ok r -> requestId q = q_id r -> isBeginProcessed q = true -> Forall (fun c => 0 <= c) d ->
  input_stream r q tail before d w ->
  exists w', run_gets junk (FillBuffProc junk OS_Errno) ops w = (Ok (gets_spec ops d).1, w') /\ input_stream r q tail before (gets_spec ops d).2 w'.
Proof.
  intros Hcl Hq Hb Hd HR. pose proof Hcl as [Hid _ _ _ _ Hpad].
  apply (run_gets_ok junk (FillBuffProc junk OS_Errno) _
    (reading_open _ _ (open_stream_ok FCGI_STDIN (q_id r) q (stdin_eof r) tail before (replies (q_stdin r))) (ended_ok FCGI_STDIN q (stdin_eof r) tail before (replies (q_stdin r))))
    (reading_take junk _ _ (ended_ok FCGI_STDIN q (stdin_eof r) tail before (replies (q_stdin r))))
    (reading_next junk _ _)
    (stream_fill junk OS_Errno FCGI_STDIN (q_id r) q (stdin_eof r) tail before (replies (q_stdin r)) ltac:(discriminate) Hq ltac:(lia) Hb (conj eq_refl (conj eq_refl eq_refl)) (eof_ok FCGI_STDIN (q_id r) (q_padding r) ltac:(unfold FCGI_STDIN; lia) ltac:(lia) Hpad))
    (reading_unget _ _ (ended_unget FCGI_STDIN q (stdin_eof r) tail before (replies (q_stdin r))))); assumption.
Qed.

(** What the input stream leaves of the request and the connection. *)
Lemma input_fixed r q tail before d w :
  input_stream r q tail before d w ->
  request w = q /\ FCGI_errno (stream w) = 0 /\ Forall is_Some (accepts (conn w))
  /\ exists ans, written (conn w) = before ++ ans /\ ans `prefix_of` replies (q_stdin r) /\ (isClosed (stream w) = true -> ans = replies (q_stdin r)).
Proof.
  intros [(a & later & Ed & i & (cur & pad & rs & acc & sent & Hl & Hr & Hok & Hi & Hst & Hf & Ha & (ans & Es' & Han)) & _)|(Ed & Hs & Hst & (acc & Hf & Ha) & Hstop)];
    injection Hst as Ec Ep Esk Eeor Ecl; injection Hf as Er Ee Et Eq Ea Es; rewrite Ea, Es.
  - split_and!; try assumption. exists ans. split; [exact Es'|]. split; [eexists; symmetry; exact Han|]. congruence.
  - split_and!; try assumption. exists (replies (q_stdin r)). split_and!; reflexivity.
Qed.

(** The request once it is accepted. *)
Definition serving (q : Request) (r : client_request) : Request := (accepted q r) <| nWriters := 2 |>.

Lemma accept_loop_ok fuel li q i o e pp ev inc acc sent wt sv r tail :
  client_ok r -> Forall (fun o => exists c, o = Some c /\ c <> []) inc -> flat inc = request_bytes r ++ tail -> Forall is_Some acc ->
  exists s c p, accept_loop junk OS_Errno address (S fuel) (mkServer li q i o e pp ev None (mkConn inc acc sent :: wt) sv)
      = (Ok 0, mkServer li (serving q r) (Some s)
                 (Some (NewStream junk (address FCGI_STDOUT) 8192 false FCGI_STDOUT)) (Some (NewStream junk (address FCGI_STDERR) 512 false FCGI_STDERR))
                 (Some p) (environment r) (Some c) wt sv)
    /\ input_stream r (serving q r) tail (sent ++ replies (q_records r)) (stdin_bytes r) (mkWorld s (serving q r) c).
Proof.
  intros Hcl Hc Hi Ha. cbn [accept_loop]. rewrite obj_get_bind. cbn [ipc waiting].
  unfold mbind at 1, Obj_bind at 1. rewrite obj_set_bind.
  change (_ <| ipc := Some (mkConn inc acc sent) |> <| waiting := wt |>) with (mkServer li q i o e pp ev (Some (mkConn inc acc sent)) wt sv).
  destruct (begin_request_ok li q i o e pp ev inc acc sent wt sv r tail Hcl Hc Hi Ha) as (s & c & p & acc' & E & Hv & Hs & Hfx & Ha').
  unfold mret, Obj_ret. cbn [negb]. rewrite (obj_bind_val _ _ _ _ _ E). cbn [negb].
  destruct Hcl as [Hid _ _ _ [Hr Hrok] _].
  destruct (start_reading FCGI_STDIN FCGI_PARAMS (accepted q r) (stdin_eof r) (q_stdin r) tail (mkWorld s (accepted q r) c) acc' _ Hs Hfx Ha' Hr Hrok)
    as ([s2 q2 c2] & E2 & HR & Hfx2).
  assert (q2 = accepted q r) as -> by (injection Hfx2; auto).
  rewrite (on_in_bind _ _ _ _ _ _ _ _ _ _ _ _ _ _ _ _ E2). rewrite obj_set_bind.
  exists s2, c2, p. split; [rewrite <- Hv; reflexivity|]. apply (reading_request _ _ (accepted q r)). exact HR.
Qed.

Lemma FCGX_Accept_r_ok q o e pp ev inc acc sent wt sv r tail :
  client_ok r -> Forall (fun o => exists c, o = Some c /\ c <> []) inc -> flat inc = request_bytes r ++ tail -> Forall is_Some acc ->
  exists s c p, FCGX_Accept_r junk OS_Errno address (mkServer true q None o e pp ev None (mkConn inc acc sent :: wt) sv)
      = (Ok 0, mkServer true (serving q r) (Some s)
                 (Some (NewStream junk (address FCGI_STDOUT) 8192 false FCGI_STDOUT)) (Some (NewStream junk (address FCGI_STDERR) 512 false FCGI_STDERR))
                 (Some p) (environment r) (Some c) wt sv)
    /\ input_stream r (serving q r) tail (sent ++ replies (q_records r)) (stdin_bytes r) (mkWorld s (serving q r) c).
Proof.
  intros Hcl Hc Hi Ha. unfold FCGX_Accept_r. rewrite obj_get_bind. cbn [libInitialized negb].
  assert (E : FCGX_Finish_r OS_Errno (mkServer true q None o e pp ev None (mkConn inc acc sent :: wt) sv)
    = (Ok tt, mkServer true q None None None None [] None (mkConn inc acc sent :: wt) sv)).
  { unfold FCGX_Finish_r. rewrite obj_get_bind. cbn [in_]. unfold FCGX_Free, obj_set. cbn [FCGX.req]. destruct (negb (keepConnection q)).
    - transitivity (@Ok unit tt, mkServer true q None None None None [] None (mkConn inc acc sent :: wt) (sv ++ [])); [reflexivity|].
      rewrite app_nil_r. reflexivity.
    - reflexivity. }
  rewrite (obj_bind_val _ _ _ _ _ E), obj_get_bind. apply accept_loop_ok; assumption.
Qed.

(** ** Finishing *)

Lemma on_out_bind {A B} (m : F A) (k : A -> Obj Server B) a s' q' c' li q i s e pp ev c wt sv :
  m (mkWorld s q c) = (Ok a, mkWorld s' q' c') ->
  (on_out m ≫= k) (mkServer li q i (Some s) e pp ev (Some c) wt sv) = k a (mkServer li q' i (Some s') e pp ev (Some c') wt sv).
Proof. intros E. apply obj_bind_val. unfold on_out, on. cbn [out ipc req]. rewrite E. reflexivity. Qed.

Lemma on_err_bind {A B} (m : F A) (k : A -> Obj Server B) a s' q' c' li q i o s pp ev c wt sv :
  m (mkWorld s q c) = (Ok a, mkWorld s' q' c') ->
  (on_err m ≫= k) (mkServer li q i o (Some s) pp ev (Some c) wt sv) = k a (mkServer li q' i o (Some s') pp ev (Some c') wt sv).
Proof. intros E. apply obj_bind_val. unfold on_err, on. cbn [err ipc req]. rewrite E. reflexivity. Qed.

(** A stream with bytes waiting is as it was when the rest of the request changes and
    when other calls of [write] are ahead. *)
Lemma writing_moved T ID q q' before inc d s c acc :
  writing T ID q before inc d (mkWorld s q c) -> Forall is_Some acc ->
  writing T ID q' before inc d (mkWorld s q' (mkConn (incoming c) acc (written c))).
Proof.
  intros (size & pending & recs & a & Hw & Hany & Hq & Hc & Ha & Hr & Hd) Hacc. cbn [stream request conn] in *. subst c.
  exists size, pending, recs, acc. split_and!; auto.
Qed.

(** The records that end a response. *)
Definition final_records (id status : Z) : list record :=
  [mkRecord FCGI_STDOUT id [] []; mkRecord FCGI_END_REQUEST id (MakeEndRequestBody status FCGI_REQUEST_COMPLETE) []].

Lemma FCGX_Finish_r_ok q s so se p ev c wt sv before data :
  nWriters q = 2 -> 0 <= requestId q < 2 ^ 16 -> FCGI_errno s = 0 -> Forall is_Some (accepts c) ->
  writing FCGI_STDOUT (requestId q) q before (incoming c) data (mkWorld so q c) ->
  se = NewStream junk (address FCGI_STDERR) 512 false FCGI_STDERR ->
  exists recs acc, let c' := mkConn (incoming c) acc (before ++ encode_records (recs ++ final_records (requestId q) (appStatus q))) in
    FCGX_Finish_r OS_Errno (mkServer true q (Some s) (Some so) (Some se) p ev (Some c) wt sv)
    = (Ok tt, mkServer true (q <| nWriters := 0 |>) None None None None [] (if keepConnection q then Some c' else None) wt
                (if keepConnection q then sv else sv ++ [c']))
    /\ Forall (data_record FCGI_STDOUT (requestId q)) recs /\ mjoin (r_content <$> recs) = data.
Proof.
  intros Hn Hid Herr Ha Hw ->. set (se := NewStream _ _ _ _ _). unfold FCGX_Finish_r. rewrite obj_get_bind. cbn [in_ err out req].
  assert (He : writing FCGI_STDERR (requestId q) q (written c) (incoming c) [] (mkWorld se q c)).
  { destruct c as [inc acc wr]. apply NewStream_writing; [apply Haddress|exact Ha]. }
  destruct (FClose_ok OS_Errno FCGI_STDERR (requestId q) q (written c) (incoming c) ltac:(unfold FCGI_STDERR; lia) eq_refl Hid [] _ He)
    as (recs1 & a1 & s1 & E1 & Hr1 & Hd1 & Ha1).
  rewrite (data_contents _ _ _ Hr1 Hd1) in E1. unfold close_records in E1. rewrite Hn in E1.
  change (encode_records ([] ++ _)) with (@nil Z) in E1. rewrite app_nil_r in E1. change (i32 (2 - 1)) with 1 in E1.
  rewrite (on_err_bind _ _ _ _ _ _ _ _ _ _ _ _ _ _ _ _ E1).
  set (q1 := q <| nWriters := 1 |>) in *. pose proof (writing_moved _ _ _ q1 _ _ _ _ _ a1 Hw Ha1) as Hw1.
  destruct (FClose_ok OS_Errno FCGI_STDOUT (requestId q) q1 before (incoming c) ltac:(unfold FCGI_STDOUT; lia) eq_refl Hid data _ Hw1)
    as (recs & a2 & s2 & E2 & Hr2 & Hd2 & Ha2).
  change (close_records FCGI_STDOUT (requestId q) q1 data) with (final_records (requestId q) (appStatus q)) in E2.
  change (q1 <| nWriters := i32 (nWriters q1 - 1) |>) with (q <| nWriters := 0 |>) in E2.
  rewrite (on_out_bind _ _ _ _ _ _ _ _ _ _ _ _ _ _ _ _ E2).
  rewrite (on_in_bind (FCGX_GetError) _ 0 s (q <| nWriters := 0 |>) (mkConn (incoming c) a2 (before ++ encode_records (recs ++ final_records (requestId q) (appStatus q))))
    _ _ _ _ _ _ _ _ _ _); [|unfold FCGX_GetError, gets, obj_get; cbn [stream]; rewrite Herr; reflexivity].
  exists recs, a2. cbv zeta. split; [|auto]. unfold FCGX_Free, obj_set. destruct (keepConnection q); reflexivity.
Qed.

(** An accepted request whose output has the bytes [data], finished. *)
Lemma answer_closed r q before ans s1 inc1 data s2 c2 status p ev wt sv :
  client_ok r -> requestId q = q_id r -> nWriters q = 2 -> FCGI_errno s1 = 0 ->
  writing FCGI_STDOUT (q_id r) q (before ++ ans) inc1 data (mkWorld s2 q c2) ->
  exists recs acc,
    let q3 := q <| appStatus := status |> in
    let answer := encode_records (recs ++ final_records (q_id r) status) in
    let c' := mkConn (incoming c2) acc (before ++ ans ++ answer) in
    FCGX_Finish_r OS_Errno (mkServer true q3 (Some s1) (Some s2) (Some (NewStream junk (address FCGI_STDERR) 512 false FCGI_STDERR)) p ev (Some c2) wt sv)
    = (Ok tt, mkServer true (q3 <| nWriters := 0 |>) None None None None [] (if keepConnection q then Some c' else None) wt
                (if keepConnection q then sv else sv ++ [c']))
    /\ decode_records (S (length answer)) answer = Some (recs ++ final_records (q_id r) status)
    /\ Forall (data_record FCGI_STDOUT (q_id r)) recs /\ mjoin (r_content <$> recs) = data.
Proof.
  intros Hcl Hq Hn Err1 Hw2. pose proof Hcl as [Hid _ _ _ _ _]. set (q3 := q <| appStatus := status |>).
  assert (Forall is_Some (accepts c2) /\ incoming c2 = inc1) as (Ha2 & Hinc).
  { destruct Hw2 as (? & ? & ? & ? & _ & _ & _ & Hc2 & Ha2 & _). cbn in *. subst c2. auto. }
  pose proof (writing_moved _ _ _ q3 _ _ _ _ _ (accepts c2) Hw2 Ha2) as Hw3. rewrite <- Hinc in Hw3.
  assert (Hq3 : requestId q3 = q_id r) by exact Hq.
  destruct (FCGX_Finish_r_ok q3 s1 s2 _ p ev c2 wt sv (before ++ ans) data Hn ltac:(lia) Err1 Ha2
    ltac:(destruct c2; rewrite Hq3; exact Hw3) eq_refl) as (recs & acc' & E3 & Hr & Hcont).
  rewrite Hq3 in E3, Hr. exists recs, acc'. cbv zeta.
  split; [rewrite <- !app_assoc in E3; exact E3|]. split; [|split; [exact Hr|exact Hcont]].
  apply decode_encode_records; [|pose proof (length_encode_records (recs ++ final_records (q_id r) status)); lia].
  apply Forall_app. split.
  - revert Hr. apply Forall_impl. intros rec. apply data_record_ok; unfold FCGI_STDOUT; lia.
  - repeat constructor; cbn [r_type r_id r_content r_padding]; unfold FCGI_STDOUT, FCGI_END_REQUEST; try lia; reflexivity.
Qed.

(** Its output before the client puts anything. *)
Lemma answer_opened r q tail before d s1 c1 :
  input_stream r q tail before d (mkWorld s1 q c1) ->
  FCGI_errno s1 = 0 /\ exists ans, ans `prefix_of` replies (q_stdin r)
    /\ writing FCGI_STDOUT (q_id r) q (before ++ ans) (incoming c1) [] (mkWorld (NewStream junk (address FCGI_STDOUT) 8192 false FCGI_STDOUT) q c1).
Proof.
  intros HR. destruct (input_fixed _ _ _ _ _ _ HR) as (_ & Err1 & Ha1 & ans & Ew & Hpre & _). cbn [request stream conn] in *.
  split; [exact Err1|]. exists ans. split; [exact Hpre|]. destruct c1 as [inc1 acc1 wr1]. cbn [written accepts incoming] in *. subst wr1.
  apply NewStream_writing; [apply Haddress|exact Ha1].
Qed.

(** The answer of an accepted request, put into its output and finished. *)
Lemma answer_sent r q tail before d s1 c1 puts :
  client_ok r -> requestId q = q_id r -> nWriters q = 2 -> input_stream r q tail before d (mkWorld s1 q c1) ->
  exists s2 c2, run_puts OS_Errno puts (mkWorld (NewStream junk (address FCGI_STDOUT) 8192 false FCGI_STDOUT) q c1) = (Ok tt, mkWorld s2 q c2)
    /\ forall status p ev wt sv, exists ans recs acc,
      let q3 := q <| appStatus := status |> in
      let answer := encode_records (recs ++ final_records (q_id r) status) in
      let c' := mkConn (incoming c2) acc (before ++ ans ++ answer) in
      FCGX_Finish_r OS_Errno (mkServer true q3 (Some s1) (Some s2) (Some (NewStream junk (address FCGI_STDERR) 512 false FCGI_STDERR)) p ev (Some c2) wt sv)
      = (Ok tt, mkServer true (q3 <| nWriters := 0 |>) None None None None [] (if keepConnection q then Some c' else None) wt
                  (if keepConnection q then sv else sv ++ [c']))
      /\ ans `prefix_of` replies (q_stdin r)
      /\ decode_records (S (length answer)) answer = Some (recs ++ final_records (q_id r) status)
      /\ Forall (data_record FCGI_STDOUT (q_id r)) recs /\ mjoin (r_content <$> recs) = mjoin (put_op_bytes <$> puts).
Proof.
  intros Hcl Hq Hn HR. pose proof Hcl as [Hid _ _ _ _ _]. destruct (answer_opened _ _ _ _ _ _ _ HR) as (Err1 & ans & Hpre & Hw).
  destruct (run_puts_writing OS_Errno FCGI_STDOUT (q_id r) q _ _ ltac:(unfold FCGI_STDOUT; lia) Hq ltac:(lia) puts [] _ Hw) as ([s2 q2 c2] & E2 & Hw2).
  assert (q2 = q) as -> by (destruct Hw2 as (? & ? & ? & ? & _ & _ & Hq2 & _); exact Hq2).
  exists s2, c2. split; [exact E2|]. intros status p ev wt sv.
  destruct (answer_closed r q before ans s1 _ _ s2 c2 status p ev wt sv Hcl Hq Hn Err1 Hw2) as (recs & acc & E3 & Hrest).
  exists ans, recs, acc. cbv zeta. split; [exact E3|]. split; [exact Hpre|exact Hrest].
Qed.

(** ** A conversation *)

(** What a responder does with a request: looks at its environment, reads, writes, sets
    its status. *)
Definition conversation (gets : list get_op) (puts : list put_op) (status : Z) : Obj Server (list bytes * list got) :=
  _ ← FCGX_Accept_r junk OS_Errno address;
  env ← obj_get envp;
  input ← on_in (run_gets junk (FillBuffProc junk OS_Errno) gets);
  _ ← on_out (run_puts OS_Errno puts);
  _ ← on_out (FCGX_SetExitStatus status);
  _ ← FCGX_Finish_r OS_Errno;
  mret (env, input).
End Accept.

