(* ===== verification/FCGXParams.v ===== *)
(** * The environment and concrete conversations

    [FCGX_GetParam] on the environment of a request, the witnesses of the theorems about
    the library and the inputs on which it goes wrong. *)
From stdpp Require Import base strings list numbers.
From Stdlib Require Import ZArith Lia.
From coqutil Require Import Datatypes.RecordSetters.
From S2P Require Import Prelude Object CString RawTile FCGX FCGXRecords FCGXWriter FCGXReader FCGXFill FCGXStream FCGXAccept.
Import TriangleBracketNotations.
#[local] Open Scope string_scope.
#[local] Open Scope list_scope.
#[local] Open Scope Z_scope.

(** ** The environment *)

(** The value of the first pair of that name. *)
Fixpoint lookup_pair (name : bytes) (ps : list (bytes * bytes)) : option bytes :=
  match ps with
  | [] => None
  | p :: ps => if bool_decide (p.1 = name) then Some p.2 else lookup_pair name ps
  end.

(** Names and values that C strings can hold. *)
Definition pair_ok (p : bytes * bytes) : Prop := (0 ∉ p.1) /\ (61 ∉ p.1) /\ (0 ∉ p.2).

Lemma cstring_all b : 0 ∉ b -> cstring b = b.
Proof.
  induction b as [|c b IH]; [reflexivity|]. intros H. apply not_elem_of_cons in H as [Hc Hb]. cbn [cstring].
  rewrite (proj2 (Z.eqb_neq c 0)) by congruence. rewrite IH by exact Hb. reflexivity.
Qed.

Lemma param_value_ok name p : 61 ∉ name -> pair_ok p -> param_value name (entry p) = if bool_decide (p.1 = name) then Some p.2 else None.
Proof.
  intros Hname (Hn & Heq & Hv). destruct p as [n v]. unfold param_value, entry. cbn [fst snd] in *.
  assert (H0 : 0 ∉ n ++ [61] ++ v) by (rewrite !elem_of_app, list_elem_of_singleton; intros [?|[?|?]]; [contradiction|discriminate|contradiction]).
  rewrite (cstring_all _ H0). case_bool_decide as Ht; case_bool_decide as Hc.
  - subst name. rewrite drop_app_length. reflexivity.
  - destruct (Nat.lt_trichotomy (length name) (length n)) as [Hl|[Hl|Hl]].
    + rewrite drop_app_le by lia. destruct (drop (length name) n) as [|c d] eqn:Ed.
      { apply (f_equal length) in Ed. rewrite length_drop in Ed. cbn in Ed. lia. }
      cbn [app]. rewrite (proj2 (Z.eqb_neq c 61)); [reflexivity|]. intros ->. apply Heq. rewrite <- (take_drop (length name) n), Ed.
      apply elem_of_app. right. left.
    + exfalso. apply Hc. rewrite Hl, take_app_length in Ht. exact Ht.
    + exfalso. apply Hname. rewrite <- Ht. rewrite take_app_ge by lia. apply elem_of_app. right.
      destruct (length name - length n)%nat eqn:E; [lia|]. left.
  - exfalso. apply Ht. subst name. apply take_app_length.
  - reflexivity.
Qed.

Lemma GetParam_ok name ps : 61 ∉ name -> Forall pair_ok ps -> FCGX_GetParam name (entry <$> ps) = lookup_pair name ps.
Proof.
  intros Hn. induction 1 as [|p ps Hp Hps IH]; [reflexivity|]. cbn [fmap list_fmap FCGX_GetParam lookup_pair].
  rewrite (param_value_ok name p Hn Hp), IH. destruct (bool_decide _); reflexivity.
Qed.

(** The role of the request is a parameter like the others. *)
Definition role_name (r : Z) : bytes :=
  if r =? FCGI_RESPONDER then chars "RESPONDER" else if r =? FCGI_AUTHORIZER then chars "AUTHORIZER" else chars "FILTER".

(** The client finds every parameter of the web server under its name, the first
    of that name when there are several, and the role of the request under FCGI_ROLE;
    a name that no parameter has is not found. *)
Theorem getparam_finds r name :
  client_ok r -> 61 ∉ name -> Forall pair_ok (q_params r) ->
  FCGX_GetParam name (environment r) = lookup_pair name ((chars "FCGI_ROLE", role_name (q_role r)) :: q_params r).
Proof.
  intros [_ [s Hs] _ _ _ _] Hn Hp.
  assert (E : environment r = entry <$> ((chars "FCGI_ROLE", role_name (q_role r)) :: q_params r)
    /\ pair_ok (chars "FCGI_ROLE", role_name (q_role r))).
  { unfold environment. rewrite Hs. cbn [from_option fmap list_fmap app]. unfold role_string, role_name in *.
    destruct (_ =? _); [injection Hs as <-; split; [reflexivity|split_and!; apply (bool_decide_unpack _); vm_compute; exact I]|].
    destruct (_ =? _); [injection Hs as <-; split; [reflexivity|split_and!; apply (bool_decide_unpack _); vm_compute; exact I]|].
    destruct (_ =? _); [injection Hs as <-; split; [reflexivity|split_and!; apply (bool_decide_unpack _); vm_compute; exact I]|discriminate]. }
  destruct E as [-> Hrole]. apply GetParam_ok; [exact Hn|]. constructor; assumption.
Qed.

(** ** A request *)

Definition demo_junk (_ : Z) : Z := 170.
Definition demo_address (_ : Z) : Z := 4100.

(** The bytes of a connection in pieces of [k]. *)
Fixpoint pieces (k fuel : nat) (b : bytes) : list (option bytes) :=
  match fuel, b with S fuel, _ :: _ => Some (take k b) :: pieces k fuel (drop k b) | _, _ => [] end.

Lemma pieces_ok k fuel b : (0 < k)%nat -> (length b <= fuel)%nat ->
  Forall (fun o => exists c, o = Some c /\ c <> []) (pieces k fuel b) /\ flat (pieces k fuel b) = b.
Proof.
  intros Hk. revert b. induction fuel as [|fuel IH]; intros [|x b] Hl; try (split; [constructor|reflexivity]); [cbn in Hl; lia|].
  destruct k as [|k]; [lia|]. destruct (IH (drop (S k) (x :: b))) as [Hc Hf].
  { rewrite length_drop. cbn in Hl |- *. lia. }
  cbn [pieces]. split.
  - constructor; [|exact Hc]. eexists. split; [reflexivity|]. discriminate.
  - change (take (S k) (x :: b) ++ flat (pieces (S k) fuel (drop (S k) (x :: b))) = x :: b). rewrite Hf. apply take_drop.
Qed.

Definition demo_conn (b : bytes) : Conn := mkConn (pieces 5 (length b) b) [Some 3; Some 0] [].
Definition demo_server (b : bytes) : Server :=
  mkServer true (mkRequest 0 0 false false 0 0) None None None None [] None [demo_conn b] [].

(** One parameter, its record padded, another request that is refused, and an input of
    two records with one of another request between them. *)
Definition demo_client : client_request :=
  mkClient 1 FCGI_RESPONDER 0 [(chars "A", chars "x")]
    [mkRecord FCGI_PARAMS 1 (encode_pairs [(chars "A", chars "x")]) [0; 0; 0; 0]; begin_record 2 FCGI_RESPONDER 0]
    [mkRecord FCGI_STDIN 1 (chars "he") []; mkRecord FCGI_STDIN 2 (chars "other") [0]; mkRecord FCGI_STDIN 1 (chars "llo") []] [].

(** A concrete request is one the library accepts. *)
Ltac client_tac :=
  constructor; cbn [q_id q_role q_flags q_params q_records q_stdin q_padding]; repeat split; try lia; try reflexivity;
    try (eexists; reflexivity); repeat (apply List.Forall_cons || apply List.Forall_nil);
    try (constructor; cbn [r_type r_id r_content r_padding begin_record]; unfold FCGI_PARAMS, FCGI_STDIN, FCGI_BEGIN_REQUEST; lia || reflexivity); try reflexivity;
    try (apply Own; (reflexivity || discriminate)); try (apply Other; (reflexivity || discriminate)).

Lemma demo_client_ok : client_ok demo_client.
Proof. unfold demo_client. client_tac. Qed.

(** What the client of the examples does: everything at once, then a character. *)
Definition demo_talk (b : bytes) : res (list bytes * list got) * Server :=
  conversation demo_junk 32 demo_address [ReadStr 100; ReadChar] [PutStr (chars "ok")] 0 (demo_server b).


(** The same conversation, evaluated: the other request is refused first, and the
    input is that of the two records of this one. *)
Example demo_evaluated :
  (demo_talk (request_bytes demo_client)).1 = Ok ([chars "FCGI_ROLE=RESPONDER"; chars "A=x"], [GotStr (chars "hello"); GotChar EOF])
  /\ written <$> served (demo_talk (request_bytes demo_client)).2
     = [encode_records ([mkRecord FCGI_END_REQUEST 2 (MakeEndRequestBody 0 FCGI_CANT_MPX_CONN) []; mkRecord FCGI_STDOUT 1 (chars "ok") (replicate 6 0)]
          ++ final_records 1 0)].
Proof. split; vm_compute; reflexivity. Qed.

Lemma output_framed_witness :
  0 <= FCGI_STDERR < 256 /\ exists recs a' s',
    let rq := mkRequest 1 FCGI_RESPONDER true false 7 1 in
    let data := mjoin (put_op_bytes <$> [PutStr (chars "a longer message"); Flush; PutChar 33; PutS "more of it"]) in
    let sent := encode_records (recs ++ close_records FCGI_STDERR 1 rq data) in
    (_ ← run_puts 32 [PutStr (chars "a longer message"); Flush; PutChar 33; PutS "more of it"]; FCGX_FClose 32)
      (mkWorld (NewStream demo_junk 4100 32 false FCGI_STDERR) rq (mkConn [] [Some 3; Some 0] []))
    = (Ok 0, mkWorld s' (rq <| nWriters := i32 (nWriters rq - 1) |>) (mkConn [] a' ([] ++ sent)))
    /\ decode_records (S (length sent)) sent = Some (recs ++ close_records FCGI_STDERR 1 rq data)
    /\ Forall (data_record FCGI_STDERR 1) recs /\ mjoin (r_content <$> recs) = data.
Proof.
  split; [unfold FCGI_STDERR; lia|].
  apply (output_framed demo_junk 32 4100 32 FCGI_STDERR (mkRequest 1 FCGI_RESPONDER true false 7 1) [] [] [Some 3; Some 0]
    [PutStr (chars "a longer message"); Flush; PutChar 33; PutS "more of it"]);
    [unfold FCGI_STDERR; lia|cbn; lia|lia|repeat constructor; eexists; reflexivity].
Defined.

Lemma getparam_finds_witness :
  client_ok demo_client /\ FCGX_GetParam (chars "A") (environment demo_client)
    = lookup_pair (chars "A") ((chars "FCGI_ROLE", role_name (q_role demo_client)) :: q_params demo_client).
Proof.
  split; [exact demo_client_ok|]. apply (getparam_finds demo_client (chars "A")); [exact demo_client_ok| |].
  - apply (bool_decide_unpack _). vm_compute. exact I.
  - repeat constructor; apply (bool_decide_unpack _); vm_compute; exact I.
Defined.

(** ** Where the library goes wrong *)

Definition demo_begin : bytes := encode_record (begin_record 1 FCGI_RESPONDER 0).
Definition demo_params : bytes := encode_record (mkRecord FCGI_PARAMS 1 (encode_pairs [(chars "A", chars "x")]) []).
Definition demo_params_end : bytes := encode_record (mkRecord FCGI_PARAMS 1 [] []).
Definition demo_input : bytes := encode_record (mkRecord FCGI_STDIN 1 (chars "hi") []) ++ encode_record (mkRecord FCGI_STDIN 1 [] []).

(** An empty record of another request makes the library drop the next record of its
    own: the flag that says to skip is taken back at the end of content only. *)
Lemma empty_record_drops_next :
  (demo_talk (demo_begin ++ demo_params ++ demo_params_end ++ encode_record (mkRecord FCGI_STDIN 2 [] []) ++ demo_input)).1
  = Ok ([chars "FCGI_ROLE=RESPONDER"; chars "A=x"], [GotStr []; GotChar EOF]).
Proof. vm_compute. reflexivity. Qed.

(** The content of a management record of an unknown type is read as input. *)
Lemma unknown_content_delivered :
  (demo_talk (demo_begin ++ demo_params ++ demo_params_end ++ encode_record (mkRecord 20 0 (chars "zz") []) ++ demo_input)).1
  = Ok ([chars "FCGI_ROLE=RESPONDER"; chars "A=x"], [GotStr (chars "zzhi"); GotChar EOF]).
Proof. vm_compute. reflexivity. Qed.

(** The padding of the record that begins a request is read as a header, and the
    request is accepted without parameters and input. *)
Lemma begin_padding_read :
  (demo_talk (encode_record (mkRecord FCGI_BEGIN_REQUEST 1 (begin_body FCGI_RESPONDER 0) (replicate 8 0)) ++ demo_params ++ demo_params_end ++ demo_input)).1
  = Ok ([chars "FCGI_ROLE=RESPONDER"], [GotStr []; GotChar EOF]).
Proof. vm_compute. reflexivity. Qed.

(** A request whose connection breaks between two parameters is accepted with those
    that came. *)
Lemma broken_environment_accepted :
  let g := FCGX_Accept_r demo_junk 32 demo_address
    (demo_server (demo_begin ++ [1; FCGI_PARAMS; 0; 1; 0; 8; 0; 0] ++ encode_pairs [(chars "A", chars "x")])) in
  g.1 = Ok 0 /\ envp g.2 = [chars "FCGI_ROLE=RESPONDER"; chars "A=x"].
Proof. vm_compute. auto. Qed.

(** Asked four times for the same variable, the library writes past its reply. *)
Lemma repeated_variable_overflows :
  (FCGX_Accept_r demo_junk 32 demo_address
    (demo_server (demo_begin ++ encode_record (mkRecord FCGI_GET_VALUES 0 (encode_pairs (replicate 4 (chars "FCGI_MAX_CONNS", []))) [])
       ++ demo_params ++ demo_params_end ++ demo_input))).1
  = Err (Undefined "memcpy outside an array").
Proof. vm_compute. reflexivity. Qed.

(** A variable whose name has a NUL makes it use a null pointer. *)
Lemma nul_variable_crashes :
  (FCGX_Accept_r demo_junk 32 demo_address
    (demo_server (demo_begin ++ encode_record (mkRecord FCGI_GET_VALUES 0 (encode_pairs [([0], [])]) [])
       ++ demo_params ++ demo_params_end ++ demo_input))).1
  = Err (Undefined "null pointer").
Proof. vm_compute. reflexivity. Qed.

(** Lengths of a pair whose sum is not an [int]. *)
Lemma pair_lengths_overflow :
  (FCGX_Accept_r demo_junk 32 demo_address
    (demo_server (demo_begin ++ encode_record (mkRecord FCGI_PARAMS 1 (replicate 8 255) []) ++ demo_params_end ++ demo_input))).1
  = Err (Undefined "int overflow").
Proof. vm_compute. reflexivity. Qed.

(** The padding of the reply to a question about variables is what was on the stack. *)
Lemma reply_padding_uninitialised :
  written <$> served (demo_talk (demo_begin ++ encode_record (mkRecord FCGI_GET_VALUES 0 (encode_pairs [(chars "FCGI_MAX_CONNS", [])]) [])
    ++ demo_params ++ demo_params_end ++ demo_input)).2
  = [encode_records ([mkRecord FCGI_GET_VALUES_RESULT 0 (encode_pairs [(chars "FCGI_MAX_CONNS", chars "1")]) (0 :: replicate 6 (demo_junk 0));
       mkRecord FCGI_STDOUT 1 (chars "ok") (replicate 6 0)] ++ final_records 1 0)].
Proof. vm_compute. reflexivity. Qed.

(** The exit status of a request is that of the next one too, when that sets none. *)
Lemma exit_status_kept q r : appStatus (serving q r) = appStatus q.
Proof. reflexivity. Qed.
