(* ===== verification/FCGXPrintf.v ===== *)
(** * [FCGX_VFPrintF] (src/fcgi/libfcgi/fcgiapp.c)

    The printf of the FastCGI library: a directive is first tried as it stands, with a
    buffer of 100 bytes, and if it has flags, a width or a precision taken apart, put
    together again as the format of a call of [sprintf], and given a buffer of the size it
    may need.  [sprintf] is here for a single directive, as the C standard describes it;
    how a floating-point number becomes text is left to the interface [FloatText].

    [printf_written]: what is written is what the standard says, and no buffer overflows,
    when widths are below 100; the lemmas at the end are about wider ones. *)
From stdpp Require Import base gmap strings list numbers pretty.
From Stdlib Require Import ZArith Lia Ascii.
From coqutil Require Import Datatypes.RecordSetters.
From S2P Require Import Prelude Object CString CFloat Format RawTile URL FCGX FCGXRecords FCGXWriter.
Import TriangleBracketNotations.
#[local] Open Scope string_scope.
#[local] Open Scope list_scope.
#[local] Open Scope Z_scope.

(** ** Directives of the C standard *)

(** The number of characters at the beginning that are in a set. *)
Fixpoint strspn (set s : string) : nat :=
  match s with
  | String c s => if smem c set then S (strspn set s) else 0%nat
  | "" => 0%nat
  end.

Definition flag_chars : string := "-0+ #".
Definition digit_chars : string := "0123456789".

(** What follows the percent sign.  The width is 0 and the precision [None] when there is
    none, the size is a space then. *)
Record spec := mkSpec { flags : string; width : Z; prec : option Z; size : ascii; op : ascii }.

(** The size and the operation. *)
Definition parse_op (fl : string) (w : Z) (p : option Z) (s : string) : option (spec * string) :=
  match s with
  | String m (String o rest) => if smem m "lLh" then Some (mkSpec fl w p m o, rest) else Some (mkSpec fl w p " " m, String o rest)
  | String o "" => Some (mkSpec fl w p " " o, "")
  | "" => None
  end.

(** From the precision on. *)
Definition parse_tail (fl : string) (w : Z) (s : string) : option (spec * string) :=
  match s with
  | String "." s =>
      let n := strspn digit_chars s in
      parse_op fl w (Some (digits_value 0 (stake n s))) (sdrop n s)
  | _ => parse_op fl w None s
  end.

(** A directive without an asterisk. *)
Definition parse_directive (s : string) : option (spec * string) :=
  let n := strspn flag_chars s in
  let '(fl, s) := (stake n s, sdrop n s) in
  let n := strspn digit_chars s in
  parse_tail fl (digits_value 0 (stake n s)) (sdrop n s).

(** ** The arguments *)

(** A [double] or a [long double] is a floating-point number; [ACount] is where [%n]
    stores. *)
Inductive arg :=
  | AInt (z : Z) | ALong (z : Z) | AString (s : option string) | APointer (z : Z)
  | ADouble (x : float) | ALongDouble (x : float) | ACount (pointer : Z).

Class FloatText := {
  (** the flags [+], space and [#], the precision, the operation and the number; the text
      has the sign *)
  float_text : bool -> bool -> bool -> option Z -> ascii -> float -> string
}.

(** ** [sprintf] *)

Definition spaces (c : ascii) (n : Z) : string := String.concat "" (replicate (Z.to_nat n) (String c "")).

(** A sign or a prefix and what follows, in the width of the directive. *)
Definition pad (sp : spec) (zeros : bool) (prefix body : string) : string :=
  let fill := width sp - slen prefix - slen body in
  if smem "-" (flags sp) then prefix +:+ body +:+ spaces " " fill
  else if smem "0" (flags sp) && zeros then prefix +:+ spaces "0" fill +:+ body
  else spaces " " fill +:+ prefix +:+ body.

Definition digit_of (upper : bool) (d : Z) : ascii := chr (if d <? 10 then 48 + d else (if upper then 55 else 87) + d).

(** At most [n] digits of [z]. *)
Fixpoint base_digits (n : nat) (upper : bool) (b z : Z) (s : string) : string :=
  match n with
  | O => s
  | S n => if z =? 0 then s else base_digits n upper b (z / b) (String (digit_of upper (z mod b)) s)
  end.

Definition unsigned_digits (o : ascii) (z : Z) : string :=
  if Ascii.eqb o "u" then dec z
  else if z =? 0 then "0"
  else base_digits 22 (Ascii.eqb o "X") (if Ascii.eqb o "o" then 8 else 16) z "".

(** The digits with at least those of the precision. *)
Definition with_precision (sp : spec) (digits : string) (is_zero : bool) : string :=
  match prec sp with
  | None => digits
  | Some p => if (p =? 0) && is_zero then "" else spaces "0" (p - slen digits) +:+ digits
  end.

Definition sign_of (sp : spec) (negative : bool) : string :=
  if negative then "-" else if smem "+" (flags sp) then "+" else if smem " " (flags sp) then " " else "".

Definition no_precision (sp : spec) : bool := match prec sp with None => true | Some _ => false end.

Definition signed_text (sp : spec) (z : Z) : string :=
  pad sp (no_precision sp) (sign_of sp (z <? 0)) (with_precision sp (dec (Z.abs z)) (z =? 0)).

Definition unsigned_text (sp : spec) (z : Z) : string :=
  let digits := with_precision sp (unsigned_digits (op sp) z) (z =? 0) in
  if smem "#" (flags sp) && Ascii.eqb (op sp) "o" then
    pad sp (no_precision sp) "" (match digits with String "0" _ => digits | _ => "0" +:+ digits end)
  else if smem "#" (flags sp) && smem (op sp) "xX" && negb (z =? 0) then
    pad sp (no_precision sp) (String "0" (String (op sp) "")) digits
  else pad sp (no_precision sp) "" digits.

(** A signed integer of [w] bits. *)
Definition sint (w z : Z) : Z := (z + 2 ^ (w - 1)) mod 2 ^ w - 2 ^ (w - 1).

Definition signed_arg (sz : ascii) (a : arg) : option Z :=
  match a with
  | AInt z => if Ascii.eqb sz " " then Some (sint 32 z) else if Ascii.eqb sz "h" then Some (sint 16 z) else None
  | ALong z => if Ascii.eqb sz "l" then Some (sint 64 z) else None
  | _ => None
  end.

Definition unsigned_arg (sz : ascii) (a : arg) : option Z :=
  match a with
  | AInt z => if Ascii.eqb sz " " then Some (u32 z) else if Ascii.eqb sz "h" then Some (u16 z) else None
  | ALong z => if Ascii.eqb sz "l" then Some (u64 z) else None
  | _ => None
  end.

Definition float_arg (sz : ascii) (a : arg) : option float :=
  match a with
  | ADouble x => if Ascii.eqb sz " " then Some x else None
  | ALongDouble x => if Ascii.eqb sz "L" then Some x else None
  | _ => None
  end.

Definition cut_text (p : option Z) (s : string) : string := match p with None => s | Some p => stake (Z.to_nat p) s end.

Section Printf.
Context {ft : FloatText}.

(** The sign is not part of what is filled up with zeros, and only digits are. *)
Definition float_padded (sp : spec) (text : string) : string :=
  match text with
  | String c s =>
      let '(prefix, body) := if smem c "-+ " then (String c "", s) else ("", text) in
      pad sp (match body with String d _ => isdigit d | "" => false end) prefix body
  | "" => pad sp false "" ""
  end.

(** The text of a directive; [None] where the standard leaves it undefined. *)
Definition conv_text (sp : spec) (a : arg) : option string :=
  if smem (op sp) "di" then z ← signed_arg (size sp) a; Some (signed_text sp z)
  else if smem (op sp) "uoxX" then z ← unsigned_arg (size sp) a; Some (unsigned_text sp z)
  else if smem (op sp) "feEgG" then
    x ← float_arg (size sp) a; Some (float_padded sp (float_text (smem "+" (flags sp)) (smem " " (flags sp)) (smem "#" (flags sp)) (prec sp) (op sp) x))
  else if negb (Ascii.eqb (size sp) " ") then None
  else
    match a with
    | AInt z => if Ascii.eqb (op sp) "c" then Some (pad sp false "" (String (chr (u8 z)) "")) else None
    | AString (Some s) => if Ascii.eqb (op sp) "s" then Some (pad sp false "" (cut_text (prec sp) s)) else None
    | APointer z => if Ascii.eqb (op sp) "p" then Some (pad sp false "" (if z =? 0 then "(nil)" else "0x" +:+ unsigned_digits "x" z)) else None
    | _ => None
    end.

(** [sprintf( buffPtr, fmtBuff, a )] and [strlen], for a buffer of [buffLen] bytes. *)
Definition sprintf (buffLen : Z) (fmtBuff : string) (a : arg) : res string :=
  match fmtBuff with
  | String "%" s =>
      match parse_directive s with
      | Some (sp, "") =>
          match conv_text sp a with
          | Some t => if buffLen <=? slen t then undef "sprintf past the buffer" else Ok (c_str t)
          | None => undef "sprintf"
          end
      | _ => undef "sprintf"
      end
  | _ => undef "sprintf"
  end.

(** ** [FCGX_VFPrintF] *)

Definition PRINTF_BUFFLEN : Z := 100.
Definition FMT_BUFFLEN : Z := 25.

(** [*p] and [p[n]] *)
Definition char_at (s : string) (n : nat) : ascii := default "000"%char (String.get n s).

(** [va_arg] *)
Definition va_arg {T} (want : arg -> option T) (args : list arg) : res (T * list arg) :=
  match args with
  | a :: args => match want a with Some x => Ok (x, args) | None => undef "va_arg of another type" end
  | [] => undef "va_arg past the arguments"
  end.

Definition an_int (a : arg) : option Z := match a with AInt z => Some (sint 32 z) | _ => None end.
Definition a_long (a : arg) : option Z := match a with ALong z => Some (sint 64 z) | _ => None end.
Definition a_string (a : arg) : option (option string) := match a with AString s => Some (c_str <$> s) | _ => None end.
Definition a_pointer (a : arg) : option Z := match a with APointer z => Some z | _ => None end.
Definition a_double (a : arg) : option float := match a with ADouble x => Some x | _ => None end.
Definition a_long_double (a : arg) : option float := match a with ALongDouble x => Some x | _ => None end.
Definition a_count (a : arg) : option Z := match a with ACount p => Some p | _ => None end.

(** What the switch does: the text that is in the buffer and what [%n] stores, nothing yet,
    or the jump to the error return. *)
Inductive performed :=
  | Performed (text : string) (args : list arg) (store : option (Z * Z))
  | NotPerformed
  | ErrorReturn.

(** A string or a number that was read on the slow path. *)
Definition formatted (buffLen : Z) (fmtBuff : string) (a : arg) (args : list arg) : res performed :=
  t ← sprintf buffLen fmtBuff a; Ok (Performed t args None).

Definition perform (fastPath : bool) (op size : ascii) (fmtBuff : string) (buffLen : Z) (read : option arg) (args : list arg)
    (streamCount : Z) : res performed :=
  let plain := Ascii.eqb size " " in
  if smem op "di" then
    if plain then '(z, args) ← va_arg an_int args; formatted buffLen fmtBuff (AInt z) args
    else if Ascii.eqb size "l" then '(z, args) ← va_arg a_long args; formatted buffLen fmtBuff (ALong z) args
    else if Ascii.eqb size "h" then '(z, args) ← va_arg an_int args; formatted buffLen fmtBuff (AInt (sint 16 z)) args
    else Ok ErrorReturn
  else if smem op "uoxX" then
    if plain then '(z, args) ← va_arg an_int args; formatted buffLen fmtBuff (AInt (u32 z)) args
    else if Ascii.eqb size "l" then '(z, args) ← va_arg a_long args; formatted buffLen fmtBuff (ALong (u64 z)) args
    else if Ascii.eqb size "h" then '(z, args) ← va_arg an_int args; formatted buffLen fmtBuff (AInt (u16 z)) args
    else Ok ErrorReturn
  else if Ascii.eqb op "c" then
    if plain then '(z, args) ← va_arg an_int args; formatted buffLen fmtBuff (AInt z) args else Ok ErrorReturn
  else if Ascii.eqb op "s" then
    if negb plain then Ok ErrorReturn
    else if fastPath then
      '(s, args) ← va_arg a_string args;
      match s with Some s => Ok (Performed s args None) | None => undef "strlen of a null pointer" end
    else match read with Some a => formatted buffLen fmtBuff a args | None => undef "uninitialised" end
  else if Ascii.eqb op "p" then
    if negb plain then Ok ErrorReturn
    else '(z, args) ← va_arg a_pointer args; formatted buffLen fmtBuff (APointer z) args
  else if Ascii.eqb op "n" then
    if smem size " lh" then
      '(p, args) ← va_arg a_count args;
      Ok (Performed "" args (Some (p, if Ascii.eqb size "h" then sint 16 streamCount else streamCount)))
    else Ok ErrorReturn
  else if Ascii.eqb op "f" then
    if fastPath then Ok NotPerformed
    else if smem size " L" then match read with Some a => formatted buffLen fmtBuff a args | None => undef "uninitialised" end
    else Ok ErrorReturn
  else if smem op "eEgG" then
    if plain then '(x, args) ← va_arg a_double args; formatted buffLen fmtBuff (ADouble x) args
    else if Ascii.eqb size "L" then '(x, args) ← va_arg a_long_double args; formatted buffLen fmtBuff (ALongDouble x) args
    else Ok ErrorReturn
  else if Ascii.eqb op "%" then (if plain then Ok (Performed "%" args None) else Ok ErrorReturn)
  else if Ascii.eqb op "000" then Ok ErrorReturn
  else Ok NotPerformed.

(** *** The slow path *)

(** A number of the directive: its digits, or an asterisk, or nothing; the text that goes
    into the new format, the value, and what follows. *)
Inductive scanned := Scanned (text : string) (value : Z) (p : string) (args : list arg) | BadNumber.

Definition scan_width (p : string) (args : list arg) : res scanned :=
  let n := strspn digit_chars p in
  if Nat.eqb n 0 then
    if Ascii.eqb (char_at p 0) "*" then
      '(minWidth, args) ← va_arg an_int args;
      if minWidth =? - 2 ^ 31 then undef "abs"
      else if 999999 <? Z.abs minWidth then Ok BadNumber
      else Ok (Scanned (dec minWidth) minWidth (sdrop 1 p) args)
    else Ok (Scanned "" 0 p args)
  else if (n <=? 6)%nat then Ok (Scanned (stake n p) (strtol p) (sdrop n p) args)
  else Ok BadNumber.

(** -1 when there is no precision. *)
Definition scan_precision (p : string) (args : list arg) : res scanned :=
  if negb (Ascii.eqb (char_at p 0) ".") then Ok (Scanned "" (-1) p args)
  else
    let p := sdrop 1 p in
    let n := strspn digit_chars p in
    if Nat.eqb n 0 then
      if Ascii.eqb (char_at p 0) "*" then
        '(precision, args) ← va_arg an_int args;
        let precision := if precision <? 0 then 0 else precision in
        if 999999 <? precision then Ok BadNumber
        else Ok (Scanned ("." +:+ dec precision) precision (sdrop 1 p) args)
      else Ok (Scanned "." 0 p args)
    else if (n <=? 6)%nat then Ok (Scanned ("." +:+ stake n p) (strtol p) (sdrop n p) args)
    else Ok BadNumber.

(** The exponent [frexp] stores: 0 for 0, infinities and what is not a number. *)
Definition frexp_exp (x : float) : Z := match x with FFin _ m e => Z.log2 m + 1 + e | _ => 0 end.

(** The argument of [s] or [f], and a bound of the text; [None]: the error return. *)
Definition required (op size : ascii) (precision : Z) (args : list arg) : res (option (Z * option arg * list arg)) :=
  if smem op "diuoxXcp" then Ok (Some (Z.max precision 46, None, args))
  else if Ascii.eqb op "s" then
    '(s, args) ← va_arg a_string args;
    let s := default "(null)" s in
    Ok (Some (if precision =? -1 then slen s else Z.min precision (slen s), Some (AString (Some s)), args))
  else if Ascii.eqb op "f" then
    let bound (exp : Z) := (if precision =? -1 then 6 else precision) + 3 + (if 0 <? exp then exp / 3 else 0) in
    if Ascii.eqb size " " then '(x, args) ← va_arg a_double args; Ok (Some (bound (frexp_exp x), Some (ADouble x), args))
    else if Ascii.eqb size "L" then
      '(x, args) ← va_arg a_long_double args; Ok (Some (bound (frexp_exp (fcvt b64 x)), Some (ALongDouble x), args))
    else Ok None
  else if smem op "eEgG" then Ok (Some ((if precision =? -1 then 6 else precision) + 8, None, args))
  else Ok None.

(** A directive: what is written, the rest of the format, the arguments that are left, the
    size of the allocated buffer (0: none), what is stored.  [None]: the error return. *)
Record conversion := mkConversion { text : string; after : string; rest_args : list arg; aux_of : Z; store : option (Z * Z) }.

(** The buffer for a bound: its size, and that of the allocated one. *)
Definition buffer_for (buffReqd auxBuffLen : Z) : Z * Z :=
  if buffReqd <=? PRINTF_BUFFLEN then (PRINTF_BUFFLEN, auxBuffLen)
  else let aux := if auxBuffLen <? buffReqd then buffReqd else auxBuffLen in (aux, aux).

Definition slow_path (percentPtr : string) (args : list arg) (auxBuffLen streamCount : Z) : res (option conversion) :=
  let p := sdrop 1 percentPtr in
  let n := strspn flag_chars p in
  if (5 <? n)%nat then Ok None
  else
    w ← scan_width (sdrop n p) args;
    match w with
    | BadNumber => Ok None
    | Scanned wtext minWidth p1 args =>
        pr ← scan_precision p1 args;
        match pr with
        | BadNumber => Ok None
        | Scanned ptext precision p2 args =>
            let sized := smem (char_at p2 0) "lLh" in
            let size := if sized then char_at p2 0 else " "%char in
            let p3 := if sized then sdrop 1 p2 else p2 in
            let op := char_at p3 0 in
            let fmtBuff := "%" +:+ stake n p +:+ wtext +:+ ptext +:+ (if sized then String size "" else "") +:+ String op "" in
            if FMT_BUFFLEN <=? slen fmtBuff then undef "assertion"
            else
              b ← required op size precision args;
              match b with
              | None => Ok None
              | Some (bound, read, args) =>
                  let '(buffLen, aux) := buffer_for (Z.max (bound + 10) minWidth) auxBuffLen in
                  r ← perform false op size fmtBuff buffLen read args streamCount;
                  match r with
                  | Performed t args st => Ok (Some (mkConversion t (sdrop 1 p3) args aux st))
                  | NotPerformed | ErrorReturn => Ok None
                  end
              end
        end
    end.

(** The inner loop, once or twice. *)
Definition convert (percentPtr : string) (args : list arg) (auxBuffLen streamCount : Z) : res (option conversion) :=
  let sized := smem (char_at percentPtr 1) "lLh" in
  let size := if sized then char_at percentPtr 1 else " "%char in
  let op := if sized then char_at percentPtr 2 else char_at percentPtr 1 in
  let fmtBuff := "%" +:+ (if sized then String size "" else "") +:+ String op "" in
  r ← perform true op size fmtBuff PRINTF_BUFFLEN None args streamCount;
  match r with
  | Performed t args st => Ok (Some (mkConversion t (sdrop (if sized then 3 else 2) percentPtr) args auxBuffLen st))
  | ErrorReturn => Ok None
  | NotPerformed => slow_path percentPtr args auxBuffLen streamCount
  end.

(** *** The loop *)

Context (OS_Errno : Z).

(** [FCGX_PutStr], and the count. *)
Definition put_text (t : string) (streamCount : Z) : F (option Z) :=
  if slen t =? 0 then mret (Some streamCount)
  else
    r ← FCGX_PutStr OS_Errno (chars t);
    if r <? 0 then mret None else n ← obj_lift (add_int streamCount (slen t)); mret (Some n).

(** The characters before the next percent sign. *)
Definition literal (f : string) : string := match sfind_if (Ascii.eqb "%") f with Some n => stake n f | None => f end.

(** What [%n] stored is returned with the count. *)
Fixpoint vf_loop (fuel : nat) (f : string) (args : list arg) (auxBuffLen streamCount : Z) (stores : list (Z * Z)) : F (Z * list (Z * Z)) :=
  match fuel with
  | O => obj_lift (Err OutOfFuel)
  | S fuel =>
      if empty f then mret (streamCount, stores)
      else
        let lit := literal f in
        n ← put_text lit streamCount;
        match n with
        | None => mret (-1, stores)
        | Some n =>
            let f := sdrop (String.length lit) f in
            if empty f then mret (n, stores)
            else
              c ← obj_lift (convert f args auxBuffLen n);
              match c with
              | None => mret (-1, stores)
              | Some c =>
                  m ← put_text (text c) n;
                  match m with
                  | None => mret (-1, stores)
                  | Some m => vf_loop fuel (after c) (rest_args c) (aux_of c) m (stores ++ option_list (store c))
                  end
              end
        end
  end.

Definition FCGX_VFPrintF (format : string) (args : list arg) : F (Z * list (Z * Z)) :=
  let f := c_str format in vf_loop (S (String.length f)) f args 0 0 [].
Definition FCGX_FPrintF (format : string) (args : list arg) : F (Z * list (Z * Z)) := FCGX_VFPrintF format args.

(** ** What the standard says *)

(** A directive as it is written. *)
Inductive number := Digits (s : string) | Star.
Record directive := mkDirective { d_flags : string; d_width : number; d_prec : option number; d_size : ascii; d_op : ascii }.

Definition read_number (s : string) : number * string :=
  match s with
  | String "*" s => (Star, s)
  | _ => let n := strspn digit_chars s in (Digits (stake n s), sdrop n s)
  end.

Definition read_precision (s : string) : option number * string :=
  match s with String "." s => let '(p, s) := read_number s in (Some p, s) | _ => (None, s) end.

Definition read_directive (s : string) : option (directive * string) :=
  let n := strspn flag_chars s in
  let fl := stake n s in
  let '(w, s) := read_number (sdrop n s) in
  let '(p, s) := read_precision s in
  match s with
  | "" => None
  | String m s' =>
      if smem m "lLh" then match s' with String o rest => Some (mkDirective fl w p m o, rest) | "" => None end
      else Some (mkDirective fl w p " " m, s')
  end.

(** The asterisks take their values from the arguments; a negative width is the flag [-],
    a negative precision none. *)
Definition resolve_width (fl : string) (w : number) (args : list arg) : option (string * Z * list arg) :=
  match w, args with
  | Digits t, _ => Some (fl, digits_value 0 t, args)
  | Star, AInt z :: args => Some (if sint 32 z <? 0 then fl +:+ "-" else fl, Z.abs (sint 32 z), args)
  | Star, _ => None
  end.
Definition resolve_prec (p : option number) (args : list arg) : option (option Z * list arg) :=
  match p, args with
  | None, _ => Some (None, args)
  | Some (Digits t), _ => Some (Some (digits_value 0 t), args)
  | Some Star, AInt z :: args => Some (if sint 32 z <? 0 then None else Some (sint 32 z), args)
  | Some Star, _ => None
  end.
Definition resolve (d : directive) (args : list arg) : option (spec * list arg) :=
  '(fl, w, args) ← resolve_width (d_flags d) (d_width d) args;
  '(p, args) ← resolve_prec (d_prec d) args;
  Some (mkSpec fl w p (d_size d) (d_op d), args).

(** What the library takes without an error: not more than five flags and six digits, a
    precision that is not negative, a width of less than 100; a [long double] that is a
    [double]. *)
Definition short_number (n : number) : bool := match n with Digits t => slen t <=? 6 | Star => true end.
Definition short_precision (n : option number) (p : option Z) : bool :=
  match n, p with
  | None, _ => true
  | Some n, Some p => short_number n && (p <=? 999999)
  | Some _, None => false
  end.
Definition supported (d : directive) (sp : spec) (a : arg) : bool :=
  (slen (d_flags d) <=? 5) && short_number (d_width d) && (width sp <? 100)
  && short_precision (d_prec d) (prec sp)
  && match a with ALongDouble x => frexp_exp x <=? frexp_exp (fcvt b64 x) | _ => true end.

(** A string argument ends at its terminator. *)
Definition c_arg (a : arg) : arg := match a with AString s => AString (c_str <$> s) | _ => a end.

(** The text of a format that the library supports. *)
Fixpoint printf_text (fuel : nat) (f : string) (args : list arg) : option string :=
  match fuel with
  | O => None
  | S fuel =>
      match f with
      | "" => Some ""
      | String "%" (String "%" f) => t ← printf_text fuel f args; Some (String "%" t)
      | String "%" f =>
          '(d, rest) ← read_directive f;
          '(sp, args) ← resolve d args;
          match args with
          | a :: args =>
              t ← conv_text sp (c_arg a);
              if supported d sp a && bool_decide (c_str t = t) then u ← printf_text fuel rest args; Some (t +:+ u) else None
          | [] => None
          end
      | String c f => t ← printf_text fuel f args; Some (String c t)
      end
  end.

(** ** Characters at the beginning of a string *)

Definition spans (set s : string) : Prop := strspn set s = String.length s.
Definition stops (set s : string) : Prop := strspn set s = 0%nat.

Lemma strspn_app set a b : spans set a -> strspn set (a +:+ b) = (String.length a + strspn set b)%nat.
Proof.
  unfold spans. induction a as [|c a IH]; [reflexivity|]. rewrite scons_app. cbn [strspn String.length]. destruct (smem c set); [|discriminate].
  intros [= H]. rewrite (IH H). reflexivity.
Qed.

Lemma spans_stake set s : spans set (stake (strspn set s) s) /\ stops set (sdrop (strspn set s) s).
Proof.
  unfold spans, stops. induction s as [|c s [IH1 IH2]]; [auto|]. cbn [strspn]. destruct (smem c set) eqn:E.
  - cbn [stake sdrop strspn String.length]. rewrite E, IH1. auto.
  - cbn [stake sdrop strspn String.length]. rewrite E. auto.
Qed.

Lemma length_span set s : String.length (stake (strspn set s) s) = strspn set s.
Proof.
  pose proof (spans_stake set s) as [Hs Hr]. rewrite <- (stake_sdrop (strspn set s) s) at 3. rewrite strspn_app by exact Hs.
  rewrite Hr. lia.
Qed.

Lemma spans_app set a b : spans set a -> spans set b -> spans set (a +:+ b).
Proof. intros Ha Hb. unfold spans. rewrite strspn_app by exact Ha. rewrite Hb, slength_app. reflexivity. Qed.

Lemma take_span set a b : spans set a -> stops set b -> strspn set (a +:+ b) = String.length a.
Proof. intros Ha Hb. rewrite strspn_app by exact Ha. unfold stops in Hb. lia. Qed.

Lemma digit_isdigit c : smem c digit_chars = isdigit c.
Proof. apply eqb_prop. revert c. apply ascii_forall. vm_compute. reflexivity. Qed.

Lemma digits_value_span v s : digits_value v (stake (strspn digit_chars s) s) = digits_value v s.
Proof.
  revert v. induction s as [|c s IH]; intros v; [reflexivity|]. cbn [strspn]. rewrite digit_isdigit. destruct (isdigit c) eqn:E.
  - cbn [stake digits_value]. rewrite E. apply IH.
  - cbn [stake digits_value]. rewrite E. reflexivity.
Qed.

Lemma digits_value_nonneg v s : 0 <= v -> 0 <= digits_value v s.
Proof.
  revert v. induction s as [|c s IH]; intros v Hv; [exact Hv|]. cbn [digits_value]. destruct (isdigit c) eqn:E; [|exact Hv].
  apply IH. unfold isdigit in E. lia.
Qed.

Lemma strtol_span s : strspn digit_chars s <> 0%nat -> digits_value 0 s < 2 ^ 63 -> strtol s = digits_value 0 s.
Proof.
  intros Hn Hv. pose proof (digits_value_nonneg 0 s ltac:(lia)) as H0. destruct s as [|c s]; [contradiction|]. cbn [strspn] in Hn. rewrite digit_isdigit in Hn.
  destruct (isdigit c) eqn:E; [|contradiction]. unfold strtol.
  assert (Hs : skip_space (String c s) = String c s).
  { cbn [skip_space]. replace (isspace c) with false; [reflexivity|]. unfold isspace, isdigit in *. lia. }
  rewrite Hs. assert (Hc : c <> "-"%char /\ c <> "+"%char) by (split; intros ->; discriminate E).
  replace (match String c s with String "-" s' => - digits_value 0 s' | String "+" s' => digits_value 0 s' | _ => digits_value 0 (String c s) end)
    with (digits_value 0 (String c s)); [lia|].
  destruct Hc. destruct c as [[] [] [] [] [] [] [] []]; try reflexivity; contradiction.
Qed.

(** ** The slow path takes a directive apart *)

Lemma sint_small w z : 0 < w -> - 2 ^ (w - 1) <= z < 2 ^ (w - 1) -> sint w z = z.
Proof.
  intros Hw Hz. unfold sint. assert (2 ^ w = 2 * 2 ^ (w - 1)) by (rewrite <- Z.pow_succ_r by lia; f_equal; lia).
  rewrite Z.mod_small by lia. lia.
Qed.

Lemma sint_range w z : 0 < w -> - 2 ^ (w - 1) <= sint w z < 2 ^ (w - 1).
Proof.
  intros Hw. unfold sint. assert (2 ^ w = 2 * 2 ^ (w - 1)) by (rewrite <- Z.pow_succ_r by lia; f_equal; lia).
  pose proof (Z.mod_pos_bound (z + 2 ^ (w - 1)) (2 ^ w) ltac:(lia)). lia.
Qed.

Definition width_text (w : number) (args : list arg) : string :=
  match w, args with Digits t, _ => t | Star, AInt z :: _ => dec (sint 32 z) | Star, _ => "" end.
Definition prec_text (p : option number) (args : list arg) : string :=
  match p, args with
  | None, _ => ""
  | Some (Digits t), _ => "." +:+ t
  | Some Star, AInt z :: _ => "." +:+ dec (sint 32 z)
  | Some Star, _ => ""
  end.

Lemma read_number_digits s : char_at s 0 <> "*"%char ->
  read_number s = (Digits (stake (strspn digit_chars s) s), sdrop (strspn digit_chars s) s).
Proof.
  intros H. destruct s as [|c s]; [reflexivity|]. unfold char_at in H. cbn in H.
  destruct c as [[] [] [] [] [] [] [] []]; try reflexivity; contradiction.
Qed.

Lemma read_number_star s : char_at s 0 = "*"%char -> read_number s = (Star, sdrop 1 s) /\ strspn digit_chars s = 0%nat.
Proof. destruct s as [|c s]; [discriminate|]. change (char_at (String c s) 0) with c. intros ->. split; [cbn; rewrite ?sdrop_0; reflexivity|reflexivity]. Qed.

Lemma scan_width_ok s nw s2 fl args fl' w args' :
  read_number s = (nw, s2) -> resolve_width fl nw args = Some (fl', w, args') -> short_number nw = true -> w < 100 ->
  exists minWidth, scan_width s args = Ok (Scanned (width_text nw args) minWidth s2 args').
Proof.
  intros Hr Hw Hs Hlt. unfold scan_width. destruct (ascii_dec (char_at s 0) "*") as [Hc|Hc].
  - destruct (read_number_star s Hc) as [E ->]. rewrite E in Hr. injection Hr as <- <-.
    destruct args as [|[z| | | | | |] args]; try discriminate. injection Hw as <- <- <-. cbn [Nat.eqb]. rewrite Hc. cbn [Ascii.eqb Bool.eqb].
    pose proof (sint_range 32 z ltac:(lia)). exists (sint 32 z). unfold va_arg, an_int. cbn [mbind res_bind].
    rewrite (proj2 (Z.eqb_neq _ _)) by lia. rewrite (proj2 (Z.ltb_ge _ _)) by lia. reflexivity.
  - rewrite (read_number_digits s Hc) in Hr. injection Hr as <- <-. injection Hw as <- <- <-. cbn [short_number] in Hs.
    destruct (Nat.eqb_spec (strspn digit_chars s) 0) as [->|Hn].
    + rewrite (proj2 (Ascii.eqb_neq _ _)) by exact Hc. exists 0. rewrite sdrop_0. destruct s; reflexivity.
    + unfold slen in Hs. rewrite length_span in Hs. apply Z.leb_le in Hs. rewrite (proj2 (Nat.leb_le _ _)) by lia. eexists. reflexivity.
Qed.

Lemma spans_forall set s : (forall c, smem c s = true -> smem c set = true) -> spans set s.
Proof.
  unfold spans. induction s as [|c s IH]; intros H; [reflexivity|]. cbn [strspn String.length].
  rewrite (H c) by (cbn [smem]; rewrite (proj2 (Ascii.eqb_eq c c) eq_refl); reflexivity). f_equal. apply IH. intros d Hd. apply H. cbn [smem]. rewrite Hd. apply orb_true_r.
Qed.

Lemma dec_digits z : 0 <= z -> spans digit_chars (dec z) /\ digits_value 0 (dec z) = z.
Proof.
  intros Hz. assert (E : dec z = @pretty N _ (Z.to_N z)) by (unfold dec; destruct z; [reflexivity|reflexivity|lia]). split.
  - apply spans_forall. intros c Hc. rewrite digit_isdigit. rewrite E in Hc. exact (dec_chars_N c _ Hc).
  - rewrite E, <- (sapp_nil_r (pretty _)), digits_value_dec by exact I. lia.
Qed.

Lemma read_precision_dot s : char_at s 0 = "."%char -> read_precision s = (let '(n, t) := read_number (sdrop 1 s) in (Some n, t)).
Proof. destruct s as [|c s]; [discriminate|]. change (char_at (String c s) 0) with c. intros ->. cbn. rewrite ?sdrop_0. reflexivity. Qed.

Lemma read_precision_none s : char_at s 0 <> "."%char -> read_precision s = (None, s).
Proof.
  intros H. destruct s as [|c s]; [reflexivity|]. change (char_at (String c s) 0) with c in H.
  destruct c as [[] [] [] [] [] [] [] []]; try reflexivity; contradiction.
Qed.

Lemma scan_precision_ok s np s2 args p args' :
  read_precision s = (np, s2) -> resolve_prec np args = Some (p, args') -> short_precision np p = true ->
  scan_precision s args = Ok (Scanned (prec_text np args) (default (-1) p) s2 args').
Proof.
  intros Hr Hp Hs. unfold scan_precision. destruct (ascii_dec (char_at s 0) ".") as [Hd|Hd].
  - rewrite (read_precision_dot s Hd) in Hr. rewrite Hd. cbn [Ascii.eqb Bool.eqb negb]. set (s1 := sdrop 1 s) in *.
    destruct (ascii_dec (char_at s1 0) "*") as [Hc|Hc].
    + destruct (read_number_star s1 Hc) as [E ->]. rewrite E in Hr. injection Hr as <- <-. rewrite Hc. cbn [Nat.eqb Ascii.eqb Bool.eqb].
      destruct args as [|[z| | | | | |] args]; try discriminate. cbn [resolve_prec] in Hp. injection Hp as <- <-.
      destruct (Z.ltb_spec (sint 32 z) 0) as [|Hz]; [discriminate|]. apply andb_prop in Hs as [_ Hs]. apply Z.leb_le in Hs.
      unfold va_arg, an_int. cbn [mbind res_bind]. rewrite (proj2 (Z.ltb_ge _ 0)) by lia. rewrite (proj2 (Z.ltb_ge _ _)) by lia. reflexivity.
    + rewrite (read_number_digits s1 Hc) in Hr. injection Hr as <- <-. cbn [resolve_prec] in Hp. injection Hp as <- <-.
      apply andb_prop in Hs as [Hs Hb]. cbn [short_number] in Hs. unfold slen in Hs. rewrite length_span in Hs. apply Z.leb_le in Hs. apply Z.leb_le in Hb.
      rewrite digits_value_span in *. cbn [prec_text default]. destruct (Nat.eqb_spec (strspn digit_chars s1) 0) as [E|Hn].
      * rewrite (proj2 (Ascii.eqb_neq _ _)) by exact Hc. rewrite E, sdrop_0.
        assert (digits_value 0 s1 = 0) as ->; [|destruct s1; reflexivity].
        rewrite <- digits_value_span, E. destruct s1; reflexivity.
      * rewrite (proj2 (Nat.leb_le _ _)) by lia. rewrite strtol_span by (exact Hn || lia). reflexivity.
  - rewrite (read_precision_none s Hd) in Hr. injection Hr as <- <-. cbn [resolve_prec] in Hp. injection Hp as <- <-.
    rewrite (proj2 (Ascii.eqb_neq _ _)) by exact Hd. reflexivity.
Qed.

(** ** The format that is put together *)

Definition conv_ops : string := "diuoxXcspfeEgG".
Definition size_chars : string := " lLh".
Definition size_text (sz : ascii) : string := if Ascii.eqb sz " " then "" else String sz "".

(** The cases of a character of a set. *)
Ltac char_cases H := cbn [smem conv_ops size_chars] in H; repeat (apply orb_prop in H as [H|H]); try discriminate H; apply Ascii.eqb_eq in H; subst.

Lemma parse_end fl w p sz o : smem o conv_ops = true -> smem sz size_chars = true ->
  parse_op fl w p (size_text sz +:+ String o "") = Some (mkSpec fl w p sz o, "").
Proof. intros Ho Hs. char_cases Hs; char_cases Ho; reflexivity. Qed.

(** The end of a format begins with nothing that could belong to what is before. *)
Lemma end_stops sz o set : smem o conv_ops = true -> smem sz size_chars = true -> set = flag_chars \/ set = digit_chars ->
  stops set (size_text sz +:+ String o "") /\ char_at (size_text sz +:+ String o "") 0 <> "."%char.
Proof. intros Ho Hs [->| ->]; char_cases Hs; char_cases Ho; split; (reflexivity || discriminate). Qed.

Lemma read_number_spans s t s2 : read_number s = (Digits t, s2) -> spans digit_chars t /\ exists n, t = stake n s.
Proof.
  intros H. destruct (ascii_dec (char_at s 0) "*") as [Hc|Hc].
  - rewrite (proj1 (read_number_star s Hc)) in H. discriminate.
  - rewrite (read_number_digits s Hc) in H. injection H as <- _. split; [apply spans_stake|eexists; reflexivity].
Qed.

(** The digits of a precision. *)
Lemma prec_digits s n s2 args p args' :
  read_precision s = (Some n, s2) -> resolve_prec (Some n) args = Some (p, args') -> short_precision (Some n) p = true ->
  exists t, prec_text (Some n) args = "." +:+ t /\ spans digit_chars t /\ p = Some (digits_value 0 t).
Proof.
  intros Hr Hp Hs. destruct (ascii_dec (char_at s 0) ".") as [Hd|Hd]; [|rewrite (read_precision_none s Hd) in Hr; discriminate].
  rewrite (read_precision_dot s Hd) in Hr. destruct (read_number (sdrop 1 s)) as [n' t'] eqn:En. injection Hr as -> <-.
  destruct n as [t|].
  - destruct (read_number_spans _ _ _ En) as [Ht _]. injection Hp as <- <-. exists t. auto.
  - destruct args as [|[z| | | | | |] args]; try discriminate. cbn [resolve_prec] in Hp. injection Hp as <- <-.
    destruct (Z.ltb_spec (sint 32 z) 0) as [|Hz]; [discriminate|]. destruct (dec_digits _ Hz) as [H1 H2]. exists (dec (sint 32 z)). rewrite H2. auto.
Qed.

Lemma parse_tail_ok fl w s np s2 args p args' sz o :
  read_precision s = (np, s2) -> resolve_prec np args = Some (p, args') -> short_precision np p = true ->
  smem o conv_ops = true -> smem sz size_chars = true ->
  let e := prec_text np args +:+ size_text sz +:+ String o "" in
  parse_tail fl w e = Some (mkSpec fl w p sz o, "") /\ stops flag_chars e /\ stops digit_chars e.
Proof.
  intros Hr Hp Hs Ho Hz e. destruct np as [n|].
  - destruct (prec_digits s n s2 args p args' Hr Hp Hs) as (t & Et & Ht & ->). unfold e. rewrite Et. split; [|split; reflexivity].
    change (("." +:+ t) +:+ size_text sz +:+ String o "") with (String "." (t +:+ size_text sz +:+ String o "")).
    cbn [parse_tail]. rewrite take_span by (exact Ht || apply end_stops; auto). rewrite stake_app_exact, sdrop_app_exact.
    apply parse_end; assumption.
  - injection Hp as <- <-. unfold e. cbn [prec_text]. change ("" +:+ size_text sz +:+ String o "") with (size_text sz +:+ String o "").
    destruct (end_stops sz o flag_chars Ho Hz (or_introl eq_refl)) as [H1 H2]. split; [|split; [exact H1|apply end_stops; auto]].
    clear - Ho Hz. char_cases Hz; char_cases Ho; reflexivity.
Qed.

(** The text of an asterisk: what is read back as flags and what as width. *)
Definition star_flags (z : Z) : string := if z <? 0 then "-" else if z =? 0 then "0" else "".
Lemma star_text z : -100 < z < 100 ->
  exists t, dec z = star_flags z +:+ t /\ spans digit_chars t /\ stops flag_chars t /\ digits_value 0 t = Z.abs z.
Proof.
  intros Hz. set (ok := fun z => let t := sdrop (String.length (star_flags z)) (dec z) in
    String.eqb (dec z) (star_flags z +:+ t) && Nat.eqb (strspn digit_chars t) (String.length t) && Nat.eqb (strspn flag_chars t) 0 && (digits_value 0 t =? Z.abs z)).
  assert (H : forallb ok (range (-99) 100) = true) by (vm_compute; reflexivity).
  rewrite forallb_forall in H. specialize (H z). rewrite <- list_elem_of_In, elem_of_range in H. specialize (H ltac:(lia)). unfold ok in H. cbv zeta in H.
  set (t := sdrop _ (dec z)) in H. apply andb_prop in H as [H H4]. apply andb_prop in H as [H H3]. apply andb_prop in H as [H1 H2].
  exists t. split; [apply String.eqb_eq, H1|]. split; [apply Nat.eqb_eq, H2|]. split; [apply Nat.eqb_eq, H3|]. apply Z.eqb_eq, H4.
Qed.

(** Without a width, the flag 0 says nothing. *)
Lemma pad_zero_flag fl w p sz o z pre b : w <= 0 -> pad (mkSpec (fl +:+ "0") w p sz o) z pre b = pad (mkSpec fl w p sz o) z pre b.
Proof.
  intros Hw. unfold pad. cbn [width flags]. rewrite !smem_app. cbn [smem]. rewrite orb_false_r.
  assert (Hf : forall c, spaces c (w - slen pre - slen b) = "").
  { intros c. unfold spaces. pose proof (slen_nonneg pre). pose proof (slen_nonneg b). replace (Z.to_nat _) with 0%nat by lia. reflexivity. }
  rewrite !Hf. change (("-" =? "0")%char || false) with false. rewrite orb_false_r.
  destruct (smem "-" fl); [reflexivity|]. destruct (_ && z), (_ && z); rewrite ?snil_app; reflexivity.
Qed.

Lemma conv_text_zero_flag fl w p sz o a : w <= 0 -> conv_text (mkSpec (fl +:+ "0") w p sz o) a = conv_text (mkSpec fl w p sz o) a.
Proof.
  intros Hw. assert (Hm : forall c, c <> "0"%char -> smem c (fl +:+ "0") = smem c fl).
  { intros c Hc. rewrite smem_app. cbn [smem]. rewrite (proj2 (Ascii.eqb_neq _ _)) by exact Hc. apply orb_false_r. }
  unfold conv_text. cbn [op size].
  assert (Hs : forall z, signed_text (mkSpec (fl +:+ "0") w p sz o) z = signed_text (mkSpec fl w p sz o) z).
  { intros z. unfold signed_text. rewrite pad_zero_flag by exact Hw. unfold sign_of. cbn [flags]. rewrite !Hm by discriminate. reflexivity. }
  assert (Hu : forall z, unsigned_text (mkSpec (fl +:+ "0") w p sz o) z = unsigned_text (mkSpec fl w p sz o) z).
  { intros z. unfold unsigned_text. cbn [flags op]. rewrite Hm by discriminate. rewrite !pad_zero_flag by exact Hw. reflexivity. }
  assert (Hf : forall t, float_padded (mkSpec (fl +:+ "0") w p sz o) t = float_padded (mkSpec fl w p sz o) t).
  { intros [|c t]; unfold float_padded; [apply pad_zero_flag, Hw|]. destruct (if smem c "-+ " then _ else _) as [pre b]. apply pad_zero_flag, Hw. }
  destruct (smem o "di"); [destruct (signed_arg sz a); cbn; rewrite ?Hs; reflexivity|].
  destruct (smem o "uoxX"); [destruct (unsigned_arg sz a); cbn; rewrite ?Hu; reflexivity|].
  destruct (smem o "feEgG").
  { destruct (float_arg sz a) as [x|]; [|reflexivity]. cbn [mbind option_bind flags prec]. rewrite !Hm by discriminate. rewrite Hf. reflexivity. }
  destruct (negb _); [reflexivity|]. destruct a as [z| |[s|]|z| | |]; try reflexivity; rewrite pad_zero_flag by exact Hw; reflexivity.
Qed.

(** The directive whose width has been read from the argument. *)
Definition same_text (sp sp' : spec) : Prop :=
  (forall a, conv_text sp' a = conv_text sp a) /\ prec sp' = prec sp /\ size sp' = size sp /\ op sp' = op sp.

Lemma parse_built fl s1 nw s2 np s3 sz o args sp args' args'' w fl' p :
  spans flag_chars fl -> stops flag_chars s1 -> read_number s1 = (nw, s2) -> read_precision s2 = (np, s3) ->
  resolve_width fl nw args = Some (fl', w, args') -> resolve_prec np args' = Some (p, args'') -> sp = mkSpec fl' w p sz o ->
  w < 100 -> short_precision np p = true -> smem o conv_ops = true -> smem sz size_chars = true ->
  exists sp', parse_directive (fl +:+ width_text nw args +:+ prec_text np args' +:+ size_text sz +:+ String o "") = Some (sp', "") /\ same_text sp sp'.
Proof.
  intros Hfl Hs1 Hr Hp Hrw Hrp -> Hw Hsp Ho Hz.
  assert (Hdir : forall g t, spans flag_chars g -> spans digit_chars t -> stops flag_chars (t +:+ prec_text np args' +:+ size_text sz +:+ String o "") ->
    parse_directive ((fl +:+ g) +:+ t +:+ prec_text np args' +:+ size_text sz +:+ String o "") = Some (mkSpec (fl +:+ g) (digits_value 0 t) p sz o, "")).
  { intros g t Hg Ht Hst. unfold parse_directive. rewrite take_span by (exact Hst || apply spans_app; assumption). rewrite stake_app_exact, sdrop_app_exact.
    destruct (parse_tail_ok (fl +:+ g) (digits_value 0 t) s2 np s3 args' p args'' sz o Hp Hrp Hsp Ho Hz) as (Et & _ & Hd).
    rewrite take_span by assumption. rewrite stake_app_exact, sdrop_app_exact. exact Et. }
  destruct (parse_tail_ok fl w s2 np s3 args' p args'' sz o Hp Hrp Hsp Ho Hz) as (_ & Hef & _). set (e := prec_text np args' +:+ size_text sz +:+ String o "") in *.
  destruct nw as [t|].
  - injection Hrw as <- <- <-. destruct (read_number_spans _ _ _ Hr) as [Ht (n & En)]. cbn [width_text].
    eexists. split; [|split; [reflexivity|auto]]. rewrite <- (sapp_nil_r fl) at 1 2. apply Hdir; [reflexivity|exact Ht|].
    unfold stops in *. subst t. destruct s1 as [|c s1], n as [|n]; try exact Hef. cbn [stake]. rewrite scons_app. cbn [strspn] in *. destruct (smem c flag_chars); [discriminate|reflexivity].
  - destruct args as [|[z| | | | | |] args]; try discriminate. injection Hrw as <- <- <-. cbn [width_text].
    destruct (star_text (sint 32 z) ltac:(lia)) as (t & Et & Ht & Hst & Hv). rewrite Et.
    exists (mkSpec (fl +:+ star_flags (sint 32 z)) (digits_value 0 t) p sz o). split.
    + rewrite sapp_assoc. rewrite <- (sapp_assoc fl). apply Hdir; [unfold star_flags; repeat case_match; reflexivity|exact Ht|].
      destruct t as [|c t]; [exact Hef|]. rewrite scons_app. unfold stops in *. cbn [strspn] in *. destruct (smem c flag_chars); [discriminate|reflexivity].
    + rewrite Hv. unfold star_flags, same_text. cbn [prec size op]. split; [|auto]. intros a.
      destruct (Z.ltb_spec (sint 32 z) 0); [reflexivity|]. destruct (Z.eqb_spec (sint 32 z) 0) as [E|]; [|rewrite sapp_nil_r; reflexivity].
      apply conv_text_zero_flag. lia.
Qed.

(** ** The switch *)

Lemma sint_congr w z : 0 < w -> exists k, sint w z = z + k * 2 ^ w.
Proof.
  intros Hw. unfold sint. exists (- ((z + 2 ^ (w - 1)) / 2 ^ w)). rewrite Z.mod_eq by (apply Z.pow_nonzero; lia). lia.
Qed.

Lemma sint_sint w z : 0 < w -> sint w (sint w z) = sint w z.
Proof. intros Hw. apply sint_small; [exact Hw|]. apply sint_range. exact Hw. Qed.

Lemma mod_sint m w z : 0 < w -> 0 < m -> (m | 2 ^ w) -> sint w z mod m = z mod m.
Proof. intros Hw Hm [q Hq]. destruct (sint_congr w z Hw) as [k ->]. rewrite Hq, Z.mul_assoc. apply Z_mod_plus_full. Qed.

Lemma sint_16_32 z : sint 16 (sint 32 z) = sint 16 z.
Proof.
  destruct (sint_congr 32 z ltac:(lia)) as [k ->]. unfold sint. replace (z + k * 2 ^ 32 + 2 ^ (16 - 1)) with (z + 2 ^ (16 - 1) + (k * 2 ^ 16) * 2 ^ 16) by lia.
  rewrite Z_mod_plus_full. reflexivity.
Qed.

Lemma u8_sint z : u8 (sint 32 z) = u8 z.
Proof. apply mod_sint; [lia|lia|]. exists (2 ^ 24). reflexivity. Qed.
Lemma u16_sint z : u16 (sint 32 z) = u16 z.
Proof. apply mod_sint; [lia|lia|]. exists (2 ^ 16). reflexivity. Qed.
Lemma u32_sint z : u32 (sint 32 z) = u32 z.
Proof. apply mod_sint; [lia|lia|]. exists 1. reflexivity. Qed.
Lemma u64_sint z : u64 (sint 64 z) = u64 z.
Proof. apply mod_sint; [lia|lia|]. exists 1. reflexivity. Qed.
Lemma u16_idemp z : u16 (u16 z) = u16 z.
Proof. apply Z.mod_mod. lia. Qed.
Lemma u32_idemp z : u32 (u32 z) = u32 z.
Proof. apply Z.mod_mod. lia. Qed.
Lemma u64_idemp z : u64 (u64 z) = u64 z.
Proof. apply Z.mod_mod. lia. Qed.

Lemma conv_text_ops sp a t : conv_text sp a = Some t -> smem (op sp) conv_ops = true.
Proof.
  unfold conv_text. destruct (smem (op sp) "di") eqn:E1; [cbn [smem] in E1; intros _; cbn [smem conv_ops]; repeat (destruct (_ =? _)%char; try reflexivity; try discriminate)|].
  destruct (smem (op sp) "uoxX") eqn:E2; [cbn [smem] in E2; intros _; cbn [smem conv_ops]; repeat (destruct (_ =? _)%char; try reflexivity; try discriminate)|].
  destruct (smem (op sp) "feEgG") eqn:E3; [cbn [smem] in E3; intros _; cbn [smem conv_ops]; repeat (destruct (_ =? _)%char; try reflexivity; try discriminate)|].
  destruct (negb _); [discriminate|]. destruct a as [| |[]| | | |]; try discriminate;
    (destruct (op sp =? _)%char eqn:E; [apply Ascii.eqb_eq in E; rewrite E; reflexivity|discriminate]).
Qed.

Lemma formatted_ok buffLen s sp sp' b t args :
  parse_directive s = Some (sp', "") -> same_text sp sp' -> conv_text sp b = Some t -> slen t < buffLen -> c_str t = t ->
  formatted buffLen (String "%" s) b args = Ok (Performed t args None).
Proof.
  intros Hp (He & _) Ht Hl Hc. unfold formatted, sprintf. rewrite Hp, He, Ht. rewrite (proj2 (Z.leb_gt _ _)) by exact Hl. rewrite Hc. reflexivity.
Qed.

Lemma perform_ok fast s buffLen read a args args' sp sp' t count :
  parse_directive s = Some (sp', "") -> same_text sp sp' -> conv_text sp (c_arg a) = Some t -> slen t < buffLen -> c_str t = t ->
  smem (size sp) size_chars = true ->
  (if smem (op sp) "sf" then fast = false /\ read = Some (c_arg a) /\ args = args' else args = a :: args') ->
  perform fast (op sp) (size sp) (String "%" s) buffLen read args count = Ok (Performed t args' None).
Proof.
  intros Hp Hsame Ht Hl Hc Hz Hargs. pose proof (conv_text_ops _ _ _ Ht) as Ho.
  assert (Hf : forall b, conv_text sp b = Some t -> formatted buffLen (String "%" s) b args' = Ok (Performed t args' None))
    by (intros b Hb; exact (formatted_ok _ _ _ _ _ _ _ Hp Hsame Hb Hl Hc)).
  clear Hp Hsame Hl Hc. destruct sp as [fl w p sz o]. cbn [op size] in *. revert Ht Hf Hargs. char_cases Ho; char_cases Hz; destruct a as [z|z|[str|]|z|x|x|z]; intros Ht Hf Hargs; try discriminate Ht.
  all: cbn in Hargs; try (destruct Hargs as (-> & -> & ->)); try subst args.
  all: first [exact (Hf _ Ht)
    | cbn -[formatted sint u8 u16 u32 u64]; apply Hf; rewrite <- Ht; cbn -[sint u8 u16 u32 u64 signed_text unsigned_text];
      rewrite ?sint_sint, ?sint_16_32, ?u32_sint, ?u16_sint, ?u64_sint, ?u8_sint, ?u16_idemp, ?u32_idemp, ?u64_idemp by lia; reflexivity].
Qed.

(** ** How long a text can be *)

Lemma slen_spaces c n : slen (spaces c n) = Z.max 0 n.
Proof.
  unfold spaces, slen. assert (H : forall k, String.length (String.concat "" (replicate k (String c ""))) = k); [|rewrite H; lia].
  induction k as [|k IH]; [reflexivity|]. destruct k as [|k]; [reflexivity|]. cbn [replicate] in *. cbn [String.concat].
  change (String.length (String c ("" +:+ String.concat "" (String c "" :: replicate k (String c "")))) = S (S k)). cbn [String.length]. f_equal. exact IH.
Qed.

Lemma slen_pad sp z pre b : slen (pad sp z pre b) = Z.max (width sp) (slen pre + slen b).
Proof.
  unfold pad. destruct (smem "-" (flags sp)); [|destruct (_ && z)]; rewrite !slen_app, slen_spaces; lia.
Qed.

Lemma slen_base_digits n up b z s : slen (base_digits n up b z s) <= Z.of_nat n + slen s.
Proof.
  revert z s. induction n as [|n IH]; intros z s; cbn [base_digits]; [lia|]. destruct (z =? 0); [lia|].
  pose proof (IH (z / b) (String (digit_of up (z mod b)) s)) as H. rewrite slen_cons in H. lia.
Qed.

Lemma slen_dec64 z : Z.abs z < 2 ^ 64 -> slen (dec z) <= 21.
Proof. intros H. unfold slen. pose proof (dec_length 19 z ltac:(change (10 ^ Z.of_nat 20) with 100000000000000000000; lia)). lia. Qed.

Lemma slen_unsigned_digits o z : 0 <= z < 2 ^ 64 -> slen (unsigned_digits o z) <= 22.
Proof.
  intros Hz. unfold unsigned_digits. destruct (o =? "u")%char; [pose proof (slen_dec64 z ltac:(lia)); lia|].
  destruct (z =? 0); [change (1 <= 22); lia|]. pose proof (slen_base_digits 22 (o =? "X")%char (if (o =? "o")%char then 8 else 16) z "") as H.
  change (slen "") with 0 in H. lia.
Qed.

Lemma slen_with_precision sp d b : slen (with_precision sp d b) <= Z.max (default (-1) (prec sp)) (slen d).
Proof.
  unfold with_precision. destruct (prec sp) as [p|]; [change (default (-1) (Some p)) with p|lia]. destruct (_ && b); [change (slen "") with 0; pose proof (slen_nonneg d); lia|].
  rewrite slen_app, slen_spaces. lia.
Qed.

Lemma slen_signed_text sp z : Z.abs z < 2 ^ 64 -> slen (signed_text sp z) <= Z.max (width sp) (Z.max (default (-1) (prec sp)) 22 + 2).
Proof.
  intros Hz. unfold signed_text. rewrite slen_pad. pose proof (slen_with_precision sp (dec (Z.abs z)) (z =? 0)). pose proof (slen_dec64 (Z.abs z) ltac:(lia)).
  assert (slen (sign_of sp (z <? 0)) <= 1) by (unfold sign_of; repeat case_match; vm_compute; discriminate). lia.
Qed.

Lemma slen_unsigned_text sp z : 0 <= z < 2 ^ 64 -> slen (unsigned_text sp z) <= Z.max (width sp) (Z.max (default (-1) (prec sp)) 22 + 2).
Proof.
  intros Hz. unfold unsigned_text. pose proof (slen_with_precision sp (unsigned_digits (op sp) z) (z =? 0)) as H.
  pose proof (slen_unsigned_digits (op sp) z Hz). set (d := with_precision _ _ _) in *.
  assert (Hd : slen (match d with String "0" _ => d | _ => "0" +:+ d end) <= slen d + 1).
  { destruct d as [|[[] [] [] [] [] [] [] []] d']; rewrite ?slen_app, ?slen_cons; try change (slen "0") with 1; try change (slen "") with 0; try pose proof (slen_nonneg d'); lia. }
  destruct (_ && _); [|destruct (_ && _)]; rewrite slen_pad; try change (slen "") with 0; [lia| |lia].
  rewrite !slen_cons. change (slen "") with 0. lia.
Qed.

(** What is relied on of a number's text: [sprintf] writes no more than the sign, the
    digits and the exponent. *)
Definition float_fits : Prop := forall plus space alt p o x, (forall q, p = Some q -> 0 <= q) ->
  slen (float_text plus space alt p o x)
    <= default 6 p + (if Ascii.eqb o "f" then 3 + (if 0 <? frexp_exp x then frexp_exp x / 3 else 0) else 8) + 9.

(** The bound the slow path computes. *)
Definition content_bound (sp : spec) (a : arg) : Z :=
  let pz := default (-1) (prec sp) in
  if smem (op sp) "diuoxXcp" then Z.max pz 46
  else match a with
       | AString (Some s) => if pz =? -1 then slen s else Z.min pz (slen s)
       | ADouble x => default 6 (prec sp) + (if Ascii.eqb (op sp) "f" then 3 + (if 0 <? frexp_exp x then frexp_exp x / 3 else 0) else 8)
       | ALongDouble x =>
           let e := frexp_exp (fcvt b64 x) in default 6 (prec sp) + (if Ascii.eqb (op sp) "f" then 3 + (if 0 <? e then e / 3 else 0) else 8)
       | _ => 0
       end.

Lemma conv_text_length sp a t : float_fits -> conv_text sp a = Some t -> width sp < 100 -> (forall q, prec sp = Some q -> 0 <= q) ->
  match a with ALongDouble x => frexp_exp x <= frexp_exp (fcvt b64 x) | _ => True end ->
  slen t <= Z.max 99 (content_bound sp a + 9).
Proof.
  intros Hfit Ht Hw Hp Ha. pose proof (conv_text_ops _ _ _ Ht) as Ho. unfold conv_text in Ht. unfold content_bound.
  destruct (smem (op sp) "di") eqn:E1.
  { destruct (signed_arg (size sp) a) as [z|] eqn:Ez; [|discriminate]. injection Ht as <-.
    assert (Hz : Z.abs z < 2 ^ 64).
    { unfold signed_arg in Ez. destruct a; try discriminate; repeat case_match; try discriminate; injection Ez as <-;
        [pose proof (sint_range 32 z0 ltac:(lia))|pose proof (sint_range 16 z0 ltac:(lia))|pose proof (sint_range 64 z0 ltac:(lia))]; lia. }
    pose proof (slen_signed_text sp z Hz). replace (smem (op sp) "diuoxXcp") with true; [lia|].
    symmetry. cbn [smem] in E1 |- *. repeat (destruct (_ =? _)%char; try reflexivity; try discriminate). }
  destruct (smem (op sp) "uoxX") eqn:E2.
  { destruct (unsigned_arg (size sp) a) as [z|] eqn:Ez; [|discriminate]. injection Ht as <-.
    assert (Hz : 0 <= z < 2 ^ 64).
    { unfold unsigned_arg in Ez. destruct a; try discriminate; repeat case_match; try discriminate; injection Ez as <-;
        unfold u16, u32, u64; match goal with |- 0 <= ?x mod ?m < _ => pose proof (Z.mod_pos_bound x m ltac:(lia)) end; lia. }
    pose proof (slen_unsigned_text sp z Hz). replace (smem (op sp) "diuoxXcp") with true; [lia|].
    symmetry. cbn [smem] in E2 |- *. repeat (destruct (_ =? _)%char; try reflexivity; try discriminate). }
  destruct (smem (op sp) "feEgG") eqn:E3.
  { destruct (float_arg (size sp) a) as [x|] eqn:Ex; [|discriminate]. injection Ht as <-.
    pose proof (Hfit (smem "+" (flags sp)) (smem " " (flags sp)) (smem "#" (flags sp)) (prec sp) (op sp) x Hp) as Hl.
    set (text := float_text _ _ _ _ _ _) in *.
    assert (Hpad : slen (float_padded sp text) <= Z.max (width sp) (slen text)).
    { unfold float_padded. destruct text as [|c text]; [rewrite slen_pad; change (slen "") with 0; lia|].
      destruct (smem c "-+ "); rewrite slen_pad, ?slen_cons; change (slen "") with 0; lia. }
    replace (smem (op sp) "diuoxXcp") with false.
    2:{ symmetry. cbn [smem] in E3 |- *. repeat (apply orb_prop in E3 as [E3|E3]); try discriminate E3; apply Ascii.eqb_eq in E3; rewrite E3; reflexivity. }
    unfold float_arg in Ex. destruct a; try discriminate; (destruct (_ =? _)%char in Ex; [|discriminate]); injection Ex as ->; [lia|].
    cbv zeta. destruct (op sp =? "f")%char; [|lia]. set (e := frexp_exp x) in *. set (e' := frexp_exp (fcvt b64 x)) in *.
    assert ((if 0 <? e then e / 3 else 0) <= (if 0 <? e' then e' / 3 else 0)).
    { destruct (Z.ltb_spec 0 e), (Z.ltb_spec 0 e'); [apply Z.div_le_mono; lia|lia|apply Z.div_pos; lia|lia]. }
    lia. }
  destruct (negb _); [discriminate|]. destruct a as [z| |[s|]|z| | |]; try discriminate; (destruct (op sp =? _)%char eqn:E; [|discriminate]);
    apply Ascii.eqb_eq in E; rewrite E in *; injection Ht as <-; rewrite slen_pad; change (slen "") with 0; cbn [smem].
  - change (slen (String (chr (u8 z)) "")) with 1. cbn [Ascii.eqb Bool.eqb orb]. lia.
  - cbn [Ascii.eqb Bool.eqb orb]. unfold cut_text. destruct (prec sp) as [p|].
    + change (default (-1) (Some p)) with p. pose proof (Hp p eq_refl). rewrite (proj2 (Z.eqb_neq _ _)) by lia.
      unfold slen. rewrite length_stake. lia.
    + change (default (-1) (@None Z)) with (-1). change (-1 =? -1) with true. cbv iota. lia.
  - cbn [Ascii.eqb Bool.eqb orb]. destruct (z =? 0); [change (slen "(nil)") with 5; lia|]. rewrite slen_app. change (slen "0x") with 2.
    pose proof (slen_base_digits 22 false 16 z "") as H. change (slen "") with 0 in H.
    assert (slen (unsigned_digits "x" z) <= 22) by (unfold unsigned_digits; cbn [Ascii.eqb Bool.eqb]; destruct (z =? 0); [change (1 <= 22); lia|exact H]). lia.
Qed.

(** ** A directive *)

Lemma resolve_prec_nonneg np args p args' q : resolve_prec np args = Some (p, args') -> p = Some q -> 0 <= q.
Proof.
  intros H ->. destruct np as [[t|]|]; [|destruct args as [|[z| | | | | |] args]|]; try discriminate; cbn [resolve_prec] in H.
  - injection H as <- _. apply digits_value_nonneg. lia.
  - destruct (Z.ltb_spec (sint 32 z) 0); [discriminate|]. injection H as <- _. assumption.
Qed.

Lemma required_ok sp a args t : conv_text sp (c_arg a) = Some t -> (forall q, prec sp = Some q -> 0 <= q) ->
  required (op sp) (size sp) (default (-1) (prec sp)) (a :: args)
  = Ok (Some (content_bound sp (c_arg a), (if smem (op sp) "sf" then Some (c_arg a) else None), (if smem (op sp) "sf" then args else a :: args))).
Proof.
  intros Ht Hp. pose proof (conv_text_ops _ _ _ Ht) as Ho.
  assert (Hd : (if default (-1) (prec sp) =? -1 then 6 else default (-1) (prec sp)) = default 6 (prec sp)).
  { destruct (prec sp) as [q|]; [|reflexivity]. pose proof (Hp q eq_refl). change (default (-1) (Some q)) with q. rewrite (proj2 (Z.eqb_neq _ _)) by lia. reflexivity. }
  unfold required, content_bound. rewrite !Hd. destruct sp as [fl w p sz o]. cbn [op size prec] in *. clear Hd Hp.
  revert Ht. char_cases Ho; cbn -[frexp_exp fcvt b64 default]; intros Ht; try reflexivity.
  - destruct (negb _) in Ht; [discriminate|]. destruct a as [| |[s|]| | | |]; try discriminate. reflexivity.
  - destruct a as [| | | |x|x|]; try discriminate; cbn [c_arg float_arg] in Ht |- *;
      (destruct (sz =? _)%char eqn:E in Ht; [|discriminate]); apply Ascii.eqb_eq in E; subst sz; cbn -[frexp_exp fcvt b64 default Z.add]; rewrite <- Z.add_assoc; reflexivity.
  - destruct a as [| | | |x|x|]; try discriminate; reflexivity.
  - destruct a as [| | | |x|x|]; try discriminate; reflexivity.
  - destruct a as [| | | |x|x|]; try discriminate; reflexivity.
  - destruct a as [| | | |x|x|]; try discriminate; reflexivity.
Qed.

(** The facts of a directive that is supported. *)
Lemma supported_facts d sp a : supported d sp a = true ->
  slen (d_flags d) <= 5 /\ short_number (d_width d) = true /\ width sp < 100 /\ short_precision (d_prec d) (prec sp) = true
  /\ match a with ALongDouble x => frexp_exp x <= frexp_exp (fcvt b64 x) | _ => True end.
Proof.
  unfold supported. intros H. apply andb_prop in H as [H H5]. apply andb_prop in H as [H H4]. apply andb_prop in H as [H H3]. apply andb_prop in H as [H1 H2].
  apply Z.leb_le in H1. apply Z.ltb_lt in H3. repeat split; try assumption. destruct a; try exact I. apply Z.leb_le, H5.
Qed.

(** The size and the operation, where the number ends. *)
Lemma op_ok s3 (d : directive) fl nw np rest : 
  match s3 with
  | "" => None
  | String m s' =>
      if smem m "lLh" then match s' with String o rest => Some (mkDirective fl nw np m o, rest) | "" => None end
      else Some (mkDirective fl nw np " " m, s')
  end = Some (d, rest) ->
  let sized := smem (char_at s3 0) "lLh" in
  let p3 := if sized then sdrop 1 s3 else s3 in
  d_flags d = fl /\ d_width d = nw /\ d_prec d = np /\ (if sized then char_at s3 0 else " "%char) = d_size d /\ char_at p3 0 = d_op d /\ sdrop 1 p3 = rest
  /\ smem (d_size d) size_chars = true /\ (if sized then String (d_size d) "" else "") = size_text (d_size d).
Proof.
  destruct s3 as [|m s']; [discriminate|]. change (char_at (String m s') 0) with m. destruct (smem m "lLh") eqn:Em.
  - destruct s' as [|o r]; [discriminate|]. intros [= <- <-]. cbn [sdrop]. rewrite ?sdrop_0. cbn [d_flags d_width d_prec d_size d_op].
    change (char_at (String o r) 0) with o. repeat split; try reflexivity.
    + cbn [smem size_chars] in *. rewrite Em. apply orb_true_r.
    + unfold size_text. destruct (Ascii.eqb_spec m " ") as [->|]; [discriminate Em|reflexivity].
  - intros [= <- <-]. cbn [sdrop]. rewrite ?sdrop_0. repeat split; reflexivity.
Qed.

Lemma buffer_ok bound w aux : let '(buffLen, _) := buffer_for (Z.max (bound + 10) w) aux in Z.max 99 (bound + 9) < buffLen.
Proof.
  unfold buffer_for, PRINTF_BUFFLEN. destruct (Z.leb_spec (Z.max (bound + 10) w) 100); [lia|]. destruct (Z.ltb_spec aux (Z.max (bound + 10) w)); lia.
Qed.

(** The new format fits into its buffer. *)
Lemma fmt_short s s1 nw s2 np args args' fl' w p args'' sz o :
  slen (stake (strspn flag_chars s) s) <= 5 -> read_number s1 = (nw, s2) -> resolve_width (stake (strspn flag_chars s) s) nw args = Some (fl', w, args') ->
  short_number nw = true -> w < 100 -> resolve_prec np args' = Some (p, args'') -> short_precision np p = true ->
  slen ("%" +:+ stake (strspn flag_chars s) s +:+ width_text nw args +:+ prec_text np args' +:+ size_text sz +:+ String o "") < FMT_BUFFLEN.
Proof.
  intros Hf Hr Hrw Hs Hw Hrp Hsp. rewrite !slen_app. change (slen "%") with 1. change (slen (String o "")) with 1.
  assert (Hd : forall z, Z.abs z <= 999999 -> slen (dec z) <= 7) by (intros z Hz; unfold slen; pose proof (dec_length 5 z ltac:(change (10 ^ Z.of_nat 6) with 1000000; lia)); lia).
  assert (slen (width_text nw args) <= 7).
  { destruct nw as [t|]; [apply Z.leb_le in Hs; cbn [width_text]; lia|]. destruct args as [|[z| | | | | |] args]; try discriminate.
    cbn [resolve_width] in Hrw. injection Hrw as _ <- _. apply Hd. lia. }
  assert (slen (prec_text np args') <= 8).
  { destruct np as [[t|]|]; [| |change (0 <= 8); lia].
    - injection Hrp as <- <-. apply andb_prop in Hsp as [Hsp _]. apply Z.leb_le in Hsp. cbn [prec_text]. rewrite slen_app. change (slen ".") with 1. lia.
    - destruct args' as [|[z| | | | | |] args']; try discriminate. cbn [resolve_prec] in Hrp. injection Hrp as <- <-.
      destruct (Z.ltb_spec (sint 32 z) 0); [discriminate|]. apply andb_prop in Hsp as [_ Hsp]. apply Z.leb_le in Hsp.
      cbn [prec_text]. rewrite slen_app. change (slen ".") with 1. pose proof (Hd (sint 32 z) ltac:(lia)). lia. }
  assert (slen (size_text sz) <= 1) by (unfold size_text; destruct (sz =? " ")%char; [change (0 <= 1)|change (1 <= 1)]; lia).
  unfold FMT_BUFFLEN. lia.
Qed.

Lemma slow_path_ok s d rest args sp a args' t aux count :
  float_fits -> read_directive s = Some (d, rest) -> resolve d args = Some (sp, a :: args') -> conv_text sp (c_arg a) = Some t ->
  supported d sp a = true -> c_str t = t ->
  exists aux', slow_path (String "%" s) args aux count = Ok (Some (mkConversion t rest args' aux' None)).
Proof.
  intros Hfit Hd Hr Ht Hsup Hc. destruct (supported_facts _ _ _ Hsup) as (Hf & Hsw & Hw & Hsp & Hl). clear Hsup.
  unfold read_directive in Hd. set (n := strspn flag_chars s) in *. set (s1 := sdrop n s) in *.
  destruct (read_number s1) as [nw s2] eqn:Er. destruct (read_precision s2) as [np s3] eqn:Ep.
  pose proof (op_ok s3 d (stake n s) nw np rest Hd) as Hop. cbv zeta in Hop. destruct Hop as (Ef & Ew & Epr & Esz & Eop & Erest & Hz & Estx).
  rewrite Ef in Hf. rewrite Ew in Hsw. rewrite Epr in Hsp.
  unfold resolve in Hr. rewrite Ef, Ew, Epr in Hr.
  destruct (resolve_width (stake n s) nw args) as [[[fl' w] args1]|] eqn:Erw; [|discriminate]. cbn [mbind option_bind] in Hr.
  destruct (resolve_prec np args1) as [[p args2]|] eqn:Erp; [|discriminate]. cbn [mbind option_bind] in Hr. injection Hr as Hsp' ->.
  assert (Hwd : width sp = w) by (rewrite <- Hsp'; reflexivity). assert (Hpr : prec sp = p) by (rewrite <- Hsp'; reflexivity).
  assert (Hso : size sp = d_size d) by (rewrite <- Hsp'; reflexivity). assert (Hoo : op sp = d_op d) by (rewrite <- Hsp'; reflexivity).
  rewrite Hwd in Hw. rewrite Hpr in Hsp. pose proof (conv_text_ops _ _ _ Ht) as Ho. rewrite Hoo in Ho.
  destruct (scan_width_ok s1 nw s2 (stake n s) args fl' w args1 Er Erw Hsw Hw) as [minW Esw].
  pose proof (scan_precision_ok s2 np s3 args1 p (a :: args') Ep Erp Hsp) as Esp.
  destruct (parse_built (stake n s) s1 nw s2 np s3 (d_size d) (d_op d) args sp args1 (a :: args') w fl' p
              (proj1 (spans_stake flag_chars s)) (proj2 (spans_stake flag_chars s)) Er Ep Erw Erp (eq_sym Hsp') Hw Hsp Ho Hz) as (sp' & Epd & Hsame).
  pose proof (fmt_short s s1 nw s2 np args args1 fl' w p (a :: args') (d_size d) (d_op d) Hf Er Erw Hsw Hw Erp Hsp) as Hfmt. fold n in Hfmt.
  assert (Hpn : forall q, prec sp = Some q -> 0 <= q) by (rewrite Hpr; intros q; exact (resolve_prec_nonneg _ _ _ _ _ Erp)).
  pose proof (required_ok sp a args' t Ht Hpn) as Ereq. rewrite Hpr, Hso, Hoo in Ereq.
  unfold slow_path. change (sdrop 1 (String "%" s)) with (sdrop 0 s). rewrite sdrop_0. fold n s1.
  unfold slen in Hf. unfold n in Hf at 1. rewrite length_span in Hf. fold n in Hf. rewrite (proj2 (Nat.ltb_ge 5 n)) by lia.
  rewrite Esw. cbn [mbind res_bind]. rewrite Esp. cbn [mbind res_bind]. rewrite Esz, Eop, Erest, Estx. rewrite (proj2 (Z.leb_gt _ _)) by exact Hfmt.
  rewrite Ereq. cbn [mbind res_bind].
  pose proof (buffer_ok (content_bound sp (c_arg a)) minW aux) as Hb. destruct (buffer_for _ aux) as [buffLen aux']. exists aux'.
  assert (Hlen : slen t < buffLen).
  { pose proof (conv_text_length sp (c_arg a) t Hfit Ht ltac:(lia) Hpn ltac:(destruct a; exact Hl)). lia. }
  assert (Eper : perform false (d_op d) (d_size d) ("%" +:+ stake n s +:+ width_text nw args +:+ prec_text np args1 +:+ size_text (d_size d) +:+ String (d_op d) "")
                   buffLen (if smem (d_op d) "sf" then Some (c_arg a) else None) (if smem (d_op d) "sf" then args' else a :: args') count = Ok (Performed t args' None)).
  { rewrite <- Hso, <- Hoo in *. apply (perform_ok false _ buffLen _ a _ args' sp sp' t count Epd Hsame Ht Hlen Hc Hz).
    destruct (smem (op sp) "sf"); auto. }
  rewrite Eper. reflexivity.
Qed.

(** A directive with nothing but a size and an operation. *)
Definition bare (sz o : ascii) : spec := mkSpec "" 0 None sz o.

Lemma bare_sized m o rest : smem m "lLh" = true -> read_directive (String m (String o rest)) = Some (mkDirective "" (Digits "") None m o, rest).
Proof. intros Hm. cbn [smem] in Hm. repeat (apply orb_prop in Hm as [Hm|Hm]); try discriminate Hm; apply Ascii.eqb_eq in Hm; subst m; reflexivity. Qed.

Lemma bare_plain o rest : smem o flag_chars = false -> smem o digit_chars = false -> smem o ".*lLh" = false ->
  read_directive (String o rest) = Some (mkDirective "" (Digits "") None " " o, rest).
Proof.
  intros Hf Hd Hp. cbn [smem] in Hp. repeat (apply orb_false_iff in Hp as [?H Hp]). unfold read_directive. cbn [strspn]. rewrite Hf. cbn [stake]. rewrite sdrop_0.
  rewrite read_number_digits by (change (char_at (String o rest) 0) with o; apply Ascii.eqb_neq; assumption).
  cbn [strspn]. rewrite Hd. cbn [stake]. rewrite sdrop_0.
  rewrite read_precision_none by (change (char_at (String o rest) 0) with o; apply Ascii.eqb_neq; assumption).
  replace (smem o "lLh") with false; [reflexivity|]. cbn [smem]. repeat match goal with H : (o =? _)%char = false |- _ => rewrite H; clear H end. reflexivity.
Qed.

Lemma resolve_bare sz o args : resolve (mkDirective "" (Digits "") None sz o) args = Some (bare sz o, args).
Proof. reflexivity. Qed.

Lemma parse_bare sz o : smem o conv_ops = true -> smem sz size_chars = true -> parse_directive (size_text sz +:+ String o "") = Some (bare sz o, "").
Proof. intros Ho Hz. char_cases Hz; char_cases Ho; reflexivity. Qed.

Lemma same_text_refl sp : same_text sp sp.
Proof. split; auto. Qed.

(** The fast path, where it succeeds. *)
Lemma fast_ok sz o a args t count :
  float_fits -> conv_text (bare sz o) (c_arg a) = Some t -> c_str t = t -> smem sz size_chars = true -> o <> "f"%char ->
  match a with ALongDouble x => frexp_exp x <= frexp_exp (fcvt b64 x) | _ => True end ->
  perform true o sz (String "%" (size_text sz +:+ String o "")) PRINTF_BUFFLEN None (a :: args) count = Ok (Performed t args None).
Proof.
  intros Hfit Ht Hc Hz Hf Hl. pose proof (conv_text_ops _ _ _ Ht) as Ho. cbn [op bare] in Ho.
  destruct (ascii_dec o "s") as [->|Hs].
  - unfold conv_text in Ht. cbn [bare op size smem Ascii.eqb Bool.eqb orb] in Ht. destruct (sz =? " ")%char eqn:Ez; [|discriminate].
    apply Ascii.eqb_eq in Ez. subst sz. destruct a as [| |[str|]| | | |]; try discriminate. cbn [negb c_arg fmap option_fmap option_map] in Ht.
    injection Ht as <-. unfold pad. cbn [bare width flags smem andb prec cut_text]. change (slen "") with 0.
    assert (spaces " " (0 - 0 - slen (c_str str)) = "") as -> by (unfold spaces; pose proof (slen_nonneg (c_str str)); replace (Z.to_nat _) with 0%nat by lia; reflexivity).
    reflexivity.
  - apply (perform_ok true _ PRINTF_BUFFLEN None a (a :: args) args (bare sz o) (bare sz o) t count (parse_bare sz o Ho Hz) (same_text_refl _) Ht); try assumption.
    + pose proof (conv_text_length (bare sz o) (c_arg a) t Hfit Ht ltac:(cbn; lia) ltac:(discriminate) ltac:(destruct a; exact Hl)) as Hlen.
      assert (content_bound (bare sz o) (c_arg a) <= 46); [|unfold PRINTF_BUFFLEN; lia].
      revert Ht Hs Hf. clear. intros Ht Hs Hf. pose proof (conv_text_ops _ _ _ Ht) as Ho. cbn [op bare] in Ho. revert Ht Hs Hf. unfold content_bound.
      char_cases Ho; intros Ht Hs Hf; try contradiction; cbn [bare op prec default smem Ascii.eqb Bool.eqb orb]; try (vm_compute; discriminate);
        destruct a as [| |[str|]| |x|x|]; try discriminate Ht; vm_compute; discriminate.
    + cbn [bare op]. replace (smem o "sf") with false; [reflexivity|]. cbn [smem]. rewrite (proj2 (Ascii.eqb_neq _ _) Hs), (proj2 (Ascii.eqb_neq _ _) Hf). reflexivity.
Qed.

(** What is not an operation is left to the slow path. *)
Lemma not_performed o args count : smem o conv_ops = false -> smem o "n%" = false -> o <> "000"%char ->
  perform true o " " (String "%" (String o "")) PRINTF_BUFFLEN None args count = Ok NotPerformed.
Proof.
  intros Ho Hn H0. cbn [smem conv_ops] in Ho, Hn. repeat (apply orb_false_iff in Ho as [?H Ho]). repeat (apply orb_false_iff in Hn as [?H Hn]).
  unfold perform. cbn [smem]. repeat match goal with H : (o =? _)%char = false |- _ => rewrite H; clear H end.
  rewrite (proj2 (Ascii.eqb_neq _ _) H0). reflexivity.
Qed.

Lemma convert_ok s d rest args sp a args' t aux count :
  float_fits -> char_at s 0 <> "%"%char -> read_directive s = Some (d, rest) -> resolve d args = Some (sp, a :: args') -> conv_text sp (c_arg a) = Some t ->
  supported d sp a = true -> c_str t = t ->
  exists aux', convert (String "%" s) args aux count = Ok (Some (mkConversion t rest args' aux' None)).
Proof.
  intros Hfit Hp Hd Hr Ht Hsup Hc. destruct (slow_path_ok s d rest args sp a args' t aux count Hfit Hd Hr Ht Hsup Hc) as [aux' Hslow].
  destruct (supported_facts _ _ _ Hsup) as (_ & _ & _ & _ & Hl). pose proof (conv_text_ops _ _ _ Ht) as Ho.
  destruct s as [|c s]; [discriminate|]. change (char_at (String c s) 0) with c in Hp. unfold convert.
  change (char_at (String "%" (String c s)) 1) with c. destruct (smem c "lLh") eqn:Ec.
  - destruct s as [|o s]; [cbn [smem] in Ec; repeat (apply orb_prop in Ec as [Ec|Ec]); try discriminate Ec; apply Ascii.eqb_eq in Ec; subst c; discriminate|].
    rewrite (bare_sized c o s Ec) in Hd. injection Hd as <- <-. rewrite resolve_bare in Hr. injection Hr as <- ->.
    change (char_at (String "%" (String c (String o s))) 2) with o. cbn [bare op] in Ho.
    assert (Hz : smem c size_chars = true) by (cbn [smem size_chars] in *; rewrite Ec; apply orb_true_r).
    assert (Es : String c "" +:+ String o "" = size_text c +:+ String o "").
    { unfold size_text. destruct (Ascii.eqb_spec c " ") as [->|]; [discriminate Ec|reflexivity]. }
    destruct (ascii_dec o "f") as [->|Hf]; [exists aux'; exact Hslow|]. exists aux. rewrite Es.
    rewrite (fast_ok c o a args' t count Hfit Ht Hc Hz Hf Hl : perform true o c ("%" +:+ size_text c +:+ String o "") _ _ _ _ = _). reflexivity.
  - destruct (smem c conv_ops) eqn:Eo.
    + assert (Hb : smem c flag_chars = false /\ smem c digit_chars = false /\ smem c ".*lLh" = false) by (clear - Eo; char_cases Eo; auto).
      destruct Hb as (B1 & B2 & B3). rewrite (bare_plain c s B1 B2 B3) in Hd. injection Hd as <- <-. rewrite resolve_bare in Hr. injection Hr as <- ->.
      destruct (ascii_dec c "f") as [->|Hf]; [exists aux'; exact Hslow|]. exists aux.
      rewrite (fast_ok " " c a args' t count Hfit Ht Hc eq_refl Hf Hl : perform true c " " ("%" +:+ "" +:+ String c "") _ _ _ _ = _). cbn [mbind res_bind sdrop]. rewrite ?sdrop_0. reflexivity.
    + exists aux'. assert (Hbad : forall x, smem x conv_ops = false -> smem x flag_chars = false -> smem x digit_chars = false -> smem x ".*lLh" = false -> c <> x).
      { intros x X1 X2 X3 X4 ->. rewrite (bare_plain x s X2 X3 X4) in Hd. injection Hd as <- <-. rewrite resolve_bare in Hr. injection Hr as <- ->.
        cbn [bare op] in Ho. congruence. }
      assert (Hn : smem c "n%" = false).
      { cbn [smem]. rewrite (proj2 (Ascii.eqb_neq _ _) Hp), (proj2 (Ascii.eqb_neq _ _) (Hbad "n"%char eq_refl eq_refl eq_refl eq_refl)). reflexivity. }
      rewrite (not_performed c args count Eo Hn (Hbad "000"%char eq_refl eq_refl eq_refl eq_refl) : perform true c " " ("%" +:+ "" +:+ String c "") _ _ _ _ = _). exact Hslow.
Qed.

(** ** The loop *)

Lemma chars_app a b : chars (a +:+ b) = chars a ++ chars b.
Proof. unfold chars. induction a as [|c a IH]; [reflexivity|]. rewrite scons_app. cbn. f_equal. exact IH. Qed.

Lemma blen_chars s : blen (chars s) = slen s.
Proof. unfold blen, chars, slen. rewrite length_fmap. f_equal. induction s as [|c s IH]; [reflexivity|]. cbn. f_equal. exact IH. Qed.

Lemma slen_zero s : slen s = 0 -> s = "".
Proof. destruct s; [reflexivity|]. rewrite slen_cons. pose proof (slen_nonneg s). lia. Qed.

Lemma printf_text_other fuel c f args : c <> "%"%char -> printf_text (S fuel) (String c f) args = (t ← printf_text fuel f args; Some (String c t)).
Proof. intros H. destruct c as [[] [] [] [] [] [] [] []]; try reflexivity. contradiction. Qed.

Lemma printf_text_directive fuel s args : char_at s 0 <> "%"%char ->
  printf_text (S fuel) (String "%" s) args =
  ('(d, rest) ← read_directive s;
   '(sp, args) ← resolve d args;
   match args with
   | a :: args =>
       t ← conv_text sp (c_arg a);
       if supported d sp a && bool_decide (c_str t = t) then u ← printf_text fuel rest args; Some (t +:+ u) else None
   | [] => None
   end).
Proof. intros H. destruct s as [|c s]; [reflexivity|]. change (char_at (String c s) 0) with c in H. destruct c as [[] [] [] [] [] [] [] []]; try reflexivity. contradiction. Qed.

Lemma literal_cons c f : c <> "%"%char -> literal (String c f) = String c (literal f).
Proof.
  intros H. unfold literal. cbn [sfind_if]. rewrite (proj2 (Ascii.eqb_neq "%" c)) by congruence. destruct (sfind_if _ f); reflexivity.
Qed.

(** The characters before a directive are written as they are. *)
Lemma literal_ok f fuel args t : printf_text fuel f args = Some t ->
  exists t' fuel', t = literal f +:+ t' /\ printf_text fuel' (sdrop (String.length (literal f)) f) args = Some t'.
Proof.
  revert fuel t. induction f as [|c f IH]; intros fuel t H.
  - exists t, fuel. cbn. rewrite snil_app. auto.
  - destruct (ascii_dec c "%") as [->|Hc].
    + exists t, fuel. change (literal (String "%" f)) with (stake 0 (String "%" f)). cbn [stake String.length]. rewrite sdrop_0, snil_app. auto.
    + destruct fuel as [|fuel]; [discriminate|]. rewrite (printf_text_other fuel c f args Hc) in H.
      destruct (printf_text fuel f args) as [u|] eqn:E; [|discriminate]. injection H as <-.
      destruct (IH fuel u E) as (t' & fuel' & -> & E'). exists t', fuel'. rewrite literal_cons by exact Hc. rewrite scons_app. auto.
Qed.

Lemma literal_rest f : sdrop (String.length (literal f)) f = "" \/ exists s, sdrop (String.length (literal f)) f = String "%" s.
Proof.
  induction f as [|c f IH]; [auto|]. destruct (ascii_dec c "%") as [->|Hc].
  - right. exists f. reflexivity.
  - rewrite literal_cons by exact Hc. exact IH.
Qed.

Lemma read_directive_length s d rest : read_directive s = Some (d, rest) -> (String.length rest < String.length s)%nat.
Proof.
  unfold read_directive. set (n := strspn flag_chars s). intros H.
  assert (Hnum : forall u nw v, read_number u = (nw, v) -> (String.length v <= String.length u)%nat).
  { intros u nw v Hu. destruct (ascii_dec (char_at u 0) "*") as [Hc|Hc].
    - rewrite (proj1 (read_number_star u Hc)) in Hu. assert (v = sdrop 1 u) as -> by congruence. rewrite length_sdrop. lia.
    - rewrite (read_number_digits u Hc) in Hu. injection Hu as _ <-. rewrite length_sdrop. lia. }
  destruct (read_number (sdrop n s)) as [nw s2] eqn:E1. apply Hnum in E1. rewrite length_sdrop in E1.
  assert (Hp : forall np s3, read_precision s2 = (np, s3) -> (String.length s3 <= String.length s2)%nat).
  { intros np s3 E. destruct (ascii_dec (char_at s2 0) ".") as [Hc|Hc].
    - rewrite (read_precision_dot s2 Hc) in E. destruct (read_number (sdrop 1 s2)) as [k v] eqn:Ek. apply Hnum in Ek. injection E as _ <-. rewrite length_sdrop in Ek. lia.
    - rewrite (read_precision_none s2 Hc) in E. injection E as _ <-. lia. }
  destruct (read_precision s2) as [np s3] eqn:E2. specialize (Hp np s3 eq_refl). destruct s3 as [|m s3]; [discriminate|]. cbn [String.length] in Hp.
  destruct (smem m "lLh"); [|injection H as _ <-; lia]. destruct s3 as [|o r]; [discriminate|]. injection H as _ <-. cbn [String.length] in Hp. lia.
Qed.

(** The first directive of a format. *)
Lemma next_directive s args aux count k t : float_fits -> printf_text k (String "%" s) args = Some t ->
  exists t1 rest args' aux' t2 k', convert (String "%" s) args aux count = Ok (Some (mkConversion t1 rest args' aux' None))
    /\ t = t1 +:+ t2 /\ (String.length rest < String.length (String "%" s))%nat /\ printf_text k' rest args' = Some t2.
Proof.
  intros Hfit Ht. destruct k as [|k]; [discriminate|]. destruct (ascii_dec (char_at s 0) "%") as [Hc|Hc].
  - destruct s as [|c s]; [discriminate|]. change (char_at (String c s) 0) with c in Hc. subst c.
    change (printf_text (S k) (String "%" (String "%" s)) args) with (t ← printf_text k s args; Some (String "%" t)) in Ht.
    destruct (printf_text k s args) as [u|] eqn:E; [|discriminate]. injection Ht as <-.
    exists "%", s, args, aux, u, k. split; [unfold convert; cbn [sdrop]; rewrite ?sdrop_0; reflexivity|]. split; [reflexivity|].
    split; [cbn [String.length]; lia|exact E].
  - rewrite (printf_text_directive k s args Hc) in Ht. destruct (read_directive s) as [[d rest]|] eqn:Ed; [|discriminate]. cbn [mbind option_bind] in Ht.
    destruct (resolve d args) as [[sp [|a args']]|] eqn:Er; [discriminate| |discriminate]. cbn [mbind option_bind] in Ht.
    destruct (conv_text sp (c_arg a)) as [t1|] eqn:Et; [|discriminate]. cbn [mbind option_bind] in Ht.
    destruct (supported d sp a) eqn:Es; [|discriminate]. destruct (bool_decide (c_str t1 = t1)) eqn:Eb; [|discriminate]. cbn [andb] in Ht.
    apply bool_decide_eq_true in Eb. destruct (printf_text k rest args') as [u|] eqn:Eu; [|discriminate]. injection Ht as <-.
    destruct (convert_ok s d rest args sp a args' t1 aux count Hfit Hc Ed Er Et Es Eb) as [aux' Ec].
    pose proof (read_directive_length s d rest Ed). exists t1, rest, args', aux', u, k. split; [exact Ec|]. split; [reflexivity|].
    split; [cbn [String.length]; lia|exact Eu].
Qed.

(** A stream that takes what is put. *)
Section Stream.
Context (P : bytes -> World -> Prop).
Context (Hput : forall d b w, P d w -> exists w', FCGX_PutStr OS_Errno b w = (Ok (blen b), w') /\ P (d ++ b) w').

Lemma put_text_ok t n d w : P d w -> 0 <= n -> n + slen t < 2 ^ 31 ->
  exists w', put_text t n w = (Ok (Some (n + slen t)), w') /\ P (d ++ chars t) w'.
Proof.
  intros Hw Hn Hlt. pose proof (slen_nonneg t). unfold put_text. destruct (Z.eqb_spec (slen t) 0) as [E|E].
  - exists w. rewrite (slen_zero t E). change (slen "") with 0. rewrite Z.add_0_r. cbn [chars]. rewrite app_nil_r. auto.
  - destruct (Hput d (chars t) w Hw) as (w' & Ep & Hw'). exists w'. split; [|exact Hw']. rewrite (obj_bind_val _ _ _ _ _ Ep), blen_chars.
    rewrite (proj2 (Z.ltb_ge _ _)) by lia. unfold add_int.
    rewrite (proj2 (Z.leb_le _ _)), (proj2 (Z.ltb_lt _ _)) by lia. reflexivity.
Qed.

Lemma vf_loop_ok fuel f args aux n d w k t :
  float_fits -> (String.length f < fuel)%nat -> printf_text k f args = Some t -> P d w -> 0 <= n -> n + slen t < 2 ^ 31 ->
  exists w', vf_loop fuel f args aux n [] w = (Ok (n + slen t, []), w') /\ P (d ++ chars t) w'.
Proof.
  intros Hfit. revert f args aux n d w k t. induction fuel as [|fuel IH]; intros f args aux n d w k t Hlen Ht Hw Hn Hlt; [lia|]. cbn [vf_loop].
  destruct f as [|c0 f0]; [destruct k; [discriminate|]; injection Ht as <-; exists w; change (slen "") with 0; rewrite Z.add_0_r, app_nil_r; auto|].
  set (f := String c0 f0) in *. change (empty f) with false. cbv iota.
  destruct (literal_ok f k args t Ht) as (t1 & k1 & -> & Ht1). rewrite slen_app in Hlt.
  pose proof (slen_nonneg t1). pose proof (slen_nonneg (literal f)).
  destruct (put_text_ok (literal f) n d w Hw Hn ltac:(lia)) as (w1 & E1 & Hw1). rewrite (obj_bind_val _ _ _ _ _ E1).
  destruct (literal_rest f) as [Er|(s & Er)].
  { rewrite Er in *. destruct k1; [discriminate|]. injection Ht1 as <-. exists w1. rewrite sapp_nil_r. auto. }
  assert (Hs : (String.length s < fuel)%nat).
  { pose proof (length_sdrop (String.length (literal f)) f) as Hl. rewrite Er in Hl. cbn [String.length] in Hl. lia. }
  rewrite Er in *. change (empty (String "%" s)) with false. cbv iota.
  destruct (next_directive s args aux (n + slen (literal f)) k1 t1 Hfit Ht1) as (t2 & rest & args2 & aux2 & t3 & k2 & Ec & -> & Hrest & Ht3).
  cbn [String.length] in Hrest. rewrite slen_app in *. pose proof (slen_nonneg t2). pose proof (slen_nonneg t3). rewrite Ec, obj_lift_bind. cbn [text after rest_args aux_of store].
  destruct (put_text_ok t2 (n + slen (literal f)) _ w1 Hw1 ltac:(lia) ltac:(lia)) as (w2 & E2 & Hw2). rewrite (obj_bind_val _ _ _ _ _ E2).
  destruct (IH rest args2 aux2 (n + slen (literal f) + slen t2) _ w2 k2 t3 ltac:(lia) Ht3 Hw2 ltac:(lia) ltac:(lia)) as (w3 & E3 & Hw3).
  exists w3. rewrite !chars_app, !app_assoc. split; [|exact Hw3]. change ([] ++ option_list None) with (@nil (Z * Z)). rewrite E3, ?slen_app. do 3 f_equal. lia.
Qed.
End Stream.
End Printf.

(** C28. The printf of the library: for a format and arguments that are defined by the C
    standard and that are [supported] -- in every directive not more than five flags, a
    width below 100, a precision up to 999999 that is not a negative asterisk, no null
    pointer for [%s] and no zero for [%c] -- what is put into the output stream is the text
    of the standard, its length is returned, and no call of [sprintf] writes past its
    buffer.  The width is a limit of this theorem and not one the code checks: the code
    lets numbers of six digits through and overflows its buffer with them
    ([width_overflows]). *)
Theorem printf_written {ft : FloatText} (OS_Errno T ID : Z) (rq : Request) (before : bytes) (inc : list (option bytes)) format args t d w :
  0 <= T < 256 -> requestId rq = ID -> 0 <= ID < 2 ^ 16 -> float_fits ->
  printf_text (S (String.length (c_str format))) (c_str format) args = Some t -> slen t < 2 ^ 31 -> writing T ID rq before inc d w ->
  exists w', FCGX_VFPrintF OS_Errno format args w = (Ok (slen t, []), w') /\ writing T ID rq before inc (d ++ chars t) w'.
Proof.
  intros HT HID HID' Hfit Ht Hl Hw. unfold FCGX_VFPrintF.
  refine (vf_loop_ok OS_Errno (writing T ID rq before inc) _ _ (c_str format) args 0 0 d w _ t Hfit _ Ht Hw _ _); [|lia..].
  intros d' b w' Hw'. exact (writing_PutStr OS_Errno T ID rq before inc HT HID HID' d' b w' Hw').
Qed.

(** ** Examples *)

(** Numbers are cut to what they may take. *)
#[local] Instance demo_text : FloatText := {|
  float_text _ _ _ p o x :=
    stake (Z.to_nat (default 6 p + (if Ascii.eqb o "f" then 3 + (if 0 <? frexp_exp x then frexp_exp x / 3 else 0) else 8) + 9))
      (if Ascii.eqb o "f" then printf_f (default 6 p) x else printf_g (default 6 p) x)
|}.

Lemma demo_fits : float_fits.
Proof.
  intros plus space alt p o x Hp. cbn [float_text demo_text].
  assert (0 <= default 6 p) by (destruct p as [q|]; [exact (Hp q eq_refl)|change (0 <= 6); lia]).
  assert (0 <= if Ascii.eqb o "f" then 3 + (if 0 <? frexp_exp x then frexp_exp x / 3 else 0) else 8).
  { destruct (Ascii.eqb o "f"); [|lia]. destruct (Z.ltb_spec 0 (frexp_exp x)); [pose proof (Z.div_pos (frexp_exp x) 3); lia|lia]. }
  unfold slen. rewrite length_stake. lia.
Qed.

Definition demo_format : string := "%s: %5d of %-*ld|%#06x %.3f%% %c".
Definition demo_args : list arg := [AString (Some "tiles"); AInt 42; AInt 7; ALong (-9); AInt 255; ADouble (of_Z b64 12); AInt 33].

Lemma printf_written_witness :
  exists w', FCGX_VFPrintF 32 demo_format demo_args
      (mkWorld (NewStream (fun _ => 0) 4100 64 false FCGI_STDOUT) (mkRequest 1 FCGI_RESPONDER true false 0 1) (mkConn [] [Some 3] [])) = (Ok (40, []), w')
    /\ writing FCGI_STDOUT 1 (mkRequest 1 FCGI_RESPONDER true false 0 1) [] [] ([] ++ chars "tiles:    42 of -9     |0x00ff 12.000% !") w'.
Proof.
  apply (printf_written 32 FCGI_STDOUT 1 (mkRequest 1 FCGI_RESPONDER true false 0 1) [] [] demo_format demo_args "tiles:    42 of -9     |0x00ff 12.000% !" []).
  - unfold FCGI_STDOUT. lia.
  - reflexivity.
  - lia.
  - exact demo_fits.
  - vm_compute. reflexivity.
  - change (40 < 2 ^ 31). lia.
  - apply NewStream_writing; [lia|repeat constructor; eexists; reflexivity].
Defined.

(** ** Where the printf goes wrong *)

(** A width that is as long as the buffer leaves no room for the terminator, and the width
    -120 of an argument makes the text longer than the buffer, which is sized for it as if
    it were smaller than 100. *)
Lemma width_overflows :
  convert "%100d" [AInt 1] 0 0 = undef "sprintf past the buffer" /\ convert "%2000d" [AInt 1] 0 0 = undef "sprintf past the buffer"
  /\ convert "%*d" [AInt (-120); AInt 1] 0 0 = undef "sprintf past the buffer".
Proof. split; [|split]; vm_compute; reflexivity. Qed.

(** The exponent of a [long double] is taken of a [double]: for one that is too large it is
    that of infinity, and the buffer is too small. *)
Lemma long_double_overflows : convert "%.3Lf" [ALongDouble (FFin false (10 ^ 400) 0)] 0 0 = undef "sprintf past the buffer".
Proof. vm_compute. reflexivity. Qed.

(** The character 0 is not written; a negative precision is taken for 0, although it is
    none; [%lf] is refused; a null pointer is printed only if there is a width. *)
Lemma null_character : convert "%c" [AInt 0] 0 0 = Ok (Some (mkConversion "" "" [] 0 None)).
Proof. vm_compute. reflexivity. Qed.
Lemma negative_precision :
  convert "%.*s" [AInt (-1); AString (Some "abc")] 0 0 = Ok (Some (mkConversion "" "" [] 0 None))
  /\ resolve (mkDirective "" (Digits "") (Some Star) " " "s") [AInt (-1); AString (Some "abc")] = Some (mkSpec "" 0 None " " "s", [AString (Some "abc")]).
Proof. split; vm_compute; reflexivity. Qed.
Lemma lf_refused : convert "%lf" [ADouble (FZero false)] 0 0 = Ok None.
Proof. vm_compute. reflexivity. Qed.
Lemma null_string : convert "%s" [AString None] 0 0 = undef "strlen of a null pointer" /\ convert "%1s" [AString None] 0 0 = Ok (Some (mkConversion "(null)" "" [] 0 None)).
Proof. split; vm_compute; reflexivity. Qed.
