(* ===== verification/FCGXStdio.v ===== *)
(** * The stdio package of the FastCGI library (src/fcgi/libfcgi/fcgi_stdio.c)

    Functions with the names of <stdio.h>: a program that uses them runs as a CGI program,
    whose standard streams are those of the C library, or as a FastCGI server, whose
    standard streams are the streams of the request [FCGI_Accept] accepted.  A [FCGI_FILE]
    is one or the other; the C library and its files are the interface [Stdio], and
    [StdioLaws] what the C standard says of the functions a client calls.

    [same_as_cgi] is the promise of the package: a program that reads its input and writes
    its answer gets the same results and writes the same bytes either way.  The lemmas at
    the end are about what differs. *)
From stdpp Require Import base strings list numbers.
From Stdlib Require Import ZArith Lia.
From coqutil Require Import Datatypes.RecordSetters.
From S2P Require Import Prelude Object CString RawTile FCGX FCGXRecords FCGXWriter FCGXReader FCGXFill FCGXStream FCGXAccept FCGXParams FCGXPrintf.
Import TriangleBracketNotations.
#[local] Open Scope string_scope.
#[local] Open Scope list_scope.
#[local] Open Scope Z_scope.

(** ** The C library *)

(** Its files, their state, [errno] in it, and its functions; a buffer is an address. *)
Class Stdio := {
  FILE : Type; FILES : Type; fpos : Type;
  stdin : FILE; stdout : FILE; stderr : FILE;
  fopen : string -> string -> Obj FILES (option FILE);
  fdopen : Z -> string -> Obj FILES (option FILE);
  popen : string -> string -> Obj FILES (option FILE);
  tmpfile : Obj FILES (option FILE);
  freopen : string -> string -> FILE -> Obj FILES (option FILE);
  fclose : FILE -> Obj FILES Z;
  pclose : FILE -> Obj FILES Z;
  fflush : option FILE -> Obj FILES Z;
  setvbuf : FILE -> Z -> Z -> Z -> Obj FILES Z;
  setbuf : FILE -> Z -> Obj FILES unit;
  fseek : FILE -> Z -> Z -> Obj FILES Z;
  ftell : FILE -> Obj FILES Z;
  rewind : FILE -> Obj FILES unit;
  fgetpos : FILE -> Obj FILES (Z * fpos);
  fsetpos : FILE -> fpos -> Obj FILES Z;
  fgetc : FILE -> Obj FILES Z;
  ungetc : Z -> FILE -> Obj FILES Z;
  fgets : Z -> FILE -> Obj FILES (option bytes);
  fread : Z -> Z -> FILE -> Obj FILES (bytes * Z);
  fputc : Z -> FILE -> Obj FILES Z;
  fputs : string -> FILE -> Obj FILES Z;
  vfprintf : FILE -> string -> list arg -> Obj FILES (Z * list (Z * Z));
  fwrite : bytes -> Z -> Z -> FILE -> Obj FILES Z;
  feof : FILE -> Obj FILES Z;
  ferror : FILE -> Obj FILES Z;
  clearerr : FILE -> Obj FILES unit;
  fileno : FILE -> Obj FILES Z;
  strerror : Z -> string;
  OS_Errno_ : FILES -> Z;
  OS_SetErrno : Z -> Obj FILES unit
}.

Definition ESPIPE : Z := 29.

(** ** The state *)

(** The streams of the library's own request. *)
Inductive SID := In | Out | Error.

(** A pointer to a [FCGI_FILE]: to one of [_fcgi_sF], or what [malloc] gave. *)
Inductive FP := FCGI_stdin | FCGI_stdout | FCGI_stderr | Allocated (n : nat).

(** [fp != FCGI_stdin && fp != FCGI_stdout && fp != FCGI_stderr] *)
Definition allocated_file (fp : FP) : bool := match fp with Allocated _ => true | _ => false end.

Section Package.
Context {ft : FloatText} {io : Stdio}.

Record FCGI_FILE := mkFile { stdio_stream : option FILE; fcgx_stream : option SID }.

(** The variables of the file, the files that [malloc] gave ([None]: freed), [environ],
    whether [FCGI_Finish] runs at the exit, the library's request and the C library. *)
Record App := mkApp {
  acceptCalled : bool; isCGI : bool;
  sF : FCGI_FILE * FCGI_FILE * FCGI_FILE;
  heap : list (option FCGI_FILE);
  environ : option (list bytes);
  finish_at_exit : bool;
  fcgx : Server;
  files : FILES
}.

Abbreviation M := (Obj App).

Definition with_sF (f : FCGI_FILE * FCGI_FILE * FCGI_FILE) (a : App) : App :=
  mkApp (acceptCalled a) (isCGI a) f (heap a) (environ a) (finish_at_exit a) (fcgx a) (files a).
Definition with_heap (h : list (option FCGI_FILE)) (a : App) : App :=
  mkApp (acceptCalled a) (isCGI a) (sF a) h (environ a) (finish_at_exit a) (fcgx a) (files a).
Definition with_environ (e : option (list bytes)) (a : App) : App :=
  mkApp (acceptCalled a) (isCGI a) (sF a) (heap a) e (finish_at_exit a) (fcgx a) (files a).
Definition with_fcgx (g : Server) (a : App) : App :=
  mkApp (acceptCalled a) (isCGI a) (sF a) (heap a) (environ a) (finish_at_exit a) g (files a).
Definition with_files (s : FILES) (a : App) : App :=
  mkApp (acceptCalled a) (isCGI a) (sF a) (heap a) (environ a) (finish_at_exit a) (fcgx a) s.

(** A call of the C library, and one of the FastCGI library. *)
Definition on_files {A} (m : Obj FILES A) : M A := fun a => let '(r, s) := m (files a) in (r, with_files s a).
Definition on_fcgx {A} (m : Obj Server A) : M A := fun a => let '(r, g) := m (fcgx a) in (r, with_fcgx g a).

(** A function of a stream of the request. *)
Definition on_sid {A} (s : SID) (m : F A) : M A :=
  on_fcgx match s with In => on_in m | Out => on_out m | Error => on_err m end.

(** [*fp] *)
Definition lookup_file (fp : FP) (a : App) : option FCGI_FILE :=
  match fp with
  | FCGI_stdin => Some (sF a).1.1 | FCGI_stdout => Some (sF a).1.2 | FCGI_stderr => Some (sF a).2
  | Allocated n => mjoin (heap a !! n)
  end.
Definition the_file (fp : FP) : M FCGI_FILE := obj_deref (lookup_file fp) "freed file".

Definition set_file (fp : FP) (f : FCGI_FILE) : M unit := obj_set (fun a =>
  let '(i, o, e) := sF a in
  match fp with
  | FCGI_stdin => with_sF (f, o, e) a | FCGI_stdout => with_sF (i, f, e) a | FCGI_stderr => with_sF (i, o, f) a
  | Allocated n => with_heap (<[n := Some f]> (heap a)) a
  end).
Definition free (fp : FP) : M unit :=
  obj_set (fun a => match fp with Allocated n => with_heap (<[n := None]> (heap a)) a | _ => a end).

(** The test every function begins with. *)
Definition by_kind {A} (fp : FP) (std : FILE -> M A) (fcgi : SID -> M A) (none : M A) : M A :=
  f ← the_file fp;
  match stdio_stream f, fcgx_stream f with
  | Some s, _ => std s
  | None, Some s => fcgi s
  | None, None => none
  end.

(** What the library is given: see [FCGX_Accept] and [FCGX_IsCGI]. *)
Context (junk : Z -> Z) (OS_Errno : Z) (address : Z -> Z) (OS_LibInit OS_IsFcgi isFastCGI : Z).
(** Whether [malloc] has room for a file. *)
Context (malloc_ok : App -> bool).

(** [stream->fillBuffProc] *)
Definition fillBuff : F unit := FillBuffProc junk OS_Errno.

(** ** Requests *)

Definition FCGI_Finish : M unit :=
  a ← obj_get (fun a => a);
  if negb (acceptCalled a) || isCGI a then mret tt
  else
    _ ← on_fcgx (FCGX_Finish OS_Errno);
    obj_set (fun a =>
      let '(i, o, e) := sF a in
      with_environ None (with_sF (mkFile (stdio_stream i) None, mkFile (stdio_stream o) None, mkFile (stdio_stream e) None) a)).

(** The first call finds out how the program runs: [Some] is a call of [exit]. *)
Definition first_call : M (option Z) :=
  cgi ← on_fcgx (FCGX_IsCGI OS_Errno OS_LibInit OS_IsFcgi isFastCGI);
  match cgi with
  | inl code => mret (Some code)
  | inr cgi =>
      _ ← obj_set (fun a => mkApp true cgi (sF a) (heap a) (environ a) true (fcgx a) (files a));
      mret None
  end.

(** [inl] is a call of [exit]. *)
Definition FCGI_Accept : M (Z + Z) :=
  a ← obj_get (fun a => a);
  if acceptCalled a && isCGI a then mret (inr EOF)
  else
    exits ← (if acceptCalled a then mret None else first_call);
    match exits with
    | Some code => mret (inl code)
    | None =>
        a ← obj_get (fun a => a);
        if isCGI a then
          _ ← obj_set (with_sF (mkFile (Some stdin) None, mkFile (Some stdout) None, mkFile (Some stderr) None));
          mret (inr 0)
        else
          acceptResult ← on_fcgx (FCGX_Accept junk OS_Errno address OS_LibInit);
          if acceptResult <? 0 then mret (inr acceptResult)
          else
            _ ← obj_set (fun a =>
              with_environ (Some (envp (fcgx a))) (with_sF (mkFile None (Some In), mkFile None (Some Out), mkFile None (Some Error)) a));
            mret (inr 0)
    end.

Definition FCGI_StartFilterData : M Z :=
  f ← the_file FCGI_stdin;
  match stdio_stream f, fcgx_stream f with
  | Some _, _ => mret (-1)
  | None, Some s => on_sid s FCGX_StartFilterData
  | None, None => obj_lift (undef "null stream")
  end.

Definition FCGI_SetExitStatus (status : Z) : M unit :=
  f ← the_file FCGI_stdin;
  match fcgx_stream f with Some s => on_sid s (FCGX_SetExitStatus status) | None => mret tt end.

(** ** Opening and closing *)

(** [None] is the null pointer. *)
Definition FCGI_OpenFromFILE (stream : option FILE) : M (option FP) :=
  match stream with
  | None => mret None
  | Some _ =>
      a ← obj_get (fun a => a);
      if malloc_ok a then
        _ ← obj_set (with_heap (heap a ++ [Some (mkFile stream None)]));
        mret (Some (Allocated (length (heap a))))
      else mret None
  end.

(** Closes the file again when there is no room for the structure. *)
Definition open_file (file : Obj FILES (option FILE)) (close : FILE -> Obj FILES Z) : M (option FP) :=
  file ← on_files file;
  fcgi_file ← FCGI_OpenFromFILE file;
  _ ← match file, fcgi_file with Some file, None => _ ← on_files (close file); mret tt | _, _ => mret tt end;
  mret fcgi_file.

Definition FCGI_fopen (path mode : string) : M (option FP) := open_file (fopen path mode) fclose.
Definition FCGI_fdopen (fd : Z) (mode : string) : M (option FP) := open_file (fdopen fd mode) fclose.
Definition FCGI_popen (cmd type : string) : M (option FP) := open_file (popen cmd type) pclose.
Definition FCGI_tmpfile : M (option FP) := open_file tmpfile fclose.

Definition FCGI_fclose (fp : FP) : M Z :=
  f ← the_file fp;
  n ← match stdio_stream f, fcgx_stream f with
      | Some s, _ => n ← on_files (fclose s); _ ← set_file fp (mkFile None (fcgx_stream f)); mret n
      | None, Some s => n ← on_sid s (FCGX_FClose OS_Errno); _ ← set_file fp (mkFile None None); mret n
      | None, None => mret EOF
      end;
  _ ← obj_when (allocated_file fp) (free fp);
  mret n.

Definition FCGI_pclose (fp : FP) : M Z :=
  f ← the_file fp;
  match stdio_stream f, fcgx_stream f with
  | None, Some _ => mret EOF
  | Some s, _ =>
      n ← on_files (pclose s);
      _ ← set_file fp (mkFile None (fcgx_stream f));
      _ ← obj_when (allocated_file fp) (free fp);
      mret n
  | None, None => _ ← obj_when (allocated_file fp) (free fp); mret EOF
  end.

(** [None] is the null pointer: all files. *)
Definition FCGI_fflush (fp : option FP) : M Z :=
  match fp with
  | None => on_files (fflush None)
  | Some fp => by_kind fp (fun s => on_files (fflush (Some s))) (fun s => on_sid s (FCGX_FFlush OS_Errno)) (mret EOF)
  end.

(** Whether the result is [fp]. *)
Definition FCGI_freopen (path mode : string) (fp : FP) : M bool :=
  by_kind fp
    (fun s => r ← on_files (freopen path mode s); mret match r with None => false | Some _ => true end)
    (fun s =>
       _ ← on_sid s (FCGX_FClose OS_Errno);
       file ← on_files (fopen path mode);
       _ ← set_file fp (mkFile file (match file with None => Some s | Some _ => None end));
       mret match file with None => false | Some _ => true end)
    (mret false).

(** ** Buffers and positions *)

Definition FCGI_setvbuf (fp : FP) (buf bufmode size : Z) : M Z :=
  f ← the_file fp; match stdio_stream f with Some s => on_files (setvbuf s buf bufmode size) | None => mret (-1) end.
Definition FCGI_setbuf (fp : FP) (buf : Z) : M unit :=
  f ← the_file fp; match stdio_stream f with Some s => on_files (setbuf s buf) | None => mret tt end.

(** What a file that cannot be positioned answers. *)
Definition positioned {A} (fp : FP) (std : FILE -> Obj FILES A) (none : A) : M A :=
  f ← the_file fp;
  match stdio_stream f with
  | Some s => on_files (std s)
  | None => _ ← on_files (OS_SetErrno ESPIPE); mret none
  end.

Definition FCGI_fseek (fp : FP) (offset whence : Z) : M Z := positioned fp (fun s => fseek s offset whence) (-1).
Definition FCGI_ftell (fp : FP) : M Z := positioned fp ftell (-1).
Definition FCGI_rewind (fp : FP) : M unit := positioned fp rewind tt.
(** The position is what [pos] points to. *)
Definition FCGI_fgetpos (fp : FP) (pos : fpos) : M (Z * fpos) := positioned fp fgetpos (-1, pos).
Definition FCGI_fsetpos (fp : FP) (pos : fpos) : M Z := positioned fp (fun s => fsetpos s pos) (-1).

(** ** Reading *)

Definition FCGI_fgetc (fp : FP) : M Z := by_kind fp (fun s => on_files (fgetc s)) (fun s => on_sid s (FCGX_GetChar fillBuff)) (mret EOF).
Definition FCGI_getchar : M Z := FCGI_fgetc FCGI_stdin.
Definition FCGI_ungetc (c : Z) (fp : FP) : M Z := by_kind fp (fun s => on_files (ungetc c s)) (fun s => on_sid s (FCGX_UnGetChar c)) (mret EOF).

Definition FCGI_fgets (size : Z) (fp : FP) : M (option bytes) :=
  by_kind fp (fun s => on_files (fgets size s)) (fun s => on_sid s (FCGX_GetLine fillBuff size)) (mret None).

(** The loop of [FCGI_gets]: the line so far; [fuel] bounds its length. *)
Fixpoint gets_loop (fuel : nat) (line : bytes) : M (option bytes) :=
  match fuel with
  | O => obj_lift (Err OutOfFuel)
  | S fuel =>
      c ← FCGI_getchar;
      if c =? 10 then mret (Some line)
      else if c =? EOF then mret match line with [] => None | _ => Some line end
      else gets_loop fuel (line ++ [u8 c])
  end.
Definition FCGI_gets (fuel : nat) : M (option bytes) := gets_loop fuel [].

(** The bytes that are read and the result. *)
Definition FCGI_fread (size nmemb : Z) (fp : FP) : M (bytes * Z) :=
  by_kind fp (fun s => on_files (fread size nmemb s))
    (fun s =>
       if u64 (size * nmemb) =? 0 then mret ([], 0)
       else
         b ← on_sid s (FCGX_GetStr junk fillBuff (i32 (u64 (size * nmemb))));
         mret (b, u64 (i32 (blen b)) / size))
    (mret ([], u64 EOF)).

(** ** Writing *)

Definition FCGI_fputc (c : Z) (fp : FP) : M Z := by_kind fp (fun s => on_files (fputc c s)) (fun s => on_sid s (FCGX_PutChar OS_Errno c)) (mret EOF).
Definition FCGI_putchar (c : Z) : M Z := FCGI_fputc c FCGI_stdout.
Definition FCGI_fputs (str : string) (fp : FP) : M Z := by_kind fp (fun s => on_files (fputs str s)) (fun s => on_sid s (FCGX_PutS OS_Errno str)) (mret EOF).

Definition FCGI_puts (str : string) : M Z :=
  by_kind FCGI_stdout
    (fun s => n ← on_files (fputs str s); if n <? 0 then mret n else on_files (fputc 10 s))
    (fun s => n ← on_sid s (FCGX_PutS OS_Errno str); if n <? 0 then mret n else on_sid s (FCGX_PutChar OS_Errno 10))
    (mret EOF).

(** With what the [%n] directives store. *)
Definition FCGI_fprintf (fp : FP) (format : string) (ap : list arg) : M (Z * list (Z * Z)) :=
  by_kind fp (fun s => on_files (vfprintf s format ap)) (fun s => on_sid s (FCGX_VFPrintF OS_Errno format ap)) (mret (0, [])).
Definition FCGI_vfprintf (fp : FP) (format : string) (ap : list arg) : M (Z * list (Z * Z)) :=
  by_kind fp (fun s => on_files (vfprintf s format ap)) (fun s => on_sid s (FCGX_VFPrintF OS_Errno format ap)) (mret (EOF, [])).
Definition FCGI_printf (format : string) (ap : list arg) : M (Z * list (Z * Z)) := FCGI_vfprintf FCGI_stdout format ap.
Definition FCGI_vprintf (format : string) (ap : list arg) : M (Z * list (Z * Z)) :=
  by_kind FCGI_stdout (fun s => on_files (vfprintf s format ap)) (fun s => on_sid s (FCGX_VFPrintF OS_Errno format ap)) (mret (EOF, [])).

(** [FCGX_PutStr] with an [int] for the length: a negative one is copied as a size. *)
Definition put_str (ptr : bytes) (n : Z) : F Z :=
  if n <? 0 then obj_lift (undef "memcpy of a negative length")
  else if blen ptr <? n then obj_lift (undef "read past the buffer")
  else FCGX_PutStr OS_Errno (take (Z.to_nat n) ptr).

Definition FCGI_fwrite (ptr : bytes) (size nmemb : Z) (fp : FP) : M Z :=
  by_kind fp (fun s => on_files (fwrite ptr size nmemb s))
    (fun s =>
       if u64 (size * nmemb) =? 0 then mret 0
       else
         n ← on_sid s (put_str ptr (i32 (u64 (size * nmemb))));
         mret (u64 n / size))
    (mret (u64 EOF)).

Definition FCGI_perror (str : string) : M unit :=
  _ ← FCGI_fputs str FCGI_stderr;
  _ ← FCGI_fputs ": " FCGI_stderr;
  errno ← obj_get (fun a => OS_Errno_ (files a));
  _ ← FCGI_fputs (strerror errno) FCGI_stderr;
  mret tt.

(** ** The state of a file *)

Definition FCGI_feof (fp : FP) : M Z := by_kind fp (fun s => on_files (feof s)) (fun s => on_sid s FCGX_HasSeenEOF) (mret (-1)).
Definition FCGI_ferror (fp : FP) : M Z := by_kind fp (fun s => on_files (ferror s)) (fun s => on_sid s FCGX_GetError) (mret (-1)).
Definition FCGI_clearerr (fp : FP) : M unit := by_kind fp (fun s => on_files (clearerr s)) (fun s => on_sid s FCGX_ClearError) (mret tt).
Definition FCGI_fileno (fp : FP) : M Z :=
  f ← the_file fp; match stdio_stream f with Some s => on_files (fileno s) | None => mret (-1) end.

(** ** A program

    What a client does with its standard streams: it reads, writes, sets its status and
    finishes. *)
Inductive in_op := Fgetc | Fgets (size : Z) | Gets | Fread (size nmemb : Z).
Inductive in_result := InChar (c : Z) | InLine (l : option bytes) | InBytes (b : bytes) (n : Z).
Inductive out_op := Fputc (c : Z) | Fputs (s : string) | Puts (s : string) | Printf (format : string) (ap : list arg) | Fwrite (b : bytes) (size nmemb : Z) | Fflush.

Definition run_in (fuel : nat) (op : in_op) : M in_result :=
  match op with
  | Fgetc => c ← FCGI_getchar; mret (InChar c)
  | Fgets size => l ← FCGI_fgets size FCGI_stdin; mret (InLine l)
  | Gets => l ← FCGI_gets fuel; mret (InLine l)
  | Fread size nmemb => '(b, n) ← FCGI_fread size nmemb FCGI_stdin; mret (InBytes b n)
  end.

(** Of what [fputs] returns the program sees whether it is an error. *)
Definition run_out (op : out_op) : M Z :=
  match op with
  | Fputc c => FCGI_putchar c
  | Fputs s => n ← FCGI_fputs s FCGI_stdout; mret (if n <? 0 then EOF else 0)
  | Puts s => FCGI_puts s
  | Printf format ap => '(n, _) ← FCGI_printf format ap; mret n
  | Fwrite b size nmemb => FCGI_fwrite b size nmemb FCGI_stdout
  | Fflush => FCGI_fflush (Some FCGI_stdout)
  end.

Fixpoint run_each {A B} (run : A -> M B) (ops : list A) : M (list B) :=
  match ops with [] => mret [] | op :: ops => b ← run op; bs ← run_each run ops; mret (b :: bs) end.

Definition program (fuel : nat) (ins : list in_op) (outs : list out_op) (status : Z) : M (Z + Z * option (list bytes) * list in_result * list Z) :=
  rc ← FCGI_Accept;
  match rc with
  | inl code => mret (inl code)
  | inr rc =>
      env ← obj_get environ;
      read ← run_each (run_in fuel) ins;
      wrote ← run_each run_out outs;
      _ ← FCGI_SetExitStatus status;
      _ ← FCGI_Finish;
      mret (inr (rc, env, read, wrote))
  end.
End Package.

(** ** What the program gets and writes *)

(** The line without its end, and what is after it. *)
Fixpoint gets_line (d : bytes) : bytes * bytes :=
  match d with
  | [] => ([], [])
  | c :: d => if c =? 10 then ([], d) else let '(l, d) := gets_line d in (c :: l, d)
  end.

Definition in_spec (op : in_op) (d : bytes) : in_result * bytes :=
  match op with
  | Fgetc => (InChar (hd EOF d), tail d)
  | Fgets size => let '(l, d') := take_line (Z.to_nat (size - 1)) d in (InLine (if bool_decide (d = []) then None else Some l), d')
  | Gets => let '(l, d') := gets_line d in (InLine (if bool_decide (d = []) then None else Some l), d')
  | Fread size nmemb => let b := take (Z.to_nat (size * nmemb)) d in (InBytes b (blen b / size), drop (Z.to_nat (size * nmemb)) d)
  end.

Fixpoint ins_spec (ops : list in_op) (d : bytes) : list in_result * bytes :=
  match ops with
  | [] => ([], d)
  | op :: ops => let '(r, d) := in_spec op d in let '(rs, d) := ins_spec ops d in (r :: rs, d)
  end.

(** The bytes that are written, and the result. *)
Definition out_spec {ft : FloatText} (op : out_op) : bytes * Z :=
  match op with
  | Fputc c => ([u8 c], u8 c)
  | Fputs s => (chars (c_str s), 0)
  | Puts s => (chars (c_str s) ++ [10], 10)
  | Printf format ap =>
      match printf_text (S (String.length (c_str format))) (c_str format) ap with Some t => (chars t, slen t) | None => ([], 0) end
  | Fwrite b size nmemb => (take (Z.to_nat (size * nmemb)) b, nmemb)
  | Fflush => ([], 0)
  end.

(** Calls the C standard defines, of sizes that are an [int]. *)
Definition in_ok (op : in_op) : Prop :=
  match op with Fgets size => 1 < size | Fread size nmemb => 0 < size /\ 0 <= nmemb /\ size * nmemb < 2 ^ 31 | _ => True end.
Definition out_ok {ft : FloatText} (op : out_op) : Prop :=
  match op with
  | Printf format ap => exists t, printf_text (S (String.length (c_str format))) (c_str format) ap = Some t /\ slen t < 2 ^ 31
  | Fwrite b size nmemb => 0 < size /\ 0 <= nmemb /\ size * nmemb < 2 ^ 31 /\ size * nmemb <= blen b
  | _ => True
  end.

(** The standard streams of the C library: the input has the bytes [pending], to the
    output, which takes everything, [content] was written. *)
Class StdioLaws {ft : FloatText} (io : Stdio) := {
  pending : FILES -> bytes;
  content : FILES -> bytes;
  fgetc_law s : exists s', fgetc stdin s = (Ok (hd EOF (pending s)), s') /\ pending s' = tail (pending s) /\ content s' = content s;
  fgets_law size s : 1 < size -> exists s', let '(l, d) := take_line (Z.to_nat (size - 1)) (pending s) in
    fgets size stdin s = (Ok (if bool_decide (pending s = []) then None else Some l), s') /\ pending s' = d /\ content s' = content s;
  fread_law size nmemb s : 0 < size -> 0 <= nmemb -> exists s', let b := take (Z.to_nat (size * nmemb)) (pending s) in
    fread size nmemb stdin s = (Ok (b, blen b / size), s') /\ pending s' = drop (Z.to_nat (size * nmemb)) (pending s) /\ content s' = content s;
  fputc_law c s : exists s', fputc c stdout s = (Ok (u8 c), s') /\ content s' = content s ++ [u8 c];
  fputs_law str s : exists n s', fputs str stdout s = (Ok n, s') /\ 0 <= n /\ content s' = content s ++ chars (c_str str);
  vfprintf_law format ap t s : printf_text (S (String.length (c_str format))) (c_str format) ap = Some t -> slen t < 2 ^ 31 ->
    exists s', vfprintf stdout format ap s = (Ok (slen t, []), s') /\ content s' = content s ++ chars t;
  fwrite_law b size nmemb s : 0 < size -> 0 <= nmemb -> size * nmemb <= blen b ->
    exists s', fwrite b size nmemb stdout s = (Ok nmemb, s') /\ content s' = content s ++ take (Z.to_nat (size * nmemb)) b;
  fflush_law s : exists s', fflush (Some stdout) s = (Ok 0, s') /\ content s' = content s
}.

(** ** Both ways *)
Section Program.
Context {ft : FloatText} {io : Stdio}.
Context (junk : Z -> Z) (OS_Errno : Z) (address : Z -> Z) (OS_LibInit : Z).

(** For any invariant of the bytes the program has still to get: the functions of
    standard input get what their specification says. *)
Section Input.
Context (R : bytes -> App -> Prop).
Context (Hbytes : forall d a, R d a -> Forall (fun c => 0 <= c < 256) d).
Context (Hfgetc : forall d a, R d a -> exists a', FCGI_getchar junk OS_Errno a = (Ok (hd EOF d), a') /\ R (tail d) a').
Context (Hfgets : forall size d a, 1 < size -> R d a -> exists a',
  FCGI_fgets junk OS_Errno size FCGI_stdin a = (Ok (if bool_decide (d = []) then None else Some (take_line (Z.to_nat (size - 1)) d).1), a')
  /\ R (take_line (Z.to_nat (size - 1)) d).2 a').
Context (Hfread : forall size nmemb d a, 0 < size -> 0 <= nmemb -> size * nmemb < 2 ^ 31 -> R d a -> exists a',
  let b := take (Z.to_nat (size * nmemb)) d in
  FCGI_fread junk OS_Errno size nmemb FCGI_stdin a = (Ok (b, blen b / size), a') /\ R (drop (Z.to_nat (size * nmemb)) d) a').

Lemma gets_loop_ok fuel line d a : (length d < fuel)%nat -> R d a ->
  exists a', gets_loop junk OS_Errno fuel line a = (Ok (if bool_decide (line ++ d = []) then None else Some (line ++ (gets_line d).1)), a') /\ R (gets_line d).2 a'.
Proof.
  revert line d a. induction fuel as [|fuel IH]; intros line d a Hf HR; [lia|]. cbn [gets_loop].
  destruct (Hfgetc d a HR) as (a1 & E1 & HR1). rewrite (obj_bind_val _ _ _ _ _ E1).
  destruct d as [|c d]; cbn [hd tail gets_line] in *.
  - change (EOF =? 10) with false. rewrite Z.eqb_refl. exists a1. cbn [fst snd]. rewrite app_nil_r. split; [destruct line; reflexivity|exact HR1].
  - pose proof (Forall_inv (Hbytes _ _ HR)) as Hc. cbn beta in Hc. rewrite (bool_decide_eq_false_2 (line ++ c :: d = [])) by (destruct line; discriminate).
    destruct (c =? 10); [exists a1; cbn [fst snd]; rewrite app_nil_r; auto|]. rewrite (proj2 (Z.eqb_neq c EOF)) by (unfold EOF; lia).
    rewrite (u8_small c) by lia. destruct (IH (line ++ [c]) d a1 ltac:(cbn in Hf; lia) HR1) as (a' & E' & HR').
    exists a'. rewrite E'. rewrite bool_decide_eq_false_2 by (destruct line; discriminate). destruct (gets_line d) as [l d']. cbn [fst snd] in *.
    rewrite <- app_assoc. auto.
Qed.

Lemma run_in_ok fuel op d a : in_ok op -> (length d < fuel)%nat -> R d a ->
  exists a', run_in junk OS_Errno fuel op a = (Ok (in_spec op d).1, a') /\ R (in_spec op d).2 a'.
Proof.
  intros Hop Hf HR. destruct op as [|size| |size nmemb]; cbn [run_in in_spec in_ok] in *.
  - destruct (Hfgetc d a HR) as (a' & E & HR'). exists a'. rewrite (obj_bind_val _ _ _ _ _ E). auto.
  - destruct (Hfgets size d a Hop HR) as (a' & E & HR'). exists a'. rewrite (obj_bind_val _ _ _ _ _ E). destruct (take_line _ d). auto.
  - destruct (gets_loop_ok fuel [] d a Hf HR) as (a' & E & HR'). exists a'. unfold FCGI_gets. rewrite (obj_bind_val _ _ _ _ _ E). destruct (gets_line d). auto.
  - destruct Hop as (H1 & H2 & H3). destruct (Hfread size nmemb d a H1 H2 H3 HR) as (a' & E & HR'). exists a'. rewrite (obj_bind_val _ _ _ _ _ E). auto.
Qed.

Lemma in_spec_shorter op d : (length (in_spec op d).2 <= length d)%nat.
Proof.
  destruct op as [|size| |size nmemb]; cbn [in_spec].
  - destruct d; cbn; lia.
  - generalize (Z.to_nat (size - 1)) as n. intros n. assert (H : (length (take_line n d).2 <= length d)%nat).
    { revert n. induction d as [|c d IH]; intros [|n]; cbn [take_line]; try (cbn; lia). destruct (c =? 10); [cbn; lia|]. specialize (IH n). destruct (take_line n d). cbn in *. lia. }
    destruct (take_line n d). exact H.
  - assert (H : (length (gets_line d).2 <= length d)%nat).
    { induction d as [|c d IH]; cbn [gets_line]; [cbn; lia|]. destruct (c =? 10); [cbn; lia|]. destruct (gets_line d). cbn in *. lia. }
    destruct (gets_line d). exact H.
  - cbn [snd]. rewrite length_drop. lia.
Qed.

Lemma run_ins_ok fuel ops d a : Forall in_ok ops -> (length d < fuel)%nat -> R d a ->
  exists a', run_each (run_in junk OS_Errno fuel) ops a = (Ok (ins_spec ops d).1, a') /\ R (ins_spec ops d).2 a'.
Proof.
  intros Hops. revert d a. induction Hops as [|op ops Hop Hops IH]; intros d a Hf HR; cbn [run_each ins_spec]; [exists a; auto|].
  destruct (run_in_ok fuel op d a Hop Hf HR) as (a1 & E1 & HR1). rewrite (obj_bind_val _ _ _ _ _ E1).
  pose proof (in_spec_shorter op d). destruct (IH (in_spec op d).2 a1 ltac:(lia) HR1) as (a' & E' & HR'). rewrite (obj_bind_val _ _ _ _ _ E').
  exists a'. destruct (in_spec op d) as [r d1]. cbn [fst snd] in *. destruct (ins_spec ops d1). auto.
Qed.
End Input.

(** For any invariant of the bytes that were written, if every call keeps it. *)
Lemma run_outs_ok (W : bytes -> App -> Prop) ops d a :
  (forall op d a, out_ok op -> W d a -> exists a', run_out OS_Errno op a = (Ok (out_spec op).2, a') /\ W (d ++ (out_spec op).1) a') ->
  Forall out_ok ops -> W d a ->
  exists a', run_each (run_out OS_Errno) ops a = (Ok ((fun op => (out_spec op).2) <$> ops), a') /\ W (d ++ mjoin ((fun op => (out_spec op).1) <$> ops)) a'.
Proof.
  intros Hrun Hops. revert d a. induction Hops as [|op ops Hop Hops IH]; intros d a HW; cbn [run_each fmap list_fmap mjoin list_join].
  - exists a. rewrite app_nil_r. auto.
  - destruct (Hrun op d a Hop HW) as (a1 & E1 & HW1). rewrite (obj_bind_val _ _ _ _ _ E1). destruct (IH _ a1 HW1) as (a' & E' & HW').
    rewrite (obj_bind_val _ _ _ _ _ E'). exists a'. rewrite app_assoc. auto.
Qed.

(** *** As a CGI program *)

Section CGI.
Context {laws : StdioLaws io}.
Context (h : list (option FCGI_FILE)) (env : option (list bytes)) (g : Server).

Definition cgi_app (s : FILES) : App :=
  mkApp true true (mkFile (Some stdin) None, mkFile (Some stdout) None, mkFile (Some stderr) None) h env true g s.

Lemma on_files_bind {A B} (m : Obj FILES A) (k : A -> Obj App B) s x s' : m s = (Ok x, s') -> (on_files m ≫= k) (cgi_app s) = k x (cgi_app s').
Proof. intros E. unfold mbind, Obj_bind, on_files. cbn [files cgi_app]. rewrite E. reflexivity. Qed.

Lemma on_files_val {A} (m : Obj FILES A) s x s' : m s = (Ok x, s') -> on_files m (cgi_app s) = (Ok x, cgi_app s').
Proof. intros E. unfold on_files. cbn [files cgi_app]. rewrite E. reflexivity. Qed.

Definition cgi_input (out : bytes) (d : bytes) (a : App) : Prop :=
  exists s, a = cgi_app s /\ pending s = d /\ content s = out /\ Forall (fun c => 0 <= c < 256) d.
Definition cgi_output (d : bytes) (a : App) : Prop := exists s, a = cgi_app s /\ content s = d.

Lemma take_line_bytes n d : Forall (fun c => 0 <= c < 256) d -> Forall (fun c => 0 <= c < 256) (take_line n d).2.
Proof.
  revert n. induction d as [|c d IH]; intros [|n] Hd; cbn [take_line]; try assumption. pose proof (Forall_inv_tail Hd) as Hd'.
  destruct (c =? 10); [exact Hd'|]. specialize (IH n Hd'). destruct (take_line n d). exact IH.
Qed.

Lemma cgi_ins fuel ops d out s : Forall in_ok ops -> (length d < fuel)%nat ->
  pending s = d -> content s = out -> Forall (fun c => 0 <= c < 256) d ->
  exists s', run_each (run_in junk OS_Errno fuel) ops (cgi_app s) = (Ok (ins_spec ops d).1, cgi_app s') /\ content s' = out.
Proof.
  intros Hops Hf Hp Hc Hd.
  destruct (run_ins_ok (cgi_input out)) with (fuel := fuel) (ops := ops) (d := d) (a := cgi_app s) as (a' & E & s' & -> & _ & Hc' & _); try assumption.
  - intros d' a' (s' & _ & _ & _ & H). exact H.
  - intros d' a' (s' & -> & <- & <- & Hd'). destruct (fgetc_law s') as (s2 & E & Hp2 & Hc2). exists (cgi_app s2).
    split; [exact (on_files_val _ _ _ _ E)|]. exists s2. split_and!; auto. destruct (pending s'); [constructor|apply (Forall_inv_tail Hd')].
  - intros size d' a' Hs (s' & -> & <- & <- & Hd'). destruct (fgets_law size s' Hs) as (s2 & E).
    pose proof (take_line_bytes (Z.to_nat (size - 1)) _ Hd') as Ht. destruct (take_line _ (pending s')) as [l r]. destruct E as (E & Hp2 & Hc2).
    exists (cgi_app s2). split; [exact (on_files_val _ _ _ _ E)|]. exists s2. auto.
  - intros size nmemb d' a' H1 H2 _ (s' & -> & <- & <- & Hd'). destruct (fread_law size nmemb s' H1 H2) as (s2 & E & Hp2 & Hc2).
    exists (cgi_app s2). split; [exact (on_files_val _ _ _ _ E)|]. exists s2. split_and!; auto. apply Forall_drop, Hd'.
  - exists s. auto.
  - exists s'. auto.
Qed.

Lemma cgi_out op d a : out_ok op -> cgi_output d a ->
  exists a', run_out OS_Errno op a = (Ok (out_spec op).2, a') /\ cgi_output (d ++ (out_spec op).1) a'.
Proof.
  intros Hop (s & -> & <-). destruct op as [c|str|str|format ap|b size nmemb|]; cbn [run_out out_spec out_ok fst snd] in *.
  - destruct (fputc_law c s) as (s' & E & Hc). exists (cgi_app s'). split; [exact (on_files_val _ _ _ _ E)|]. exists s'. auto.
  - destruct (fputs_law str s) as (n & s' & E & Hn & Hc). exists (cgi_app s').
    assert (E1 : FCGI_fputs OS_Errno str FCGI_stdout (cgi_app s) = (Ok n, cgi_app s')) by exact (on_files_val _ _ _ _ E).
    rewrite (obj_bind_val _ _ _ _ _ E1), (proj2 (Z.ltb_ge n 0)) by lia.
    split; [reflexivity|]. exists s'. auto.
  - destruct (fputs_law str s) as (n & s' & E & Hn & Hc). destruct (fputc_law 10 s') as (s2 & E2 & Hc2). exists (cgi_app s2). split.
    + transitivity ((n ← on_files (fputs str stdout); if n <? 0 then mret n else on_files (fputc 10 stdout)) (cgi_app s)); [reflexivity|].
      rewrite (on_files_bind _ _ _ _ _ E), (proj2 (Z.ltb_ge n 0)) by lia. exact (on_files_val _ _ _ _ E2).
    + exists s2. split; [reflexivity|]. rewrite Hc2, Hc, <- app_assoc. reflexivity.
  - destruct Hop as (t & Ht & Hl). rewrite Ht. cbn [fst snd]. destruct (vfprintf_law format ap t s Ht Hl) as (s' & E & Hc). exists (cgi_app s').
    assert (E1 : FCGI_printf OS_Errno format ap (cgi_app s) = (Ok (slen t, []), cgi_app s')) by exact (on_files_val _ _ _ _ E).
    rewrite (obj_bind_val _ _ _ _ _ E1). split; [reflexivity|]. exists s'. auto.
  - destruct Hop as (H1 & H2 & _ & H3). destruct (fwrite_law b size nmemb s H1 H2 H3) as (s' & E & Hc). exists (cgi_app s').
    split; [exact (on_files_val _ _ _ _ E)|]. exists s'. auto.
  - destruct (fflush_law s) as (s' & E & Hc). exists (cgi_app s'). split; [exact (on_files_val _ _ _ _ E)|]. exists s'. rewrite app_nil_r. auto.
Qed.
End CGI.

(** *** As a FastCGI server *)

Section FastCGI.
Context (Haddress : forall t, 0 <= address t < 2 ^ 63).
Context (h : list (option FCGI_FILE)) (env : option (list bytes)) (s0 : FILES).

Definition fcgi_app (g : Server) : App :=
  mkApp true false (mkFile None (Some In), mkFile None (Some Out), mkFile None (Some Error)) h env true g s0.

Lemma on_in_val {A} (m : F A) x li q s c o e p ev wt sv s' q' c' : m (mkWorld s q c) = (Ok x, mkWorld s' q' c') ->
  on_sid In m (fcgi_app (mkServer li q (Some s) o e p ev (Some c) wt sv)) = (Ok x, fcgi_app (mkServer li q' (Some s') o e p ev (Some c') wt sv)).
Proof. intros E. unfold on_sid, on_fcgx, on_in, on. cbn [fcgx fcgi_app in_ ipc req]. rewrite E. reflexivity. Qed.

Lemma on_out_val {A} (m : F A) x li q i s c e p ev wt sv s' q' c' : m (mkWorld s q c) = (Ok x, mkWorld s' q' c') ->
  on_sid Out m (fcgi_app (mkServer li q i (Some s) e p ev (Some c) wt sv)) = (Ok x, fcgi_app (mkServer li q' i (Some s') e p ev (Some c') wt sv)).
Proof. intros E. unfold on_sid, on_fcgx, on_out, on. cbn [fcgx fcgi_app out ipc req]. rewrite E. reflexivity. Qed.

Section Request.
Context (r : client_request) (q : Request) (tail_ before : bytes) (o e : option Stream) (p : option Params) (ev : list bytes) (wt sv : list Conn).
Context (Hcl : client_ok r) (Hq : requestId q = q_id r) (Hb : isBeginProcessed q = true).

Definition fcgi_input (d : bytes) (a : App) : Prop :=
  exists s c, a = fcgi_app (mkServer true q (Some s) o e p ev (Some c) wt sv)
    /\ input_stream r q tail_ before d (mkWorld s q c) /\ Forall (fun x => 0 <= x < 256) d.

Lemma small_nonneg d : Forall (fun x => 0 <= x < 256) d -> Forall (fun x => 0 <= x) d.
Proof. apply Forall_impl. lia. Qed.

(** A single read. *)
Lemma input_get op d s c : Forall (fun x => 0 <= x < 256) d -> input_stream r q tail_ before d (mkWorld s q c) ->
  exists s' c', run_get junk (FillBuffProc junk OS_Errno) op (mkWorld s q c) = (Ok (get_spec op d).1, mkWorld s' q c')
    /\ input_stream r q tail_ before (get_spec op d).2 (mkWorld s' q c').
Proof.
  intros Hd HR. destruct (input_gets junk OS_Errno r q tail_ before [op] d _ Hcl Hq Hb (small_nonneg d Hd) HR) as ([s' q' c'] & E & H').
  cbn [run_gets gets_spec] in E, H'. destruct (get_spec op d) as [x d'] eqn:Es. cbn [fst snd] in *.
  assert (q' = q) as -> by (destruct (input_fixed _ _ _ _ _ _ H') as (Eq & _); exact Eq).
  exists s', c'. split; [|exact H']. unfold mbind, Obj_bind, mret, Obj_ret in E.
  destruct (run_get junk _ op _) as [[y|f] w1]; [|discriminate E]. injection E as -> ->. reflexivity.
Qed.

Lemma fcgi_getchar d a : fcgi_input d a -> exists a', FCGI_getchar junk OS_Errno a = (Ok (hd EOF d), a') /\ fcgi_input (tail d) a'.
Proof.
  intros (s & c & -> & HR & Hd). destruct (input_get ReadChar d s c Hd HR) as (s' & c' & E & H'). cbn [run_get] in E.
  unfold mbind, Obj_bind, mret, Obj_ret in E. destruct (FCGX_GetChar _ _) as [[y|f] w1] eqn:Eg; [|discriminate E]. injection E as Ey ->.
  assert (Es : GotChar y = GotChar (hd EOF d) /\ (get_spec ReadChar d).2 = tail d) by (rewrite Ey; destruct d; split; reflexivity).
  destruct Es as [Es Et]. injection Es as ->. rewrite Et in H'.
  eexists. split; [exact (on_in_val _ _ _ _ _ _ _ _ _ _ _ _ _ _ _ Eg)|].
  exists s', c'. split_and!; [reflexivity|exact H'|]. destruct Hd; [constructor|assumption].
Qed.

Lemma fcgi_fgets size d a : 1 < size -> fcgi_input d a -> exists a',
  FCGI_fgets junk OS_Errno size FCGI_stdin a = (Ok (if bool_decide (d = []) then None else Some (take_line (Z.to_nat (size - 1)) d).1), a')
  /\ fcgi_input (take_line (Z.to_nat (size - 1)) d).2 a'.
Proof.
  intros Hs (s & c & -> & HR & Hd). destruct (input_get (ReadLine size) d s c Hd HR) as (s' & c' & E & H'). cbn [run_get get_spec] in E, H'.
  pose proof (take_line_bytes (Z.to_nat (size - 1)) d Hd) as Hd'. rewrite (proj2 (Z.ltb_lt 1 size) Hs) in E. cbn [andb] in E.
  unfold mbind, Obj_bind, mret, Obj_ret in E. destruct (FCGX_GetLine _ size _) as [[y|f] w1] eqn:Eg; [|discriminate E].
  destruct (take_line _ d) as [l d']. cbn [fst snd] in *. injection E as -> ->.
  eexists. split; [exact (on_in_val _ _ _ _ _ _ _ _ _ _ _ _ _ _ _ Eg)|]. exists s', c'. auto.
Qed.

Lemma fcgi_fread size nmemb d a : 0 < size -> 0 <= nmemb -> size * nmemb < 2 ^ 31 -> fcgi_input d a -> exists a',
  let b := take (Z.to_nat (size * nmemb)) d in
  FCGI_fread junk OS_Errno size nmemb FCGI_stdin a = (Ok (b, blen b / size), a') /\ fcgi_input (drop (Z.to_nat (size * nmemb)) d) a'.
Proof.
  intros H1 H2 H3 (s & c & -> & HR & Hd). cbv zeta. pose proof (Z.mul_nonneg_nonneg size nmemb ltac:(lia) H2) as H0.
  set (n := size * nmemb) in *. set (b := take (Z.to_nat n) d).
  set (a := fcgi_app _). assert (En : u64 n = n) by (apply u64_small; lia).
  assert (Ef : FCGI_fread junk OS_Errno size nmemb FCGI_stdin a
    = (if u64 n =? 0 then mret ([], 0) else b ← on_sid In (FCGX_GetStr junk (FillBuffProc junk OS_Errno) (i32 (u64 n))); mret (b, u64 (i32 (blen b)) / size)) a) by reflexivity.
  rewrite Ef, En. destruct (Z.eqb_spec n 0) as [E0|E0].
  { exists a. assert (b = []) as -> by (subst b; rewrite E0; reflexivity). rewrite blen_nil, Z.div_0_l by lia.
    split; [reflexivity|]. rewrite E0. exists s, c. auto. }
  destruct (input_get (ReadStr n) d s c Hd HR) as (s' & c' & E & H'). cbn [run_get get_spec fst snd] in E, H'. fold b in E.
  subst a. unfold mbind at 1, Obj_bind at 1, mret, Obj_ret in E. rewrite (i32_small n) by lia. destruct (FCGX_GetStr _ _ n _) as [[y|f] w1] eqn:Eg; [|discriminate E].
  injection E as -> ->. assert (Hbl : 0 <= blen b <= n) by (unfold b, blen; rewrite length_take; lia).
  eexists. rewrite (obj_bind_val _ _ _ _ _ (on_in_val _ _ _ _ _ _ _ _ _ _ _ _ _ _ _ Eg)), (i32_small (blen b)), (u64_small (blen b)) by lia.
  split; [reflexivity|]. exists s', c'. split_and!; [reflexivity|exact H'|]. apply Forall_drop, Hd.
Qed.

Lemma fcgi_ins fuel ops d s c : Forall in_ok ops -> (length d < fuel)%nat -> Forall (fun x => 0 <= x < 256) d ->
  input_stream r q tail_ before d (mkWorld s q c) ->
  exists s' c', run_each (run_in junk OS_Errno fuel) ops (fcgi_app (mkServer true q (Some s) o e p ev (Some c) wt sv))
      = (Ok (ins_spec ops d).1, fcgi_app (mkServer true q (Some s') o e p ev (Some c') wt sv))
    /\ input_stream r q tail_ before (ins_spec ops d).2 (mkWorld s' q c').
Proof.
  intros Hops Hf Hd HR.
  destruct (run_ins_ok fcgi_input) with (fuel := fuel) (ops := ops) (d := d) (a := fcgi_app (mkServer true q (Some s) o e p ev (Some c) wt sv))
    as (a' & E & s' & c' & -> & H' & _); try assumption.
  - intros d' a' (s' & c' & _ & _ & H). exact H.
  - exact fcgi_getchar.
  - exact fcgi_fgets.
  - exact fcgi_fread.
  - exists s, c. auto.
  - exists s', c'. auto.
Qed.

End Request.

(** ** Writing *)
Section Output.
Context (q : Request) (before : bytes) (inc : list (option bytes)) (i e : option Stream) (p : option Params) (ev : list bytes) (wt sv : list Conn).
Context (Hid : 0 <= requestId q < 2 ^ 16) (Hfit : float_fits).

Definition fcgi_output (d : bytes) (a : App) : Prop :=
  exists s c, a = fcgi_app (mkServer true q i (Some s) e p ev (Some c) wt sv) /\ writing FCGI_STDOUT (requestId q) q before inc d (mkWorld s q c).

(** A function of the stream that puts [b]. *)
Lemma fcgi_put {A} (m : F A) x b d a : fcgi_output d a ->
  (forall w, writing FCGI_STDOUT (requestId q) q before inc d w -> exists w', m w = (Ok x, w') /\ writing FCGI_STDOUT (requestId q) q before inc (d ++ b) w') ->
  exists a', on_sid Out m a = (Ok x, a') /\ fcgi_output (d ++ b) a'.
Proof.
  intros (s & c & -> & Hw) Hm. destruct (Hm _ Hw) as ([s' q' c'] & E & Hw').
  assert (q' = q) as -> by (destruct Hw' as (? & ? & ? & ? & _ & _ & Eq & _); exact Eq).
  eexists. split; [exact (on_out_val _ _ _ _ _ _ _ _ _ _ _ _ _ _ _ E)|]. exists s', c'. auto.
Qed.

Lemma FCGI_STDOUT_type : 0 <= FCGI_STDOUT < 256.
Proof. unfold FCGI_STDOUT. lia. Qed.

Lemma fcgi_puts str d a : fcgi_output d a ->
  exists a', on_sid Out (FCGX_PutS OS_Errno str) a = (Ok (blen (chars (c_str str))), a') /\ fcgi_output (d ++ chars (c_str str)) a'.
Proof. intros H. apply fcgi_put; [exact H|]. intros w. apply (writing_PutStr OS_Errno _ _ _ _ _ FCGI_STDOUT_type eq_refl Hid). Qed.

Lemma fcgi_putc c d a : fcgi_output d a -> exists a', on_sid Out (FCGX_PutChar OS_Errno c) a = (Ok (u8 c), a') /\ fcgi_output (d ++ [u8 c]) a'.
Proof. intros H. apply fcgi_put; [exact H|]. intros w. apply (writing_PutChar OS_Errno _ _ _ _ _ FCGI_STDOUT_type eq_refl Hid). Qed.

Lemma out_by_kind {A} std (m : SID -> Obj App A) none d a : fcgi_output d a -> by_kind FCGI_stdout std m none a = m Out a.
Proof. intros (s & c & -> & _). reflexivity. Qed.

Lemma fcgi_fwrite b size nmemb d a : 0 < size -> 0 <= nmemb -> size * nmemb < 2 ^ 31 -> size * nmemb <= blen b -> fcgi_output d a ->
  exists a', FCGI_fwrite OS_Errno b size nmemb FCGI_stdout a = (Ok nmemb, a') /\ fcgi_output (d ++ take (Z.to_nat (size * nmemb)) b) a'.
Proof.
  intros H1 H2 H3 H4 Hw. pose proof (Z.mul_nonneg_nonneg size nmemb ltac:(lia) H2) as H0.
  assert (Em : size * nmemb / size = nmemb) by (rewrite Z.mul_comm; apply Z.div_mul; lia).
  unfold FCGI_fwrite. rewrite (out_by_kind _ _ _ _ _ Hw), u64_small by lia. set (n := size * nmemb) in *.
  destruct (Z.eqb_spec n 0) as [E0|E0].
  { exists a. rewrite E0 in *. rewrite Z.div_0_l in Em by lia. subst nmemb. rewrite app_nil_r. auto. }
  rewrite i32_small by lia. destruct (fcgi_put (put_str OS_Errno b n) n (take (Z.to_nat n) b) d a Hw) as (a' & E & Hw').
  - intros w Hww. unfold put_str. rewrite (proj2 (Z.ltb_ge n 0)), (proj2 (Z.ltb_ge (blen b) n)) by lia.
    destruct (writing_PutStr OS_Errno _ _ _ _ _ FCGI_STDOUT_type eq_refl Hid d (take (Z.to_nat n) b) w Hww) as (w' & E & Hw').
    exists w'. rewrite E. split; [|exact Hw']. do 2 f_equal. unfold blen in *. rewrite length_take. lia.
  - rewrite (obj_bind_val _ _ _ _ _ E), u64_small, Em by lia. exists a'. auto.
Qed.

Lemma fcgi_out op d a : out_ok op -> fcgi_output d a ->
  exists a', run_out OS_Errno op a = (Ok (out_spec op).2, a') /\ fcgi_output (d ++ (out_spec op).1) a'.
Proof.
  intros Hop Hw. destruct op as [c|str|str|format ap|b size nmemb|]; cbn [run_out out_spec out_ok fst snd] in *.
  - unfold FCGI_putchar, FCGI_fputc. rewrite (out_by_kind _ _ _ _ _ Hw). apply fcgi_putc, Hw.
  - destruct (fcgi_puts str d a Hw) as (a' & E & Hw'). exists a'. split; [|exact Hw'].
    assert (E1 : FCGI_fputs OS_Errno str FCGI_stdout a = (Ok (blen (chars (c_str str))), a')) by (unfold FCGI_fputs; rewrite (out_by_kind _ _ _ _ _ Hw); exact E).
    rewrite (obj_bind_val _ _ _ _ _ E1), (proj2 (Z.ltb_ge _ 0)) by apply blen_nonneg. reflexivity.
  - destruct (fcgi_puts str d a Hw) as (a1 & E1 & Hw1). destruct (fcgi_putc 10 _ a1 Hw1) as (a' & E & Hw'). exists a'. rewrite app_assoc.
    split; [|exact Hw']. unfold FCGI_puts. rewrite (out_by_kind _ _ _ _ _ Hw), (obj_bind_val _ _ _ _ _ E1), (proj2 (Z.ltb_ge _ 0)) by apply blen_nonneg. exact E.
  - destruct Hop as (t & Ht & Hl). rewrite Ht. cbn [fst snd].
    destruct (fcgi_put (FCGX_VFPrintF OS_Errno format ap) (slen t, []) (chars t) d a Hw) as (a' & E & Hw').
    { intros w Hww. unfold FCGX_VFPrintF. refine (vf_loop_ok OS_Errno _ _ _ (c_str format) ap 0 0 d w _ t Hfit _ Ht Hww _ _); [|lia..].
      intros d' b' w' H'. exact (writing_PutStr OS_Errno _ _ _ _ _ FCGI_STDOUT_type eq_refl Hid d' b' w' H'). }
    exists a'. split; [|exact Hw'].
    assert (E1 : FCGI_printf OS_Errno format ap a = (Ok (slen t, []), a')) by (unfold FCGI_printf, FCGI_vfprintf; rewrite (out_by_kind _ _ _ _ _ Hw); exact E).
    rewrite (obj_bind_val _ _ _ _ _ E1). reflexivity.
  - destruct Hop as (H1 & H2 & H3 & H4). apply fcgi_fwrite; assumption.
  - unfold FCGI_fflush. rewrite (out_by_kind _ _ _ _ _ Hw). apply fcgi_put; [exact Hw|]. intros w. rewrite app_nil_r.
    apply (writing_FFlush OS_Errno _ _ _ _ _ FCGI_STDOUT_type eq_refl Hid).
Qed.
End Output.
End FastCGI.

(** ** Both *)

(** The program before the first call. *)
Definition start (h : list (option FCGI_FILE)) (env : option (list bytes)) (g : Server) (s : FILES) : App :=
  mkApp false false (mkFile None None, mkFile None None, mkFile None None) h env false g s.

(** What the program gets and writes, of the input [d]. *)
Definition results (ins : list in_op) (outs : list out_op) (d : bytes) (env : option (list bytes)) : Z * option (list bytes) * list in_result * list Z :=
  (0, env, (ins_spec ins d).1, (fun op => (out_spec op).2) <$> outs).
Definition output (outs : list out_op) : bytes := mjoin ((fun op => (out_spec op).1) <$> outs).

Lemma cgi_program {laws : StdioLaws io} fuel ins outs status h env g s :
  libInitialized g = false -> OS_LibInit <> -1 -> Forall in_ok ins -> Forall out_ok outs ->
  Forall (fun x => 0 <= x < 256) (pending s) -> (length (pending s) < fuel)%nat ->
  exists a', program junk OS_Errno address OS_LibInit 0 (-1) fuel ins outs status (start h env g s)
    = (Ok (inr (results ins outs (pending s) env)), a') /\ content (files a') = content s ++ output outs.
Proof.
  intros Hg Hi Hin Hout Hd Hf. unfold program.
  assert (E : exists g', FCGI_Accept junk OS_Errno address OS_LibInit 0 (-1) (start h env g s) = (Ok (inr 0), cgi_app h env g' s)).
  { destruct g as [li rq si so se pp ev co wa sv]. cbn in Hg. subst li. eexists. unfold FCGI_Accept, first_call, FCGX_IsCGI, FCGX_Init.
    cbn. rewrite (proj2 (Z.eqb_neq OS_LibInit (-1)) Hi). reflexivity. }
  destruct E as (g' & E). rewrite (obj_bind_val _ _ _ _ _ E). cbv iota beta. rewrite obj_get_bind. change (environ (cgi_app h env g' s)) with env.
  destruct (cgi_ins h env g' fuel ins (pending s) (content s) s Hin Hf eq_refl eq_refl Hd) as (s1 & E1 & Hc1).
  rewrite (obj_bind_val _ _ _ _ _ E1).
  destruct (run_outs_ok (cgi_output h env g') outs (content s) (cgi_app h env g' s1) (cgi_out h env g') Hout) as (a2 & E2 & s2 & -> & Hc2); [exists s1; auto|].
  rewrite (obj_bind_val _ _ _ _ _ E2). eexists. split; [reflexivity|]. exact Hc2.
Qed.

(** The streams of the answer before anything is put into them. *)
Definition fresh_writer (type size : Z) : option Stream := Some (NewStream junk (address type) size false type).

Lemma fcgi_accept h env q inc acc sent wt s r tail :
  (forall t, 0 <= address t < 2 ^ 63) -> OS_LibInit <> -1 -> client_ok r ->
  Forall (fun o => exists c, o = Some c /\ c <> []) inc -> flat inc = request_bytes r ++ tail -> Forall is_Some acc ->
  exists s1 c1 p, let q1 := serving (mkRequest 0 0 false false 0 0) r in
    FCGI_Accept junk OS_Errno address OS_LibInit 1 (-1) (start h env (mkServer false q None None None None [] None (mkConn inc acc sent :: wt) []) s)
    = (Ok (inr 0), fcgi_app h (Some (environment r)) s (mkServer true q1 (Some s1)
                     (fresh_writer FCGI_STDOUT 8192) (fresh_writer FCGI_STDERR 512) (Some p) (environment r) (Some c1) wt []))
    /\ input_stream r q1 tail (sent ++ replies (q_records r)) (stdin_bytes r) (mkWorld s1 q1 c1).
Proof.
  intros Had Hi Hcl Hc Hinc Ha. set (q0 := mkRequest 0 0 false false 0 0).
  destruct (FCGX_Accept_r_ok junk OS_Errno address Had q0 None None None [] inc acc sent wt [] r tail Hcl Hc Hinc Ha) as (s1 & c1 & p & E & HR).
  exists s1, c1, p. cbv zeta. split; [|exact HR]. unfold FCGI_Accept. rewrite obj_get_bind. cbn [acceptCalled start andb].
  assert (Ef : first_call OS_Errno OS_LibInit 1 (-1) (start h env (mkServer false q None None None None [] None (mkConn inc acc sent :: wt) []) s)
    = (Ok None, mkApp true false (mkFile None None, mkFile None None, mkFile None None) h env true (mkServer true q0 None None None None [] None (mkConn inc acc sent :: wt) []) s)).
  { unfold first_call, FCGX_IsCGI, FCGX_Init. cbn. rewrite (proj2 (Z.eqb_neq OS_LibInit (-1)) Hi). reflexivity. }
  rewrite (obj_bind_val _ _ _ _ _ Ef). rewrite obj_get_bind. cbn [isCGI].
  assert (Ea : FCGX_Accept junk OS_Errno address OS_LibInit (mkServer true q0 None None None None [] None (mkConn inc acc sent :: wt) []) = (Ok 0, _)) by exact E.
  unfold mbind at 1, Obj_bind at 1, on_fcgx at 1. cbn [fcgx]. rewrite Ea. reflexivity.
Qed.

(** The end of the request. *)
Lemma fcgi_finish h env q s2 so c3 p ev wt s r before ans inc data status :
  (forall t, 0 <= address t < 2 ^ 63) -> client_ok r -> requestId q = q_id r -> nWriters q = 2 -> FCGI_errno s2 = 0 ->
  writing FCGI_STDOUT (q_id r) q (before ++ ans) inc data (mkWorld so q c3) ->
  exists recs acc' a',
    let answer := encode_records (recs ++ final_records (q_id r) status) in
    let c' := mkConn (incoming c3) acc' (before ++ ans ++ answer) in
    (_ ← FCGI_SetExitStatus status; FCGI_Finish OS_Errno)
      (fcgi_app h env s (mkServer true q (Some s2) (Some so) (fresh_writer FCGI_STDERR 512) p ev (Some c3) wt [])) = (Ok tt, a')
    /\ (if keepConnection q then ipc (fcgx a') = Some c' else served (fcgx a') = [c'])
    /\ decode_records (S (length answer)) answer = Some (recs ++ final_records (q_id r) status)
    /\ Forall (data_record FCGI_STDOUT (q_id r)) recs /\ mjoin (r_content <$> recs) = data.
Proof.
  intros Had Hcl Hq Hn Herr Hw.
  destruct (answer_closed junk OS_Errno address Had r q before ans s2 _ _ so c3 status p ev wt [] Hcl Hq Hn Herr Hw) as (recs & acc' & E4 & Hrest).
  exists recs, acc'. eexists. cbv zeta. split; [|split; [|exact Hrest]].
  - assert (E5 : FCGI_SetExitStatus status (fcgi_app h env s (mkServer true q (Some s2) (Some so) (fresh_writer FCGI_STDERR 512) p ev (Some c3) wt []))
      = (Ok tt, fcgi_app h env s (mkServer true (q <| appStatus := status |>) (Some s2) (Some so) (fresh_writer FCGI_STDERR 512) p ev (Some c3) wt [])))
      by exact (on_in_val h env s (FCGX_SetExitStatus status) tt true q s2 c3 _ _ _ _ _ _ s2 (q <| appStatus := status |>) c3 eq_refl).
    rewrite (obj_bind_val _ _ _ _ _ E5).
    unfold FCGI_Finish. rewrite obj_get_bind. cbn [acceptCalled isCGI fcgi_app negb orb].
    unfold mbind at 1, Obj_bind at 1, on_fcgx at 1. cbn [fcgx fcgi_app]. unfold FCGX_Finish, fresh_writer. rewrite E4. reflexivity.
  - destruct (keepConnection q); reflexivity.
Qed.

Lemma fcgi_program fuel ins outs status h env q inc acc sent wt s r tail :
  (forall t, 0 <= address t < 2 ^ 63) -> OS_LibInit <> -1 -> Forall in_ok ins -> Forall out_ok outs -> float_fits ->
  client_ok r -> Forall (fun x => 0 <= x < 256) (stdin_bytes r) -> (length (stdin_bytes r) < fuel)%nat ->
  Forall (fun o => exists c, o = Some c /\ c <> []) inc -> flat inc = request_bytes r ++ tail -> Forall is_Some acc ->
  exists ans recs inc' acc' a',
    let answer := encode_records (recs ++ final_records (q_id r) status) in
    let c' := mkConn inc' acc' (sent ++ replies (q_records r) ++ ans ++ answer) in
    program junk OS_Errno address OS_LibInit 1 (-1) fuel ins outs status (start h env (mkServer false q None None None None [] None (mkConn inc acc sent :: wt) []) s)
    = (Ok (inr (results ins outs (stdin_bytes r) (Some (environment r)))), a')
    /\ (if negb (Z.land (q_flags r) FCGI_KEEP_CONN =? 0) then ipc (fcgx a') = Some c' else served (fcgx a') = [c'])
    /\ ans `prefix_of` replies (q_stdin r)
    /\ decode_records (S (length answer)) answer = Some (recs ++ final_records (q_id r) status)
    /\ Forall (data_record FCGI_STDOUT (q_id r)) recs /\ mjoin (r_content <$> recs) = output outs.
Proof.
  intros Had Hi Hin Hout Hfit Hcl Hd Hf Hc Hinc Ha. unfold program.
  destruct (fcgi_accept h env q inc acc sent wt s r tail Had Hi Hcl Hc Hinc Ha) as (s1 & c1 & p & E0 & HR). cbv zeta in *.
  rewrite (obj_bind_val _ _ _ _ _ E0). cbv iota beta. rewrite obj_get_bind. cbn [environ fcgi_app].
  set (env' := Some (environment r)). set (q1 := serving _ r) in *.
  destruct (fcgi_ins h env' s r q1 tail _ (fresh_writer FCGI_STDOUT 8192) (fresh_writer FCGI_STDERR 512) (Some p) (environment r) wt [] Hcl eq_refl eq_refl fuel ins _ s1 c1 Hin Hf Hd HR) as (s2 & c2 & E2 & HR2).
  rewrite (obj_bind_val _ _ _ _ _ E2).
  destruct (answer_opened junk address Had _ _ _ _ _ _ _ HR2) as (Err2 & ans & Hpre & Hw).
  assert (Hid : 0 <= requestId q1 < 2 ^ 16) by (change (0 <= q_id r < 2 ^ 16); destruct Hcl; lia).
  destruct (run_outs_ok (fcgi_output h env' s q1 ((sent ++ replies (q_records r)) ++ ans) (incoming c2) (Some s2) (fresh_writer FCGI_STDERR 512) (Some p) (environment r) wt []) outs []
    (fcgi_app h env' s (mkServer true q1 (Some s2) (fresh_writer FCGI_STDOUT 8192) (fresh_writer FCGI_STDERR 512) (Some p) (environment r) (Some c2) wt [])))
    as (a3 & E3 & so & c3 & -> & Hw3).
  { intros op d a. apply fcgi_out; assumption. }
  { exact Hout. }
  { eexists _, c2. split; [reflexivity|exact Hw]. }
  rewrite (obj_bind_val _ _ _ _ _ E3).
  destruct (fcgi_finish h env' q1 s2 so c3 (Some p) (environment r) wt s r _ ans _ _ status Had Hcl eq_refl eq_refl Err2 Hw3) as (recs & acc' & a' & E4 & Hsv & Hrest).
  exists ans, recs, (incoming c3), acc', a'. cbv zeta. rewrite <- !app_assoc in Hsv. split; [|split; [exact Hsv|split; [exact Hpre|exact Hrest]]].
  unfold mbind, Obj_bind in E4 |- *. destruct (FCGI_SetExitStatus status _) as [[[]|f] a4]; [|discriminate E4]. rewrite E4. reflexivity.
Qed.
End Program.


(** ** Streams in memory *)

Record Memory := mkMemory { m_in : bytes; m_out : bytes; m_errno : Z }.

Definition set_in (b : bytes) (m : Memory) : Memory := mkMemory b (m_out m) (m_errno m).
Definition append_out (b : bytes) (m : Memory) : Memory := mkMemory (m_in m) (m_out m ++ b) (m_errno m).

(** Standard input and output; there are no other files. *)
#[local] Instance memory_stdio {ft : FloatText} : Stdio := {|
  FILE := nat; FILES := Memory; fpos := Z;
  stdin := 0%nat; stdout := 1%nat; stderr := 2%nat;
  fopen _ _ := mret None; fdopen _ _ := mret None; popen _ _ := mret None; tmpfile := mret None; freopen _ _ _ := mret None;
  fclose _ := mret 0; pclose _ := mret (-1); fflush _ := mret 0; setvbuf _ _ _ _ := mret (-1); setbuf _ _ := mret tt;
  fseek _ _ _ := mret (-1); ftell _ := mret (-1); rewind _ := mret tt; fgetpos _ := mret (-1, 0); fsetpos _ _ := mret (-1);
  fgetc _ := d ← obj_get m_in; _ ← obj_set (set_in (tail d)); mret (hd EOF d);
  ungetc _ _ := mret EOF;
  fgets size _ := d ← obj_get m_in; let '(l, rest) := take_line (Z.to_nat (size - 1)) d in
    _ ← obj_set (set_in rest); mret (if bool_decide (d = []) then None else Some l);
  fread size nmemb _ := d ← obj_get m_in; let n := Z.to_nat (size * nmemb) in
    _ ← obj_set (set_in (drop n d)); mret (take n d, blen (take n d) / size);
  fputc c _ := _ ← obj_set (append_out [u8 c]); mret (u8 c);
  fputs str _ := _ ← obj_set (append_out (chars (c_str str))); mret 1;
  vfprintf _ format ap :=
    match printf_text (S (String.length (c_str format))) (c_str format) ap with
    | Some t => _ ← obj_set (append_out (chars t)); mret (slen t, [])
    | None => mret (-1, [])
    end;
  fwrite b size nmemb _ := _ ← obj_set (append_out (take (Z.to_nat (size * nmemb)) b)); mret nmemb;
  feof _ := mret 0; ferror _ := mret 0; clearerr _ := mret tt; fileno _ := mret (-1);
  strerror _ := "error"; OS_Errno_ := m_errno; OS_SetErrno e := obj_set (fun m => mkMemory (m_in m) (m_out m) e)
|}.

#[local] Instance memory_laws {ft : FloatText} : StdioLaws memory_stdio.
Proof.
  refine {| pending := m_in : FILES -> bytes; content := m_out : FILES -> bytes |}; intros; cbn -[take_line printf_text].
  - eexists. split; [reflexivity|]. split; reflexivity.
  - exists (set_in (take_line (Z.to_nat (size - 1)) (m_in s)).2 s). unfold mbind, Obj_bind, obj_get. destruct (take_line _ _). split; [reflexivity|]. split; reflexivity.
  - eexists. split; [reflexivity|]. split; reflexivity.
  - eexists. split; reflexivity.
  - eexists _, _. split; [reflexivity|]. split; [lia|reflexivity].
  - rewrite H. eexists. split; reflexivity.
  - eexists. split; reflexivity.
  - eexists. split; [reflexivity|]. reflexivity.
Defined.

(** ** An example *)

#[local] Existing Instance demo_text.

Definition demo_ins : list in_op := [Fgetc; Fread 2 1; Gets; Fgetc].
Definition demo_outs : list out_op := [Puts "Content-type: text/plain"; Fputc 10; Printf "%s %d" [AString (Some "tile"); AInt 7]; Fwrite (chars "okay") 2 1; Fflush; Fputs "!"].
Definition demo_init (b : bytes) : Server :=
  mkServer false (mkRequest 0 0 false false 0 0) None None None None [] None [mkConn (pieces 5 (length b) b) [Some 3; Some 0] []] [].

(** What [same_as_cgi] says, evaluated. *)
Definition demo_memory : FILES := mkMemory (stdin_bytes demo_client) [] 0.
Definition demo_start (g : Server) : App := start [] None g demo_memory.
Definition demo_run (OS_IsFcgi : Z) (g : Server) := program demo_junk 32 demo_address 0 OS_IsFcgi (-1) 100 demo_ins demo_outs 0 (demo_start g).

Example demo_both :
  let cgi := demo_run 0 (demo_init []) in
  let fcgi := demo_run 1 (demo_init (request_bytes demo_client)) in
  let read := [InChar 104; InBytes (chars "el") 1; InLine (Some (chars "lo")); InChar EOF] in
  let wrote := [10; 10; 6; 1; 0; 0] in
  cgi.1 = Ok (inr (0, None, read, wrote)) /\ fcgi.1 = Ok (inr (0, Some (environment demo_client), read, wrote))
  /\ m_out (files cgi.2) = chars "Content-type: text/plain" ++ [10; 10] ++ chars "tile 7ok!".
Proof. split_and!; vm_compute; reflexivity. Qed.


(** ** What differs *)

Abbreviation Accept f := (FCGI_Accept demo_junk 32 demo_address 0 f (-1)).

(** When [FCGI_Accept] fails, the streams of the last request have been freed, but the
    files still point to them: the next [FCGI_putchar] uses freed memory. *)
Lemma failed_accept_dangles :
  let a := (_ ← Accept 1; Accept 1) (demo_start (demo_init (request_bytes demo_client))) in
  a.1 = Ok (inr (-32)) /\ environ a.2 = Some (environment demo_client) /\ (FCGI_putchar 32 33 a.2).1 = undef "null stream".
Proof. split_and!; vm_compute; reflexivity. Qed.

(** The largest size is returned for a closed file, as if everything was read or written. *)
Lemma closed_counts junk OS_Errno b size nmemb fp a : lookup_file fp a = Some (mkFile None None) ->
  FCGI_fread junk OS_Errno size nmemb fp a = (Ok ([], 2 ^ 64 - 1), a) /\ FCGI_fwrite OS_Errno b size nmemb fp a = (Ok (2 ^ 64 - 1), a).
Proof.
  intros H. unfold FCGI_fread, FCGI_fwrite, by_kind. unfold the_file. split; rewrite (obj_deref_bind _ _ _ _ _ H); reflexivity.
Qed.

(** And when a write fails. *)
Lemma failed_write_counts :
  let g := demo_init (request_bytes demo_client) in
  let g := g <| waiting := [mkConn (pieces 5 (length (request_bytes demo_client)) (request_bytes demo_client)) [Some 16; None] []] |> in
  ((_ ← Accept 1; FCGI_fwrite 32 (new_bytes (fun _ => 65) 9000) 1 9000 FCGI_stdout) (demo_start g)).1 = Ok (2 ^ 64 - 1).
Proof. vm_compute. reflexivity. Qed.

(** The length of a transfer is an [int]: 2 GiB are not read, and writing them copies
    from and to memory that is not there. *)
Lemma large_transfer b :
  let a := Accept 1 (demo_start (demo_init (request_bytes demo_client))) in
  (FCGI_fread demo_junk 32 1 (2 ^ 31) FCGI_stdin a.2).1 = Ok ([], 0)
  /\ (FCGI_fwrite 32 b 1 (2 ^ 31) FCGI_stdout a.2).1 = undef "memcpy of a negative length".
Proof. split; vm_compute; reflexivity. Qed.

(** [FCGI_StartFilterData] does not look whether standard input was closed. *)
Lemma filter_after_close :
  ((_ ← Accept 1; _ ← FCGI_fclose 32 FCGI_stdin; FCGI_StartFilterData) (demo_start (demo_init (request_bytes demo_client)))).1 = undef "null stream".
Proof. vm_compute. reflexivity. Qed.

(** Printing to a closed file: nothing was written, or an error. *)
Lemma closed_prints OS_Errno format ap fp a : lookup_file fp a = Some (mkFile None None) ->
  FCGI_fprintf OS_Errno fp format ap a = (Ok (0, []), a) /\ FCGI_vfprintf OS_Errno fp format ap a = (Ok (EOF, []), a).
Proof. intros H. unfold FCGI_fprintf, FCGI_vfprintf, by_kind, the_file. split; rewrite (obj_deref_bind _ _ _ _ _ H); reflexivity. Qed.
