(* ===== verification/Session.v ===== *)
(** * Sessions (src/src/Task.h: Session; src/src/Writer.h)

    The structure every command works on, the monad its handlers are written
    in, and the writer of the response.  [M A] is a function from a session to
    a result and the session afterwards: what a handler changed before it threw
    an exception stays changed.  [Platform] gathers what is not code of the
    server: the operating system, the compiler and the libraries.

    A handler's log messages are left out, but not the log level: where a
    message reads something that may not exist, the handler has the test.  The
    pointer [session->image] is [None] when it is null; the other pointers of
    the structure always point to an object.  [out] is what was written. *)
From stdpp Require Import base gmap strings list numbers.
From Stdlib Require Import ZArith Lia Ascii.
From coqutil Require Import Datatypes.RecordSetters.
From S2P Require Import Prelude CString CFloat View RawTile Cache IIPImage Watermark TileManager Compressors IIPResponse.
Import TriangleBracketNotations.
#[local] Open Scope string_scope.
#[local] Open Scope list_scope.
#[local] Open Scope Z_scope.

(** ** What the server runs on *)

Class Platform := {
  VERSION : string;                           (** from [configure] *)
  getenv : string -> option string;
  filesystem : FileSystem;
  parse_date : string -> Z;                   (** [strptime] and [mktime] *)
  capacity : string -> Z; tileSize : Z;       (** [string::capacity], [sizeof(RawTile)] *)
  junk : Z -> Z;                              (** uninitialised memory *)
  rand : Z -> Z;
  cosf : CFloat.float -> CFloat.float; sinf : CFloat.float -> CFloat.float; logf : CFloat.float -> CFloat.float;
  powf : CFloat.float -> CFloat.float -> CFloat.float; pow : CFloat.float -> CFloat.float -> CFloat.float;
  have_jpeg2000 : bool; have_png : bool;      (** [HAVE_KAKADU] or [HAVE_OPENJPEG], [HAVE_PNG] *)
  codec_of : ImageFormat -> Codec;
  jpeg_lib : JPEGLib; png_lib : PNGLib;
  hash_begin : gmap string IIPImage -> option string   (** the first key of the hash map *)
}.

(** ** The structure *)

Record Session := mkSession {
  image : option IIPImage;
  jpeg : CompressorState;
  png : CompressorState;
  view : View;
  response : IIPResponse;
  watermark : Watermark;
  loglevel : Z;
  headers : gmap string string;
  codecOptions : gmap string Z;
  imageCache : gmap string IIPImage;
  tiles : TMState;                            (** the tile cache, and the calls of [rand] *)
  out : bytes
}.

(** ** The monad *)

Definition M (A : Type) : Type := Session -> res A * Session.

#[global] Instance M_ret : MRet M := fun A a s => (Ok a, s).
#[global] Instance M_bind : MBind M :=
  fun A B k m s => match m s with (Ok a, s') => k a s' | (Err f, s') => (Err f, s') end.

Definition lift {A} (r : res A) : M A := fun s => (r, s).
Definition gets {A} (f : Session -> A) : M A := fun s => (Ok (f s), s).
Definition modify (f : Session -> Session) : M unit := fun s => (Ok tt, f s).
Definition throwM {A} (e : exn) : M A := lift (throw e).
Definition undefM {A} (why : string) : M A := lift (undef why).
Definition when (b : bool) (m : M unit) : M unit := if b then m else mret tt.

(** [try { m } catch( .. ) { h }]: [h] gives the handler of an exception, if
    there is one. *)
Definition try_catch {A} (m : M A) (h : exn -> option (M A)) : M A := fun s =>
  match m s with
  | (Err (Thrown e), s') => match h e with Some k => k s' | None => (Err (Thrown e), s') end
  | r => r
  end.

(** A loop in a handler. *)
Fixpoint forM {A} (l : list A) (body : A -> M unit) : M unit :=
  match l with
  | [] => mret tt
  | a :: l' => _ ← body a; forM l' body
  end.

(** ** Access to the objects *)

(** [**session->image]: a null pointer is undefined. *)
Definition the_image : M IIPImage := fun s =>
  match image s with Some i => (Ok i, s) | None => (undef "null image", s) end.

Definition on_image (f : IIPImage -> res IIPImage) : M unit :=
  i ← the_image; i ← lift (f i); modify (fun s => s <| image := Some i |>).

Definition on_view (f : View -> View) : M unit := modify (fun s => s <| view := f (view s) |>).
Definition on_response (f : IIPResponse -> IIPResponse) : M unit := modify (fun s => s <| response := f (response s) |>).

(** [getMetadata] of the image, which may add an entry. *)
Definition metadata_of (field : string) : M string :=
  i ← the_image;
  let '(m, i) := getMetadata field i in
  _ ← modify (fun s => s <| image := Some i |>);
  mret m.

(** A call of the tile manager: the cache and the random numbers go through. *)
Definition on_tiles {A} (f : TMState -> res (A * TMState)) : M A := fun s =>
  match f (tiles s) with
  | Ok (a, t) => (Ok a, s <| tiles := t |>)
  | Err e => (Err e, s)
  end.

(** ** The writer (Writer.h: [FCGIWriter]) *)

(** Appends to [buffer]: the bytes must be there. *)
Definition cpy2buf (msg : bytes) (len : Z) : M unit :=
  if (0 <=? len) && (len <=? blen msg) then modify (fun s => s <| out := out s ++ take (Z.to_nat len) msg |>)
  else undefM "read outside the message".

Definition putStr (msg : bytes) (len : Z) : M unit := cpy2buf msg len.
Definition putS (msg : string) : M unit := cpy2buf (to_bytes (c_str msg)) (slen (c_str msg)).
Definition flush : M unit := mret tt.

(** [putStr( header.str().c_str(), header.tellp() )] of a [stringstream]. *)
Definition put_stream (s : string) : M unit := putStr (to_bytes s) (slen s).

(** ** Lemmas *)

Lemma M_bind_ok {A B} (m : M A) (k : A -> M B) s b s' :
  (m ≫= k) s = (Ok b, s') <-> exists a t, m s = (Ok a, t) /\ k a t = (Ok b, s').
Proof.
  unfold mbind, M_bind. destruct (m s) as [[a|f] t]; split.
  - eauto.
  - intros (a' & t' & [= <- <-] & H). exact H.
  - discriminate.
  - intros (? & ? & ? & _). discriminate.
Qed.

Lemma M_bind_val {A B} (m : M A) (k : A -> M B) s a t : m s = (Ok a, t) -> (m ≫= k) s = k a t.
Proof. unfold mbind, M_bind. intros ->. reflexivity. Qed.

Lemma M_bind_err {A B} (m : M A) (k : A -> M B) s f t : m s = (Err f, t) -> (m ≫= k) s = (Err f, t).
Proof. unfold mbind, M_bind. intros ->. reflexivity. Qed.

Lemma M_bind_ext {A B} (m : M A) (k k' : A -> M B) s : (forall a t, k a t = k' a t) -> (m ≫= k) s = (m ≫= k') s.
Proof. intros H. unfold mbind, M_bind. destruct (m s) as [[a|f] t]; [apply H|reflexivity]. Qed.

Lemma M_ret_bind {A B} (a : A) (k : A -> M B) s : (mret a ≫= k) s = k a s.
Proof. reflexivity. Qed.

Lemma lift_bind {A B} (r : res A) (k : A -> M B) s :
  (lift r ≫= k) s = match r with Ok a => k a s | Err f => (Err f, s) end.
Proof. reflexivity. Qed.

Lemma gets_bind {A B} (f : Session -> A) (k : A -> M B) s : (gets f ≫= k) s = k (f s) s.
Proof. reflexivity. Qed.

Lemma modify_bind {B} (f : Session -> Session) (k : unit -> M B) s : (modify f ≫= k) s = k tt (f s).
Proof. reflexivity. Qed.

(** *** Invariants of handlers *)

(** A relation between the session before and after, however the handler ends. *)
Definition keeps {A} (R : Session -> Session -> Prop) (m : M A) : Prop := forall s, R s (m s).2.

Section Keeps.
Context (R : Session -> Session -> Prop) `{!Reflexive R, !Transitive R}.

Lemma keeps_bind {A B} (m : M A) (k : A -> M B) : keeps R m -> (forall a, keeps R (k a)) -> keeps R (m ≫= k).
Proof.
  intros Hm Hk s. unfold mbind, M_bind. specialize (Hm s). destruct (m s) as [[a|f] t]; [|exact Hm].
  etransitivity; [exact Hm|]. apply Hk.
Qed.

Lemma keeps_ret {A} (a : A) : keeps R (mret a).
Proof. intros s. change (R s s). reflexivity. Qed.

Lemma keeps_lift {A} (r : res A) : keeps R (lift r).
Proof. intros s. change (R s s). reflexivity. Qed.

Lemma keeps_gets {A} (f : Session -> A) : keeps R (gets f).
Proof. intros s. change (R s s). reflexivity. Qed.

Lemma keeps_modify (f : Session -> Session) : (forall s, R s (f s)) -> keeps R (modify f).
Proof. intros H s. apply H. Qed.

Lemma keeps_image : keeps R the_image.
Proof. intros s. unfold the_image. destruct (image s); change (R s s); reflexivity. Qed.

Lemma keeps_when b m : keeps R m -> keeps R (when b m).
Proof. intros H. destruct b; [exact H|apply keeps_ret]. Qed.

Lemma keeps_forM {A} (l : list A) body : (forall a, keeps R (body a)) -> keeps R (forM l body).
Proof.
  intros H. induction l as [|a l IH]; [apply keeps_ret|]. cbn [forM]. apply keeps_bind; [apply H|]. intros _. exact IH.
Qed.

Lemma keeps_try {A} (m : M A) h : keeps R m -> (forall e k, h e = Some k -> keeps R k) -> keeps R (try_catch m h).
Proof.
  intros Hm Hh s. unfold try_catch. specialize (Hm s). destruct (m s) as [[a|[e|w|]] t]; try exact Hm.
  destruct (h e) as [k|] eqn:E; [|exact Hm]. etransitivity; [exact Hm|]. apply (Hh e k E).
Qed.

Lemma keeps_put msg len : (forall s b, R s (s <| out := out s ++ b |>)) -> keeps R (cpy2buf msg len).
Proof.
  intros H s. unfold cpy2buf. destruct (_ && _); [apply H|]. change (R s s). reflexivity.
Qed.

Lemma keeps_tiles {A} (f : TMState -> res (A * TMState)) : (forall s t, R s (s <| tiles := t |>)) -> keeps R (on_tiles f).
Proof.
  intros H s. unfold on_tiles. destruct (f (tiles s)) as [[a t]|e]; [apply H|change (R s s); reflexivity].
Qed.
End Keeps.

Create HintDb keeps discriminated.
#[export] Hint Resolve keeps_bind keeps_ret keeps_lift keeps_gets keeps_modify keeps_image keeps_when keeps_forM keeps_put keeps_tiles : keeps.
