(* ===== verification/Demo.v ===== *)
(** * A small platform

    A concrete instance of the interfaces, on which the theorems about handlers
    are applied: one TIFF file, the 5 x 3 image of [Region] in 2 x 2 tiles, and
    encoders that copy their input between two marks. *)
From stdpp Require Import base gmap strings list numbers.
From Stdlib Require Import ZArith Lia Ascii.
From coqutil Require Import Datatypes.RecordSetters.
From S2P Require Import Prelude CString CFloat RawTile Cache View IIPImage Watermark TileManager Region Compressors IIPResponse Session.
Import TriangleBracketNotations.
#[local] Open Scope string_scope.
#[local] Open Scope list_scope.
#[local] Open Scope Z_scope.

(** ["II*"] and six more bytes. *)
Definition tiff_head : list Z := [0x49; 0x49; 0x2A; 0x00; 8; 0; 0; 0; 12; 0].

Definition demo_files : FileSystem := {|
  fs_stat := fun p => if bool_decide (p = "demo.tif") then Some (true, 7) else None;
  fs_head := fun p => if bool_decide (p = "demo.tif") then Some tiff_head else None;
  fs_glob := fun _ => None
|}.

(** Opening fills in what is known of [demo_image]. *)
Definition demo_open (i : IIPImage) : IIPImage :=
  i <| image_widths := [5] |> <| image_heights := [3] |> <| tile_width := 2 |> <| tile_height := 2 |>
    <| numResolutions := 1 |> <| IIPImage.bpc := 8 |> <| IIPImage.channels := 1 |>
    <| IIPImage.min := [FZero false] |> <| IIPImage.max := [of_Z b32 255] |> <| IIPImage.colourspace := GREYSCALE |>
    <| dpi_x := of_Z b32 72 |> <| dpi_y := of_Z b32 72 |> <| dpi_units := 1 |>.

Definition file_codec : Codec := {|
  codec_regionDecoding := false; codec_description := "demo";
  codec_openImage := fun i => Ok (demo_open i); codec_loadImageInfo := fun i _ _ => Ok (demo_open i);
  codec_getTile := fun _ h v r _ n => Ok (demo_decode h v r n);
  codec_getRegion := fun _ _ _ _ _ _ _ _ _ => undef "no region decoding"
|}.

Definition demo_jpeg : JPEGLib := {|
  jpeg_state := unit;
  jpeg_start := fun _ _ _ _ _ _ _ => Ok ([0xFF; 0xD8], tt);
  jpeg_marker := fun code d => Ok (0xFF :: code :: d);
  jpeg_write_scanline := fun row st => Ok (row, st);
  jpeg_finish := fun _ => Ok [0xFF; 0xD9]
|}.

Definition demo_png : PNGLib := {|
  png_state := unit;
  png_start := fun _ => Ok ([[0x89; 0x50; 0x4E; 0x47]], tt);
  png_set_swap := fun st => st;
  png_write_row := fun row st => Ok ([row], st);
  png_write_end := fun _ => Ok [[0x49; 0x45; 0x4E; 0x44]]
|}.

#[global] Instance demo_platform : Platform := {|
  VERSION := "1.2"; getenv := fun _ => None; filesystem := demo_files; parse_date := fun _ => 5;
  capacity := fun s => 15; tileSize := 100; junk := fun _ => 0; rand := fun _ => 0;
  cosf := fun x => x; sinf := fun x => x; logf := fun x => x; powf := fun x _ => x; pow := fun x _ => x;
  have_jpeg2000 := false; have_png := true; codec_of := fun _ => file_codec;
  jpeg_lib := demo_jpeg; png_lib := demo_png;
  hash_begin := fun c => fst <$> head (map_to_list c)
|}.

(** A session at the start of a request. *)
Definition demo_session : Session :=
  mkSession None (new_JPEGCompressor 75) (new_PNGCompressor 1) (setMaxSize 5000 new_View)
    (setCacheControl "max-age=86400" (new_IIPResponse "1.2")) (new_Watermark "" f1 f1) 1 ∅ ∅ ∅
    (mkTMState (empty_cache 10000000) 0) [].

Lemma demo_hash : forall c : gmap string IIPImage, c <> ∅ -> exists k, hash_begin c = Some k /\ is_Some (c !! k).
Proof.
  intros c Hc. cbn. destruct (map_to_list c) as [|[k v] l] eqn:E.
  - apply map_to_list_empty_iff in E. contradiction.
  - exists k. split; [reflexivity|]. exists v. apply elem_of_map_to_list. rewrite E. set_solver.
Qed.
