(* ===== verification/Task.v ===== *)
(** * Commands (src/src/Task.h, Task.cc)

    The factory of commands, and the handlers that set a parameter of the
    request.  The handlers that answer with an image or a text have files of
    their own.  A handler is a computation in the monad of [Session]; a message
    to the log is left out unless its arguments may be undefined. *)
From stdpp Require Import base gmap strings list numbers.
From Stdlib Require Import ZArith Lia Ascii.
From coqutil Require Import Datatypes.RecordSetters.
From S2P Require Import Prelude CString CFloat Tokenizer RawTile IIPImage View IIPResponse Compressors TileManager Session.
Import TriangleBracketNotations.
#[local] Open Scope string_scope.
#[local] Open Scope list_scope.
#[local] Open Scope Z_scope.

(** The classes derived from [Task]. *)
Inductive Task :=
| OBJ | FIF | QLT | SDS | MINMAX | CNT | GAM | WID | HEI | RGN | ROT | TIL | PTL | JTL | JTLS | ICC | CVT
| SHD | CMP | INV | Zoomify | SPECTRA | PFL | LYR | DeepZoom | DeepZoomExt | CTW | COL | IIIF.

Definition factory (t : string) : option Task :=
  match tolower t with
  | "obj" => Some OBJ
  | "fif" => Some FIF
  | "qlt" => Some QLT
  | "sds" => Some SDS
  | "minmax" => Some MINMAX
  | "cnt" => Some CNT
  | "gam" => Some GAM
  | "wid" => Some WID
  | "hei" => Some HEI
  | "rgn" => Some RGN
  | "rot" => Some ROT
  | "til" => Some TIL
  | "ptl" => Some PTL
  | "jtl" => Some JTL
  | "jtls" => Some JTLS
  | "icc" => Some ICC
  | "cvt" => Some CVT
  | "shd" => Some SHD
  | "cmp" => Some CMP
  | "inv" => Some INV
  | "zoomify" => Some Zoomify
  | "spectra" => Some SPECTRA
  | "pfl" => Some PFL
  | "lyr" => Some LYR
  | "deepzoom" => Some DeepZoom
  | "deepzoomext" => Some DeepZoomExt
  | "ctw" => Some CTW
  | "col" => Some COL
  | "iiif" => Some IIIF
  | _ => None
  end.

Definition checkImage (argument : string) : M unit :=
  i ← gets image;
  match i with
  | None => _ ← on_response (setError "1 3" argument); throwM (ExnString "image not set")
  | Some _ => mret tt
  end.

(** [int delimitter = argument.find( d )], what is before it and what follows:
    the whole argument twice when there is none. *)
Definition cut_at (d argument : string) : res (string * string) :=
  let delimitter := i32 (find d argument) in
  tmp ← substr argument 0 (u64 delimitter);
  rest ← substr argument (u64 (i32 (delimitter + 1))) (u64 (slen argument));
  Ok (tmp, rest).

Definition QLT_run (argument : string) : M unit :=
  if negb (slen argument =? 0) then
    let factor := atoi argument in
    modify (fun s => s <| jpeg := jpeg_setQuality factor (jpeg s) |> <| png := png_setQuality factor (png s) |>)
  else mret tt.

Definition SDS_run (argument : string) : M unit :=
  '(tmp, arg2) ← lift (cut_at "," argument);
  _ ← on_view (fun v => v <| xangle := atoi tmp |>);
  '(tmp, _) ← lift (cut_at "," arg2);
  on_view (fun v => v <| yangle := atoi tmp |>).

Definition MINMAX_run (argument : string) : M unit :=
  '(tmp, arg2) ← lift (cut_at ":" argument);
  let nchan := i32 (atoi tmp - 1) in
  i ← the_image;
  if (nchan <? 0) || (i32 (getNumChannels i) <? nchan) then mret tt
  else
    '(tmp, arg3) ← lift (cut_at "," arg2);
    _ ← on_image (fun i => m ← wr (IIPImage.min i) nchan (atof32 tmp); Ok (i <| IIPImage.min := m |>));
    '(tmp, _) ← lift (cut_at "," arg3);
    on_image (fun i => m ← wr (IIPImage.max i) nchan (atof32 tmp); Ok (i <| IIPImage.max := m |>)).

Definition minus_one : CFloat.float := of_Z b32 (-1).

Definition CNT_run (argument : string) : M unit :=
  let arg := tolower argument in
  if bool_decide (arg = "eq") || bool_decide (arg = "equalization") then on_view (fun v => v <| equalization := true |>)
  else if bool_decide (arg = "st") || bool_decide (arg = "stretch") then on_view (fun v => v <| contrast := minus_one |>)
  else on_view (fun v => v <| contrast := atof32 argument |>).

Definition GAM_run (argument : string) : M unit :=
  let arg := tolower argument in
  if bool_decide (arg = "log") || bool_decide (arg = "logarithm") then on_view (fun v => v <| gamma := minus_one |>)
  else on_view (fun v => v <| gamma := atof32 argument |>).

Definition WID_run (argument : string) : M unit := on_view (setRequestWidth (atoi argument)).
Definition HEI_run (argument : string) : M unit := on_view (setRequestHeight (atoi argument)).

(** The loop that reads at most [k] values. *)
Definition read_values (k : nat) (argument : string) : res (list string) := fst <$> take_tokens k (mkTokenizer argument ",").

(** The message at level 3 that prints an array with some elements unset. *)
Definition log_values (set n : nat) : M unit :=
  l ← gets loglevel;
  if (3 <=? l) && (set <? n)%nat then undefM "uninitialised value in a message" else mret tt.

Definition RGN_run (argument : string) : M unit :=
  values ← lift (read_values 4 argument);
  let region := atof32 <$> values in
  _ ← match region with
      | [x; y; w; h] =>
          when (fgt w (FZero false) && fgt h (FZero false))
            (_ ← on_view (setViewLeft x);
             _ ← on_view (setViewTop y);
             _ ← on_view (setViewWidth w);
             on_view (setViewHeight h))
      | _ => mret tt
      end;
  log_values (length region) 4.

Definition ROT_run (argument : string) : M unit :=
  first ← lift (substr argument 0 1);
  rotationString ← (if bool_decide (first = "!") then
                      _ ← on_view (fun v => v <| flip := 1 |>);
                      lift (erase argument 0 1)
                    else mret argument);
  let rotation := atof32 rotationString in
  f ← gets (fun s => flip (view s));
  if (f =? 1) && feq rotation (of_Z b32 180) then on_view (fun v => v <| flip := 2 |>)
  else on_view (setRotation rotation).

Definition SHD_run (argument : string) : M unit :=
  values ← lift (read_values 2 argument);
  let values := atoi <$> values in
  _ ← match values with
      | [h; v'] => on_view (fun v => v <| shaded := true |> <| shade := <[0%nat := h]> (<[1%nat := v']> (shade v)) |>)
      | _ => mret tt
      end;
  log_values (length values) 2.

Definition CMP_run (argument : string) : M unit :=
  let ctype := tolower argument in
  _ ← on_view (fun v => v <| cmapped := true |>);
  let set c := on_view (fun v => v <| cmap := c |>) in
  if bool_decide (ctype = "hot") then set HOT
  else if bool_decide (ctype = "cold") then set COLD
  else if bool_decide (ctype = "jet") then set JET
  else if bool_decide (ctype = "blue") then set BLUE
  else if bool_decide (ctype = "green") then set GREEN
  else if bool_decide (ctype = "red") then set RED
  else on_view (fun v => v <| cmapped := false |>).

Definition INV_run (argument : string) : M unit := on_view (fun v => v <| inverted := true |>).

Definition LYR_run (argument : string) : M unit :=
  when (negb (slen argument =? 0)) (on_view (setLayers (atoi argument))).

(** The message that prints the matrix reads the first row's width of every row. *)
Definition log_matrix : M unit :=
  l ← gets loglevel;
  m ← gets (fun s => ctw (view s));
  if 3 <=? l then
    row ← lift (rd m 0);
    lift (foldM (fun r _ => if (length r <? length row)%nat then undef "read past a row" else Ok tt) m tt)
  else mret tt.

(** One row of the matrix. *)
Definition read_row (r : string) : res (list CFloat.float) := fmap (FMap := list_fmap) atof32 <$> tokens r ",".

Definition CTW_run (argument : string) : M unit :=
  let pos1 := i32 (find "[" argument) in
  let pos2 := i32 (find "]" argument) in
  line ← lift (substr argument (u64 (i32 (pos1 + 1))) (u64 (i32 (pos2 - pos1 - 1))));
  rows ← lift (tokens line ";");
  rows ← lift (mapM read_row rows);
  _ ← on_view (fun v => v <| ctw := ctw v ++ rows |>);
  log_matrix.

Definition COL_run (argument : string) : M unit :=
  let ctype := tolower argument in
  if bool_decide (ctype = "grey") || bool_decide (ctype = "gray") then on_view (fun v => v <| colourspace := GREYSCALE |>)
  else if bool_decide (ctype = "binary") then on_view (fun v => v <| colourspace := BINARY |>)
  else mret tt.

(** ICC.cc without LCMS. *)
Definition ICC_run (argument : string) : M unit := mret tt.

(** The commands that only set a parameter, with their handlers. *)
Definition parameter_run (c : Task) : option (string -> M unit) :=
  match c with
  | QLT => Some QLT_run
  | SDS => Some SDS_run
  | CNT => Some CNT_run
  | GAM => Some GAM_run
  | WID => Some WID_run
  | HEI => Some HEI_run
  | RGN => Some RGN_run
  | ROT => Some ROT_run
  | SHD => Some SHD_run
  | CMP => Some CMP_run
  | INV => Some INV_run
  | LYR => Some LYR_run
  | CTW => Some CTW_run
  | COL => Some COL_run
  | ICC => Some ICC_run
  | _ => None
  end.

(** ** Lemmas *)

Lemma sfind_char c a b : smem c a = false -> sfind (String c "") (a +:+ String c b) = Some (String.length a).
Proof.
  induction a as [|x a IH]; intros H.
  - rewrite snil_app, sfind_char_cons, Ascii.eqb_refl. reflexivity.
  - cbn [smem] in H. apply orb_false_elim in H as [H1 H2]. rewrite scons_app, sfind_char_cons.
    assert (Ascii.eqb x c = false) as -> by (rewrite Ascii.eqb_sym; exact H1).
    rewrite IH by exact H2. reflexivity.
Qed.

(** An argument made of two parts is cut between them. *)
Lemma cut_at_app c a b :
  smem c a = false -> slen a + slen b + 1 < 2 ^ 31 -> cut_at (String c "") (a +:+ String c b) = Ok (a, b).
Proof.
  intros Ha Hl. pose proof (slen_nonneg a). pose proof (slen_nonneg b).
  unfold cut_at, find. rewrite sfind_char by exact Ha. cbn [pos_of]. fold (slen a).
  assert (L : slen (a +:+ String c b) = slen a + slen b + 1) by (rewrite slen_app, slen_cons; lia).
  rewrite (i32_small (slen a)) by lia. rewrite (i32_small (slen a + 1)) by lia. rewrite !u64_small by lia.
  rewrite !substr_ok by lia. rewrite !bind_ret, !Z.min_l by lia. do 2 f_equal; [apply stake_slen|].
  assert (D : sdrop (Z.to_nat (slen a + 1)) (a +:+ String c b) = b).
  { replace (Z.to_nat (slen a + 1)) with (String.length a + 1)%nat by (unfold slen; lia).
    rewrite <- sdrop_sdrop, sdrop_app_exact. cbn. apply sdrop_0. }
  rewrite D. apply stake_all. unfold slen in *. lia.
Qed.

Lemma find_range d s : slen s < 2 ^ 31 -> - 1 <= i32 (find d s) <= slen s.
Proof.
  intros H. unfold find. destruct (sfind d s) as [i|] eqn:E; cbn [pos_of].
  - apply sfind_Some in E as [_ E]. rewrite i32_small; unfold slen in *; lia.
  - change (i32 npos) with (-1). pose proof (slen_nonneg s). lia.
Qed.

Lemma find_char_range c s : slen s < 2 ^ 31 -> - 1 <= i32 (find (String c "") s) < slen s \/ s = "" /\ i32 (find (String c "") s) = -1.
Proof.
  intros H. pose proof (find_range (String c "") s H) as R. unfold find in *.
  destruct (sfind (String c "") s) as [i|] eqn:E; cbn [pos_of] in *.
  - apply sfind_Some in E as [_ E]. cbn [String.length] in E. rewrite i32_small in *; unfold slen in *; lia.
  - change (i32 npos) with (-1) in *. destruct s; [auto|]. rewrite slen_cons in *. pose proof (slen_nonneg s). lia.
Qed.

Lemma substr_length s p n x : substr s p n = Ok x -> slen x <= slen s.
Proof.
  unfold substr. destruct (_ <? _); [discriminate|]. intros [= <-].
  unfold slen. rewrite length_stake, length_sdrop. lia.
Qed.

Lemma cut_at_total c s : slen s < 2 ^ 31 -> exists a b, cut_at (String c "") s = Ok (a, b) /\ slen b <= slen s.
Proof.
  intros H. unfold cut_at.
  assert (R : - 1 <= i32 (find (String c "") s) < slen s \/ i32 (find (String c "") s) = -1).
  { destruct (find_char_range c s H) as [R|[_ R]]; [left; exact R|right; exact R]. }
  set (p := i32 (find (String c "") s)) in *. pose proof (slen_nonneg s).
  rewrite (i32_small (p + 1)) by lia. rewrite (u64_small (p + 1)) by lia.
  rewrite (substr_ok s 0), bind_ret by lia.
  destruct (substr s (p + 1) (u64 (slen s))) as [b|f] eqn:E.
  - eexists _, b. split; [reflexivity|]. eapply substr_length, E.
  - rewrite substr_ok in E by lia. discriminate.
Qed.

Lemma read_values_total k s : slen s < 2 ^ 31 -> exists l, read_values k s = Ok l.
Proof.
  intros H. unfold read_values. destruct (take_tokens_spec "," k s H) as (s' & E & _).
  exists (take k (nonempty_fields "," s)). rewrite E. reflexivity.
Qed.

(** A handler that ends normally and changes nothing but parameters. *)
Definition only_parameters (s s' : Session) : Prop :=
  image s' = image s /\ response s' = response s /\ watermark s' = watermark s /\ loglevel s' = loglevel s
  /\ headers s' = headers s /\ codecOptions s' = codecOptions s /\ imageCache s' = imageCache s
  /\ tiles s' = tiles s /\ out s' = out s.

Definition sets (m : M unit) : Prop :=
  forall s, loglevel s < 3 -> exists s', m s = (Ok tt, s') /\ only_parameters s s'.

Lemma sets_modify f : (forall s, only_parameters s (f s)) -> sets (modify f).
Proof. intros H s _. exists (f s). split; [reflexivity|apply H]. Qed.

Lemma sets_view f : sets (on_view f).
Proof. intros s _. eexists. split; [reflexivity|]. repeat split. Qed.

Lemma sets_ret : sets (mret tt).
Proof. intros s _. eexists. split; [reflexivity|]. repeat split. Qed.

Lemma only_parameters_trans s t u : only_parameters s t -> only_parameters t u -> only_parameters s u.
Proof. unfold only_parameters. intuition congruence. Qed.

Lemma sets_bind m k : sets m -> sets (k tt) -> sets (m ≫= k).
Proof.
  intros Hm Hk s Hs. destruct (Hm s Hs) as (t & E & Ht). unfold mbind, M_bind. rewrite E.
  assert (loglevel t < 3) as Hl by (destruct Ht as (_ & _ & _ & -> & _); exact Hs).
  destruct (Hk t Hl) as (u & E' & Hu). exists u. split; [exact E'|]. eapply only_parameters_trans; eassumption.
Qed.

Lemma sets_lift {A} (r : res A) (k : A -> M unit) a : r = Ok a -> sets (k a) -> sets (lift r ≫= k).
Proof. intros -> H. exact H. Qed.

Lemma sets_when b m : sets m -> sets (when b m).
Proof. intros H. destruct b; [exact H|apply sets_ret]. Qed.

Lemma sets_if (b : bool) m n : sets m -> sets n -> sets (if b then m else n).
Proof. intros. destruct b; assumption. Qed.

Lemma sets_log a n : sets (log_values a n).
Proof.
  intros s Hs. unfold log_values. rewrite gets_bind. rewrite (proj2 (Z.leb_gt 3 (loglevel s))) by lia.
  eexists. split; [reflexivity|]. repeat split.
Qed.

Lemma sets_matrix : sets log_matrix.
Proof.
  intros s Hs. unfold log_matrix. rewrite !gets_bind. rewrite (proj2 (Z.leb_gt 3 (loglevel s))) by lia.
  eexists. split; [reflexivity|]. repeat split.
Qed.

#[local] Hint Resolve sets_view sets_ret sets_bind sets_when sets_if sets_log sets_matrix : sets.

Lemma QLT_sets a : sets (QLT_run a).
Proof. apply sets_if; [apply sets_modify; repeat split|apply sets_ret]. Qed.

Lemma SDS_sets a : slen a < 2 ^ 31 -> sets (SDS_run a).
Proof.
  intros H. unfold SDS_run. destruct (cut_at_total "," a H) as (x & y & E & Hy). eapply sets_lift; [exact E|].
  apply sets_bind; [auto with sets|]. destruct (cut_at_total "," y) as (z & t & E' & _); [lia|].
  eapply sets_lift; [exact E'|]. apply sets_view.
Qed.

(** The same for a step that gives a value. *)
Definition yields {A} (m : M A) : Prop :=
  forall s, loglevel s < 3 -> exists a s', m s = (Ok a, s') /\ only_parameters s s'.

Lemma sets_yields {A} (m : M A) k : yields m -> (forall a, sets (k a)) -> sets (m ≫= k).
Proof.
  intros Hm Hk s Hs. destruct (Hm s Hs) as (a & t & E & Ht). unfold mbind, M_bind. rewrite E.
  assert (loglevel t < 3) as Hl by (destruct Ht as (_ & _ & _ & -> & _); exact Hs).
  destruct (Hk a t Hl) as (u & E' & Hu). exists u. split; [exact E'|]. eapply only_parameters_trans; eassumption.
Qed.

Lemma yields_ok {A} (a : A) m : (forall s, m s = (Ok a, s)) -> yields m.
Proof. intros H s _. exists a, s. split; [apply H|]. repeat split. Qed.

Lemma yields_after {A} (m : M unit) (r : res A) a : sets m -> r = Ok a -> yields (_ ← m; lift r).
Proof.
  intros Hm -> s Hs. destruct (Hm s Hs) as (t & E & Ht). exists a, t. split; [|exact Ht].
  unfold mbind, M_bind. rewrite E. reflexivity.
Qed.

Lemma ROT_sets a : sets (ROT_run a).
Proof.
  unfold ROT_run. eapply sets_lift; [apply substr_ok; pose proof (slen_nonneg a); lia|].
  apply sets_yields.
  - case_bool_decide as Hx; [|apply (yields_ok a); reflexivity].
    eapply yields_after; [apply sets_view|]. unfold erase.
    rewrite (proj2 (Z.ltb_ge (slen a) 0)) by apply slen_nonneg. reflexivity.
  - intros r. cbv zeta. apply sets_yields; [intros s _; exists (flip (view s)), s; repeat split|].
    intros f. auto with sets.
Qed.

Lemma mapM_rows_total l : Forall (fun r => slen r < 2 ^ 31) l -> exists rows, mapM read_row l = Ok rows.
Proof.
  intros H. eexists. apply (mapM_ok read_row (fun r => atof32 <$> nonempty_fields "," r)). intros r Hr.
  unfold read_row. rewrite tokens_nonempty_fields; [reflexivity|]. rewrite list.Forall_forall in H. apply H, Hr.
Qed.

Lemma fields_length c s f : f ∈ fields c s -> slen f <= slen s.
Proof.
  revert f. induction s as [|d s IH]; intros f H; cbn [fields] in H.
  - apply list_elem_of_singleton in H as ->. lia.
  - rewrite slen_cons. destruct (Ascii.eqb d c).
    + apply elem_of_cons in H as [->|H]; [pose proof (slen_nonneg s); change (slen "") with 0; lia|].
      specialize (IH f H). lia.
    + destruct (fields_cons c s) as (g & gs & E). rewrite E in *.
      apply elem_of_cons in H as [->|H].
      * rewrite slen_cons. specialize (IH g ltac:(set_solver)). lia.
      * specialize (IH f ltac:(set_solver)). lia.
Qed.

Lemma CTW_sets a : slen a < 2 ^ 31 -> sets (CTW_run a).
Proof.
  intros H. unfold CTW_run. cbv zeta.
  assert (R : - 1 <= i32 (find "[" a) < slen a \/ i32 (find "[" a) = -1).
  { destruct (find_char_range "[" a H) as [R|[_ R]]; [left; exact R|right; exact R]. }
  pose proof (slen_nonneg a).
  rewrite (i32_small (i32 (find "[" a) + 1)) by lia. rewrite (u64_small (i32 (find "[" a) + 1)) by lia.
  destruct (substr a (i32 (find "[" a) + 1) (u64 (i32 (i32 (find "]" a) - i32 (find "[" a) - 1)))) as [line|f] eqn:E;
    [|rewrite substr_ok in E by lia; discriminate].
  pose proof (substr_length _ _ _ _ E) as Hl. eapply sets_lift; [reflexivity|].
  eapply sets_lift; [apply tokens_nonempty_fields; lia|].
  destruct (mapM_rows_total (nonempty_fields ";" line)) as (rows & Er).
  { apply list.Forall_forall. intros r [_ Hr]%list_elem_of_filter. pose proof (fields_length _ _ _ Hr). lia. }
  eapply sets_lift; [exact Er|]. apply sets_bind; [apply sets_view|apply sets_matrix].
Qed.

Lemma parameter_sets c h a : parameter_run c = Some h -> slen a < 2 ^ 31 -> sets (h a).
Proof.
  intros Hc Ha. destruct c; try discriminate Hc; injection Hc as <-.
  - apply QLT_sets.
  - apply SDS_sets, Ha.
  - unfold CNT_run. auto with sets.
  - unfold GAM_run. auto with sets.
  - apply sets_view.
  - apply sets_view.
  - unfold RGN_run. destruct (read_values_total 4 a Ha) as (l & E). eapply sets_lift; [exact E|].
    apply sets_bind; [|apply sets_log].
    destruct (atof32 <$> l) as [|? [|? [|? [|? []]]]]; auto 10 with sets.
  - apply ROT_sets.
  - apply sets_ret.
  - unfold SHD_run. destruct (read_values_total 2 a Ha) as (l & E). eapply sets_lift; [exact E|].
    apply sets_bind; [|apply sets_log]. destruct (atoi <$> l) as [|? [|? []]]; auto with sets.
  - unfold CMP_run. apply sets_bind; [apply sets_view|]. auto 20 with sets.
  - apply sets_view.
  - unfold LYR_run. auto with sets.
  - apply CTW_sets, Ha.
  - unfold COL_run. auto with sets.
Qed.

(** ** Properties *)

(** C33. The commands that only set a parameter -- QLT, SDS, CNT, GAM, WID, HEI, RGN, ROT,
    SHD, CMP, INV, LYR, CTW, COL and ICC without colour management -- end normally for
    every argument below 2 GB, as long as the log is below level 3, and leave the image,
    the caches, the response and the output alone.  At level 3 the messages of RGN and
    SHD print unset values and that of CTW reads a row that may not be there; MINMAX,
    which changes the image and can write past its ranges, is not one of them
    ([minmax_channels]). *)
Theorem parameters_total (c : Task) (h : string -> M unit) (argument : string) (s : Session) :
  parameter_run c = Some h -> slen argument < 2 ^ 31 -> loglevel s < 3 ->
  exists s', h argument s = (Ok tt, s') /\ only_parameters s s'.
Proof. intros Hc Ha. exact (parameter_sets c h argument Hc Ha s). Qed.

Lemma parameters_total_witness :
  exists s', RGN_run "nan,,1e99;-3" (mkSession None (new_JPEGCompressor 75) (new_PNGCompressor 1) new_View
      (new_IIPResponse "1.2") (Watermark.new_Watermark "" f1 f1) 1 ∅ ∅ ∅ (mkTMState (Cache.empty_cache 0) 0) [])
    = (Ok tt, s') /\ only_parameters (mkSession None (new_JPEGCompressor 75) (new_PNGCompressor 1) new_View
      (new_IIPResponse "1.2") (Watermark.new_Watermark "" f1 f1) 1 ∅ ∅ ∅ (mkTMState (Cache.empty_cache 0) 0) []) s'.
Proof. apply (parameters_total RGN RGN_run "nan,,1e99;-3"); [reflexivity|vm_compute; reflexivity|vm_compute; reflexivity]. Defined.

Lemma sfind_char_none c s : smem c s = false -> sfind (String c "") s = None.
Proof.
  intros H. apply sfind_None. intros a b E. rewrite E, smem_app in H.
  apply orb_false_elim in H as [_ H]. rewrite scons_app in H. cbn [smem] in H. rewrite Ascii.eqb_refl in H. discriminate.
Qed.

Lemma cut_at_none c s : smem c s = false -> slen s < 2 ^ 31 -> cut_at (String c "") s = Ok (s, s).
Proof.
  intros Hc Hs. pose proof (slen_nonneg s). unfold cut_at, find. rewrite sfind_char_none by exact Hc. cbn [pos_of].
  change (i32 npos) with (-1). change (i32 (-1 + 1)) with 0. change (u64 0) with 0.
  change (u64 (-1)) with npos. rewrite (u64_small (slen s)) by lia.
  rewrite !substr_ok, !bind_ret by lia. cbn [Z.to_nat]. rewrite !sdrop_0.
  rewrite !stake_all; [reflexivity| |]; unfold slen, npos in *; lia.
Qed.

Lemma dec_no c z : isdigit c = false -> c <> "-"%char -> smem c (dec z) = false.
Proof.
  intros H1 H2. destruct (smem c (dec z)) eqn:E; [|reflexivity].
  apply dec_chars in E as [E|E]; congruence.
Qed.

Lemma atoi_dec_exact z : is_i32 z -> atoi (dec z) = z.
Proof. intros H. pose proof (atoi_dec z "" H) as E. rewrite sapp_nil_r in E. apply E. exact I. Qed.

(** MINMAX=n:lo,hi sets the range of channel n, for the channels 1 to n of
    the image; for the channel after the last one, which the test lets
    through, it writes past the end of the vector. *)
Theorem minmax_channels (s : Session) (i : IIPImage) (n : Z) (lo hi : string) :
  image s = Some i -> channels i = Z.of_nat (length (IIPImage.min i)) ->
  channels i = Z.of_nat (length (IIPImage.max i)) -> channels i < 2 ^ 31 - 1 ->
  smem "," lo = false -> smem "," hi = false -> slen lo + slen hi < 2 ^ 30 ->
  let argument := dec n +:+ ":" +:+ lo +:+ "," +:+ hi in
  (1 <= n <= channels i ->
   MINMAX_run argument s
   = (Ok tt, s <| image := Some (i <| IIPImage.min := <[Z.to_nat (n - 1) := atof32 lo]> (IIPImage.min i) |>
                                   <| IIPImage.max := <[Z.to_nat (n - 1) := atof32 hi]> (IIPImage.max i) |>) |>))
  /\ (n = channels i + 1 -> exists w, (MINMAX_run argument s).1 = Err (Undefined w)).
Proof.
  intros Hi Hmin Hmax Hch Hlo Hhi Hlen argument.
  pose proof (slen_nonneg lo). pose proof (slen_nonneg hi).
  assert (Hcut : is_i32 n -> cut_at ":" argument = Ok (dec n, lo +:+ "," +:+ hi)).
  { intros Hn. pose proof (dec_length_i32 n Hn). apply (cut_at_app ":"); [apply dec_no; [reflexivity|discriminate]|].
    rewrite !slen_app. change (slen ",") with 1. lia. }
  assert (Hcut2 : cut_at "," (lo +:+ "," +:+ hi) = Ok (lo, hi)) by (apply (cut_at_app ","); [exact Hlo|lia]).
  assert (Hcut3 : cut_at "," hi = Ok (hi, hi)) by (apply (cut_at_none ","); [exact Hhi|lia]).
  assert (Himg : the_image s = (Ok i, s)) by (unfold the_image; rewrite Hi; reflexivity).
  split; intros Hn; unfold MINMAX_run; (rewrite Hcut by (unfold is_i32; lia)); rewrite lift_bind; cbv zeta;
    rewrite (M_bind_val _ _ _ _ _ Himg), atoi_dec_exact by (unfold is_i32; lia);
    rewrite !i32_small by (unfold getNumChannels; lia);
    rewrite (proj2 (Z.ltb_ge (n - 1) 0)), (proj2 (Z.ltb_ge (getNumChannels i) (n - 1))) by (unfold getNumChannels; lia);
    cbn [orb]; rewrite Hcut2, lift_bind.
  - set (i1 := i <| IIPImage.min := <[Z.to_nat (n - 1) := atof32 lo]> (IIPImage.min i) |>).
    rewrite (M_bind_val _ _ s tt (s <| image := Some i1 |>)).
    + rewrite Hcut3, lift_bind. unfold on_image.
      assert (Himg1 : the_image (s <| image := Some i1 |>) = (Ok i1, s <| image := Some i1 |>)) by reflexivity.
      rewrite (M_bind_val _ _ _ _ _ Himg1), lift_bind.
      rewrite (proj2 (wr_ok (IIPImage.max i1) (<[Z.to_nat (n - 1) := atof32 hi]> (IIPImage.max i)) _ _)); [reflexivity|].
      change (IIPImage.max i1) with (IIPImage.max i). split; [lia|reflexivity].
    + unfold on_image. rewrite (M_bind_val _ _ _ _ _ Himg), lift_bind.
      rewrite (proj2 (wr_ok (IIPImage.min i) (<[Z.to_nat (n - 1) := atof32 lo]> (IIPImage.min i)) _ _)); [reflexivity|].
      split; [lia|reflexivity].
  - assert (Hbad : wr (IIPImage.min i) (n - 1) (atof32 lo) = undef "write outside buffer").
    { unfold wr. rewrite (proj2 (Z.ltb_ge (n - 1) _)) by lia. rewrite andb_false_r. reflexivity. }
    exists "write outside buffer". unfold mbind at 1, M_bind at 1. unfold on_image at 1.
    rewrite (M_bind_val _ _ _ _ _ Himg), lift_bind, Hbad. reflexivity.
Qed.

Definition grey_image : IIPImage :=
  (new_IIPImage "a.tif") <| IIPImage.channels := 1 |> <| IIPImage.min := [FZero false] |> <| IIPImage.max := [of_Z b32 255] |>.

Definition grey_session : Session :=
  mkSession (Some grey_image) (new_JPEGCompressor 75) (new_PNGCompressor 1) new_View (new_IIPResponse "1.2")
    (Watermark.new_Watermark "" f1 f1) 1 ∅ ∅ ∅ (mkTMState (Cache.empty_cache 0) 0) [].

Lemma minmax_channels_witness :
  MINMAX_run "1:10,200" grey_session
  = (Ok tt, grey_session <| image := Some (grey_image <| IIPImage.min := [of_Z b32 10] |> <| IIPImage.max := [of_Z b32 200] |>) |>)
  /\ exists w, (MINMAX_run "2:10,200" grey_session).1 = Err (Undefined w).
Proof.
  split.
  - refine (proj1 (minmax_channels grey_session grey_image 1 "10" "200" _ _ _ _ _ _ _) _);
      try reflexivity; vm_compute; intuition congruence.
  - refine (proj2 (minmax_channels grey_session grey_image 2 "10" "200" _ _ _ _ _ _ _) _);
      try reflexivity; vm_compute; intuition congruence.
Defined.
