(* ===== verification/OBJ.v ===== *)
(** * Objects (src/src/OBJ.cc)

    The OBJ command answers questions about the image. *)
From stdpp Require Import base gmap strings list numbers pretty.
From Stdlib Require Import ZArith Lia Ascii.
From coqutil Require Import Datatypes.RecordSetters.
From S2P Require Import Prelude CString CFloat Format Tokenizer Utils RawTile View IIPImage IIPResponse Compressors TileManager Session Task.
Import TriangleBracketNotations.
#[local] Open Scope string_scope.
#[local] Open Scope list_scope.
#[local] Open Scope Z_scope.

(** ** The handlers *)

Definition iip : M unit := on_response (setProtocol "IIP:1.0").
Definition iip_server : M unit := on_response (addResponse_c "IIP-server:3.65").

(** [(int) getRotation() % k] *)
Definition rotation_mod (k : Z) (v : View) : res Z := r ← to_i32 (getRotation v); Ok (Z.rem r k).

Definition max_size (argument : string) : M unit :=
  _ ← checkImage argument;
  i ← the_image;
  w ← lift (getImageWidth i 0);
  h ← lift (getImageHeight i 0);
  v ← gets view;
  r ← lift (rotation_mod 180 v);
  on_response (if r =? 90 then addResponse_ints "Max-size" (i32 h) (i32 w)
               else addResponse_ints "Max-size" (i32 w) (i32 h)).

Definition resolution_number (argument : string) : M unit :=
  _ ← checkImage argument;
  i ← the_image;
  on_response (addResponse_int "Resolution-number" (i32 (getNumResolutions i))).

Definition tile_size (argument : string) : M unit :=
  _ ← checkImage argument;
  i ← the_image;
  on_response (addResponse_ints "Tile-size" (i32 (getTileWidth i)) (i32 (getTileHeight i))).

Definition bits_per_channel (argument : string) : M unit :=
  _ ← checkImage argument;
  i ← the_image;
  on_response (addResponse_int "Bits-per-channel" (i32 (getNumBitsPerPixel i))).

(** The last character goes ([tmp.resize( tmp.length() - 1 )]). *)
Definition chop (s : string) : string := stake (String.length s - 1) s.

Definition views_text (name : string) (views : list Z) : string :=
  chop (foldl (fun tmp i => tmp +:+ snprintf 8 (dec i +:+ " ")) name views).

Definition vertical_views (argument : string) : M unit :=
  _ ← checkImage argument;
  i ← the_image;
  on_response (addResponse (views_text "Vertical-views:" (getVerticalViewsList i))).

Definition horizontal_views (argument : string) : M unit :=
  _ ← checkImage argument;
  i ← the_image;
  on_response (addResponse (views_text "Horizontal-views:" (getHorizontalViewsList i))).

Definition min_max_values (argument : string) : M unit :=
  _ ← checkImage argument;
  i ← the_image;
  tmp ← lift (foldM (fun c tmp =>
      minimum ← getMinValue i c;
      maximum ← getMaxValue i c;
      Ok (tmp +:+ snprintf 24 (" " +:+ printf_g 9 minimum +:+ " ") +:+ snprintf 24 (" " +:+ printf_g 9 maximum +:+ " ")))
    (range 0 (getNumChannels i)) "Min-Max-sample-values:");
  on_response (addResponse (chop tmp)).

Definition resolutions (argument : string) : M unit :=
  _ ← checkImage argument;
  i ← the_image;
  let num_res := i32 (getNumResolutions i) in
  tmp ← lift (foldM (fun n tmp =>
      w ← rd (image_widths i) n;
      h ← rd (image_heights i) n;
      Ok (tmp +:+ snprintf 32 (dec (i32 w) +:+ " " +:+ dec (i32 h)) +:+ (if 0 <? n then "," else "")))
    (reverse (range 0 num_res)) "Resolutions:");
  on_response (addResponse tmp).

Definition colorspace (argument : string) : M unit :=
  _ ← checkImage argument;
  i ← the_image;
  let '(calibrated, colourspace, planes) :=
    match getColourSpace i with
    | CIELAB => (1, 4, "3 0 1 2")
    | GREYSCALE => (0, 1, "1 0")
    | _ => (0, 3, "3 0 1 2")
    end in
  let no_res := i32 (getNumResolutions i) in
  on_response (addResponse_c (snprintf 41 ("Colorspace,0-" +:+ dec (i32 (no_res - 1)) +:+ ",0:" +:+ dec calibrated
                                           +:+ " 0 " +:+ dec colourspace +:+ " " +:+ planes))).

Definition metadata (field argument : string) : M unit :=
  _ ← checkImage argument;
  m ← metadata_of field;
  when (negb (slen m =? 0)) (on_response (addResponse_string field m)).

(** The names answered from the metadata. *)
Definition metadata_fields : list string :=
  ["copyright"; "title"; "subject"; "author"; "keywords"; "comment"; "last-author"; "rev-number";
   "edit-time"; "last-printed"; "create-dtm"; "last-save-dtm"; "app-name"].

Definition OBJ_run (a : string) : M unit :=
  let argument := tolower a in
  let asks s := bool_decide (argument = s) in
  if asks "iip,1.0" then iip
  else if asks "basic-info" then
    _ ← iip_server;
    _ ← max_size argument;
    _ ← resolution_number argument;
    colorspace argument
  else if asks "iip-server" then iip_server
  else if asks "iip-opt-comm" then
    on_response (addResponse_c "IIP-opt-comm:CVT CNT QLT JTL JTLS WID HEI RGN MINMAX SHD CMP INV CTW")
  else if asks "iip-opt-obj" then
    on_response (addResponse_c "IIP-opt-obj:Horizontal-views Vertical-views Tile-size Bits-per-channel Min-Max-sample-values Resolutions")
  else if asks "resolution-number" then resolution_number argument
  else if asks "max-size" then max_size argument
  else if asks "tile-size" then tile_size argument
  else if asks "bits-per-channel" then bits_per_channel argument
  else if asks "vertical-views" then vertical_views argument
  else if asks "horizontal-views" then horizontal_views argument
  else if asks "min-max-sample-values" then min_max_values argument
  else if asks "resolutions" then resolutions argument
  else if negb (find "colorspace" argument =? npos) then colorspace argument
  else if asks "summary-info" then
    _ ← metadata "copyright" argument;
    _ ← metadata "subject" argument;
    _ ← metadata "author" argument;
    _ ← metadata "create-dtm" argument;
    metadata "app-name" argument
  else if bool_decide (argument ∈ metadata_fields) then metadata argument argument
  else on_response (setError "3 2" argument).

(** ** Lemmas *)

Definition size_text (p : Z * Z) : string := dec p.1 +:+ " " +:+ dec p.2.

Lemma size_text_ok p : is_i32 p.1 -> is_i32 p.2 ->
  snprintf 32 (size_text p) = size_text p /\ empty (size_text p) = false /\ smem "," (size_text p) = false
  /\ slen (size_text p) <= 23.
Proof.
  intros H1 H2. pose proof (dec_length_i32 _ H1) as L1. pose proof (dec_length_i32 _ H2) as L2.
  assert (L : slen (size_text p) <= 23).
  { unfold size_text. rewrite !slen_app. change (slen " ") with 1. lia. }
  split_and!; [| | |exact L].
  - apply stake_all. unfold slen in L. lia.
  - unfold size_text. destruct p.1 as [|q|q]; [reflexivity| |reflexivity].
    change (dec (Z.pos q)) with (pretty (N.pos q)).
    destruct (dec_first_digit (N.pos q) "") as (c & t & E & _). rewrite sapp_nil_r in E. rewrite E. reflexivity.
  - unfold size_text. rewrite !smem_app, !dec_no by (reflexivity || discriminate). reflexivity.
Qed.

(** Reads the sizes of an answer back. *)
Definition read_size (t : string) : res (Z * Z) := '(a, b) ← cut_at " " t; Ok (atoi a, atoi b).

Lemma read_size_text p : is_i32 p.1 -> is_i32 p.2 -> read_size (size_text p) = Ok p.
Proof.
  intros H1 H2. pose proof (dec_length_i32 _ H1). pose proof (dec_length_i32 _ H2).
  unfold read_size, size_text. change (" " +:+ dec p.2) with (String " " (dec p.2)). rewrite (cut_at_app " " (dec p.1) (dec p.2)); [|apply dec_no; [reflexivity|discriminate]|lia].
  rewrite bind_ret, !atoi_dec_exact by assumption. destruct p. reflexivity.
Qed.

Definition read_sizes (text : string) : res (list (Z * Z)) := l ← tokens text ","; mapM read_size l.

Section Resolutions.
Context (ws hs : list Z) (Hlen : length ws = length hs).
Context (Hok : forall p, p ∈ zip ws hs -> is_i32 p.1 /\ is_i32 p.2).

Lemma resolutions_loop n acc : (n <= length ws)%nat ->
  foldM (fun n tmp =>
      w ← rd ws n;
      h ← rd hs n;
      Ok (tmp +:+ snprintf 32 (dec (i32 w) +:+ " " +:+ dec (i32 h)) +:+ (if 0 <? n then "," else "")))
    (reverse (range 0 (Z.of_nat n))) acc
  = Ok (acc +:+ join "," (size_text <$> reverse (take n (zip ws hs)))).
Proof.
  revert acc. induction n as [|n IH]; intros acc Hn.
  - cbn. rewrite sapp_nil_r. reflexivity.
  - rewrite range_snoc, reverse_app by lia. replace (Z.of_nat (S n) - 1) with (Z.of_nat n) by lia.
    destruct (lookup_lt_is_Some_2 ws n) as [w Hw]; [lia|]. destruct (lookup_lt_is_Some_2 hs n) as [h Hh]; [lia|].
    change (reverse [Z.of_nat n] ++ reverse (range 0 (Z.of_nat n))) with (Z.of_nat n :: reverse (range 0 (Z.of_nat n))).
    cbn [foldM].
    rewrite (proj2 (rd_ok ws (Z.of_nat n) w)) by (rewrite Nat2Z.id; split; [lia|exact Hw]).
    rewrite (proj2 (rd_ok hs (Z.of_nat n) h)) by (rewrite Nat2Z.id; split; [lia|exact Hh]).
    rewrite !bind_ret, IH by lia.
    assert (Hz : zip ws hs !! n = Some (w, h)) by (rewrite lookup_zip_with, Hw, Hh; reflexivity).
    assert (Hi : is_i32 w /\ is_i32 h) by (apply (Hok (w, h)); apply list_elem_of_lookup; eauto).
    destruct Hi as [Hi1 Hi2]. rewrite !i32_small by assumption.
    rewrite (take_S_r _ _ _ Hz), reverse_app. change (reverse [(w, h)]) with [(w, h)]. rewrite fmap_app.
    change (dec w +:+ " " +:+ dec h) with (size_text (w, h)).
    rewrite (proj1 (size_text_ok (w, h) Hi1 Hi2)). apply (f_equal Ok). rewrite !sapp_assoc. do 2 f_equal.
    destruct n as [|n].
    + rewrite take_0. change (size_text (w, h) +:+ "" = size_text (w, h)). apply sapp_nil_r.
    + rewrite (proj2 (Z.ltb_lt 0 _)) by lia. cbn [fmap list_fmap app]. rewrite join_cons; [reflexivity|].
      intros Hnil. apply (f_equal length) in Hnil. rewrite length_fmap, length_reverse, length_take, length_zip_with in Hnil.
      cbn [length] in Hnil. lia.
Qed.
End Resolutions.

(** ** Properties *)

(** The answer to OBJ=resolutions lists the sizes of all resolutions from
    the smallest to the largest, and is read back exactly. *)
Theorem resolutions_roundtrip (s : Session) (i : IIPImage) (argument : string) :
  image s = Some i -> numResolutions i = Z.of_nat (length (image_widths i)) -> numResolutions i < 2 ^ 20 ->
  length (image_widths i) = length (image_heights i) ->
  Forall is_i32 (image_widths i) -> Forall is_i32 (image_heights i) ->
  exists text, resolutions argument s = (Ok tt, s <| response := addResponse ("Resolutions:" +:+ text) (response s) |>)
    /\ read_sizes text = Ok (reverse (zip (image_widths i) (image_heights i))).
Proof.
  intros Hi Hn Hsmall Hl Hw Hh. set (zs := zip (image_widths i) (image_heights i)).
  assert (Hok : forall p, p ∈ zs -> is_i32 p.1 /\ is_i32 p.2).
  { intros [w h] Hp. unfold zs in Hp. pose proof (elem_of_zip_l _ _ _ _ Hp). pose proof (elem_of_zip_r _ _ _ _ Hp).
    rewrite list.Forall_forall in Hw, Hh. cbn. auto. }
  assert (Lz : length zs = length (image_widths i)) by (unfold zs; rewrite length_zip_with; lia).
  exists (join "," (size_text <$> reverse zs)). split.
  - unfold resolutions, checkImage, mbind at 1, M_bind at 1. rewrite gets_bind, Hi. cbn [mret M_ret].
    rewrite (M_bind_val the_image _ s i s) by (unfold the_image; rewrite Hi; reflexivity). cbv zeta.
    unfold getNumResolutions. rewrite i32_small by lia. rewrite Hn, resolutions_loop by (assumption || lia).
    rewrite lift_bind. unfold zs. rewrite take_ge by (rewrite length_zip_with; lia). reflexivity.
  - unfold read_sizes.
    assert (HF : Forall (fun p => empty p = false /\ smem "," p = false /\ slen p <= 23) (size_text <$> reverse zs)).
    { apply list.Forall_forall. intros t (p & -> & Hp)%list_elem_of_fmap. rewrite elem_of_reverse in Hp.
      destruct (Hok p Hp) as [H1 H2]. destruct (size_text_ok p H1 H2) as (_ & A & B & C). auto. }
    rewrite (tokens_nonempty_fields ","), bind_ret.
    + rewrite (nonempty_fields_join ","); [|eapply list.Forall_impl; [exact HF|]; intros ? (? & ? & _); auto].
      rewrite mapM_fmap. etransitivity; [apply (mapM_ok _ (fun p => p))|rewrite list_fmap_id; reflexivity].
      intros p Hp. rewrite elem_of_reverse in Hp. destruct (Hok p Hp). apply read_size_text; assumption.
    + assert (B : forall l, Forall (fun p => empty p = false /\ smem "," p = false /\ slen p <= 23) l ->
                   slen (join "," l) <= 24 * Z.of_nat (length l)).
      { induction 1 as [|p l (_ & _ & Hp) _ IH]; [reflexivity|]. destruct l as [|q l]; [cbn [join length]; lia|].
        rewrite join_cons by discriminate. rewrite !slen_app. change (slen ",") with 1. cbn [length] in *. lia. }
      specialize (B _ HF). rewrite length_fmap, length_reverse in B. lia.
Qed.

Definition pyramid : IIPImage :=
  (new_IIPImage "a.tif") <| image_widths := [1000; 500; 250] |> <| image_heights := [600; 300; 150] |> <| numResolutions := 3 |>.

Lemma resolutions_roundtrip_witness :
  exists text, resolutions "resolutions" (grey_session <| image := Some pyramid |>)
    = (Ok tt, grey_session <| image := Some pyramid |>
                <| response := addResponse ("Resolutions:" +:+ text) (response grey_session) |>)
    /\ read_sizes text = Ok [(250, 150); (500, 300); (1000, 600)].
Proof.
  destruct (resolutions_roundtrip (grey_session <| image := Some pyramid |>) pyramid "resolutions") as (text & E & R);
    [reflexivity|reflexivity|reflexivity|reflexivity
    |forall_elements ltac:(vm_compute; intuition congruence)|forall_elements ltac:(vm_compute; intuition congruence)|].
  exists text. split; [exact E|exact R].
Defined.

(** The objects that are about the image. *)
Definition image_objects : list string :=
  ["resolution-number"; "max-size"; "tile-size"; "bits-per-channel"; "vertical-views"; "horizontal-views";
   "min-max-sample-values"; "resolutions"; "colorspace"; "summary-info"] ++ metadata_fields.

Lemma unset_image argument s (m : M unit) : image s = None ->
  (_ ← checkImage argument; m) s
  = (throw (ExnString "image not set"), s <| response := setError "1 3" argument (response s) |>).
Proof. intros H. unfold checkImage, mbind, M_bind, gets. rewrite H. reflexivity. Qed.

(** C36. Asking for an object of the image before an image was named is answered
    with error 1 3, by an exception, whatever the case the request is
    written in; nothing else changes. *)
Theorem objects_need_image (a : string) (s : Session) :
  image s = None -> tolower a ∈ image_objects ->
  OBJ_run a s = (throw (ExnString "image not set"), s <| response := setError "1 3" (tolower a) (response s) |>).
Proof.
  intros Hs Ha. unfold OBJ_run. cbv zeta. revert Ha. generalize (tolower a). clear a. intros a Ha.
  unfold image_objects, metadata_fields in Ha. cbn [app] in Ha.
  repeat (apply elem_of_cons in Ha as [->|Ha];
    [repeat first [rewrite bool_decide_eq_false_2 by discriminate | rewrite bool_decide_eq_true_2 by (reflexivity || set_solver)
                  |rewrite (eq_refl : find "colorspace" "colorspace" = 0)
                  |match goal with |- context [find "colorspace" ?x =? npos] =>
                     replace (find "colorspace" x =? npos) with true by (vm_compute; reflexivity) end];
     cbn [negb];
     first [apply unset_image; exact Hs | apply (M_bind_err _ _ s); apply unset_image; exact Hs]|]).
  apply not_elem_of_nil in Ha. contradiction.
Qed.

Lemma objects_need_image_witness :
  OBJ_run "Max-Size" (grey_session <| image := None |>)
  = (throw (ExnString "image not set"),
     grey_session <| image := None |> <| response := setError "1 3" "max-size" (response grey_session) |>).
Proof.
  etransitivity; [apply (objects_need_image "Max-Size" (grey_session <| image := None |>))|vm_compute; reflexivity].
  - reflexivity.
  - apply list_elem_of_lookup. exists 1%nat. vm_compute. reflexivity.
Defined.
