(* ===== verification/FIF.v ===== *)
(** * Opening an image (src/src/FIF.cc)

    FIF decodes the path, removes every ["../"], takes the image from the cache
    of images or from the file system, opens it and answers a conditional
    request.  The loop that removes runs on fuel: every step makes the string
    shorter. *)
From stdpp Require Import base gmap strings list numbers.
From Stdlib Require Import ZArith Lia Ascii.
From coqutil Require Import Datatypes.RecordSetters.
From S2P Require Import Prelude CString CFloat Tokenizer URL Environment RawTile View IIPImage IIPResponse Compressors TileManager Session Demo Task.
Import TriangleBracketNotations.
#[local] Open Scope string_scope.
#[local] Open Scope list_scope.
#[local] Open Scope Z_scope.

Definition MAXIMAGECACHE : Z := 1000.

(** [while( (n = argument.find( "../" )) < argument.length() ) argument.erase( n, 3 )] *)
Fixpoint filter_loop (fuel : nat) (argument : string) : res string :=
  let n := u32 (find "../" argument) in
  if n <? slen argument then
    match fuel with
    | O => Err OutOfFuel
    | S fuel => a ← erase argument n 3; filter_loop fuel a
    end
  else Ok argument.

Definition filter_path (argument : string) : res string := filter_loop (String.length argument) argument.

Section FIF.
Context {P : Platform}.

(** A new [IIPImage], initialised from the file system. *)
Definition fresh_image (argument : string) : res IIPImage :=
  let test := new_IIPImage argument in
  let test := IIPImage.setFileNamePattern (getFileNamePattern getenv) test in
  let test := IIPImage.setFileSystemPrefix (getFileSystemPrefix getenv) test in
  Initialise filesystem test.

(** The first element goes when the cache is full. *)
Definition make_room (c : gmap string IIPImage) : gmap string IIPImage :=
  if MAXIMAGECACHE <=? Z.of_nat (base.size c) then
    match hash_begin c with Some k => delete k c | None => c end
  else c.

(** The image from the cache, with its timestamp, or a new one. *)
Definition find_image (argument : string) : M (IIPImage * Z) :=
  c ← gets imageCache;
  if (base.size c =? 0)%nat then test ← lift (fresh_image argument); mret (test, 0)
  else
    match c !! argument with
    | Some test => mret (test, IIPImage.timestamp test)
    | None =>
        test ← lift (fresh_image argument);
        _ ← modify (fun s => s <| imageCache := make_room (imageCache s) |>);
        mret (test, 0)
    end.

(** [*session->image = new TPTImage( test )], or the JPEG2000 class. *)
Definition create_image (argument : string) (test : IIPImage) : M unit :=
  match getImageFormat test with
  | TIF => modify (fun s => s <| image := Some test |>)
  | JPEG2000 =>
      if have_jpeg2000 then modify (fun s => s <| image := Some test |>)
      else throwM (ExnString ("Unsupported image type: " +:+ argument))
  | UNSUPPORTED => throwM (ExnString ("Unsupported image type: " +:+ argument))
  end.

(** The codec of the class the image belongs to. *)
Definition codec (i : IIPImage) : Codec := codec_of (getImageFormat i).

Definition open_image (argument : string) : M unit :=
  '(test, timestamp) ← find_image argument;
  _ ← create_image argument test;
  _ ← on_image (fun i => codec_openImage (Codec := codec i) i);
  i ← the_image;
  _ ← when ((0 <? timestamp) && (timestamp <? IIPImage.timestamp i))
        (on_image (fun i => codec_loadImageInfo (Codec := codec i) i (currentX i) (currentY i)));
  i ← the_image;
  _ ← modify (fun s => s <| imageCache := <[argument := i]> (imageCache s) |>);
  _ ← on_response (setLastModified (getTimestamp i));
  l ← gets loglevel;
  when (2 <=? l) (_ ← lift (getImageWidth i 0); _ ← lift (getImageHeight i 0); mret tt).

(** [catch( const file_error& )]: the error is set and thrown again. *)
Definition on_file_error (e : exn) : option (M unit) :=
  match e with
  | ExnFile _ => Some (_ ← on_response (setError "1 3" "FIF"); throwM e)
  | _ => None
  end.

(** The answer to a conditional request. *)
Definition check_modified : M unit :=
  h ← gets headers;
  match h !! "HTTP_IF_MODIFIED_SINCE" with
  | Some date =>
      i ← the_image;
      if IIPImage.timestamp i <=? parse_date (c_str date) then throwM (ExnCode 304) else mret tt
  | None => mret tt
  end.

Definition FIF_run (src : string) : M unit :=
  let '(argument, _) := decode (new_URL src) in
  argument ← lift (filter_path argument);
  _ ← try_catch (open_image argument) on_file_error;
  _ ← check_modified;
  on_view (fun v => v <| xangle := 0 |> <| yangle := 90 |>).
End FIF.

(** ** Lemmas *)

(** *** The filter *)

Lemma filter_loop_spec fuel s :
  slen s < 2 ^ 32 - 1 -> (String.length s <= fuel)%nat ->
  exists t, filter_loop fuel s = Ok t /\ sfind "../" t = None /\ (sfind "../" s = None -> t = s) /\ slen t <= slen s.
Proof.
  revert s. induction fuel as [|fuel IH]; intros s Hs Hf; cbn [filter_loop]; unfold find;
    destruct (sfind "../" s) as [i|] eqn:E; cbn [pos_of].
  - apply sfind_Some in E as [_ E]. cbn [String.length] in E. lia.
  - rewrite (proj2 (Z.ltb_ge (u32 npos) (slen s))) by (change (u32 npos) with (2 ^ 32 - 1); lia).
    exists s. split_and!; [reflexivity|exact E|auto|lia].
  - pose proof (sfind_Some _ _ _ E) as [_ L]. cbn [String.length] in L.
    rewrite u32_small by (unfold slen in *; lia).
    rewrite (proj2 (Z.ltb_lt (Z.of_nat i) (slen s))) by (unfold slen; lia).
    unfold erase. rewrite (proj2 (Z.ltb_ge (slen s) (Z.of_nat i))) by (unfold slen; lia). rewrite bind_ret.
    set (s' := stake _ s +:+ sdrop _ s).
    assert (Ls : (String.length s' + 3 = String.length s)%nat).
    { unfold s'. rewrite slength_app, length_stake, length_sdrop. unfold slen. lia. }
    destruct (IH s') as (t & -> & H1 & _ & H3); [unfold slen in *; lia|lia|].
    exists t. split_and!; [reflexivity|exact H1|discriminate|unfold slen in *; lia].
  - rewrite (proj2 (Z.ltb_ge (u32 npos) (slen s))) by (change (u32 npos) with (2 ^ 32 - 1); lia).
    exists s. split_and!; [reflexivity|exact E|auto|lia].
Qed.

(** A component [".."] that is not the last one is followed by a slash. *)
Lemma parent_component n s : (String.length s <= n)%nat -> ".." ∈ removelast (fields "/" s) -> exists a b, s = a +:+ "../" +:+ b.
Proof.
  revert s. induction n as [|n IH]; intros s Hn Hin; pose proof (fields_find "/" s) as F.
  - destruct s; [|cbn in Hn; lia]. apply not_elem_of_nil in Hin. contradiction.
  - destruct (sfind "/" s) as [k|] eqn:E; rewrite F in Hin; [|apply not_elem_of_nil in Hin; contradiction].
    destruct (sfind_Some _ _ _ E) as [E1 E2]. cbn [String.length] in E1, E2.
    destruct (fields_cons "/" (sdrop (S k) s)) as (f & fs & Ef).
    change (removelast (stake k s :: fields "/" (sdrop (S k) s)))
      with (match fields "/" (sdrop (S k) s) with [] => [] | _ => stake k s :: removelast (fields "/" (sdrop (S k) s)) end) in Hin.
    rewrite Ef in Hin. apply elem_of_cons in Hin as [Hd|Hin].
    + exists "", (sdrop (k + 1) s). rewrite snil_app. rewrite E1 at 1. rewrite <- Hd. reflexivity.
    + rewrite <- Ef in Hin. destruct (IH (sdrop (S k) s)) as (a & b & G); [rewrite length_sdrop; lia|exact Hin|].
      exists (stake k s +:+ "/" +:+ a), b. rewrite E1 at 1. replace (k + 1)%nat with (S k) by lia.
      rewrite G, !sapp_assoc. reflexivity.
Qed.

(** *** The cache of images *)

Section Cache.
Context {P : Platform}.

(** The law of [begin()]: an element of the map, when there is one. *)
Definition hash_law : Prop := forall c, c <> ∅ -> exists k, hash_begin c = Some k /\ is_Some (c !! k).

Definition cache_ok (s : Session) : Prop := Z.of_nat (base.size (imageCache s)) <= MAXIMAGECACHE.

Lemma make_room_size c : hash_law -> Z.of_nat (base.size c) <= MAXIMAGECACHE -> Z.of_nat (base.size (make_room c)) < MAXIMAGECACHE.
Proof.
  intros Hh Hc. unfold make_room. destruct (Z.leb_spec MAXIMAGECACHE (Z.of_nat (base.size c))); [|lia].
  destruct (Hh c) as (k & -> & v & Hk).
  - intros ->. rewrite map_size_empty in H. unfold MAXIMAGECACHE in H. lia.
  - rewrite (map_size_delete_Some k c) by eauto. unfold MAXIMAGECACHE in *. lia.
Qed.

(** Most of the handler leaves the cache of images alone. *)
Definition same_cache (s t : Session) : Prop := imageCache t = imageCache s.
#[local] Instance same_cache_refl : Reflexive same_cache.
Proof. intros s. reflexivity. Qed.
#[local] Instance same_cache_trans : Transitive same_cache.
Proof. intros s t u H1 H2. unfold same_cache in *. congruence. Qed.

Lemma same_cache_on_image f : keeps same_cache (on_image f).
Proof.
  unfold on_image. apply keeps_bind; [typeclasses eauto|apply keeps_image; typeclasses eauto|]. intros i.
  apply keeps_bind; [typeclasses eauto|apply keeps_lift; typeclasses eauto|]. intros j. apply keeps_modify. reflexivity.
Qed.

Lemma same_cache_create a t : keeps same_cache (create_image a t).
Proof.
  unfold create_image. destruct (getImageFormat t); [|destruct have_jpeg2000|]; intros s; reflexivity.
Qed.

(** Before the image is stored there is room for it, or it is already there. *)
Definition has_room (argument : string) (s : Session) : Prop :=
  Z.of_nat (base.size (imageCache s)) < MAXIMAGECACHE \/ is_Some (imageCache s !! argument) /\ cache_ok s.

Lemma has_room_ok argument s : has_room argument s -> cache_ok s.
Proof. unfold cache_ok. intros [H|[_ H]]; [lia|exact H]. Qed.

Lemma find_image_room argument s : hash_law -> cache_ok s -> has_room argument (find_image argument s).2 \/
  exists f, (find_image argument s) = (Err f, s).
Proof.
  intros Hh Hs. unfold find_image. rewrite gets_bind. destruct (base.size (imageCache s) =? 0)%nat eqn:E0.
  - apply Nat.eqb_eq in E0. left. destruct (fresh_image argument); left;
    change (Z.of_nat (base.size (imageCache s)) < MAXIMAGECACHE); rewrite E0; reflexivity.
  - destruct (imageCache s !! argument) as [t|] eqn:E.
    + left. right. split; [cbn; eauto|exact Hs].
    + destruct (fresh_image argument) as [t|f]; [|right; exists f; reflexivity].
      left. left. apply make_room_size; assumption.
Qed.

Lemma has_room_same argument s t : same_cache s t -> has_room argument s -> has_room argument t.
Proof. unfold same_cache, has_room, cache_ok. intros ->. auto. Qed.

Lemma has_room_insert argument i s : has_room argument s -> has_room argument (s <| imageCache := <[argument := i]> (imageCache s) |>).
Proof.
  intros H. right. change (imageCache (s <| imageCache := <[argument := i]> (imageCache s) |>)) with (<[argument := i]> (imageCache s)).
  split; [rewrite lookup_insert_eq; eauto|]. unfold cache_ok.
  change (imageCache (s <| imageCache := <[argument := i]> (imageCache s) |>)) with (<[argument := i]> (imageCache s)).
  destruct H as [H|[H1 H2]].
  - rewrite map_size_insert. destruct (_ !! _); unfold id; lia.
  - rewrite map_size_insert_Some by exact H1. exact H2.
Qed.

(** The rest of [open_image], once the image is found. *)
Definition room_kept (argument : string) (s t : Session) : Prop := has_room argument s -> has_room argument t.
#[local] Instance room_kept_refl argument : Reflexive (room_kept argument).
Proof. intros s H. exact H. Qed.
#[local] Instance room_kept_trans argument : Transitive (room_kept argument).
Proof. intros s t u H1 H2 H. apply H2, H1, H. Qed.

Lemma room_kept_same {A} argument (m : M A) : keeps same_cache m -> keeps (room_kept argument) m.
Proof. intros H s Hs. eapply has_room_same; [apply H|exact Hs]. Qed.

Definition cache_kept (s t : Session) : Prop := cache_ok s -> cache_ok t.
#[local] Instance cache_kept_refl : Reflexive cache_kept.
Proof. intros s H. exact H. Qed.
#[local] Instance cache_kept_trans : Transitive cache_kept.
Proof. intros s t u H1 H2 H. apply H2, H1, H. Qed.

Lemma cache_kept_same {A} (m : M A) : keeps same_cache m -> keeps cache_kept m.
Proof. intros H s Hs. unfold cache_ok. rewrite H. exact Hs. Qed.

Lemma same_cache_response f : keeps same_cache (on_response f).
Proof. intros s. reflexivity. Qed.

Lemma open_image_cache argument : hash_law -> keeps cache_kept (open_image argument).
Proof.
  intros Hh s Hs. unfold open_image. destruct (find_image_room argument s Hh Hs) as [H|(f & E)].
  2: { unfold mbind, M_bind. rewrite E. exact Hs. }
  unfold mbind at 1, M_bind at 1. destruct (find_image argument s) as [[[test ts]|f] t]; [|exact (has_room_ok _ _ H)].
  cbn [snd] in H. apply (has_room_ok argument).
  match goal with |- has_room argument (?m t).2 => enough (K : keeps (room_kept argument) m) by exact (K t H) end.
  assert (B : forall {A B} (m : M A) (k : A -> M B), keeps (room_kept argument) m -> (forall a, keeps (room_kept argument) (k a)) ->
              keeps (room_kept argument) (m ≫= k)) by (intros; apply keeps_bind; auto; typeclasses eauto).
  apply B; [apply room_kept_same, same_cache_create|]. intros _.
  apply B; [apply room_kept_same, same_cache_on_image|]. intros _.
  apply B; [apply keeps_image; typeclasses eauto|]. intros i.
  apply B; [apply keeps_when; [typeclasses eauto|apply room_kept_same, same_cache_on_image]|]. intros _.
  apply B; [apply keeps_image; typeclasses eauto|]. intros j.
  apply B; [intros u Hu; apply has_room_insert, Hu|]. intros _.
  apply B; [apply room_kept_same, same_cache_response|]. intros _.
  apply B; [apply keeps_gets; typeclasses eauto|]. intros l.
  apply keeps_when; [typeclasses eauto|].
  apply B; [apply keeps_lift; typeclasses eauto|]. intros _.
  apply B; [apply keeps_lift; typeclasses eauto|]. intros _.
  apply keeps_ret. typeclasses eauto.
Qed.

Lemma FIF_cache src : hash_law -> keeps cache_kept (FIF_run src).
Proof.
  intros Hh. unfold FIF_run. destruct (decode (new_URL src)) as [argument u].
  apply keeps_bind; [typeclasses eauto|apply keeps_lift; typeclasses eauto|]. intros path.
  apply keeps_bind; [typeclasses eauto| |].
  { apply keeps_try; [typeclasses eauto|apply open_image_cache, Hh|]. intros [] k Hk; try discriminate Hk. injection Hk as <-.
    apply cache_kept_same. apply keeps_bind; [typeclasses eauto|apply same_cache_response|]. intros _. apply keeps_lift. typeclasses eauto. }
  intros _. apply keeps_bind; [typeclasses eauto| |intros _; apply cache_kept_same; intros s; reflexivity].
  unfold check_modified. apply cache_kept_same. apply keeps_bind; [typeclasses eauto|apply keeps_gets; typeclasses eauto|].
  intros h. destruct (_ !! _); [|apply keeps_ret; typeclasses eauto].
  apply keeps_bind; [typeclasses eauto|apply keeps_image; typeclasses eauto|]. intros i.
  destruct (_ <=? _); [apply keeps_lift|apply keeps_ret]; typeclasses eauto.
Qed.

(** What a successful [open_image] leaves: the image that was opened, in the
    session and in the cache. *)
Lemma on_image_ok f s s' : on_image f s = (Ok tt, s') ->
  exists i j, image s = Some i /\ f i = Ok j /\ s' = s <| image := Some j |>.
Proof.
  unfold on_image. intros (i & t & Hi & H)%M_bind_ok. unfold the_image in Hi. destruct (image s) as [i'|] eqn:E; [|discriminate].
  injection Hi as -> <-. rewrite lift_bind in H. destruct (f i) as [j|f'] eqn:F; [|discriminate].
  injection H as <-. eauto.
Qed.

Lemma the_image_ok s i s' : the_image s = (Ok i, s') -> s' = s /\ image s = Some i.
Proof. unfold the_image. destruct (image s); [|discriminate]. intros [= <- <-]. auto. Qed.

Lemma open_image_ok argument s s' : open_image argument s = (Ok tt, s') ->
  exists i, image s' = Some i /\ imageCache s' !! argument = Some i
    /\ response s' = setLastModified (getTimestamp i) (response s) /\ headers s' = headers s.
Proof.
  unfold open_image. intros ([test ts] & s1 & H1 & H)%M_bind_ok.
  assert (F1 : response s1 = response s /\ headers s1 = headers s).
  { revert H1. unfold find_image. rewrite gets_bind. destruct (_ =? _)%nat; [|destruct (_ !! _)].
    - rewrite lift_bind. destruct (fresh_image argument); [|discriminate]. intros [= _ _ <-]. auto.
    - intros [= _ _ <-]. auto.
    - rewrite lift_bind. destruct (fresh_image argument); [|discriminate]. intros [= _ _ <-]. auto. }
  apply M_bind_ok in H as ([] & s2 & H2 & H).
  assert (F2 : response s2 = response s1 /\ headers s2 = headers s1).
  { revert H2. unfold create_image. destruct (getImageFormat test); [|destruct have_jpeg2000|]; intros [= <-]; auto. }
  apply M_bind_ok in H as ([] & s3 & H3 & H). apply on_image_ok in H3 as (i3 & j3 & _ & _ & ->).
  apply M_bind_ok in H as (i & s4 & H4 & H). apply the_image_ok in H4 as [-> _].
  apply M_bind_ok in H as ([] & s5 & H5 & H).
  assert (F5 : response s5 = response s2 /\ headers s5 = headers s2).
  { revert H5. unfold when. destruct (_ && _); [intros (? & ? & _ & _ & ->)%on_image_ok; auto|intros [= <-]; auto]. }
  apply M_bind_ok in H as (j & s6 & H6 & H). apply the_image_ok in H6 as [-> Hj].
  rewrite modify_bind in H. unfold on_response in H. rewrite modify_bind, gets_bind in H.
  assert (E : s' = (s5 <| imageCache := <[argument := j]> (imageCache s5) |>) <| response := setLastModified (getTimestamp j) (response s5) |>).
  { revert H. unfold when. destruct (_ <=? _); [|intros [= <-]; reflexivity].
    rewrite lift_bind. destruct (getImageWidth j 0); [|discriminate]. rewrite lift_bind.
    destruct (getImageHeight j 0); [|discriminate]. intros [= <-]. reflexivity. }
  exists j. subst s'. split_and!; [exact Hj|apply lookup_insert_eq| |].
  - change (setLastModified (getTimestamp j) (response s5) = setLastModified (getTimestamp j) (response s)). intuition congruence.
  - change (headers s5 = headers s). intuition congruence.
Qed.
End Cache.

(** ** Properties *)

(** C17. For every path a client sends, the loop that removes ["../"] ends; what
    it leaves has no directory [".."], so it names nothing above the
    configured prefix; and a path without ["../"] is not changed. *)
Theorem filter_confines (argument : string) :
  slen argument < 2 ^ 32 - 1 ->
  exists path, filter_path argument = Ok path /\ (forall a b, path <> a +:+ "../" +:+ b)
    /\ (".." ∉ removelast (fields "/" path)) /\ (sfind "../" argument = None -> path = argument).
Proof.
  intros Hl. destruct (filter_loop_spec (String.length argument) argument Hl ltac:(lia)) as (t & E & H1 & H2 & _).
  exists t. pose proof (proj1 (sfind_None _ _) H1) as H. split_and!; [exact E|exact H| |exact H2].
  intros Hin. apply (parent_component (String.length t) t ltac:(lia)) in Hin as (a & b & G). exact (H a b G).
Qed.

Lemma filter_confines_witness :
  exists path, filter_path "a/....//../b" = Ok path /\ (forall a b, path <> a +:+ "../" +:+ b)
    /\ (".." ∉ removelast (fields "/" path)) /\ (sfind "../" "a/....//../b" = None -> path = "a/....//../b").
Proof. apply (filter_confines "a/....//../b"). vm_compute. reflexivity. Defined.

(** The cache of images never has more than its maximum of elements, however
    a request for an image ends. *)
Theorem image_cache_bounded {P : Platform} (src : string) (s : Session) :
  hash_law -> Z.of_nat (base.size (imageCache s)) <= MAXIMAGECACHE ->
  Z.of_nat (base.size (imageCache (FIF_run src s).2)) <= MAXIMAGECACHE.
Proof. intros Hh Hs. exact (FIF_cache src Hh s Hs). Qed.

Lemma image_cache_bounded_witness :
  Z.of_nat (base.size (imageCache (FIF_run "demo.tif" demo_session).2)) <= MAXIMAGECACHE.
Proof. apply (image_cache_bounded "demo.tif" demo_session demo_hash). vm_compute. congruence. Defined.

(** A request for an image that succeeds leaves that image as the current
    one and in the cache, under its decoded and filtered path, with its date in
    the response and the default angles; a conditional request succeeds only if
    the image is younger than the date it names. *)
Theorem fif_opens {P : Platform} (src : string) (s s' : Session) :
  FIF_run src s = (Ok tt, s') ->
  exists path i, filter_path (decode (new_URL src)).1 = Ok path
    /\ image s' = Some i /\ imageCache s' !! path = Some i
    /\ modified (response s') = "Last-Modified: " +:+ getTimestamp i
    /\ xangle (view s') = 0 /\ yangle (view s') = 90
    /\ (forall date, headers s !! "HTTP_IF_MODIFIED_SINCE" = Some date -> parse_date (c_str date) < IIPImage.timestamp i).
Proof.
  unfold FIF_run. destruct (decode (new_URL src)) as [argument u]. rewrite lift_bind.
  destruct (filter_path argument) as [path|] eqn:Ef; [|discriminate].
  intros ([] & s1 & H1 & H)%M_bind_ok.
  assert (H1' : open_image path s = (Ok tt, s1)).
  { revert H1. unfold try_catch. destruct (open_image path s) as [[[]|[e|w|]] t]; try (intros [= <-]; reflexivity); try discriminate.
    unfold on_file_error. destruct e; try discriminate. }
  apply open_image_ok in H1' as (i & Hi & Hc & Hr & Hh).
  apply M_bind_ok in H as ([] & s2 & H2 & H). injection H as <-.
  assert (H2' : s2 = s1 /\ forall date, headers s !! "HTTP_IF_MODIFIED_SINCE" = Some date -> parse_date (c_str date) < IIPImage.timestamp i).
  { revert H2. unfold check_modified. rewrite gets_bind, Hh.
    destruct (headers s !! "HTTP_IF_MODIFIED_SINCE") as [date|]; [|intros [= <-]; split; [reflexivity|discriminate]].
    rewrite (M_bind_val the_image _ s1 i s1) by (unfold the_image; rewrite Hi; reflexivity).
    destruct (Z.leb_spec (IIPImage.timestamp i) (parse_date (c_str date))); [discriminate|].
    intros [= <-]. split; [reflexivity|]. intros d [= <-]. assumption. }
  destruct H2' as [-> Hd]. exists path, i. split_and!; [exact Ef|exact Hi|exact Hc| |reflexivity|reflexivity|exact Hd].
  transitivity (modified (response s1)); [reflexivity|]. rewrite Hr. reflexivity.
Qed.

Definition conditional : Session := demo_session <| headers := {["HTTP_IF_MODIFIED_SINCE" := "x"]} |>.

Lemma fif_opens_witness :
  let s' := (FIF_run "dem%6f.tif" conditional).2 in
  exists path i, filter_path (decode (new_URL "dem%6f.tif")).1 = Ok path
    /\ image s' = Some i /\ imageCache s' !! path = Some i
    /\ modified (response s') = "Last-Modified: " +:+ getTimestamp i
    /\ xangle (view s') = 0 /\ yangle (view s') = 90
    /\ (forall date, headers conditional !! "HTTP_IF_MODIFIED_SINCE" = Some date -> parse_date (c_str date) < IIPImage.timestamp i).
Proof. apply (fif_opens "dem%6f.tif" conditional (FIF_run "dem%6f.tif" conditional).2). vm_compute. reflexivity. Defined.
