(* ===== verification/JTL.v ===== *)
(** * Sending a tile (src/src/JTL.cc; JTL::run, JTLS::run and PTL of Task.cc and Task.h)

    [send] is the whole of [JTL::send]: the tile comes from the tile manager,
    encoded already when nothing has to be done to its pixels, and goes through
    the steps the view asks for, in their order, before it is encoded and
    written after an HTTP header.  The steps that work on [float] samples are
    [float_steps], the ones on bytes [byte_steps]. *)
From stdpp Require Import base gmap strings list numbers.
From Stdlib Require Import ZArith Lia Ascii.
From coqutil Require Import Datatypes.RecordSetters.
From S2P Require Import Prelude CString CFloat View IIPImage RawTile Transforms ColourTransforms Histogram.
From S2P Require Import Watermark TileManager Compressors IIPResponse Session Demo Task.
Import TriangleBracketNotations.
#[local] Open Scope string_scope.
#[local] Open Scope list_scope.
#[local] Open Scope Z_scope.

Section JTL.
Context {P : Platform}.

(** ** The encoder of the output format *)

Inductive encoder := JPEG_encoder | PNG_encoder.

Definition choose_encoder (v : View) : encoder :=
  match output_format v with
  | JPEG => JPEG_encoder
  | PNG => if have_png then PNG_encoder else JPEG_encoder
  | _ => JPEG_encoder
  end.

(** The [Compressor] with its present settings. *)
Definition compressor_of (e : encoder) (s : Session) : Compressor :=
  match e with
  | JPEG_encoder => JPEGCompressor junk (lib := jpeg_lib) (jpeg s)
  | PNG_encoder => PNGCompressor junk VERSION (lib := png_lib) (png s)
  end.

Definition on_settings (e : encoder) (f : CompressorState -> CompressorState) : M unit :=
  modify (fun s => match e with
                   | JPEG_encoder => s <| jpeg := f (jpeg s) |>
                   | PNG_encoder => s <| png := f (png s) |>
                   end).

(** [tilemanager.getTile( .. )] for the current image. *)
Definition get_tile (e : encoder) (resolution tile xangle yangle layers : Z) (ct : CompressionType) : M RawTile :=
  i ← the_image;
  s ← gets (fun s => s);
  on_tiles (TileManager.getTile capacity tileSize junk rand (codec := codec_of (getImageFormat i))
              (compressor := compressor_of e s) i (Some (watermark s)) resolution tile xangle yangle layers ct).

(** ** Before the tile *)

(** The index of the tile in an image turned by 180 degrees. *)
Definition turned_tile (i : IIPImage) (resolution tile : Z) : res Z :=
  im_width ← rd (image_widths i) (i32 (i32 (getNumResolutions i) - resolution - 1));
  im_height ← rd (image_heights i) (i32 (i32 (getNumResolutions i) - resolution - 1));
  let tw := getTileWidth i in
  nx ← to_i32 (fceil b64 (fdiv b64 (of_Z b64 im_width) (of_Z b64 tw)));
  ny ← to_i32 (fceil b64 (fdiv b64 (of_Z b64 im_height) (of_Z b64 tw)));
  Ok (i32 (i32 (nx * ny) - tile - 1)).

(** The histogram of the image, from its smallest tile, if it is needed and not
    known yet; it goes into the cache of images too. *)
Definition compute_histogram (e : encoder) : M unit :=
  v ← gets view;
  i ← the_image;
  thumbnail ← get_tile e 0 0 0 (yangle v) (getLayers v) UNCOMPRESSED;
  '(h, _) ← lift (histogram junk thumbnail (IIPImage.max i) (IIPImage.min i));
  _ ← on_image (fun i => Ok (i <| IIPImage.histogram := h |>));
  modify (fun s => s <| imageCache := alter (fun c => c <| IIPImage.histogram := h |>) (getImagePath i) (imageCache s) |>).

Definition prepare_histogram (e : encoder) : M unit :=
  v ← gets view;
  i ← the_image;
  when (requireHistogram v && (length (IIPImage.histogram i) =? 0)%nat) (compute_histogram e).

(** Whether the pixels themselves are needed. *)
Definition needs_pixels (v : View) (i : IIPImage) : bool :=
  (8 <? getNumBitsPerPixel i) || bool_decide (getColourSpace i = CIELAB)
  || (getNumChannels i =? 2) || (3 <? getNumChannels i)
  || ((bool_decide (View.colourspace v = GREYSCALE) || bool_decide (View.colourspace v = BINARY))
      && (getNumChannels i =? 3) && (getNumBitsPerPixel i =? 8))
  || floatProcessing v || equalization v
  || fne (getRotation v) (FZero false) || negb (View.flip v =? 0).

(** The physical resolution of a level. *)
Definition set_dpi (e : encoder) (resolution : Z) : M unit :=
  i ← the_image;
  let n := i32 (i32 (getNumResolutions i) - resolution - 1) in
  im_width ← lift (rd (image_widths i) n);
  im_height ← lift (rd (image_heights i) n);
  w ← lift (getImageWidth i 0);
  h ← lift (getImageHeight i 0);
  on_settings e (setResolution (fdiv b32 (fmul b32 (dpi_x i) (of_Z b32 im_width)) (of_Z b32 w))
                               (fdiv b32 (fmul b32 (dpi_y i) (of_Z b32 im_height)) (of_Z b32 h)) (dpi_units i)).

Definition embed_profile (e : encoder) : M unit :=
  v ← gets view;
  when (embedICC v)
    (icc ← metadata_of "icc";
     when (0 <? slen icc) (on_settings e (setICCProfile icc))).

(** ** The pixels *)

(** The last bin that is not empty: the search goes down from the end. *)
Definition last_bin (h : list Z) : res Z :=
  n ← first_bin (rev h) 0; Ok (Z.of_nat (length h) - 1 - n).

(** The range of a contrast stretch, in the samples' own depth. *)
Definition stretch_range (t : RawTile) (h : list Z) : res (Z * Z) :=
  n0 ← first_bin h 0;
  n1 ← last_bin h;
  if (8 <? RawTile.bpc t) && bool_decide (RawTile.sampleType t = FIXEDPOINT) then
    Ok (u32 (Z.shiftl n0 (RawTile.bpc t - 8)), u32 (Z.shiftl n1 (RawTile.bpc t - 8)))
  else Ok (n0, n1).

(** The ranges normalisation uses, and the contrast afterwards. *)
Definition contrast_ranges (v : View) (i : IIPImage) (t : RawTile) : res (list float * list float * float) :=
  if feq (View.contrast v) minus_one then
    '(n0, n1) ← stretch_range t (IIPImage.histogram i);
    Ok (replicate (Z.to_nat (RawTile.bpc t)) (of_Z b32 n1), replicate (Z.to_nat (RawTile.bpc t)) (of_Z b32 n0), f1)
  else Ok (IIPImage.max i, IIPImage.min i, View.contrast v).

(** The steps on [float] samples, from normalisation to the conversion back to
    bytes with contrast [c]. *)
Definition float_steps (v : View) (max min : list float) (c : float) (t : RawTile) : res RawTile :=
  t ← normalize junk t max min;
  t ← (if shaded v then
         h ← rd (View.shade v) 0; a ← rd (View.shade v) 1;
         ColourTransforms.shade junk cosf sinf t h a
       else Ok t);
  t ← (if negb (length (ctw v) =? 0)%nat then twist junk t (ctw v) else Ok t);
  t ← (if fne (View.gamma v) f1 then
         if feq (View.gamma v) minus_one then log logf t else ColourTransforms.gamma powf t (View.gamma v)
       else Ok t);
  t ← (if inverted v then inv t else Ok t);
  t ← (if cmapped v then ColourTransforms.cmap junk t (View.cmap v) else Ok t);
  ColourTransforms.contrast junk t c.

(** The reduction to the channels the output format can hold. *)
Definition reduce_bands (v : View) (t : RawTile) : res RawTile :=
  if (bool_decide (output_format v = JPEG) && ((RawTile.channels t =? 2) || (3 <? RawTile.channels t)))
     || (bool_decide (output_format v = PNG) && (4 <? RawTile.channels t))
  then flatten t (if RawTile.channels t =? 2 then 1 else 3)
  else Ok t.

(** The steps on bytes. *)
Definition byte_steps (v : View) (i : IIPImage) (t : RawTile) : res RawTile :=
  t ← reduce_bands v t;
  t ← (if bool_decide (getColourSpace i = sRGB) && bool_decide (View.colourspace v = GREYSCALE)
       then greyscale junk t else Ok t);
  t ← (if negb (bool_decide (getColourSpace i = BINARY)) && bool_decide (View.colourspace v = BINARY) then
         threshold ← threshold (IIPImage.histogram i); binary junk t threshold
       else Ok t);
  t ← (if equalization v then equalize t (IIPImage.histogram i) else Ok t);
  t ← (if negb (View.flip v =? 0) then Transforms.flip junk t (View.flip v) else Ok t);
  if fne (getRotation v) (FZero false) then rotate junk t (getRotation v) else Ok t.

(** Everything between the tile manager and the encoder: the tile, and the
    contrast the view is left with. *)
Definition process (v : View) (i : IIPImage) (t : RawTile) : res (RawTile * float) :=
  t ← (if bool_decide (getColourSpace i = CIELAB) then LAB2sRGB pow t else Ok t);
  '(t, c) ← (if (8 <? RawTile.bpc t) || floatProcessing v then
               '(max, min, c) ← contrast_ranges v i t;
               t ← float_steps v max min c t;
               Ok (t, c)
             else Ok (t, View.contrast v));
  t ← byte_steps v i t;
  Ok (t, c).

(** ** [send] *)

(** The data of a tile as a message of [len] bytes. *)
Definition put_tile (t : RawTile) (len : Z) : M unit :=
  b ← lift (tile_bytes t);
  putStr b len.

Definition send (resolution tile : Z) : M unit :=
  _ ← checkImage "";
  v ← gets view;
  i ← the_image;
  r ← lift (to_i32 (getRotation v));
  tile ← lift (if Z.rem r 360 =? 180 then turned_tile i resolution tile else Ok tile);
  if (resolution <? 0) || (tile <? 0) then
    throwM (ExnString ("JTL :: Invalid resolution/tile number: " +:+ dec resolution +:+ "," +:+ dec tile))
  else
    let e := choose_encoder v in
    _ ← prepare_histogram e;
    i ← the_image;
    let ct := if needs_pixels v i then UNCOMPRESSED else output_format v in
    _ ← set_dpi e resolution;
    _ ← embed_profile e;
    rawtile ← get_tile e resolution tile (xangle v) (yangle v) (getLayers v) ct;
    i ← the_image;
    '(rawtile, c) ← lift (process v i rawtile);
    _ ← on_view (fun v => v <| View.contrast := c |>);
    s ← gets (fun s => s);
    let compressor := compressor_of e s in
    '(len, rawtile) ← lift (if bool_decide (compressionType rawtile = UNCOMPRESSED) then
                             '(len, t) ← Compress rawtile; Ok (i32 len, t)
                           else Ok (i32 (RawTile.dataLength rawtile), rawtile));
    _ ← put_stream (createHTTPHeader VERSION getMimeType (getTimestamp i) (u32 len) (response s));
    _ ← put_tile rawtile len;
    _ ← flush;
    on_response setImageSent.

(** ** The commands *)

(** JTL::run (Task.cc) *)
Definition JTL_run (argument : string) : M unit :=
  '(a, b) ← lift (cut_at "," argument);
  send (atoi a) (atoi b).

(** PTL::run (Task.h) *)
Definition PTL_run (argument : string) : M unit :=
  _ ← on_view (fun v => v <| output_format := PNG |>);
  JTL_run argument.

(** JTLS::run (Task.cc) *)
Definition JTLS_run (argument : string) : M unit :=
  values ← lift (read_values 4 argument);
  match atoi <$> values with
  | [x; r; n; y] =>
      _ ← on_view (fun v => v <| xangle := x |> <| yangle := y |>);
      send r n
  | _ => mret tt
  end.
End JTL.

(** ** Lemmas *)

(** *** Depth and channels through the steps *)

Section Shapes.
Context {P : Platform}.

Lemma write_data_shape t b : RawTile.bpc (write_data t b) = RawTile.bpc t /\ RawTile.channels (write_data t b) = RawTile.channels t.
Proof. unfold write_data. destruct (RawTile.data t); split; reflexivity. Qed.

Lemma LAB2sRGB_shape t t' : LAB2sRGB pow t = Ok t' -> RawTile.bpc t' = RawTile.bpc t /\ RawTile.channels t' = RawTile.channels t.
Proof. unfold LAB2sRGB. intros (ns & _ & (d & _ & [= <-])%bind_ok)%bind_ok. apply write_data_shape. Qed.

Lemma normalize_channels t mx mn t' : normalize junk t mx mn = Ok t' -> RawTile.channels t' = RawTile.channels t.
Proof. unfold normalize. intros (np & _ & (d & _ & [= <-])%bind_ok)%bind_ok. reflexivity. Qed.

Lemma shade_channels t h a t' : ColourTransforms.shade junk cosf sinf t h a = Ok t' -> RawTile.channels t' = 1.
Proof. unfold ColourTransforms.shade. intros (np & _ & (d & _ & [= <-])%bind_ok)%bind_ok. reflexivity. Qed.

Lemma twist_channels t m t' : twist junk t m = Ok t' -> RawTile.channels t' = RawTile.channels t.
Proof. unfold twist. intros ([d p] & _ & [= <-])%bind_ok. apply write_data_shape. Qed.

Lemma log_channels t t' : log logf t = Ok t' -> RawTile.channels t' = RawTile.channels t.
Proof. unfold log. intros (b & _ & [= <-])%bind_ok. apply write_data_shape. Qed.

Lemma gamma_channels t g t' : ColourTransforms.gamma powf t g = Ok t' -> RawTile.channels t' = RawTile.channels t.
Proof.
  unfold ColourTransforms.gamma. destruct (feq _ _); [intros [= <-]; reflexivity|].
  intros (b & _ & [= <-])%bind_ok. apply write_data_shape.
Qed.

Lemma inv_channels t t' : inv t = Ok t' -> RawTile.channels t' = RawTile.channels t.
Proof. unfold inv. intros (np & _ & (b & _ & [= <-])%bind_ok)%bind_ok. apply write_data_shape. Qed.

Lemma cmap_channels t c t' : ColourTransforms.cmap junk t c = Ok t' -> RawTile.channels t' = 3.
Proof. unfold ColourTransforms.cmap. intros (np & _ & (ns & _ & ([d n] & _ & [= <-])%bind_ok)%bind_ok)%bind_ok. reflexivity. Qed.

Lemma contrast_shape t c t' : ColourTransforms.contrast junk t c = Ok t' -> RawTile.bpc t' = 8 /\ RawTile.channels t' = RawTile.channels t.
Proof. unfold ColourTransforms.contrast. intros (b & _ & [= <-])%bind_ok. split; reflexivity. Qed.

(** The channels of the output are those of the input, or one, or three. *)
Definition same_or_display (a b : Z) : Prop := b = a \/ b = 1 \/ b = 3.

Lemma optional_step (b : bool) (f : RawTile -> res RawTile) t t' c :
  (if b then f t else Ok t) = Ok t' -> same_or_display c (RawTile.channels t) ->
  (f t = Ok t' -> RawTile.channels t' = RawTile.channels t \/ RawTile.channels t' = 1 \/ RawTile.channels t' = 3) ->
  same_or_display c (RawTile.channels t').
Proof.
  unfold same_or_display. destruct b; [|intros [= <-]; tauto]. intros H Hc Hf.
  destruct (Hf H) as [->|[->| ->]]; tauto.
Qed.

Lemma float_steps_shape v mx mn c t t' :
  float_steps v mx mn c t = Ok t' -> RawTile.bpc t' = 8 /\ same_or_display (RawTile.channels t) (RawTile.channels t').
Proof.
  unfold float_steps. intros (t1 & H1 & (t2 & H2 & (t3 & H3 & (t4 & H4 & (t5 & H5 & (t6 & H6 & H7)%bind_ok)%bind_ok)%bind_ok)%bind_ok)%bind_ok)%bind_ok.
  assert (C1 : same_or_display (RawTile.channels t) (RawTile.channels t1)) by (left; eapply normalize_channels, H1).
  assert (C2 : same_or_display (RawTile.channels t) (RawTile.channels t2)).
  { refine (optional_step _ (fun t => h ← rd (View.shade v) 0; a ← rd (View.shade v) 1; ColourTransforms.shade junk cosf sinf t h a) _ _ _ H2 C1 _).
    intros (h & _ & (a & _ & Hs)%bind_ok)%bind_ok. eauto using shade_channels. }
  assert (C3 : same_or_display (RawTile.channels t) (RawTile.channels t3))
    by (refine (optional_step _ (fun t => twist junk t (ctw v)) _ _ _ H3 C2 _); eauto using twist_channels).
  assert (C4 : same_or_display (RawTile.channels t) (RawTile.channels t4)).
  { refine (optional_step _ (fun t => if feq (View.gamma v) minus_one then log logf t else ColourTransforms.gamma powf t (View.gamma v)) _ _ _ H4 C3 _).
    destruct (feq (View.gamma v) minus_one); eauto using log_channels, gamma_channels. }
  assert (C5 : same_or_display (RawTile.channels t) (RawTile.channels t5))
    by (refine (optional_step _ inv _ _ _ H5 C4 _); eauto using inv_channels).
  assert (C6 : same_or_display (RawTile.channels t) (RawTile.channels t6))
    by (refine (optional_step _ (fun t => ColourTransforms.cmap junk t (View.cmap v)) _ _ _ H6 C5 _); eauto using cmap_channels).
  destruct (contrast_shape _ _ _ H7) as [-> ->]. split; [reflexivity|exact C6].
Qed.

Lemma flatten_shape t n t' : flatten t n = Ok t' ->
  RawTile.bpc t' = RawTile.bpc t /\ RawTile.channels t' = (if RawTile.channels t <=? n then RawTile.channels t else n).
Proof.
  unfold flatten. destruct (_ <=? _); [intros [= <-]; split; reflexivity|].
  intros ([[b ni] no] & _ & [= <-])%bind_ok. unfold write_data. destruct (RawTile.data t); split; reflexivity.
Qed.

Lemma greyscale_shape t t' : greyscale junk t = Ok t' ->
  RawTile.bpc t' = RawTile.bpc t /\ (RawTile.channels t' = RawTile.channels t \/ RawTile.channels t' = 1).
Proof.
  unfold greyscale. destruct (_ || _); [intros [= <-]; tauto|].
  intros (b & _ & [= <-])%bind_ok. split; [reflexivity|right; reflexivity].
Qed.

Lemma binary_shape t n t' : binary junk t n = Ok t' ->
  RawTile.bpc t' = RawTile.bpc t /\ (RawTile.channels t' = RawTile.channels t \/ RawTile.channels t' = 1).
Proof.
  unfold binary. destruct (negb _); [intros [= <-]; tauto|].
  intros (t1 & H & (b & _ & [= <-])%bind_ok)%bind_ok. destruct (write_data_shape t1 b) as [-> ->].
  apply greyscale_shape, H.
Qed.

Lemma equalize_shape t h t' : equalize t h = Ok t' ->
  RawTile.bpc t' = RawTile.bpc t /\ RawTile.channels t' = RawTile.channels t.
Proof. unfold equalize. intros (cdf & _ & (d & _ & [= <-])%bind_ok)%bind_ok. apply write_data_shape. Qed.

Lemma flip_shape t o t' : Transforms.flip junk t o = Ok t' ->
  RawTile.bpc t' = RawTile.bpc t /\ RawTile.channels t' = RawTile.channels t.
Proof. unfold Transforms.flip. intros (b & _ & [= <-])%bind_ok. split; reflexivity. Qed.

Lemma rotate_shape t a t' : rotate junk t a = Ok t' ->
  RawTile.bpc t' = RawTile.bpc t /\ RawTile.channels t' = RawTile.channels t.
Proof.
  unfold rotate. intros (z & _ & H)%bind_ok. destruct (_ && _); [|injection H as <-; split; reflexivity].
  apply bind_ok in H as (b & _ & H). destruct (_ =? 90); injection H as <-; split; reflexivity.
Qed.
End Shapes.

(** ** Properties *)

(** A byte step keeps the depth, and keeps the channels or leaves one. *)
Lemma byte_steps_shape {P : Platform} v i t t' :
  byte_steps v i t = Ok t' ->
  exists n, reduce_bands v t = Ok n /\ RawTile.bpc t' = RawTile.bpc n
            /\ (RawTile.channels t' = RawTile.channels n \/ RawTile.channels t' = 1).
Proof.
  unfold byte_steps. intros (t1 & H1 & (t2 & H2 & (t3 & H3 & (t4 & H4 & (t5 & H5 & H6)%bind_ok)%bind_ok)%bind_ok)%bind_ok)%bind_ok.
  exists t1. split; [exact H1|].
  assert (S2 : RawTile.bpc t2 = RawTile.bpc t1 /\ (RawTile.channels t2 = RawTile.channels t1 \/ RawTile.channels t2 = 1))
    by (destruct (_ && _) in H2; [apply greyscale_shape, H2|injection H2 as <-; tauto]).
  assert (S3 : RawTile.bpc t3 = RawTile.bpc t2 /\ (RawTile.channels t3 = RawTile.channels t2 \/ RawTile.channels t3 = 1)).
  { destruct (_ && _) in H3; [|injection H3 as <-; tauto]. apply bind_ok in H3 as (th & _ & H3). apply (binary_shape _ _ _ H3). }
  assert (S4 : RawTile.bpc t4 = RawTile.bpc t3 /\ RawTile.channels t4 = RawTile.channels t3)
    by (destruct (equalization v); [apply (equalize_shape _ _ _ H4)|injection H4 as <-; tauto]).
  assert (S5 : RawTile.bpc t5 = RawTile.bpc t4 /\ RawTile.channels t5 = RawTile.channels t4)
    by (destruct (negb _) in H5; [apply (flip_shape _ _ _ H5)|injection H5 as <-; tauto]).
  assert (S6 : RawTile.bpc t' = RawTile.bpc t5 /\ RawTile.channels t' = RawTile.channels t5)
    by (destruct (fne _ _) in H6; [apply (rotate_shape _ _ _ H6)|injection H6 as <-; tauto]).
  destruct S2 as [E2 C2], S3 as [E3 C3], S4 as [E4 C4], S5 as [E5 C5], S6 as [E6 C6].
  split; [congruence|]. rewrite C6, C5, C4. destruct C3 as [-> | ->]; tauto.
Qed.

(** The tile as the byte steps get it. *)
Lemma process_shape {P : Platform} v i t t' c :
  process v i t = Ok (t', c) -> 8 <= RawTile.bpc t ->
  exists n, byte_steps v i n = Ok t' /\ RawTile.bpc n = 8 /\ same_or_display (RawTile.channels t) (RawTile.channels n).
Proof.
  unfold process. intros (t1 & H1 & ([t2 c2] & H2 & (t3 & H3 & [= <- <-])%bind_ok)%bind_ok)%bind_ok Hb.
  assert (S1 : RawTile.bpc t1 = RawTile.bpc t /\ RawTile.channels t1 = RawTile.channels t)
    by (destruct (bool_decide _) in H1; [apply LAB2sRGB_shape, H1|injection H1 as <-; tauto]).
  destruct S1 as [B1 C1]. exists t2. split; [exact H3|]. rewrite <- C1.
  destruct ((8 <? RawTile.bpc t1) || floatProcessing v) eqn:F.
  - apply bind_ok in H2 as ([[mx mn] k] & _ & (t4 & H4 & [= <- <-])%bind_ok). eapply float_steps_shape, H4.
  - injection H2 as <- <-. apply orb_false_elim in F as [F%Z.ltb_ge _]. split; [lia|left; reflexivity].
Qed.

(** C13. The type of the pipeline: whatever steps the view asks for, a tile of
    at least 8 bits per sample that comes out of it has 8, and the number of
    channels that the encoder of the output format takes, so neither encoder
    ever rejects it. *)
Theorem processed_tile_encodable {P : Platform} (v : View) (i : IIPImage) (t t' : RawTile) (c : CFloat.float) :
  process v i t = Ok (t', c) -> 8 <= RawTile.bpc t -> 1 <= RawTile.channels t ->
  (output_format v = JPEG -> check_jpeg t' = Ok tt)
  /\ (output_format v = PNG -> check_png t' = Ok tt /\ RawTile.bpc t' = 8).
Proof.
  intros H Hb Hc. destruct (process_shape v i t t' c H Hb) as (n & Hn & Bn & Cn).
  destruct (byte_steps_shape v i n t' Hn) as (m & Hm & Bm & Cm). unfold reduce_bands in Hm.
  assert (C1 : 1 <= RawTile.channels n) by (unfold same_or_display in Cn; lia).
  unfold check_jpeg, check_png.
  split; intros Hf; rewrite Hf in Hm;
    rewrite ?(bool_decide_eq_true_2 (JPEG = JPEG)), ?(bool_decide_eq_false_2 (JPEG = PNG)),
      ?(bool_decide_eq_true_2 (PNG = PNG)), ?(bool_decide_eq_false_2 (PNG = JPEG)) in Hm by (reflexivity || discriminate);
    cbn [andb orb] in Hm; rewrite ?orb_false_r in Hm.
  - assert (Bm' : RawTile.bpc m = 8 /\ (RawTile.channels m = 1 \/ RawTile.channels m = 3)).
    { destruct (_ || _) eqn:E in Hm.
      - apply flatten_shape in Hm as [-> ->]. split; [exact Bn|].
        apply orb_true_iff in E as [E%Z.eqb_eq|E%Z.ltb_lt]; [rewrite E; left; reflexivity|].
        rewrite (proj2 (Z.eqb_neq _ 2)) by lia. rewrite (proj2 (Z.leb_gt _ 3)) by lia. right. reflexivity.
      - injection Hm as <-. apply orb_false_elim in E as [E1%Z.eqb_neq E2%Z.ltb_ge]. lia. }
    rewrite (proj2 (Z.eqb_eq (RawTile.bpc t') 8)) by lia.
    destruct Cm as [-> | ->]; [|reflexivity]. destruct Bm' as [_ [-> | ->]]; reflexivity.
  - assert (Bm' : RawTile.bpc m = 8 /\ 1 <= RawTile.channels m <= 4).
    { destruct (4 <? _) eqn:E in Hm.
      - apply flatten_shape in Hm as [-> ->]. apply Z.ltb_lt in E. split; [exact Bn|].
        rewrite (proj2 (Z.eqb_neq _ 2)) by lia. rewrite (proj2 (Z.leb_gt _ 3)) by lia. lia.
      - injection Hm as <-. apply Z.ltb_ge in E. lia. }
    split; [|lia]. assert (Ct : 1 <= RawTile.channels t' <= 4) by lia.
    assert (RawTile.channels t' = 1 \/ RawTile.channels t' = 2 \/ RawTile.channels t' = 3 \/ RawTile.channels t' = 4)
      as [-> | [-> | [-> | ->]]] by lia; reflexivity.
Qed.

(** A request for a black and white view of an image with one channel, and the
    JPEG tile it gets. *)
Definition binary_view : View := new_View <| View.colourspace := BINARY |>.
Definition one_channel_image : IIPImage :=
  (new_IIPImage "a.tif") <| IIPImage.channels := 1 |> <| IIPImage.bpc := 8 |> <| IIPImage.colourspace := GREYSCALE |>
    <| IIPImage.histogram := [2; 1; 1] |>.
Definition encoded_tile : RawTile :=
  (new_RawTile 0 0 0 0 2 2 1 8) <| RawTile.data := Some [0xFF; 0xD8; 0x00; 0x01; 0xFF; 0xD9] |>
    <| RawTile.dataLength := 6 |> <| compressionType := JPEG |>.

(** A tile of 2 x 1 pixels with an alpha channel, to be turned by a quarter. *)
Definition alpha_tile : RawTile :=
  (new_RawTile 0 0 0 0 2 1 4 8) <| RawTile.data := Some [1; 2; 3; 9; 4; 5; 6; 9] |> <| RawTile.dataLength := 8 |>.
Definition turned_view : View := setRotation (of_Z b32 90) new_View.

Lemma processed_tile_encodable_witness :
  exists t', process turned_view one_channel_image alpha_tile = Ok (t', f1)
    /\ ((output_format turned_view = JPEG -> check_jpeg t' = Ok tt)
        /\ (output_format turned_view = PNG -> check_png t' = Ok tt /\ RawTile.bpc t' = 8)).
Proof.
  eexists. split; [vm_compute; reflexivity|].
  eapply (processed_tile_encodable turned_view one_channel_image alpha_tile); [vm_compute; reflexivity|vm_compute; discriminate|vm_compute; discriminate].
Defined.

(** C35. A tile is asked for in the format of the output only when no step is
    going to touch it: for the tile of such an image the pipeline is the
    identity, with one exception, the conversion to black and white. *)
Theorem encoded_tile_untouched {P : Platform} (v : View) (i : IIPImage) (t : RawTile) :
  needs_pixels v i = false -> (View.colourspace v <> BINARY \/ getColourSpace i = BINARY) ->
  RawTile.bpc t = getNumBitsPerPixel i -> RawTile.channels t = getNumChannels i ->
  process v i t = Ok (t, View.contrast v).
Proof.
  unfold needs_pixels. rewrite !orb_false_iff.
  intros ((((((((Hb & Hlab) & H2) & H3) & Hgrey) & Hfloat) & Heq) & Hrot) & Hflip) Hbin Ebpc Ech.
  unfold process. rewrite Hlab, bind_ret, Ebpc, Hb, Hfloat. cbn [orb]. rewrite bind_ret.
  unfold byte_steps, reduce_bands. rewrite Ech, H2, H3. cbn [orb andb].
  rewrite (proj2 (Z.ltb_ge 4 (getNumChannels i))), !andb_false_r by (apply Z.ltb_ge in H3; lia).
  cbn [orb]. rewrite bind_ret.
  assert (Hg : (if bool_decide (getColourSpace i = sRGB) && bool_decide (View.colourspace v = GREYSCALE)
                then greyscale junk t else Ok t) = Ok t).
  { destruct (bool_decide (View.colourspace v = GREYSCALE)); [|rewrite andb_false_r; reflexivity].
    cbn [orb andb] in Hgrey. destruct (bool_decide (getColourSpace i = sRGB)); [|reflexivity]. cbn [andb]. unfold greyscale. rewrite Ebpc, Ech.
    destruct (getNumChannels i =? 3), (getNumBitsPerPixel i =? 8); cbn [negb orb andb] in *; congruence. }
  rewrite Hg, bind_ret.
  assert (Hnb : negb (bool_decide (getColourSpace i = BINARY)) && bool_decide (View.colourspace v = BINARY) = false).
  { destruct Hbin as [Hv|Hi]; [rewrite (bool_decide_eq_false_2 _ Hv); apply andb_false_r|].
    rewrite (bool_decide_eq_true_2 _ Hi). reflexivity. }
  rewrite Hnb, bind_ret, Heq, bind_ret, Hflip, bind_ret, Hrot. reflexivity.
Qed.

(** The exception: the black and white view of an image with one channel is
    not among the reasons to ask for pixels, and the first bytes of the encoded
    tile are compared with the threshold and replaced. *)
Theorem binary_thresholds_encoded_tile {P : Platform} :
  needs_pixels binary_view one_channel_image = false
  /\ exists t, process binary_view one_channel_image encoded_tile = Ok (t, f1)
               /\ compressionType t = JPEG /\ RawTile.data t = Some [0xFF; 0xFF; 0xFF; 0xFF; 0xFF; 0xD9].
Proof. split; [reflexivity|]. eexists. split; [vm_compute; reflexivity|]. split; reflexivity. Qed.

Lemma encoded_tile_untouched_witness :
  process new_View one_channel_image encoded_tile = Ok (encoded_tile, f1).
Proof. apply (encoded_tile_untouched new_View one_channel_image encoded_tile); try reflexivity. left. discriminate. Defined.
