(* ===== verification/CVT.v ===== *)
(** * Sending a region (src/src/CVT.cc; CVT::run of Task.cc)

    [send] is the whole of [CVT::send]: the resolution and the region come from
    the view, the region from the tile manager, and after the processing it is
    encoded and written in strips of 128 lines.  The code repeats the
    processing of [JTL::send]; it is translated again here, and
    [cvt_processes_like_jtl] shows that the two are the same. *)
From stdpp Require Import base gmap strings list numbers.
From Stdlib Require Import ZArith Lia Ascii.
From coqutil Require Import Datatypes.RecordSetters.
From S2P Require Import Prelude CString CFloat Environment View IIPImage RawTile Cache Transforms ColourTransforms Histogram.
From S2P Require Import Watermark TileManager Region Compressors Lines IIPResponse Session Demo Task JTL.
Import TriangleBracketNotations.
#[local] Open Scope string_scope.
#[local] Open Scope list_scope.
#[local] Open Scope Z_scope.

Section CVT.
Context {P : Platform}.

(** ** The region and its size *)

(** The region of the view in pixels of the level, cut at the edges: left, top,
    width and height. *)
Definition view_region (v : View) (im_width im_height : Z) : res (Z * Z * Z * Z) :=
  if viewPortSet v then
    view_left ← getViewLeft v;
    view_top ← getViewTop v;
    view_width ← getViewWidth v;
    view_height ← getViewHeight v;
    let view_width := if im_width <? u32 (view_width + view_left) then u32 (im_width - view_left) else view_width in
    let view_height := if im_height <? u32 (view_height + view_top) then u32 (im_height - view_top) else view_height in
    Ok (view_left, view_top, view_width, view_height)
  else Ok (0, 0, im_width, im_height).

Definition limit_upscaling (v : View) (im_width im_height rw rh : Z) : Z * Z :=
  if negb (allow_upscaling v) then (if im_width <? rw then im_width else rw, if im_height <? rh then im_height else rh)
  else (rw, rh).

(** The literal 1.001 is a [double]. *)
Definition keep_aspect (v : View) (vw vh rw rh : Z) : res (Z * Z) :=
  if maintain_aspect v then
    let x := fdiv b32 (of_Z b32 rw) (of_Z b32 vw) in
    let y := fdiv b32 (of_Z b32 rh) (of_Z b32 vh) in
    let ratio := fdiv b32 x y in
    if flt ratio (atof "1.001") then
      h ← to_u32 (fround b32 (fmul b32 x (of_Z b32 vh))); Ok (rw, h)
    else if fgt ratio (atof "1.001") then
      w ← to_u32 (fround b32 (fmul b32 y (of_Z b32 vw))); Ok (w, rh)
    else Ok (rw, rh)
  else Ok (rw, rh).

(** The region and the size of the result. *)
Definition sizes (v : View) (im_width im_height : Z) : res (Z * Z * Z * Z * Z * Z) :=
  '(view_left, view_top, view_width, view_height) ← view_region v im_width im_height;
  rw ← getRequestWidth v;
  rh ← getRequestHeight v;
  let '(rw, rh) := limit_upscaling v im_width im_height rw rh in
  '(rw, rh) ← keep_aspect v view_width view_height rw rh;
  Ok (view_left, view_top, view_width, view_height, rw, rh).

(** ** The HTTP header *)

Definition cvt_header (i : IIPImage) (r : IIPResponse) (mime suffix : string) : res string :=
  let filename := getImagePath i in
  let pos := i32 (u64 (rfind "/" filename + 1)) in
  basename ← substr filename (u64 pos) (u64 (rfind "." filename - pos));
  Ok (snprintf 1024
    ("Server: iipsrv/" +:+ VERSION +:+ crlf +:+ "X-Powered-By: IIPImage" +:+ crlf
     +:+ c_str (getCacheControl r) +:+ crlf
     +:+ "Last-Modified: " +:+ c_str (getTimestamp i) +:+ crlf
     +:+ "Content-Type: " +:+ mime +:+ crlf
     +:+ "Content-Disposition: inline;filename=" +:+ dq +:+ c_str basename +:+ "." +:+ suffix +:+ dq +:+ crlf
     +:+ crlf)).

(** ** The pixels *)

(** The [float] pipeline, if it is needed, and the contrast afterwards. *)
Definition float_pipeline (v : View) (i : IIPImage) (t : RawTile) : res (RawTile * float) :=
  if (8 <? RawTile.bpc t) || floatProcessing v then
    '(max, min, c) ←
      (if feq (View.contrast v) minus_one then
         n0 ← first_bin (IIPImage.histogram i) 0;
         n1 ← last_bin (IIPImage.histogram i);
         let scaled := (8 <? RawTile.bpc t) && bool_decide (RawTile.sampleType t = FIXEDPOINT) in
         let n0 := if scaled then u32 (Z.shiftl n0 (RawTile.bpc t - 8)) else n0 in
         let n1 := if scaled then u32 (Z.shiftl n1 (RawTile.bpc t - 8)) else n1 in
         Ok (replicate (Z.to_nat (RawTile.bpc t)) (of_Z b32 n1), replicate (Z.to_nat (RawTile.bpc t)) (of_Z b32 n0), f1)
       else Ok (IIPImage.max i, IIPImage.min i, View.contrast v));
    t ← normalize junk t max min;
    t ← (if shaded v then
           h ← rd (View.shade v) 0; a ← rd (View.shade v) 1; ColourTransforms.shade junk cosf sinf t h a
         else Ok t);
    t ← (if negb (length (ctw v) =? 0)%nat then twist junk t (ctw v) else Ok t);
    t ← (if fne (View.gamma v) f1 then
           if feq (View.gamma v) minus_one then log logf t else ColourTransforms.gamma powf t (View.gamma v)
         else Ok t);
    t ← (if inverted v then inv t else Ok t);
    t ← (if cmapped v then ColourTransforms.cmap junk t (View.cmap v) else Ok t);
    t ← ColourTransforms.contrast junk t c;
    Ok (t, c)
  else Ok (t, View.contrast v).

Definition resample (interpolation vw vh rw rh : Z) (t : RawTile) : res RawTile :=
  if negb (vw =? rw) || negb (vh =? rh) then
    if interpolation =? 0 then interpolate_nearestneighbour junk t rw rh
    else interpolate_bilinear junk t rw rh
  else Ok t.

Definition byte_pipeline (v : View) (i : IIPImage) (t : RawTile) : res RawTile :=
  t ← (if (bool_decide (output_format v = JPEG) && ((RawTile.channels t =? 2) || (3 <? RawTile.channels t)))
          || (bool_decide (output_format v = PNG) && (4 <? RawTile.channels t))
       then flatten t (if RawTile.channels t =? 2 then 1 else 3) else Ok t);
  t ← (if bool_decide (getColourSpace i = sRGB) && bool_decide (View.colourspace v = GREYSCALE)
       then greyscale junk t else Ok t);
  t ← (if negb (bool_decide (getColourSpace i = BINARY)) && bool_decide (View.colourspace v = BINARY) then
         threshold ← threshold (IIPImage.histogram i); binary junk t threshold
       else Ok t);
  t ← (if equalization v then equalize t (IIPImage.histogram i) else Ok t);
  if negb (View.flip v =? 0) then Transforms.flip junk t (View.flip v) else Ok t.

(** Rotation changes the size. *)
Definition turn_region (v : View) (t : RawTile) (rw rh : Z) : res (RawTile * Z * Z) :=
  if fne (getRotation v) (FZero false) then
    t ← rotate junk t (getRotation v); Ok (t, u32 (RawTile.width t), u32 (RawTile.height t))
  else Ok (t, rw, rh).

(** All of it: the image, its size and the contrast. *)
Definition region_process (v : View) (i : IIPImage) (vw vh rw rh : Z) (t : RawTile) : res (RawTile * Z * Z * float) :=
  t ← (if bool_decide (getColourSpace i = CIELAB) then LAB2sRGB pow t else Ok t);
  '(t, c) ← float_pipeline v i t;
  t ← resample (getInterpolation getenv) vw vh rw rh t;
  t ← byte_pipeline v i t;
  '(t, rw, rh) ← turn_region v t rw rh;
  Ok (t, rw, rh, c).

(** ** The encoder *)

(** The physical resolution, if the image has one. *)
Definition set_view_dpi (e : encoder) (im_width im_height : Z) : M unit :=
  i ← the_image;
  when (fgt (dpi_x i) (FZero false) && fgt (dpi_y i) (FZero false))
    (w ← lift (getImageWidth i 0);
     h ← lift (getImageHeight i 0);
     on_settings e (setResolution (fdiv b32 (fmul b32 (dpi_x i) (of_Z b32 im_width)) (of_Z b32 w))
                                  (fdiv b32 (fmul b32 (dpi_y i) (of_Z b32 im_height)) (of_Z b32 h)) (dpi_units i))).

(** Profiles of 64K and more are not embedded. *)
Definition embed_metadata (e : encoder) : M unit :=
  v ← gets view;
  _ ← when (embedICC v)
        (icc ← metadata_of "icc";
         when ((0 <? slen icc) && (slen icc <? 65536)) (on_settings e (setICCProfile icc)));
  xmp ← metadata_of "xmp";
  when (0 <? slen xmp) (on_settings e (setXMPMetadata xmp)).

(** The data of a buffer of the encoder. *)
Definition put_buffer (b : bytes) : M unit := putStr b (blen b).

(** One strip: the lines from [n * strip_height] on. *)
Fixpoint send_strips {compressor : Compressor} (data : bytes) (rw rh channels strips strip_height : Z) (ns : list Z)
    (st : strip_state) : M strip_state :=
  match ns with
  | [] => mret st
  | n :: ns =>
      let input := drop (Z.to_nat (u32 (n * strip_height * rw * channels))) data in
      let strip_height := if (n =? strips - 1) && negb (rh mod strip_height =? 0) then rh mod strip_height else strip_height in
      '(output, st) ← lift (CompressStrip input strip_height st);
      _ ← put_buffer output;
      _ ← flush;
      send_strips data rw rh channels strips strip_height ns st
  end.

(** The image, once the HTTP header is out. *)
Definition send_image {compressor : Compressor} (t : RawTile) (rw rh : Z) : M unit :=
  '(header, st) ← lift (InitCompression t rh);
  _ ← put_buffer header;
  _ ← flush;
  data ← lift (tile_bytes t);
  let strip_height := 128 in
  let strips := i32 (rh / strip_height + (if rh mod strip_height =? 0 then 0 else 1)) in
  st ← send_strips data rw rh (u32 (RawTile.channels t)) strips strip_height (range 0 strips) st;
  output ← lift (Finish st);
  _ ← put_buffer output;
  flush.

(** ** [send] *)

(** [CVT::send] has no other output formats. *)
Definition cvt_encoder (v : View) : option encoder :=
  match output_format v with JPEG => Some JPEG_encoder | PNG => Some PNG_encoder | _ => None end.

(** The resolution of the view, and the size of that level. *)
Definition choose_resolution : M (Z * Z * Z) :=
  i ← the_image;
  im_width ← lift (getImageWidth i 0);
  im_height ← lift (getImageHeight i 0);
  let num_res := i32 (getNumResolutions i) in
  _ ← on_view (fun v => setMaxResolutions (u32 num_res) (setImageSize im_width im_height v));
  v ← gets view;
  '(requested_res, v) ← lift (getResolution v);
  _ ← on_view (fun _ => v);
  im_width ← lift (rd (image_widths i) (i32 (num_res - requested_res - 1)));
  im_height ← lift (rd (image_heights i) (i32 (num_res - requested_res - 1)));
  mret (requested_res, im_width, im_height).

Definition get_region (e : encoder) (requested_res : Z) (x y w h : Z) : M RawTile :=
  i ← the_image;
  v ← gets view;
  s ← gets (fun s => s);
  on_tiles (getRegion capacity tileSize junk rand (codec := codec_of (getImageFormat i))
              (compressor := compressor_of e s) i (Some (watermark s)) (u32 requested_res)
              (xangle v) (yangle v) (getLayers v) x y w h).

Definition send : M unit :=
  _ ← checkImage "";
  v ← gets view;
  match cvt_encoder v with
  | None => mret tt
  | Some e =>
      '(requested_res, im_width, im_height) ← choose_resolution;
      v ← gets view;
      '(view_left, view_top, view_width, view_height, rw, rh) ← lift (sizes v im_width im_height);
      i ← the_image;
      s ← gets (fun s => s);
      str ← lift (cvt_header i (response s) (getMimeType (Compressor := compressor_of e s)) (getSuffix (Compressor := compressor_of e s)));
      _ ← putS str;
      _ ← when (requireHistogram v && (length (IIPImage.histogram i) =? 0)%nat && negb (bool_decide (getColourSpace i = BINARY)))
            (compute_histogram e);
      complete_image ← get_region e requested_res view_left view_top view_width view_height;
      i ← the_image;
      '(complete_image, rw, rh, c) ← lift (region_process v i view_width view_height rw rh complete_image);
      _ ← on_view (fun v => v <| View.contrast := c |>);
      _ ← set_view_dpi e im_width im_height;
      _ ← embed_metadata e;
      s ← gets (fun s => s);
      _ ← send_image (compressor := compressor_of e s) complete_image rw rh;
      on_response setImageSent
  end.

(** CVT::run (Task.cc) *)
Definition CVT_run (src : string) : M unit :=
  let argument := tolower src in
  _ ← on_view (fun v => v <| output_format :=
        if bool_decide (argument = "jpeg") || bool_decide (argument = "jpg") then JPEG
        else if bool_decide (argument = "png") then PNG else JPEG |>);
  send.
End CVT.

(** ** Properties *)

(** C22. The two copies of the processing agree: without resizing, the region
    pipeline of CVT gives the tile, the contrast and the error that the tile
    pipeline of JTL gives, on every input, and the size of the tile when it was
    turned. *)
Theorem cvt_processes_like_jtl {P : Platform} (v : View) (i : IIPImage) (w h : Z) (t : RawTile) :
  region_process v i w h w h t
  = ('(t', c) ← process v i t;
     let turned := fne (getRotation v) (FZero false) in
     Ok (t', if turned then u32 (RawTile.width t') else w, if turned then u32 (RawTile.height t') else h, c)).
Proof.
  unfold region_process, process. rewrite !res_bind_assoc. apply res_bind_ext. intros t1.
  rewrite !res_bind_assoc.
  transitivity ('(t, c) ← float_pipeline v i t1; t' ← byte_steps v i t;
    Ok (t', if fne (getRotation v) (FZero false) then u32 (RawTile.width t') else w,
        if fne (getRotation v) (FZero false) then u32 (RawTile.height t') else h, c)).
  - apply res_bind_ext. intros [t2 c]. unfold resample. rewrite !Z.eqb_refl. cbn [negb orb]. rewrite bind_ret.
    unfold byte_pipeline, byte_steps, reduce_bands, turn_region. rewrite !res_bind_assoc.
    do 5 (apply res_bind_ext; intros ?; rewrite ?res_bind_assoc). destruct (fne _ _); [|reflexivity].
    rewrite res_bind_assoc. apply res_bind_ext. reflexivity.
  - unfold float_pipeline, contrast_ranges, stretch_range, float_steps.
    destruct (_ || floatProcessing v); [|rewrite !bind_ret, res_bind_assoc; reflexivity].
    rewrite !res_bind_assoc. etransitivity; [|refine (f_equal (fun m => m ≫= _) _)].
    + apply res_bind_ext. intros [[mx mn] c]. rewrite !res_bind_assoc.
      do 7 (apply res_bind_ext; intros ?; rewrite ?res_bind_assoc). rewrite !bind_ret, res_bind_assoc. reflexivity.
    + destruct (feq _ minus_one); [|reflexivity]. apply res_bind_ext. intros n0.
      rewrite res_bind_assoc. apply res_bind_ext. intros n1. destruct (_ && _); reflexivity.
Qed.

(** *** Strips *)

Lemma put_buffer_ok b s : put_buffer b s = (Ok tt, s <| out := out s ++ b |>).
Proof.
  unfold put_buffer, putStr, cpy2buf. rewrite (proj2 (Z.leb_le 0 (blen b))), Z.leb_refl by (unfold blen; lia). cbn [andb].
  unfold modify. rewrite take_ge by (unfold blen; lia). reflexivity.
Qed.

Lemma out_app s a b : (s <| out := out s ++ a |>) <| out := out (s <| out := out s ++ a |>) ++ b |> = s <| out := out s ++ a ++ b |>.
Proof. destruct s. cbn. rewrite app_assoc. reflexivity. Qed.

(** Both encoders of a session work line by line. *)
#[export] Instance compressor_lines {P : Platform} (e : encoder) (s : Session) : LineEncoder (compressor_of e s) :=
  match e return LineEncoder (compressor_of e s) with
  | JPEG_encoder => JPEG_lines junk (jpeg s)
  | PNG_encoder => PNG_lines junk VERSION (png s)
  end.

Section Strips.
Context {compressor : Compressor} {by_line : LineEncoder compressor}.
Context (data : bytes) (rw rh ch : Z).
Context (Hsize : 0 < rw /\ 0 < rh < 2 ^ 31 /\ 0 < ch) (Hdata : rh * (rw * ch) <= blen data < 2 ^ 31).

#[local] Abbreviation row := (rw * ch).

Definition strip_count : Z := rh / 128 + (if rh mod 128 =? 0 then 0 else 1).

Lemma strip_bounds k : 0 <= k -> (k < strip_count <-> k * 128 < rh) /\ 0 <= strip_count < 2 ^ 31.
Proof.
  intros Hk. unfold strip_count. pose proof (Z.div_mod rh 128 ltac:(lia)). pose proof (Z.mod_pos_bound rh 128 ltac:(lia)).
  destruct (Z.eqb_spec (rh mod 128) 0); lia.
Qed.

Lemma lines_drop a n : 0 <= a -> 0 <= n -> lines row (drop (Z.to_nat (a * row)) data) 0 n = lines row data a (a + n).
Proof.
  intros Ha Hn. unfold lines. rewrite (range_shift a n), <- list_fmap_compose. apply list_fmap_ext. intros j x Hx.
  apply lookup_range in Hx. unfold compose, slice. rewrite drop_drop. f_equal. f_equal. nia.
Qed.

(** The lines of strip [k]. *)
Definition lines_of_strip (k : Z) : Z := if (k =? strip_count - 1) && negb (rh mod 128 =? 0) then rh mod 128 else 128.

Lemma lines_of_strip_spec k :
  0 <= k < strip_count -> 0 < lines_of_strip k <= 128 /\ k * 128 + lines_of_strip k = Z.min ((k + 1) * 128) rh
  /\ (k + 1 < strip_count -> lines_of_strip k = 128) /\ (k + 1 = strip_count -> k * 128 + lines_of_strip k = rh).
Proof.
  intros Hk. unfold lines_of_strip. unfold strip_count in *.
  pose proof (Z.div_mod rh 128 ltac:(lia)). pose proof (Z.mod_pos_bound rh 128 ltac:(lia)).
  destruct (Z.eqb_spec (rh mod 128) 0); cbn [negb]; rewrite ?andb_false_r, ?andb_true_r;
    destruct (Z.eqb_spec k (rh / 128 + 1 - 1)); lia.
Qed.

(** From the state [l0] of the library on, what it writes for the lines of a strip
    fits into the buffer of the strip: as many bytes as the lines have, and 64K. *)
Definition strips_fit (l0 : library) : Prop :=
  forall k before l o l', 0 <= k -> k * 128 < rh -> let last := Z.min ((k + 1) * 128) rh in
    feed write_line (lines row data 0 (k * 128)) l0 = Ok (before, l) ->
    feed write_line (lines row data (k * 128) last) l = Ok (o, l') -> blen o < (last - k * 128) * row + MX.

Lemma send_strips_spec n k l0 before st o l s :
  (n = Z.to_nat (strip_count - k))%nat -> 0 <= k < strip_count -> strips_fit l0 -> line_size st = row ->
  feed write_line (lines row data 0 (k * 128)) l0 = Ok (before, progress st) ->
  feed write_line (lines row data (k * 128) rh) (progress st) = Ok (o, l) ->
  exists st1, send_strips data rw rh ch strip_count 128 (range k strip_count) st s = (Ok st1, s <| out := out s ++ o |>)
    /\ progress st1 = l /\ MX <= buffer_size st1 < 2 ^ 33.
Proof.
  revert k before st o s. induction n as [|n IH]; intros k before st o s Hn Hk Hfit Hrow H0 Hf; [lia|].
  destruct (lines_of_strip_spec k Hk) as (Hl & Hend & Hfull & Hlast). assert (0 < row) by nia.
  assert (Hkr : k * 128 < rh) by (apply (strip_bounds k); lia).
  rewrite range_cons by lia. cbn [send_strips]. fold (lines_of_strip k).
  rewrite (lines_app row data (k * 128) (k * 128 + lines_of_strip k) rh) in Hf by lia.
  apply feed_app in Hf as (o1 & l1 & o2 & H1 & H2 & ->).
  pose proof (Hfit k before (progress st) o1 l1 ltac:(lia) Hkr H0) as Hroom. cbv zeta in Hroom. rewrite <- Hend in Hroom.
  specialize (Hroom H1). replace (k * 128 + lines_of_strip k - k * 128) with (lines_of_strip k) in Hroom by lia.
  assert (Hidx : u32 (k * 128 * rw * ch) = k * 128 * row).
  { replace (k * 128 * rw * ch) with (k * 128 * row) by ring. apply u32_small. split; nia. }
  assert (Hpart : k * 128 * row + lines_of_strip k * row <= rh * row) by nia.
  rewrite Hidx. destruct (strip_lines (drop (Z.to_nat (k * 128 * row)) data) (lines_of_strip k) st o1 l1) as (st' & -> & P1 & P2 & P3).
  - lia.
  - lia.
  - rewrite Hrow. unfold blen in *. rewrite length_drop. lia.
  - rewrite Hrow. unfold MX. nia.
  - rewrite Hrow, lines_drop by lia. exact H1.
  - rewrite Hrow. exact Hroom.
  - rewrite lift_bind, (M_bind_val _ _ _ _ _ (put_buffer_ok o1 s)). change ((flush ≫= ?k) ?s) with (k tt s). cbv beta.
    destruct (Z.eq_dec (k + 1) strip_count) as [E|E].
    + rewrite E, range_nil by lia. rewrite (Hlast E), lines_nil in H2 by lia.
      injection H2 as <- <-. rewrite app_nil_r. exists st'. split; [reflexivity|]. split; assumption.
    + rewrite (Hfull ltac:(lia)) in H1, H2 |- *. replace (k * 128 + 128) with ((k + 1) * 128) in H1, H2 by lia.
      destruct (IH (k + 1) (before ++ o1) st' o2 (s <| out := out s ++ o1 |>)) as (st1 & -> & Q1 & Q2);
        [lia|lia|exact Hfit|congruence| |rewrite P1; exact H2|].
      * rewrite P1, (lines_app row data 0 (k * 128)) by lia. eapply feed_both; eassumption.
      * exists st1. rewrite out_app. auto.
Qed.
End Strips.

(** C16. Both encoders of the server, JPEG and PNG, get every line of an image of 8
    bits a sample, once and in order, whatever its height, and what their library
    writes for the header, the lines and the end goes to the client, one after the other:
    the strips leave no line out, and the last one ends with the image.  The
    conditions: the library accepts the image ([feed] is what it writes for lines)
    and writes at most 64K more for a strip than the strip has, and less than 64K at the
    end; a stream that does not fit is cut from its buffer ([caller_buffer]). *)
Theorem every_line_sent {P : Platform} (e : encoder) (s0 : Session) (t : RawTile) (rh : Z) (data header body trailer : bytes)
    (st0 : strip_state (Compressor := compressor_of e s0)) (l1 : library) (s : Session) :
  let row := RawTile.width t * RawTile.channels t in
  RawTile.data t = Some data -> RawTile.bpc t = 8 -> 0 < RawTile.width t -> 0 < RawTile.channels t -> 0 < rh < 2 ^ 31 ->
  rh * row <= blen data < 2 ^ 31 ->
  InitCompression (Compressor := compressor_of e s0) t rh = Ok (header, st0) ->
  feed write_line (lines row data 0 rh) (progress st0) = Ok (body, l1) ->
  strips_fit data (RawTile.width t) rh (RawTile.channels t) (progress st0) ->
  write_end l1 = Ok trailer -> blen trailer < MX ->
  send_image (compressor := compressor_of e s0) t (RawTile.width t) rh s
  = (Ok tt, s <| out := out s ++ header ++ body ++ trailer |>).
Proof.
  intros row Hdata Hb Hw Hc Hh Hsz Hinit Hfeed Hfit Hfin Ht. unfold send_image. rewrite Hinit, lift_bind.
  rewrite (M_bind_val _ _ _ _ _ (put_buffer_ok header s)). change ((flush ≫= ?k) ?s) with (k tt s). cbv beta zeta.
  unfold tile_bytes. rewrite Hdata, lift_bind. fold (strip_count rh).
  assert (Hsizes : 0 < RawTile.width t /\ 0 < rh < 2 ^ 31 /\ 0 < RawTile.channels t) by lia.
  assert (Hrow : RawTile.width t * RawTile.channels t < 2 ^ 31) by (unfold row in *; nia).
  assert (Hch : RawTile.channels t < 2 ^ 31) by nia.
  destruct (init_lines t rh header st0 Hinit Hw Hc Hb Hrow) as [Hline _].
  destruct (strip_bounds data (RawTile.width t) rh (RawTile.channels t) Hsizes Hsz 0) as [H0 Hn]; [lia|].
  rewrite i32_small, u32_small by lia.
  destruct (send_strips_spec data (RawTile.width t) rh (RawTile.channels t) Hsizes Hsz _ 0 (progress st0) [] st0 body l1
              (s <| out := out s ++ header |>) eq_refl ltac:(lia) Hfit Hline) as (st1 & E & <- & Hbuf);
    [rewrite lines_nil by lia; reflexivity|exact Hfeed|].
  rewrite (M_bind_val _ _ _ _ _ E).
  rewrite (finish_lines st1 trailer Hbuf Hfin Ht), lift_bind, (M_bind_val _ _ _ _ _ (put_buffer_ok trailer _)).
  rewrite out_app, out_app. reflexivity.
Qed.

(** An image of 130 lines of two bytes, two strips, for the encoders of the small
    platform, which copy their input between two marks. *)
Definition tall_data : bytes := (fun i => i mod 256) <$> range 0 260.
Definition tall_image : RawTile := (new_RawTile 0 0 0 0 2 130 1 8) <| RawTile.data := Some tall_data |> <| RawTile.dataLength := 260 |>.

Definition tall_session : Session :=
  demo_session <| jpeg := setResolution (of_Z b32 72) (of_Z b32 72) 1 (new_JPEGCompressor 75) |>
               <| png := setResolution (of_Z b32 72) (of_Z b32 72) 1 (png_setQuality 1 (new_PNGCompressor 1)) |>.

(** The libraries write no more than they get. *)
Lemma tall_fits e l : strips_fit (by_line := compressor_lines e tall_session) tall_data 2 130 1 l.
Proof.
  intros k before l1 o l' Hk Hkr last _ H. assert (k = 0 \/ k = 1) as [-> | ->] by lia;
    destruct e, l1; vm_compute in H; injection H as <- <-; vm_compute; reflexivity.
Qed.

Lemma every_line_sent_witness :
  (exists header trailer, send_image (compressor := compressor_of JPEG_encoder tall_session) tall_image 2 130 tall_session
     = (Ok tt, tall_session <| out := out tall_session ++ header ++ tall_data ++ trailer |>)
     /\ take 2 header = [0xFF; 0xD8] /\ trailer = [0xFF; 0xD9])
  /\ (exists header trailer, send_image (compressor := compressor_of PNG_encoder tall_session) tall_image 2 130 tall_session
     = (Ok tt, tall_session <| out := out tall_session ++ header ++ tall_data ++ trailer |>)
     /\ header = [0x89; 0x50; 0x4E; 0x47] /\ trailer = [0x49; 0x45; 0x4E; 0x44]).
Proof.
  split; do 2 eexists.
  - split; [eapply (every_line_sent JPEG_encoder tall_session tall_image 130 tall_data _ tall_data _ _ _ tall_session)|];
      [reflexivity|reflexivity|reflexivity|reflexivity|lia|vm_compute; intuition congruence|vm_compute; reflexivity|vm_compute; reflexivity
      |apply (tall_fits JPEG_encoder)|reflexivity|vm_compute; reflexivity|]. split; vm_compute; reflexivity.
  - split; [eapply (every_line_sent PNG_encoder tall_session tall_image 130 tall_data _ tall_data _ _ _ tall_session)|];
      [reflexivity|reflexivity|reflexivity|reflexivity|lia|vm_compute; intuition congruence|vm_compute; reflexivity|vm_compute; reflexivity
      |apply (tall_fits PNG_encoder)|reflexivity|vm_compute; reflexivity|]. split; vm_compute; reflexivity.
Defined.
