(* ===== verification/TIL.v ===== *)
(** * IIP tiles (src/src/TIL.cc)

    [TIL=r,a-b] sends the tiles of the rectangle spanned by the tiles [a] and
    [b] of resolution [r], each with a prefix of the Internet Imaging Protocol. *)
From stdpp Require Import base gmap strings list numbers.
From Stdlib Require Import ZArith Lia Ascii.
From coqutil Require Import Datatypes.RecordSetters.
From S2P Require Import Prelude CString CFloat View IIPImage RawTile TileManager IIPResponse Session Demo Task FIF JTL.
Import TriangleBracketNotations.
#[local] Open Scope string_scope.
#[local] Open Scope list_scope.
#[local] Open Scope Z_scope.

(** ** The argument *)

(** The resolution and the first and last tile. *)
Definition til_argument (argument : string) : res (Z * Z * Z) :=
  '(tmp, argument) ← cut_at "," argument;
  let resolution := atoi tmp in
  '(tmp, argument) ← cut_at "-" argument;
  let start_tile := atoi tmp in
  let end_tile := if negb (empty argument) then atoi argument else start_tile in
  Ok (resolution, start_tile, if end_tile <? start_tile then start_tile else end_tile).

(** ** The rectangle *)

(** [startx, endx, starty, endy]: columns are swapped if need be. *)
Definition til_rectangle (start_tile end_tile ntlx : Z) : res (Z * Z * Z * Z) :=
  if ntlx =? 0 then undef "division by zero"
  else
    let startx := Z.rem start_tile ntlx in
    let starty := Z.quot start_tile ntlx in
    let endx := Z.rem end_tile ntlx in
    let endy := Z.quot end_tile ntlx in
    Ok (if endx <? startx then (endx, startx, starty, endy) else (startx, endx, starty, endy)).

(** The tiles, column by column. *)
Definition til_tiles (startx endx starty endy ntlx : Z) : list Z :=
  range startx (endx + 1) ≫= fun i => (fun j => i32 (i + j * ntlx)) <$> range starty (endy + 1).

(** ** The handler *)

Section TIL.
Context {P : Platform}.

(** The bytes 0 to 3 of [compType]: 2 for 8 bits, 3 for 16. *)
Definition comp_type (bpc : Z) : bytes := [if bpc =? 8 then 0x02 else if bpc =? 16 then 0x03 else 0x00; 0; 0; 0].
Definition comp_sub_type : bytes := [0x00; 0x11; 0x00; 0x00].

Definition send_til_tile (resolution n : Z) : M unit :=
  v ← gets view;
  rawtile ← get_tile JPEG_encoder resolution n (xangle v) (yangle v) (getLayers v) JPEG;
  let len := i32 (RawTile.dataLength rawtile) in
  _ ← putS (snprintf 1024 ("Tile," +:+ dec resolution +:+ "," +:+ dec n +:+ ",0/" +:+ dec (i32 (len + 8)) +:+ ":"));
  _ ← putStr (comp_type (RawTile.bpc rawtile)) 4;
  _ ← putStr comp_sub_type 4;
  _ ← put_tile rawtile len;
  _ ← putS crlf;
  flush.

Definition til_header (i : IIPImage) (r : IIPResponse) : string :=
  snprintf 1024 ("Server: iipsrv/" +:+ VERSION +:+ crlf
    +:+ "Content-Type: application/vnd.netfpx" +:+ crlf
    +:+ "Last-Modified: " +:+ c_str (getTimestamp i) +:+ crlf
    +:+ c_str (getCacheControl r) +:+ crlf +:+ crlf).

Definition TIL_run (a : string) : M unit :=
  _ ← checkImage "";
  '(resolution, start_tile, end_tile) ← lift (til_argument a);
  i ← the_image;
  let num_res := i32 (getNumResolutions i) in
  im_width ← lift (getImageWidth i (i32 (num_res - resolution - 1)));
  im_height ← lift (getImageHeight i (i32 (num_res - resolution - 1)));
  rem_x ← lift (umod im_width (getTileWidth i));
  rem_y ← lift (umod im_height (getTileHeight i));
  let ntlx := i32 (u32 (im_width / getTileWidth i + (if rem_x =? 0 then 0 else 1))) in
  '(startx, endx, starty, endy) ← lift (til_rectangle start_tile end_tile ntlx);
  s ← gets (fun s => s);
  _ ← when ((startx <=? endx) && (starty <=? endy)) (putS (til_header i (response s)));
  _ ← forM (til_tiles startx endx starty endy ntlx) (send_til_tile resolution);
  on_response setImageSent.
End TIL.

(** ** Properties *)

(** The tiles that are sent are those of the rectangle whose corners are the
    first and the last tile, whichever of the two is to the left: each one
    once, and the two corners among them. *)
Theorem til_sends_rectangle (start_tile end_tile ntlx : Z) :
  0 <= start_tile <= end_tile -> 0 < ntlx -> end_tile + ntlx < 2 ^ 31 ->
  exists startx endx starty endy,
    til_rectangle start_tile end_tile ntlx = Ok (startx, endx, starty, endy)
    /\ NoDup (til_tiles startx endx starty endy ntlx)
    /\ start_tile ∈ til_tiles startx endx starty endy ntlx /\ end_tile ∈ til_tiles startx endx starty endy ntlx
    /\ forall n, n ∈ til_tiles startx endx starty endy ntlx <->
         Z.min (start_tile mod ntlx) (end_tile mod ntlx) <= n mod ntlx <= Z.max (start_tile mod ntlx) (end_tile mod ntlx)
         /\ start_tile / ntlx <= n / ntlx <= end_tile / ntlx.
Proof.
  intros Hse Hn Hb. pose proof (Z.mod_pos_bound start_tile ntlx Hn). pose proof (Z.mod_pos_bound end_tile ntlx Hn).
  pose proof (Z.div_le_mono start_tile end_tile ntlx Hn ltac:(lia)) as Hrow.
  pose proof (Z.div_mod end_tile ntlx ltac:(lia)). pose proof (Z.div_mod start_tile ntlx ltac:(lia)).
  assert (0 <= start_tile / ntlx) by (apply Z.div_pos; lia).
  set (lo := Z.min (start_tile mod ntlx) (end_tile mod ntlx)). set (hi := Z.max (start_tile mod ntlx) (end_tile mod ntlx)).
  exists lo, hi, (start_tile / ntlx), (end_tile / ntlx).
  assert (Hrect : til_rectangle start_tile end_tile ntlx = Ok (lo, hi, start_tile / ntlx, end_tile / ntlx)).
  { unfold til_rectangle. rewrite (proj2 (Z.eqb_neq ntlx 0)) by lia.
    rewrite !Z.rem_mod_nonneg, !Z.quot_div_nonneg by lia. unfold lo, hi.
    destruct (Z.ltb_spec (end_tile mod ntlx) (start_tile mod ntlx)); f_equal; f_equal; f_equal; f_equal; lia. }
  assert (Hidx : forall i j, lo <= i <= hi -> start_tile / ntlx <= j <= end_tile / ntlx ->
    i32 (i + j * ntlx) = i + j * ntlx /\ (i + j * ntlx) mod ntlx = i /\ (i + j * ntlx) / ntlx = j).
  { intros i j Hi Hj. split; [apply i32_small; unfold lo, hi in Hi; nia|]. split.
    - rewrite Z.mod_add by lia. apply Z.mod_small. unfold lo, hi in Hi. lia.
    - rewrite Z.div_add by lia. rewrite Z.div_small; unfold lo, hi in Hi; lia. }
  assert (Hin : forall n, n ∈ til_tiles lo hi (start_tile / ntlx) (end_tile / ntlx) ntlx <->
      lo <= n mod ntlx <= hi /\ start_tile / ntlx <= n / ntlx <= end_tile / ntlx).
  { intros n. unfold til_tiles. rewrite list_elem_of_bind. split.
    - intros (i & Hn' & Hi%elem_of_range). apply list_elem_of_fmap in Hn' as (j & -> & Hj%elem_of_range).
      destruct (Hidx i j) as (-> & -> & ->); lia.
    - intros [Hi Hj]. exists (n mod ntlx). split; [|apply elem_of_range; lia]. apply list_elem_of_fmap.
      exists (n / ntlx). split; [|apply elem_of_range; lia]. destruct (Hidx (n mod ntlx) (n / ntlx) Hi Hj) as (-> & _).
      pose proof (Z.div_mod n ntlx ltac:(lia)). lia. }
  split; [exact Hrect|]. split; [|split; [|split; [|exact Hin]]]; [|apply Hin; unfold lo, hi; lia..].
  unfold til_tiles. apply NoDup_bind; [|intros i Hi|apply NoDup_range].
  - intros i i' n Hi%elem_of_range Hi'%elem_of_range (j & -> & Hj%elem_of_range)%list_elem_of_fmap.
    intros (j' & E & Hj'%elem_of_range)%list_elem_of_fmap.
    destruct (Hidx i j) as (E1 & E2 & _); [lia|lia|]. destruct (Hidx i' j') as (E1' & E2' & _); [lia|lia|].
    rewrite E1, E1' in E. rewrite E in E2. congruence.
  - apply elem_of_range in Hi. apply NoDup_fmap_2_strong; [|apply NoDup_range].
    intros j j' Hj%elem_of_range Hj'%elem_of_range E.
    destruct (Hidx i j) as (E1 & _ & E3); [lia|lia|]. destruct (Hidx i j') as (E1' & _ & E3'); [lia|lia|].
    rewrite E1, E1' in E. rewrite E in E3. congruence.
Qed.

Lemma til_sends_rectangle_witness :
  exists startx endx starty endy, til_rectangle 7 12 5 = Ok (startx, endx, starty, endy)
    /\ til_tiles startx endx starty endy 5 = [7; 12] /\ til_rectangle 8 12 5 = Ok (2, 3, 1, 2)
    /\ til_tiles 2 3 1 2 5 = [7; 12; 8; 13] /\ 8 ∈ til_tiles 2 3 1 2 5.
Proof.
  destruct (til_sends_rectangle 8 12 5) as (a & b & c & d & E & _ & H & _); [lia|lia|lia|].
  injection E as <- <- <- <-. do 4 eexists. split; [vm_compute; reflexivity|]. split; [vm_compute; reflexivity|].
  split; [vm_compute; reflexivity|]. split; [vm_compute; reflexivity|]. exact H.
Defined.
