(* ===== verification/Zoomify.v ===== *)
(** * The Zoomify protocol (src/src/Zoomify.cc)

    A request names the image, and [ImageProperties.xml] or a tile as
    [r-x-y.jpg].  The image is opened by the handler of FIF and the tile is sent
    by that of JTL.  Zoomify knows no level smaller than one tile except the
    last: the smaller ones are discarded. *)
From stdpp Require Import base gmap strings list numbers.
From Stdlib Require Import ZArith Lia Ascii.
From coqutil Require Import Datatypes.RecordSetters.
From S2P Require Import Prelude CString CFloat Tokenizer View IIPImage RawTile IIPResponse Session Demo Task FIF JTL.
Import TriangleBracketNotations.
#[local] Open Scope string_scope.
#[local] Open Scope list_scope.
#[local] Open Scope Z_scope.

(** ** The levels *)

(** [(int) ceil( (double) size / tw )] *)
Definition ceil_div (size tw : Z) : res Z := to_i32 (fceil b64 (fdiv b64 (of_Z b64 size) (of_Z b64 tw))).

(** One level of the loop: the number of discarded levels and of tiles. *)
Definition zoomify_level (i : IIPImage) (tw n : Z) (s : Z * Z) : res (Z * Z) :=
  let '(discard, ntiles) := s in
  width ← rd (image_widths i) n;
  height ← rd (image_heights i) n;
  let width := i32 width in
  let height := i32 height in
  if (width <? tw) && (height <? tw) then Ok (u32 (discard + 1), ntiles)
  else
    nx ← ceil_div width tw;
    ny ← ceil_div height tw;
    Ok (discard, u32 (ntiles + i32 (nx * ny))).

(** The levels to discard, and the number of tiles. *)
Definition zoomify_levels (i : IIPImage) : res (Z * Z) :=
  '(discard, ntiles) ← foldM (zoomify_level i (i32 (getTileWidth i))) (range 0 (getNumResolutions i)) (0, 1);
  Ok (if 0 <? discard then discard - 1 else discard, ntiles).

(** ** The request *)

(** The last component of the path, and the path of the image. *)
Definition zoomify_argument (argument : string) : res (string * string) :=
  let slash := find_last_of "/" argument in
  suffix ← substr argument (u64 (slash + 1)) (slen argument);
  prefix ← (if bool_decide (suffix = "ImageProperties.xml") then substr argument 0 slash
            else substr argument 0 (u64 (find "TileGroup" argument - 1)));
  Ok (prefix, suffix).

(** The numbers of a tile; those that are missing are 0. *)
Definition zoomify_tile (suffix : string) : res (Z * Z * Z) :=
  '(values, _) ← take_tokens 3 (mkTokenizer suffix "-");
  let n k := atoi (default "" (values !! k)) in
  Ok (n 0%nat, n 1%nat, n 2%nat).

(** The index of a tile in a level of the image. *)
Definition tile_index (width tw x y : Z) : res Z :=
  rem_x ← umod width tw;
  let ntlx := u32 (width / tw + (if rem_x =? 0 then 0 else 1)) in
  Ok (u32 (y * ntlx + x)).

Section Zoomify.
Context {P : Platform}.

Definition zoomify_properties (width height ntiles tw : Z) : string :=
  "<IMAGE_PROPERTIES " +:+ attr "WIDTH" (dec width) +:+ " " +:+ attr "HEIGHT" (dec height) +:+ " "
  +:+ attr "NUMTILES" (dec ntiles) +:+ " " +:+ attr "NUMIMAGES" "1" +:+ " " +:+ attr "VERSION" "1.8" +:+ " "
  +:+ attr "TILESIZE" (dec tw) +:+ "/>".

Definition Zoomify_run (argument : string) : M unit :=
  '(prefix, suffix) ← lift (zoomify_argument argument);
  _ ← FIF_run prefix;
  i ← the_image;
  width ← lift (getImageWidth i 0);
  height ← lift (getImageHeight i 0);
  let tw := i32 (getTileWidth i) in
  '(discard, ntiles) ← lift (zoomify_levels i);
  if bool_decide (suffix = "ImageProperties.xml") then
    s ← gets (fun s => s);
    _ ← put_stream (createHTTPHeader VERSION "xml" (getTimestamp i) 0 (response s)
                    +:+ zoomify_properties width height ntiles tw);
    on_response setImageSent
  else
    '(resolution, x, y) ← lift (zoomify_tile suffix);
    let resolution := i32 (resolution + discard) in
    width ← lift (getImageWidth i (i32 (getNumResolutions i - resolution - 1)));
    _ ← lift (getImageHeight i (i32 (getNumResolutions i - resolution - 1)));
    tile ← lift (tile_index width (u32 tw) x y);
    JTL.send resolution (i32 tile).
End Zoomify.

(** ** Properties *)

Lemma ceil_div_spec size tw : 0 <= size < 2 ^ 31 -> 0 < tw < 2 ^ 31 -> ceil_div size tw = Ok (ntiles size tw).
Proof.
  intros Hs Ht. unfold ceil_div. rewrite ntiles_ceil by lia.
  destruct (ceil_div_exact b64 size tw b64_ok) as [O E]; [cbn; lia|cbn; lia|].
  assert (R : 0 <= (size + tw - 1) / tw < 2 ^ 31).
  { split; [apply Z.div_pos; lia|]. apply Z.div_lt_upper_bound; nia. }
  apply to_int_within; [|lia|lia].
  apply integral_within; [apply b64_ok|exact O|exact E|cbn; lia|reflexivity].
Qed.

(** The tiles of level [n], counted from the full size down, and of the first
    [m] levels. *)
Definition level_tiles (i : IIPImage) (n : Z) : Z :=
  ntiles (default 0 (image_widths i !! Z.to_nat n)) (getTileWidth i)
  * ntiles (default 0 (image_heights i !! Z.to_nat n)) (getTileWidth i).
Definition tiles_upto (i : IIPImage) (m : Z) : Z := foldr Z.add 0 (level_tiles i <$> range 0 m).

Lemma tiles_upto_snoc i m : 0 <= m -> tiles_upto i (m + 1) = tiles_upto i m + level_tiles i m.
Proof.
  intros Hm. unfold tiles_upto. rewrite (range_snoc 0 (m + 1)), fmap_app by lia. replace (m + 1 - 1) with m by lia.
  induction (range 0 m) as [|x l IH]; cbn [fmap list_fmap foldr app] in *; lia.
Qed.

(** A level smaller than a tile in both directions. *)
Definition small_level (i : IIPImage) (n : Z) : bool :=
  (default 0 (image_widths i !! Z.to_nat n) <? getTileWidth i) && (default 0 (image_heights i !! Z.to_nat n) <? getTileWidth i).

(** A pyramid: the levels [0] to [k - 1] are not small, the others are. *)
Record pyramid (i : IIPImage) (k : Z) : Prop := {
  py_k : 0 <= k <= numResolutions i;
  py_n : numResolutions i = Z.of_nat (length (image_widths i)) /\ numResolutions i = Z.of_nat (length (image_heights i));
  py_n32 : numResolutions i < 2 ^ 31;
  py_tw : 0 < getTileWidth i < 2 ^ 31;
  py_sizes : Forall (fun w => 0 < w < 2 ^ 31) (image_widths i) /\ Forall (fun h => 0 < h < 2 ^ 31) (image_heights i);
  py_small : forall n, 0 <= n < numResolutions i -> small_level i n = (k <=? n);
  py_tiles : tiles_upto i (numResolutions i) < 2 ^ 30;
  py_each : forall n, 0 <= n < numResolutions i -> level_tiles i n < 2 ^ 30
}.

Section Levels.
Context (i : IIPImage) (k : Z) (Hp : pyramid i k).

Lemma level_sizes n :
  0 <= n < numResolutions i ->
  exists w h, rd (image_widths i) n = Ok w /\ rd (image_heights i) n = Ok h /\ 0 < w < 2 ^ 31 /\ 0 < h < 2 ^ 31
    /\ default 0 (image_widths i !! Z.to_nat n) = w /\ default 0 (image_heights i !! Z.to_nat n) = h.
Proof.
  intros Hn. destruct (py_n i k Hp) as [Hw Hh]. destruct (py_sizes i k Hp) as [Sw Sh].
  destruct (rd_in_range (image_widths i) n) as (w & Ew & Lw); [lia|].
  destruct (rd_in_range (image_heights i) n) as (h & Eh & Lh); [lia|].
  exists w, h. rewrite Lw, Lh. rewrite Forall_lookup in Sw, Sh. repeat split; eauto; try apply (Sw _ _ Lw); apply (Sh _ _ Lh).
Qed.

Lemma level_tiles_pos n : 0 <= n < numResolutions i -> 0 < level_tiles i n.
Proof.
  intros Hn. destruct (level_sizes n Hn) as (w & h & _ & _ & Hw & Hh & Dw & Dh). unfold level_tiles. rewrite Dw, Dh.
  pose proof (py_tw i k Hp). apply Z.mul_pos_pos; apply ntiles_pos; lia.
Qed.

Lemma tiles_upto_mono m : 0 <= m <= numResolutions i -> 0 <= tiles_upto i m <= tiles_upto i (numResolutions i).
Proof.
  intros Hm. split.
  - unfold tiles_upto. assert (H : forall n, n ∈ range 0 m -> 0 < level_tiles i n) by (intros n Hn%elem_of_range; apply level_tiles_pos; lia).
    clear -H. induction (range 0 m) as [|x l IH]; cbn [fmap list_fmap foldr]; [lia|].
    specialize (H x (list_elem_of_here _ _)) as Hx. assert (0 <= foldr Z.add 0 (level_tiles i <$> l)) by (apply IH; intros n Hn; apply H, list_elem_of_further, Hn).
    lia.
  - assert (E : forall d : nat, m + Z.of_nat d <= numResolutions i -> tiles_upto i m <= tiles_upto i (m + Z.of_nat d)).
    { induction d as [|d IH]; intros Hd; [rewrite Z.add_0_r; lia|].
      replace (m + Z.of_nat (S d)) with (m + Z.of_nat d + 1) by lia. rewrite tiles_upto_snoc by lia.
      pose proof (level_tiles_pos (m + Z.of_nat d) ltac:(lia)). specialize (IH ltac:(lia)). lia. }
    specialize (E (Z.to_nat (numResolutions i - m)) ltac:(lia)). replace (m + _) with (numResolutions i) in E by lia. exact E.
Qed.

Lemma zoomify_loop :
  foldM (zoomify_level i (i32 (getTileWidth i))) (range 0 (numResolutions i)) (0, 1)
  = Ok (numResolutions i - k, 1 + tiles_upto i k).
Proof.
  pose proof (py_k i k Hp). pose proof (py_n32 i k Hp). pose proof (py_tw i k Hp). pose proof (py_tiles i k Hp).
  destruct (foldM_range (fun m s => s = (Z.max 0 (m - k), 1 + tiles_upto i (Z.min m k)))
    (zoomify_level i (i32 (getTileWidth i))) 0 (numResolutions i) (0, 1)) as (s & E & ->).
  - lia.
  - rewrite Z.max_l, Z.min_l by lia. reflexivity.
  - intros m s Hm ->. unfold zoomify_level. destruct (level_sizes m ltac:(lia)) as (w & h & -> & -> & Hw & Hh & Dw & Dh).
    rewrite !bind_ret, !i32_small by lia.
    pose proof (py_small i k Hp m ltac:(lia)) as Hs. unfold small_level in Hs. rewrite Dw, Dh in Hs. rewrite Hs.
    destruct (Z.leb_spec k m).
    + eexists. split; [reflexivity|]. rewrite u32_small by lia. f_equal; [lia|]. do 2 f_equal. lia.
    + rewrite !ceil_div_spec, !bind_ret by lia. eexists. split; [reflexivity|].
      assert (Hl : ntiles w (getTileWidth i) * ntiles h (getTileWidth i) = level_tiles i m) by (unfold level_tiles; rewrite Dw, Dh; reflexivity).
      pose proof (level_tiles_pos m ltac:(lia)). pose proof (tiles_upto_mono m ltac:(lia)). pose proof (py_each i k Hp m ltac:(lia)).
      rewrite Hl, !Z.min_l, tiles_upto_snoc by lia. rewrite i32_small by lia. rewrite u32_small by lia. f_equal; lia.
  - rewrite E. do 2 f_equal; [lia|]. do 2 f_equal. lia.
Qed.

Lemma small_level_tiles n : 0 <= n < numResolutions i -> k <= n -> level_tiles i n = 1.
Proof.
  intros Hn Hk. pose proof (py_small i k Hp n Hn) as Hs. rewrite (proj2 (Z.leb_le k n) Hk) in Hs.
  unfold small_level in Hs. apply andb_true_iff in Hs as [Hsw%Z.ltb_lt Hsh%Z.ltb_lt].
  destruct (level_sizes n Hn) as (w & h & _ & _ & Hw & Hh & Dw & Dh). unfold level_tiles. rewrite Dw, Dh in *.
  assert (H1 : forall x, 0 < x < getTileWidth i -> ntiles x (getTileWidth i) = 1).
  { intros x Hx. unfold ntiles. rewrite Z.div_small, Z.mod_small by lia. rewrite (proj2 (Z.eqb_neq x 0)) by lia. reflexivity. }
  rewrite !H1 by lia. reflexivity.
Qed.
End Levels.

(** The number of tiles in the properties is that of the levels a Zoomify
    client uses, the discarded ones left out, if the image has a level smaller
    than a tile; if it has none, it is one more. *)
Theorem zoomify_counts_tiles (i : IIPImage) (k : Z) :
  pyramid i k ->
  (k < numResolutions i -> zoomify_levels i = Ok (numResolutions i - k - 1, tiles_upto i (k + 1)))
  /\ (k = numResolutions i -> zoomify_levels i = Ok (0, tiles_upto i (numResolutions i) + 1)).
Proof.
  intros Hp. pose proof (py_k i k Hp). unfold zoomify_levels. change (getNumResolutions i) with (numResolutions i).
  rewrite (zoomify_loop i k Hp), bind_ret. split; intros Hk.
  - rewrite (proj2 (Z.ltb_lt 0 _)) by lia. rewrite tiles_upto_snoc by lia.
    rewrite (small_level_tiles i k Hp k) by lia. do 2 f_equal. lia.
  - rewrite (proj2 (Z.ltb_ge 0 _)) by lia. rewrite Hk. do 2 f_equal; lia.
Qed.

(** 600 x 400 pixels in tiles of 256: the levels of 150 x 100 and 75 x 50 are
    smaller than a tile. *)
Definition zoomify_image : IIPImage :=
  (new_IIPImage "a.tif") <| image_widths := [600; 300; 150; 75] |> <| image_heights := [400; 200; 100; 50] |>
    <| numResolutions := 4 |> <| tile_width := 256 |> <| tile_height := 256 |>.

Lemma zoomify_counts_tiles_witness : zoomify_levels zoomify_image = Ok (1, 9).
Proof.
  destruct (zoomify_counts_tiles zoomify_image 2) as [H _]; [|etransitivity; [apply H; reflexivity|vm_compute; reflexivity]].
  assert (Hcases : forall n, 0 <= n < numResolutions zoomify_image -> n = 0 \/ n = 1 \/ n = 2 \/ n = 3)
    by (change (numResolutions zoomify_image) with 4; lia).
  constructor; [vm_compute; intuition congruence|split; reflexivity|vm_compute; reflexivity|vm_compute; intuition congruence|split; forall_elements ltac:(lia)| |vm_compute; reflexivity|];
    intros n [->|[->|[->| ->]]]%Hcases; vm_compute; reflexivity.
Defined.
