(* ===== verification/DeepZoom.v ===== *)
(** * The DeepZoom protocol (src/src/DeepZoom.cc)

    A request is [<image>.dzi] for the properties or [<image>_files/r/x_y.jpg]
    for a tile.  DeepZoom counts the levels from one pixel up, the image from its
    smallest level. *)
From stdpp Require Import base gmap strings list numbers.
From Stdlib Require Import ZArith Lia Ascii.
From coqutil Require Import Datatypes.RecordSetters.
From S2P Require Import Prelude CString CFloat Tokenizer View IIPImage RawTile IIPResponse Session Demo Task FIF JTL Zoomify.
Import TriangleBracketNotations.
#[local] Open Scope string_scope.
#[local] Open Scope list_scope.
#[local] Open Scope Z_scope.

(** ** Levels *)

(** [(int) ceil( log2( x ) )] of an [unsigned int] as a [double]: libm's [log2]
    is exact for powers of two, and for the other numbers of 32 bits the
    distance to the next integer is far above its error. *)
Definition ceil_log2 (x : Z) : res Z := if x =? 0 then undef "conversion of an infinity" else Ok (Z.log2_up x).

Definition dzi_levels (width height : Z) : res Z := ceil_log2 (if width <? height then height else width).

(** The resolution of the image for a level of DeepZoom. *)
Definition dz_resolution (resolution dzi_res numResolutions : Z) : Z :=
  let resolution := i32 (u32 (u32 (resolution - u32 (dzi_res - numResolutions)) - 1)) in
  let resolution := if resolution <? 0 then 0 else resolution in
  if u32 (numResolutions - 1) <? u32 resolution then i32 (u32 (numResolutions - 1)) else resolution.

(** ** The request *)

(** The path of the image, and the extension. *)
Definition dz_argument (argument : string) : res (string * string) :=
  suffix ← substr argument (u64 (find_last_of "." argument + 1)) (slen argument);
  prefix ← (if bool_decide (suffix = "dzi") then substr argument 0 (u64 (slen argument - 4))
            else substr argument 0 (rfind "_files/" argument));
  Ok (prefix, suffix).

(** The level and the coordinates of a tile; positions are kept in [unsigned int]. *)
Definition dz_tile (argument : string) : res (Z * Z * Z) :=
  let n1 := u32 (find_last_of "/" argument) in
  dir ← substr argument 0 n1;
  let n2 := u32 (u64 (find_last_of "/" dir + 1)) in
  level ← substr argument n2 (u32 (n1 - n2));
  let n := u32 (u64 (find_last_of "." argument - n1 - 1)) in
  suffix ← substr argument (u32 (n1 + 1)) n;
  let n := u32 (find_first_of "_" suffix) in
  x ← substr suffix 0 n;
  y ← substr suffix (u32 (n + 1)) (slen suffix);
  Ok (atoi level, atoi x, atoi y).

Section DeepZoom.
Context {P : Platform}.

Definition dzi_xml (tw width height : Z) : string :=
  "<Image " +:+ attr "xmlns" "http://schemas.microsoft.com/deepzoom/2008" +:+ " "
  +:+ attr "TileSize" (dec tw) +:+ " " +:+ attr "Overlap" "0" +:+ " " +:+ attr "Format" "jpg" +:+ ">"
  +:+ "<Size " +:+ attr "Width" (dec width) +:+ " " +:+ attr "Height" (dec height) +:+ "/></Image>".

Definition DeepZoom_run (argument : string) : M unit :=
  '(prefix, suffix) ← lift (dz_argument argument);
  _ ← FIF_run prefix;
  i ← the_image;
  width ← lift (getImageWidth i 0);
  height ← lift (getImageHeight i 0);
  let tw := getTileWidth i in
  let numResolutions := getNumResolutions i in
  dzi_res ← lift (dzi_levels width height);
  if bool_decide (suffix = "dzi") then
    s ← gets (fun s => s);
    _ ← put_stream (createHTTPHeader VERSION "xml" (getTimestamp i) 0 (response s) +:+ dzi_xml tw width height);
    on_response setImageSent
  else
    '(level, x, y) ← lift (dz_tile argument);
    let resolution := dz_resolution level dzi_res numResolutions in
    width ← lift (getImageWidth i (i32 (numResolutions - resolution - 1)));
    _ ← lift (getImageHeight i (i32 (numResolutions - resolution - 1)));
    tile ← lift (tile_index width tw x y);
    JTL.send resolution (i32 tile).
End DeepZoom.

(** ** Properties *)

(** A level of DeepZoom is shown with the level of the image that has its
    size: level [r] is the image halved [dzi_res - r] times, and so is the
    level that is sent, as far as the image has it; the smallest level stands
    for all that are smaller still. *)
Theorem deepzoom_level (r dzi_res n : Z) :
  0 <= r <= dzi_res -> 1 <= n < 2 ^ 31 -> dzi_res < 2 ^ 31 ->
  0 <= dz_resolution r dzi_res n < n
  /\ n - dz_resolution r dzi_res n - 1 = Z.min (n - 1) (dzi_res - r).
Proof.
  intros Hr Hn Hd. unfold dz_resolution.
  assert (E : u32 (u32 (r - u32 (dzi_res - n)) - 1) = u32 (r - (dzi_res - n) - 1)).
  { unfold u32. rewrite Zminus_mod_idemp_l, <- (Zminus_mod_idemp_l _ 1), Zminus_mod_idemp_r, Zminus_mod_idemp_l. reflexivity. }
  rewrite E. assert (E2 : i32 (u32 (r - (dzi_res - n) - 1)) = i32 (r - (dzi_res - n) - 1)).
  { unfold i32, u32. rewrite Zplus_mod_idemp_l. reflexivity. }
  rewrite E2, i32_small by lia. rewrite (u32_small (n - 1)) by lia.
  destruct (Z.ltb_spec (r - (dzi_res - n) - 1) 0).
  - rewrite (u32_small 0) by lia. rewrite (proj2 (Z.ltb_ge (n - 1) 0)) by lia. lia.
  - rewrite u32_small by lia. destruct (Z.ltb_spec (n - 1) (r - (dzi_res - n) - 1)); rewrite ?i32_small by lia; lia.
Qed.

(** 5000 x 4000 pixels: 13 levels of DeepZoom above the first, 6 of the image. *)
Lemma deepzoom_level_witness :
  dzi_levels 5000 4000 = Ok 13 /\ dz_resolution 13 13 6 = 5 /\ dz_resolution 10 13 6 = 2 /\ dz_resolution 3 13 6 = 0
  /\ 6 - dz_resolution 10 13 6 - 1 = Z.min 5 3.
Proof.
  repeat (split; [vm_compute; reflexivity|]). apply (deepzoom_level 10 13 6); lia.
Defined.

(** The address of a tile. *)
Definition deepzoom_url (p : string) (r x y : Z) : string :=
  p +:+ "_files/" +:+ dec r +:+ "/" +:+ dec x +:+ "_" +:+ dec y +:+ ".jpg".

(** The parts of the address of a tile, and where they are. *)
Section Address.
Context (p : string) (r x y : Z) (Hr : is_i32 r) (Hx : is_i32 x) (Hy : is_i32 y) (Hp : slen p < 2 ^ 31).

#[local] Definition the_name : string := dec x +:+ "_" +:+ dec y.
#[local] Definition the_dir : string := p +:+ "_files/" +:+ dec r.

Lemma no_char z c : isdigit c = false -> c <> "-"%char -> smem c (dec z) = false.
Proof. intros; apply dec_no; assumption. Qed.

Lemma url_slash : deepzoom_url p r x y = the_dir +:+ String "/" (the_name +:+ ".jpg").
Proof. unfold deepzoom_url, the_dir, the_name. rewrite !sapp_assoc. reflexivity. Qed.

Lemma url_dot : deepzoom_url p r x y = (the_dir +:+ "/" +:+ the_name) +:+ String "." "jpg".
Proof. rewrite url_slash, !sapp_assoc. reflexivity. Qed.

Lemma dir_length : slen the_dir = slen p + 7 + slen (dec r).
Proof. unfold the_dir. rewrite !slen_app. change (slen "_files/") with 7. lia. Qed.

Lemma name_length : slen the_name = slen (dec x) + 1 + slen (dec y).
Proof. unfold the_name. rewrite !slen_app. change (slen "_") with 1. lia. Qed.

Lemma url_length : slen (deepzoom_url p r x y) = slen the_dir + 1 + slen the_name + 4.
Proof. rewrite url_dot, !slen_app. change (slen "/") with 1. change (slen (String "." "jpg")) with 4. lia. Qed.

Lemma last_dot : find_last_of "." (deepzoom_url p r x y) = slen the_dir + 1 + slen the_name.
Proof. rewrite url_dot, (find_last_of_at ".") by reflexivity. rewrite !slen_app. change (slen "/") with 1. lia. Qed.

Lemma last_slash : find_last_of "/" (deepzoom_url p r x y) = slen the_dir.
Proof.
  rewrite url_slash. apply find_last_of_at. unfold the_name. rewrite !smem_app, !no_char by (reflexivity || discriminate). reflexivity.
Qed.

(** What the positions are small for. *)
Lemma lengths_small : 0 <= slen p /\ 0 <= slen (dec r) <= 11 /\ 0 <= slen (dec x) <= 11 /\ 0 <= slen (dec y) <= 11.
Proof.
  pose proof (dec_length_i32 r Hr). pose proof (dec_length_i32 x Hx). pose proof (dec_length_i32 y Hy).
  pose proof (slen_nonneg p). pose proof (slen_nonneg (dec r)). pose proof (slen_nonneg (dec x)). pose proof (slen_nonneg (dec y)). lia.
Qed.

Lemma last_files : rfind "_files/" (deepzoom_url p r x y) = slen p.
Proof.
  unfold rfind, deepzoom_url. rewrite (srfind_app "_files/" p _ 0); [rewrite Nat.add_0_r; reflexivity|].
  assert (Hl : srfind "_files/" (dec r +:+ "/" +:+ dec x +:+ "_" +:+ dec y +:+ ".jpg") = None).
  { apply (srfind_None_char "l"); [reflexivity|]. rewrite !smem_app, !no_char by (reflexivity || discriminate). reflexivity. }
  revert Hl. generalize (dec r +:+ "/" +:+ dec x +:+ "_" +:+ dec y +:+ ".jpg") as t. intros t Hl.
  rewrite !scons_app, snil_app. cbn [srfind]. rewrite Hl. destruct t; reflexivity.
Qed.

Lemma dz_argument_url : dz_argument (deepzoom_url p r x y) = Ok (p, "jpg").
Proof.
  destruct lengths_small as (? & ? & ? & ?). pose proof dir_length. pose proof name_length. pose proof url_length.
  unfold dz_argument. rewrite last_dot, !u64_small by lia.
  assert (E4 : deepzoom_url p r x y = ((the_dir +:+ "/" +:+ the_name) +:+ ".") +:+ "jpg") by (rewrite url_dot, !sapp_assoc; reflexivity).
  assert (L4 : slen ((the_dir +:+ "/" +:+ the_name) +:+ ".") = slen the_dir + 1 + slen the_name + 1)
    by (rewrite !slen_app; change (slen "/") with 1; change (slen ".") with 1; lia).
  assert (E5 : substr (deepzoom_url p r x y) (slen the_dir + 1 + slen the_name + 1) (slen (deepzoom_url p r x y)) = Ok "jpg")
    by (rewrite url_length, E4, <- L4; apply substr_end; change (slen "jpg") with 3; lia).
  rewrite E5, bind_ret, bool_decide_eq_false_2 by discriminate. rewrite last_files.
  unfold deepzoom_url. rewrite substr_start by reflexivity. reflexivity.
Qed.

(** The pieces [dz_tile] cuts out. *)
Lemma level_piece : substr (deepzoom_url p r x y) (slen p + 6 + 1) (slen the_dir - (slen p + 6 + 1)) = Ok (dec r).
Proof.
  pose proof dir_length. assert (Ls : slen p + 6 + 1 = slen (p +:+ "_files/")) by (rewrite slen_app; change (slen "_files/") with 7; lia). rewrite Ls.
  replace (deepzoom_url p r x y) with ((p +:+ "_files/") +:+ dec r +:+ "/" +:+ dec x +:+ "_" +:+ dec y +:+ ".jpg")
    by (unfold deepzoom_url; rewrite !sapp_assoc; reflexivity).
  apply substr_mid. lia.
Qed.

Lemma name_piece : substr (deepzoom_url p r x y) (slen the_dir + 1) (slen the_dir + 1 + slen the_name - slen the_dir - 1) = Ok the_name.
Proof.
  assert (Ls : slen the_dir + 1 = slen (the_dir +:+ "/")) by (rewrite slen_app; change (slen "/") with 1; lia). rewrite Ls at 1.
  replace (deepzoom_url p r x y) with ((the_dir +:+ "/") +:+ the_name +:+ ".jpg") by (rewrite url_slash, !sapp_assoc; reflexivity).
  apply substr_mid. lia.
Qed.

Lemma y_piece : substr the_name (slen (dec x) + 1) (slen the_name) = Ok (dec y).
Proof.
  pose proof name_length. pose proof (slen_nonneg (dec x)). assert (Ls : slen (dec x) + 1 = slen (dec x +:+ "_")) by (rewrite slen_app; change (slen "_") with 1; lia). rewrite Ls.
  replace the_name with ((dec x +:+ "_") +:+ dec y) at 1 by (unfold the_name; rewrite !sapp_assoc; reflexivity).
  apply substr_end. lia.
Qed.

Lemma dz_tile_url : dz_tile (deepzoom_url p r x y) = Ok (r, x, y).
Proof.
  destruct lengths_small as (? & ? & ? & ?). pose proof dir_length. pose proof name_length.
  unfold dz_tile. cbv zeta. rewrite last_slash, last_dot, (u32_small (slen the_dir)) by lia.
  assert (E5 : substr (deepzoom_url p r x y) 0 (slen the_dir) = Ok the_dir) by (rewrite url_slash; apply substr_start; reflexivity).
  rewrite E5, bind_ret. assert (E6 : find_last_of "/" the_dir = slen p + 6).
  { replace the_dir with ((p +:+ "_files") +:+ String "/" (dec r)) by (unfold the_dir; rewrite !sapp_assoc; reflexivity).
    rewrite find_last_of_at, slen_app by (apply no_char; [reflexivity|discriminate]). reflexivity. }
  rewrite E6, (u64_small (slen p + 6 + 1)), (u32_small (slen p + 6 + 1)), (u32_small (slen the_dir - (slen p + 6 + 1))) by lia.
  rewrite level_piece, bind_ret, (u32_small (slen the_dir + 1)), u64_small, (u32_small (slen the_dir + 1 + slen the_name - slen the_dir - 1)) by lia.
  rewrite name_piece, bind_ret.
  assert (E9 : find_first_of "_" the_name = slen (dec x)) by (apply find_first_of_at, no_char; [reflexivity|discriminate]).
  rewrite E9, !(u32_small (slen (dec x))), (u32_small (slen (dec x) + 1)) by lia.
  assert (E11 : substr the_name 0 (slen (dec x)) = Ok (dec x)) by (apply substr_start; reflexivity).
  rewrite E11, bind_ret, y_piece, bind_ret, !atoi_dec_exact by assumption. reflexivity.
Qed.
End Address.

(** C34. The address of a tile is read back: the path, the level and the two
    coordinates, also when the path itself has dots, slashes, underscores or
    [_files/] in it. *)
Theorem deepzoom_url_roundtrip (p : string) (r x y : Z) :
  is_i32 r -> is_i32 x -> is_i32 y -> slen p < 2 ^ 31 ->
  dz_argument (deepzoom_url p r x y) = Ok (p, "jpg") /\ dz_tile (deepzoom_url p r x y) = Ok (r, x, y).
Proof. intros Hr Hx Hy Hp. split; [apply dz_argument_url|apply dz_tile_url]; assumption. Qed.

Lemma deepzoom_url_roundtrip_witness :
  deepzoom_url "a/b.x_files/c" 10 3 (-2) = "a/b.x_files/c_files/10/3_-2.jpg"
  /\ dz_argument "a/b.x_files/c_files/10/3_-2.jpg" = Ok ("a/b.x_files/c", "jpg")
  /\ dz_tile "a/b.x_files/c_files/10/3_-2.jpg" = Ok (10, 3, -2).
Proof.
  split; [vm_compute; reflexivity|].
  apply (deepzoom_url_roundtrip "a/b.x_files/c" 10 3 (-2)); unfold is_i32; vm_compute; intuition congruence.
Defined.
