(* ===== verification/IIIF.v ===== *)
(** * The IIIF protocol (src/src/IIIF.cc)

    A request is [{identifier}/info.json] for the description of the image,
    [{identifier}/{region}/{size}/{rotation}/{quality}{.format}] for an image, or
    [{identifier}] alone, which is redirected.  An image request is turned into
    settings of the view, and answered by JTL when it asks for exactly one tile,
    by CVT otherwise. *)
From stdpp Require Import base gmap strings list numbers.
From Stdlib Require Import ZArith Lia Ascii.
From coqutil Require Import Datatypes.RecordSetters.
From S2P Require Import Prelude CString CFloat Format Tokenizer URL Utils View IIPImage RawTile IIPResponse Session Demo Task FIF JTL CVT.
Import TriangleBracketNotations.
#[local] Open Scope string_scope.
#[local] Open Scope list_scope.
#[local] Open Scope Z_scope.

(** ** The request *)

Definition IIIF_PROTOCOL : string := "http://iiif.io/api/image".
Definition IIIF_SYNTAX : string := "IIIF syntax is {identifier}/{region}/{size}/{rotation}/{quality}{.format}".

(** The format [IIIF_CONTEXT] of [snprintf] and [sscanf], with the version. *)
Definition iiif_context (version : Z) : string := IIIF_PROTOCOL +:+ "/" +:+ dec version +:+ "/context.json".

(** [sscanf( s, IIIF_CONTEXT, &v )]: what follows the number is not needed for
    the conversion to count. *)
Definition scan_context (s : string) : option Z :=
  let s := c_str s in
  let p := IIIF_PROTOCOL +:+ "/" in
  if String.prefix p s then
    let t := sdrop (String.length p) s in
    if starts_with_digit (cut_sign (skip_space t)).2 then Some (atoi t) else None
  else None.

(** [s.substr( 0, n ) == p] *)
Definition begins (n : Z) (p s : string) : bool := bool_decide (stake (Z.to_nat n) s = p).

(** The position of the slash before the last three, counted from [p]. *)
Definition previous_slash (argument : string) (p : Z) : res Z :=
  let p := find_last_of_upto "/" argument (u64 (p - 1)) in
  if p =? npos then throw (ExnInvalid "IIIF: Not enough parameters") else Ok p.

(** File name, parameters and suffix; none for a request without parameters. *)
Definition split_request (argument : string) : res (option (string * string * string)) :=
  let lastSlashPos := find_last_of "/" argument in
  if lastSlashPos =? npos then Ok None
  else
    suffix ← substr argument (u64 (lastSlashPos + 1)) npos;
    if begins 4 "info" suffix then
      filename ← substr argument 0 lastSlashPos;
      Ok (Some (filename, "", suffix))
    else
      positionTmp ← foldM (fun _ p => previous_slash argument p) (range 0 3) lastSlashPos;
      filename ← substr argument 0 positionTmp;
      params ← substr argument (u64 (positionTmp + 1)) npos;
      Ok (Some (filename, params, suffix)).

(** The version of a context in the Accept header. *)
Definition accept_version (accept : string) : res (option Z) :=
  let pos := find IIIF_PROTOCOL accept in
  if pos =? npos then Ok None
  else
    profile ← substr accept pos (slen IIIF_PROTOCOL + 15);
    tail ← substr profile (slen IIIF_PROTOCOL + 2) npos;
    Ok (if bool_decide (tail = "/context.json") then scan_context profile else None).

(** ** The parameters of an image request *)

Section IIIF.
Context {P : Platform}.

Definition invalid {A} (s : string) : M A := throwM (ExnInvalid s).

(** [session->headers[ name ]]: a missing header is entered as an empty one. *)
Definition header (name : string) : M string :=
  h ← gets headers;
  match h !! name with
  | Some v => mret v
  | None => _ ← modify (fun s => s <| headers := <[name := ""]> (headers s) |>); mret ""
  end.

(** *** Region *)

(** The centred square; an image that is square already is left as it is. *)
Definition square_region (width height : Z) (v : View) : View :=
  let centred r := fcvt b32 (fdiv b64 (fsub b64 (of_Z b64 1) (fcvt b64 r)) (of_Z b64 2)) in
  if width <? height then
    let r3 := fdiv b32 (of_Z b32 width) (of_Z b32 height) in
    setViewHeight r3 (setViewTop (centred r3) v)
  else if height <? width then
    let r2 := fdiv b32 (of_Z b32 height) (of_Z b32 width) in
    setViewWidth r2 (setViewLeft (centred r2) v)
  else v.

(** The region as fractions of [wd] and [hd]. *)
Definition set_region (x y w h wd hd : float) (v : View) : View :=
  setViewHeight (fdiv b32 h hd) (setViewWidth (fdiv b32 w wd) (setViewTop (fdiv b32 y hd) (setViewLeft (fdiv b32 x wd) v))).

(** [region] after [n] values were read over the initial 0, 0, 1, 1. *)
Definition region_values (values : list string) : list float :=
  let region := atof32 <$> map c_str values in region ++ drop (length region) [f0; f0; f1; f1].

Definition iiif_region (width height : Z) (token : string) : M unit :=
  let regionString := tolower token in
  if bool_decide (regionString = "full") then mret tt
  else if bool_decide (regionString = "square") then on_view (square_region width height)
  else
    let isPCT := begins 4 "pct:" regionString in
    regionString ← lift (if isPCT then erase regionString 0 4 else Ok regionString);
    '(values, regionIzer) ← lift (take_tokens 4 (mkTokenizer regionString ","));
    let wd := if isPCT then of_Z b32 100 else of_Z b32 width in
    let hd := if isPCT then of_Z b32 100 else of_Z b32 height in
    match region_values values with
    | [x; y; w; h] =>
        _ ← on_view (set_region x y w h wd hd);
        if fle w f0 || fle h f0 || hasMoreTokens regionIzer || (length values <? 4)%nat then
          invalid ("IIIF: incorrect region format: " +:+ regionString)
        else mret tt
    | _ => undefM "region"
    end.

(** *** Size *)

(** The value of a stream, or the exception. *)
Definition from_stream {A} (o : option A) (message : string) : M A :=
  match o with Some a => mret a | None => invalid message end.

(** [round( x )] of a [float], to an [int]. *)
Definition round_f (x : float) : res Z := to_i32 (fround b32 x).

(** [pct:n]: the product is a [float], the quotient a [double]. *)
Definition percent (n : Z) (scale : float) : res Z :=
  to_i32 (fround b64 (fdiv b64 (fcvt b64 (fmul b32 (of_Z b32 n) scale)) (of_Z b64 100))).

(** [w,h], [w,], [,h] and [!w,h]. *)
Definition size_wh (ratio : float) (sizeString : string) : M (Z * Z) :=
  let bang := begins 1 "!" sizeString in
  sizeString ← lift (if bang then erase sizeString 0 1 else Ok sizeString);
  _ ← when (negb bang) (on_view (fun v => v <| maintain_aspect := false |>));
  let pos := find_first_of "," sizeString in
  if pos =? npos then invalid "invalid size: no comma found"
  else if pos =? 0 then
    text ← lift (substr sizeString 1 npos);
    h ← from_stream (stream_int text) "invalid height";
    w ← lift (round_f (fmul b32 (of_Z b32 h) ratio));
    _ ← on_view (fun v => v <| maintain_aspect := true |>);
    mret (w, h)
  else if pos =? slen sizeString - 1 then
    text ← lift (substr sizeString 0 (npos - 1));
    w ← from_stream (stream_int text) "invalid width";
    h ← lift (round_f (fdiv b32 (of_Z b32 w) ratio));
    _ ← on_view (fun v => v <| maintain_aspect := true |>);
    mret (w, h)
  else
    text ← lift (substr sizeString 0 pos);
    w ← from_stream (stream_int text) "invalid width";
    text ← lift (substr sizeString (pos + 1) npos);
    h ← from_stream (stream_int text) "invalid height";
    mret (w, h).

(** The requested size held to the maximum. *)
Definition limit_request (v : View) (ratio : float) (w h : Z) : res (Z * Z) :=
  let max_size := u32 (getMaxSize v) in
  let m := of_Z b32 max_size in
  if (i32 max_size <? w) || (i32 max_size <? h) then
    if fgt ratio f1 then
      h ← to_i32 (if maintain_aspect v then fround b32 (fmul b32 m ratio) else m); Ok (i32 max_size, h)
    else
      w ← to_i32 (if maintain_aspect v then fround b32 (fdiv b32 m ratio) else m); Ok (w, i32 max_size)
  else Ok (w, h).

Definition iiif_size (version width height : Z) (token : string) : M (Z * Z) :=
  let sizeString := tolower token in
  v ← gets view;
  vw ← lift (getViewWidth v);
  vh ← lift (getViewHeight v);
  let w := i32 vw in
  let h := i32 vh in
  let ratio := fdiv b32 (of_Z b32 w) (of_Z b32 h) in
  sizeString ← (if 3 <=? version then
                  if begins 1 "^" sizeString then lift (erase sizeString 0 1)
                  else _ ← on_view (setAllowUpscaling false); mret sizeString
                else mret sizeString);
  '(w, h) ← (if bool_decide (sizeString = "full") || bool_decide (sizeString = "max") then mret (w, h)
             else if begins 4 "pct:" sizeString then
               text ← lift (substr sizeString (find_first_of ":" sizeString + 1) npos);
               scale ← from_stream (stream_float text) "invalid size";
               w ← lift (percent w scale);
               h ← lift (percent h scale);
               mret (w, h)
             else size_wh ratio sizeString);
  if (w <=? 0) || (h <=? 0) then invalid "IIIF: invalid size"
  else
    v ← gets view;
    if (3 <=? version) && negb (allow_upscaling v) && ((i32 width <? w) || (i32 height <? h)) then
      invalid "IIIF: upscaling should be prefixed with ^"
    else
      '(w, h) ← lift (limit_request v ratio w h);
      _ ← on_view (setRequestWidth w);
      _ ← on_view (setRequestHeight h);
      mret (w, h).

(** *** Rotation *)

Definition iiif_rotation (token : string) : M unit :=
  let bang := begins 1 "!" token in
  _ ← when bang (on_view (fun v => v <| View.flip := 1 |>));
  rotationString ← lift (if bang then erase token 0 1 else Ok token);
  rotation ← from_stream (stream_float rotationString) "IIIF: invalid rotation";
  let is_ n := feq rotation (of_Z b32 n) in
  if negb (is_ 0 || is_ 90 || is_ 180 || is_ 270 || is_ 360) then
    invalid "IIIF: currently implemented rotation angles are 0, 90, 180 and 270 degrees"
  else
    v ← gets view;
    if is_ 180 && (View.flip v =? 1) then on_view (fun v => v <| View.flip := 2 |>)
    else on_view (setRotation rotation).

(** *** Quality and format *)

Definition set_format (format : string) : M unit :=
  if bool_decide (format = "jpg") then on_view (fun v => v <| output_format := JPEG |>)
  else if have_png && bool_decide (format = "png") then on_view (fun v => v <| output_format := PNG |>)
  else invalid "IIIF :: unsupported output format".

Definition iiif_quality (token : string) : M unit :=
  let quality := tolower token in
  let pos := find_first_of "?" quality in
  quality ← lift (if pos =? npos then Ok quality else substr quality 0 pos);
  let pos := find_last_of "." quality in
  quality ← (if pos =? npos then mret quality
             else
               format ← lift (substr quality (pos + 1) npos);
               quality ← lift (erase quality pos npos);
               _ ← set_format format;
               mret quality);
  let is_ s := bool_decide (quality = s) in
  if is_ "native" || is_ "color" || is_ "default" then mret tt
  else if is_ "grey" || is_ "gray" then on_view (fun v => v <| View.colourspace := GREYSCALE |>)
  else if is_ "bitonal" then on_view (fun v => v <| View.colourspace := BINARY |>)
  else invalid "unsupported quality parameter - must be one of native, color or grey".

(** *** All of them *)

(** [if( izer.hasMoreTokens() ) ..]: the handler on the next token, if there is
    one. *)
Definition parameter {A} (izer : Tokenizer) (h : string -> M A) : M (option A * Tokenizer) :=
  if hasMoreTokens izer then
    '(token, izer) ← lift (nextToken izer);
    a ← h token;
    mret (Some a, izer)
  else mret (None, izer).

Definition given {A} (o : option A) : Z := match o with Some _ => 1 | None => 0 end.

(** The requested width and height. *)
Definition iiif_parameters (version width height : Z) (params : string) : M (Z * Z) :=
  '(region, izer) ← parameter (mkTokenizer params "/") (iiif_region width height);
  '(size, izer) ← parameter izer (iiif_size version width height);
  '(rotation, izer) ← parameter izer iiif_rotation;
  '(quality, izer) ← parameter izer iiif_quality;
  if hasMoreTokens izer then invalid ("IIIF: Query has too many parameters. " +:+ IIIF_SYNTAX)
  else if given region + given size + given rotation + given quality <? 4 then
    invalid ("IIIF: Query has too few parameters. " +:+ IIIF_SYNTAX)
  else match size with Some s => mret s | None => undefM "uninitialised size" end.

(** ** A request without parameters *)

Definition redirect : M unit :=
  host ← header "BASE_URL";
  id ← (if 0 <? slen host then
          query ← header "QUERY_STRING";
          query ← lift (substr query 5 npos);
          mret (host +:+ query)
        else
          request_uri ← header "REQUEST_URI";
          request_uri ← lift (erase request_uri (slen request_uri) npos);
          host ← header "HTTP_HOST";
          mret ("//" +:+ host +:+ request_uri));
  _ ← put_stream ("Status: 303 See Other" +:+ crlf +:+ "Location: " +:+ id +:+ "/info.json" +:+ crlf
                  +:+ "Server: iipsrv/" +:+ VERSION +:+ crlf +:+ "X-Powered-By: IIPImage" +:+ crlf +:+ crlf);
  on_response setImageSent.

(** ** The description of an image *)

Definition endl : string := String LF "".
Definition quoted (s : string) : string := dq +:+ s +:+ dq.
Definition field (name value : string) : string := quoted name +:+ " : " +:+ value.
Definition size_object (w h : Z) : string := "{ " +:+ field "width" (dec w) +:+ ", " +:+ field "height" (dec h) +:+ " }".

(** The address of the image, from what the web server sent. *)
Definition info_id (suffix : string) : M string :=
  host ← header "BASE_URL";
  if 0 <? slen host then
    query ← header "QUERY_STRING";
    query ← lift (substr query 5 (u64 (slen query - slen suffix - 6)));
    mret (host +:+ query)
  else
    request_uri ← header "REQUEST_URI";
    https ← header "HTTPS";
    let scheme := if empty https then "http://" else "https://" in
    if empty request_uri then
      invalid "IIIF: REQUEST_URI was not set in FastCGI request, so the ID parameter cannot be set."
    else
      request_uri ← lift (erase request_uri (u64 (slen request_uri - slen suffix - 1)) npos);
      host ← header "HTTP_HOST";
      mret (scheme +:+ host +:+ request_uri).

(** The levels between the smallest and the largest that fit in [max]. *)
Definition info_sizes (i : IIPImage) (max numResolutions : Z) : res (list string) :=
  w0 ← rd (image_widths i) (u32 (numResolutions - 1));
  h0 ← rd (image_heights i) (u32 (numResolutions - 1));
  rest ← mapM (fun k =>
           w ← rd (image_widths i) k;
           h ← rd (image_heights i) k;
           Ok (if (max =? 0) || ((w <? max) && (h <? max)) then [size_object w h] else []))
         (reverse (range 1 (i32 (u32 (numResolutions - 2)) + 1)));
  Ok (size_object w0 h0 :: concat rest).

Definition info_scales (numResolutions : Z) : res (list string) :=
  mapM (fun k => n ← shl1 k; Ok (dec n)) (range 1 numResolutions).

(** The text, for version 3 and for the earlier ones. *)
Definition info_json (version : Z) (id : string) (width height tw th max : Z) (sizes scales : list string) : string :=
  "{" +:+ endl
  +:+ "  " +:+ field "@context" (quoted (snprintf 48 (iiif_context version))) +:+ "," +:+ endl
  +:+ "  " +:+ field "protocol" (quoted IIIF_PROTOCOL) +:+ "," +:+ endl
  +:+ "  " +:+ field "width" (dec width) +:+ "," +:+ endl
  +:+ "  " +:+ field "height" (dec height) +:+ "," +:+ endl
  +:+ "  " +:+ field "sizes" "[" +:+ endl
  +:+ "     " +:+ String.concat ("," +:+ endl +:+ "     ") sizes +:+ endl
  +:+ "  ]," +:+ endl
  +:+ "  " +:+ field "tiles" "[" +:+ endl
  +:+ "     { " +:+ field "width" (dec tw) +:+ ", " +:+ field "height" (dec th) +:+ ", "
  +:+ field "scaleFactors" "[ " +:+ String.concat ", " ("1" :: scales) +:+ " ] }" +:+ endl
  +:+ "  ]," +:+ endl
  +:+ (let IIIF_PROFILE := if have_png then "level2" else "level1" in
       if 3 <=? version then
         "  " +:+ field "id" (quoted id) +:+ "," +:+ endl
         +:+ "  " +:+ quoted "type" +:+ ": " +:+ quoted "ImageService3" +:+ "," +:+ endl
         +:+ "  " +:+ field "profile" (quoted IIIF_PROFILE) +:+ "," +:+ endl
         +:+ "  " +:+ field "maxWidth" (dec max) +:+ "," +:+ endl
         +:+ "  " +:+ field "maxHeight" (dec max) +:+ "," +:+ endl
         +:+ "  " +:+ quoted "extraQualities" +:+ ": [" +:+ String.concat "," (quoted <$> ["color"; "gray"; "bitonal"]) +:+ "]," +:+ endl
         +:+ "  " +:+ quoted "extraFeatures" +:+ ": ["
         +:+ String.concat "," (quoted <$> ["regionByPct"; "sizeByForcedWh"; "sizeByWh"; "sizeAboveFull"; "sizeUpscaling"; "rotationBy90s"; "mirroring"])
         +:+ "]" +:+ endl +:+ "}"
       else
         "  " +:+ field "@id" (quoted id) +:+ "," +:+ endl
         +:+ "  " +:+ field "profile" "[" +:+ endl
         +:+ "     " +:+ quoted (IIIF_PROTOCOL +:+ "/" +:+ dec version +:+ "/" +:+ IIIF_PROFILE) +:+ "," +:+ endl
         +:+ "     { " +:+ field "formats" ("[ " +:+ quoted "jpg" +:+ ", " +:+ quoted "png" +:+ " ]") +:+ "," +:+ endl
         +:+ "       " +:+ field "qualities" ("[" +:+ String.concat "," (quoted <$> ["native"; "color"; "gray"; "bitonal"]) +:+ "]") +:+ "," +:+ endl
         +:+ "       " +:+ field "supports" ("["
         +:+ String.concat "," (quoted <$> ["regionByPct"; "regionSquare"; "sizeByForcedWh"; "sizeByWh"; "sizeAboveFull"; "sizeUpscaling"; "rotationBy90s"; "mirroring"])
         +:+ "]") +:+ "," +:+ endl
         +:+ "       " +:+ field "maxWidth" (dec max) +:+ "," +:+ endl
         +:+ "       " +:+ field "maxHeight" (dec max) +:+ endl +:+ "     }" +:+ endl
         +:+ "  ]" +:+ endl +:+ "}").

Definition info (version : Z) (suffix : string) (width height tw th numResolutions : Z) : M unit :=
  id ← info_id suffix;
  let '(escapedFilename, _) := escape (new_URL id) in
  x_iiif_id ← header "HTTP_X_IIIF_ID";
  let iiif_id := if empty x_iiif_id then escapedFilename else x_iiif_id in
  i ← the_image;
  v ← gets view;
  let max := u32 (getMaxSize v) in
  sizes ← lift (info_sizes i max numResolutions);
  scales ← lift (info_scales numResolutions);
  s ← gets (fun s => s);
  _ ← put_stream (createHTTPHeader VERSION "ld+json" (getTimestamp i) 0 (response s)
                  +:+ info_json version iiif_id width height tw th max sizes scales);
  _ ← on_response setImageSent;
  on_response (setCachability false).

(** ** An image request *)

(** Whether the request is for exactly one tile of the resolution. *)
Definition is_tile_request (v : View) (requested_res w h tw th im_width im_height view_left view_top : Z) : res bool :=
  inner ←
    (if maintain_aspect v && (0 <? requested_res) && (w =? i32 tw) && (h =? i32 th) then
       a ← umod view_left tw;
       if negb (a =? 0) then Ok false
       else
         b ← umod view_top th;
         if negb (b =? 0) then Ok false
         else
           vw ← getViewWidth v;
           c ← umod vw tw;
           if negb (c =? 0) then Ok false
           else
             vh ← getViewHeight v;
             d ← umod vh th;
             Ok ((d =? 0) && (vw <? im_width) && (vh <? im_height))
     else Ok false);
  Ok (inner || (maintain_aspect v && (requested_res =? 0) && (u32 w =? im_width) && (u32 h =? im_height))).

(** The number of the tile that starts at a pixel. *)
Definition tile_at (im_width tw th view_left view_top : Z) : res Z :=
  rem_x ← umod im_width tw;
  q ← udiv im_width tw;
  let ntlx := u32 (q + (if rem_x =? 0 then 0 else 1)) in
  i ← udiv view_left tw;
  j ← udiv view_top th;
  Ok (u32 (j * ntlx + i)).

(** The corner of the view port in the resolution. *)
Definition view_corner (v : View) : res (Z * Z) :=
  if viewPortSet v then l ← getViewLeft v; t ← getViewTop v; Ok (l, t) else Ok (0, 0).

(** The view of the message about an image request. *)
Definition log_request : M unit :=
  l ← gets loglevel;
  v ← gets view;
  when (3 <=? l)
    (_ ← lift (getViewLeft v); _ ← lift (getViewTop v); _ ← lift (getViewWidth v); _ ← lift (getViewHeight v); mret tt).

Definition image_request (w h tw th numResolutions : Z) : M unit :=
  v ← gets view;
  '(requested_res, v) ← lift (getResolution v);
  _ ← on_view (fun _ => v);
  let requested_res := i32 requested_res in
  i ← the_image;
  im_width ← lift (rd (image_widths i) (u32 (numResolutions - requested_res - 1)));
  im_height ← lift (rd (image_heights i) (u32 (numResolutions - requested_res - 1)));
  '(view_left, view_top) ← lift (view_corner v);
  one_tile ← lift (is_tile_request v requested_res w h tw th im_width im_height view_left view_top);
  if (one_tile : bool) then
    tile ← lift (tile_at im_width tw th view_left view_top);
    JTL.send requested_res (i32 tile)
  else CVT.send.

(** ** The handler *)

Definition iiif_version : M Z :=
  c ← gets codecOptions;
  _ ← modify (fun s => s <| codecOptions := <["IIIF_VERSION" := default 0 (c !! "IIIF_VERSION")]> (codecOptions s) |>);
  let version := i32 (default 0 (c !! "IIIF_VERSION")) in
  accept ← header "HTTP_ACCEPT";
  requested ← lift (accept_version accept);
  match requested with
  | Some v =>
      _ ← when (negb (v =? version)) (on_response (setCacheControl "private"));
      mret v
  | None => mret version
  end.

Definition IIIF_run (src : string) : M unit :=
  let '(argument, _) := decode (new_URL src) in
  parts ← lift (split_request argument);
  match parts with
  | None => redirect
  | Some (filename, params, suffix) =>
      _ ← FIF_run filename;
      i ← the_image;
      width ← lift (getImageWidth i 0);
      height ← lift (getImageHeight i 0);
      let tw := getTileWidth i in
      let th := getTileHeight i in
      let numResolutions := getNumResolutions i in
      _ ← on_view (setImageSize width height);
      _ ← on_view (setMaxResolutions numResolutions);
      version ← iiif_version;
      if bool_decide (suffix = "info.json") then info version suffix width height tw th numResolutions
      else
        '(w, h) ← iiif_parameters version width height params;
        _ ← log_request;
        image_request w h tw th numResolutions
  end.
End IIIF.

(** ** Lemmas *)

(** *** The address *)

Lemma previous_slash_at c d b :
  smem "/" d = false -> slen c + slen d + slen b < 2 ^ 63 ->
  previous_slash ((c +:+ String "/" d) +:+ String "/" b) (slen (c +:+ String "/" d)) = Ok (slen c).
Proof.
  intros Hd Hl. pose proof (slen_nonneg c). pose proof (slen_nonneg d). pose proof (slen_nonneg b).
  assert (L : slen (c +:+ String "/" d) = slen c + 1 + slen d) by (rewrite slen_app, slen_cons; lia).
  unfold previous_slash, find_last_of_upto. rewrite u64_small, Z.min_l by (rewrite ?slen_app, ?slen_cons, ?L in *; lia).
  replace (slen (c +:+ String "/" d) - 1 + 1) with (slen (c +:+ String "/" d)) by lia.
  rewrite stake_slen, find_last_of_at by exact Hd. rewrite (proj2 (Z.eqb_neq (slen c) npos)); [reflexivity|unfold npos; lia].
Qed.

(** *** The parameters *)

Section Parameters.
Context {P : Platform}.

(** The handler of a parameter runs on the next field, if there is one. *)
Lemma parameter_next {A} (h : string -> M A) t x xs :
  slen t < 2 ^ 31 -> nonempty_fields "/" t = x :: xs ->
  exists t', nonempty_fields "/" t' = xs /\ slen t' < 2 ^ 31
    /\ forall B (k : option A * Tokenizer -> M B) s,
         (parameter (mkTokenizer t "/") h ≫= k) s = (h x ≫= fun a => k (Some a, mkTokenizer t' "/")) s.
Proof.
  intros Ht E. destruct (nextToken_spec "/" t Ht) as (y & t' & En & Ef & Hl); [rewrite E; discriminate|].
  rewrite E in Ef. injection Ef as <- ->. exists t'. split_and!; [reflexivity|unfold slen in *; lia|]. intros B k s.
  unfold parameter. rewrite hasMoreTokens_spec, E by exact Ht. cbn [negb bool_decide decide_rel].
  rewrite bool_decide_eq_false_2 by discriminate. cbn [negb]. rewrite En. unfold mbind, M_bind, lift.
  destruct (h x s) as [[a|f] s']; reflexivity.
Qed.

Lemma parameter_none {A B} (h : string -> M A) t (k : option A * Tokenizer -> M B) s :
  slen t < 2 ^ 31 -> nonempty_fields "/" t = [] ->
  (parameter (mkTokenizer t "/") h ≫= k) s = k (None, mkTokenizer t "/") s.
Proof.
  intros Ht E. unfold parameter. rewrite hasMoreTokens_spec, E by exact Ht.
  rewrite bool_decide_eq_true_2 by reflexivity. reflexivity.
Qed.

Definition fails {A} (m : M A) : Prop := forall s, exists e, (m s).1 = Err e.

Lemma fails_bind {A B} (m : M A) (k : A -> M B) : (forall a, fails (k a)) -> fails (m ≫= k).
Proof. intros H s. unfold mbind, M_bind. destruct (m s) as [[a|f] s']; [apply H|cbn; eauto]. Qed.

Lemma fails_as {A} (m m' : M A) : (forall s, m s = m' s) -> fails m' -> fails m.
Proof. intros H H' s. rewrite H. apply H'. Qed.

(** The end of [iiif_parameters]. *)
Definition enough (region : option unit) (size : option (Z * Z)) (rotation quality : option unit) (izer : Tokenizer) : M (Z * Z) :=
  if hasMoreTokens izer then invalid ("IIIF: Query has too many parameters. " +:+ IIIF_SYNTAX)
  else if given region + given size + given rotation + given quality <? 4 then
    invalid ("IIIF: Query has too few parameters. " +:+ IIIF_SYNTAX)
  else match size with Some s => mret s | None => undefM "uninitialised size" end.

Lemma enough_fails r z t q u :
  slen u < 2 ^ 31 -> nonempty_fields "/" u <> [] \/ given r + given z + given t + given q < 4 -> fails (enough r z t q (mkTokenizer u "/")).
Proof.
  intros Hu H s. unfold enough. rewrite hasMoreTokens_spec by exact Hu. case_bool_decide as E; cbn [negb].
  - destruct H as [H|H]; [contradiction|]. rewrite (proj2 (Z.ltb_lt _ 4) H). eexists. reflexivity.
  - eexists. reflexivity.
Qed.

(** One parameter of a request that fails at its end. *)
Lemma fails_parameter {A B} (h : string -> M A) t (k : option A -> Tokenizer -> M B) :
  slen t < 2 ^ 31 ->
  match nonempty_fields "/" t with
  | [] => fails (k None (mkTokenizer t "/"))
  | _ :: xs => forall a t', nonempty_fields "/" t' = xs -> slen t' < 2 ^ 31 -> fails (k (Some a) (mkTokenizer t' "/"))
  end ->
  fails ('(a, izer) ← parameter (mkTokenizer t "/") h; k a izer).
Proof.
  intros Ht. destruct (nonempty_fields "/" t) as [|x xs] eqn:E; intros H.
  - eapply fails_as; [intros s; apply (parameter_none h t _ s Ht E)|]. exact H.
  - destruct (parameter_next h t x xs Ht E) as (t' & Et & Hl & Ek).
    eapply fails_as; [intros s; apply Ek|]. apply fails_bind. intros a. apply H; assumption.
Qed.

Lemma wrong_number version w h params :
  slen params < 2 ^ 31 -> length (nonempty_fields "/" params) <> 4%nat -> fails (iiif_parameters version w h params).
Proof.
  intros Hp Hn. unfold iiif_parameters.
  change (fails ('(region, izer) ← parameter (mkTokenizer params "/") (iiif_region w h);
    '(size, izer) ← parameter izer (iiif_size version w h); '(rotation, izer) ← parameter izer iiif_rotation;
    '(quality, izer) ← parameter izer iiif_quality; enough region size rotation quality izer)).
  remember (nonempty_fields "/" params) as l eqn:El. symmetry in El.
  do 4 (apply fails_parameter; [assumption|];
    match goal with E : nonempty_fields "/" ?t = ?l |- match nonempty_fields "/" ?t with _ => _ end =>
      rewrite E; try (destruct l as [|? l]); try intros ? ? ? ? end).
  all: apply enough_fails; [assumption|].
  all: match goal with E : nonempty_fields "/" ?t = _ |- nonempty_fields "/" ?t <> _ \/ _ => rewrite E end.
  all: cbn [given]; try (right; lia). all: destruct l; [cbn [length] in Hn; lia|left; discriminate].
Qed.

Lemma right_number version w h params s r z t q :
  slen params < 2 ^ 31 -> nonempty_fields "/" params = [r; z; t; q] ->
  iiif_parameters version w h params s
  = (_ ← iiif_region w h r; size ← iiif_size version w h z; _ ← iiif_rotation t; _ ← iiif_quality q; mret size) s.
Proof.
  intros Hp E. unfold iiif_parameters.
  destruct (parameter_next (iiif_region w h) params _ _ Hp E) as (t1 & E1 & H1 & K1). rewrite K1.
  destruct (parameter_next (iiif_size version w h) t1 _ _ H1 E1) as (t2 & E2 & H2 & K2).
  destruct (parameter_next iiif_rotation t2 _ _ H2 E2) as (t3 & E3 & H3 & K3).
  destruct (parameter_next iiif_quality t3 _ _ H3 E3) as (t4 & E4 & H4 & K4).
  apply M_bind_ext. intros [] s1. rewrite K2. apply M_bind_ext. intros size s2. rewrite K3.
  apply M_bind_ext. intros [] s3. rewrite K4. apply M_bind_ext. intros [] s4.
  rewrite hasMoreTokens_spec, E4 by exact H4. reflexivity.
Qed.

(** What the parameters of a request may change: the view, but not to a view
    that could not be processed. *)
Definition quarter_turn (r : float) : Prop := Exists (fun n => feq r (of_Z b32 n) = true) [0; 90; 180; 270; 360].

Definition view_ok (v : View) : Prop :=
  quarter_turn (View.rotation v) /\ 0 <= View.flip v <= 2 /\ (output_format v = JPEG \/ output_format v = PNG).

Definition only_view (s s' : Session) : Prop :=
  (view_ok (view s) -> view_ok (view s')) /\ exists v, s' = s <| view := v |>.

#[local] Instance only_view_refl : Reflexive only_view.
Proof. intros s. split; [auto|]. exists (view s). destruct s; reflexivity. Qed.

#[local] Instance only_view_trans : Transitive only_view.
Proof.
  intros s1 s2 s3 [H1 (v1 & E1)] [H2 (v2 & E2)]. split; [auto|]. exists v2. rewrite E2, E1. reflexivity.
Qed.

Lemma keeps_on_view f : (forall v, view_ok v -> view_ok (f v)) -> keeps only_view (on_view f).
Proof. intros H s. split; [apply (H (view s))|]. exists (f (view s)). reflexivity. Qed.

Lemma keeps_throw {A} e : keeps only_view (throwM (A := A) e).
Proof. apply keeps_lift, _. Qed.

Lemma keeps_stream {A} (o : option A) m : keeps only_view (from_stream o m).
Proof. destruct o; [apply keeps_ret, _|apply keeps_throw]. Qed.

#[local] Hint Resolve keeps_throw keeps_stream keeps_on_view only_view_refl only_view_trans : keeps.

Ltac view_step :=
  first [ apply keeps_bind; [typeclasses eauto| |intros ?]
        | apply keeps_ret, _ | apply keeps_lift, _ | apply keeps_gets, _ | apply keeps_throw | apply keeps_stream
        | apply keeps_when; [typeclasses eauto|]
        | apply keeps_on_view; intros ? (? & ? & ?); unfold view_ok; cbn; auto 10
        | progress unfold invalid, undefM
        | match goal with |- keeps _ (match ?b with _ => _ end) => destruct b eqn:? end ].

Lemma region_keeps w h token : keeps only_view (iiif_region w h token).
Proof.
  unfold iiif_region. repeat view_step.
  - unfold square_region, view_ok in *. repeat destruct (_ <? _); cbn; auto.
Qed.

Lemma size_wh_keeps ratio t : keeps only_view (size_wh ratio t).
Proof. unfold size_wh. repeat view_step. Qed.

Lemma size_keeps version w h token : keeps only_view (iiif_size version w h token).
Proof. unfold iiif_size. repeat (apply size_wh_keeps || view_step). Qed.

Lemma rotation_keeps token : keeps only_view (iiif_rotation token).
Proof.
  unfold iiif_rotation. repeat view_step.
  - split_and!; [assumption|unfold constant; lia..|assumption].
  - split_and!; [assumption|unfold constant; lia..|assumption].
  - split_and!; [|tauto..]. unfold quarter_turn, constant. rewrite !Exists_cons.
    match goal with H : negb _ = false |- _ => apply negb_false_iff in H; rewrite !orb_true_iff in H; tauto end.
Qed.

Lemma quality_keeps token : keeps only_view (iiif_quality token).
Proof. unfold iiif_quality, set_format. repeat view_step. Qed.

Lemma parameter_keeps {A} izer (h : string -> M A) : (forall t, keeps only_view (h t)) -> keeps only_view (parameter izer h).
Proof. intros H. unfold parameter. repeat (apply H || view_step). Qed.

Lemma iiif_parameters_keeps version w h params : keeps only_view (iiif_parameters version w h params).
Proof.
  unfold iiif_parameters.
  repeat ((apply parameter_keeps; intros ?) || apply region_keeps || apply size_keeps || apply rotation_keeps
          || apply quality_keeps || view_step).
Qed.
End Parameters.

(** ** Properties *)

(** The address of an image request. *)
Definition iiif_url (f r z t q : string) : string := f +:+ "/" +:+ r +:+ "/" +:+ z +:+ "/" +:+ t +:+ "/" +:+ q.

Definition parameter_text (p : string) : Prop := empty p = false /\ smem "/" p = false.

(** C19. The address of an image request is read back as the identifier and the
    four parameters, whatever the identifier is: it may have slashes and look
    like parameters itself. *)
Theorem iiif_url_roundtrip (f r z t q : string) :
  Forall parameter_text [r; z; t; q] -> begins 4 "info" q = false -> slen (iiif_url f r z t q) < 2 ^ 31 ->
  exists params, split_request (iiif_url f r z t q) = Ok (Some (f, params, q)) /\ tokens params "/" = Ok [r; z; t; q].
Proof.
  intros HF Hq Hl. pose proof HF as HF'. rewrite !list.Forall_cons in HF'.
  destruct HF' as ((_ & Hr) & (_ & Hz) & (_ & Ht) & (_ & Hqs) & _).
  set (A := f +:+ String "/" r). set (B := A +:+ String "/" z). set (C := B +:+ String "/" t).
  assert (E : iiif_url f r z t q = C +:+ String "/" q) by (unfold iiif_url, C, B, A; rewrite !sapp_assoc; reflexivity).
  assert (EB : iiif_url f r z t q = B +:+ String "/" (t +:+ String "/" q)) by (rewrite E; unfold C; rewrite !sapp_assoc; reflexivity).
  assert (EA : iiif_url f r z t q = A +:+ String "/" (z +:+ String "/" (t +:+ String "/" q)))
    by (rewrite EB; unfold B; rewrite !sapp_assoc; reflexivity).
  exists (join "/" [r; z; t; q]). split.
  - assert (LA : slen A = slen f + 1 + slen r) by (unfold A; rewrite slen_app, slen_cons; lia).
    assert (LB : slen B = slen A + 1 + slen z) by (unfold B; rewrite slen_app, slen_cons; lia).
    assert (LC : slen C = slen B + 1 + slen t) by (unfold C; rewrite slen_app, slen_cons; lia).
    assert (LU : slen (iiif_url f r z t q) = slen C + 1 + slen q) by (rewrite E, slen_app, slen_cons; lia).
    pose proof (slen_nonneg f). pose proof (slen_nonneg r). pose proof (slen_nonneg z).
    pose proof (slen_nonneg t). pose proof (slen_nonneg q).
    assert (EF : find_last_of "/" (iiif_url f r z t q) = slen C) by (rewrite E; apply find_last_of_at; exact Hqs).
    unfold split_request. rewrite EF.
    rewrite (proj2 (Z.eqb_neq (slen C) npos)) by (unfold npos; lia). rewrite u64_small by lia.
    assert (Eend : substr (iiif_url f r z t q) (slen C + 1) npos = Ok q).
    { rewrite E. replace (C +:+ String "/" q) with ((C +:+ "/") +:+ q) by (rewrite sapp_assoc; reflexivity).
      replace (slen C + 1) with (slen (C +:+ "/")) by (rewrite slen_app; reflexivity). apply substr_end. unfold npos. lia. }
    rewrite Eend, bind_ret, Hq. change (range 0 3) with [0; 1; 2]. cbn [foldM].
    assert (P1 : previous_slash (iiif_url f r z t q) (slen C) = Ok (slen B))
      by (rewrite E; apply previous_slash_at; [exact Ht|lia]).
    assert (P2 : previous_slash (iiif_url f r z t q) (slen B) = Ok (slen A))
      by (rewrite EB; apply previous_slash_at; [exact Hz|rewrite slen_app, slen_cons; lia]).
    assert (P3 : previous_slash (iiif_url f r z t q) (slen A) = Ok (slen f))
      by (rewrite EA; apply previous_slash_at; [exact Hr|rewrite !slen_app, !slen_cons, slen_app, slen_cons; lia]).
    rewrite P1, bind_ret, P2, bind_ret, P3, !bind_ret.
    assert (EF2 : substr (iiif_url f r z t q) 0 (slen f) = Ok f) by (apply (substr_start f); reflexivity).
    rewrite EF2, bind_ret, u64_small by lia.
    replace (iiif_url f r z t q) with ((f +:+ "/") +:+ join "/" [r; z; t; q]) by (cbn [join]; unfold iiif_url; rewrite !sapp_assoc; reflexivity).
    replace (slen f + 1) with (slen (f +:+ "/")) by (rewrite slen_app; reflexivity). rewrite substr_end; [reflexivity|].
    cbn [join]. rewrite !slen_app. change (slen "/") with 1. unfold npos. lia.
  - rewrite tokens_nonempty_fields; [rewrite (nonempty_fields_join "/"); [reflexivity|exact HF]|].
    cbn [join]. unfold iiif_url in Hl. rewrite !slen_app in *. pose proof (slen_nonneg f). change (slen "/") with 1 in *. lia.
Qed.

Lemma iiif_url_roundtrip_witness :
  exists params, split_request "a/b.tif/full/max/0/x/0,0,9,9/!5,5/90/grey.png" = Ok (Some ("a/b.tif/full/max/0/x", params, "grey.png"))
    /\ tokens params "/" = Ok ["0,0,9,9"; "!5,5"; "90"; "grey.png"].
Proof.
  apply (iiif_url_roundtrip "a/b.tif/full/max/0/x" "0,0,9,9" "!5,5" "90" "grey.png").
  - repeat constructor.
  - vm_compute. reflexivity.
  - vm_compute. reflexivity.
Defined.

(** C15. An image request has four parameters, handled in order: with four the
    request is the handlers of region, size, rotation and quality one after the
    other, with more or fewer it is an error.  However it ends, nothing but the
    view has changed, and the view can be processed: the rotation is a multiple
    of a quarter turn, the flip one of three, the format one there is an encoder
    for. *)
Theorem iiif_four_parameters {P : Platform} (version width height : Z) (params : string) (s : Session) :
  slen params < 2 ^ 31 -> view_ok (view s) ->
  (match nonempty_fields "/" params with
   | [r; z; t; q] =>
       iiif_parameters version width height params s
       = (_ ← iiif_region width height r;
          size ← iiif_size version width height z;
          _ ← iiif_rotation t;
          _ ← iiif_quality q;
          mret size) s
   | _ => exists e, (iiif_parameters version width height params s).1 = Err e
   end)
  /\ exists v, (iiif_parameters version width height params s).2 = s <| view := v |> /\ view_ok v.
Proof.
  intros Hp Hs. split.
  - destruct (nonempty_fields "/" params) as [|r [|z [|t [|q [|u l]]]]] eqn:E;
      try (apply wrong_number; [exact Hp|rewrite E; discriminate]). apply right_number; assumption.
  - destruct (iiif_parameters_keeps version width height params s) as [Hv (v & Ev)]. exists v. rewrite Ev in *. auto.
Qed.

Lemma iiif_four_parameters_witness :
  exists e, (iiif_parameters 3 5 3 "full/max/0" (demo_session <| view := setImageSize 5 3 (setMaxResolutions 1 (view demo_session)) |>)).1 = Err e.
Proof.
  refine (proj1 (iiif_four_parameters 3 5 3 "full/max/0" _ _ _)); [vm_compute; reflexivity|].
  split_and!; [constructor; reflexivity|vm_compute; discriminate|vm_compute; discriminate|left; reflexivity].
Defined.

(** *** Where the handler goes wrong *)

(** An Accept header that ends after the protocol is cut at a position it does
    not have; an identifier that starts with a slash makes the search for the
    third slash begin again at the end; and the larger side of a limited size is
    computed with the ratio where its inverse is meant. *)
Lemma short_accept_throws : accept_version "text/html, http://iiif.io/api/image" = throw ExnRange.
Proof. reflexivity. Qed.

Lemma leading_slash_wraps : split_request "/a/b" = Ok (Some ("", "a/b", "b")).
Proof. vm_compute. reflexivity. Qed.

Lemma limited_size_grows : limit_request (setMaxSize 5000 new_View) (of_Z b32 2) 10000 5000 = Ok (5000, 10000).
Proof. vm_compute. reflexivity. Qed.
