(* ===== verification/Spectra.v ===== *)
(** * Spectra and profiles (src/src/SPECTRA.cc, src/src/PFL.cc)

    Two commands that send pixel values: SPECTRA one pixel of every spectral band
    in XML, PFL the pixels along a line of every band in JSON.  The bands are the
    horizontal angles of the image. *)
From stdpp Require Import base gmap strings list numbers.
From Stdlib Require Import ZArith Lia Ascii.
From coqutil Require Import Datatypes.RecordSetters.
From S2P Require Import Prelude CString CFloat Format Tokenizer View IIPImage RawTile TileManager IIPResponse Session Demo Task FIF JTL CVT.
Import TriangleBracketNotations.
#[local] Open Scope string_scope.
#[local] Open Scope list_scope.
#[local] Open Scope Z_scope.

Definition tab : string := String (chr 9) "".
Definition newline : string := String LF "".

(** The data of a tile as an array. *)
Definition array_of (t : RawTile) : res bytes := tile_bytes t.

(** ** SPECTRA *)

(** The sample as a fraction of full scale; of other depths nothing is read. *)
Definition reflectance (t : RawTile) (index : Z) : res float :=
  if RawTile.bpc t =? 8 then
    b ← array_of t; v ← ld 1 b index; Ok (fcvt b32 (fdiv b64 (fcvt b64 (of_Z b32 v)) (of_Z b64 255)))
  else if RawTile.bpc t =? 16 then
    b ← array_of t; v ← ld 2 b index; Ok (fcvt b32 (fdiv b64 (fcvt b64 (of_Z b32 v)) (of_Z b64 65535)))
  else if RawTile.bpc t =? 32 then
    b ← array_of t;
    match RawTile.sampleType t with
    | FIXEDPOINT => v ← ld 4 b index; Ok (of_Z b32 v)
    | FLOATINGPOINT => ldf b index
    end
  else Ok (FZero false).

Definition point_xml (n : Z) (r : float) : string :=
  snprintf 1024 (tab +:+ "<point>" +:+ newline +:+ tab +:+ tab +:+ "<wavelength>" +:+ dec n +:+ "</wavelength>" +:+ newline
    +:+ tab +:+ tab +:+ "<reflectance>" +:+ printf_f 6 r +:+ "</reflectance>" +:+ newline +:+ tab +:+ "</point>" +:+ newline).

(** Resolution, tile and the two coordinates. *)
Definition spectra_argument (argument : string) : res (Z * Z * Z * Z) :=
  '(a, arg) ← cut_at "," argument;
  '(b, arg) ← cut_at "," arg;
  '(c, arg) ← cut_at "," arg;
  d ← substr arg 0 (slen arg);
  Ok (atoi a, atoi b, atoi c, atoi d).

Section Spectra.
Context {P : Platform}.

(** The bands, up to the first whose tile is too small for the point. *)
Fixpoint send_points (resolution tile x y : Z) (views : list Z) : M unit :=
  match views with
  | [] => mret tt
  | n :: views =>
      v ← gets view;
      rawtile ← get_tile JPEG_encoder resolution tile n (yangle v) (getLayers v) UNCOMPRESSED;
      if (RawTile.width rawtile <=? x) || (RawTile.height rawtile <=? y) then mret tt
      else
        i ← the_image;
        let index := u32 (y * getTileWidth i + x) in
        r ← lift (reflectance rawtile index);
        _ ← metadata_of "subject";
        _ ← putS (point_xml n r);
        _ ← flush;
        send_points resolution tile x y views
  end.

Definition SPECTRA_run (argument : string) : M unit :=
  '(resolution, tile, x, y) ← lift (spectra_argument argument);
  i ← the_image;
  if (x <? 0) || (i32 (getTileWidth i) <=? x) || (y <? 0) || (i32 (getTileHeight i) <=? y) then
    throwM (ExnInvalid "SPECTRA :: Error: x,y coordinates outside of tile boundaries")
  else
    s ← gets (fun s => s);
    _ ← put_stream (createHTTPHeader VERSION "xml" (getTimestamp i) 0 (response s));
    _ ← putS ("<?xml " +:+ attr "version" "1.0" +:+ " " +:+ attr "encoding" "UTF-8" +:+ "?>" +:+ newline);
    _ ← putS ("<spectra>" +:+ newline);
    _ ← send_points resolution tile x y (getHorizontalViewsList i);
    _ ← putS "</spectra>";
    on_response setImageSent.

(** ** PFL *)

(** Resolution, start and end; a single point is a line that ends where it
    starts. *)
Definition pfl_argument (argument : string) : res (Z * Z * Z * Z * Z) :=
  '(a, arg) ← cut_at ":" argument;
  '(b, arg) ← cut_at "," arg;
  if i32 (find "-" arg) =? -1 then
    '(c, _) ← cut_at "-" arg;
    Ok (atoi a, atoi b, atoi c, atoi b, atoi c)
  else
    '(c, arg) ← cut_at "-" arg;
    '(d, arg) ← cut_at "," arg;
    e ← substr arg 0 (slen arg);
    Ok (atoi a, atoi b, atoi c, atoi d, atoi e).

(** Width and height of the line. *)
Definition line_size (x1 y1 x2 y2 : Z) : Z * Z :=
  if x1 <? x2 then (i32 (x2 - x1), 1) else if y1 <? y2 then (1, i32 (y2 - y1)) else (1, 1).

Definition intensity (t : RawTile) (j : Z) : res float :=
  if RawTile.bpc t =? 8 then b ← array_of t; v ← ld 1 b j; Ok (of_Z b32 v)
  else if RawTile.bpc t =? 16 then b ← array_of t; v ← ld 2 b j; Ok (of_Z b32 v)
  else if RawTile.bpc t =? 32 then
    b ← array_of t;
    match RawTile.sampleType t with
    | FIXEDPOINT => v ← ld 4 b j; Ok (of_Z b32 v)
    | FLOATINGPOINT => ldf b j
    end
  else Ok (FZero false).

(** The format of the stream: [fixed] with 9 digits once a float was written. *)
Definition write_number (fixed : bool) (x : float) : string := if fixed then printf_f 9 x else printf_g 6 x.

(** The samples of a band, with commas between them. *)
Definition band_values (t : RawTile) (fixed : bool) (length : Z) : res string :=
  values ← mapM (fun j => x ← intensity t j; Ok (write_number fixed x)) (range 0 length);
  Ok (String.concat "," values).

(** The bands: the accumulated length, the format and the number of the band
    are carried from one to the next. *)
Fixpoint profile_bands (resolution x1 y1 width height n : Z) (views : list Z) (k length : Z) (fixed : bool) : M string :=
  match views with
  | [] => mret ""
  | wavelength :: views =>
      i ← the_image;
      v ← gets view;
      s ← gets (fun s => s);
      rawtile ← on_tiles (getRegion capacity tileSize junk rand (codec := codec_of (getImageFormat i))
                            (compressor := compressor_of JPEG_encoder s) i (Some (watermark s)) (u32 resolution)
                            wavelength (yangle v) (getLayers v) x1 y1 (u32 width) (u32 height));
      let length := u64 (length * RawTile.channels rawtile) in
      let fixed := fixed || ((0 <? length) && bool_decide (RawTile.sampleType rawtile = FLOATINGPOINT)) in
      values ← lift (band_values rawtile fixed length);
      let prefix := if 1 <? n then tab +:+ tab +:+ dec wavelength +:+ ": " else "" in
      let close := if k <? u32 (n - 1) then "]," +:+ newline else "]" +:+ newline in
      rest ← profile_bands resolution x1 y1 width height n views (u32 (k + 1)) length fixed;
      mret (prefix +:+ "[" +:+ values +:+ close +:+ rest)
  end.

Definition PFL_run (argument : string) : M unit :=
  '(resolution, x1, y1, x2, y2) ← lift (pfl_argument argument);
  i ← the_image;
  if (resolution <? 0) || (i32 (getNumResolutions i) <=? resolution) then
    throwM (ExnString ("PFL :: Invalid resolution number: " +:+ dec resolution))
  else
    let num_res := getNumResolutions i in
    im_width ← lift (rd (image_widths i) (u32 (num_res - resolution - 1)));
    im_height ← lift (rd (image_heights i) (u32 (num_res - resolution - 1)));
    let im_width := i32 im_width in
    let im_height := i32 im_height in
    if (x1 <? 0) || (x2 <? 0) || (y1 <? 0) || (y2 <? 0) || (im_width <? x1) || (im_width <? x2)
       || (im_height <? y1) || (im_height <? y2) then
      throwM (ExnString ("PFL :: Invalid coordinates: " +:+ dec x1 +:+ "," +:+ dec y1 +:+ "-" +:+ dec x2 +:+ "," +:+ dec y2 +:+ newline))
    else
      let '(width, height) := line_size x1 y1 x2 y2 in
      let views := getHorizontalViewsList i in
      let n := Z.of_nat (length views) in
      let opening := "{" +:+ newline +:+ tab +:+ dq +:+ "profile" +:+ dq +:+ ": " +:+ (if 1 <? n then "{" +:+ newline else "") in
      bands ← profile_bands resolution x1 y1 width height n views 0 (u64 (i32 (width * height))) false;
      let profile := opening +:+ bands +:+ (if 1 <? n then tab +:+ "}" +:+ newline else "") +:+ "}" in
      s ← gets (fun s => s);
      _ ← put_stream (createHTTPHeader VERSION "json" (getTimestamp i) 0 (response s));
      _ ← flush;
      _ ← put_stream profile;
      _ ← flush;
      on_response setImageSent.
End Spectra.
