(* ===== verification/DeepZoomExt.v ===== *)
(** * Several images at once (src/src/DeepZoomExt.cc, src/src/JTLExt.cc)

    The DeepZoom protocol for a list of images: the description is an array with
    an entry for each path, and a tile request sends the tile of every image,
    below each other in one picture or as the entries of a zip file; a path that
    does not exist is an empty entry.  libvips, which joins pictures, and minizip
    are interfaces. *)
From stdpp Require Import base gmap strings list numbers.
From Stdlib Require Import ZArith Lia Ascii.
From coqutil Require Import Datatypes.RecordSetters.
From S2P Require Import Prelude CString CFloat Environment URL Utils View IIPImage RawTile Transforms ColourTransforms TileManager.
From S2P Require Import IIPResponse Session Demo Task FIF JTL Zoomify DeepZoom.
Import TriangleBracketNotations.
#[local] Open Scope string_scope.
#[local] Open Scope list_scope.
#[local] Open Scope Z_scope.

(** ** Libraries *)

(** vips::VImage *)
Class Vips := {
  VImage : Type;
  vips_new_from_buffer : bytes -> res VImage;
  vips_black : Z -> Z -> VImage;
  vips_join : VImage -> VImage -> res VImage;       (** [VIPS_DIRECTION_VERTICAL] *)
  vips_write_to_buffer : string -> VImage -> res bytes
}.

(** A zip writer over a stream in memory: the error codes and the state. *)
Class MiniZip := {
  zip_state : Type;
  zip_open : Z * zip_state;
  zip_entry_open : string -> zip_state -> zip_state;
  zip_entry_write : bytes -> zip_state -> zip_state;
  zip_entry_close : zip_state -> Z * zip_state;
  zip_close : zip_state -> zip_state;
  zip_buffer : zip_state -> bytes
}.

Definition MZ_OK : Z := 0.

Section JTLExt.
Context {P : Platform} {V : Vips} {mz : MiniZip}.

(** ** Tiles (JTLExt.cc) *)

Record CompressedTile := mkCompressedTile { rawtile : RawTile; compressedLen : Z }.

(** The data of a tile as an array of [compressedLen] bytes. *)
Definition tile_buffer (t : CompressedTile) : res bytes :=
  b ← tile_bytes (rawtile t);
  if (0 <=? compressedLen t) && (compressedLen t <=? blen b) then Ok (take (Z.to_nat (compressedLen t)) b)
  else undef "read outside an array".

(** [JTL_Ext::getTile] *)
Definition ext_process (v : View) (i : IIPImage) (t : RawTile) : res RawTile :=
  t ← (if bool_decide (getColourSpace i = CIELAB) then LAB2sRGB pow t else Ok t);
  t ← reduce_bands v t;
  if bool_decide (getColourSpace i = sRGB) && bool_decide (View.colourspace v = GREYSCALE) then greyscale junk t else Ok t.

Definition ext_encoder (v : View) : encoder := if bool_decide (output_format v = PNG) then PNG_encoder else JPEG_encoder.

Definition ext_getTile (resolution tile : Z) : M CompressedTile :=
  _ ← checkImage "";
  if (resolution <? 0) || (tile <? 0) then
    throwM (ExnString ("JTLExt :: Invalid resolution/tile number: " +:+ dec resolution +:+ "," +:+ dec tile))
  else
    v ← gets view;
    i ← the_image;
    let e := ext_encoder v in
    let ct := if needs_pixels v i then UNCOMPRESSED else output_format v in
    _ ← set_dpi e resolution;
    _ ← embed_profile e;
    t ← get_tile e resolution tile (xangle v) (yangle v) (getLayers v) ct;
    let len := i32 (RawTile.dataLength t) in
    i ← the_image;
    t ← lift (ext_process v i t);
    s ← gets (fun s => s);
    let compressor := compressor_of e s in
    '(len, t) ← lift (if bool_decide (compressionType t = UNCOMPRESSED) then
                        '(len, t) ← Compress t; Ok (i32 len, t)
                      else Ok (len, t));
    mret (mkCompressedTile t (u32 len)).

(** The pictures below each other, black where a path is missing; the second
    component of the state is [compressedI]. *)
Definition append_step (tiles : list CompressedTile) (invalid : list Z) (w h i : Z) (st : list VImage * Z) : res (list VImage * Z) :=
  let '(images, k) := st in
  if bool_decide (i ∈ invalid) then Ok (images ++ [vips_black w h], k)
  else
    t ← rd tiles k;
    b ← tile_buffer t;
    image ← vips_new_from_buffer b;
    Ok (images ++ [image], k + 1).

Definition file_extension (e : encoder) : string := match e with JPEG_encoder => ".jpg" | PNG_encoder => ".png" end.

Definition append_tiles (e : encoder) (tiles : list CompressedTile) (invalid : list Z) : res bytes :=
  let tileCount := Z.of_nat (length tiles + length invalid) in
  first ← rd tiles 0;
  '(images, _) ← foldM (append_step tiles invalid (RawTile.width (rawtile first)) (RawTile.height (rawtile first)))
                   (range 0 tileCount) ([], 0);
  match images with
  | [] => undef "empty vector"
  | image :: images =>
      out ← foldM (fun i out => vips_join out i) images image;
      vips_write_to_buffer (file_extension e) out
  end.

(** [JTL_Ext::send] *)
Definition ext_send (e : encoder) (tiles : list CompressedTile) (invalid : list Z) : M unit :=
  let tileCount := (length tiles + length invalid)%nat in
  buffer ← lift (if (1 <? tileCount)%nat then append_tiles e tiles invalid else Ok []);
  s ← gets (fun s => s);
  let mime := getMimeType (Compressor := compressor_of e s) in
  _ ← match tiles, invalid with
      | [t], [] =>
          _ ← put_stream (createHTTPHeader VERSION mime "" (u32 (compressedLen t)) (response s));
          data ← lift (tile_buffer t);
          putStr data (blen data)
      | _, _ =>
          if (1 <? tileCount)%nat then
            _ ← put_stream (createHTTPHeader VERSION mime "" (u32 (blen buffer)) (response s));
            putStr buffer (blen buffer)
          else undefM "uninitialised buffer"
      end;
  _ ← flush;
  on_response setImageSent.

(** One entry of the zip file: the state is the error, the writer and
    [compressedI].  The result of opening the entry is compared with [err], not
    assigned to it, and lost. *)
Definition zip_step (e : encoder) (tiles : list CompressedTile) (invalid : list Z) (i : Z) (st : Z * zip_state * Z) : res (Z * zip_state * Z) :=
  let '(err, handle, k) := st in
  let handle := zip_entry_open (snprintf 20 ("t" +:+ dec i +:+ file_extension e)) handle in
  if negb (err =? MZ_OK) then Ok (err, handle, k)
  else
    '(handle, k) ← (if bool_decide (i ∈ invalid) then Ok (zip_entry_write [] handle, k)
                    else t ← rd tiles k; b ← tile_buffer t; Ok (zip_entry_write b handle, k + 1));
    let '(err, handle) := zip_entry_close handle in
    Ok (err, handle, k).

(** [JTL_Ext::sendZip] *)
Definition ext_sendZip (e : encoder) (tiles : list CompressedTile) (invalid : list Z) : M unit :=
  let tileCount := Z.of_nat (length tiles + length invalid) in
  let '(err, handle) := zip_open in
  '(_, handle, _) ← lift (foldM (zip_step e tiles invalid) (range 0 tileCount) (err, handle, 0));
  let buffer := zip_buffer (zip_close handle) in
  let size := i32 (blen buffer) in
  s ← gets (fun s => s);
  _ ← put_stream (createHTTPHeader VERSION "application/octet-stream" "" (u32 size) (response s));
  _ ← putStr buffer size;
  _ ← flush;
  on_response setImageSent.

(** ** The argument (DeepZoomExt.cc) *)

(** The argument without [/greyscale], whether it was there, the paths and the
    suffix.  Positions of the whole argument are used on the shortened one. *)
Definition ext_argument (argument : string) : res (string * bool * string * string) :=
  let greyscalePos := i32 (find "/greyscale" argument) in
  let grey := negb (u64 greyscalePos =? npos) in
  stripped ← (if grey then substr argument 0 (u64 greyscalePos) else Ok argument);
  suffix ← substr stripped (u64 (find_last_of "." argument + 1)) (slen argument);
  prefix ← (if bool_decide (suffix = "dzi") then substr stripped 0 (u64 (slen argument - 4))
            else substr stripped 0 (rfind "_files/" argument));
  Ok (stripped, grey, prefix, suffix).

(** The encoder of a format, and whether the tiles are zipped. *)
Definition ext_format (format : string) : option (encoder * bool) :=
  if String.prefix "jpg" format then Some (JPEG_encoder, false)
  else if String.prefix "png" format then Some (PNG_encoder, false)
  else if String.prefix "zip" format then Some (PNG_encoder, true)
  else None.

(** The name of the tile, which becomes the suffix. *)
Definition tile_name (argument : string) : res string :=
  let n1 := u32 (find_last_of "/" argument) in
  let n := u32 (u64 (find_last_of "." argument - n1 - 1)) in
  substr argument (u32 (n1 + 1)) n.

(** The test opens the file, with the suffix of the file system. *)
Definition pathExists (path : string) : res bool :=
  let '(decoded, _) := decode (new_URL path) in
  decoded ← filter_path decoded;
  Ok (match fs_head filesystem (c_str (getFileSystemPrefix getenv +:+ decoded +:+ getFileSystemSuffix getenv)) with
      | Some _ => true | None => false end).

(** ** The handler *)

(** What the loop over the paths keeps: [DZExtResponseData] without the data of
    the path. *)
Record ResponseData := mkResponseData {
  initHeader : string;
  suffix : string;
  invalidPathIndices : list Z;
  compressedTiles : list CompressedTile
}.

Definition image_array : string := "<ImageArray xmlns=" +:+ dq +:+ "http://rationai.fi.muni.cz/deepzoom/images" +:+ dq +:+ ">".

Definition image_entry (tw width height : Z) : string :=
  "<Image " +:+ attr "TileSize" (dec tw) +:+ " " +:+ attr "Overlap" "0" +:+ " " +:+ attr "Format" "jpg" +:+ ">"
  +:+ "<Size " +:+ attr "Width" (dec width) +:+ " " +:+ attr "Height" (dec height) +:+ "/></Image>".

(** The entry of a path in the description, sent after the last one. *)
Definition add_entry (isFirst isLast : bool) (tw width height : Z) (d : ResponseData) : M ResponseData :=
  s ← gets (fun s => s);
  let h := initHeader d +:+ (if isFirst then createHTTPHeader VERSION "xml" "" 0 (response s) +:+ image_array else "")
           +:+ image_entry tw width height +:+ (if isLast then "</ImageArray>" else "") in
  _ ← when isLast (_ ← put_stream h; on_response setImageSent);
  mret (mkResponseData h (suffix d) (invalidPathIndices d) (compressedTiles d)).

(** The tiles, if this was the last path; without an encoder the pointer is
    null. *)
Definition send_all (isLast : bool) (format : option (encoder * bool)) (d : ResponseData) : M unit :=
  when isLast
    match format with
    | Some (e, true) => ext_sendZip e (compressedTiles d) (invalidPathIndices d)
    | Some (e, false) => ext_send e (compressedTiles d) (invalidPathIndices d)
    | None => undefM "null compressor"
    end.

Definition sendMissingFileResponse (isFirst isLast : bool) (format : option (encoder * bool)) (d : ResponseData) : M ResponseData :=
  if bool_decide (suffix d = "dzi") then add_entry isFirst isLast 0 0 0 d
  else _ ← send_all isLast format d; mret d.

Definition sendExistingFileResponse (isFirst isLast : bool) (format : option (encoder * bool)) (argument : string) (d : ResponseData)
  : M ResponseData :=
  i ← the_image;
  width ← lift (getImageWidth i 0);
  height ← lift (getImageHeight i 0);
  let tw := getTileWidth i in
  let numResolutions := getNumResolutions i in
  dzi_res ← lift (dzi_levels width height);
  if bool_decide (suffix d = "dzi") then add_entry isFirst isLast tw width height d
  else
    '(level, x, y) ← lift (dz_tile argument);
    name ← lift (tile_name argument);
    let resolution := dz_resolution level dzi_res numResolutions in
    width ← lift (getImageWidth i (i32 (numResolutions - resolution - 1)));
    _ ← lift (getImageHeight i (i32 (numResolutions - resolution - 1)));
    tile ← lift (tile_index width tw x y);
    t ← ext_getTile resolution (i32 tile);
    let d := mkResponseData (initHeader d) name (invalidPathIndices d) (compressedTiles d ++ [t]) in
    _ ← send_all isLast format d;
    mret d.

(** The loop over the paths, from the [i]th on. *)
Fixpoint each_path (n i : Z) (format : option (encoder * bool)) (argument : string) (paths : list string) (d : ResponseData) : M unit :=
  match paths with
  | [] => mret tt
  | currentPath :: paths =>
      there ← lift (pathExists currentPath);
      let invalid := if there : bool then invalidPathIndices d else invalidPathIndices d ++ [i] in
      _ ← when there (FIF_run currentPath);
      if n =? Z.of_nat (length invalid) then throwM (ExnFile "All tile sources are missing!")
      else
        let d := mkResponseData (initHeader d) (suffix d) invalid (compressedTiles d) in
        d ← (if there then sendExistingFileResponse (i =? 0) (i =? n - 1) format argument d
             else sendMissingFileResponse (i =? 0) (i =? n - 1) format d);
        each_path n (i + 1) format argument paths d
  end.

Definition DeepZoomExt_run (argument : string) : M unit :=
  '(stripped, grey, prefix, suffix) ← lift (ext_argument argument);
  _ ← when grey (on_view (fun v => v <| View.colourspace := GREYSCALE |>));
  format ← lift (substr suffix (u64 (find_last_of "." suffix + 1)) (slen suffix));
  let f := ext_format format in
  _ ← match f with
      | Some (JPEG_encoder, _) => on_view (fun v => v <| output_format := JPEG |>)
      | Some (PNG_encoder, _) => on_view (fun v => v <| output_format := PNG |>)
      | None => mret tt
      end;
  paths ← lift (split prefix "," (-1));
  each_path (Z.of_nat (length paths)) 0 f stripped paths (mkResponseData "" suffix [] []).
End JTLExt.
