(* ===== verification/Main.v ===== *)
(** * The server (src/src/Main.cc, src/src/Memcached.h)

    [init] reads the configuration, [handle_request] is the body of the FastCGI
    loop: it builds a session, finds the request in the URI, the query string or
    the body of a POST, runs its commands, and turns what they did or threw into
    an answer.  What survives a request is the [Server]: the cache of images,
    the tile cache and Memcached.  [server_step] has the requests and the signal
    that empties the caches.

    The parameters and the input of a request are arguments ([Serving] has the loop over
    the FastCGI library); libmemcached is an interface; the signals that stop the server and
    the messages to the log are left out. *)
From stdpp Require Import base gmap strings list numbers.
From Stdlib Require Import ZArith Lia Ascii.
From coqutil Require Import Datatypes.RecordSetters.
From S2P Require Import Prelude CString CFloat Environment Tokenizer URL Utils View IIPImage RawTile Cache Watermark TileManager.
From S2P Require Import Compressors IIPResponse Session Demo Task OBJ FIF JTL CVT TIL Zoomify DeepZoom IIIF Spectra DeepZoomExt.
Import TriangleBracketNotations.
#[local] Open Scope string_scope.
#[local] Open Scope list_scope.
#[local] Open Scope Z_scope.

(** ** Memcached (Memcached.h) *)

(** The connection, and what libmemcached does with a key. *)
Class Memcached := {
  memc : Type;
  connected : bool;
  memcached_set : string -> bytes -> Z -> memc -> memc;
  memcached_get : string -> memc -> option bytes
}.

Section Memcache.
Context {mc : Memcached}.

Definition store (timeout : Z) (key : string) (data : bytes) (m : memc) : memc :=
  if connected then memcached_set ("iipsrv::" +:+ key) data timeout m else m.

Definition retrieve (key : string) (m : memc) : option bytes :=
  if connected then memcached_get ("iipsrv::" +:+ key) m else None.
End Memcache.

(** ** Configuration *)

(** How the server was built, whether the log file can be opened, and the
    watermark image as libtiff reads it. *)
Class Host := {
  log_opens : string -> bool;
  have_kakadu : bool;
  tiff_rgba : string -> option tiff_file
}.

(** The prefix and the command of a URI map, if it is well formed and its
    protocol supported. *)
Definition parse_uri_map (uri_map_string : string) : res (option (string * string)) :=
  let pos := find "=>" uri_map_string in
  if empty uri_map_string || (pos =? npos) then Ok None
  else
    prefix ← substr uri_map_string 0 pos;
    protocol ← substr uri_map_string (pos + 2) npos;
    let prtcl := tolower protocol in
    if bool_decide (prtcl ∈ ["iip"; "iiif"; "zoomify"; "deepzoom"; "deepzoomext"]) then
      Ok (Some (prefix, if bool_decide (prtcl = "iip") then "fif" else prtcl))
    else Ok None.

Record Config := mkConfig {
  c_loglevel : Z;
  jpeg_quality : Z;
  png_quality : Z;
  max_CVT : Z;
  c_max_layers : Z;
  c_watermark : Watermark;
  c_cors : string;
  base_url : string;
  cache_control : string;
  uri_map : option (string * string);
  c_allow_upscaling : bool;
  c_embed_icc : bool;
  c_iiif_version : Z;
  kdu_readmode : Z;
  memcached_timeout : Z
}.

Record Server {mc : Memcached} := mkServer {
  s_imageCache : gmap string IIPImage;
  s_tiles : TMState;
  s_memcached : memc;
  IIPcount : Z
}.

Section Main.
Context {P : Platform} {V : Vips} {mz : MiniZip} {mc : Memcached} {H : Host}.

Definition init (m : memc) : res (Config * Server) :=
  let loglevel := getVerbosity getenv in
  let loglevel := if (1 <=? loglevel) && negb (log_opens (getLogFile getenv)) then 0 else loglevel in
  uri_map ← parse_uri_map (getURIMap getenv);
  let watermark := new_Watermark (getWatermark getenv) (getWatermarkOpacity getenv) (getWatermarkProbability getenv) in
  watermark ← Watermark.init tiff_rgba watermark;
  tileCache ← new_Cache (getMaxImageCacheSize getenv);
  Ok (mkConfig loglevel (getJPEGQuality getenv) (getPNGQuality getenv) (getMaxCVT getenv) (getMaxLayers getenv) watermark
        (Environment.getCORS getenv) (getBaseURL getenv) (Environment.getCacheControl getenv) uri_map (getAllowUpscaling getenv)
        (negb (getEmbedICC getenv =? 0)) (getIIIFVersion getenv) (getKduReadMode getenv) (getMemcachedTimeout getenv),
      mkServer mc ∅ (mkTMState tileCache 0) m 0).

(** ** The request *)

(** A request of FastCGI: its parameters and what its input holds. *)
Record Request := mkRequest { envp : string -> option string; input : bytes }.

Definition of_bytes (b : bytes) : string := String.string_of_list_ascii (chr <$> b).

(** A request that the URI map takes; [None] when it does not. *)
Definition mapped_request (map : string * string) (request_uri : string) : res (option string) :=
  let '(prefix, command) := map in
  let len := slen prefix in
  if (len =? 0) || (find prefix request_uri =? 1) then
    let start := if 0 <? len then u32 (len + 2) else 1 in
    let q := find_first_of "?" request_uri in
    let stop := if q =? npos then u32 (slen request_uri) else u32 q in
    path ← substr request_uri start (u32 (stop - start));
    Ok (Some (command +:+ "=" +:+ path))
  else Ok None.

Definition content_length (r : Request) : Z := match envp r "CONTENT_LENGTH" with Some s => atoi (c_str s) | None => 0 end.

(** The body of a POST: the buffer is filled as far as the input goes. *)
Definition post_request (r : Request) : res string :=
  let contentLength := content_length r in
  if contentLength <? 0 then throw ExnAlloc
  else
    let content := take (Z.to_nat contentLength) (input r) in
    Ok (of_bytes (content ++ drop (length content) (new_bytes junk contentLength))).

(** The request the URI map or the query makes. *)
Definition named_request (c : Config) (r : Request) : res string :=
  mapped ← match uri_map c with
           | Some m => mapped_request m (match envp r "REQUEST_URI" with Some u => c_str u | None => "" end)
           | None => Ok None
           end;
  let request := default "" mapped in
  Ok (if empty request then match envp r "QUERY_STRING" with Some q => c_str q | None => "" end else request).

Definition request_string (c : Config) (r : Request) : res string :=
  request ← named_request c r;
  if empty request then post_request r else Ok request.

(** The headers that are passed on. *)
Definition request_headers (c : Config) (r : Request) (request : string) : gmap string string :=
  foldl (fun h name => match envp r name with Some v => <[name := c_str v]> h | None => h end)
    (<["BASE_URL" := base_url c]> (<["QUERY_STRING" := request]> ∅))
    ["SERVER_PROTOCOL"; "HTTP_HOST"; "REQUEST_URI"; "HTTPS"; "HTTP_ACCEPT"; "HTTP_X_IIIF_ID"; "HTTP_IF_MODIFIED_SINCE"].

(** ** Commands *)

(** Command and argument of one token; only pairs of non-empty strings count. *)
Definition parse_command (token : string) : res (list (string * string)) :=
  let n := i32 (find_first_of "=" token) in
  first ← substr token 0 (u64 n);
  second ← substr token (u64 (i32 (n + 1))) (slen token);
  Ok (if negb (empty first) && negb (empty second) then [(first, second)] else []).

Definition parse_commands (request : string) : res (list (string * string)) :=
  ts ← tokens request "&";
  pairs ← mapM parse_command ts;
  Ok (concat pairs).

(** [task->run( &session, argument )] *)
Definition run_task (t : Task) (argument : string) : M unit :=
  match t with
  | OBJ => OBJ_run argument
  | FIF => FIF_run argument
  | MINMAX => MINMAX_run argument
  | TIL => TIL_run argument
  | PTL => PTL_run argument
  | JTL => JTL_run argument
  | JTLS => JTLS_run argument
  | CVT => CVT_run argument
  | Zoomify => Zoomify_run argument
  | SPECTRA => SPECTRA_run argument
  | PFL => PFL_run argument
  | DeepZoom => DeepZoom_run argument
  | DeepZoomExt => DeepZoomExt_run argument
  | IIIF => IIIF_run argument
  | QLT => QLT_run argument
  | SDS => SDS_run argument
  | CNT => CNT_run argument
  | GAM => GAM_run argument
  | WID => WID_run argument
  | HEI => HEI_run argument
  | RGN => RGN_run argument
  | ROT => ROT_run argument
  | SHD => SHD_run argument
  | CMP => CMP_run argument
  | INV => INV_run argument
  | LYR => LYR_run argument
  | CTW => CTW_run argument
  | COL => COL_run argument
  | ICC => ICC_run argument
  end.

Definition run_command (command : string * string) : M unit :=
  match factory command.1 with
  | Some task => run_task task command.2
  | None => on_response (setError "2 2" command.1)
  end.

(** ** The body of the loop *)

Definition new_session (c : Config) (s : Server) : Session :=
  let view := new_View in
  let view := if negb (max_CVT c =? 0) then setMaxSize (max_CVT c) view else view in
  let view := if negb (c_max_layers c =? 0) then setMaxLayers (c_max_layers c) view else view in
  let view := setEmbedICC (c_embed_icc c) (setAllowUpscaling (c_allow_upscaling c) view) in
  let response := setCacheControl (cache_control c) (setCORS (c_cors c) (new_IIPResponse VERSION)) in
  let options := <["IIIF_VERSION" := c_iiif_version c]> ∅ in
  let options := if have_kakadu then <["KAKADU_READMODE" := kdu_readmode c]> options else options in
  mkSession None (new_JPEGCompressor (jpeg_quality c)) (new_PNGCompressor (png_quality c)) view response (c_watermark c)
    (c_loglevel c) ∅ options (s_imageCache s) (s_tiles s) [].

(** An answer kept by Memcached is sent at once. *)
Definition check_memcached (r : Request) (request : string) (m : memc) : M unit :=
  h ← gets headers;
  let conditional := match envp r "HTTP_IF_MODIFIED_SINCE" with Some _ => true | None => false end in
  if negb conditional || empty (default "" (h !! "HTTP_IF_MODIFIED_SINCE")) then
    match retrieve request m with
    | Some data => _ ← putStr data (blen data); _ ← flush; throwM (ExnCode 100)
    | None => mret tt
    end
  else mret tt.

(** After the commands: something must be sent. *)
Definition send_response (request : string) : M unit :=
  r ← gets response;
  _ ← when (negb (imageSent r) && negb (IIPResponse.isSet r)) (on_response (setError "2 1" request));
  r ← gets response;
  when (IIPResponse.isSet r) (putS (formatResponse r)).

(** The [try] block. *)
Definition process (c : Config) (r : Request) (m : memc) : M unit :=
  request ← lift (request_string c r);
  if empty request then
    _ ← on_response (setStatus "200 OK");
    throwM (ExnString "QUERY_STRING not set")
  else
    _ ← modify (fun s => s <| headers := request_headers c r request |>);
    _ ← check_memcached r request m;
    requests ← lift (parse_commands request);
    _ ← forM requests run_command;
    send_response request.

(** An answer of a status line, as the [catch] clauses write it. *)
Definition status_response (status : string) (r : IIPResponse) (message : string) : string :=
  "Status: " +:+ status +:+ crlf +:+ "Server: iipsrv/" +:+ VERSION +:+ crlf +:+ "Content-Type: text/plain; charset=utf-8"
  +:+ (if negb (empty (getCORS r)) then crlf +:+ getCORS r else "") +:+ crlf +:+ crlf +:+ message.

(** The [catch] clauses. *)
Definition catch (e : exn) : M unit :=
  r ← gets response;
  match e with
  | ExnCode code =>
      if code =? 304 then
        _ ← putS ("Status: 304 Not Modified" +:+ crlf +:+ "Server: iipsrv/" +:+ VERSION +:+ crlf +:+ crlf); flush
      else mret tt
  | ExnString _ => if errorIsSet r then putS (formatResponse r) else putS (getAdvert VERSION r)
  | ExnFile what => _ ← putS (status_response "404 Not Found" r (c_str what)); flush
  | ExnInvalid what => _ ← putS (status_response "400 Bad Request" r (c_str what)); flush
  | ExnAlloc => _ ← putS (status_response "500 Internal Server Error" r "Unable to allocate memory"); flush
  | ExnRange | ExnOther _ => putS (getAdvert VERSION r)
  end.

(** One turn of the loop: the bytes sent, and the server afterwards.  An answer
    is kept by Memcached when the [try] block ended normally. *)
Definition handle_request (c : Config) (r : Request) (s : Server) : res bytes * Server :=
  let '(result, session) := process c r (s_memcached s) (new_session c s) in
  let after (session : Session) (m : memc) := mkServer mc (imageCache session) (tiles session) m (IIPcount s + 1) in
  match result with
  | Ok _ =>
      let key := default "" (headers session !! "QUERY_STRING") in
      let m := if cachable (response session) then store (memcached_timeout c) key (out session) (s_memcached s)
               else s_memcached s in
      (Ok (out session), after session m)
  | Err (Thrown e) =>
      let '(answer, session) := catch e session in
      ((_ ← answer; Ok (out session)), after session (s_memcached s))
  | Err f => (Err f, after session (s_memcached s))
  end.

(** ** The server as a transition system *)

(** [IIPReloadCache], between two requests. *)
Definition reload_cache (s : Server) : Server :=
  mkServer mc ∅ (mkTMState (clear (tileCache (s_tiles s))) (rand_calls (s_tiles s))) (s_memcached s) (IIPcount s).

Inductive event := Handle (r : Request) (answer : bytes) | Hangup.

Inductive server_step (c : Config) : Server -> event -> Server -> Prop :=
| step_request r answer s s' : handle_request c r s = (Ok answer, s') -> server_step c s (Handle r answer) s'
| step_hangup s : server_step c s Hangup (reload_cache s).

Inductive reachable (c : Config) (s0 : Server) : Server -> Prop :=
| reach_start : reachable c s0 s0
| reach_step s e s' : reachable c s0 s -> server_step c s e s' -> reachable c s0 s'.
End Main.
