(* ===== verification/Total.v ===== *)
(** * Computations without undefined behaviour

    A result is [defined] when it is a value or an exception: no access outside a
    buffer, no null pointer, no loop that goes on.  A handler [answers] when it ends so
    from every session of a kind.  [sure] lists the requests for which the handlers do:
    those that open images, set parameters, ask for objects of the image or for a
    command there is not, and those that ask for a tile or a region before an image was
    named.  The codecs are asked to be [defined] when they open a file; [tiff_opens]
    shows it of the TIFF reader. *)
From stdpp Require Import base gmap strings list numbers.
From Stdlib Require Import ZArith Lia Ascii.
From coqutil Require Import Datatypes.RecordSetters.
From S2P Require Import Prelude CString CFloat Environment Tokenizer URL Utils View IIPImage RawTile Cache Watermark TileManager.
From S2P Require Import Compressors IIPResponse Session Demo Task OBJ FIF JTL CVT TIL Zoomify DeepZoom IIIF Spectra DeepZoomExt Main.
Import TriangleBracketNotations.
#[local] Open Scope string_scope.
#[local] Open Scope list_scope.
#[local] Open Scope Z_scope.

(** ** Results *)

Definition defined {A} (r : res A) : Prop :=
  match r with Err (Undefined _) | Err OutOfFuel => False | _ => True end.

Create HintDb defined discriminated.

Lemma defined_ok {A} (a : A) : defined (Ok a).
Proof. exact I. Qed.

Lemma defined_throw {A} e : defined (throw (A := A) e).
Proof. exact I. Qed.

Lemma defined_bind {A B} (m : res A) (k : A -> res B) : defined m -> (forall a, defined (k a)) -> defined (m ≫= k).
Proof. intros Hm Hk. destruct m as [a|f]; [apply Hk|exact Hm]. Qed.

Lemma defined_mapM {A B} (f : A -> res B) l : (forall a, defined (f a)) -> defined (mapM f l).
Proof.
  intros H. induction l as [|a l IH]; [exact I|].
  change (mapM f (a :: l)) with (b ← f a; k ← mapM f l; mret (b :: k)).
  apply defined_bind; [apply H|]. intros b. apply defined_bind; [exact IH|]. intros k. exact I.
Qed.

Lemma defined_foldM {A S} (f : A -> S -> res S) l s : (forall a s, defined (f a s)) -> defined (foldM f l s).
Proof.
  intros H. revert s. induction l as [|a l IH]; intros s; [exact I|]. cbn [foldM]. apply defined_bind; [apply H|exact IH].
Qed.

Lemma defined_substr s p n : defined (substr s p n).
Proof. unfold substr. destruct (_ <? _); exact I. Qed.

Lemma defined_erase s p n : defined (erase s p n).
Proof. unfold erase. destruct (_ <? _); exact I. Qed.

#[export] Hint Resolve defined_ok defined_throw defined_mapM defined_substr defined_erase : defined.

(** The loop of the filter ends for every path: each step makes it shorter. *)
Lemma defined_filter fuel s : (String.length s <= fuel)%nat -> defined (filter_loop fuel s).
Proof.
  revert s. induction fuel as [|fuel IH]; intros s Hf; cbn [filter_loop]; destruct (Z.ltb_spec (u32 (find "../" s)) (slen s)) as [E|];
    try exact I; pose proof (u32_range (find "../" s)) as R; [unfold slen in E; lia|].
  unfold erase. rewrite (proj2 (Z.ltb_ge _ _)) by lia. rewrite bind_ret. apply IH.
  rewrite slength_app, length_stake, length_sdrop. unfold slen in *. lia.
Qed.

(** ** Handlers *)

Section Answers.
Context {P : Platform}.

Definition answers {A} (I : Session -> Prop) (m : M A) (J : Session -> Prop) : Prop :=
  forall s, I s -> match m s with (Ok _, t) => J t | (r, _) => defined r end.

Lemma answers_bind {A B} I J K (m : M A) (k : A -> M B) :
  answers I m J -> (forall a, answers J (k a) K) -> answers I (m ≫= k) K.
Proof.
  intros Hm Hk s Hs. specialize (Hm s Hs). unfold mbind, M_bind. destruct (m s) as [[a|f] t]; [apply (Hk a t Hm)|exact Hm].
Qed.

Lemma answers_ret {A} I (a : A) : answers I (mret a) I.
Proof. intros s Hs. exact Hs. Qed.

Lemma answers_lift {A} I (r : res A) : defined r -> answers I (lift r) I.
Proof. intros H s Hs. unfold lift. destruct r; [exact Hs|exact H]. Qed.

Lemma answers_gets {A} I (f : Session -> A) : answers I (gets f) I.
Proof. intros s Hs. exact Hs. Qed.

Lemma answers_modify (I J : Session -> Prop) f : (forall s, I s -> J (f s)) -> answers I (modify f) J.
Proof. intros H s Hs. apply H, Hs. Qed.

Lemma answers_throw {A} I J e : answers I (throwM (A := A) e) J.
Proof. intros s Hs. exact Logic.I. Qed.

Lemma answers_when I b m : answers I m I -> answers I (when b m) I.
Proof. intros H. destruct b; [exact H|apply answers_ret]. Qed.

Lemma answers_weaken {A} (I I' J J' : Session -> Prop) (m : M A) :
  (forall s, I' s -> I s) -> (forall s, J s -> J' s) -> answers I m J -> answers I' m J'.
Proof. intros HI HJ H s Hs. specialize (H s (HI s Hs)). destruct (m s) as [[a|f] t]; auto. Qed.

(** The log is not verbose, and whether an image may be open. *)
Definition calm (opened : bool) (s : Session) : Prop := loglevel s < 2 /\ (opened = false -> image s = None).

Lemma calm_open b s : calm b s -> calm true s.
Proof. intros [H _]. split; [exact H|discriminate]. Qed.

Lemma answers_response b f : answers (calm b) (on_response f) (calm b).
Proof. apply answers_modify. intros s H. exact H. Qed.

Lemma answers_view b f : answers (calm b) (on_view f) (calm b).
Proof. apply answers_modify. intros s H. exact H. Qed.

Lemma answers_sets b m : sets m -> answers (calm b) m (calm b).
Proof.
  intros H s [Hl Hi]. destruct (H s ltac:(lia)) as (t & -> & E1 & _ & _ & E2 & _). split; [rewrite E2; exact Hl|].
  rewrite E1. exact Hi.
Qed.

(** A handler that looks for the image first. *)
Lemma answers_unset {J} argument (m : M unit) : answers (calm false) (_ ← checkImage argument; m) J.
Proof. intros s [_ Hi]. rewrite (unset_image argument s m (Hi eq_refl)). exact I. Qed.

(** What follows such a test may use the image. *)
Definition calm_with (s : Session) : Prop := loglevel s < 2 /\ is_Some (image s).

Lemma answers_check argument (k : IIPImage -> M unit) b :
  (forall i, answers calm_with (k i) calm_with) -> answers (calm b) (_ ← checkImage argument; i ← the_image; k i) (calm true).
Proof.
  intros Hk s [Hl Hb]. unfold checkImage, the_image, mbind, M_bind, gets. destruct (image s) as [i|] eqn:Ei; [|exact I].
  cbn. rewrite Ei. specialize (Hk i s (conj Hl (ex_intro _ i Ei))).
  destruct (k i s) as [[a|f] t]; [|exact Hk]. destruct Hk as [H _]. split; [exact H|discriminate].
Qed.

(** ** Opening an image *)

(** Opening a file throws or gives an image. *)
Record codecs_open : Prop := {
  co_open : forall f i, defined (codec_openImage (Codec := codec_of f) i);
  co_info : forall f i x y, defined (codec_loadImageInfo (Codec := codec_of f) i x y)
}.
Context (HC : codecs_open).

Lemma defined_fresh argument : defined (fresh_image argument).
Proof.
  unfold fresh_image, Initialise, testImageType, updateTimestamp, measureHorizontalAngles, measureVerticalAngles.
  repeat first [ apply defined_bind; [|intros ?] | solve [auto with defined]
               | apply defined_mapM; intros ? | match goal with |- defined (match ?x with _ => _ end) => destruct x end ].
Qed.

Lemma answers_image {B} (k : IIPImage -> M B) J : (forall i, answers calm_with (k i) J) -> answers calm_with (the_image ≫= k) J.
Proof.
  intros Hk s [Hl [i Ei]]. unfold the_image, mbind, M_bind. rewrite Ei. apply Hk. split; [exact Hl|eauto].
Qed.

Lemma answers_on_image f : (forall i, defined (f i)) -> answers calm_with (on_image f) calm_with.
Proof.
  intros Hf. unfold on_image. apply answers_image. intros i. apply (answers_bind _ calm_with); [apply answers_lift, Hf|].
  intros j. apply answers_modify. intros s [Hl _]. split; [exact Hl|cbn; eauto].
Qed.

Lemma answers_with_response f : answers calm_with (on_response f) calm_with.
Proof. apply answers_modify. intros s H. exact H. Qed.

Lemma answers_metadata field : answers calm_with (metadata_of field) calm_with.
Proof.
  unfold metadata_of. apply answers_image. intros i. destruct (getMetadata field i) as [m j].
  apply (answers_bind _ calm_with); [|intros _; apply answers_ret].
  apply answers_modify. intros s [Hl _]. split; [exact Hl|cbn; eauto].
Qed.

Lemma answers_find b argument : answers (calm b) (find_image argument) (calm b).
Proof.
  unfold find_image. apply (answers_bind _ (calm b)); [apply answers_gets|]. intros c.
  destruct (_ =? _)%nat; [|destruct (c !! argument); [apply answers_ret|]];
    (apply (answers_bind _ (calm b)); [apply answers_lift, defined_fresh|]; intros t); [apply answers_ret|].
  apply (answers_bind _ (calm b)); [apply answers_modify; intros s H; exact H|]. intros _. apply answers_ret.
Qed.

Lemma answers_create b argument test : answers (calm b) (create_image argument test) calm_with.
Proof.
  assert (H : answers (calm b) (modify (fun s => s <| image := Some test |>)) calm_with).
  { apply answers_modify. intros s [Hl _]. split; [exact Hl|cbn; eauto]. }
  unfold create_image. destruct (getImageFormat test); [exact H|destruct have_jpeg2000; [exact H|]|]; apply answers_throw.
Qed.

Lemma answers_open b argument : answers (calm b) (open_image argument) calm_with.
Proof.
  unfold open_image. apply (answers_bind _ (calm b)); [apply answers_find|]. intros [test time].
  apply (answers_bind _ calm_with); [apply answers_create|]. intros _.
  apply (answers_bind _ calm_with); [apply answers_on_image; intros i; apply (co_open HC)|]. intros _.
  apply answers_image. intros i.
  apply (answers_bind _ calm_with); [apply answers_when, answers_on_image; intros j; apply (co_info HC)|]. intros _.
  apply answers_image. intros j.
  apply (answers_bind _ calm_with); [apply answers_modify; intros s H; exact H|]. intros _.
  apply (answers_bind _ calm_with); [apply answers_with_response|]. intros _.
  intros s Hs. rewrite gets_bind, (proj2 (Z.leb_gt 2 _)) by apply Hs. exact Hs.
Qed.

Lemma answers_modified : answers calm_with check_modified calm_with.
Proof.
  unfold check_modified. apply (answers_bind _ calm_with); [apply answers_gets|]. intros h.
  destruct (h !! _); [|apply answers_ret]. apply answers_image. intros i.
  destruct (_ <=? _); [apply answers_throw|apply answers_ret].
Qed.

Lemma answers_FIF b src : answers (calm b) (FIF_run src) (calm true).
Proof.
  unfold FIF_run. destruct (decode (new_URL src)) as [argument u].
  apply (answers_bind _ (calm b)); [apply answers_lift, defined_filter; lia|]. intros path.
  apply (answers_bind _ calm_with).
  - intros s Hs. pose proof (answers_open b path s Hs) as H. unfold try_catch.
    destruct (open_image path s) as [[a|[e|w|]] t]; try exact H. destruct e; exact I.
  - intros _. apply (answers_bind _ calm_with); [apply answers_modified|]. intros _.
    apply answers_modify. intros s [Hl _]. split; [exact Hl|discriminate].
Qed.

(** ** The image in words *)

(** The objects that are computed from the sizes and ranges of the image. *)
Definition measured : list string := ["basic-info"; "max-size"; "min-max-sample-values"; "resolutions"].

(** One of the other objects. *)
Ltac object :=
  repeat first [ apply answers_with_response | apply answers_ret | apply answers_image; intros ?
               | apply answers_when | apply (answers_bind _ calm_with); [solve [apply answers_metadata]|intros ?]
               | match goal with |- answers _ (let '_ := ?x in _) _ => destruct x end
               | match goal with |- answers _ (match ?x with _ => _ end) _ => destruct x end ].

Lemma answers_metadata_object b field argument : answers (calm b) (metadata field argument) (calm true).
Proof.
  intros s Hs. unfold metadata, checkImage. pose proof Hs as [Hl _]. destruct (image s) as [i|] eqn:Ei.
  - assert (Hm : calm_with s) by (split; [exact Hl|eauto]).
    unfold mbind at 1, M_bind at 1. rewrite gets_bind, Ei. cbn [mret M_ret].
    assert (A : answers calm_with (m ← metadata_of field; when (negb (slen m =? 0)) (on_response (addResponse_string field m))) (calm true)).
    { apply (answers_weaken calm_with calm_with calm_with); [auto|intros t [H _]; split; [exact H|discriminate]|]. object. }
    exact (A s Hm).
  - unfold mbind at 1, M_bind at 1. rewrite gets_bind, Ei. exact I.
Qed.

Lemma answers_object b argument : tolower argument ∉ measured -> answers (calm b) (OBJ_run argument) (calm true).
Proof.
  intros Hm. assert (R : forall f, answers (calm b) (on_response f) (calm true))
    by (intros f; apply answers_modify; intros s H; exact (calm_open b s H)).
  assert (M : forall b k, answers (calm b) (metadata k (tolower argument)) (calm true)) by (intros; apply answers_metadata_object).
  unfold OBJ_run. cbv zeta. revert Hm M. generalize (tolower argument). clear argument. intros a Hm M.
  unfold measured in Hm. rewrite !not_elem_of_cons in Hm. destruct Hm as (H1 & H2 & H3 & H4 & _).
  rewrite (bool_decide_eq_false_2 _ H1), (bool_decide_eq_false_2 _ H2), (bool_decide_eq_false_2 _ H3), (bool_decide_eq_false_2 _ H4).
  repeat (match goal with |- answers _ (if ?x then _ else _) _ => destruct x end;
    [first [ apply R | apply answers_check; intros i; object | apply M
           | repeat (eapply answers_bind; [apply M|intros _]); apply M ]|]).
  apply R.
Qed.

(** ** Commands *)

Section Commands.
Context {V : Vips} {mz : MiniZip}.

(** The commands that look for an image before they do anything else. *)
Definition image_command (t : Task) : bool :=
  match t with TIL | JTL | PTL | JTLS | CVT => true | _ => false end.

Lemma answers_image_command t argument : image_command t = true -> slen argument < 2 ^ 31 ->
  answers (calm false) (run_task t argument) (calm false).
Proof.
  intros Ht Ha. assert (Hcut : defined (cut_at "," argument)).
  { destruct (cut_at_total "," argument Ha) as (x & y & -> & _). exact I. }
  assert (HJ : answers (calm false) (JTL_run argument) (calm false)).
  { unfold JTL_run. apply (answers_bind _ (calm false)); [apply answers_lift, Hcut|]. intros [x y]. apply answers_unset. }
  destruct t; try discriminate Ht; cbn [run_task].
  - apply answers_unset.
  - unfold PTL_run. apply (answers_bind _ (calm false)); [apply answers_view|]. intros _. exact HJ.
  - exact HJ.
  - unfold JTLS_run. apply (answers_bind _ (calm false)).
    + apply answers_lift. destruct (read_values_total 4 argument Ha) as (l & ->). exact I.
    + intros l. destruct (atoi <$> l) as [|? [|? [|? [|? [|]]]]]; try apply answers_ret.
      apply (answers_bind _ (calm false)); [apply answers_view|]. intros _. apply answers_unset.
  - unfold CVT_run. cbv zeta. apply (answers_bind _ (calm false)); [apply answers_view|]. intros _. apply answers_unset.
Qed.

(** Requests whose commands neither need the pixels of an image nor compute with its
    sizes; [opened]: an image may have been named. *)
Fixpoint sure (opened : bool) (l : list (string * string)) : bool :=
  match l with
  | [] => true
  | (name, argument) :: l =>
      match factory name with
      | None => sure opened l
      | Some FIF => sure true l
      | Some OBJ => bool_decide (tolower argument ∉ measured) && sure true l
      | Some t => match parameter_run t with Some _ => sure opened l | None => image_command t && negb opened && sure opened l end
      end
  end.

Lemma answers_sure opened l :
  sure opened l = true -> Forall (fun p => slen p.2 < 2 ^ 31) l -> answers (calm opened) (forM l run_command) (calm true).
Proof.
  intros Hl Ha. revert opened Hl. induction Ha as [|[name argument] l Ha _ IH]; intros opened Hl; cbn [forM].
  - intros s Hs. exact (calm_open _ s Hs).
  - cbn [snd] in Ha. cbn [sure] in Hl. change (run_command (name, argument))
      with (match factory name with Some task => run_task task argument | None => on_response (setError "2 2" name) end).
    destruct (factory name) as [t|].
    2: { apply (answers_bind _ (calm opened)); [apply answers_response|]. intros _. apply IH, Hl. }
    assert (HP : forall h, parameter_run t = Some h -> run_task t argument = h argument -> sure opened l = true ->
                 answers (calm opened) (_ ← run_task t argument; forM l run_command) (calm true)).
    { intros h Ep -> Hl'. apply (answers_bind _ (calm opened)); [apply answers_sets, (parameter_sets t h argument Ep Ha)|].
      intros _. apply IH, Hl'. }
    destruct t; cbn [parameter_run image_command] in Hl; 
      try (eapply HP; [reflexivity|reflexivity|exact Hl]); try discriminate Hl;
      try (destruct opened; [discriminate Hl|]; apply (answers_bind _ (calm false));
           [apply answers_image_command; [reflexivity|exact Ha]|intros _; apply IH, Hl]).
    + apply andb_true_iff in Hl as [Ho Hl]. apply bool_decide_eq_true in Ho.
      apply (answers_bind _ (calm true)); [apply answers_object, Ho|]. intros _. apply IH, Hl.
    + apply (answers_bind _ (calm true)); [apply answers_FIF|]. intros _. apply IH, Hl.
Qed.
End Commands.

(** ** The whole request *)

Lemma parse_command_small token l : parse_command token = Ok l -> Forall (fun p => slen p.2 <= slen token) l.
Proof.
  unfold parse_command. intros (a & _ & (b & Hb & [= <-])%bind_ok)%bind_ok. pose proof (substr_length _ _ _ _ Hb).
  destruct (negb (empty a) && negb (empty b)); repeat constructor. exact H.
Qed.

Lemma parse_commands_defined request :
  slen request < 2 ^ 31 ->
  match parse_commands request with Ok l => Forall (fun p => slen p.2 < 2 ^ 31) l | r => defined r end.
Proof.
  intros Hr. unfold parse_commands. rewrite (tokens_nonempty_fields "&") by exact Hr. rewrite bind_ret.
  assert (D : defined (mapM parse_command (nonempty_fields "&" request))).
  { apply defined_mapM. intros t. unfold parse_command. repeat (apply defined_bind; [apply defined_substr|intros ?]). exact I. }
  destruct (mapM parse_command (nonempty_fields "&" request)) as [ls|f] eqn:E; [|exact D].
  change (Forall (fun p => slen p.2 < 2 ^ 31) (concat ls)). apply Forall_concat. apply mapM_ok_inv in E.
  apply list.Forall_forall. intros l Hl. apply list_elem_of_lookup in Hl as [k Hl].
  destruct (Forall2_lookup_r _ _ _ _ _ E Hl) as (t & Ht & Ep). eapply list.Forall_impl; [exact (parse_command_small t l Ep)|].
  intros q Hq. cbv beta in *. apply list_elem_of_lookup_2, list_elem_of_filter in Ht as [_ Ht].
  pose proof (fields_length _ _ _ Ht). lia.
Qed.

Section Request.
Context {V : Vips} {mz : MiniZip} {mc : Memcached} {H : Host}.

(** The requests with a [sure] list of commands; a request that is not found or
    does not come apart is answered by the exception. *)
Definition answerable (c : Config) (r : Request) : bool :=
  match request_string c r with
  | Ok request => (slen request <? 2 ^ 31)
                  && match parse_commands request with Ok l => sure false l | Err _ => true end
  | Err _ => true
  end.

Lemma request_string_defined c r : defined (request_string c r).
Proof.
  unfold request_string, named_request, mapped_request, post_request.
  repeat first [ apply defined_bind; [|intros ?] | solve [auto with defined]
               | match goal with |- defined (match ?x with _ => _ end) => destruct x end ].
Qed.

Lemma answers_memcached r request m : answers (calm false) (check_memcached r request m) (calm false).
Proof.
  unfold check_memcached. apply (answers_bind _ (calm false)); [apply answers_gets|]. intros h. cbv zeta.
  destruct (negb _ || _); [|apply answers_ret]. destruct (retrieve request m) as [data|]; [|apply answers_ret].
  intros s Hs. unfold putStr, cpy2buf. rewrite (proj2 (Z.leb_le 0 _)), Z.leb_refl by (unfold blen; lia). exact I.
Qed.

Lemma putS_returns h s : exists t, putS h s = (Ok tt, t).
Proof.
  unfold putS, cpy2buf. assert (E : blen (to_bytes (c_str h)) = slen (c_str h)).
  { unfold blen, slen, to_bytes. rewrite length_fmap. f_equal. induction (c_str h); cbn; congruence. }
  rewrite E, Z.leb_refl, (proj2 (Z.leb_le 0 _)) by apply slen_nonneg. eexists. reflexivity.
Qed.

Lemma send_response_ok request s : exists t, send_response request s = (Ok tt, t).
Proof.
  unfold send_response. rewrite gets_bind. destruct (_ && _); cbn [when]; [unfold on_response; rewrite modify_bind|rewrite M_ret_bind];
    rewrite gets_bind; (destruct (IIPResponse.isSet _); [apply putS_returns|eexists; reflexivity]).
Qed.

Lemma catch_ok e s : exists t, catch e s = (Ok tt, t).
Proof.
  assert (Hf : forall h u, exists t, (_ ← putS h; flush) u = (Ok tt, t)).
  { intros h u. destruct (putS_returns h u) as [t E]. exists t. unfold mbind, M_bind. rewrite E. reflexivity. }
  unfold catch. rewrite gets_bind. destruct e as [m|m|m|n| | |m]; try apply Hf; try apply putS_returns.
  - destruct (errorIsSet _); apply putS_returns.
  - destruct (n =? 304); [apply Hf|eexists; reflexivity].
Qed.

Lemma process_defined c r m s : answerable c r = true -> calm false s -> defined (process c r m s).1.
Proof.
  intros Ha Hs. unfold answerable in Ha. pose proof (request_string_defined c r) as Hd. unfold process. rewrite lift_bind.
  destruct (request_string c r) as [request|f]; [|exact Hd]. apply andb_true_iff in Ha as [Hl Ha]. apply Z.ltb_lt in Hl.
  destruct (empty request); [exact I|]. rewrite modify_bind.
  match goal with |- defined (?m ?t).1 => assert (A : answers (calm false) m (fun _ => True)) end.
  { apply (answers_bind _ (calm false)); [apply answers_memcached|]. intros _. pose proof (parse_commands_defined request Hl) as Hp.
    destruct (parse_commands request) as [l|f]; [|intros u _; exact Hp].
    change (answers (calm false) (_ ← forM l run_command; send_response request) (fun _ => True)).
    apply (answers_bind _ (calm true)); [exact (answers_sure false l Ha Hp)|]. intros _ u _.
    destruct (send_response_ok request u) as [t ->]. exact I. }
  match goal with |- defined (?m ?t).1 => specialize (A t Hs); destruct (m t) as [[a|f] u]; [exact I|exact A] end.
Qed.

(** Such a request gets an answer, whatever the state of the server. *)
Lemma answerable_answered c r s :
  c_loglevel c < 2 -> answerable c r = true -> exists answer, (handle_request c r s).1 = Ok answer.
Proof.
  intros Hl Ha. pose proof (process_defined c r (s_memcached s) (new_session c s) Ha (conj Hl (fun _ => eq_refl))) as Hd.
  unfold handle_request. destruct (process c r (s_memcached s) (new_session c s)) as [[a|[e|w|]] t]; try contradiction Hd.
  - eexists. reflexivity.
  - destruct (catch_ok e t) as [u ->]. eexists. reflexivity.
Qed.
End Request.
End Answers.
