(* ===== verification/Ends.v ===== *)
(** * Every loop ends

    A result [ends] unless a loop was still going when its fuel was used up.  No
    handler of the server goes on for ever, whatever the request, as long as the
    libraries it calls return: the loops that run on fuel are the eviction of the tile
    cache, the search for a resolution, the limit on the size of a region, the tokens and
    parts of a string, the filter of a path and the markers of an ICC profile. *)
From stdpp Require Import base gmap strings list numbers.
From Stdlib Require Import ZArith Lia Ascii.
From coqutil Require Import Datatypes.RecordSetters.
From S2P Require Import Prelude CString CFloat Environment Tokenizer URL Utils View IIPImage RawTile Cache Watermark TileManager.
From S2P Require Import Transforms ColourTransforms Histogram.
From S2P Require Import Compressors IIPResponse Session Demo Task OBJ FIF JTL CVT TIL Zoomify DeepZoom IIIF Spectra DeepZoomExt Main Total.
Import TriangleBracketNotations.
#[local] Open Scope string_scope.
#[local] Open Scope list_scope.
#[local] Open Scope Z_scope.

(** ** Results *)

Definition ends {A} (r : res A) : Prop := match r with Err OutOfFuel => False | _ => True end.

Create HintDb ends discriminated.

Lemma ends_ok {A} (a : A) : ends (Ok a).
Proof. exact I. Qed.

Lemma defined_ends {A} (r : res A) : defined r -> ends r.
Proof. destruct r as [a|[e|w|]]; first [exact (fun _ => I) | exact (fun F => F)]. Qed.

Lemma ends_throw {A} e : ends (throw (A := A) e).
Proof. exact I. Qed.

Lemma ends_undef {A} w : ends (undef (A := A) w).
Proof. exact I. Qed.

Lemma ends_bind {A B} (m : res A) (k : A -> res B) : ends m -> (forall a, ends (k a)) -> ends (m ≫= k).
Proof. intros Hm Hk. destruct m as [a|f]; [apply Hk|exact Hm]. Qed.

(** A step whose value matters to what follows. *)
Lemma ends_bind_known {A B} (m : res A) (k : A -> res B) : ends m -> (forall a, m = Ok a -> ends (k a)) -> ends (m ≫= k).
Proof. intros Hm Hk. destruct m as [a|f]; [apply Hk; reflexivity|exact Hm]. Qed.

Lemma ends_fmap {A B} (f : A -> B) (m : res A) : ends m -> ends (f <$> m).
Proof. destruct m; auto. Qed.

Lemma ends_mapM {A B} (f : A -> res B) l : (forall a, ends (f a)) -> ends (mapM f l).
Proof.
  intros H. induction l as [|a l IH]; [exact I|].
  change (mapM f (a :: l)) with (b ← f a; k ← mapM f l; mret (b :: k)).
  apply ends_bind; [apply H|]. intros b. apply ends_bind; [exact IH|]. intros k. exact I.
Qed.

Lemma ends_foldM {A S} (f : A -> S -> res S) l s : (forall a s, ends (f a s)) -> ends (foldM f l s).
Proof.
  intros H. revert s. induction l as [|a l IH]; intros s; [exact I|]. cbn [foldM]. apply ends_bind; [apply H|exact IH].
Qed.

#[export] Hint Resolve ends_ok ends_throw ends_undef : ends.

(** What has no loop of its own ends because its parts do: the tactic goes through
    binds, tests and loops over lists, and opens definitions. *)
Ltac ends_head t := lazymatch t with ?f _ => ends_head f | _ => t end.

Ltac ends_step :=
  first
    [ solve [auto with ends nocore]
    | lazymatch goal with
      | |- forall _, _ => intros ?
      | |- ends (mbind _ _) => apply ends_bind
      | |- ends (fmap _ _) => apply ends_fmap
      | |- ends (mapM _ _) => apply ends_mapM
      | |- ends (foldM _ _ _) => apply ends_foldM
      | |- ends (match ?x with _ => _ end) => destruct x
      | |- ends (let _ := _ in _) => cbv zeta
      | |- ends (mret _) => exact I
      | |- ends ?r => let f := ends_head r in unfold f; cbv beta
      end ].

Ltac ends := repeat ends_step.

(** ** The loops *)

Lemma ends_substr s p n : ends (substr s p n).
Proof. ends. Qed.
Lemma ends_erase s p n : ends (erase s p n).
Proof. ends. Qed.
Lemma ends_rd {A} (l : list A) i : ends (rd l i).
Proof. ends. Qed.
Lemma ends_wr {A} (l : list A) i a : ends (wr l i a).
Proof. ends. Qed.
Lemma ends_memcpy d i s j n : ends (memcpy d i s j n).
Proof. ends. Qed.
#[export] Hint Resolve ends_substr ends_erase ends_rd ends_wr ends_memcpy : ends.
Lemma ends_ld n b i : ends (ld n b i).
Proof. ends. Qed.
Lemma ends_st n b i v : ends (st n b i v).
Proof. ends. Qed.
Lemma ends_to_int lo hi x : ends (to_int lo hi x).
Proof. ends. Qed.
#[export] Hint Resolve ends_ld ends_st ends_to_int : ends.
Lemma ends_copy junk t : ends (copy junk t).
Proof. ends. Qed.
#[export] Hint Resolve ends_copy : ends.

(** *** The tile cache: an eviction makes the list shorter *)

Lemma deref_in id l n : deref id l = Ok n -> (length (erase_node id l) < length l)%nat.
Proof.
  unfold deref, erase_node. intros H. induction l as [|m l IH]; [discriminate|].
  rewrite !filter_cons in *. destruct (decide (nid m = id)) as [E|E].
  - rewrite decide_False by tauto. pose proof (length_filter (fun n => nid n <> id) l). cbn [length]. lia.
  - rewrite decide_True by exact E. cbn [length]. specialize (IH H). lia.
Qed.

Lemma ends_evict capacity tileSize fuel c : (length (tileList c) < fuel)%nat -> ends (evict capacity tileSize fuel c).
Proof.
  revert c. induction fuel as [|fuel IH]; intros c Hf; [lia|]. cbn [evict]. destruct (_ <=? _); [exact I|].
  destruct (list.last (tileList c)) as [n|]; [|exact I].
  apply ends_bind_known; [unfold _remove; ends|]. intros c' E. apply IH.
  revert E. unfold _remove. destruct (tileMap c !! nkey n) as [id|]; [|discriminate].
  intros (m & Hm & [= <-])%bind_ok. apply deref_in in Hm. cbn. lia.
Qed.

Lemma ends_insert capacity tileSize junk c r : ends (Cache.insert capacity tileSize junk c r).
Proof. assert (forall c, ends (evict capacity tileSize (S (length (tileList c))) c)) by (intros; apply ends_evict; lia). ends. Qed.

#[export] Hint Resolve ends_insert : ends.

(** *** Tokens and parts of strings *)

Lemma ends_next fuel t : (String.length (arg t) < fuel)%nat -> 0 < slen (delim t) -> ends (nextToken_loop fuel t).
Proof.
  revert t. induction fuel as [|fuel IH]; intros t Hf Hd; [lia|]. cbn [nextToken_loop].
  apply ends_bind_known; [ends|]. intros [x t'] E. destruct (empty x && negb (empty (arg t'))) eqn:Ee; [|exact I].
  revert E. unfold _nextToken. destruct (Z.ltb_spec (i32 (find (delim t) (arg t))) 0).
  - intros [= <- <-]. rewrite andb_false_r in Ee. discriminate.
  - intros (a & _ & (b & Hb & [= <- <-])%bind_ok)%bind_ok. apply IH; [|exact Hd]. cbn [arg].
    unfold substr in Hb. destruct (Z.ltb_spec (slen (arg t)) (i32 (find (delim t) (arg t)) + slen (delim t))); [discriminate|].
    injection Hb as <-. rewrite length_stake, length_sdrop. unfold slen in *. lia.
Qed.

Lemma nextToken_delim t x t' : nextToken t = Ok (x, t') -> delim t' = delim t.
Proof.
  unfold nextToken. generalize (S (String.length (arg t))) as fuel. intros fuel. revert t. induction fuel as [|fuel IH]; intros t; [discriminate|].
  cbn [nextToken_loop]. intros ([y u] & Hu & E)%bind_ok.
  assert (Ed : delim u = delim t).
  { revert Hu. unfold _nextToken. destruct (_ <? 0); [intros [= _ <-]; reflexivity|].
    intros (a & _ & (b & _ & [= _ <-])%bind_ok)%bind_ok. reflexivity. }
  destruct (_ && _); [rewrite <- Ed; apply IH, E|]. injection E as _ <-. exact Ed.
Qed.

Lemma ends_take k t : 0 < slen (delim t) -> ends (take_tokens k t).
Proof.
  revert t. induction k as [|k IH]; intros t Hd; cbn [take_tokens]; [exact I|]. destruct (hasMoreTokens t); [|exact I].
  apply ends_bind_known; [apply ends_next; [lia|exact Hd]|]. intros [x t'] E.
  apply ends_bind; [apply IH; rewrite (nextToken_delim _ _ _ E); exact Hd|]. intros [xs t'']. exact I.
Qed.

Lemma ends_take_tokens k s c d : ends (take_tokens k (mkTokenizer s (String c d))).
Proof. apply ends_take. cbn [delim]. rewrite slen_cons. pose proof (slen_nonneg d). lia. Qed.

Lemma ends_tokens s c d : ends (tokens s (String c d)).
Proof. apply ends_fmap, ends_take_tokens. Qed.

Lemma ends_read_values k s : ends (read_values k s).
Proof. apply ends_fmap, ends_take_tokens. Qed.

Lemma ends_filter_path s : ends (filter_path s).
Proof. apply defined_ends, defined_filter. lia. Qed.

#[export] Hint Resolve ends_take_tokens ends_tokens ends_read_values ends_filter_path : ends.

Lemma find_from_range d s p : 0 <= p -> find_from d s p <> npos -> p <= find_from d s p /\ find_from d s p + slen d <= slen s.
Proof.
  unfold find_from. intros Hp. destruct (Z.ltb_spec (slen s) p) as [|Hl]; [contradiction|].
  destruct (sfind d (sdrop (Z.to_nat p) s)) as [i|] eqn:E; [|contradiction]. intros _.
  apply sfind_Some in E as [_ E]. rewrite length_sdrop in E. unfold slen in *. lia.
Qed.

(** The parts of a string below the size an [unsigned int] counts. *)
Lemma ends_split_loop fuel s d limit k start l :
  slen s < 2 ^ 32 -> 0 < slen d -> 0 <= start -> slen s < start + Z.of_nat fuel -> ends (split_loop fuel s d limit k start l).
Proof.
  intros Hs Hd. revert k start l. induction fuel as [|fuel IH]; intros k start l H0 Hf; cbn [split_loop];
    destruct (Z.eqb_spec (find_from d s start) npos) as [|Hn]; try (ends; fail); destruct (k =? limit); try (ends; fail);
    (apply ends_bind; [ends|]; intros x); pose proof (find_from_range d s start H0 Hn) as [R1 R2].
  - exfalso. unfold slen in *. lia.
  - rewrite u32_small by lia. apply IH; lia.
Qed.

Lemma ends_split s c d limit : slen s < 2 ^ 32 - 1 -> ends (split s (String c d) limit).
Proof. intros H. apply ends_split_loop; try lia; [rewrite slen_cons; pose proof (slen_nonneg d); lia|unfold slen in *; lia]. Qed.

(** *** The resolutions of a view: every step halves the size *)

Lemma to_u32_range x n : to_u32 x = Ok n -> is_u32 n.
Proof.
  unfold to_u32, to_int. destruct (finite x); [|discriminate]. cbv zeta.
  destruct (Z.leb_spec 0 (truncZ x)), (Z.ltb_spec (truncZ x) (2 ^ 32)); try discriminate. intros [= <-]. unfold is_u32. lia.
Qed.

Lemma ends_calculate_loop fuel d rs j : 0 < rs -> is_u32 d -> d < 2 ^ Z.of_nat fuel -> (0 < fuel)%nat -> ends (calculate_loop fuel d rs j).
Proof.
  intros Hrs. revert d j. induction fuel as [|fuel IH]; intros d j Hd Hf H0; [lia|]. cbn [calculate_loop].
  rewrite half_spec, bind_ret by exact Hd. destruct (Z.ltb_spec (d / 2) rs) as [|Hge]; [exact I|].
  assert (Hd2 : d / 2 < 2 ^ Z.of_nat fuel).
  { apply Z.div_lt_upper_bound; [lia|]. rewrite Nat2Z.inj_succ, Z.pow_succ_r in Hf by lia. lia. }
  apply IH; [apply half_range, Hd|exact Hd2|]. destruct fuel; [cbn in Hd2; lia|lia].
Qed.

Lemma ends_calculate dimension r v : 0 < min_size v -> ends (calculateResolution dimension r v).
Proof.
  intros Hv. unfold calculateResolution. cbv zeta. apply ends_bind; [|intros j; exact I].
  match goal with |- ends (calculate_loop 33 _ ?rs ?j) => assert (Hrs : 0 < rs); [|generalize dependent rs; generalize j] end.
  { destruct (Z.ltb_spec r (min_size v)); destruct (Z.ltb_spec (min_size v) (min_size v)); try lia.
    all: destruct (Z.ltb_spec r (min_size v)); lia. }
  intros j rs Hrs.
  change (calculate_loop 33 dimension rs j) with (d ← half dimension; if d <? rs then Ok j else calculate_loop 32 d rs (i32 (j - 1))).
  apply ends_bind_known; [unfold half, to_u32; ends|]. intros d Hd.
  destruct (d <? rs); [exact I|]. apply to_u32_range in Hd. unfold is_u32 in Hd. apply ends_calculate_loop; [exact Hrs|exact Hd|lia|lia].
Qed.

Lemma ends_limit_loop fuel dimension v : View.resolution v <= Z.of_nat fuel -> ends (limit_loop fuel dimension v).
Proof.
  revert dimension v. induction fuel as [|fuel IH]; intros dimension v Hv; cbn [limit_loop];
    destruct (Z.ltb_spec 0 (View.resolution v)) as [Hr|]; try exact I; [lia|]. destruct (_ && _); [|exact I].
  apply ends_bind; [unfold half, to_u32; ends|]. intros w. apply ends_bind; [unfold half, to_u32; ends|]. intros h.
  apply IH. change (View.resolution v - 1 <= Z.of_nat fuel). lia.
Qed.

Lemma calculate_min_size dimension r v v' : calculateResolution dimension r v = Ok v' -> min_size v' = min_size v.
Proof. unfold calculateResolution. intros (j & _ & [= <-])%bind_ok. reflexivity. Qed.

Lemma ends_limit_size v : ends (limit_size v).
Proof. assert (forall d, ends (limit_loop (Z.to_nat (View.resolution v)) d v)) by (intros; apply ends_limit_loop; lia). ends. Qed.

Lemma ends_getResolution v : 0 < min_size v -> ends (getResolution v).
Proof.
  intros Hv. unfold getResolution.
  assert (Hc : forall (b : bool) d x u, 0 < min_size u -> ends (if b then Ok u else r ← to_u32 x; calculateResolution d r u)).
  { intros b d x u Hu. destruct b; [exact I|]. apply ends_bind; [ends|]. intros r. apply ends_calculate, Hu. }
  apply ends_bind_known; [apply Hc, Hv|]. intros v1 E1.
  assert (H1 : 0 < min_size v1).
  { revert E1. destruct (_ =? _); [intros [= <-]; exact Hv|]. intros (r & _ & E)%bind_ok. rewrite (calculate_min_size _ _ _ _ E). exact Hv. }
  apply ends_bind; [apply Hc, H1|]. intros v2. pose proof ends_limit_size. ends.
Qed.

(** *** Encoders: the markers of a profile take it to pieces *)

Lemma ends_icc fuel d k n : (length d <= fuel)%nat -> ends (icc_markers fuel d k n).
Proof.
  revert d k. induction fuel as [|fuel IH]; intros d k Hf; cbn [icc_markers]; destruct (Z.ltb_spec 0 (blen d)) as [Hd|]; try exact I;
    unfold blen in *; [lia|]. apply ends_bind; [|intros r; exact I]. apply IH. rewrite length_drop.
  unfold MAX_DATA_BYTES_IN_MARKER, MAX_BYTES_IN_MARKER, ICC_OVERHEAD_LEN. destruct (Z.ltb_spec (65533 - 14) (Z.of_nat (length d))); lia.
Qed.

Lemma ends_writeICC c : ends (writeICCProfile c).
Proof.
  assert (H : forall s n, (length (take n (to_bytes s)) <= String.length s)%nat).
  { intros s n. rewrite length_take. unfold to_bytes. rewrite length_fmap. assert (E : length (String.list_ascii_of_string s) = String.length s)
      by (induction s; cbn; congruence). lia. }
  unfold writeICCProfile. destruct (_ =? _); [exact I|]. apply ends_icc, H.
Qed.
#[export] Hint Resolve ends_limit_size ends_writeICC : ends.

(** ** The libraries *)

Section Ends.
Context {P : Platform} {V : Vips} {mz : MiniZip}.

(** The code behind the interfaces returns. *)
Record libraries_end : Prop := {
  le_open : forall f i, ends (codec_openImage (Codec := codec_of f) i);
  le_info : forall f i x y, ends (codec_loadImageInfo (Codec := codec_of f) i x y);
  le_tile : forall f i h v r l n, ends (codec_getTile (Codec := codec_of f) i h v r l n);
  le_region : forall f i s a r l x y w h, ends (codec_getRegion (Codec := codec_of f) i s a r l x y w h);
  le_jpeg_start : forall w h n x y u q, ends (jpeg_start (JPEGLib := jpeg_lib) w h n x y u q);
  le_jpeg_marker : forall code d, ends (jpeg_marker (JPEGLib := jpeg_lib) code d);
  le_jpeg_line : forall row st, ends (jpeg_write_scanline (JPEGLib := jpeg_lib) row st);
  le_jpeg_finish : forall st, ends (jpeg_finish (JPEGLib := jpeg_lib) st);
  le_png_start : forall info, ends (png_start (PNGLib := png_lib) info);
  le_png_row : forall row st, ends (png_write_row (PNGLib := png_lib) row st);
  le_png_end : forall st, ends (png_write_end (PNGLib := png_lib) st);
  le_vips_new : forall b, ends (vips_new_from_buffer b);
  le_vips_join : forall a b, ends (vips_join a b);
  le_vips_write : forall e a, ends (vips_write_to_buffer e a)
}.
Context (HL : libraries_end).

Lemma ends_jpeg_Compress c t : ends (jpeg_Compress junk (lib := jpeg_lib) c t).
Proof. destruct HL. ends. Qed.
Lemma ends_jpeg_Init c t h : ends (jpeg_InitCompression junk (lib := jpeg_lib) c t h).
Proof. destruct HL. ends. Qed.
Lemma ends_jpeg_Strip b h st : ends (jpeg_CompressStrip junk (lib := jpeg_lib) b h st).
Proof. destruct HL. ends. Qed.
Lemma ends_jpeg_Finish st : ends (jpeg_Finish junk (lib := jpeg_lib) st).
Proof. destruct HL. ends. Qed.
Lemma ends_png_Compress c t : ends (png_Compress junk VERSION (lib := png_lib) c t).
Proof. destruct HL. ends. Qed.
Lemma ends_png_Init c t h : ends (png_InitCompression junk VERSION (lib := png_lib) c t h).
Proof. destruct HL. ends. Qed.
Lemma ends_png_Strip b h st : ends (png_CompressStrip junk (lib := png_lib) b h st).
Proof. destruct HL. ends. Qed.
Lemma ends_png_Finish st : ends (png_Finish junk (lib := png_lib) st).
Proof. destruct HL. ends. Qed.

(** The encoder of a session. *)
Lemma ends_Compress e s t : ends (Compress (Compressor := compressor_of e s) t).
Proof. destruct e; [apply ends_jpeg_Compress|apply ends_png_Compress]. Qed.
Lemma ends_Init e s t h : ends (InitCompression (Compressor := compressor_of e s) t h).
Proof. destruct e; [apply ends_jpeg_Init|apply ends_png_Init]. Qed.
Lemma ends_Strip e s b h st : ends (CompressStrip (Compressor := compressor_of e s) b h st).
Proof. destruct e; [apply ends_jpeg_Strip|apply ends_png_Strip]. Qed.
Lemma ends_Finish e s st : ends (Finish (Compressor := compressor_of e s) st).
Proof. destruct e; [apply ends_jpeg_Finish|apply ends_png_Finish]. Qed.

#[local] Hint Resolve ends_Compress ends_Init ends_Strip ends_Finish : ends.

(** ** Tiles, regions and what is done with them *)

Lemma ends_getTile f e s i w r n x y l ct st :
  ends (TileManager.getTile capacity tileSize junk rand (codec := codec_of f) (compressor := compressor_of e s) i w r n x y l ct st).
Proof. destruct HL. unfold TileManager.getTile, find_cached, getNewTile, apply_watermark. ends. Qed.
#[local] Hint Resolve ends_getTile : ends.

Lemma ends_getRegion f e s i w r a b l x y vw vh st :
  ends (TileManager.getRegion capacity tileSize junk rand (codec := codec_of f) (compressor := compressor_of e s) i w r a b l x y vw vh st).
Proof. destruct HL. unfold TileManager.getRegion, region_tile. ends. Qed.
#[local] Hint Resolve ends_getRegion : ends.

Lemma ends_first_bin h n : ends (first_bin h n).
Proof. revert n. induction h as [|a h IH]; intros n; cbn [first_bin]; ends. Qed.
#[local] Hint Resolve ends_first_bin : ends.

Lemma ends_histogram t mx mn : ends (histogram junk t mx mn).
Proof. ends. Qed.
Lemma ends_threshold h : ends (threshold h).
Proof. ends. Qed.
Lemma ends_equalize t h : ends (equalize t h).
Proof. ends. Qed.
#[local] Hint Resolve ends_histogram ends_threshold ends_equalize : ends.

Lemma ends_lab t : ends (LAB2sRGB pow t).
Proof. ends. Qed.
Lemma ends_float_steps v mx mn c t : ends (JTL.float_steps v mx mn c t).
Proof. unfold JTL.float_steps. ends. Qed.
#[local] Hint Resolve ends_lab ends_float_steps : ends.
Lemma ends_byte_steps v i t : ends (JTL.byte_steps v i t).
Proof. unfold JTL.byte_steps. ends. Qed.
#[local] Hint Resolve ends_byte_steps : ends.
Lemma ends_process v i t : ends (JTL.process v i t).
Proof. unfold JTL.process. ends. Qed.
Lemma ends_region_process v i vw vh rw rh t : ends (region_process v i vw vh rw rh t).
Proof. unfold region_process. ends. Qed.
Lemma ends_ext_process v i t : ends (ext_process v i t).
Proof. unfold ext_process. ends. Qed.

#[local] Hint Resolve ends_process ends_region_process ends_ext_process : ends.

(** ** Handlers *)

(** The smallest size of a view is at least one. *)
Definition sized (s : Session) : Prop := 0 < min_size (view s).

Definition goes {A} (m : M A) (Q : A -> Prop) : Prop :=
  forall s, sized s -> match m s with (Ok a, t) => sized t /\ Q a | (Err f, t) => ends (Err (A := A) f) /\ sized t end.

Definition any {A} (a : A) : Prop := True.

Lemma goes_bind {A B} (m : M A) (k : A -> M B) Q R : goes m Q -> (forall a, Q a -> goes (k a) R) -> goes (m ≫= k) R.
Proof.
  intros Hm Hk s Hs. specialize (Hm s Hs). unfold mbind, M_bind. destruct (m s) as [[a|f] t]; [|exact Hm].
  exact (Hk a (proj2 Hm) t (proj1 Hm)).
Qed.

(** The value does not matter. *)
Lemma goes_then {A B} (m : M A) (k : A -> M B) R : goes m any -> (forall a, goes (k a) R) -> goes (m ≫= k) R.
Proof. intros Hm Hk. eapply goes_bind; [exact Hm|]. intros a _. apply Hk. Qed.

Lemma goes_lift_known {A B} (r : res A) (k : A -> M B) R :
  ends r -> (forall a, r = Ok a -> goes (k a) R) -> goes (lift r ≫= k) R.
Proof. intros H Hk s Hs. rewrite lift_bind. destruct r as [a|f]; [apply (Hk a eq_refl), Hs|split; [exact H|exact Hs]]. Qed.

Lemma goes_ret {A} (a : A) : goes (mret a) any.
Proof. intros s Hs. split; [exact Hs|exact I]. Qed.

Lemma goes_lift {A} (r : res A) : ends r -> goes (lift r) any.
Proof. intros H s Hs. unfold lift. destruct r; [split; [exact Hs|exact I]|split; assumption]. Qed.

Lemma goes_gets {A} (f : Session -> A) : goes (gets f) any.
Proof. intros s Hs. split; [exact Hs|exact I]. Qed.

Lemma goes_modify f : (forall s, sized s -> sized (f s)) -> goes (modify f) any.
Proof. intros H s Hs. split; [apply H, Hs|exact I]. Qed.

Lemma goes_image : goes the_image any.
Proof. intros s Hs. unfold the_image. destruct (image s); (split; [first [exact Hs|exact I]|first [exact I|exact Hs]]). Qed.

Lemma goes_on_image f : (forall i, ends (f i)) -> goes (on_image f) any.
Proof.
  intros H. unfold on_image. apply goes_then; [apply goes_image|]. intros i. apply goes_then; [apply goes_lift, H|]. intros j.
  apply goes_modify. intros s Hs. exact Hs.
Qed.

Lemma goes_on_view f : (forall v, 0 < min_size v -> 0 < min_size (f v)) -> goes (on_view f) any.
Proof. intros H. apply goes_modify. intros s Hs. apply (H (view s) Hs). Qed.

Lemma goes_on_response f : goes (on_response f) any.
Proof. apply goes_modify. intros s Hs. exact Hs. Qed.

Lemma goes_settings e f : goes (on_settings e f) any.
Proof. apply goes_modify. intros s Hs. destruct e; exact Hs. Qed.

Lemma goes_metadata k : goes (metadata_of k) any.
Proof.
  unfold metadata_of. apply goes_then; [apply goes_image|]. intros i. destruct (getMetadata k i) as [m j].
  apply goes_then; [apply goes_modify; intros s Hs; exact Hs|]. intros _. apply goes_ret.
Qed.

Lemma goes_tiles {A} (f : TMState -> res (A * TMState)) : (forall t, ends (f t)) -> goes (on_tiles f) any.
Proof.
  intros H s Hs. unfold on_tiles. specialize (H (tiles s)). destruct (f (tiles s)) as [[a t]|e]; [split; [exact Hs|exact I]|].
  split; [exact H|exact Hs].
Qed.

Lemma goes_put msg len : goes (cpy2buf msg len) any.
Proof.
  intros s Hs. unfold cpy2buf. destruct (_ && _); [split; [exact Hs|exact I]|]. split; [exact I|exact Hs].
Qed.

Lemma goes_when b m : goes m any -> goes (when b m) any.
Proof. intros H. destruct b; [exact H|apply goes_ret]. Qed.

Lemma goes_forM {A} (l : list A) body : (forall a, goes (body a) any) -> goes (forM l body) any.
Proof. intros H. induction l as [|a l IH]; cbn [forM]; [apply goes_ret|]. apply goes_then; [apply H|]. intros _. exact IH. Qed.

Lemma goes_try {A} (m : M A) h : goes m any -> (forall e k, h e = Some k -> goes k any) -> goes (try_catch m h) any.
Proof.
  intros Hm Hh s Hs. specialize (Hm s Hs). unfold try_catch. destruct (m s) as [[a|[e|w|]] t]; try exact Hm.
  destruct (h e) as [k|] eqn:E; [|exact Hm]. exact (Hh e k E t (proj2 Hm)).
Qed.

Create HintDb goes discriminated.
#[local] Hint Resolve goes_ret goes_gets goes_image goes_on_response goes_settings goes_metadata goes_put : goes.

(** The functions of a view leave its smallest size alone. *)
Ltac view_step Hview :=
  first [ exact Hview
        | match goal with |- 0 < min_size (match ?b with _ => _ end) => destruct b end; view_step Hview
        | match goal with |- 0 < min_size ?x => let f := ends_head x in unfold f; cbv beta zeta end; view_step Hview ].
Ltac view_kept := intros ? Hview; view_step Hview.

Ltac goes_step :=
  first
    [ solve [auto with goes nocore]
    | lazymatch goal with
      | |- forall _, _ => intros ?
      | |- goes (mbind _ _) _ => apply goes_then
      | |- goes (lift _) _ => apply goes_lift; solve [ends]
      | |- goes (on_view _) _ => apply goes_on_view; solve [view_kept]
      | |- goes (modify _) _ => apply goes_modify; intros ? Hsized; exact Hsized
      | |- goes (on_image _) _ => apply goes_on_image; intros ?; solve [ends]
      | |- goes (on_tiles _) _ => apply goes_tiles; intros ?; solve [ends]
      | |- goes (when _ _) _ => apply goes_when
      | |- goes (forM _ _) _ => apply goes_forM
      | |- goes (match ?x with _ => _ end) _ => destruct x
      | |- goes (let _ := _ in _) _ => cbv zeta
      | |- goes ?m _ => let f := ends_head m in unfold f; cbv beta
      end ].

Ltac goes := repeat goes_step.

Lemma goes_get_tile e r n x y l ct : goes (get_tile e r n x y l ct) any.
Proof. goes. Qed.
Lemma goes_get_region e r x y w h : goes (get_region e r x y w h) any.
Proof. goes. Qed.
#[local] Hint Resolve goes_get_tile goes_get_region : goes.

Lemma ends_opened i j : ends (codec_openImage (Codec := codec i) j).
Proof. apply (le_open HL). Qed.
Lemma ends_loaded i j x y : ends (codec_loadImageInfo (Codec := codec i) j x y).
Proof. apply (le_info HL). Qed.
#[local] Hint Resolve ends_opened ends_loaded : ends.

Lemma goes_FIF src : goes (FIF_run src) any.
Proof.
  unfold FIF_run. destruct (decode (new_URL src)) as [argument u]. apply goes_then; [goes|]. intros path.
  apply goes_then; [|goes]. apply goes_try; [goes|]. intros [] k E; try discriminate E. injection E as <-. goes.
Qed.
#[local] Hint Resolve goes_FIF : goes.

Lemma goes_JTL_send r n : goes (JTL.send r n) any.
Proof. unfold JTL.send. goes. Qed.
#[local] Hint Resolve goes_JTL_send : goes.

Lemma goes_JTL a : goes (JTL_run a) any.
Proof. goes. Qed.
#[local] Hint Resolve goes_JTL : goes.

Lemma goes_JTLS a : goes (JTLS_run a) any.
Proof. goes. Qed.

(** *** Regions *)

Lemma limit_loop_size fuel d v v' : limit_loop fuel d v = Ok v' -> min_size v' = min_size v.
Proof.
  revert d v. induction fuel as [|fuel IH]; intros d v; cbn [limit_loop]; (destruct (_ && _); [|intros [= <-]; reflexivity]).
  - discriminate.
  - intros (w & _ & (h & _ & E)%bind_ok)%bind_ok. apply IH in E. exact E.
Qed.

Lemma step_size (b : bool) x d v v' :
  (if b then Ok v else r ← to_u32 x; calculateResolution d r v) = Ok v' -> min_size v' = min_size v.
Proof.
  destruct b; [intros [= <-]; reflexivity|]. intros (r & _ & E)%bind_ok. apply (calculate_min_size _ _ _ _ E).
Qed.

Lemma getResolution_size v r v' : getResolution v = Ok (r, v') -> min_size v' = min_size v.
Proof.
  unfold getResolution. intros (v1 & E1 & H)%bind_ok. apply bind_ok in H as (v2 & E2 & H). apply bind_ok in H as ([rw rh] & _ & H).
  apply bind_ok in H as (v3 & E3 & [= _ <-]).
  rewrite <- (step_size _ _ _ _ _ E1), <- (step_size _ _ _ _ _ E2). revert E3. unfold limit_size. intros (sc & _ & E3)%bind_ok.
  revert E3. destruct (_ && _); [|intros [= <-]; reflexivity].
  intros (d & _ & E3)%bind_ok. apply limit_loop_size in E3. exact E3.
Qed.

(** The choice of a resolution, for the view of the session. *)
Lemma goes_resolution {B} (k : Z -> View -> M B) R :
  (forall r v, 0 < min_size v -> goes (k r v) R) -> goes (v ← gets view; '(r, v) ← lift (getResolution v); k r v) R.
Proof.
  intros Hk s Hs. rewrite gets_bind, lift_bind. pose proof (ends_getResolution _ Hs) as He.
  destruct (getResolution (view s)) as [[r v]|f] eqn:E; [|split; [exact He|exact Hs]].
  apply Hk; [|exact Hs]. rewrite (getResolution_size _ _ _ E). exact Hs.
Qed.

Lemma goes_choose : goes choose_resolution any.
Proof.
  unfold choose_resolution. do 3 (apply goes_then; [goes|]; intros ?). cbv zeta.
  apply goes_then; [goes|]. intros _. apply goes_resolution. intros r v Hv.
  apply goes_then; [apply goes_on_view; intros _ _; exact Hv|]. intros _. goes.
Qed.
#[local] Hint Resolve goes_choose : goes.

Lemma goes_strips e s data rw rh ch n h ns st : goes (send_strips (compressor := compressor_of e s) data rw rh ch n h ns st) any.
Proof. revert h st. induction ns as [|k ns IH]; intros h st; cbn [send_strips]; goes. Qed.
#[local] Hint Resolve goes_strips : goes.

Lemma goes_CVT_send : goes CVT.send any.
Proof. unfold CVT.send, CVT.send_image. goes. Qed.
#[local] Hint Resolve goes_CVT_send : goes.

(** *** The other commands *)

Lemma goes_parameter t h a : parameter_run t = Some h -> goes (h a) any.
Proof. intros Ht. destruct t; try discriminate Ht; injection Ht as <-; goes. Qed.

Lemma goes_OBJ a : goes (OBJ_run a) any.
Proof. goes. Qed.

Lemma goes_MINMAX a : goes (MINMAX_run a) any.
Proof. goes. Qed.

Lemma goes_TIL a : goes (TIL_run a) any.
Proof. goes. Qed.

Lemma goes_Zoomify a : goes (Zoomify_run a) any.
Proof. goes. Qed.

Lemma goes_DeepZoom a : goes (DeepZoom_run a) any.
Proof. goes. Qed.

Lemma goes_points r t x y views : goes (send_points r t x y views) any.
Proof. induction views as [|n views IH]; cbn [send_points]; goes. Qed.
#[local] Hint Resolve goes_points : goes.

Lemma goes_SPECTRA a : goes (SPECTRA_run a) any.
Proof. goes. Qed.

Lemma goes_bands r x1 y1 w h n views k l f : goes (profile_bands r x1 y1 w h n views k l f) any.
Proof. revert k l f. induction views as [|v views IH]; intros k l f; cbn [profile_bands]; goes. Qed.
#[local] Hint Resolve goes_bands : goes.

Lemma goes_PFL a : goes (PFL_run a) any.
Proof. goes. Qed.

(** *** IIIF *)

Lemma goes_region w h a : goes (iiif_region w h a) any.
Proof. goes. Qed.
Lemma goes_size version w h a : goes (iiif_size version w h a) any.
Proof. goes. Qed.
Lemma goes_rotation a : goes (iiif_rotation a) any.
Proof. goes. Qed.
Lemma goes_quality a : goes (iiif_quality a) any.
Proof. goes. Qed.

(** A parameter is the next token between slashes. *)
Lemma goes_next {A} izer (h : string -> M A) :
  delim izer = "/" -> (forall a, goes (h a) any) -> goes (parameter izer h) (fun p => delim p.2 = "/").
Proof.
  intros Hd Hh. unfold parameter. destruct (hasMoreTokens izer).
  - intros s Hs. rewrite lift_bind. assert (He : ends (nextToken izer)) by (apply ends_next; [lia|rewrite Hd; reflexivity]).
    destruct (nextToken izer) as [[token izer']|f] eqn:E; [|split; [exact He|exact Hs]].
    apply (goes_bind (h token) _ any); [apply Hh| |exact Hs]. intros a _ t Ht. split; [exact Ht|].
    change (delim izer' = "/"). rewrite (nextToken_delim _ _ _ E). exact Hd.
  - intros s Hs. split; [exact Hs|exact Hd].
Qed.

Lemma goes_iiif_parameters version w h params : goes (iiif_parameters version w h params) any.
Proof.
  unfold iiif_parameters. eapply goes_bind; [apply goes_next; [reflexivity|apply goes_region]|]. intros [r z1] H1.
  eapply goes_bind; [apply goes_next; [exact H1|apply goes_size]|]. intros [sz z2] H2.
  eapply goes_bind; [apply goes_next; [exact H2|apply goes_rotation]|]. intros [ro z3] H3.
  eapply goes_bind; [apply goes_next; [exact H3|apply goes_quality]|]. intros [q z4] _. goes.
Qed.

Lemma goes_image_request w h tw th n : goes (image_request w h tw th n) any.
Proof.
  unfold image_request. apply goes_resolution. intros r v Hv.
  apply goes_then; [apply goes_on_view; intros _ _; exact Hv|]. intros _. goes.
Qed.
#[local] Hint Resolve goes_iiif_parameters goes_image_request : goes.

Lemma goes_IIIF a : goes (IIIF_run a) any.
Proof. goes. Qed.

(** *** Several images *)

Lemma goes_ext_getTile r n : goes (ext_getTile r n) any.
Proof. goes. Qed.
Lemma goes_ext_send e tiles invalid : goes (ext_send e tiles invalid) any.
Proof. destruct HL. goes. Qed.
Lemma goes_ext_sendZip e tiles invalid : goes (ext_sendZip e tiles invalid) any.
Proof. goes. Qed.
#[local] Hint Resolve goes_ext_getTile goes_ext_send goes_ext_sendZip : goes.

Lemma goes_each_path n i f a paths d : goes (each_path n i f a paths d) any.
Proof.
  revert i d. induction paths as [|p paths IH]; intros i d; cbn [each_path]; goes.
Qed.

Lemma goes_DeepZoomExt a : slen a < 2 ^ 31 -> goes (DeepZoomExt_run a) any.
Proof.
  intros Ha. unfold DeepZoomExt_run. pose proof goes_each_path as HE.
  apply goes_lift_known; [ends|]. intros [[[stripped grey] prefix] suffix] E.
  assert (Hp : slen prefix <= slen a).
  { revert E. unfold ext_argument. intros (st & E1 & (su & _ & (pr & E2 & [= _ _ <- _])%bind_ok)%bind_ok)%bind_ok.
    transitivity (slen st).
    - revert E2. destruct (bool_decide _); apply substr_length.
    - revert E1. destruct (negb _); [apply substr_length|]. intros [= <-]. lia. }
  assert (HS : ends (split prefix "," (-1))) by (apply ends_split; lia). goes.
Qed.

(** ** The whole request *)

Lemma goes_task t a : slen a < 2 ^ 31 -> goes (run_task t a) any.
Proof.
  intros Ha. destruct t; try (match goal with |- goes (run_task ?t _) _ => exact (goes_parameter t _ a eq_refl) end); cbn [run_task].
  - apply goes_OBJ.
  - apply goes_FIF.
  - apply goes_MINMAX.
  - apply goes_TIL.
  - unfold PTL_run. goes.
  - apply goes_JTL.
  - apply goes_JTLS.
  - unfold CVT_run. goes.
  - apply goes_Zoomify.
  - apply goes_SPECTRA.
  - apply goes_PFL.
  - apply goes_DeepZoom.
  - apply goes_DeepZoomExt, Ha.
  - apply goes_IIIF.
Qed.

Lemma goes_commands l : Forall (fun p => slen p.2 < 2 ^ 31) l -> goes (forM l run_command) any.
Proof.
  induction 1 as [|p l Hp _ IH]; cbn [forM]; [apply goes_ret|]. apply goes_then; [|intros _; exact IH].
  unfold run_command. destruct (factory p.1); [apply goes_task, Hp|goes].
Qed.

Section Request.
Context {mc : Memcached} {H : Host}.

Lemma goes_process c r m :
  (forall request, request_string c r = Ok request -> slen request < 2 ^ 31) -> goes (process c r m) any.
Proof.
  intros Hr. unfold process. apply goes_lift_known; [apply defined_ends, request_string_defined|]. intros request E.
  specialize (Hr request E). destruct (empty request); [goes|]. apply goes_then; [goes|]. intros _.
  apply goes_then; [unfold check_memcached; goes|]. intros _. pose proof (parse_commands_defined request Hr) as Hp.
  apply goes_lift_known; [destruct (parse_commands request); [exact I|apply (defined_ends (Err f)), Hp]|].
  intros l El. rewrite El in Hp. apply goes_then; [apply goes_commands, Hp|]. intros _. unfold send_response. goes.
Qed.

(** The loop of the server never goes on for ever with one request. *)
Lemma request_ends c r s :
  (forall request, request_string c r = Ok request -> slen request < 2 ^ 31) -> ends (handle_request c r s).1.
Proof.
  intros Hr. assert (Hs : sized (new_session c s)).
  { unfold sized, new_session. cbn. destruct (negb (max_CVT c =? 0)), (negb (c_max_layers c =? 0)); reflexivity. }
  pose proof (goes_process c r (s_memcached s) Hr (new_session c s) Hs) as Hp. unfold handle_request.
  destruct (process c r (s_memcached s) (new_session c s)) as [[a|[e|w|]] t]; try exact I; [|destruct Hp as [[] _]].
  destruct (catch_ok e t) as [u ->]. exact I.
Qed.
End Request.
End Ends.
