(* ===== verification/Opens.v ===== *)
(** * The TIFF reader opens every file or throws

    What [Total.codecs_open] asks of a codec, for [TPTImage]: opening a file and reading
    its description have no undefined behaviour and end, whatever image they are called
    for, if libtiff keeps the number of samples per pixel in all directories of a file, has
    a range for each of them, and comes to the last directory.  Palettes are left out: the
    class reads three ranges of them. *)
From stdpp Require Import base gmap strings list numbers.
From Stdlib Require Import ZArith Lia Ascii.
From coqutil Require Import Datatypes.RecordSetters.
From S2P Require Import Prelude Object CString CFloat RawTile IIPImage TPTImage Session Total Ends.
#[local] Open Scope string_scope.
#[local] Open Scope list_scope.
#[local] Open Scope Z_scope.

(** A file of [n] samples per pixel, with [k] directories after the present one. *)
Record readable {lib : LibTIFF} (good : Z -> nat -> TIFF -> Prop) : Prop := {
  rd_open : forall path t, TIFFOpen path = Some t -> exists n k, good n k t;
  rd_set : forall n k t d, good n k t -> exists k', good n k' (TIFFSetDirectory d t).2;
  rd_first : forall n k t, good n k t ->
    exists k', (k' <= Z.to_nat (TIFFNumberOfDirectories t))%nat /\ good n k' (TIFFSetDirectory 0 t).2;
  rd_sub : forall n k t o, good n k t -> exists k', good n k' (TIFFSetSubDirectory o t).2;
  rd_read : forall n k t, good n k t ->
    exists k', good n k' (TIFFReadDirectory t).2 /\ ((TIFFReadDirectory t).1 = true -> (k' < k)%nat);
  rd_rgb : forall n k t, good n k t -> good n k (set_jpeg_rgb t);
  rd_channels : forall n k t, good n k t -> get_int SAMPLESPERPIXEL t = Some n;
  rd_samples : forall n k t tag, good n k t ->
    n <= match get_samples tag t with Some l => Z.of_nat (length l) | None => 4 end;
  rd_colour : forall n k t, good n k t -> exists c, get_int PHOTOMETRIC t = Some c /\ c <> PHOTOMETRIC_PALETTE
}.

Section Opens.
Context {lib : LibTIFF} (fs : FileSystem) (junk : Z -> Z) (good : Z -> nat -> TIFF -> Prop) (Hg : readable good).

(** A method that ends, by a value or an exception, from an object of a kind. *)
Definition runs {A} (I : TPTImage -> Prop) (m : Obj TPTImage A) (J : TPTImage -> Prop) : Prop :=
  forall o, I o -> match m o with (Ok _, o') => J o' | (r, _) => defined r end.

Lemma runs_bind {A B} I J K (m : Obj TPTImage A) (k : A -> Obj TPTImage B) :
  runs I m J -> (forall a, runs J (k a) K) -> runs I (m ≫= k) K.
Proof.
  intros Hm Hk o Ho. specialize (Hm o Ho). unfold mbind, Obj_bind. destruct (m o) as [[a|f] o']; [apply (Hk a o' Hm)|exact Hm].
Qed.

(** The file is open, with its samples, and the image has as many. *)
Definition opened (n : Z) (o : TPTImage) : Prop := exists k t, tiff o = Some t /\ good n k t.
Definition counted (n : Z) (o : TPTImage) : Prop := opened n o /\ channels (base o) = n.

Lemma runs_base (I J : TPTImage -> Prop) f :
  (forall i t b s, I (mkTPTImage i t b s) -> J (mkTPTImage (f i) t b s)) -> runs I (on_base f) J.
Proof. intros H [i t b s] Ho. apply H, Ho. Qed.

Lemma runs_get {A} I (f : TPTImage -> A) : runs I (obj_get f) I.
Proof. intros o Ho. exact Ho. Qed.

Lemma runs_ret {A} I (a : A) : runs I (mret a : Obj TPTImage A) I.
Proof. intros o Ho. exact Ho. Qed.

(** The present directory is read through the pointer. *)
Lemma runs_tiff {B} n (I : TPTImage -> Prop) (m : TIFF -> Obj TPTImage B) J :
  (forall o, I o -> opened n o) -> (forall k t, good n k t -> runs (fun o => I o /\ tiff o = Some t) (m t) J) -> runs I (t ← the_tiff; m t) J.
Proof.
  intros HI Hm o Ho. destruct (HI o Ho) as (k & t & Et & Ht). unfold the_tiff. rewrite (obj_deref_bind _ _ t) by exact Et.
  apply (Hm k t Ht). auto.
Qed.

(** The object with another directory of the file. *)
Lemma runs_set (c : Z -> TPTImage -> Prop) n k t :
  (forall o, c n o -> c n (mkTPTImage (base o) (Some t) (tile_buf o) (subIfdOffsets o))) ->
  good n k t -> runs (c n) (set_tiff (Some t)) (c n).
Proof. intros H Ht o Ho. apply H, Ho. Qed.

Lemma counted_tiff n k t o : good n k t -> counted n o -> counted n (mkTPTImage (base o) (Some t) (tile_buf o) (subIfdOffsets o)).
Proof. intros Ht [_ H]. split; [exists k, t; auto|exact H]. Qed.

Lemma counted_read n w h : runs (counted n) (read_size w h) (counted n).
Proof.
  unfold read_size. apply (runs_tiff n); [intros o Ho; apply Ho|]. intros k t _ o [Ho _]. exact Ho.
Qed.

Lemma counted_base n f : (forall i, channels (f i) = channels i) -> runs (counted n) (on_base f) (counted n).
Proof. intros H. apply runs_base. intros i t b s [H1 H2]. split; [exact H1|]. cbn in *. rewrite H. exact H2. Qed.

Lemma counted_push n w h : runs (counted n) (push_size w h) (counted n).
Proof. apply counted_base. reflexivity. Qed.

Lemma counted_set n k t : good n k t -> runs (counted n) (set_tiff (Some t)) (counted n).
Proof. intros Ht o Ho. exact (counted_tiff n k t o Ht Ho). Qed.

(** The same with a bound on the directories to come. *)
Definition ahead (n : Z) (K : nat) (o : TPTImage) : Prop :=
  (exists k t, tiff o = Some t /\ good n k t /\ (k <= K)%nat) /\ channels (base o) = n.

Lemma ahead_counted n K o : ahead n K o -> counted n o.
Proof. intros [(k & t & E & Ht & _) H]. split; [exists k, t; auto|exact H]. Qed.

Lemma runs_weaken {A} (I I' J J' : TPTImage -> Prop) (m : Obj TPTImage A) :
  (forall o, I' o -> I o) -> (forall o, J o -> J' o) -> runs I m J -> runs I' m J'.
Proof. intros HI HJ H o Ho. specialize (H o (HI o Ho)). destruct (m o) as [[a|f] o']; auto. Qed.

Lemma runs_directory n d message : runs (counted n) (set_directory d message) (counted n).
Proof.
  unfold set_directory. apply (runs_tiff n); [intros o Ho; apply Ho|]. intros k t Ht. destruct (rd_set _ Hg n k t d Ht) as [k' Hk].
  destruct (TIFFSetDirectory d t) as [found t']. apply (runs_bind _ (counted n)).
  - apply (runs_weaken (counted n) _ (counted n)); [intros o [Ho _]; exact Ho|auto|exact (counted_set n k' t' Hk)].
  - intros _. destruct found; [apply runs_ret|]. intros o _. exact I.
Qed.

Lemma runs_subifds n offsets w h : runs (counted n) (subifd_levels offsets w h) (counted n).
Proof.
  revert w h. induction offsets as [|offset offsets IH]; intros w h; cbn [subifd_levels]; [apply runs_ret|].
  apply (runs_tiff n); [intros o Ho; apply Ho|]. intros k t Ht. destruct (rd_sub _ Hg n k t offset Ht) as [k' Hk].
  apply (runs_bind _ (counted n));
    [apply (runs_weaken (counted n) _ (counted n)); [intros o [Ho _]; exact Ho|auto|exact (counted_set n k' _ Hk)]|intros _].
  apply (runs_bind _ (counted n)); [apply counted_read|]. intros [w' h'].
  apply (runs_bind _ (counted n)); [apply counted_push|]. intros _.
  apply (runs_tiff n); [intros o Ho; apply Ho|]. intros k1 t1 Ht1. destruct (rd_set _ Hg n k1 t1 0 Ht1) as [k2 Hk2].
  apply (runs_bind _ (counted n));
    [apply (runs_weaken (counted n) _ (counted n)); [intros o [Ho _]; exact Ho|auto|exact (counted_set n k2 _ Hk2)]|intros _; apply IH].
Qed.

Lemma runs_directories n fuel K count w h : (K < fuel)%nat -> runs (ahead n K) (directory_levels fuel count w h) (counted n).
Proof.
  revert K count w h. induction fuel as [|fuel IH]; intros K count w h HK; [lia|]. cbn [directory_levels].
  intros o Ho. destruct Ho as [(k & t & Et & Ht & Hk) Hn]. unfold the_tiff. rewrite (obj_deref_bind _ _ t) by exact Et.
  destruct (rd_read _ Hg n k t Ht) as (k' & Hk' & Hless). destruct (TIFFReadDirectory t) as [more t']. cbn [fst snd] in *.
  unfold set_tiff. rewrite obj_set_bind. set (o' := mkTPTImage (base o) (Some t') (tile_buf o) (subIfdOffsets o)).
  destruct more; [|split; [exists k', t'; auto|exact Hn]]. specialize (Hless eq_refl).
  assert (Ho' : ahead n k' o') by (split; [exists k', t'; auto|exact Hn]).
  assert (R : runs (ahead n k') ('(w, h) ← read_size w h; _ ← push_size w h; directory_levels fuel (count + 1) w h) (counted n)).
  { apply (runs_bind _ (ahead n k')).
    - unfold read_size. intros q Hq. pose proof Hq as [(kq & tq & Eq & _) _]. unfold the_tiff. rewrite (obj_deref_bind _ _ tq) by exact Eq. exact Hq.
    - intros [w' h']. apply (runs_bind _ (ahead n k')); [apply runs_base; intros i q b s Hq; exact Hq|]. intros _. apply IH. lia. }
  exact (R o' Ho').
Qed.

Lemma runs_levels n w h : runs (counted n) (load_levels w h) (counted n).
Proof.
  unfold load_levels. apply (runs_tiff n); [intros o Ho; apply Ho|]. intros k t Ht. cbv zeta.
  destruct (rd_first _ Hg n k t Ht) as (k' & HK & Hk'). set (K := Z.to_nat (TIFFNumberOfDirectories t)) in *.
  apply (runs_bind _ (ahead n K)).
  { unfold set_directory. intros o [[_ Hn] Et]. unfold the_tiff. rewrite (obj_deref_bind _ _ t) by exact Et.
    destruct (TIFFSetDirectory 0 t) as [found t']. cbn [snd] in Hk'. unfold set_tiff. rewrite obj_set_bind.
    destruct found; [|exact I]. split; [exists k', t'; auto|exact Hn]. }
  intros _. apply (runs_bind _ (ahead n K)).
  { unfold initializeSubIfdOffsets. intros o Ho. pose proof Ho as [(k1 & t1 & E1 & _) _]. unfold the_tiff.
    rewrite (obj_deref_bind _ _ t1) by exact E1. exact Ho. }
  intros _. apply (runs_bind _ (ahead n K)); [apply runs_base; intros i q b s Hq; exact Hq|]. intros _.
  apply (runs_bind _ (ahead n K)); [apply runs_get|]. intros offsets.
  apply (runs_bind _ (counted n)).
  - destruct (0 <? length offsets)%nat.
    + apply (runs_weaken (counted n) _ (counted n)); [apply ahead_counted|auto|].
      apply (runs_bind _ (counted n)); [apply runs_subifds|]. intros _. apply runs_ret.
    + apply (runs_bind _ (counted n)); [apply runs_directories; lia|]. intros c. apply runs_ret.
  - intros c. apply (runs_bind _ (counted n)); [apply counted_base; reflexivity|]. intros _. apply runs_directory.
Qed.

Lemma runs_colour n p c colour : colour <> PHOTOMETRIC_PALETTE -> runs (counted n) (set_colour p c colour) (counted n).
Proof.
  intros Hc. unfold set_colour. cbv zeta. rewrite (proj2 (Z.eqb_neq _ _) Hc).
  repeat match goal with |- runs _ (if ?b then _ else _) _ => destruct b end; try (apply counted_base; reflexivity).
  apply (runs_tiff n); [intros o Ho; apply Ho|]. intros k t Ht. apply (runs_bind _ (counted n)); [|intros _; apply counted_base; reflexivity].
  apply (runs_weaken (counted n) _ (counted n)); [intros o [Ho _]; exact Ho|auto|exact (counted_set n k _ (rd_rgb _ Hg n k t Ht))].
Qed.

Lemma rd_defined {A} (l : list A) k : 0 <= k < Z.of_nat (length l) -> defined (rd l k).
Proof. intros H. destruct (rd_in_range l k H) as (a & -> & _). exact I. Qed.

(** Every channel has its range. *)
Lemma ranges_defined n k t i : good n k t -> channels i = n -> defined (sample_ranges t i).
Proof.
  intros Ht Hn. unfold sample_ranges. rewrite Hn. cbv zeta.
  match goal with |- defined (foldM (channel_range ?a ?b) ?l ?s) =>
    assert (HA : n <= Z.of_nat (length a)); [|assert (HB : n <= Z.of_nat (length b)); [|generalize s; generalize dependent b; generalize dependent a]] end.
  1,2: destruct (Z.ltb_spec 1 n) as [H1|H1]; [|cbn [length replicate]; lia].
  - pose proof (rd_samples _ Hg n k t SMINSAMPLEVALUE Ht) as H. destruct (get_samples SMINSAMPLEVALUE t); exact H.
  - pose proof (rd_samples _ Hg n k t SMAXSAMPLEVALUE Ht) as H. destruct (get_samples SMAXSAMPLEVALUE t); exact H.
  - intros a Ha b Hb. assert (Hl : Forall (fun c => 0 <= c < n) (range 0 n)) by (apply list.Forall_forall; intros c Hc%elem_of_range; lia).
    induction Hl as [|c l Hc _ IH]; intros s; [exact I|]. cbn [foldM]. apply defined_bind; [|exact IH].
    unfold channel_range. apply defined_bind; [apply rd_defined; lia|]. intros mx. apply defined_bind; [apply rd_defined; lia|].
    intros mn. exact I.
Qed.

Lemma runs_info n seq ang : runs (opened n) (loadImageInfo junk seq ang) (opened n).
Proof.
  unfold loadImageInfo. apply (runs_bind _ (opened n)); [apply runs_base; intros i t b s Ho; exact Ho|]. intros _.
  apply (runs_tiff n); [auto|]. intros k t Ht. destruct (rd_colour _ Hg n k t Ht) as (c & Ec & Hc). cbv zeta. rewrite Ec. cbn [default].
  apply (runs_bind _ (counted n)).
  { apply runs_base. intros i u b s [Ho Eu]. split; [exact Ho|]. change (default (uninit junk 0) (get_int SAMPLESPERPIXEL t) = n).
    rewrite (rd_channels _ Hg n k t Ht). reflexivity. }
  intros _. apply (runs_bind _ (counted n)); [apply counted_read|]. intros [w h].
  apply (runs_bind _ (counted n)); [apply runs_levels|]. intros _.
  apply (runs_bind _ (counted n)); [apply runs_colour, Hc|]. intros _.
  apply (runs_tiff n); [intros o Ho; apply Ho|]. intros k1 t1 Ht1 o [[Ho Hn] _].
  rewrite obj_get_bind. pose proof (ranges_defined n k1 t1 (base o) Ht1 Hn) as Hd.
  destruct (sample_ranges t1 (base o)) as [i|f]; [exact Ho|exact Hd].
Qed.

Lemma opens i : match openImage fs junk (of_image i) with (Ok _, o) => exists n, opened n o | (r, _) => defined r end.
Proof.
  unfold openImage, of_image. rewrite obj_get_bind. cbn [tiff tile_buf base].
  unfold updateTimestamp. destruct (fs_stat fs _) as [[f time]|]; [|exact I]. rewrite obj_lift_bind, base_bind.
  destruct (TIFFOpen _) as [t|] eqn:Et; [|exact I]. destruct (rd_open _ Hg _ _ Et) as (n & k & Ht).
  rewrite tiff_bind.
  match goal with |- match (?m ≫= ?j) ?o with _ => _ end =>
    assert (R : runs (opened n) (m ≫= j) (opened n)); [|specialize (R o); destruct ((m ≫= j) o) as [[a|e] u]; [exists n|]; apply R; exists k, t; auto] end.
  apply (runs_bind _ (opened n)).
  - destruct (_ =? 0); cbn [obj_when]; [apply runs_info|apply runs_ret].
  - intros _. apply (runs_bind _ (opened n)); [apply runs_get|]. intros j.
    destruct (_ && _); [intros o _; exact I|]. apply runs_base. intros q u b s Ho. exact Ho.
Qed.

(** The class as a codec. *)
Lemma tiff_opens i : defined (codec_openImage (Codec := TPT_codec fs junk) i).
Proof.
  pose proof (opens i) as H. cbn. unfold obj_run. destruct (openImage fs junk (of_image i)) as [[a|f] o]; [exact I|exact H].
Qed.

Lemma tiff_loads i x y : defined (codec_loadImageInfo (Codec := TPT_codec fs junk) i x y).
Proof.
  pose proof (opens i) as H. cbn. unfold obj_run, mbind, Obj_bind. destruct (openImage fs junk (of_image i)) as [[a|f] o]; [|exact H].
  destruct H as [n H]. pose proof (runs_info n x y o H) as R. destruct (loadImageInfo junk x y o) as [[b|f] o']; [exact I|exact R].
Qed.
End Opens.

(** The file of the examples is such a file. *)
Lemma small_readable : readable (lib := small_lib) (fun n k _ => n = 1 /\ k = 0%nat).
Proof.
  constructor; cbn.
  - intros path t _. exists 1, 0%nat. auto.
  - intros n k t d H. exists 0%nat. split; [apply H|reflexivity].
  - intros n k t [H1 H2]. exists 0%nat. split; [lia|auto].
  - intros n k t o [H1 H2]. exists 0%nat. auto.
  - intros n k t [H1 H2]. exists 0%nat. split; [auto|discriminate].
  - intros n k t H. exact H.
  - intros n k t [-> _]. reflexivity.
  - intros n k t tag [-> _]. lia.
  - intros n k t _. exists 1. split; [reflexivity|discriminate].
Qed.
