(* ===== verification/Answer.v ===== *)
(** * Every request is answered

    Proofs about the server as a whole: what the commands write, in which order,
    and what [Main.handle_request] makes of it.  A triple says what holds after a
    computation that ends normally, and that the session is sound after one that
    throws; a computation that is undefined promises nothing.  Most steps of a
    handler are silent: they write nothing, and the rules for the rest only look
    at the steps that write. *)
From stdpp Require Import base gmap strings list numbers.
From Stdlib Require Import ZArith Lia Ascii.
From coqutil Require Import Datatypes.RecordSetters.
From S2P Require Import Prelude CString CFloat Environment Tokenizer URL Utils View IIPImage RawTile Cache Watermark TileManager.
From S2P Require Import Compressors IIPResponse Session Demo Task OBJ FIF JTL CVT TIL Zoomify DeepZoom IIIF Spectra DeepZoomExt Main Total Ends.
Import TriangleBracketNotations.
#[local] Open Scope string_scope.
#[local] Open Scope list_scope.
#[local] Open Scope Z_scope.

(** ** Triples *)

Lemma to_bytes_app a b : to_bytes (a +:+ b) = to_bytes a ++ to_bytes b.
Proof.
  unfold to_bytes. rewrite <- fmap_app. f_equal. induction a as [|c a IH]; [rewrite snil_app; reflexivity|].
  rewrite scons_app. cbn. rewrite IH. reflexivity.
Qed.

Create HintDb silent discriminated.

Section Answer.
Context {P : Platform}.

(** Where an answer may begin without a header. *)
Context (Headerless : Prop).

(** The query string among the headers, once it is there. *)
Context (query : option string).

(** The first bytes of an HTTP answer of the server. *)
Definition begun (b : bytes) : Prop :=
  (exists rest, b = to_bytes "Server: iipsrv/" ++ rest) \/ (exists rest, b = to_bytes "Status: " ++ rest) \/ (Headerless /\ b <> []).

Lemma begun_app a b : begun a -> begun (a ++ b).
Proof.
  intros [(r & ->)|[(r & ->)|[H Ha]]].
  - left. exists (r ++ b). rewrite <- app_assoc. reflexivity.
  - right. left. exists (r ++ b). rewrite <- app_assoc. reflexivity.
  - right. right. split; [exact H|]. intros [-> _]%app_eq_nil. contradiction.
Qed.

(** The sizes of the current image fit an [int]. *)
Definition sizes_ok (i : IIPImage) : Prop := Forall (fun w => 0 <= w < 2 ^ 31) (image_widths i) /\ 0 <= getTileWidth i.

Definition image_ok (s : Session) : Prop := forall i, image s = Some i -> sizes_ok i.

(** Nothing was written and nothing claimed, or an answer has begun. *)
Definition sound (s : Session) : Prop :=
  server (response s) = "Server: iipsrv/" +:+ VERSION /\ cache_ok s
  /\ ((out s = [] /\ imageSent (response s) = false) \/ begun (out s))
  /\ (forall q, query = Some q -> headers s !! "QUERY_STRING" = Some q).

Definition clean (s : Session) : Prop := sound s /\ image_ok s.
Definition started (s : Session) : Prop := clean s /\ begun (out s).

Definition triple {A} (I : Session -> Prop) (m : M A) (J : Session -> Prop) : Prop :=
  forall s, I s -> match m s with
                   | (Ok _, s') => J s'
                   | (Err (Thrown _), s') => sound s'
                   | (Err _, _) => True
                   end.

Lemma triple_bind {A B} (I J K : Session -> Prop) (m : M A) (k : A -> M B) :
  triple I m J -> (forall a, triple J (k a) K) -> triple I (m ≫= k) K.
Proof.
  intros Hm Hk s Hs. unfold mbind, M_bind. specialize (Hm s Hs). destruct (m s) as [[a|[e|w|]] s']; try exact Hm.
  apply Hk, Hm.
Qed.

Lemma triple_weaken {A} (I I' J J' : Session -> Prop) (m : M A) :
  (forall s, I' s -> I s) -> (forall s, J s -> J' s) -> triple I m J -> triple I' m J'.
Proof.
  intros HI HJ H s Hs. specialize (H s (HI s Hs)). destruct (m s) as [[a|[e|w|]] s']; auto.
Qed.

(** ** Silent steps *)

Definition silent (s t : Session) : Prop :=
  out t = out s /\ imageSent (response t) = imageSent (response s) /\ server (response t) = server (response s)
  /\ base.size (imageCache t) = base.size (imageCache s) /\ (image_ok s -> image_ok t)
  /\ (forall q, headers s !! "QUERY_STRING" = Some q -> headers t !! "QUERY_STRING" = Some q).

#[local] Instance silent_refl : Reflexive silent.
Proof. intros s. unfold silent. split_and!; auto. Qed.
#[local] Instance silent_trans : Transitive silent.
Proof. intros s t u (?&?&?&?&?&?) (?&?&?&?&?&?). unfold silent. split_and!; [congruence..|auto|auto]. Qed.

Lemma silent_sound s t : silent s t -> sound s -> sound t.
Proof. intros (Ho & Hi & Hv & Hc & _ & Hq) (H1 & H2 & H3 & H4). unfold sound, cache_ok in *. rewrite Ho, Hi, Hv, Hc. split_and!; auto. Qed.

Lemma silent_clean {A} (m : M A) : keeps silent m -> triple clean m clean.
Proof.
  intros H s [Hs Hi]. specialize (H s). pose proof (silent_sound _ _ H Hs) as S. destruct H as (_ & _ & _ & _ & H & _).
  destruct (m s) as [[a|[e|w|]] t]; cbn [snd] in *; try exact I; [split; auto|exact S].
Qed.

Lemma silent_started {A} (m : M A) : keeps silent m -> triple started m started.
Proof.
  intros H s [Hs Hb]. pose proof (silent_clean m H s Hs) as T. specialize (H s). destruct H as (Ho & _).
  destruct (m s) as [[a|[e|w|]] t]; cbn [snd] in *; try exact T. split; [exact T|]. rewrite Ho. exact Hb.
Qed.

Lemma silent_on_view f : keeps silent (on_view f).
Proof. intros s. unfold silent, image_ok. split_and!; auto. Qed.

Lemma silent_on_response f :
  (forall r, imageSent (f r) = imageSent r /\ server (f r) = server r) -> keeps silent (on_response f).
Proof. intros H s. destruct (H (response s)) as [H1 H2]. unfold silent, image_ok. split_and!; auto. Qed.

Lemma silent_settings e f : keeps silent (on_settings e f).
Proof. intros s. destruct e; unfold silent, image_ok; split_and!; auto. Qed.

Lemma silent_tiles {A} (f : TMState -> res (A * TMState)) : keeps silent (on_tiles f).
Proof. apply keeps_tiles; [typeclasses eauto|]. intros s t. unfold silent, image_ok. split_and!; auto. Qed.

Lemma silent_on_image f :
  (forall i j, f i = Ok j -> image_widths j = image_widths i /\ tile_width j = tile_width i) -> keeps silent (on_image f).
Proof.
  intros H s. unfold on_image, the_image, mbind, M_bind, lift, modify. destruct (image s) as [i|] eqn:E; [|change (silent s s); reflexivity].
  destruct (f i) as [j|e] eqn:F; [|change (silent s s); reflexivity]. destruct (H i j F) as [H1 H2].
  unfold silent. split_and!; try reflexivity; [|intros q Hq; exact Hq]. intros Hs k [= <-]. destruct (Hs i E) as [S1 S2].
  split; [rewrite H1; exact S1|]. unfold getTileWidth in *. rewrite H2. exact S2.
Qed.

Lemma silent_metadata field : keeps silent (metadata_of field).
Proof.
  intros s. unfold metadata_of, the_image, mbind, M_bind. destruct (image s) as [i|] eqn:E; [|change (silent s s); reflexivity].
  assert (W : image_widths (getMetadata field i).2 = image_widths i /\ tile_width (getMetadata field i).2 = tile_width i)
    by (unfold getMetadata; destruct (IIPImage.metadata i !! field); split; reflexivity).
  destruct (getMetadata field i) as [m j]. cbn [snd] in W. destruct W as [W1 W2].
  unfold silent. split_and!; try reflexivity; [|intros q Hq; exact Hq].
  intros Hs k [= <-]. destruct (Hs i E) as [S1 S2].
  split; [rewrite W1; exact S1|]. unfold getTileWidth in *. rewrite W2. exact S2.
Qed.

Lemma silent_throw {A} e : keeps silent (throwM (A := A) e).
Proof. apply keeps_lift, _. Qed.

Lemma silent_undef {A} w : keeps silent (undefM (A := A) w).
Proof. apply keeps_lift, _. Qed.

Lemma silent_forM {A} (l : list A) body : (forall a, keeps silent (body a)) -> keeps silent (forM l body).
Proof. intros H. apply keeps_forM; [typeclasses eauto..|exact H]. Qed.

(** One step of a silent computation. *)
Ltac silent_step :=
  lazymatch goal with
  | |- keeps silent (on_image _) => apply silent_on_image; intros ? ?; intros; simplify_eq/=
  | |- keeps silent (mbind _ _) => apply keeps_bind; [typeclasses eauto| |intros ?]
  | |- keeps silent (match ?b with _ => _ end) => destruct b
  | |- keeps silent (when _ _) => apply keeps_when; [typeclasses eauto|]
  | |- keeps silent flush => apply keeps_ret, _
  | |- keeps silent (on_response _) => apply silent_on_response; intros []; split; reflexivity
  | |- _ => first
        [ apply keeps_ret, _ | apply keeps_lift, _ | apply keeps_gets, _ | apply keeps_image, _
        | apply silent_throw | apply silent_undef | apply silent_on_view | apply silent_settings | apply silent_tiles
        | apply silent_metadata | solve [auto with silent] ]
  end.

Ltac silent := repeat silent_step.

Lemma silent_check a : keeps silent (checkImage a).
Proof. unfold checkImage. silent. Qed.

Lemma silent_parameter t h a : parameter_run t = Some h -> keeps silent (h a).
Proof.
  intros Ht. destruct t; try discriminate Ht; injection Ht as <-;
    unfold QLT_run, SDS_run, CNT_run, GAM_run, WID_run, HEI_run, RGN_run, ROT_run, SHD_run, CMP_run, INV_run, LYR_run,
      CTW_run, COL_run, ICC_run, log_values, log_matrix; silent; try (apply keeps_modify; intros s; unfold silent, image_ok; split_and!; auto).
Qed.

(** ** Opening an image *)

(** What is known of the platform: the first key of a hash map is one of its
    keys, and codecs report sizes that fit. *)
Record platform_ok : Prop := {
  po_hash : hash_law;
  po_open : forall f i j, codec_openImage (Codec := codec_of f) i = Ok j -> sizes_ok j;
  po_info : forall f i x y j, codec_loadImageInfo (Codec := codec_of f) i x y = Ok j -> sizes_ok j
}.

Context (HP : platform_ok).

(** FIF writes nothing. *)
Definition unwritten (s t : Session) : Prop :=
  out t = out s /\ imageSent (response t) = imageSent (response s) /\ server (response t) = server (response s)
  /\ headers t = headers s.

#[local] Instance unwritten_refl : Reflexive unwritten.
Proof. intros s. unfold unwritten. auto. Qed.
#[local] Instance unwritten_trans : Transitive unwritten.
Proof. intros s t u (?&?&?&?) (?&?&?&?). unfold unwritten. split_and!; congruence. Qed.

Lemma unwritten_on_image f : keeps unwritten (on_image f).
Proof.
  unfold on_image. apply keeps_bind; [typeclasses eauto|apply keeps_image, _|]. intros i.
  apply keeps_bind; [typeclasses eauto|apply keeps_lift, _|]. intros j. apply keeps_modify. intros s. unfold unwritten. auto.
Qed.

Ltac unwritten_step :=
  first [ apply keeps_bind; [typeclasses eauto| |intros ?]
        | apply keeps_ret, _ | apply keeps_lift, _ | apply keeps_gets, _ | apply keeps_image, _ | apply unwritten_on_image
        | apply keeps_modify; intros s; unfold unwritten; auto; fail
        | apply keeps_when; [typeclasses eauto|]
        | apply keeps_try; [typeclasses eauto| |intros [] ? E; try discriminate E; injection E as <-]
        | match goal with |- keeps unwritten (match ?b with _ => _ end) => destruct b end
        | intros ?; unfold unwritten, on_response, modify, setError; auto; fail ].

Lemma FIF_unwritten src : keeps unwritten (FIF_run src).
Proof.
  unfold FIF_run. destruct (decode (new_URL src)) as [argument u].
  unfold open_image, find_image, create_image, check_modified, throwM. repeat unwritten_step.
Qed.

Lemma open_image_sizes argument s s' : open_image argument s = (Ok tt, s') -> image_ok s'.
Proof.
  unfold open_image. intros ([test ts] & s1 & _ & H)%M_bind_ok. apply M_bind_ok in H as ([] & s2 & _ & H).
  apply M_bind_ok in H as ([] & s3 & H3 & H). apply on_image_ok in H3 as (i & j & _ & Ej & ->).
  apply M_bind_ok in H as (j0 & s4 & H4 & H). apply the_image_ok in H4 as [-> Ej0]. injection Ej0 as <-.
  apply M_bind_ok in H as ([] & s5 & H5 & H).
  assert (Hs5 : image_ok s5).
  { unfold when in H5. destruct (_ && _).
    - apply on_image_ok in H5 as (k & l & _ & El & ->). intros m [= <-]. eapply (po_info HP), El.
    - injection H5 as <-. intros m [= <-]. eapply (po_open HP), Ej. }
  apply M_bind_ok in H as (k & s6 & H6 & H). apply the_image_ok in H6 as [-> Ek].
  apply M_bind_ok in H as ([] & s7 & H7 & H). injection H7 as <-.
  apply M_bind_ok in H as ([] & s8 & H8 & H). injection H8 as <-.
  apply M_bind_ok in H as (l & s9 & H9 & H). injection H9 as <- <-.
  assert (E : image s' = image s5).
  { unfold when in H. destruct (2 <=? _); [|injection H as <-; reflexivity].
    rewrite !lift_bind in H. destruct (getImageWidth k 0); [|discriminate].
    destruct (getImageHeight k 0); [|discriminate]. injection H as <-. reflexivity. }
  intros m Hm. rewrite E in Hm. exact (Hs5 m Hm).
Qed.

Lemma FIF_sizes src s s' : FIF_run src s = (Ok tt, s') -> image_ok s'.
Proof.
  unfold FIF_run. destruct (decode (new_URL src)) as [argument u]. intros (path & s1 & H1 & H)%M_bind_ok.
  apply M_bind_ok in H as ([] & s2 & H2 & H). apply M_bind_ok in H as ([] & s3 & H3 & H).
  assert (I2 : image_ok s2).
  { unfold try_catch in H2. destruct (open_image path s1) as [[[]|[e|w|]] t] eqn:E; try discriminate H2.
    - injection H2 as <-. eapply open_image_sizes, E.
    - destruct e; discriminate H2. }
  assert (E3 : s3 = s2).
  { revert H3. unfold check_modified. rewrite gets_bind. destruct (_ !! _); [|intros [= <-]; reflexivity].
    intros (i & t & Hi & H3)%M_bind_ok. apply the_image_ok in Hi as [-> _]. destruct (_ <=? _); [discriminate|].
    injection H3 as <-. reflexivity. }
  subst s3. injection H as <-. exact I2.
Qed.

Lemma unwritten_clean {A} (m : M A) :
  keeps unwritten m -> keeps cache_kept m -> (forall s a s', m s = (Ok a, s') -> image_ok s') ->
  triple clean m clean /\ triple started m started.
Proof.
  intros Hu Hc Hi.
  assert (S : forall s, sound s -> sound (m s).2).
  { intros s (H1 & H2 & H3 & H4). destruct (Hu s) as (Ho & Hs & Hv & Hh). unfold sound. rewrite Ho, Hs, Hv, Hh.
    split_and!; auto. apply Hc, H2. }
  split; intros s Hs.
  - destruct Hs as [Hs _]. specialize (S s Hs). specialize (Hi s). destruct (m s) as [[a|[e|w|]] t]; try exact I; try exact S.
    split; [exact S|]. eapply Hi. reflexivity.
  - destruct Hs as [[Hs _] Hb]. specialize (S s Hs). specialize (Hi s). destruct (Hu s) as (Ho & _).
    destruct (m s) as [[a|[e|w|]] t]; cbn [snd] in *; try exact I; try exact S.
    split; [split; [exact S|]; eapply Hi; reflexivity|]. rewrite Ho. exact Hb.
Qed.

Lemma FIF_triple src : triple clean (FIF_run src) clean /\ triple started (FIF_run src) started.
Proof.
  apply unwritten_clean; [apply FIF_unwritten|apply FIF_cache, (po_hash HP)|]. intros s [] s'. apply FIF_sizes.
Qed.

(** ** Steps that write *)

Lemma write_started msg len : triple started (cpy2buf msg len) started.
Proof.
  intros s [[(H1 & H2 & H3 & H4) Hi] Hb]. unfold cpy2buf. destruct (_ && _); [|exact I]. unfold modify.
  split; [split; [split_and!; [exact H1|exact H2|right; apply begun_app, Hb|exact H4]|exact Hi]|apply begun_app, Hb].
Qed.

(** A text that begins an answer. *)
Definition header_first (h : string) : Prop := (exists r, h = "Server: iipsrv/" +:+ r) \/ (exists r, h = "Status: " +:+ r).
Definition opening (h : string) : Prop := header_first h \/ (Headerless /\ h <> "").

Lemma opening_begun h : opening h -> begun (to_bytes h).
Proof.
  intros [[(r & ->)|(r & ->)]|[H Hh]].
  - left. exists (to_bytes r). apply to_bytes_app.
  - right. left. exists (to_bytes r). apply to_bytes_app.
  - right. right. split; [exact H|]. destruct h; [contradiction|discriminate].
Qed.

Lemma blen_to_bytes_all h : take (Z.to_nat (slen h)) (to_bytes h) = to_bytes h.
Proof.
  apply take_ge. unfold to_bytes, slen. rewrite length_fmap.
  assert (E : length (String.list_ascii_of_string h) = String.length h) by (induction h; cbn; congruence). lia.
Qed.

Lemma put_opening h : opening h -> triple clean (put_stream h) started.
Proof.
  intros Ho s [(H1 & H2 & H3 & H4) Hi]. unfold put_stream, putStr, cpy2buf. destruct (_ && _); [|exact I]. unfold modify.
  rewrite blen_to_bytes_all.
  assert (B : begun (out s ++ to_bytes h)).
  { destruct H3 as [[-> _]|H3]; [apply opening_begun, Ho|apply begun_app, H3]. }
  split; [split; [split_and!; [exact H1|exact H2|right; exact B|exact H4]|exact Hi]|exact B].
Qed.

Lemma putS_opening h : header_first h -> triple clean (putS h) started.
Proof.
  intros Ho. assert (Hc : header_first (c_str h)).
  { destruct Ho as [(r & ->)|(r & ->)]; [left|right]; exists (c_str r); reflexivity. }
  exact (put_opening (c_str h) (or_introl Hc)).
Qed.

Lemma sent_started : triple started (on_response setImageSent) started.
Proof.
  intros s [[(H1 & H2 & H3 & H4) Hi] Hb]. split; [split; [split_and!; [exact H1|exact H2|right; exact Hb|exact H4]|exact Hi]|exact Hb].
Qed.

(** *** Rules for a handler, one for each kind of step *)

Lemma started_clean s : started s -> clean s.
Proof. intros [H _]. exact H. Qed.

Lemma clean_bind {A B} (m : M A) (k : A -> M B) J :
  keeps silent m -> (forall a, triple clean (k a) J) -> triple clean (m ≫= k) J.
Proof. intros H Hk. eapply triple_bind; [apply silent_clean, H|exact Hk]. Qed.

Lemma started_bind {A B} (m : M A) (k : A -> M B) J :
  keeps silent m -> (forall a, triple started (k a) J) -> triple started (m ≫= k) J.
Proof. intros H Hk. eapply triple_bind; [apply silent_started, H|exact Hk]. Qed.

Lemma opening_bind {B} h (k : unit -> M B) J :
  opening h -> (forall a, triple started (k a) J) -> triple clean (put_stream h ≫= k) J.
Proof. intros H Hk. eapply triple_bind; [apply put_opening, H|exact Hk]. Qed.

Lemma write_bind {A B} (m : M A) (k : A -> M B) J :
  triple started m started -> (forall a, triple started (k a) J) -> triple started (m ≫= k) J.
Proof. intros H Hk. eapply triple_bind; [exact H|exact Hk]. Qed.

Lemma handler_bind {A B} (m : M A) (k : A -> M B) J :
  triple clean m clean -> (forall a, triple clean (k a) J) -> triple clean (m ≫= k) J.
Proof. intros H Hk. eapply triple_bind; [exact H|exact Hk]. Qed.

Lemma finish_clean {A} (m : M A) : triple started m started -> triple started m clean.
Proof. apply triple_weaken; [auto|apply started_clean]. Qed.

Lemma put_tile_started t len : triple started (put_tile t len) started.
Proof. unfold put_tile. apply started_bind; [apply keeps_lift, _|]. intros b. apply write_started. Qed.

(** ** Tiles and regions *)

Lemma map_size_alter (f : IIPImage -> IIPImage) k (m : gmap string IIPImage) : base.size (alter f k m) = base.size m.
Proof.
  destruct (m !! k) as [x|] eqn:E; [|rewrite alter_id' by exact E; reflexivity].
  assert (Ea : alter f k m = <[k := f x]> m).
  { apply map_eq. intros j. destruct (decide (j = k)) as [->|Hj].
    - rewrite lookup_alter_eq, lookup_insert_eq, E. reflexivity.
    - rewrite lookup_alter_ne, lookup_insert_ne by congruence. reflexivity. }
  rewrite Ea. apply map_size_insert_Some. eauto.
Qed.

Lemma silent_get_tile e r n x y l ct : keeps silent (get_tile e r n x y l ct).
Proof. unfold get_tile. silent. Qed.

Lemma silent_compute_histogram e : keeps silent (compute_histogram e).
Proof.
  unfold compute_histogram. silent; try apply silent_get_tile.
  apply keeps_modify. intros s. unfold silent, image_ok. split_and!; try reflexivity; [apply map_size_alter|auto|auto].
Qed.

#[local] Hint Resolve silent_check silent_get_tile silent_compute_histogram : silent.

Lemma silent_prepare_histogram e : keeps silent (prepare_histogram e).
Proof. unfold prepare_histogram. silent. Qed.

Lemma silent_set_dpi e r : keeps silent (set_dpi e r).
Proof. unfold set_dpi. silent. Qed.

Lemma silent_embed_profile e : keeps silent (embed_profile e).
Proof. unfold embed_profile. silent. Qed.

#[local] Hint Resolve silent_prepare_histogram silent_set_dpi silent_embed_profile : silent.

(** One step of a handler: the steps that write need an answer that has begun,
    or begin it. *)
Ltac begins_answer := left; first [left; eexists; reflexivity | right; eexists; reflexivity].

Ltac handler_step :=
  lazymatch goal with
  | |- triple clean (mbind _ (put_stream _)) _ => apply opening_bind; [begins_answer|intros ?]
  | |- triple clean (mbind _ (FIF_run _)) _ => apply handler_bind; [apply FIF_triple|intros ?]
  | |- triple clean (mbind _ _) _ => apply clean_bind; [solve [silent]|intros ?]
  | |- triple started (mbind _ (put_stream _)) _ => apply write_bind; [apply write_started|intros ?]
  | |- triple started (mbind _ (putStr _ _)) _ => apply write_bind; [apply write_started|intros ?]
  | |- triple started (mbind _ (putS _)) _ => apply write_bind; [apply write_started|intros ?]
  | |- triple started (mbind _ (put_buffer _)) _ => apply write_bind; [apply write_started|intros ?]
  | |- triple started (mbind _ (put_tile _ _)) _ => apply write_bind; [apply put_tile_started|intros ?]
  | |- triple started (mbind _ (on_response setImageSent)) _ => apply write_bind; [apply sent_started|intros ?]
  | |- triple started (mbind _ _) _ => apply started_bind; [solve [silent]|intros ?]
  | |- triple started (on_response setImageSent) clean => apply finish_clean, sent_started
  | |- triple _ (match ?b with _ => _ end) _ => destruct b
  | |- triple clean _ clean => apply silent_clean; solve [silent]
  | |- triple started _ started => apply silent_started; solve [silent]
  | |- triple started _ clean => apply finish_clean
  end.

Ltac handler := repeat handler_step.

Lemma JTL_send_answers r n : triple clean (JTL.send r n) clean.
Proof. unfold JTL.send. handler. Qed.

Ltac handler_with lemma := repeat (apply lemma || handler_step).

Lemma JTL_answers a : triple clean (JTL_run a) clean.
Proof. unfold JTL_run. handler_with JTL_send_answers. Qed.

Lemma PTL_answers a : triple clean (PTL_run a) clean.
Proof. unfold PTL_run. handler_with JTL_answers. Qed.

Lemma JTLS_answers a : triple clean (JTLS_run a) clean.
Proof. unfold JTLS_run. handler_with JTL_send_answers. Qed.

Lemma send_strips_started (compressor : Compressor) data rw rh ch n h ns st :
  triple started (send_strips data rw rh ch n h ns st) started.
Proof.
  revert h st. induction ns as [|k ns IH]; intros h st; cbn [send_strips]; [handler|].
  apply started_bind; [silent|]. intros [output st']. handler_with IH.
Qed.

Lemma send_image_started (compressor : Compressor) t rw rh : triple started (send_image t rw rh) started.
Proof.
  unfold send_image. repeat ((apply write_bind; [apply send_strips_started|intros ?]) || handler_step).
Qed.

Lemma silent_choose_resolution : keeps silent choose_resolution.
Proof. unfold choose_resolution. silent. Qed.

Lemma silent_get_region e r x y w h : keeps silent (get_region e r x y w h).
Proof. unfold get_region. silent. Qed.

Lemma silent_set_view_dpi e w h : keeps silent (set_view_dpi e w h).
Proof. unfold set_view_dpi. silent. Qed.

Lemma silent_embed_metadata e : keeps silent (embed_metadata e).
Proof. unfold embed_metadata. silent. Qed.

#[local] Hint Resolve silent_choose_resolution silent_get_region silent_set_view_dpi silent_embed_metadata : silent.

(** A value computed on the way, and what is known of it. *)
Lemma lift_bind_known {A B} I J (r : res A) (k : A -> M B) :
  (forall s, I s -> sound s) -> (forall a, r = Ok a -> triple I (k a) J) -> triple I (lift r ≫= k) J.
Proof.
  intros HI H s Hs. rewrite lift_bind. destruct r as [a|[e|w|]]; [apply (H a eq_refl s Hs)|apply HI, Hs|exact Logic.I..].
Qed.

Lemma putS_bind {B} h (k : unit -> M B) J :
  header_first h -> (forall a, triple started (k a) J) -> triple clean (putS h ≫= k) J.
Proof. intros H Hk. eapply triple_bind; [apply putS_opening, H|exact Hk]. Qed.

Lemma cvt_header_opening i r m s h : cvt_header i r m s = Ok h -> header_first h.
Proof. unfold cvt_header. intros (b & _ & [= <-])%bind_ok. left. eexists. reflexivity. Qed.

Lemma CVT_send_answers : triple clean CVT.send clean.
Proof.
  unfold CVT.send.
  repeat lazymatch goal with |- triple _ (mbind _ (lift (cvt_header _ _ _ _))) _ => fail | _ => handler_step end.
  apply lift_bind_known; [intros s [Hs _]; exact Hs|]. intros str Hstr. apply putS_bind; [eapply cvt_header_opening, Hstr|].
  intros _. repeat ((apply write_bind; [apply send_image_started|intros ?]) || handler_step).
Qed.

Lemma CVT_answers a : triple clean (CVT_run a) clean.
Proof. unfold CVT_run. handler_with CVT_send_answers. Qed.

(** ** The other commands *)

Lemma til_row_order start_tile end_tile ntlx startx endx starty endy :
  til_rectangle start_tile end_tile ntlx = Ok (startx, endx, starty, endy) -> 0 < ntlx -> start_tile <= end_tile ->
  startx <= endx /\ starty <= endy.
Proof.
  unfold til_rectangle. destruct (Z.eqb_spec ntlx 0); [discriminate|]. intros E Hn Hs.
  pose proof (Z.quot_le_mono start_tile end_tile ntlx Hn Hs).
  destruct (Z.ltb_spec (Z.rem end_tile ntlx) (Z.rem start_tile ntlx)); injection E as <- <- <- <-; lia.
Qed.

Lemma send_til_tile_started r n : triple started (send_til_tile r n) started.
Proof. unfold send_til_tile. handler. Qed.

Lemma forM_started {A} (l : list A) body : (forall a, triple started (body a) started) -> triple started (forM l body) started.
Proof.
  intros H. induction l as [|a l IH]; cbn [forM]; [handler|]. apply write_bind; [apply H|]. intros _. exact IH.
Qed.

(** The current image has sizes that fit. *)
Lemma image_bind {B} (k : IIPImage -> M B) J :
  (forall i, sizes_ok i -> triple clean (k i) J) -> triple clean (the_image ≫= k) J.
Proof.
  intros H s Hs. unfold mbind, M_bind, the_image. destruct (image s) as [i|] eqn:E; [|exact I].
  apply (H i); [|exact Hs]. destruct Hs as [_ Hi]. exact (Hi i E).
Qed.

Lemma rd_Forall {A} (Q : A -> Prop) l n x : Forall Q l -> rd l n = Ok x -> Q x.
Proof.
  intros H [_ E]%rd_ok. rewrite list.Forall_lookup in H. eapply H, E.
Qed.

Lemma columns_positive w tw r : 0 <= w < 2 ^ 31 -> 0 <= tw -> umod w tw = Ok r ->
  let n := i32 (u32 (w / tw + (if r =? 0 then 0 else 1))) in n = 0 \/ 0 < n.
Proof.
  intros Hw Ht E. unfold umod in E. destruct (Z.eqb_spec tw 0); [discriminate|]. injection E as <-. cbv zeta.
  destruct (Z.eq_dec w 0) as [->|Hn]; [left; rewrite Z.div_0_l, Z.mod_0_l by lia; reflexivity|right].
  pose proof (Z.div_mod w tw ltac:(lia)). pose proof (Z.mod_pos_bound w tw ltac:(lia)).
  assert (0 <= w / tw) by (apply Z.div_pos; lia).
  assert (B : 0 < w / tw + (if w mod tw =? 0 then 0 else 1) < 2 ^ 31) by (destruct (Z.eqb_spec (w mod tw) 0); nia).
  rewrite u32_small by lia. rewrite i32_small by lia. lia.
Qed.

Lemma TIL_answers a : triple clean (TIL_run a) clean.
Proof.
  unfold TIL_run. apply clean_bind; [silent|]. intros _.
  apply lift_bind_known; [intros s [Hs _]; exact Hs|]. intros [[resolution start_tile] end_tile] Ea.
  assert (Hse : start_tile <= end_tile).
  { revert Ea. unfold til_argument. intros ([x y] & _ & ([z t] & _ & [= _ <- <-])%bind_ok)%bind_ok. case_match; lia. }
  apply image_bind. intros i [Hi Ht].
  apply lift_bind_known; [intros s [Hs _]; exact Hs|]. intros im_width Ew. pose proof (rd_Forall _ _ _ _ Hi Ew) as Hw.
  apply clean_bind; [silent|]. intros im_height.
  apply lift_bind_known; [intros s [Hs _]; exact Hs|]. intros rem_x Ex. cbv beta in Hw.
  pose proof (columns_positive _ _ _ Hw Ht Ex) as Hn. cbv zeta in Hn. cbv zeta.
  apply clean_bind; [silent|]. intros rem_y.
  apply lift_bind_known; [intros s [Hs _]; exact Hs|]. intros [[[startx endx] starty] endy] Er.
  assert (Ho : startx <= endx /\ starty <= endy).
  { eapply til_row_order; [exact Er| |exact Hse]. destruct Hn as [Hn|Hn]; [|exact Hn].
    exfalso. revert Er. unfold til_rectangle. rewrite Hn. discriminate. }
  rewrite (proj2 (Z.leb_le _ _) (proj1 Ho)), (proj2 (Z.leb_le _ _) (proj2 Ho)). cbn [andb when].
  apply clean_bind; [silent|]. intros s.
  apply putS_bind; [left; eexists; reflexivity|]. intros _.
  apply write_bind; [apply forM_started; intros n; apply send_til_tile_started|]. intros _. handler.
Qed.

Lemma OBJ_silent a : keeps silent (OBJ_run a).
Proof.
  unfold OBJ_run, iip, iip_server, max_size, resolution_number, tile_size, bits_per_channel, vertical_views, horizontal_views,
    min_max_values, resolutions, colorspace, metadata.
  silent; apply silent_on_response; intros []; case_match; split; reflexivity.
Qed.

Lemma MINMAX_silent a : keeps silent (MINMAX_run a).
Proof.
  unfold MINMAX_run. silent; match goal with E : _ = Ok _ |- _ => apply bind_ok in E as (? & _ & [= <-]); split; reflexivity end.
Qed.

Lemma Zoomify_answers a : triple clean (Zoomify_run a) clean.
Proof. unfold Zoomify_run. handler_with JTL_send_answers. Qed.

Lemma DeepZoom_answers a : triple clean (DeepZoom_run a) clean.
Proof. unfold DeepZoom_run. handler_with JTL_send_answers. Qed.

Lemma send_points_started r t x y views : triple started (send_points r t x y views) started.
Proof. induction views as [|n views IH]; cbn [send_points]; [handler|]. handler_with IH. Qed.

Lemma SPECTRA_answers a : triple clean (SPECTRA_run a) clean.
Proof.
  unfold SPECTRA_run. repeat ((apply write_bind; [apply send_points_started|intros ?]) || handler_step).
Qed.

Lemma profile_bands_silent r x1 y1 w h n views k l f : keeps silent (profile_bands r x1 y1 w h n views k l f).
Proof.
  revert k l f. induction views as [|v views IH]; intros k l f; cbn [profile_bands]; [silent|].
  repeat (apply IH || silent_step).
Qed.

#[local] Hint Resolve OBJ_silent MINMAX_silent profile_bands_silent : silent.

Lemma PFL_answers a : triple clean (PFL_run a) clean.
Proof. unfold PFL_run. handler. Qed.

(** *** IIIF *)

Lemma silent_header name : keeps silent (header name).
Proof.
  intros s. unfold header. rewrite gets_bind. destruct (headers s !! name) as [v|] eqn:Ev; [change (silent s s); reflexivity|].
  rewrite modify_bind. unfold silent, image_ok. split_and!; auto. intros q Hq.
  change (<[name := ""]> (headers s) !! "QUERY_STRING" = Some q). rewrite lookup_insert_ne; [exact Hq|congruence].
Qed.

#[local] Hint Resolve silent_header : silent.

Lemma silent_iiif_version : keeps silent iiif_version.
Proof.
  unfold iiif_version. silent. apply keeps_modify. intros s. unfold silent, image_ok. split_and!; auto.
Qed.

Lemma silent_info_id suffix : keeps silent (info_id suffix).
Proof. unfold info_id, invalid. silent. Qed.

Lemma silent_iiif_parameters version w h params : keeps silent (iiif_parameters version w h params).
Proof.
  intros s. destruct (iiif_parameters_keeps version w h params s) as [_ (v & ->)]. unfold silent, image_ok. split_and!; auto.
Qed.

Lemma silent_log_request : keeps silent log_request.
Proof. unfold log_request. silent. Qed.

#[local] Hint Resolve silent_iiif_version silent_info_id silent_iiif_parameters silent_log_request : silent.

Lemma redirect_answers : triple clean redirect clean.
Proof. unfold redirect. handler. Qed.

Lemma info_answers version suffix w h tw th n : triple clean (info version suffix w h tw th n) clean.
Proof. unfold info. handler. Qed.

Lemma image_request_answers w h tw th n : triple clean (image_request w h tw th n) clean.
Proof. unfold image_request. repeat (apply JTL_send_answers || apply CVT_send_answers || handler_step). Qed.

Lemma IIIF_answers a : triple clean (IIIF_run a) clean.
Proof.
  unfold IIIF_run.
  repeat (apply redirect_answers || apply info_answers || apply image_request_answers || handler_step).
Qed.

(** *** Several images *)

Section Ext.
Context {V : Vips} {mz : MiniZip}.

Lemma silent_ext_getTile r n : keeps silent (ext_getTile r n).
Proof. unfold ext_getTile. silent. Qed.

#[local] Hint Resolve silent_ext_getTile : silent.

(** A tile named [dzi] makes the handler send entries without the header. *)
Context (HE : Headerless).

Ltac ext_step :=
  lazymatch goal with
  | |- triple _ (undefM _) _ => intros ? ?; exact Logic.I
  | |- triple started (putStr _ _) started => apply write_started
  | |- _ => handler_step
  end.

Lemma ext_send_answers e tiles invalid : triple clean (ext_send e tiles invalid) clean.
Proof.
  unfold ext_send. apply clean_bind; [silent|]. intros buffer. apply clean_bind; [silent|]. intros s.
  apply (triple_bind _ started); [repeat ext_step|]. intros _. handler.
Qed.

Lemma ext_sendZip_answers e tiles invalid : triple clean (ext_sendZip e tiles invalid) clean.
Proof. unfold ext_sendZip. destruct zip_open as [err handle]. handler. Qed.

Lemma send_all_answers b f d : triple clean (send_all b f d) clean.
Proof.
  unfold send_all, when. repeat (apply ext_send_answers || apply ext_sendZip_answers || ext_step).
Qed.

Lemma add_entry_answers first last tw w h d : triple clean (add_entry first last tw w h d) clean.
Proof.
  unfold add_entry. apply clean_bind; [silent|]. intros s. apply handler_bind; [|intros _; handler].
  destruct last; cbn [when]; [|handler]. apply opening_bind; [|intros _; handler].
  right. split; [exact HE|]. destruct (initHeader d), first; discriminate.
Qed.

Lemma missing_answers first last f d : triple clean (sendMissingFileResponse first last f d) clean.
Proof.
  unfold sendMissingFileResponse. destruct (bool_decide _); [apply add_entry_answers|].
  apply handler_bind; [apply send_all_answers|]. intros _. handler.
Qed.

Lemma existing_answers first last f a d : triple clean (sendExistingFileResponse first last f a d) clean.
Proof.
  unfold sendExistingFileResponse.
  repeat (apply add_entry_answers || (apply handler_bind; [apply send_all_answers|intros ?]) || handler_step).
Qed.

Lemma each_path_answers n i f a paths d : triple clean (each_path n i f a paths d) clean.
Proof.
  revert i d. induction paths as [|p paths IH]; intros i d; cbn [each_path]; [handler|].
  apply clean_bind; [silent|]. intros there. apply handler_bind.
  - destruct there; cbn [when]; [apply FIF_triple|handler].
  - intros _. destruct (_ =? _); [handler|]. apply handler_bind; [|intros d'; apply IH].
    destruct there; [apply existing_answers|apply missing_answers].
Qed.

Lemma DeepZoomExt_answers a : triple clean (DeepZoomExt_run a) clean.
Proof. unfold DeepZoomExt_run. repeat (apply each_path_answers || handler_step). Qed.
End Ext.

(** ** Commands *)

Section Commands.
Context {V : Vips} {mz : MiniZip}.

Lemma run_task_answers t a : (t = DeepZoomExt -> Headerless) -> triple clean (run_task t a) clean.
Proof.
  intros Ht. destruct t;
    try (match goal with |- triple _ (run_task ?t _) _ =>
           apply silent_clean; first [exact (silent_parameter t _ a eq_refl) | apply OBJ_silent | apply MINMAX_silent] end);
    cbn [run_task].
  - apply FIF_triple.
  - apply TIL_answers.
  - apply PTL_answers.
  - apply JTL_answers.
  - apply JTLS_answers.
  - apply CVT_answers.
  - apply Zoomify_answers.
  - apply SPECTRA_answers.
  - apply PFL_answers.
  - apply DeepZoom_answers.
  - apply DeepZoomExt_answers, Ht. reflexivity.
  - apply IIIF_answers.
Qed.

Lemma run_commands_answers l :
  (Exists (fun p => factory p.1 = Some DeepZoomExt) l -> Headerless) -> triple clean (forM l run_command) clean.
Proof.
  induction l as [|p l IH]; intros Hl; cbn [forM]; [handler|]. apply handler_bind.
  - unfold run_command. destruct (factory p.1) as [t|] eqn:E; [|handler]. apply run_task_answers. intros ->.
    apply Hl. left. exact E.
  - intros _. apply IH. intros H. apply Hl. right. exact H.
Qed.

Lemma putS_ok h s : putS h s = (Ok tt, s <| out := out s ++ to_bytes (c_str h) |>).
Proof.
  unfold putS, cpy2buf. assert (E : blen (to_bytes (c_str h)) = slen (c_str h)).
  { unfold blen, slen, to_bytes. rewrite length_fmap. f_equal. induction (c_str h); cbn; congruence. }
  rewrite E, Z.leb_refl, (proj2 (Z.leb_le 0 _)) by apply slen_nonneg. cbn [andb]. unfold modify. rewrite blen_to_bytes_all. reflexivity.
Qed.

(** The two texts of the response begin with its first field. *)
Lemma response_header r : server r = "Server: iipsrv/" +:+ VERSION ->
  header_first (formatResponse r) /\ header_first (getAdvert VERSION r).
Proof.
  intros Hr. unfold formatResponse, getAdvert. rewrite Hr. split; left.
  - destruct (negb (empty (error r))); [|destruct (negb (empty (cors r)))];
      [destruct (negb (empty (cors r)))|..]; eexists; reflexivity.
  - eexists. reflexivity.
Qed.

Lemma put_response_begun h s : header_first h -> sound s -> exists s', putS h s = (Ok tt, s')
  /\ begun (out s') /\ imageCache s' = imageCache s.
Proof.
  intros Hh (H1 & H2 & H3 & H4). rewrite putS_ok. eexists. split; [reflexivity|]. split; [|reflexivity].
  assert (Hc : header_first (c_str h)).
  { destruct Hh as [(r & ->)|(r & ->)]; [left|right]; exists (c_str r); reflexivity. }
  change (begun (out s ++ to_bytes (c_str h))). destruct H3 as [[-> _]|H3]; [apply opening_begun; left; exact Hc|apply begun_app, H3].
Qed.

Lemma send_response_answers request : triple clean (send_response request) started.
Proof.
  intros s [Hs Hi]. unfold send_response. rewrite gets_bind.
  destruct (imageSent (response s)) eqn:Hsent; cbn [negb andb when].
  - rewrite M_ret_bind, gets_bind.
    assert (St : started s).
    { split; [split; assumption|]. destruct Hs as (_ & _ & [[_ H]|H] & _); [congruence|exact H]. }
    destruct (IIPResponse.isSet (response s)); [|exact St]. apply (write_started _ _ s St).
  - assert (Hput : forall t, sound t -> image_ok t -> IIPResponse.isSet (response t) = true ->
        match when (IIPResponse.isSet (response t)) (putS (formatResponse (response t))) t with
        | (Ok _, s') => started s' | (Err (Thrown _), s') => sound s' | _ => True end).
    { intros t Ht Hit ->. cbn [when]. apply (putS_opening (formatResponse (response t))); [|split; assumption].
      apply response_header, Ht. }
    destruct (IIPResponse.isSet (response s)) eqn:Hset; cbn [negb when].
    + rewrite M_ret_bind, gets_bind. apply Hput; assumption.
    + unfold on_response at 1. rewrite modify_bind, gets_bind. apply Hput.
      * destruct Hs as (H1 & H2 & H3 & H4). split_and!; assumption.
      * exact Hi.
      * unfold IIPResponse.isSet, setError. cbn. destruct (error (response s)); reflexivity.
Qed.

(** A [catch] clause ends normally and answers, unless what was thrown is a
    number it does not know. *)
Lemma catch_answers e s : sound s -> exists s', catch e s = (Ok tt, s') /\ imageCache s' = imageCache s
  /\ (begun (out s') \/ exists n, e = ExnCode n /\ n <> 304).
Proof.
  intros Hs. pose proof (response_header _ (proj1 Hs)) as [Hf Ha].
  assert (Hput : forall h, header_first h -> exists s', (_ ← putS h; flush) s = (Ok tt, s') /\ imageCache s' = imageCache s /\ begun (out s')).
  { intros h Hh. destruct (put_response_begun h s Hh Hs) as (s' & E & B & C). exists s'.
    unfold mbind, M_bind. rewrite E. auto. }
  unfold catch. rewrite gets_bind. destruct e as [m|m|m|n| | |m].
  - destruct (errorIsSet (response s)); [destruct (put_response_begun _ s Hf Hs) as (s' & -> & B & C)
      |destruct (put_response_begun _ s Ha Hs) as (s' & -> & B & C)]; eauto 10.
  - destruct (Hput (status_response "404 Not Found" (response s) (c_str m))) as (s' & -> & B & C); [right; eexists; reflexivity|]. eauto 10.
  - destruct (Hput (status_response "400 Bad Request" (response s) (c_str m))) as (s' & -> & B & C); [right; eexists; reflexivity|]. eauto 10.
  - destruct (Z.eqb_spec n 304).
    + destruct (Hput ("Status: 304 Not Modified" +:+ crlf +:+ "Server: iipsrv/" +:+ VERSION +:+ crlf +:+ crlf)) as (s' & -> & B & C);
        [right; eexists; reflexivity|]. eauto 10.
    + exists s. split_and!; [reflexivity|reflexivity|]. right. eauto.
  - destruct (put_response_begun _ s Ha Hs) as (s' & -> & B & C). eauto 10.
  - destruct (Hput (status_response "500 Internal Server Error" (response s) "Unable to allocate memory")) as (s' & -> & B & C);
      [right; eexists; reflexivity|]. eauto 10.
  - destruct (put_response_begun _ s Ha Hs) as (s' & -> & B & C). eauto 10.
Qed.
End Commands.
End Answer.

(** ** One turn of the loop *)

(** The request is for several images at once. *)
Definition several_images {P : Platform} (c : Config) (r : Request) : Prop :=
  exists request l, request_string c r = Ok request /\ parse_commands request = Ok l
    /\ Exists (fun p => factory p.1 = Some DeepZoomExt) l.

(** The session once the request is known. *)
Definition named_session {P : Platform} {mc : Memcached} {host : Host} (c : Config) (s : Server) (r : Request) (request : string) : Session :=
  (new_session c s) <| headers := request_headers c r request |>.

Section Turn.
Context {P : Platform} {V : Vips} {mz : MiniZip} {mc : Memcached} {H : Host}.
Context (HP : platform_ok) (c : Config) (r : Request) (s : Server).

(** The answer Memcached has for the request. *)
Definition hit (answer : bytes) : Prop :=
  exists request, request_string c r = Ok request /\ retrieve request (s_memcached s) = Some answer.

Definition bounded (s : Server) : Prop := Z.of_nat (base.size (s_imageCache s)) <= MAXIMAGECACHE.

(** The same session, without and with what is known of its headers. *)
Lemma sound_forget h q t : sound h q t -> sound h None t.
Proof. intros (H1 & H2 & H3 & _). split_and!; [assumption..|discriminate]. Qed.

Lemma started_query h q t : started h (Some q) t -> started h None t /\ headers t !! "QUERY_STRING" = Some q.
Proof.
  intros [[Ht Hi] Hb]. split; [split; [split; [apply sound_forget in Ht; exact Ht|exact Hi]|exact Hb]|].
  destruct Ht as (_ & _ & _ & Ht). apply Ht. reflexivity.
Qed.

Lemma new_session_clean : bounded s -> clean (several_images c r) None (new_session c s).
Proof.
  intros Hs. split; [|discriminate]. split_and!; [|exact Hs|left|discriminate].
  - unfold new_session. cbn. unfold setCORS. destruct (empty (c_cors c)); reflexivity.
  - split; [reflexivity|]. cbn. unfold setCORS. destruct (empty (c_cors c)); reflexivity.
Qed.

Lemma request_headers_query request : request_headers c r request !! "QUERY_STRING" = Some request.
Proof.
  unfold request_headers. cbn [foldl].
  repeat (match goal with |- context [envp r ?n] => destruct (envp r n) end; rewrite ?lookup_insert_ne by discriminate);
    rewrite lookup_insert_eq; reflexivity.
Qed.

(** What the [try] block leaves, when it ends and when it throws. *)
Definition processed (p : res unit * Session) : Prop :=
  match p with
  | (Ok _, t) => started (several_images c r) None t
                 /\ forall request, request_string c r = Ok request -> headers t !! "QUERY_STRING" = Some request
  | (Err (Thrown e), t) =>
      sound (several_images c r) None t \/ e = ExnCode 100 /\ hit (out t) /\ imageCache t = s_imageCache s
  | _ => True
  end.

(** The commands of a request, and the response after them. *)
Definition run_request (request : string) : M unit :=
  requests ← lift (parse_commands request); _ ← forM requests run_command; send_response request.

Lemma run_request_answers request t :
  request_string c r = Ok request -> clean (several_images c r) (Some request) t -> processed (run_request request t).
Proof.
  intros Er Ht.
  assert (T : triple (several_images c r) (Some request) (clean (several_images c r) (Some request)) (run_request request)
                (started (several_images c r) (Some request))).
  { unfold run_request. apply lift_bind_known; [intros u [Hu _]; exact Hu|]. intros l El.
    eapply triple_bind; [apply run_commands_answers; [exact HP|]|intros _; apply send_response_answers].
    intros Hl. exists request, l. auto. }
  specialize (T t Ht). unfold processed. destruct (run_request request t) as [[a|[e|w|]] u]; try exact I.
  - apply started_query in T as [T Q]. split; [exact T|]. intros q Hq. rewrite Er in Hq. injection Hq as <-. exact Q.
  - left. eapply sound_forget, T.
Qed.

Lemma process_answers : bounded s -> processed (process c r (s_memcached s) (new_session c s)).
Proof.
  intros Hs. pose proof (new_session_clean Hs) as Hc. set (s0 := new_session c s) in *.
  unfold process. rewrite lift_bind.
  destruct (request_string c r) as [request|[e|w|]] eqn:Er; try exact I; [|left; apply Hc].
  destruct (empty request).
  - left. destruct Hc as [(H1 & H2 & H3 & _) _]. split_and!; [assumption..|discriminate].
  - rewrite modify_bind. set (s1 := s0 <| headers := request_headers c r request |>).
    assert (Hc1 : clean (several_images c r) (Some request) s1).
    { destruct Hc as [(H1 & H2 & H3 & _) Hi]. split; [|exact Hi]. split_and!; [exact H1|exact H2|exact H3|].
      intros q [= <-]. apply request_headers_query. }
    pose proof (run_request_answers request s1 Er Hc1) as Hrest. unfold run_request in Hrest.
    unfold mbind at 1, M_bind at 1. unfold check_memcached. rewrite gets_bind.
    destruct (negb _ || empty _); [|exact Hrest].
    destruct (retrieve request (s_memcached s)) as [data|] eqn:Em; [|exact Hrest].
    unfold putStr, cpy2buf. rewrite (proj2 (Z.leb_le 0 _)), Z.leb_refl by (unfold blen; lia). cbn [andb].
    right. split; [reflexivity|]. split; [|reflexivity]. exists request. split; [exact Er|].
    rewrite Em. f_equal. cbn. rewrite take_ge by (unfold blen; lia). reflexivity.
Qed.

Lemma turn_answers : bounded s ->
  match handle_request c r s with
  | (Ok answer, s') => bounded s' /\
      (begun (several_images c r) answer \/ hit answer
       \/ exists n, (process c r (s_memcached s) (new_session c s)).1 = Err (Thrown (ExnCode n)) /\ n <> 304)
  | (Err (Thrown _), _) => False
  | (Err _, _) => True
  end.
Proof.
  intros Hs. pose proof (process_answers Hs) as Hp. unfold processed in Hp. unfold handle_request.
  destruct (process c r (s_memcached s) (new_session c s)) as [[a|[e|w|]] t] eqn:Ep; try exact I.
  - destruct Hp as [[[(_ & Hb & _) _] B] _]. split; [exact Hb|]. left. exact B.
  - destruct Hp as [Hp|(-> & Hh & Hc)].
    + destruct (catch_answers (several_images c r) None e t Hp) as (t' & -> & Hc & Hb). cbn [mbind res_bind].
      split; [unfold bounded; cbn; rewrite Hc; apply Hp|]. destruct Hb as [Hb|(n & -> & Hn)]; [left; exact Hb|].
      do 2 right. exists n. split; [reflexivity|exact Hn].
    + unfold catch. rewrite gets_bind. cbn. split; [unfold bounded in *; cbn; rewrite Hc; exact Hs|]. right. left. exact Hh.
Qed.

(** An answer that Memcached has is sent as it is. *)
Lemma hit_sent request data :
  request_string c r = Ok request -> empty request = false -> envp r "HTTP_IF_MODIFIED_SINCE" = None ->
  retrieve request (s_memcached s) = Some data -> (handle_request c r s).1 = Ok data.
Proof.
  intros Er Hne Hi Hd. unfold handle_request, process. rewrite lift_bind, Er, Hne, modify_bind.
  unfold check_memcached, mbind, M_bind at 1. unfold mbind, M_bind, gets. cbn [fst snd]. rewrite Hi, Hd. cbn [negb orb].
  unfold putStr, cpy2buf. rewrite (proj2 (Z.leb_le 0 _)), Z.leb_refl by (unfold blen; lia). cbn.
  rewrite take_ge by (unfold blen; lia). reflexivity.
Qed.

(** Without an answer in Memcached the commands are run. *)
Lemma miss_run request :
  request_string c r = Ok request -> empty request = false -> retrieve request (s_memcached s) = None ->
  process c r (s_memcached s) (new_session c s)
  = run_request request (named_session c s r request).
Proof.
  intros Er Hne Hn. unfold process. rewrite lift_bind, Er, Hne, modify_bind.
  unfold check_memcached, mbind, M_bind at 1. unfold mbind, M_bind, gets. rewrite Hn. destruct (negb _ || empty _); reflexivity.
Qed.

(** What Memcached gives for what was stored, if it gives something. *)
Lemma retrieve_store timeout key data m d :
  (forall key data timeout m d, memcached_get key (memcached_set key data timeout m) = Some d -> d = data) ->
  retrieve key (store timeout key data m) = Some d -> d = data.
Proof.
  intros Hlaw. unfold retrieve, store. destruct connected; [apply Hlaw|discriminate].
Qed.

(** An answer that may be kept is kept under the string of the request. *)
Lemma answer_stored t request :
  bounded s -> process c r (s_memcached s) (new_session c s) = (Ok tt, t) -> request_string c r = Ok request ->
  cachable (response t) = true ->
  exists s', handle_request c r s = (Ok (out t), s')
    /\ s_memcached s' = store (memcached_timeout c) request (out t) (s_memcached s).
Proof.
  intros Hs Ep Er Hc. pose proof (process_answers Hs) as Hp. rewrite Ep in Hp. destruct Hp as [_ Hq].
  unfold handle_request. rewrite Ep, Hc, (Hq request Er). eexists. split; reflexivity.
Qed.
End Turn.

(** ** Properties *)

(** C3. What becomes of a request.  The body of the loop ends for every request below
    2 GB, as long as the libraries return ([libraries_end]), and no exception leaves it.
    An answer begins with the header line [Server:] or [Status:], whatever the commands
    did before they ended or threw, except for one that Memcached kept, for a list of
    images, where it is only not empty, and for a number thrown by a library that no
    clause knows.  There is an answer for certain, with no undefined behaviour on the way,
    when the request is [answerable], the log is below level 2 and opening a file is
    defined ([codecs_open], which [Opens.tiff_opens] shows of the TIFF reader): any number
    of commands that name images, set parameters, ask for objects of the image that are
    not computed from its sizes or ranges, or do not exist; tiles and regions asked for
    before an image was named; and requests that cannot be read.  For the other requests,
    those for tiles, regions, descriptions and measurements of an opened image, undefined
    behaviour is not excluded, and some have it ([spectra_border_tile],
    [unknown_format_crashes]). *)
Theorem every_request_answered {P : Platform} {V : Vips} {mz : MiniZip} {mc : Memcached} {H : Host}
    (c : Config) (r : Request) (s : Server) :
  platform_ok -> libraries_end -> codecs_open -> bounded s ->
  (forall request, request_string c r = Ok request -> slen request < 2 ^ 31) ->
  match (handle_request c r s).1 with
  | Ok answer =>
      (exists rest, answer = to_bytes "Server: iipsrv/" ++ rest) \/ (exists rest, answer = to_bytes "Status: " ++ rest)
      \/ (several_images c r /\ answer <> []) \/ hit c r s answer
      \/ exists n, (process c r (s_memcached s) (new_session c s)).1 = Err (Thrown (ExnCode n)) /\ n <> 304
  | Err (Undefined _) => answerable c r = false \/ 2 <= c_loglevel c
  | Err (Thrown _) | Err OutOfFuel => False
  end.
Proof.
  intros HP HL HC Hs Hr. pose proof (turn_answers HP c r s Hs) as Ht. pose proof (request_ends HL c r s Hr) as He.
  destruct (answerable c r) eqn:Ha.
  - destruct (Z.lt_ge_cases (c_loglevel c) 2) as [Hl|Hl].
    + destruct (answerable_answered HC c r s Hl Ha) as [a Ea].
      destruct (handle_request c r s) as [res s']; cbn [fst] in *. subst res. unfold begun in Ht. tauto.
    + destruct (handle_request c r s) as [[answer|[e|w|]] s']; cbn [fst] in *; unfold begun in Ht; tauto.
  - destruct (handle_request c r s) as [[answer|[e|w|]] s']; cbn [fst] in *; unfold begun in Ht; tauto.
Qed.

(** C18. In every state the server can reach, after any requests and signals, the
    cache of images has at most as many elements as it may. *)
Theorem reachable_bounded {P : Platform} {V : Vips} {mz : MiniZip} {mc : Memcached} {H : Host}
    (c : Config) (m : memc) (s0 s : Server) :
  platform_ok -> init m = Ok (c, s0) -> reachable c s0 s -> bounded s.
Proof.
  intros HP Hi.
  assert (Hempty : forall t n m, bounded (mkServer mc ∅ t m n))
    by (intros; unfold bounded; cbn [s_imageCache]; rewrite map_size_empty; unfold MAXIMAGECACHE; lia).
  assert (H0 : bounded s0).
  { revert Hi. unfold init. intros (u & _ & (w & _ & (t & _ & [= _ <-])%bind_ok)%bind_ok)%bind_ok. apply Hempty. }
  induction 1 as [|s e s' _ IH Hstep]; [exact H0|]. destruct Hstep as [r answer s s' E|s].
  - pose proof (turn_answers HP c r s IH) as Ha. rewrite E in Ha. apply Ha.
  - apply Hempty.
Qed.

(** C14. Memcached replays answers.  Let the [try] block of a request end normally with
    an answer that may be kept, and let a later request have the same request string and no
    [If-Modified-Since], whatever its other parameters are and whatever became of the
    caches of the server.  If Memcached still has an answer for the string, and it is not
    one that another request stored meanwhile, the later request is answered with the very
    same bytes; if it has none, because it never took the answer, or dropped it, or time
    ran out, the commands are run as for a new request.  All that is asked of Memcached is
    that it gives for a key that was just set either nothing or what was set.  An answer
    with an error that a command reported without throwing is kept and replayed like any
    other, against the comment in Main.cc ([errors_are_stored]). *)
Theorem memcached_replays {P : Platform} {V : Vips} {mz : MiniZip} {mc : Memcached} {H : Host}
    (c : Config) (r again : Request) (s s' later : Server) (t : Session) (request : string) (answer : bytes) :
  platform_ok -> bounded s ->
  (forall key data timeout m d, memcached_get key (memcached_set key data timeout m) = Some d -> d = data) ->
  request_string c r = Ok request -> process c r (s_memcached s) (new_session c s) = (Ok tt, t) ->
  cachable (response t) = true -> handle_request c r s = (Ok answer, s') ->
  (forall d, retrieve request (s_memcached later) = Some d -> retrieve request (s_memcached s') = Some d) ->
  request_string c again = Ok request -> envp again "HTTP_IF_MODIFIED_SINCE" = None ->
  match retrieve request (s_memcached later) with
  | Some _ => (handle_request c again later).1 = Ok answer
  | None => process c again (s_memcached later) (new_session c later)
            = run_request request (named_session c later again request)
  end.
Proof.
  intros HP Hs Hlaw Er Ep Hc Eh El Era Hi.
  destruct (answer_stored HP c r s t request Hs Ep Er Hc) as (s2 & Eh2 & Em). rewrite Eh in Eh2. injection Eh2 as -> <-.
  assert (Hne : empty request = false).
  { revert Ep. unfold process. rewrite lift_bind, Er. destruct (empty request); [|reflexivity].
    unfold on_response. rewrite modify_bind. discriminate. }
  destruct (retrieve request (s_memcached later)) as [d|] eqn:Ed; [|exact (miss_run c again later request Era Hne Ed)].
  specialize (El d eq_refl). rewrite Em in El. rewrite (retrieve_store _ _ _ _ _ Hlaw El) in Ed.
  exact (hit_sent c again later request _ Era Hne Hi Ed).
Qed.

(** ** A small server

    The platform of [Demo] with a Memcached that is a map. *)

#[global] Instance demo_vips : Vips := {|
  VImage := bytes; vips_new_from_buffer := fun b => Ok b; vips_black := fun _ _ => [0];
  vips_join := fun a b => Ok (a ++ b); vips_write_to_buffer := fun _ v => Ok v
|}.

#[global] Instance demo_zip : MiniZip := {|
  zip_state := bytes; zip_open := (0, []); zip_entry_open := fun _ z => z; zip_entry_write := fun b z => z ++ b;
  zip_entry_close := fun z => (0, z); zip_close := fun z => z; zip_buffer := fun z => z
|}.

#[global] Instance demo_memcached : Memcached := {|
  memc := gmap string bytes; connected := true;
  memcached_set := fun key data _ m => <[key := data]> m; memcached_get := fun key m => m !! key
|}.

#[global] Instance demo_host : Host := {|
  log_opens := fun _ => false; have_kakadu := false; tiff_rgba := fun _ => None
|}.

Definition result_type {A : Type} (r : res A) : Type := match r with Ok _ => A | Err _ => unit end.
Definition the {A : Type} (r : res A) : result_type r := match r with Ok a => a | Err _ => tt end.

(** The server after [init]. *)
Definition demo_start : Config * Server := Eval vm_compute in the (init ∅).

Lemma demo_starts : init ∅ = Ok demo_start.
Proof. vm_compute. reflexivity. Qed.

Definition demo_request (query : string) : Request :=
  mkRequest (fun name => if bool_decide (name = "QUERY_STRING") then Some query else None) [].

Lemma demo_platform_ok : platform_ok.
Proof.
  split; [exact demo_hash|..]; intros; simplify_eq/=; (split; [repeat constructor; lia|vm_compute; discriminate]).
Qed.

(** The answer to a first request, and the server after it. *)
Definition first_answer (q : string) : bytes :=
  match (handle_request demo_start.1 (demo_request q) demo_start.2).1 with Ok answer => answer | Err _ => [] end.
Definition after_first (q : string) : Server := (handle_request demo_start.1 (demo_request q) demo_start.2).2.

Definition unknown : string := "FIF=demo.tif&FOO=1".

Lemma demo_libraries_end : libraries_end.
Proof. constructor; intros; exact I. Qed.

Lemma demo_codecs_open : codecs_open.
Proof. constructor; intros; exact I. Qed.

(** A request that reads outside a tile: [spectra_border_tile] below. *)
Definition outside : string := "FIF=demo.tif&SPECTRA=0,2,0,1&SPECTRA=0,2,0,1".

Lemma every_request_answered_witness :
  (exists rest, first_answer unknown = to_bytes "Server: iipsrv/" ++ rest)
  /\ answerable demo_start.1 (demo_request unknown) = true /\ answerable demo_start.1 (demo_request outside) = false.
Proof.
  assert (Eh : (handle_request demo_start.1 (demo_request unknown) demo_start.2).1 = Ok (first_answer unknown))
    by (vm_compute; reflexivity).
  assert (Eq : request_string demo_start.1 (demo_request unknown) = Ok unknown) by (vm_compute; reflexivity).
  assert (Hb : bounded demo_start.2) by (vm_compute; discriminate).
  assert (Hu : forall q, request_string demo_start.1 (demo_request unknown) = Ok q -> slen q < 2 ^ 31)
    by (intros q Hq; vm_compute in Hq; injection Hq as <-; reflexivity).
  assert (Ho : forall q, request_string demo_start.1 (demo_request outside) = Ok q -> slen q < 2 ^ 31)
    by (intros q Hq; vm_compute in Hq; injection Hq as <-; reflexivity).
  pose proof (every_request_answered demo_start.1 (demo_request unknown) demo_start.2 demo_platform_ok demo_libraries_end
                demo_codecs_open Hb Hu) as T. rewrite Eh in T.
  pose proof (every_request_answered demo_start.1 (demo_request outside) demo_start.2 demo_platform_ok demo_libraries_end
                demo_codecs_open Hb Ho) as U.
  assert (Eo : exists w, (handle_request demo_start.1 (demo_request outside) demo_start.2).1 = Err (Undefined w))
    by (eexists; vm_compute; reflexivity).
  destruct Eo as [w Eo]. rewrite Eo in U. split_and!;
    [|vm_compute; reflexivity|destruct U as [U|U]; [exact U|exfalso; vm_compute in U; exact (U eq_refl)]].
  destruct T as [T|[(rest & T)|[[T _]|[T|(n & T & _)]]]]; [exact T|..]; exfalso.
  - assert (Ef : first_answer unknown !! 1%nat = Some 101) by (vm_compute; reflexivity). rewrite T in Ef. discriminate Ef.
  - destruct T as (q & l & Hq & Hl & Hx). rewrite Eq in Hq. injection Hq as <-. vm_compute in Hl. injection Hl as <-.
    do 2 (apply Exists_cons in Hx; destruct Hx as [Hx|Hx]; [discriminate Hx|]). apply Exists_nil in Hx. exact Hx.
  - destruct T as (q & _ & Hq). discriminate Hq.
  - assert (Ep : (process demo_start.1 (demo_request unknown) (s_memcached demo_start.2)
                   (new_session demo_start.1 demo_start.2)).1 = Ok tt) by (vm_compute; reflexivity).
    rewrite Ep in T. discriminate T.
Defined.

Lemma reachable_bounded_witness :
  bounded (after_first unknown) /\ base.size (s_imageCache (after_first unknown)) = 1%nat.
Proof.
  split; [|vm_compute; reflexivity].
  apply (reachable_bounded demo_start.1 ∅ demo_start.2 (after_first unknown) demo_platform_ok demo_starts).
  eapply reach_step; [apply reach_start|]. apply (step_request _ (demo_request unknown) (first_answer unknown)).
  vm_compute. reflexivity.
Defined.

(** The second request finds the answer of the first, though the caches were
    emptied in between; when Memcached was emptied too, the commands are run again. *)
Definition kept : string := "FIF=demo.tif&WID=3&CVT=jpeg".

Lemma memcached_replays_witness :
  (handle_request demo_start.1 (demo_request kept) (reload_cache (after_first kept))).1 = Ok (first_answer kept)
  /\ process demo_start.1 (demo_request kept) ∅ (new_session demo_start.1 demo_start.2)
     = run_request kept (named_session demo_start.1 demo_start.2 (demo_request kept) kept).
Proof.
  assert (T : forall later, (forall d, retrieve kept (s_memcached later) = Some d -> retrieve kept (s_memcached (after_first kept)) = Some d) ->
    match retrieve kept (s_memcached later) with
    | Some _ => (handle_request demo_start.1 (demo_request kept) later).1 = Ok (first_answer kept)
    | None => process demo_start.1 (demo_request kept) (s_memcached later) (new_session demo_start.1 later)
              = run_request kept (named_session demo_start.1 later (demo_request kept) kept)
    end).
  { intros later Hl.
    apply (memcached_replays demo_start.1 (demo_request kept) (demo_request kept) demo_start.2 (after_first kept) later
             (process demo_start.1 (demo_request kept) (s_memcached demo_start.2) (new_session demo_start.1 demo_start.2)).2 kept);
      try exact Hl; try exact demo_platform_ok; try (vm_compute; discriminate); try (vm_compute; reflexivity).
    intros key data timeout m d Hd.
    assert (E : memcached_get key (memcached_set key data timeout m) = Some data) by apply lookup_insert_eq. congruence. }
  split.
  - assert (Em : forall s, s_memcached (reload_cache s) = s_memcached s) by reflexivity.
    pose proof (T (reload_cache (after_first kept))) as U. rewrite Em in U. specialize (U (fun d H => H)).
    assert (E : exists d, retrieve kept (s_memcached (after_first kept)) = Some d) by (eexists; vm_compute; reflexivity).
    destruct E as [d E]. rewrite E in U. exact U.
  - exact (T demo_start.2 ltac:(discriminate)).
Defined.

(** ** Where the server goes wrong *)

Definition outcome (r : Request) (s : Server) : res bytes := (handle_request demo_start.1 r s).1.
Definition asked (q : string) : res bytes := outcome (demo_request q) demo_start.2.

(** SPECTRA takes the tile width of the image for the length of a row: in a tile
    of the right border that comes from the cache, cropped, the pixel is past the
    end of the data. *)
Lemma spectra_border_tile : asked "FIF=demo.tif&SPECTRA=0,2,0,1&SPECTRA=0,2,0,1" = Err (Undefined "read outside an array").
Proof. vm_compute. reflexivity. Qed.

(** PFL lets the column after the last one through. *)
Lemma profile_past_border : exists answer, asked "FIF=demo.tif&PFL=0:5,0-5,0" = Ok answer.
Proof. eexists. vm_compute. reflexivity. Qed.

(** A format without an encoder is used through a null pointer. *)
Lemma unknown_format_crashes : asked "DeepZoomExt=demo.tif_files/0/0_0.webp" = Err (Undefined "null compressor").
Proof. vm_compute. reflexivity. Qed.

(** A tile named [dzi]: the name becomes the suffix, and from the second image
    on the description is sent, without its beginning. *)
Lemma tile_named_dzi : asked "DeepZoomExt=demo.tif,demo.tif_files/0/dzi.jpg"
  = Ok (to_bytes (image_entry 2 5 3 +:+ "</ImageArray>")).
Proof. vm_compute. reflexivity. Qed.

(** [/greyscale] after a description: the extension stays in the path; before it:
    the position is not one of the shortened argument. *)
Lemma greyscale_description :
  ext_argument "demo.tif.dzi/greyscale" = Ok ("demo.tif.dzi", true, "demo.tif.dzi", "dzi")
  /\ ext_argument "demo.tif/greyscale.dzi" = Err (Thrown ExnRange).
Proof. vm_compute. split; reflexivity. Qed.

(** An answer that reports an error is kept by Memcached like any other. *)
Lemma errors_are_stored :
  s_memcached (after_first unknown) !! ("iipsrv::" +:+ unknown) = Some (first_answer unknown)
  /\ exists head, first_answer unknown = head ++ to_bytes ("Error/7:2 2 FOO" +:+ crlf).
Proof.
  split; [vm_compute; reflexivity|]. exists (take (length (first_answer unknown) - 17) (first_answer unknown)).
  vm_compute. reflexivity.
Qed.

(** The address of a redirection comes from the host of the request, but it is
    kept for every host. *)
Definition from_host (host query : string) : Request :=
  mkRequest (fun name => if bool_decide (name = "QUERY_STRING") then Some query
                         else if bool_decide (name = "HTTP_HOST") then Some host
                         else if bool_decide (name = "REQUEST_URI") then Some "/demo.tif" else None) [].

Lemma redirection_to_another_host :
  let '(first, s) := handle_request demo_start.1 (from_host "one.org" "IIIF=demo.tif") demo_start.2 in
  outcome (from_host "two.org" "IIIF=demo.tif") s = first
  /\ outcome (from_host "two.org" "IIIF=demo.tif") demo_start.2 <> first.
Proof. vm_compute. split; [reflexivity|discriminate]. Qed.
