(* ===== verification/Serving.v ===== *)
(** * From connection to connection

    The loop of [main] (Main.cc) over the FastCGI library: [FCGX_Accept_r] gives the
    request of a connection, the body of the loop answers it through the output stream,
    and the next [FCGX_Accept_r] finishes it.  Every web server that waits gets the answer
    that [Main.handle_request] gives to the request it sent. *)
From stdpp Require Import base gmap strings list numbers.
From Stdlib Require Import ZArith Lia.
From coqutil Require Import Datatypes.RecordSetters.
From S2P Require Import Prelude Object CString RawTile Cache View IIPImage Session DeepZoomExt Spectra FIF CVT Main FCGX FCGXRecords FCGXWriter FCGXReader FCGXFill FCGXStream FCGXAccept FCGXParams Demo Answer.
Import TriangleBracketNotations.
#[local] Open Scope string_scope.
#[local] Open Scope list_scope.
#[local] Open Scope Z_scope.

Section Serving.
Context {P : Platform} {V : Vips} {mz : MiniZip} {mc : Memcached} {H : Host}.
Context (stack : Z -> Z) (OS_Errno : Z) (address : Z -> Z).

(** In which calls the handlers put their answer into the stream. *)
Context (output : bytes -> list put_op).

(** What the environment says under a name. *)
Definition getenv (env : list bytes) (name : string) : option string := of_bytes <$> FCGX_GetParam (chars name) env.

(** How much of the input the body of the loop reads: nothing when the request is named
    by the parameters. *)
Definition body_length (c : Config) (env : list bytes) : Z :=
  let r := Main.mkRequest (getenv env) [] in
  match named_request c r with Ok request => if empty request then content_length r else 0 | Err _ => 0 end.

(** A turn of the loop; [None] ends it. *)
Definition turn (c : Config) (s : Main.Server) : Obj FCGX.Server (option Main.Server) :=
  rc ← FCGX_Accept_r stack OS_Errno address;
  if rc <? 0 then mret None
  else
    env ← obj_get FCGX.envp;
    body ← on_in (FCGX_GetStr stack (FillBuffProc stack OS_Errno) (body_length c env));
    let '(answer, s) := handle_request c (Main.mkRequest (getenv env) body) s in
    answer ← obj_lift answer;
    _ ← on_out (run_puts OS_Errno (output answer));
    mret (Some s).

Fixpoint main_loop (fuel : nat) (c : Config) (s : Main.Server) : Obj FCGX.Server Main.Server :=
  match fuel with
  | O => obj_lift (Err OutOfFuel)
  | S fuel =>
      next ← turn c s;
      match next with None => mret s | Some s => main_loop fuel c s end
  end.

(** [main] before the loop: the code it exits with, or [None] when it goes on.  [bind] is
    the descriptor [OS_CreateLocalIpcFd] returns for the address after [--bind]. *)
Definition main_start (OS_LibInit OS_IsFcgi : Z) (bind : option Z) : Obj FCGX.Server (option Z) :=
  let '(listen_socket, isFastCGI) := match bind with Some fd => FCGX_OpenSocket fd (-1) | None => (0, -1) end in
  if listen_socket <? 0 then mret (Some 1)
  else
    rc ← FCGX_InitRequest;
    if negb (rc =? 0) then mret (Some 1)
    else
      cgi ← own_request (FCGX_IsCGI OS_Errno OS_LibInit OS_IsFcgi isFastCGI);
      mret match cgi with
           | inl code => Some code
           | inr true => match bind with None => Some 1 | Some _ => None end
           | inr false => None
           end.

(** The program: what it exits with, and the caches at the end. *)
Definition main (fuel : nat) (OS_LibInit OS_IsFcgi : Z) (bind : option Z) (m : memc) : Obj FCGX.Server (Z * option Main.Server) :=
  code ← main_start OS_LibInit OS_IsFcgi bind;
  match code with
  | Some code => mret (code, None)
  | None =>
      cs ← obj_lift (init m);
      s ← main_loop fuel cs.1 cs.2;
      mret (0, Some s)
  end.

(** What the web server asks for. *)
Definition web_request (r : client_request) : Main.Request := Main.mkRequest (getenv (environment r)) (stdin_bytes r).

(** Only as much of the input counts as the loop reads. *)
Lemma handle_request_body c env b s :
  handle_request c (Main.mkRequest (getenv env) (take (Z.to_nat (body_length c env)) b)) s = handle_request c (Main.mkRequest (getenv env) b) s.
Proof.
  set (r1 := Main.mkRequest _ (take _ b)). set (r2 := Main.mkRequest _ b).
  assert (Er : request_string c r1 = request_string c r2).
  { unfold request_string. change (named_request c r1) with (named_request c (Main.mkRequest (getenv env) [])).
    change (named_request c r2) with (named_request c (Main.mkRequest (getenv env) [])). subst r1. unfold body_length.
    destruct (named_request c (Main.mkRequest (getenv env) [])) as [request|e]; [|reflexivity]. rewrite !bind_ret. destruct (empty request); [|reflexivity].
    unfold post_request. cbv zeta. cbn [input]. change (content_length (Main.mkRequest (getenv env) (take _ b))) with (content_length r2).
    change (content_length (Main.mkRequest (getenv env) [])) with (content_length r2). rewrite take_idemp. reflexivity. }
  unfold handle_request. assert (Ep : process c r1 (s_memcached s) (new_session c s) = process c r2 (s_memcached s) (new_session c s)).
  { unfold process. rewrite Er. reflexivity. }
  rewrite Ep. reflexivity.
Qed.

Context (Haddress : forall t, 0 <= address t < 2 ^ 63) (Houtput : forall b, mjoin (put_op_bytes <$> output b) = b).

(** The library between two requests, and what the last one left of it. *)
Definition idle (q : FCGX.Request) (wt sv : list Conn) : FCGX.Server := FCGX.mkServer true q None None None None [] None wt sv.

Definition finishes (g : FCGX.Server) (q : FCGX.Request) (wt sv : list Conn) : Prop :=
  libInitialized g = true /\ FCGX_Finish_r OS_Errno g = (Ok tt, idle q wt sv).

(** A connection with a request, and what the web server got on it: the answers to what
    was between the records, then records with the bytes of the answer, the end of the
    output and of the request. *)
Record visit := mkVisit { v_incoming : list (option bytes); v_accepts : list (option Z); v_client : client_request; v_tail : bytes }.

Definition visit_conn (v : visit) : Conn := mkConn (v_incoming v) (v_accepts v) [].

Record visit_ok (v : visit) : Prop := {
  vo_client : client_ok (v_client v);
  vo_close : Z.land (q_flags (v_client v)) FCGI_KEEP_CONN = 0;
  vo_bytes : Forall (fun c => 0 <= c) (stdin_bytes (v_client v));
  vo_pieces : Forall (fun o => exists c, o = Some c /\ c <> []) (v_incoming v);
  vo_incoming : flat (v_incoming v) = request_bytes (v_client v) ++ v_tail v;
  vo_accepts : Forall is_Some (v_accepts v)
}.

Definition answered_with (v : visit) (answer : bytes) (c : Conn) : Prop :=
  let r := v_client v in
  exists ans recs, let sent := encode_records (recs ++ final_records (q_id r) 0) in
    written c = replies (q_records r) ++ ans ++ sent /\ ans `prefix_of` replies (q_stdin r)
    /\ decode_records (S (length sent)) sent = Some (recs ++ final_records (q_id r) 0)
    /\ Forall (data_record FCGI_STDOUT (q_id r)) recs /\ mjoin (r_content <$> recs) = answer.

(** The part of the input the loop reads. *)
Lemma input_read r q tail before n d w :
  client_ok r -> requestId q = q_id r -> isBeginProcessed q = true -> Forall (fun c => 0 <= c) d -> input_stream r q tail before d w ->
  exists w' d', FCGX_GetStr stack (FillBuffProc stack OS_Errno) n w = (Ok (take (Z.to_nat n) d), w') /\ input_stream r q tail before d' w'.
Proof.
  intros Hcl Hq Hb Hd HR. destruct (input_gets stack OS_Errno r q tail before [ReadStr n] d w Hcl Hq Hb Hd HR) as (w' & E & H').
  exists w', (drop (Z.to_nat n) d). split; [|exact H']. cbn [run_gets run_get gets_spec get_spec fst] in E.
  unfold mbind, Obj_bind, mret, Obj_ret in E. destruct (FCGX_GetStr stack (FillBuffProc stack OS_Errno) n w) as [[b|e] w1]; [|discriminate E].
  injection E as -> ->. reflexivity.
Qed.

Lemma accept_next g q v wt sv :
  visit_ok v -> finishes g q (visit_conn v :: wt) sv ->
  exists s c p, let r := v_client v in
    FCGX_Accept_r stack OS_Errno address g
    = (Ok 0, FCGX.mkServer true (serving q r) (Some s) (Some (NewStream stack (address FCGI_STDOUT) 8192 false FCGI_STDOUT))
               (Some (NewStream stack (address FCGI_STDERR) 512 false FCGI_STDERR)) (Some p) (environment r) (Some c) wt sv)
    /\ input_stream r (serving q r) (v_tail v) ([] ++ replies (q_records r)) (stdin_bytes r) (mkWorld s (serving q r) c).
Proof.
  intros [Hcl _ _ Hc Hi Ha] [Hli Hfin]. unfold FCGX_Accept_r. rewrite obj_get_bind, Hli. cbn [negb].
  rewrite (obj_bind_val _ _ _ _ _ Hfin), obj_get_bind. apply accept_loop_ok; assumption.
Qed.

Lemma turn_served c s g q v wt sv a s' :
  visit_ok v -> finishes g q (visit_conn v :: wt) sv -> appStatus q = 0 ->
  handle_request c (web_request (v_client v)) s = (Ok a, s') ->
  exists g' q' conn, turn c s g = (Ok (Some s'), g') /\ finishes g' q' wt (sv ++ [conn]) /\ appStatus q' = 0 /\ answered_with v a conn.
Proof.
  intros Hv Hg Hst Hh. destruct (accept_next g q v wt sv Hv Hg) as (st & co & p & E & HR). destruct Hv as [Hcl Hkeep Hd _ _ _].
  set (r := v_client v) in *. unfold turn. rewrite (obj_bind_val _ _ _ _ _ E). change (0 <? 0) with false. cbv iota. rewrite obj_get_bind. cbn [FCGX.envp].
  destruct (input_read r (serving q r) _ _ (body_length c (environment r)) _ _ Hcl eq_refl eq_refl Hd HR) as ([s1 q1 c1] & d1 & E1 & HR1).
  assert (q1 = serving q r) as -> by (destruct (input_fixed _ _ _ _ _ _ HR1) as (Eq1 & _); exact Eq1).
  rewrite (on_in_bind _ _ _ _ _ _ _ _ _ _ _ _ _ _ _ _ E1). rewrite handle_request_body. fold (web_request r). rewrite Hh, obj_lift_bind.
  destruct (answer_sent stack OS_Errno address Haddress r (serving q r) _ _ _ s1 c1 (output a) Hcl eq_refl eq_refl HR1) as (s2 & c2 & E2 & Hfin).
  rewrite (on_out_bind _ _ _ _ _ _ _ _ _ _ _ _ _ _ _ _ E2).
  destruct (Hfin 0 (Some p) (environment r) wt sv) as (ans & recs & acc' & E3 & Hpre & Hdec & Hrec & Hcont).
  assert (Eq : (serving q r) <| appStatus := 0 |> = serving q r).
  { rewrite <- Hst. destruct q. reflexivity. }
  rewrite Eq in E3. assert (Ek : keepConnection (serving q r) = false) by (change (negb (Z.land (q_flags r) FCGI_KEEP_CONN =? 0) = false); rewrite Hkeep; reflexivity).
  rewrite Ek in E3. eexists _, _, _. split; [reflexivity|]. split; [split; [reflexivity|exact E3]|]. split; [exact Hst|].
  exists ans, recs. cbv zeta. rewrite <- app_assoc, Houtput in *. auto.
Qed.

(** What the body of the loop answers to one request after the other. *)
Fixpoint answers (c : Config) (s : Main.Server) (rs : list Main.Request) : res (list bytes) * Main.Server :=
  match rs with
  | [] => (Ok [], s)
  | r :: rs =>
      match handle_request c r s with
      | (Ok a, s) => let '(l, s) := answers c s rs in ((l ← l; Ok (a :: l)), s)
      | (Err e, s) => (Err e, s)
      end
  end.

Lemma main_loop_ok c vs s g q sv l s' :
  Forall visit_ok vs -> finishes g q (visit_conn <$> vs) sv -> appStatus q = 0 ->
  answers c s ((fun v => web_request (v_client v)) <$> vs) = (Ok l, s') ->
  exists g' conns, main_loop (S (length vs)) c s g = (Ok s', g') /\ served g' = sv ++ conns
    /\ Forall2 (fun va conn => answered_with va.1 va.2 conn) (zip vs l) conns /\ length l = length vs.
Proof.
  intros Hvs. revert s g q sv l. induction Hvs as [|v vs Hv Hvs IH]; intros s g q sv l Hg Hst Hl.
  - cbn in Hl. injection Hl as <- <-. destruct Hg as [Hli Hfin]. cbn [length]. cbn [main_loop]. unfold turn.
    assert (E : exists rc, FCGX_Accept_r stack OS_Errno address g = (Ok rc, idle q [] sv) /\ (rc <? 0) = true).
    { unfold FCGX_Accept_r. rewrite obj_get_bind, Hli. cbn [negb]. rewrite (obj_bind_val _ _ _ _ _ Hfin). exists (if 0 <? OS_Errno then - OS_Errno else -9999).
      split; [reflexivity|]. apply Z.ltb_lt. destruct (Z.ltb_spec 0 OS_Errno); lia. }
    destruct E as (rc & E & Hrc). unfold mbind at 1, Obj_bind at 1. rewrite (obj_bind_val _ _ _ _ _ E), Hrc. cbn.
    eexists _, []. split; [reflexivity|]. split; [symmetry; apply app_nil_r|]. split; [constructor|reflexivity].
  - cbn [fmap list_fmap] in Hl, Hg. cbn [answers] in Hl.
    destruct (handle_request c (web_request (v_client v)) s) as [[a|e] s1] eqn:Eh; [|discriminate Hl].
    destruct (answers c s1 _) as [[l1|e] s2] eqn:El; [|discriminate Hl]. cbn in Hl. injection Hl as <- <-.
    destruct (turn_served c s g q v _ sv a s1 Hv Hg Hst Eh) as (g1 & q1 & conn & E1 & Hg1 & Hst1 & Ha).
    destruct (IH s1 g1 q1 (sv ++ [conn]) l1 Hg1 Hst1 El) as (g' & conns & E' & Hsv & Hall & Hlen).
    cbn [length]. change (main_loop (S (S (length vs))) c s) with (next ← turn c s; match next with None => mret s | Some s => main_loop (S (length vs)) c s end).
    rewrite (obj_bind_val _ _ _ _ _ E1). exists g', (conn :: conns). split; [exact E'|]. split; [rewrite Hsv, <- app_assoc; reflexivity|].
    split; [constructor; assumption|]. cbn. lia.
Qed.
(** The library as the process begins, with the connections it will get. *)
Definition fresh (q : FCGX.Request) (wt : list Conn) : FCGX.Server := FCGX.mkServer false q None None None None [] None wt [].

Lemma main_start_ok OS_IsFcgi bind q wt :
  (exists fd, bind = Some fd /\ 0 <= fd) \/ bind = None /\ OS_IsFcgi <> 0 ->
  main_start 0 OS_IsFcgi bind (fresh q wt) = (Ok None, idle (FCGX.mkRequest 0 0 false false 0 0) wt []).
Proof.
  intros Hmode. unfold main_start. destruct Hmode as [(fd & -> & Hfd)|[-> Hf]].
  - unfold FCGX_OpenSocket. change (-1 =? 0) with false. rewrite andb_false_r. destruct (Z.ltb_spec fd 0); [lia|].
    cbn. destruct (OS_IsFcgi =? 0); reflexivity.
  - cbn. destruct (Z.eqb_spec OS_IsFcgi 0); [contradiction|reflexivity].
Qed.

Lemma idle_finishes q wt sv : keepConnection q = false -> finishes (idle q wt sv) q wt sv.
Proof.
  intros Hq. split; [reflexivity|]. destruct q. cbn in Hq. subst. unfold FCGX_Finish_r, FCGX_Free, obj_set. rewrite obj_get_bind.
  cbv -[app]. rewrite app_nil_r. reflexivity.
Qed.

End Serving.

(** ** Two requests *)

(** A request in the address, and one in the body of a POST, in two records. *)
Definition demo_get (query : string) : client_request :=
  let params := [(chars "QUERY_STRING", chars query)] in
  mkClient 1 FCGI_RESPONDER 0 params [mkRecord FCGI_PARAMS 1 (encode_pairs params) [0; 0]] [] [].
Definition demo_post : client_request :=
  let params := [(chars "CONTENT_LENGTH", chars "25")] in
  mkClient 7 FCGI_RESPONDER 0 params [mkRecord FCGI_PARAMS 7 (encode_pairs params) []]
    [mkRecord FCGI_STDIN 7 (chars "FIF=demo.tif&OBJ") []; mkRecord FCGI_STDIN 7 (chars "=Max-size and more") [0]] [0].

Definition demo_visit (r : client_request) : visit :=
  mkVisit (pieces 7 (length (request_bytes r)) (request_bytes r)) [Some 100; Some 30; Some 2000; Some 2000; Some 2000] r [].
Definition demo_visits : list visit := [demo_visit (demo_get unknown); demo_visit demo_post].

Lemma demo_visit_ok r : client_ok r -> Z.land (q_flags r) FCGI_KEEP_CONN = 0 -> Forall (fun c => 0 <= c) (stdin_bytes r) -> visit_ok (demo_visit r).
Proof.
  intros Hr Hk Hb. destruct (pieces_ok 7 (length (request_bytes r)) (request_bytes r) ltac:(lia) ltac:(lia)) as [Hp Hf].
  constructor; cbn [demo_visit v_client v_incoming v_accepts v_tail]; try assumption; [rewrite app_nil_r; exact Hf|repeat constructor; eexists; reflexivity].
Qed.

Lemma demo_visits_ok : Forall visit_ok demo_visits.
Proof.
  apply List.Forall_cons; [|apply List.Forall_cons; [|apply List.Forall_nil]]; apply demo_visit_ok; try reflexivity;
    try (apply (bool_decide_unpack _); vm_compute; exact I); unfold demo_get, demo_post; cbv zeta; client_tac.
Qed.

(** The answers to them, and the output of the handlers in one piece. *)
Definition demo_served : res (list bytes) * Main.Server :=
  Eval vm_compute in answers demo_start.1 demo_start.2 ((fun v => web_request (v_client v)) <$> demo_visits).
Definition in_one_piece (b : bytes) : list put_op := [PutStr b; Flush].

Lemma demo_address_ok t : 0 <= demo_address t < 2 ^ 63.
Proof. unfold demo_address. lia. Qed.

Lemma in_one_piece_ok b : mjoin (put_op_bytes <$> in_one_piece b) = b.
Proof. apply app_nil_r. Qed.

