(* ===== verification/OSAccept.v ===== *)
(** * Sockets (src/fcgi/libfcgi/os_unix.c)

    How the FastCGI library gets its connections: the socket it listens on, and
    [OS_Accept], which waits for a web server that may talk to it.  The operating system
    is a script: [arrivals] has what the next calls of [accept] return, each with whether
    the signal that stops the server came meanwhile, [locks] what the next calls of
    [fcntl] do; the calls that are made are recorded.  A loop that waits longer than the
    script runs out of fuel.

    [accept_first_welcome]: every client that is turned away is closed, and the first that
    is not is returned. *)
From stdpp Require Import base gmap strings list numbers.
From Stdlib Require Import ZArith Lia Ascii.
From coqutil Require Import Datatypes.RecordSetters.
From S2P Require Import Prelude Object CString.
Import TriangleBracketNotations.
#[local] Open Scope string_scope.
#[local] Open Scope list_scope.
#[local] Open Scope Z_scope.

(** ** The address to listen on *)

Definition MAXPATHLEN : Z := 4096.
Definition SUN_PATH : Z := 108.

(** The conversion to [short]. *)
Definition i16 (z : Z) : Z := (z + 2 ^ 15) mod 2 ^ 16 - 2 ^ 15.

(** [strchr] *)
Definition strchr (c : ascii) (s : string) : option nat := sfind_if (Ascii.eqb c) s.

(** The host and the port of [host:port]; the port 0 means a path. *)
Definition split_address (bindPath : string) : res (string * option Z) :=
  if MAXPATHLEN <=? slen bindPath then undef "strcpy past an array"
  else
    match strchr ":" bindPath with
    | None => Ok (bindPath, None)
    | Some p =>
        let port := i16 (atoi (sdrop (S p) bindPath)) in
        Ok (if port =? 0 then (bindPath, None) else (stake p bindPath, Some port))
    end.

Inductive address := Tcp (host port : Z) | Unix (path : string).

(** [htons], of a [short]. *)
Definition port_number (port : Z) : Z := port mod 2 ^ 16.

(** What the operating system answers. *)
Class Sockets := {
  inet_addr : string -> Z;
  gethostbyname : string -> option (list Z);
  socket : bool -> Z;
  reuse : bool;
  listen : address -> Z;
  connect : address -> Z;
  getpeername : Z -> Z;
  getfl : Z -> Z;
  setfl : Z -> Z -> Z
}.

Definition INADDR_ANY : Z := 0.
Definition INADDR_NONE : Z := 2 ^ 32 - 1.

Definition exits {A} (code : Z) : res A := throw (ExnOther ("exit " +:+ dec code)).

Section Sockets.
Context {os : Sockets}.

Definition OS_BuildSockAddrUn (bindPath : string) : option address :=
  if SUN_PATH <? i32 (slen bindPath) then None else Some (Unix bindPath).

Definition host_address (host : string) : res Z :=
  if bool_decide (host = "") || bool_decide (host = "*") then Ok INADDR_ANY
  else if inet_addr host =? INADDR_NONE then
    match gethostbyname host with
    | None | Some [] => exits 1
    | Some [ia] => Ok ia
    | Some (_ :: _ :: _) => exits 1
    end
  else Ok (inet_addr host).

(** [listen] is what [bind] and [listen] do: 0, or [errno]. *)
Definition OS_CreateLocalIpcFd (bindPath : string) : res Z :=
  '(host, port) ← split_address bindPath;
  ia ← match port with Some _ => host_address host | None => Ok 0 end;
  let listenSock := socket (match port with Some _ => true | None => false end) in
  if (0 <=? listenSock) && negb reuse && match port with Some _ => true | None => false end then exits 1001
  else if listenSock <? 0 then Ok (-1)
  else
    match match port with Some port => Some (Tcp ia (port_number port)) | None => OS_BuildSockAddrUn bindPath end with
    | None => exits 1000
    | Some a => if listen a =? 0 then Ok listenSock else exits (listen a)
    end.

Definition OS_FcgiConnect (bindPath : string) : res Z :=
  '(host, port) ← split_address bindPath;
  a ← match port with
      | Some port =>
          match gethostbyname (if bool_decide (host = "") then "localhost" else host) with
          | None => exits 1000
          | Some [] => undef "null address"
          | Some (ia :: _) => Ok (Tcp ia (port_number port))
          end
      | None => match OS_BuildSockAddrUn bindPath with None => exits 1000 | Some a => Ok a end
      end;
  let resultSock := socket (match port with Some _ => true | None => false end) in
  if resultSock <? 0 then undef "assertion" else Ok (if connect a <? 0 then -1 else resultSock).

Definition ENOTCONN : Z := 107.

(** [getpeername] is 0 or [errno]. *)
Definition OS_IsFcgi (sock : Z) : bool := negb (getpeername sock =? 0) && (getpeername sock =? ENOTCONN).

(** [getfl] is the flags, or [-errno]; the result is what they become. *)
Definition OS_SetFlags (fd flags : Z) : res Z :=
  let val := getfl fd in
  if val <? 0 then exits (- val)
  else
    let val := Z.lor val flags in
    if setfl fd val <? 0 then exits (- setfl fd val) else Ok val.

(** Only the bits of [flags] change, to 1. *)
Lemma OS_SetFlags_bits fd flags val i : OS_SetFlags fd flags = Ok val -> 0 <= i ->
  Z.testbit val i = Z.testbit (getfl fd) i || Z.testbit flags i.
Proof.
  unfold OS_SetFlags. destruct (getfl fd <? 0); [discriminate|]. destruct (setfl _ _ <? 0); [discriminate|].
  intros [= <-] Hi. apply Z.lor_spec.
Qed.

(** ** Signals *)

Inductive handler := SIG_DFL | SIG_IGN | OS_SigpipeHandler | OS_Sigusr1Handler | OtherHandler (name : Z).
#[global] Instance handler_eq_decision : EqDecision handler.
Proof. solve_decision. Defined.

Definition SIGPIPE : Z := 13.
Definition SIGUSR1 : Z := 10.

Definition installSignalHandler (signo : Z) (act : handler) (force : bool) (handlers : Z -> handler) : Z -> handler :=
  if force || bool_decide (handlers signo = SIG_DFL) then fun s => if s =? signo then act else handlers s else handlers.

Definition OS_InstallSignalHandlers (force : bool) (handlers : Z -> handler) : Z -> handler :=
  installSignalHandler SIGUSR1 OS_Sigusr1Handler force (installSignalHandler SIGPIPE OS_SigpipeHandler force handlers).

(** Without [force], a handler the program has is kept, and no signal of the two kills it. *)
Lemma handlers_kept handlers s : handlers s <> SIG_DFL -> OS_InstallSignalHandlers false handlers s = handlers s.
Proof.
  intros H. unfold OS_InstallSignalHandlers, installSignalHandler. cbn [orb].
  assert (Hk : forall g signo act, g s = handlers s -> (if bool_decide (g signo = SIG_DFL) then fun t => if t =? signo then act else g t else g) s = handlers s).
  { intros g signo act Hg. case_bool_decide as Hd; [|exact Hg]. destruct (Z.eqb_spec s signo) as [->|]; [congruence|exact Hg]. }
  apply Hk, Hk. reflexivity.
Qed.
Lemma handlers_given handlers force s : s = SIGPIPE \/ s = SIGUSR1 -> OS_InstallSignalHandlers force handlers s <> SIG_DFL.
Proof.
  intros Hs. unfold OS_InstallSignalHandlers, installSignalHandler. destruct force; [destruct Hs; subst; discriminate|]. cbn [orb].
  destruct Hs; subst; repeat case_bool_decide; cbn in *; congruence.
Qed.

(** ** The clients *)

(** The pieces of a list between commas. *)
Fixpoint split_commas (s : string) : list string :=
  match s with
  | "" => [""]
  | String c s => if Ascii.eqb c "," then "" :: split_commas s
                  else match split_commas s with p :: ps => String c p :: ps | [] => [] end
  end.

Definition ClientAddrOK (addr : Z) (clientList : option string) : bool :=
  match clientList with
  | None | Some "" => true
  | Some clientList => existsb (fun cur => inet_addr cur =? addr) (split_commas clientList)
  end.

(** ** Waiting for a client *)

Inductive sockaddr := INET (addr : Z) | UNIX | OtherFamily.

(** What a call of [accept] does: the error, or the socket, the address of the client and
    whether it sends something soon; whether the signal comes meanwhile. *)
Record arrival := mkArrival { signal : bool; outcome : Z + (Z * sockaddr * bool) }.

Inductive call := CallAccept | CallLock | CallUnlock | CallNoDelay (fd : Z) | CallClose (fd : Z).

Record Waiting := mkWaiting {
  shutdownPending : bool;
  errno : Z;
  locks : list (option Z);
  arrivals : list arrival;
  readable : gmap Z bool;
  calls : list call
}.

Abbreviation W := (Obj Waiting).

Definition EINTR : Z := 4.

Definition is_reasonable_accept_errno (error : Z) : bool :=
  existsb (Z.eqb error) [71; 103; 104; 110; 113; 101].

Definition record_call (c : call) : W unit := obj_set (fun w => w <| calls := calls w ++ [c] |>).
Definition set_errno (e : Z) : W unit := obj_set (fun w => w <| errno := e |>).

(** The handler of SIGUSR1 calls this. *)
Definition OS_ShutdownPending : W unit := obj_set (fun w => w <| shutdownPending := true |>).

(** [fcntl]: without an entry in the script it succeeds. *)
Definition fcntl (c : call) : W bool :=
  _ ← record_call c;
  w ← obj_get (fun w => w);
  match locks w with
  | [] => mret true
  | r :: ls =>
      _ ← obj_set (fun w => w <| locks := ls |>);
      match r with None => mret true | Some e => _ ← set_errno e; mret false end
  end.

(** Locking can be left out when the library is built. *)
Context (USE_LOCKING : bool).

Fixpoint lock_loop (fuel : nat) (c : call) (again : Waiting -> bool) : W Z :=
  match fuel with
  | O => obj_lift (Err OutOfFuel)
  | S fuel =>
      done ← fcntl c;
      if (done : bool) then mret 0
      else
        w ← obj_get (fun w => w);
        if (errno w =? EINTR) && again w then lock_loop fuel c again else mret (-1)
  end.

Definition AcquireLock (fail_on_intr : bool) : W Z :=
  if USE_LOCKING then
    w ← obj_get (fun w => w);
    lock_loop (S (length (locks w))) CallLock (fun w => negb fail_on_intr && negb (shutdownPending w))
  else mret 0.

Definition ReleaseLock : W Z :=
  if USE_LOCKING then
    w ← obj_get (fun w => w);
    lock_loop (S (length (locks w))) CallUnlock (fun _ => true)
  else mret 0.

Definition close (fd : Z) : W unit := _ ← record_call (CallClose fd); obj_set (fun w => w <| readable := delete fd (readable w) |>).

(** [accept]; the address is not written when it fails. *)
Definition accept (sa : option sockaddr) : W (Z * option sockaddr) :=
  _ ← record_call CallAccept;
  w ← obj_get (fun w => w);
  match arrivals w with
  | [] => obj_lift (Err OutOfFuel)
  | a :: rest =>
      _ ← obj_set (fun w => w <| arrivals := rest |> <| shutdownPending := shutdownPending w || signal a |>);
      match outcome a with
      | inl e => _ ← set_errno e; mret (-1, sa)
      | inr (fd, from, r) => _ ← obj_set (fun w => w <| readable := <[fd := r]> (readable w) |>); mret (fd, Some from)
      end
  end.

(** The [do] loop.  The socket and the address are those of the call before when the
    signal came between. *)
Fixpoint accept_again (fuel : nat) (fail_on_intr : bool) (sock : Z) (sa : option sockaddr) : W (Z * option sockaddr) :=
  match fuel with
  | O => obj_lift (Err OutOfFuel)
  | S fuel =>
      w ← obj_get (fun w => w);
      if shutdownPending w then mret (sock, sa)
      else
        '(sock, sa) ← accept sa;
        w ← obj_get (fun w => w);
        if (sock <? 0) && (errno w =? EINTR) && negb fail_on_intr && negb (shutdownPending w) then accept_again fuel fail_on_intr sock sa
        else mret (sock, sa)
  end.

(** The inner loop: what is done with a socket or an error, [next] being the next round;
    [None] when the function returns -1. *)
Definition after_accept (webServerAddrs : option string) (next : Z -> option sockaddr -> W (option (Z * option sockaddr)))
    (sock : Z) (sa : option sockaddr) : W (option (Z * option sockaddr)) :=
  if sock <? 0 then
    w ← obj_get (fun w => w);
    if shutdownPending w || negb (is_reasonable_accept_errno (errno w)) then
      _ ← ReleaseLock;
      _ ← (if shutdownPending w then mret tt else set_errno (errno w));
      mret None
    else
      _ ← set_errno 0;
      next sock sa
  else
    match sa with
    | None => obj_lift (undef "read of an uninitialised address")
    | Some (INET addr) =>
        _ ← record_call (CallNoDelay sock);
        if ClientAddrOK addr webServerAddrs then mret (Some (sock, sa))
        else
          _ ← close sock;
          next sock sa
    | Some _ => mret (Some (sock, sa))
    end.

Fixpoint accept_client (fuel : nat) (fail_on_intr : bool) (webServerAddrs : option string) (sock : Z) (sa : option sockaddr)
    : W (option (Z * option sockaddr)) :=
  match fuel with
  | O => obj_lift (Err OutOfFuel)
  | S fuel' =>
      '(sock, sa) ← accept_again fuel fail_on_intr sock sa;
      after_accept webServerAddrs (accept_client fuel' fail_on_intr webServerAddrs) sock sa
  end.

Definition is_af_unix_keeper (fd : Z) : W bool := obj_get (fun w => default false (readable w !! fd)).

(** The outer loop, with the lock. *)
Definition after_client (next : Z -> option sockaddr -> W Z) (client : option (Z * option sockaddr)) : W Z :=
  match client with
  | None => mret (-1)
  | Some (sock, sa) =>
      released ← ReleaseLock;
      if negb (released =? 0) then mret (-1)
      else
        keeper ← (match sa with Some UNIX => is_af_unix_keeper sock | _ => mret true end);
        if (keeper : bool) then mret sock
        else
          _ ← close sock;
          next sock sa
  end.

Fixpoint accept_outer (fuel : nat) (fail_on_intr : bool) (webServerAddrs : option string) (sock : Z) (sa : option sockaddr) : W Z :=
  match fuel with
  | O => obj_lift (Err OutOfFuel)
  | S fuel' =>
      locked ← AcquireLock fail_on_intr;
      if negb (locked =? 0) then mret (-1)
      else
        client ← accept_client fuel fail_on_intr webServerAddrs sock sa;
        after_client (accept_outer fuel' fail_on_intr webServerAddrs) client
  end.

Definition OS_Accept (fuel : nat) (fail_on_intr : bool) (webServerAddrs : option string) : W Z :=
  accept_outer fuel fail_on_intr webServerAddrs (-1) None.

(** ** Who is turned away *)

Section Accepting.
Context (fail_on_intr : bool) (webServerAddrs : option string).

(** An error that is ignored, a client that may not connect, or one that sends nothing. *)
Definition turned_away (a : arrival) : bool :=
  negb (signal a) &&
  match outcome a with
  | inl e => ((e =? EINTR) && negb fail_on_intr) || is_reasonable_accept_errno e
  | inr (fd, INET addr, _) => (0 <=? fd) && negb (ClientAddrOK addr webServerAddrs)
  | inr (fd, UNIX, r) => (0 <=? fd) && negb r
  | inr (_, OtherFamily, _) => false
  end.

(** A client that is served. *)
Definition welcome (a : arrival) : option Z :=
  match outcome a with
  | inl _ => None
  | inr (fd, from, r) =>
      if (0 <=? fd) && match from with INET addr => ClientAddrOK addr webServerAddrs | UNIX => r | OtherFamily => true end
      then Some fd else None
  end.

Definition lock_call : list call := if USE_LOCKING then [CallLock] else [].
Definition unlock_call : list call := if USE_LOCKING then [CallUnlock] else [].

(** The calls that are made for one of them. *)
Definition refusal (a : arrival) : list call :=
  CallAccept :: match outcome a with
                | inl _ => []
                | inr (fd, INET _, _) => [CallNoDelay fd; CallClose fd]
                | inr (fd, _, _) => unlock_call ++ [CallClose fd] ++ lock_call
                end.
Definition admission (a : arrival) : list call :=
  CallAccept :: match outcome a with inr (fd, INET _, _) => [CallNoDelay fd] | _ => [] end ++ unlock_call.

(** A state in which the signal has not come and locking succeeds. *)
Definition calm (w : Waiting) : Prop := shutdownPending w = false /\ locks w = [].

Lemma AcquireLock_calm w : calm w ->
  exists w', AcquireLock fail_on_intr w = (Ok 0, w') /\ calm w' /\ calls w' = calls w ++ lock_call /\ arrivals w' = arrivals w /\ readable w' = readable w.
Proof.
  intros [Hs Hl]. destruct w as [sp e ls ar rd cs]. cbn in *. subst. unfold AcquireLock, lock_call. destruct USE_LOCKING.
  - eexists. split; [reflexivity|]. repeat split.
  - eexists. split; [reflexivity|]. cbn. rewrite app_nil_r. repeat split.
Qed.

Lemma ReleaseLock_ok w : locks w = [] ->
  exists w', ReleaseLock w = (Ok 0, w') /\ shutdownPending w' = shutdownPending w /\ locks w' = []
    /\ calls w' = calls w ++ unlock_call /\ arrivals w' = arrivals w /\ readable w' = readable w.
Proof.
  intros Hl. destruct w as [sp e ls ar rd cs]. cbn in *. subst. unfold ReleaseLock, unlock_call. destruct USE_LOCKING.
  - eexists. split; [reflexivity|]. repeat split.
  - eexists. split; [reflexivity|]. cbn. rewrite app_nil_r. repeat split.
Qed.

(** The state after a call of [accept]. *)
Definition accepted (a : arrival) (rest : list arrival) (w : Waiting) : Waiting :=
  mkWaiting (signal a) (match outcome a with inl e => e | inr _ => errno w end) [] rest
    (match outcome a with inl _ => readable w | inr (fd, _, r) => <[fd := r]> (readable w) end) (calls w ++ [CallAccept]).

Lemma accept_ok sa w a rest : calm w -> arrivals w = a :: rest ->
  accept sa w = (Ok (match outcome a with inl _ => (-1, sa) | inr (fd, from, _) => (fd, Some from) end), accepted a rest w).
Proof.
  intros [Hs Hl] Ha. destruct w as [sp e ls ar rd cs]. cbn in *. subst. destruct a as [sg [e'|[[fd from] r]]]; reflexivity.
Qed.

Lemma accept_again_S fuel sock sa w a rest : calm w -> arrivals w = a :: rest ->
  accept_again (S fuel) fail_on_intr sock sa w =
  let '(sock, sa) := match outcome a with inl _ => (-1, sa) | inr (fd, from, _) => (fd, Some from) end in
  if (sock <? 0) && (errno (accepted a rest w) =? EINTR) && negb fail_on_intr && negb (signal a)
  then accept_again fuel fail_on_intr sock sa (accepted a rest w) else (Ok (sock, sa), accepted a rest w).
Proof.
  intros Hw Ha. cbn [accept_again]. rewrite obj_get_bind, (proj1 Hw), (obj_bind_val _ _ _ _ _ (accept_ok sa w a rest Hw Ha)).
  destruct (match outcome a with inl _ => (-1, sa) | inr (fd, from, _) => (fd, Some from) end) as [s1 a1].
  rewrite obj_get_bind. change (shutdownPending (accepted a rest w)) with (signal a). destruct (_ && _); reflexivity.
Qed.

(** A round of the loops, from [accept] on. *)
Definition round (f0 f1 f2 : nat) (sock : Z) (sa : option sockaddr) : W Z :=
  (p ← accept_again f0 fail_on_intr sock sa;
   let '(sock, sa) := p in after_accept webServerAddrs (accept_client f1 fail_on_intr webServerAddrs) sock sa)
  ≫= after_client (accept_outer f2 fail_on_intr webServerAddrs).

Lemma accept_client_round f f2 sock sa :
  accept_client (S f) fail_on_intr webServerAddrs sock sa ≫= after_client (accept_outer f2 fail_on_intr webServerAddrs) = round (S f) f f2 sock sa.
Proof. reflexivity. Qed.

Lemma accept_outer_round f sock sa w : calm w ->
  exists w', accept_outer (S f) fail_on_intr webServerAddrs sock sa w = round (S f) f f sock sa w'
    /\ calm w' /\ calls w' = calls w ++ lock_call /\ arrivals w' = arrivals w /\ readable w' = readable w.
Proof.
  intros Hw. destruct (AcquireLock_calm w Hw) as (w' & E & Hw'). exists w'. split; [|exact Hw'].
  change (accept_outer (S f) fail_on_intr webServerAddrs sock sa)
    with (locked ← AcquireLock fail_on_intr;
          if negb (locked =? 0) then mret (-1) else accept_client (S f) fail_on_intr webServerAddrs sock sa ≫= after_client (accept_outer f fail_on_intr webServerAddrs)).
  rewrite (obj_bind_val _ _ _ _ _ E). reflexivity.
Qed.

Lemma round_S f0 f1 f2 sock sa w a rest : calm w -> arrivals w = a :: rest ->
  round (S f0) f1 f2 sock sa w =
  let '(sock, sa) := match outcome a with inl _ => (-1, sa) | inr (fd, from, _) => (fd, Some from) end in
  if (sock <? 0) && (errno (accepted a rest w) =? EINTR) && negb fail_on_intr && negb (signal a)
  then round f0 f1 f2 sock sa (accepted a rest w)
  else (after_accept webServerAddrs (accept_client f1 fail_on_intr webServerAddrs) sock sa
        ≫= after_client (accept_outer f2 fail_on_intr webServerAddrs)) (accepted a rest w).
Proof.
  intros Hw Ha. pose proof (accept_again_S f0 sock sa w a rest Hw Ha) as E. unfold round.
  destruct (match outcome a with inl _ => (-1, sa) | inr (fd, from, _) => (fd, Some from) end) as [s1 a1]. cbv beta iota in E |- *.
  destruct (_ && _) eqn:C; unfold mbind at 1 2, Obj_bind at 1 2; rewrite E; reflexivity.
Qed.

(** A client that is turned away leaves the same round, but for the calls and the fuel. *)
Lemma round_turned_away n f0 f1 f2 sock sa w a rest :
  turned_away a = true -> calm w -> arrivals w = a :: rest -> (n < f0)%nat -> (n <= f1)%nat -> (n <= f2)%nat ->
  exists k0 k1 k2 sock' sa' w', round (S f0) (S f1) (S f2) sock sa w = round k0 k1 k2 sock' sa' w'
    /\ calm w' /\ calls w' = calls w ++ refusal a /\ arrivals w' = rest /\ (n < k0)%nat /\ (n <= k1)%nat /\ (n <= k2)%nat.
Proof.
  intros Ha Hw Har H0 H1 H2. rewrite (round_S f0 _ _ sock sa w a rest Hw Har). unfold turned_away in Ha. apply andb_prop in Ha as [Hsig Ha].
  apply negb_true_iff in Hsig. set (w1 := accepted a rest w).
  assert (Hw1 : calm w1) by (split; [exact Hsig|reflexivity]). rewrite Hsig. unfold refusal.
  destruct (outcome a) as [e|[[g from] r]] eqn:Eo.
  - change (-1 <? 0) with true. cbn [andb negb]. rewrite andb_true_r.
    assert (Ee : errno w1 = e) by (unfold w1, accepted; cbn [errno]; rewrite Eo; reflexivity). rewrite Ee.
    destruct ((e =? EINTR) && negb fail_on_intr) eqn:Ei.
    + exists f0, (S f1), (S f2), (-1), sa, w1. split; [reflexivity|]. split; [exact Hw1|]. split; [reflexivity|]. split; [reflexivity|lia].
    + rewrite orb_false_l in Ha. unfold after_accept. change (-1 <? 0) with true. cbv iota.
      exists (S f1), f1, (S f2), (-1), sa, (w1 <| errno := 0 |>). split.
      * rewrite <- accept_client_round. unfold mbind at 1, Obj_bind at 1. rewrite obj_get_bind, (proj1 Hw1), Ee, Ha. reflexivity.
      * split; [exact Hw1|]. split; [reflexivity|]. split; [reflexivity|lia].
  - destruct from as [addr| |]; [| |discriminate]; apply andb_prop in Ha as [Hg Ha]; apply Z.leb_le in Hg; apply negb_true_iff in Ha;
      rewrite (proj2 (Z.ltb_ge g 0)) by lia; cbn [andb]; unfold after_accept; rewrite (proj2 (Z.ltb_ge g 0)) by lia.
    + exists (S f1), f1, (S f2), g, (Some (INET addr)),
        (w1 <| calls := (calls w1 ++ [CallNoDelay g]) ++ [CallClose g] |> <| readable := delete g (readable w1) |>).
      split; [rewrite <- accept_client_round, Ha; reflexivity|]. split; [exact Hw1|].
      split; [|split; [reflexivity|lia]]. change (((calls w ++ [CallAccept]) ++ [CallNoDelay g]) ++ [CallClose g] = calls w ++ [CallAccept; CallNoDelay g; CallClose g]).
      rewrite <- !app_assoc. reflexivity.
    + subst r. destruct (ReleaseLock_ok w1 eq_refl) as (w2 & E2 & A2 & B2 & C2 & D2 & R2).
      set (w3 := w2 <| calls := calls w2 ++ [CallClose g] |> <| readable := delete g (readable w2) |>).
      assert (Hw3 : calm w3) by (split; [exact (eq_trans A2 Hsig)|exact B2]).
      destruct (accept_outer_round f2 g (Some UNIX) w3 Hw3) as (w4 & E4 & Hw4 & C4 & D4 & _).
      exists (S f2), f2, f2, g, (Some UNIX), w4. split.
      * rewrite <- E4.
        change ((after_client (accept_outer (S f2) fail_on_intr webServerAddrs) (Some (g, Some UNIX))) w1 = accept_outer (S f2) fail_on_intr webServerAddrs g (Some UNIX) w3).
        unfold after_client. rewrite (obj_bind_val _ _ _ _ _ E2). cbn [negb Z.eqb]. unfold is_af_unix_keeper.
        unfold mbind at 1, Obj_bind at 1. unfold obj_get.
        assert (Er : default false (readable w2 !! g) = false) by (rewrite R2; unfold w1, accepted; cbn [readable]; rewrite Eo, lookup_insert_eq; reflexivity).
        rewrite Er. reflexivity.
      * split; [exact Hw4|]. split; [|split; [exact (eq_trans D4 D2)|lia]].
        rewrite C4. change (calls w3) with (calls w2 ++ [CallClose g]). rewrite C2.
        change (calls w1) with (calls w ++ [CallAccept]). rewrite <- !app_assoc. reflexivity.
Qed.

Lemma round_skip bad f0 f1 f2 sock sa w later :
  Forall (fun a => turned_away a = true) bad -> calm w -> arrivals w = bad ++ later ->
  (length bad < f0)%nat -> (length bad <= f1)%nat -> (length bad <= f2)%nat ->
  exists k0 k1 k2 sock' sa' w', round f0 f1 f2 sock sa w = round (S k0) k1 k2 sock' sa' w'
    /\ calm w' /\ calls w' = calls w ++ (bad ≫= refusal) /\ arrivals w' = later.
Proof.
  intros Hbad. revert f0 f1 f2 sock sa w. induction Hbad as [|a bad Ha Hbad IH]; intros [|f0] f1 f2 sock sa w Hw Har H0 H1 H2; try lia; cbn [app length] in *.
  { exists f0, f1, f2, sock, sa, w. cbn. rewrite app_nil_r. auto. }
  destruct f1 as [|f1]; [lia|]. destruct f2 as [|f2]; [lia|].
  destruct (round_turned_away (length bad) f0 f1 f2 sock sa w a _ Ha Hw Har ltac:(lia) ltac:(lia) ltac:(lia))
    as (k0 & k1 & k2 & s1 & a1 & w1 & E & Hw1 & C1 & A1 & K0 & K1 & K2).
  destruct (IH k0 k1 k2 s1 a1 w1 Hw1 A1 K0 K1 K2) as (g0 & g1 & g2 & s2 & a2 & w2 & E2 & Hw2 & C2 & A2).
  exists g0, g1, g2, s2, a2, w2. rewrite E. split; [exact E2|]. split; [exact Hw2|]. split; [|exact A2].
  rewrite C2, C1, <- app_assoc. reflexivity.
Qed.

Lemma round_welcome f0 f1 f2 sock sa w good fd rest :
  welcome good = Some fd -> calm w -> arrivals w = good :: rest ->
  exists w', round (S f0) f1 f2 sock sa w = (Ok fd, w') /\ calls w' = calls w ++ admission good
    /\ arrivals w' = rest /\ shutdownPending w' = signal good.
Proof.
  intros Hgood Hw Har. rewrite (round_S f0 _ _ sock sa w good rest Hw Har). unfold welcome in Hgood. unfold admission.
  set (w1 := accepted good rest w).
  assert (Hs1 : shutdownPending w1 = signal good) by reflexivity. assert (Ha1 : arrivals w1 = rest) by reflexivity.
  assert (Hc1 : calls w1 = calls w ++ [CallAccept]) by reflexivity.
  assert (Hend : forall from cs v, locks v = [] -> shutdownPending v = signal good -> arrivals v = rest ->
    calls v = calls w ++ CallAccept :: cs -> (from = UNIX -> readable v !! fd = Some true) ->
    exists w', after_client (accept_outer f2 fail_on_intr webServerAddrs) (Some (fd, Some from)) v = (Ok fd, w')
      /\ calls w' = calls w ++ CallAccept :: cs ++ unlock_call /\ arrivals w' = rest /\ shutdownPending w' = signal good).
  { intros from cs v Hl Hs Ha Hc Hr. destruct (ReleaseLock_ok v Hl) as (w3 & E3 & A3 & B3 & C3 & D3 & R3).
    exists w3. rewrite C3, D3, A3, Hc, <- app_assoc. split; [|auto].
    unfold after_client. rewrite (obj_bind_val _ _ _ _ _ E3). destruct from; try reflexivity.
    cbn [negb Z.eqb]. unfold is_af_unix_keeper. rewrite obj_get_bind, R3, (Hr eq_refl). reflexivity. }
  destruct (outcome good) as [e|[[g from] r]] eqn:Eo; [discriminate|].
  destruct (Z.leb_spec 0 g) as [Hg|]; [|discriminate]. cbn [andb] in Hgood.
  rewrite (proj2 (Z.ltb_ge g 0)) by lia. cbn [andb]. unfold after_accept. rewrite (proj2 (Z.ltb_ge g 0)) by lia.
  destruct from as [addr| |].
  - destruct (ClientAddrOK addr webServerAddrs) eqn:Ek; [|discriminate]. injection Hgood as ->.
    refine (Hend (INET addr) [CallNoDelay fd] (w1 <| calls := calls w1 ++ [CallNoDelay fd] |>) eq_refl Hs1 Ha1 _ _); [|discriminate].
    change (calls w1 ++ [CallNoDelay fd] = calls w ++ [CallAccept; CallNoDelay fd]). rewrite Hc1, <- app_assoc. reflexivity.
  - destruct r; [|discriminate]. injection Hgood as ->. refine (Hend UNIX [] w1 eq_refl Hs1 Ha1 Hc1 _).
    intros _. unfold w1, accepted. cbn [readable]. rewrite Eo. apply lookup_insert_eq.
  - injection Hgood as ->. refine (Hend OtherFamily [] w1 eq_refl Hs1 Ha1 Hc1 _). discriminate.
Qed.

(** An error that stops the wait. *)
Definition fatal (a : arrival) : option Z :=
  match outcome a with
  | inl e => if negb (signal a) && (((e =? EINTR) && negb fail_on_intr) || is_reasonable_accept_errno e) then None else Some e
  | inr _ => None
  end.

Lemma round_fatal f0 f1 f2 sock sa w a e rest :
  fatal a = Some e -> calm w -> arrivals w = a :: rest ->
  exists w', round (S f0) f1 f2 sock sa w = (Ok (-1), w') /\ calls w' = calls w ++ CallAccept :: unlock_call
    /\ arrivals w' = rest /\ shutdownPending w' = signal a /\ (signal a = false -> errno w' = e).
Proof.
  intros Ha Hw Har. rewrite (round_S f0 _ _ sock sa w a rest Hw Har). unfold fatal in Ha.
  destruct (outcome a) as [e'|] eqn:Eo; [|discriminate]. destruct (_ && _) eqn:Ef in Ha; [discriminate|]. injection Ha as ->.
  set (w1 := accepted a rest w).
  assert (Ee : errno w1 = e) by (unfold w1, accepted; cbn [errno]; rewrite Eo; reflexivity).
  change (-1 <? 0) with true. cbn [andb]. rewrite Ee.
  destruct ((e =? EINTR) && negb fail_on_intr && negb (signal a)) eqn:Ei.
  { exfalso. apply andb_prop in Ei as [Ei Es]. rewrite Es, Ei in Ef. discriminate. }
  destruct (ReleaseLock_ok w1 eq_refl) as (w2 & E2 & A2 & B2 & C2 & D2 & R2).
  exists (if signal a then w2 else w2 <| errno := e |>). split.
  - unfold after_accept. change (-1 <? 0) with true. cbv iota. unfold mbind at 1, Obj_bind at 1. rewrite obj_get_bind, Ee.
    change (shutdownPending w1) with (signal a).
    destruct (signal a) eqn:Es.
    + cbn [orb]. rewrite (obj_bind_val _ _ _ _ _ E2). reflexivity.
    + cbn [negb andb] in Ef. apply orb_false_iff in Ef as [_ Ef]. rewrite Ef. cbn [orb negb].
      rewrite (obj_bind_val _ _ _ _ _ E2). reflexivity.
  - destruct (signal a) eqn:Es; (split; [|split; [exact D2|split; [exact (eq_trans A2 Es)|]]]); try discriminate; try reflexivity;
      change (calls w2 = calls w ++ CallAccept :: unlock_call); rewrite C2; change (calls w1) with (calls w ++ [CallAccept]); rewrite <- app_assoc; reflexivity.
Qed.

(** C29. [OS_Accept], while no signal stops the server before the last of these clients
    arrives and no operation on the lock fails ([calm]): the clients over the network that
    may not connect, those over a Unix socket that send nothing in time, and those that are
    gone are turned away one after the other, each socket closed once and the lock taken
    again where it was released; the first client that may connect is returned, with the
    lock released and the clients after it still waiting; and an error that is not a
    client's ends the wait with -1, the lock released and [errno] kept.  A client over the
    network is not waited for: one that sends nothing is returned like any other.  Outside
    of this a refused client can keep the server from stopping ([stopped_never_returns]),
    and a lock that cannot be released leaves a socket open ([unreleased_leaks]). *)
Theorem accept_first_welcome fuel w bad last rest :
  Forall (fun a => turned_away a = true) bad -> calm w -> arrivals w = bad ++ last :: rest -> (length bad < fuel)%nat ->
  (forall fd, welcome last = Some fd ->
     exists w', OS_Accept fuel fail_on_intr webServerAddrs w = (Ok fd, w')
       /\ calls w' = calls w ++ lock_call ++ (bad ≫= refusal) ++ admission last /\ arrivals w' = rest)
  /\ (forall e, fatal last = Some e ->
     exists w', OS_Accept fuel fail_on_intr webServerAddrs w = (Ok (-1), w')
       /\ calls w' = calls w ++ lock_call ++ (bad ≫= refusal) ++ CallAccept :: unlock_call /\ arrivals w' = rest
       /\ (signal last = false -> errno w' = e)).
Proof.
  intros Hbad Hw Har Hf. destruct fuel as [|f]; [lia|]. unfold OS_Accept.
  destruct (accept_outer_round f (-1) None w Hw) as (w1 & -> & Hw1 & C1 & A1 & _). rewrite Har in A1.
  destruct (round_skip bad (S f) f f (-1) None w1 _ Hbad Hw1 A1) as (k0 & k1 & k2 & s & sa & w2 & -> & Hw2 & C2 & A2); [lia..|].
  rewrite C1, <- app_assoc in C2. split.
  - intros fd Hgood. destruct (round_welcome k0 k1 k2 s sa w2 last fd rest Hgood Hw2 A2) as (w' & E & C & A & _).
    exists w'. rewrite C, C2, <- !app_assoc. auto.
  - intros e He. destruct (round_fatal k0 k1 k2 s sa w2 last e rest He Hw2 A2) as (w' & E & C & A & _ & Hs).
    exists w'. rewrite C, C2, <- !app_assoc. auto.
Qed.
End Accepting.

(** A client of a list of addresses, the pieces of which are given. *)
Lemma ClientAddrOK_iff addr clientList : clientList <> "" ->
  ClientAddrOK addr (Some clientList) = true <-> exists cur, cur ∈ split_commas clientList /\ inet_addr cur = addr.
Proof.
  intros Hne. destruct clientList as [|c s]; [contradiction|]. cbn [ClientAddrOK]. rewrite existsb_exists.
  setoid_rewrite Z.eqb_eq. setoid_rewrite <- list_elem_of_In. reflexivity.
Qed.

(** The address [host:port] is read back, the port as a [short]; as a number without sign
    it is the port again. *)
Lemma split_address_tcp host port :
  smem ":" host = false -> 0 < port < 2 ^ 16 -> slen host + 12 < MAXPATHLEN ->
  split_address (host +:+ ":" +:+ dec port) = Ok (host, Some (i16 port)) /\ port_number (i16 port) = port.
Proof.
  intros Hh Hp Hl. assert (Hi : is_i32 port) by (unfold is_i32; lia). pose proof (dec_length_i32 port Hi) as Hd. split.
  - unfold split_address. rewrite (proj2 (Z.leb_gt _ _)) by (rewrite !slen_app; change (slen ":") with 1; unfold MAXPATHLEN in *; lia).
    unfold strchr. rewrite (sfind_if_first _ host ":" (dec port)); [|reflexivity|].
    2:{ intros d Hin. destruct (Ascii.eqb_spec ":" d) as [<-|]; [congruence|reflexivity]. }
    change (host +:+ ":" +:+ dec port) with (host +:+ (String ":" "" +:+ dec port)).
    assert (Es : sdrop (S (String.length host)) (host +:+ String ":" (dec port)) = dec port).
    { rewrite <- (sdrop_app_exact (host +:+ ":") (dec port)) at 2. rewrite sapp_assoc, slength_app, Nat.add_1_r. reflexivity. }
    change (String ":" "" +:+ dec port) with (String ":" (dec port)). rewrite Es.
    rewrite <- (sapp_nil_r (dec port)), atoi_dec; [|exact Hi|constructor].
    rewrite (proj2 (Z.eqb_neq _ _)), stake_app_exact; [reflexivity|]. unfold i16. change (2 ^ 15) with 32768. change (2 ^ 16) with 65536. 
    destruct (decide (port < 32768)); [rewrite Z.mod_small by lia; lia|].
    rewrite <- (Z.mod_unique (port + 32768) 65536 1 (port - 32768)) by lia. lia.
  - unfold port_number, i16. rewrite Zminus_mod_idemp_l. replace (port + 2 ^ 15 - 2 ^ 15) with port by lia. apply Z.mod_small. lia.
Qed.

(** The signal that stops the server, and that comes with a client that may not connect:
    the socket is closed again and again, and the wait does not end. *)
Lemma refused_spins fuel fail_on_intr webServerAddrs sock addr w :
  0 <= sock -> shutdownPending w = true -> ClientAddrOK addr webServerAddrs = false ->
  exists w', accept_client fuel fail_on_intr webServerAddrs sock (Some (INET addr)) w = (Err OutOfFuel, w')
    /\ calls w' = calls w ++ mjoin (replicate fuel [CallNoDelay sock; CallClose sock]).
Proof.
  intros Hs Hp Ha. revert w Hp. induction fuel as [|fuel IH]; intros w Hp.
  { exists w. cbn. rewrite app_nil_r. auto. }
  set (w1 := w <| calls := (calls w ++ [CallNoDelay sock]) ++ [CallClose sock] |> <| readable := delete sock (readable w) |>).
  destruct (IH w1 Hp) as (w' & E & C). exists w'. split.
  - change (accept_client (S fuel) fail_on_intr webServerAddrs sock (Some (INET addr)))
      with (p ← accept_again (S fuel) fail_on_intr sock (Some (INET addr));
            let '(sock, sa) := p in after_accept webServerAddrs (accept_client fuel fail_on_intr webServerAddrs) sock sa).
    assert (Eg : accept_again (S fuel) fail_on_intr sock (Some (INET addr)) w = (Ok (sock, Some (INET addr)), w)).
    { cbn [accept_again]. rewrite obj_get_bind, Hp. reflexivity. }
    rewrite (obj_bind_val _ _ _ _ _ Eg). unfold after_accept. rewrite (proj2 (Z.ltb_ge sock 0)) by lia. rewrite Ha. exact E.
  - rewrite C. change (calls w1) with ((calls w ++ [CallNoDelay sock]) ++ [CallClose sock]). rewrite <- !app_assoc. reflexivity.
Qed.
End Sockets.

(** ** Examples *)

(** An operating system that reads addresses of four digits. *)
Definition demo_sockets : Sockets := {|
  inet_addr s := if bool_decide (s = "127.0.0.1") then 16777343 else if bool_decide (s = "10.0.0.7") then 117440522 else INADDR_NONE;
  gethostbyname s := if bool_decide (s = "localhost") then Some [16777343] else if bool_decide (s = "mirrors") then Some [1; 2] else None;
  socket _ := 3;
  reuse := true;
  listen _ := 0;
  connect _ := 0;
  getpeername _ := ENOTCONN;
  getfl _ := 2;
  setfl _ _ := 0
|}.

(** A client that is not on the list, one that hung up, an error of the network and a
    client that is. *)
Definition demo_arrivals : list arrival :=
  [mkArrival false (inr (7, INET 5, true)); mkArrival false (inr (8, UNIX, false)); mkArrival false (inl 104);
   mkArrival false (inl EINTR); mkArrival false (inr (9, INET 117440522, true))].
Definition demo_waiting (arrivals : list arrival) (locks : list (option Z)) : Waiting := mkWaiting false 0 locks arrivals ∅ [].

Lemma accept_first_welcome_witness :
  exists w', @OS_Accept demo_sockets true 5 false (Some "127.0.0.1,10.0.0.7") (demo_waiting demo_arrivals []) = (Ok 9, w')
    /\ calls w' = [CallLock; CallAccept; CallNoDelay 7; CallClose 7; CallAccept; CallUnlock; CallClose 8; CallLock; CallAccept; CallAccept;
                   CallAccept; CallNoDelay 9; CallUnlock].
Proof.
  destruct (@accept_first_welcome demo_sockets true false (Some "127.0.0.1,10.0.0.7") 5 (demo_waiting demo_arrivals [])
              (take 4 demo_arrivals) (mkArrival false (inr (9, INET 117440522, true))) []) as [H _].
  - repeat constructor.
  - split; reflexivity.
  - reflexivity.
  - cbn. lia.
  - destruct (H 9 ltac:(reflexivity)) as (w' & E & C & _). exists w'. split; [exact E|]. rewrite C. reflexivity.
Defined.

(** The port 65536 is the port 0, that is, a path. *)
Lemma port_wraps : split_address "localhost:65536" = Ok ("localhost:65536", None) /\ split_address "localhost:65537" = Ok ("localhost", Some 1).
Proof. split; reflexivity. Qed.

(** A long path overruns the array of the host name, although [OS_BuildSockAddrUn] would refuse it. *)
Lemma long_path_overruns bindPath : MAXPATHLEN <= slen bindPath ->
  @OS_CreateLocalIpcFd demo_sockets bindPath = Err (Undefined "strcpy past an array").
Proof. intros H. unfold OS_CreateLocalIpcFd, split_address. rewrite (proj2 (Z.leb_le _ _)) by exact H. reflexivity. Qed.

(** When the lock cannot be released, the socket of the client is not closed. *)
Lemma unreleased_leaks : exists w',
  @OS_Accept demo_sockets true 5 false None (demo_waiting (drop 4 demo_arrivals) [None; Some 37]) = (Ok (-1), w')
    /\ calls w' = [CallLock; CallAccept; CallNoDelay 9; CallUnlock].
Proof. eexists. split; reflexivity. Qed.

(** The server is stopped while a client is refused: for every fuel the socket is closed
    as often. *)
Lemma stopped_never_returns fuel : exists w',
  @OS_Accept demo_sockets false (S fuel) false (Some "127.0.0.1") (demo_waiting [mkArrival true (inr (7, INET 5, true))] []) = (Err OutOfFuel, w')
    /\ calls w' = CallAccept :: mjoin (replicate (S fuel) [CallNoDelay 7; CallClose 7]).
Proof.
  set (w1 := mkWaiting true 0 [] [] (delete 7 (<[7 := true]> ∅)) [CallAccept; CallNoDelay 7; CallClose 7]).
  destruct (@refused_spins demo_sockets false fuel false (Some "127.0.0.1") 7 5 w1 ltac:(lia) eq_refl eq_refl) as (w' & E & C).
  exists w'. split; [|exact C].
  change ((@accept_client demo_sockets false fuel false (Some "127.0.0.1") 7 (Some (INET 5)) ≫= after_client false (@accept_outer demo_sockets false fuel false (Some "127.0.0.1"))) w1 = (Err OutOfFuel, w')).
  exact (obj_bind_err _ _ _ _ _ E).
Qed.
