(* ===== verification/OSAsync.v ===== *)
(** * Asynchronous input and output (src/fcgi/libfcgi/os_unix.c)

    The table of operations that wait for their descriptor, and [OS_DoIo], which asks
    [select] for the descriptors that are ready, transfers the data and calls the
    procedures the operations came with.  The operating system answers as a function of
    what was done before ([events]); a procedure is a computation on the same state, so it
    may start other operations and close descriptors.

    [ready_once]: the operations that are ready are done once each, in the order of their
    descriptors, and no operation is lost. *)
From stdpp Require Import base gmap strings list numbers.
From Stdlib Require Import ZArith Lia.
From coqutil Require Import Datatypes.RecordSetters.
From S2P Require Import Prelude Object.
Import TriangleBracketNotations.
#[local] Open Scope string_scope.
#[local] Open Scope list_scope.
#[local] Open Scope Z_scope.

(** ** The state *)

Record AioInfo := mkAioInfo {
  procPtr : Z;
  clientData : Z;
  fd : Z;
  len : Z;
  offset : Z;
  buf : Z;
  inUse : bool
}.

(** The field, where [fd] is a descriptor. *)
Abbreviation aio_fd := fd.

(** An entry after [memset]. *)
Definition aio_zero : AioInfo := mkAioInfo 0 0 0 0 0 0 false.

Inductive event :=
  | Select (reads writes : gset Z)
  | Transfer (write : bool) (fd buf len result : Z)
  | Callout (procPtr clientData result : Z)
  | Shutdown (fd how : Z)
  | Poll (fd : Z)
  | Trash (fd : Z)
  | Close (fd : Z).

Record Aio := mkAio {
  asyncIoInUse : bool;
  asyncIoTableSize : Z;
  asyncIoTable : option (list AioInfo);
  libInitialized : bool;
  readFdSet : gset Z;
  writeFdSet : gset Z;
  readFdSetPost : gset Z;
  numRdPosted : Z;
  writeFdSetPost : gset Z;
  numWrPosted : Z;
  maxFd : Z;
  events : list event
}.

(** The variables when the program starts. *)
Definition at_start : Aio := mkAio false 16 None false ∅ ∅ ∅ 0 ∅ 0 (-1) [].

Abbreviation A := (Obj Aio).

(** The operating system, and what the procedures do. *)
Class Kernel := {
  select : list event -> gset Z -> gset Z -> option (gset Z * gset Z);
  transfer : list event -> bool -> Z -> Z -> Z -> Z;
  shutdown : list event -> Z -> Z;
  poll : list event -> Z -> Z;
  trash : list event -> Z -> Z;
  close : list event -> Z -> Z;
  callback : Z -> Z -> Z -> A unit
}.

Definition FD_SETSIZE : Z := 1024.
Definition STDIN_FILENO : Z := 0.
Definition AIO_RD_IX (fd : Z) : Z := fd * 2.
Definition AIO_WR_IX (fd : Z) : Z := fd * 2 + 1.

(** [FD_SET], [FD_CLR] and [FD_ISSET] are undefined for other descriptors. *)
Definition fd_check (fd : Z) : A unit :=
  if (0 <=? fd) && (fd <? FD_SETSIZE) then mret tt else obj_lift (undef "descriptor outside an fd_set").

Definition the_table : A (list AioInfo) := obj_deref asyncIoTable "asyncIoTable".

Definition aio_get (index : Z) : A AioInfo := t ← the_table; obj_lift (rd t index).
Definition aio_set (index : Z) (a : AioInfo) : A unit :=
  t ← the_table;
  t ← obj_lift (wr t index a);
  obj_set (fun w => w <| asyncIoTable := Some t |>).

Definition assert (b : bool) : A unit := if b then mret tt else obj_lift (undef "assertion").

(** [OS_LibInit], but for the handlers of signals. *)
Definition OS_LibInit : A Z :=
  w ← obj_get (fun w => w);
  if libInitialized w then mret 0
  else
    _ ← obj_set (fun w => w <| asyncIoTable := Some (replicate (Z.to_nat (asyncIoTableSize w)) aio_zero) |>
                        <| readFdSet := ∅ |> <| writeFdSet := ∅ |> <| readFdSetPost := ∅ |> <| writeFdSetPost := ∅ |>
                        <| libInitialized := true |>);
    mret 0.

Definition OS_LibShutdown : A unit :=
  w ← obj_get (fun w => w);
  if libInitialized w then obj_set (fun w => w <| asyncIoTable := None |> <| libInitialized := false |>) else mret tt.

Definition GrowAsyncTable : A unit :=
  w ← obj_get (fun w => w);
  t ← the_table;
  obj_set (fun w => w <| asyncIoTableSize := asyncIoTableSize w * 2 |>
                      <| asyncIoTable := Some (t ++ replicate (Z.to_nat (asyncIoTableSize w)) aio_zero) |>).

(** [while (index >= asyncIoTableSize)]; the size doubles. *)
Fixpoint grow_loop (fuel : nat) (index : Z) : A unit :=
  w ← obj_get (fun w => w);
  if index <? asyncIoTableSize w then mret tt
  else
    match fuel with
    | O => obj_lift (Err OutOfFuel)
    | S fuel => _ ← GrowAsyncTable; grow_loop fuel index
    end.

(** The entry is filled in. *)
Definition post (index : Z) (a : AioInfo) : A unit :=
  old ← aio_get index;
  _ ← assert (negb (inUse old));
  aio_set index a.

Definition in_use : A unit := obj_set (fun w => w <| asyncIoInUse := true |>).
Definition reach (fd : Z) : A unit := obj_set (fun w => w <| maxFd := if maxFd w <? fd then fd else maxFd w |>).

Definition OS_AsyncReadStdin (buf len procPtr clientData : Z) : A Z :=
  _ ← in_use;
  _ ← post (AIO_RD_IX STDIN_FILENO) (mkAioInfo procPtr clientData STDIN_FILENO len 0 buf true);
  _ ← fd_check STDIN_FILENO;
  _ ← obj_set (fun w => w <| readFdSet := {[STDIN_FILENO]} ∪ readFdSet w |>);
  _ ← reach STDIN_FILENO;
  mret 0.

Definition watch (write : bool) (fd : Z) (w : Aio) : Aio :=
  if write then w <| writeFdSet := {[fd]} ∪ writeFdSet w |> else w <| readFdSet := {[fd]} ∪ readFdSet w |>.

(** What [OS_AsyncRead] and [OS_AsyncWrite] do with their entry. *)
Definition IX (write : bool) (fd : Z) : Z := if write then AIO_WR_IX fd else AIO_RD_IX fd.

Definition start (write : bool) (fd : Z) (a : AioInfo) : A unit :=
  _ ← in_use;
  _ ← reach fd;
  _ ← grow_loop 32 (IX write fd);
  _ ← post (IX write fd) a;
  _ ← fd_check fd;
  obj_set (watch write fd).

Definition OS_AsyncRead (fd offset buf len procPtr clientData : Z) : A Z :=
  _ ← the_table;
  _ ← start false fd (mkAioInfo procPtr clientData fd len offset buf true);
  mret 0.

Definition OS_AsyncWrite (fd offset buf len procPtr clientData : Z) : A Z :=
  _ ← start true fd (mkAioInfo procPtr clientData fd len offset buf true);
  mret 0.

Section Kernel.
Context {os : Kernel}.

Definition record (e : event) : A unit := obj_set (fun w => w <| events := events w ++ [e] |>).

(** What is left to read is read, until the end or for as long as something comes. *)
Fixpoint drain (fuel : nat) (fd : Z) : A unit :=
  match fuel with
  | O => obj_lift (Err OutOfFuel)
  | S fuel =>
      _ ← fd_check fd;
      rv ← obj_get (fun w => poll (events w) fd);
      _ ← record (Poll fd);
      if 0 <? rv then
        n ← obj_get (fun w => trash (events w) fd);
        _ ← record (Trash fd);
        if 0 <? n then drain fuel fd else mret tt
      else mret tt
  end.

Definition release (index : Z) : A unit :=
  a ← aio_get index;
  if inUse a then aio_set index (a <| inUse := false |>) else mret tt.

Definition unwatch (write : bool) (fd : Z) (w : Aio) : Aio :=
  if write then w <| writeFdSet := writeFdSet w ∖ {[fd]} |> <| writeFdSetPost := writeFdSetPost w ∖ {[fd]} |>
  else w <| readFdSet := readFdSet w ∖ {[fd]} |> <| readFdSetPost := readFdSetPost w ∖ {[fd]} |>.

(** The operation of a descriptor is taken back. *)
Definition cancel (write : bool) (fd : Z) : A unit :=
  _ ← obj_set (unwatch write fd);
  release (IX write fd).

Definition OS_Close (fuel : nat) (fd : Z) : A Z :=
  if fd =? -1 then mret 0
  else
    w ← obj_get (fun w => w);
    _ ← (if asyncIoInUse w then
           _ ← fd_check fd;
           _ ← cancel false fd;
           _ ← cancel true fd;
           obj_set (fun w => if maxFd w =? fd then w <| maxFd := maxFd w - 1 |> else w)
         else mret tt);
    s ← obj_get (fun w => shutdown (events w) fd);
    _ ← record (Shutdown fd 1);
    _ ← (if s =? 0 then drain fuel fd else mret tt);
    r ← obj_get (fun w => close (events w) fd);
    _ ← record (Close fd);
    mret r.

Definition OS_IpcClose (fuel : nat) (ipcFd : Z) : A Z := OS_Close fuel ipcFd.

Definition OS_CloseRead (fd : Z) : A Z :=
  a ← aio_get (AIO_RD_IX fd);
  _ ← (if inUse a then
         _ ← aio_set (AIO_RD_IX fd) (a <| inUse := false |>);
         _ ← fd_check fd;
         obj_set (fun w => w <| readFdSet := readFdSet w ∖ {[fd]} |>)
       else mret tt);
  s ← obj_get (fun w => shutdown (events w) fd);
  _ ← record (Shutdown fd 0);
  mret s.

(** ** [OS_DoIo] *)

(** The bits of [s] up to [maxFd]. *)
Definition watched (w : Aio) (s : gset Z) : gset Z := filter (fun fd => 0 <= fd <= maxFd w) s.

(** [select] leaves the bits of the descriptors that are ready. *)
Definition call_select (reads writes : gset Z) : A (gset Z * gset Z) :=
  answer ← obj_get (fun w => select (events w) reads writes);
  _ ← record (Select reads writes);
  match answer with
  | None => obj_lift (throw (ExnOther "exit"))
  | Some (r, w) => mret (reads ∩ r, writes ∩ w)
  end.

(** A descriptor is posted. *)
Definition move (write : bool) (fd : Z) (w : Aio) : Aio :=
  if write then w <| numWrPosted := numWrPosted w + 1 |> <| writeFdSetPost := {[fd]} ∪ writeFdSetPost w |> <| writeFdSet := writeFdSet w ∖ {[fd]} |>
  else w <| numRdPosted := numRdPosted w + 1 |> <| readFdSetPost := {[fd]} ∪ readFdSetPost w |> <| readFdSet := readFdSet w ∖ {[fd]} |>.

(** The second loop: what is ready is posted. *)
Definition post_ready (reads writes : gset Z) (fd : Z) : A unit :=
  _ ← (if bool_decide (fd ∈ reads) then obj_set (move false fd) else mret tt);
  if bool_decide (fd ∈ writes) then obj_set (move true fd) else mret tt.

Fixpoint post_loop (reads writes : gset Z) (fds : list Z) : A unit :=
  match fds with
  | [] => mret tt
  | fd :: fds => _ ← post_ready reads writes fd; post_loop reads writes fds
  end.

Definition posted (write : bool) (w : Aio) : gset Z := if write then writeFdSetPost w else readFdSetPost w.

Definition unpost (write : bool) (fd : Z) : A unit :=
  obj_set (fun w => if write then w <| numWrPosted := numWrPosted w - 1 |> <| writeFdSetPost := writeFdSetPost w ∖ {[fd]} |>
                    else w <| numRdPosted := numRdPosted w - 1 |> <| readFdSetPost := readFdSetPost w ∖ {[fd]} |>).

(** [( *procPtr)(clientData, len)] *)
Definition call_proc (procPtr clientData result : Z) : A unit :=
  _ ← record (Callout procPtr clientData result);
  if procPtr =? 0 then obj_lift (undef "call of a null pointer") else callback procPtr clientData result.

(** An operation that is posted is done. *)
Definition dispatch (write : bool) (fd : Z) : A unit :=
  w ← obj_get (fun w => w);
  if bool_decide (fd ∈ posted write w) then
    a ← aio_get (IX write fd);
    if inUse a then
      _ ← unpost write fd;
      n ← obj_get (fun w => transfer (events w) write (aio_fd a) (buf a) (len a));
      _ ← record (Transfer write (aio_fd a) (buf a) (len a) n);
      _ ← aio_set (IX write fd) (a <| procPtr := 0 |> <| inUse := false |>);
      call_proc (procPtr a) (clientData a) n
    else mret tt
  else mret tt.

(** The last loop; the procedures may change [maxFd]. *)
Fixpoint dispatch_loop (fuel : nat) (fd : Z) : A unit :=
  w ← obj_get (fun w => w);
  if maxFd w <? fd then mret tt
  else
    match fuel with
    | O => obj_lift (Err OutOfFuel)
    | S fuel =>
        _ ← fd_check fd;
        _ ← dispatch false fd;
        _ ← dispatch true fd;
        dispatch_loop fuel (fd + 1)
    end.

Definition OS_DoIo : A Z :=
  _ ← in_use;
  w ← obj_get (fun w => w);
  _ ← (if maxFd w <? FD_SETSIZE then mret tt else obj_lift (undef "descriptor outside an fd_set"));
  _ ← (if (numRdPosted w =? 0) && (numWrPosted w =? 0) then
         '(reads, writes) ← call_select (watched w (readFdSet w)) (watched w (writeFdSet w));
         post_loop reads writes (range 0 (maxFd w + 1))
       else mret tt);
  w ← obj_get (fun w => w);
  if (numRdPosted w =? 0) && (numWrPosted w =? 0) then mret 0
  else _ ← dispatch_loop (Z.to_nat FD_SETSIZE) 0; mret 0.
End Kernel.

(** ** What the table stands for *)

(** The operation that waits at a descriptor, for reading or for writing. *)
Definition live (write : bool) (fd : Z) (w : Aio) : option AioInfo :=
  t ← asyncIoTable w; a ← t !! Z.to_nat (IX write fd); if inUse a then Some a else None.

Definition interest (write : bool) (w : Aio) : gset Z := if write then writeFdSet w else readFdSet w.
Definition count (write : bool) (w : Aio) : Z := if write then numWrPosted w else numRdPosted w.

Abbreviation ops := (gmap (bool * Z) AioInfo).

(** The table holds the operations [I] that wait and the operations [P] that are posted. *)
Record wf (good : bool -> AioInfo -> Prop) (I P : ops) (w : Aio) : Prop := {
  wf_table : exists t, asyncIoTable w = Some t /\ Z.of_nat (length t) = asyncIoTableSize w /\ 16 <= asyncIoTableSize w;
  wf_max : -1 <= maxFd w < FD_SETSIZE;
  wf_disjoint : I ##ₘ P;
  wf_live : forall wr fd, 0 <= fd -> live wr fd w = (I ∪ P) !! (wr, fd);
  wf_interest : forall wr fd, fd ∈ interest wr w <-> is_Some (I !! (wr, fd));
  wf_posted : forall wr fd, fd ∈ posted wr w <-> is_Some (P !! (wr, fd));
  wf_count : forall wr, count wr w = Z.of_nat (size (posted wr w));
  wf_op : forall wr fd a, (I ∪ P) !! (wr, fd) = Some a -> 0 <= fd <= maxFd w /\ aio_fd a = fd /\ good wr a
}.

Section Correct.
Context {os : Kernel} (good : bool -> AioInfo -> Prop).

Abbreviation wf := (wf good).

Definition is_transfer (e : event) : bool := match e with Transfer _ _ _ _ _ | Callout _ _ _ => true | _ => false end.
Definition transfers (w : Aio) : list event := List.filter is_transfer (events w).

(** Fields of an operation that has been started. *)
Lemma wf_pending I P w wr fd a : wf I P w -> P !! (wr, fd) = Some a ->
  live wr fd w = Some a /\ 0 <= fd <= maxFd w /\ aio_fd a = fd /\ good wr a /\ I !! (wr, fd) = None.
Proof.
  intros Hw Hp. pose proof (map_disjoint_Some_r _ _ _ _ (wf_disjoint _ _ _ _ Hw) Hp) as Hi.
  assert (Hu : (I ∪ P) !! (wr, fd) = Some a) by (rewrite lookup_union_r; assumption).
  destruct (wf_op _ _ _ _ Hw _ _ _ Hu) as (H0 & Hf & Hg). rewrite (wf_live _ _ _ _ Hw) by lia. auto.
Qed.

(** An operation of [live] is an entry of the table. *)
Lemma live_entry wr fd w a : 0 <= fd -> live wr fd w = Some a ->
  exists t, asyncIoTable w = Some t /\ rd t (IX wr fd) = Ok a /\ inUse a = true.
Proof.
  intros Hf. unfold live. destruct (asyncIoTable w) as [t|]; [|discriminate]. cbn. destruct (t !! _) as [b|] eqn:Et; [|discriminate]. cbn.
  destruct (inUse b) eqn:Eu; [|discriminate]. intros [= ->]. exists t. split; [reflexivity|]. split; [|exact Eu].
  apply rd_ok. split; [|exact Et]. destruct wr; cbn; unfold AIO_RD_IX, AIO_WR_IX; lia.
Qed.

Lemma aio_get_ok t i a w : asyncIoTable w = Some t -> rd t i = Ok a -> aio_get i w = (Ok a, w).
Proof. intros Ht Hr. unfold aio_get, the_table. rewrite (obj_deref_bind _ _ t) by exact Ht. unfold obj_lift. rewrite Hr. reflexivity. Qed.

Lemma IX_inj wr wr' fd fd' : 0 <= fd -> 0 <= fd' -> Z.to_nat (IX wr fd) = Z.to_nat (IX wr' fd') -> wr = wr' /\ fd = fd'.
Proof. intros H H' E. destruct wr, wr'; cbn in E; unfold AIO_RD_IX, AIO_WR_IX in E; split; (reflexivity || lia). Qed.

(** An entry is written. *)
Lemma live_set wr fd t a w : 0 <= fd -> asyncIoTable w = Some t -> IX wr fd < Z.of_nat (length t) ->
  let w' := w <| asyncIoTable := Some (<[Z.to_nat (IX wr fd) := a]> t) |> in
  aio_set (IX wr fd) a w = (Ok tt, w') /\
  (forall wr' fd', 0 <= fd' -> live wr' fd' w' = if decide ((wr, fd) = (wr', fd')) then (if inUse a then Some a else None) else live wr' fd' w).
Proof.
  intros Hf Ht Hl w'. assert (H0 : 0 <= IX wr fd) by (destruct wr; cbn; unfold AIO_RD_IX, AIO_WR_IX; lia). split.
  - unfold aio_set, the_table. rewrite (obj_deref_bind _ _ t) by exact Ht.
    rewrite (proj2 (wr_ok t _ _ a) (conj (conj H0 Hl) eq_refl)). reflexivity.
  - intros wr' fd' Hf'. unfold live. change (asyncIoTable w') with (Some (<[Z.to_nat (IX wr fd) := a]> t)). rewrite Ht. cbn.
    destruct (decide _) as [[= <- <-]|Hne].
    + rewrite list_lookup_insert_eq by lia. reflexivity.
    + rewrite list_lookup_insert_ne; [reflexivity|]. intros E. apply Hne. destruct (IX_inj _ _ _ _ Hf Hf' E) as [-> ->]. reflexivity.
Qed.

(** ** Starting an operation *)

Lemma grow_ok I P w : wf I P w ->
  exists w', GrowAsyncTable w = (Ok tt, w') /\ wf I P w' /\ asyncIoTableSize w' = asyncIoTableSize w * 2
    /\ maxFd w' = maxFd w /\ events w' = events w.
Proof.
  intros Hw. destruct (wf_table _ _ _ _ Hw) as (t & Ht & Hl & Hs).
  set (t' := t ++ replicate (Z.to_nat (asyncIoTableSize w)) aio_zero).
  set (w' := w <| asyncIoTableSize := asyncIoTableSize w * 2 |> <| asyncIoTable := Some t' |>). exists w'.
  split; [unfold GrowAsyncTable, the_table; rewrite obj_get_bind, (obj_deref_bind _ _ t) by exact Ht; reflexivity|].
  split; [|auto]. destruct Hw as [_ Hm Hd Hv Hi Hp Hc Ho]. constructor; try assumption.
  - exists t'. split; [reflexivity|]. unfold t'. rewrite length_app, length_replicate. change (asyncIoTableSize w') with (asyncIoTableSize w * 2). lia.
  - intros wr fd Hf. rewrite <- (Hv wr fd Hf). unfold live. rewrite Ht. cbn. unfold t'. set (i := Z.to_nat (IX wr fd)).
    destruct (decide (i < length t)%nat) as [Hlt|Hge]; [rewrite lookup_app_l by exact Hlt; reflexivity|].
    rewrite lookup_app_r, (lookup_ge_None_2 t) by lia. cbn.
    destruct (replicate _ aio_zero !! _) as [b|] eqn:Eb; [|reflexivity]. apply lookup_replicate in Eb as [-> _]. reflexivity.
Qed.

Lemma grow_loop_ok fuel index I P w : wf I P w -> index < asyncIoTableSize w * 2 ^ Z.of_nat fuel ->
  exists w', grow_loop fuel index w = (Ok tt, w') /\ wf I P w' /\ index < asyncIoTableSize w' /\ maxFd w' = maxFd w /\ events w' = events w.
Proof.
  revert w. induction fuel as [|fuel IH]; intros w Hw Hi; cbn [grow_loop]; rewrite obj_get_bind;
    (destruct (Z.ltb_spec index (asyncIoTableSize w)) as [Hlt|Hge]; [exists w; auto|]).
  - exfalso. change (2 ^ Z.of_nat 0) with 1 in Hi. lia.
  - destruct (grow_ok I P w Hw) as (w1 & E & Hw1 & Hs & Hm & He). rewrite (obj_bind_val _ _ _ _ _ E).
    destruct (IH w1 Hw1) as (w' & E' & H1 & H2 & H3 & H4).
    + rewrite Hs. rewrite Nat2Z.inj_succ, Z.pow_succ_r in Hi by lia. lia.
    + exists w'. rewrite H3, H4. auto.
Qed.

Lemma wf_reach fd I P w : wf I P w -> fd < FD_SETSIZE ->
  exists w', reach fd w = (Ok tt, w') /\ wf I P w' /\ fd <= maxFd w' /\ events w' = events w.
Proof.
  intros [Ht Hm Hd Hv Hi Hp Hc Ho] Hf. set (m := if maxFd w <? fd then fd else maxFd w).
  assert (Hle : maxFd w <= m /\ fd <= m /\ m < FD_SETSIZE) by (unfold m; destruct (Z.ltb_spec (maxFd w) fd); lia).
  exists (w <| maxFd := m |>). split; [reflexivity|]. split; [|split; [apply Hle|reflexivity]]. constructor; try assumption.
  - change (-1 <= m < FD_SETSIZE). lia.
  - intros wr f a H. destruct (Ho wr f a H) as (H1 & H2). change (0 <= f <= m /\ aio_fd a = f /\ good wr a). split; [lia|exact H2].
Qed.

(** The operation is entered in the table and in the set. *)
Lemma interest_watch wr fd w wr' fd' : fd' ∈ interest wr' (watch wr fd w) <-> (wr, fd) = (wr', fd') \/ fd' ∈ interest wr' w.
Proof.
  assert (H : forall s : gset Z, fd' ∈ {[fd]} ∪ s <-> (wr, fd) = (wr, fd') \/ fd' ∈ s) by (intros s; rewrite elem_of_union, elem_of_singleton; intuition congruence).
  destruct wr, wr'; try (cbn; intuition congruence); [exact (H (writeFdSet w))|exact (H (readFdSet w))].
Qed.

Lemma post_ok wr fd a I P w :
  wf I P w -> (I ∪ P) !! (wr, fd) = None -> 0 <= fd <= maxFd w -> IX wr fd < asyncIoTableSize w ->
  inUse a = true -> aio_fd a = fd -> good wr a ->
  exists w', post (IX wr fd) a w = (Ok tt, w') /\ wf (<[(wr, fd) := a]> I) P (watch wr fd w') /\ events w' = events w.
Proof.
  intros Hw Hn Hf Hx Hu Hfd Hg. destruct (wf_table _ _ _ _ Hw) as (t & Ht & Hl & Hs).
  apply lookup_union_None in Hn as [Hni Hnp].
  assert (H0 : 0 <= IX wr fd) by (destruct wr; cbn; unfold AIO_RD_IX, AIO_WR_IX; lia).
  destruct (rd_in_range t (IX wr fd)) as (old & Eo & El); [lia|].
  assert (Hold : inUse old = false).
  { pose proof (wf_live _ _ _ _ Hw wr fd ltac:(lia)) as H. rewrite (proj2 (lookup_union_None _ _ _)) in H by auto.
    unfold live in H. rewrite Ht in H. cbn in H. rewrite El in H. cbn in H. destruct (inUse old); [discriminate|reflexivity]. }
  destruct (live_set wr fd t a w ltac:(lia) Ht ltac:(lia)) as [Es Hlive].
  set (w' := w <| asyncIoTable := Some (<[Z.to_nat (IX wr fd) := a]> t) |>) in *. exists w'.
  split; [|split; [|reflexivity]].
  - unfold post. rewrite (obj_bind_val _ _ _ _ _ (aio_get_ok _ _ _ _ Ht Eo)), Hold. exact Es.
  - destruct Hw as [_ Hm Hd Hv Hi Hp Hc Ho]. constructor.
    + destruct wr; (eexists; split; [reflexivity|]; rewrite length_insert; auto).
    + destruct wr; exact Hm.
    + apply map_disjoint_insert_l. auto.
    + intros wr' fd' Hf'. replace (live wr' fd' (watch wr fd w')) with (live wr' fd' w') by (destruct wr; reflexivity).
      rewrite (Hlive wr' fd' Hf'), <- insert_union_l, lookup_insert. rewrite Hu.
      destruct (decide ((wr, fd) = (wr', fd'))); [reflexivity|]. apply Hv. exact Hf'.
    + intros wr' fd'. rewrite lookup_insert.
      transitivity ((wr, fd) = (wr', fd') \/ fd' ∈ interest wr' w).
      * rewrite interest_watch. replace (interest wr' w') with (interest wr' w) by (destruct wr'; reflexivity). reflexivity.
      * rewrite Hi. destruct (decide _) as [E|Hne]; [|tauto]. split; [intros _; exists a; reflexivity|auto].
    + intros wr' fd'. rewrite <- Hp. destruct wr, wr'; reflexivity.
    + intros wr'. replace (count wr' (watch wr fd w')) with (count wr' w) by (destruct wr, wr'; reflexivity).
      rewrite Hc. destruct wr, wr'; reflexivity.
    + intros wr' fd' b Hb. replace (maxFd (watch wr fd w')) with (maxFd w) by (destruct wr; reflexivity).
      rewrite <- insert_union_l, lookup_insert in Hb. destruct (decide _) as [[= <- <-]|Hne]; [injection Hb as <-; auto|]. apply Ho. exact Hb.
Qed.

(** An idle descriptor gets its operation. *)
Lemma IX_fits wr fd : 0 <= fd < FD_SETSIZE -> IX wr fd < 16 * 2 ^ Z.of_nat 32.
Proof. intros H. unfold FD_SETSIZE in H. change (16 * 2 ^ Z.of_nat 32) with 68719476736. destruct wr; cbn; unfold AIO_RD_IX, AIO_WR_IX; lia. Qed.

Lemma fd_check_ok fd w : 0 <= fd < FD_SETSIZE -> fd_check fd w = (Ok tt, w).
Proof. intros [H1 H2]. unfold fd_check. rewrite (proj2 (Z.leb_le _ _)), (proj2 (Z.ltb_lt _ _)) by assumption. reflexivity. Qed.

Lemma start_ok wr fd a I P w :
  wf I P w -> (I ∪ P) !! (wr, fd) = None -> 0 <= fd < FD_SETSIZE -> inUse a = true -> aio_fd a = fd -> good wr a ->
  exists w', start wr fd a w = (Ok tt, w')
    /\ wf (<[(wr, fd) := a]> I) P w' /\ events w' = events w.
Proof.
  intros Hw Hn Hf Hu Hfd Hg. unfold start, in_use. rewrite obj_set_bind.
  assert (Hw0 : wf I P (w <| asyncIoInUse := true |>)) by (destruct Hw; constructor; assumption).
  destruct (wf_reach fd I P _ Hw0 ltac:(lia)) as (w1 & E1 & Hw1 & Hm1 & He1). rewrite (obj_bind_val _ _ _ _ _ E1).
  destruct (wf_table _ _ _ _ Hw1) as (t & _ & _ & Hs).
  destruct (grow_loop_ok 32 (IX wr fd) I P w1 Hw1) as (w2 & E2 & Hw2 & Hx & Hm2 & He2).
  { pose proof (IX_fits wr fd Hf). nia. }
  rewrite (obj_bind_val _ _ _ _ _ E2).
  destruct (post_ok wr fd a I P w2 Hw2 Hn ltac:(lia) Hx Hu Hfd Hg) as (w3 & E3 & Hw3 & He3). rewrite (obj_bind_val _ _ _ _ _ E3).
  rewrite (obj_bind_val _ _ _ _ _ (fd_check_ok fd w3 Hf)). exists (watch wr fd w3). split; [reflexivity|]. split; [exact Hw3|].
  replace (events (watch wr fd w3)) with (events w3) by (destruct wr; reflexivity). rewrite He3, He2, He1. reflexivity.
Qed.

Lemma OS_AsyncRead_ok fd offset buf len procPtr clientData I P w :
  let a := mkAioInfo procPtr clientData fd len offset buf true in
  wf I P w -> (I ∪ P) !! (false, fd) = None -> 0 <= fd < FD_SETSIZE -> good false a ->
  exists w', OS_AsyncRead fd offset buf len procPtr clientData w = (Ok 0, w') /\ wf (<[(false, fd) := a]> I) P w' /\ events w' = events w.
Proof.
  intros a Hw Hn Hf Hg. destruct (start_ok false fd a I P w Hw Hn Hf eq_refl eq_refl Hg) as (w' & E & H).
  exists w'. split; [|exact H]. destruct (wf_table _ _ _ _ Hw) as (t & Ht & _). unfold OS_AsyncRead, the_table.
  rewrite (obj_deref_bind _ _ t), (obj_bind_val _ _ _ _ _ E) by exact Ht. reflexivity.
Qed.

Lemma OS_AsyncWrite_ok fd offset buf len procPtr clientData I P w :
  let a := mkAioInfo procPtr clientData fd len offset buf true in
  wf I P w -> (I ∪ P) !! (true, fd) = None -> 0 <= fd < FD_SETSIZE -> good true a ->
  exists w', OS_AsyncWrite fd offset buf len procPtr clientData w = (Ok 0, w') /\ wf (<[(true, fd) := a]> I) P w' /\ events w' = events w.
Proof.
  intros a Hw Hn Hf Hg. destruct (start_ok true fd a I P w Hw Hn Hf eq_refl eq_refl Hg) as (w' & E & H).
  exists w'. split; [|exact H]. unfold OS_AsyncWrite. rewrite (obj_bind_val _ _ _ _ _ E). reflexivity.
Qed.

(** ** Taking it back *)

Lemma in_cancelled wr fd wr' fd' w :
  let w1 := unwatch wr fd w in
  (fd' ∈ interest wr' w1 <-> (wr, fd) <> (wr', fd') /\ fd' ∈ interest wr' w) /\ (fd' ∈ posted wr' w1 <-> (wr, fd) <> (wr', fd') /\ fd' ∈ posted wr' w).
Proof.
  assert (Hi : forall s : gset Z, fd' ∈ s ∖ {[fd]} <-> (wr, fd) <> (wr, fd') /\ fd' ∈ s) by (intros s; rewrite elem_of_difference, elem_of_singleton; intuition congruence).
  split; (destruct wr, wr'; try (cbn; intuition congruence)); [exact (Hi (writeFdSet w))|exact (Hi (readFdSet w))|exact (Hi (writeFdSetPost w))|exact (Hi (readFdSetPost w))].
Qed.

(** [release] makes an entry of the table dead. *)
Lemma release_ok wr fd w t : 0 <= fd -> asyncIoTable w = Some t -> IX wr fd < Z.of_nat (length t) ->
  exists t', release (IX wr fd) w = (Ok tt, w <| asyncIoTable := Some t' |>) /\ length t' = length t /\
    forall wr' fd', 0 <= fd' -> live wr' fd' (w <| asyncIoTable := Some t' |>) = if decide ((wr, fd) = (wr', fd')) then None else live wr' fd' w.
Proof.
  intros Hf Ht Hx. assert (H0 : 0 <= IX wr fd) by (destruct wr; cbn; unfold AIO_RD_IX, AIO_WR_IX; lia).
  destruct (rd_in_range t (IX wr fd)) as (a & Er & El); [lia|].
  unfold release. rewrite (obj_bind_val _ _ _ _ _ (aio_get_ok _ _ _ _ Ht Er)). destruct (inUse a) eqn:Eu.
  - destruct (live_set wr fd t (a <| inUse := false |>) w Hf Ht Hx) as [-> Hlive]. eexists. split; [reflexivity|].
    split; [apply length_insert|]. intros wr' fd' Hf'. rewrite (Hlive wr' fd' Hf'). destruct (decide _); reflexivity.
  - assert (Ew : w = w <| asyncIoTable := Some t |>) by (destruct w; cbn in *; subst; reflexivity).
    exists t. rewrite <- Ew. split; [reflexivity|]. split; [reflexivity|]. intros wr' fd' Hf'.
    destruct (decide _) as [[= <- <-]|]; [|reflexivity]. unfold live. rewrite Ht. cbn. rewrite El. cbn. rewrite Eu. reflexivity.
Qed.

Lemma cancel_ok wr fd I w : wf I ∅ w -> 0 <= fd -> IX wr fd < asyncIoTableSize w ->
  exists w', cancel wr fd w = (Ok tt, w') /\ wf (delete (wr, fd) I) ∅ w' /\ asyncIoTableSize w' = asyncIoTableSize w
    /\ maxFd w' = maxFd w /\ events w' = events w.
Proof.
  intros [(t & Ht & Hl & Hs) Hm Hd Hv Hi Hp Hc Ho] Hf Hx.
  unfold cancel. rewrite obj_set_bind. pose proof (fun wr' fd' => in_cancelled wr fd wr' fd' w) as Hin. cbv zeta in Hin.
  set (w1 := unwatch wr fd w) in *.
  destruct (release_ok wr fd w1 t Hf ltac:(destruct wr; exact Ht) ltac:(lia)) as (t' & E & Hl' & Hlive).
  exists (w1 <| asyncIoTable := Some t' |>). split; [exact E|]. split; [|destruct wr; auto].
  assert (Hnone : forall wr', posted wr' w = ∅) by (intros wr'; apply set_eq; intros f; rewrite Hp, lookup_empty; split; [intros [? [=]]|intros []%not_elem_of_empty]).
  constructor.
  - exists t'. rewrite Hl'. destruct wr; auto.
  - destruct wr; exact Hm.
  - apply map_disjoint_empty_r.
  - intros wr' fd' Hf'. rewrite (Hlive wr' fd' Hf'), map_union_empty, lookup_delete. destruct (decide _); [reflexivity|].
    rewrite <- (map_union_empty I), <- (Hv wr' fd' Hf'). destruct wr; reflexivity.
  - intros wr' fd'. rewrite lookup_delete_is_Some, <- Hi, <- (proj1 (Hin wr' fd')). destruct wr'; reflexivity.
  - intros wr' fd'. rewrite <- Hp. transitivity (fd' ∈ posted wr' w1); [destruct wr'; reflexivity|]. rewrite (proj2 (Hin wr' fd')), Hnone.
    split; [tauto|intros []%not_elem_of_empty].
  - intros wr'. assert (E0 : posted wr' (w1 <| asyncIoTable := Some t' |>) = ∅).
    { apply set_eq. intros f. transitivity (f ∈ posted wr' w1); [destruct wr'; reflexivity|]. rewrite (proj2 (Hin wr' f)), Hnone.
      split; [tauto|intros []%not_elem_of_empty]. }
    rewrite E0. specialize (Hc wr'). rewrite Hnone in Hc. rewrite <- Hc. destruct wr, wr'; reflexivity.
  - intros wr' fd' a Ha. rewrite map_union_empty in Ha. apply lookup_delete_Some in Ha as [_ Ha].
    replace (maxFd (w1 <| asyncIoTable := Some t' |>)) with (maxFd w) by (destruct wr; reflexivity). apply Ho. rewrite map_union_empty. exact Ha.
Qed.

(** A descriptor that is closed has no operation any more. *)
Lemma OS_Close_ok fuel fd I w : wf I ∅ w -> asyncIoInUse w = true -> 0 <= fd < FD_SETSIZE -> AIO_WR_IX fd < asyncIoTableSize w ->
  shutdown (events w) fd <> 0 ->
  exists w', OS_Close fuel fd w = (Ok (close (events w ++ [Shutdown fd 1]) fd), w') /\ wf (delete (true, fd) (delete (false, fd) I)) ∅ w'
    /\ events w' = events w ++ [Shutdown fd 1; Close fd].
Proof.
  intros Hw Hu Hf Hx Hsh. unfold AIO_WR_IX in Hx. unfold OS_Close. rewrite (proj2 (Z.eqb_neq fd (-1))) by lia. rewrite obj_get_bind, Hu.
  destruct (cancel_ok false fd I w Hw ltac:(lia)) as (w1 & E1 & Hw1 & S1 & M1 & V1); [cbn; unfold AIO_RD_IX; lia|].
  destruct (cancel_ok true fd _ w1 Hw1 ltac:(lia)) as (w2 & E2 & Hw2 & S2 & M2 & V2); [cbn; unfold AIO_WR_IX; lia|].
  set (I2 := delete (true, fd) _) in *. set (w3 := if maxFd w2 =? fd then w2 <| maxFd := maxFd w2 - 1 |> else w2).
  assert (Hw3 : wf I2 ∅ w3 /\ events w3 = events w).
  { unfold w3. rewrite <- V1, <- V2. destruct (Z.eqb_spec (maxFd w2) fd) as [Em|_]; [|auto]. split; [|reflexivity].
    destruct Hw2 as [Ht Hm Hd Hv Hi Hp Hc Ho]. constructor; try assumption.
    - change (-1 <= maxFd w2 - 1 < FD_SETSIZE). lia.
    - intros wr f a Ha. destruct (Ho wr f a Ha) as [Hb H]. split; [|exact H]. change (0 <= f <= maxFd w2 - 1).
      rewrite map_union_empty in Ha. apply lookup_delete_Some in Ha as [N1 Ha]. apply lookup_delete_Some in Ha as [N2 _].
      assert (f <> fd) by (intros ->; destruct wr; congruence). lia. }
  destruct Hw3 as [Hw3 V3].
  assert (Ec : (_ ← fd_check fd; _ ← cancel false fd; _ ← cancel true fd; obj_set (fun w => if maxFd w =? fd then w <| maxFd := maxFd w - 1 |> else w)) w = (Ok tt, w3)).
  { rewrite (obj_bind_val _ _ _ _ _ (fd_check_ok fd w Hf)), (obj_bind_val _ _ _ _ _ E1), (obj_bind_val _ _ _ _ _ E2). reflexivity. }
  rewrite (obj_bind_val _ _ _ _ _ Ec), obj_get_bind, V3. unfold record. rewrite obj_set_bind. rewrite (proj2 (Z.eqb_neq _ 0)) by exact Hsh.
  rewrite obj_ret_bind, obj_get_bind, obj_set_bind. set (w4 := w3 <| events := events w3 ++ [Shutdown fd 1] |>).
  set (w5 := w4 <| events := _ |>). exists w5. split; [|split; [destruct Hw3; constructor; assumption|]].
  - rewrite <- V3. reflexivity.
  - change (events w5) with ((events w3 ++ [Shutdown fd 1]) ++ [Close fd]). rewrite V3, <- app_assoc. reflexivity.
Qed.

(** ** What is ready *)

Lemma in_moved wr fd wr' fd' w :
  (fd' ∈ posted wr' (move wr fd w) <-> (wr, fd) = (wr', fd') \/ fd' ∈ posted wr' w) /\
  (fd' ∈ interest wr' (move wr fd w) <-> (wr, fd) <> (wr', fd') /\ fd' ∈ interest wr' w).
Proof.
  assert (Hp : forall s : gset Z, fd' ∈ {[fd]} ∪ s <-> (wr, fd) = (wr, fd') \/ fd' ∈ s) by (intros s; rewrite elem_of_union, elem_of_singleton; intuition congruence).
  assert (Hi : forall s : gset Z, fd' ∈ s ∖ {[fd]} <-> (wr, fd) <> (wr, fd') /\ fd' ∈ s) by (intros s; rewrite elem_of_difference, elem_of_singleton; intuition congruence).
  split; (destruct wr, wr'; try (cbn; intuition congruence)); [exact (Hp (writeFdSetPost w))|exact (Hp (readFdSetPost w))|exact (Hi (writeFdSet w))|exact (Hi (readFdSet w))].
Qed.

Lemma move_ok wr fd a I P w : wf I P w -> I !! (wr, fd) = Some a -> wf (delete (wr, fd) I) (<[(wr, fd) := a]> P) (move wr fd w).
Proof.
  intros [Ht Hm Hd Hv Hi Hp Hc Ho] Ha. pose proof (map_disjoint_Some_l _ _ _ _ Hd Ha) as Hn.
  assert (Hu : delete (wr, fd) I ∪ <[(wr, fd) := a]> P = I ∪ P).
  { rewrite <- insert_union_r by apply lookup_delete_eq. rewrite insert_union_l, insert_delete_id by exact Ha. reflexivity. }
  constructor; rewrite ?Hu.
  - destruct wr; exact Ht.
  - destruct wr; exact Hm.
  - apply map_disjoint_insert_r. split; [apply lookup_delete_eq|]. apply map_disjoint_delete_l. exact Hd.
  - intros wr' fd' Hf. rewrite <- Hv by exact Hf. destruct wr; reflexivity.
  - intros wr' fd'. rewrite (proj2 (in_moved wr fd wr' fd' w)), Hi, lookup_delete_is_Some. reflexivity.
  - intros wr' fd'. rewrite (proj1 (in_moved wr fd wr' fd' w)), Hp, lookup_insert_is_Some. destruct (decide ((wr, fd) = (wr', fd'))); tauto.
  - intros wr'. specialize (Hc wr').
    assert (Hs : forall s : gset Z, fd ∉ s -> Z.of_nat (size s) + 1 = Z.of_nat (size ({[fd]} ∪ s))).
    { clear. intros s Hs. rewrite size_union by (apply disjoint_singleton_l; exact Hs). rewrite size_singleton. lia. }
    assert (Hnp : fd ∉ posted wr w) by (rewrite Hp, Hn; intros [? [=]]).
    destruct wr, wr'; try exact Hc; [change (numWrPosted w + 1 = Z.of_nat (size ({[fd]} ∪ writeFdSetPost w)))|change (numRdPosted w + 1 = Z.of_nat (size ({[fd]} ∪ readFdSetPost w)))];
      [rewrite <- (Hs (writeFdSetPost w) Hnp)|rewrite <- (Hs (readFdSetPost w) Hnp)]; f_equal; exact Hc.
  - intros wr' fd' b Hb. replace (maxFd (move wr fd w)) with (maxFd w) by (destruct wr; reflexivity). apply Ho. exact Hb.
Qed.

(** The bits of [select] for an operation. *)
Definition is_ready (reads writes : gset Z) (k : bool * Z) : bool := bool_decide (k.2 ∈ (if k.1 then writes else reads)).

(** The operations of [moved] are posted. *)
Definition split_by (moved : bool * Z -> bool) (I P I' P' : ops) : Prop :=
  forall k, (P' !! k = if moved k then I !! k else P !! k) /\ (I' !! k = if moved k then None else I !! k).

Lemma post_one wr fd (b : bool) I P w : wf I P w -> (b = true -> is_Some (I !! (wr, fd))) ->
  exists I' P' w', (if b then obj_set (move wr fd) else mret tt) w = (Ok tt, w') /\ wf I' P' w'
    /\ split_by (fun k => b && bool_decide (k = (wr, fd))) I P I' P' /\ maxFd w' = maxFd w /\ events w' = events w.
Proof.
  intros Hw Hb. destruct b.
  - destruct (Hb eq_refl) as [a Ha]. exists (delete (wr, fd) I), (<[(wr, fd) := a]> P), (move wr fd w).
    split; [reflexivity|]. split; [exact (move_ok wr fd a I P w Hw Ha)|]. split; [|destruct wr; auto].
    intros k. cbn [andb]. case_bool_decide as Hk.
    + subst k. rewrite lookup_insert_eq, lookup_delete_eq, Ha. auto.
    + rewrite lookup_insert_ne, lookup_delete_ne by congruence. auto.
  - exists I, P, w. repeat (split; [reflexivity || exact Hw|]). split; [|auto]. intros k. auto.
Qed.

Lemma split_comp m1 m2 m I0 P0 I1 P1 I2 P2 : split_by m1 I0 P0 I1 P1 -> split_by m2 I1 P1 I2 P2 ->
  (forall k, m1 k = true -> m2 k = false) -> (forall k, m k = m1 k || m2 k) -> split_by m I0 P0 I2 P2.
Proof.
  intros H1 H2 Hd Hm k. destruct (H1 k) as [A1 B1], (H2 k) as [A2 B2]. rewrite A2, B2, A1, B1, Hm. specialize (Hd k).
  destruct (m1 k); [rewrite (Hd eq_refl); auto|]. destruct (m2 k); auto.
Qed.

Lemma post_loop_ok reads writes fds I P w : NoDup fds -> wf I P w ->
  (forall k, k.2 ∈ fds -> is_ready reads writes k = true -> is_Some (I !! k)) ->
  exists I' P' w', post_loop reads writes fds w = (Ok tt, w') /\ wf I' P' w'
    /\ split_by (fun k => bool_decide (k.2 ∈ fds) && is_ready reads writes k) I P I' P' /\ maxFd w' = maxFd w /\ events w' = events w.
Proof.
  intros Hnd. revert I P w. induction Hnd as [|fd fds Hfd Hnd IH]; intros I P w Hw Hr.
  { exists I, P, w. split; [reflexivity|]. split; [exact Hw|]. split; [|auto]. intros k. rewrite bool_decide_false by apply not_elem_of_nil. auto. }
  destruct (post_one false fd (bool_decide (fd ∈ reads)) I P w Hw) as (I1 & P1 & w1 & E1 & Hw1 & S1 & M1 & V1).
  { intros Hb. apply (Hr (false, fd)); [left|exact Hb]. }
  destruct (post_one true fd (bool_decide (fd ∈ writes)) I1 P1 w1 Hw1) as (I2 & P2 & w2 & E2 & Hw2 & S2 & M2 & V2).
  { intros Hb. rewrite (proj2 (S1 (true, fd))), (bool_decide_false ((true, fd) = _)), andb_false_r by congruence. apply (Hr (true, fd)); [left|exact Hb]. }
  assert (S12 : split_by (fun k => bool_decide (k.2 = fd) && is_ready reads writes k) I P I2 P2).
  { apply (split_comp _ _ _ _ _ _ _ _ _ S1 S2).
    - intros k [_ Hk]%andb_prop. apply bool_decide_eq_true in Hk. subst k. rewrite (bool_decide_false (_ = _)) by congruence. apply andb_false_r.
    - intros [wr f]. unfold is_ready. cbn. destruct (decide (f = fd)) as [->|Hne].
      + rewrite bool_decide_true by reflexivity. destruct wr; rewrite ?(bool_decide_false (_ = (_, _))) by congruence;
          rewrite ?(bool_decide_true (_ = (_, _))) by reflexivity; rewrite ?andb_false_r, ?andb_true_r, ?orb_false_r; reflexivity.
      + rewrite !(bool_decide_false (_ = _)) by congruence. rewrite !andb_false_r. reflexivity. }
  destruct (IH I2 P2 w2 Hw2) as (I3 & P3 & w3 & E3 & Hw3 & S3 & M3 & V3).
  { intros k Hk Hready. rewrite (proj2 (S12 k)), (bool_decide_false (_ = _)) by (intros Ek; rewrite Ek in Hk; contradiction). apply Hr; [right|]; assumption. }
  exists I3, P3, w3. split.
  { cbn [post_loop]. unfold mbind at 1, Obj_bind at 1. unfold post_ready. rewrite (obj_bind_val _ _ _ _ _ E1), E2. exact E3. }
  split; [exact Hw3|]. split; [|rewrite M3, M2, M1, V3, V2, V1; auto].
  apply (split_comp _ _ _ _ _ _ _ _ _ S12 S3).
  - intros k [Hk _]%andb_prop. apply bool_decide_eq_true in Hk. rewrite Hk, (bool_decide_false (_ ∈ _)) by assumption. reflexivity.
  - intros k. rewrite <- andb_orb_distrib_l. f_equal. rewrite <- bool_decide_or. apply bool_decide_ext. apply elem_of_cons.
Qed.

(** ** What is done *)

(** The procedures of good operations start other operations and close none. *)
Record callbacks_ok : Prop := {
  proc_given : forall wr a, good wr a -> procPtr a <> 0;
  proc_starts : forall wr a r I P w, good wr a -> wf I P w -> (I ∪ P) !! (wr, aio_fd a) = None ->
    exists I' w', callback (procPtr a) (clientData a) r w = (Ok tt, w') /\ wf I' P w' /\ I ⊆ I' /\ transfers w' = transfers w
}.

Lemma transfers_record e w w' : events w' = events w ++ [e] -> transfers w' = transfers w ++ if is_transfer e then [e] else [].
Proof. intros He. unfold transfers. rewrite He, List.filter_app. cbn. destruct (is_transfer e); reflexivity. Qed.

Lemma in_unposted wr fd wr' fd' w w' : unpost wr fd w = (Ok tt, w') ->
  fd' ∈ posted wr' w' <-> (wr, fd) <> (wr', fd') /\ fd' ∈ posted wr' w.
Proof.
  assert (Hi : forall s : gset Z, fd' ∈ s ∖ {[fd]} <-> (wr, fd) <> (wr, fd') /\ fd' ∈ s) by (intros s; rewrite elem_of_difference, elem_of_singleton; intuition congruence).
  intros [= <-]. destruct wr, wr'; try (cbn; intuition congruence); [exact (Hi (writeFdSetPost w))|exact (Hi (readFdSetPost w))].
Qed.

(** The operation leaves the table. *)
Lemma unpost_ok wr fd a I P w : wf I P w -> P !! (wr, fd) = Some a ->
  exists w1, unpost wr fd w = (Ok tt, w1) /\ events w1 = events w /\
    forall w2 e, w2 = w1 <| events := e |> ->
    exists w3, aio_set (IX wr fd) (a <| procPtr := 0 |> <| inUse := false |>) w2 = (Ok tt, w3) /\ wf I (delete (wr, fd) P) w3 /\ events w3 = e.
Proof.
  intros Hw Ha. destruct (wf_pending _ _ _ _ _ _ Hw Ha) as (Hl & Hf & Hfd & Hg & Hni).
  destruct (live_entry wr fd w a ltac:(lia) Hl) as (t & Ht & Hrd & Hu).
  eexists. split; [reflexivity|]. split; [destruct wr; reflexivity|]. intros w2 e ->.
  match goal with |- exists w3, aio_set _ _ ?s = _ /\ _ => set (w2 := s) end.
  assert (Ht2 : asyncIoTable w2 = Some t) by (destruct wr; exact Ht).
  destruct (live_set wr fd t (a <| procPtr := 0 |> <| inUse := false |>) w2 ltac:(lia) Ht2 (proj2 (rd_ok_range _ _ _ Hrd))) as [Es Hlive].
  set (w3 := w2 <| asyncIoTable := _ |>) in *. exists w3. split; [exact Es|]. split; [|destruct wr; reflexivity].
  destruct Hw as [Htab Hm Hd Hv Hi Hp Hc Ho].
  assert (Hpost : forall wr' fd', fd' ∈ posted wr' w3 <-> (wr, fd) <> (wr', fd') /\ fd' ∈ posted wr' w).
  { intros wr' fd'. rewrite <- (in_unposted wr fd wr' fd' w _ eq_refl). destruct wr, wr'; reflexivity. }
  assert (Hsub : forall k b, (I ∪ delete (wr, fd) P) !! k = Some b -> (I ∪ P) !! k = Some b).
  { intros k b Hb. apply lookup_union_Some_raw. apply lookup_union_Some_raw in Hb as [Hb|[H1 H2]]; [auto|]. right. split; [exact H1|].
    apply lookup_delete_Some in H2. apply H2. }
  constructor.
  - destruct Htab as (t' & Ht' & Hl' & Hs'). assert (t' = t) as -> by congruence.
    eexists. split; [reflexivity|]. rewrite length_insert. destruct wr; auto.
  - destruct wr; exact Hm.
  - apply map_disjoint_delete_r. exact Hd.
  - intros wr' fd' Hf'. rewrite (Hlive wr' fd' Hf'). destruct (decide _) as [[= <- <-]|Hne].
    + symmetry. apply lookup_union_None. split; [exact Hni|apply lookup_delete_eq].
    + rewrite lookup_union, lookup_delete_ne, <- lookup_union by exact Hne. rewrite <- (Hv wr' fd' Hf'). destruct wr; reflexivity.
  - intros wr' fd'. rewrite <- Hi. destruct wr, wr'; reflexivity.
  - intros wr' fd'. rewrite Hpost, Hp, lookup_delete_is_Some. reflexivity.
  - intros wr'. specialize (Hc wr').
    assert (Hs : forall s : gset Z, fd ∈ s -> Z.of_nat (size s) - 1 = Z.of_nat (size (s ∖ {[fd]}))).
    { clear. intros s Hs. rewrite size_difference by (apply singleton_subseteq_l; exact Hs). rewrite size_singleton.
      assert (size s <> 0%nat) by (apply size_non_empty_iff; intros E; rewrite (E fd) in Hs; exact (not_elem_of_empty _ Hs)). lia. }
    assert (Hin : fd ∈ posted wr w) by (rewrite Hp, Ha; eexists; reflexivity).
    destruct wr, wr'; try exact Hc; [change (numWrPosted w - 1 = Z.of_nat (size (writeFdSetPost w ∖ {[fd]})))|change (numRdPosted w - 1 = Z.of_nat (size (readFdSetPost w ∖ {[fd]})))];
      [rewrite <- (Hs (writeFdSetPost w) Hin)|rewrite <- (Hs (readFdSetPost w) Hin)]; f_equal; exact Hc.
  - intros wr' fd' b Hb. replace (maxFd w3) with (maxFd w) by (destruct wr; reflexivity). apply Ho. apply Hsub. exact Hb.
Qed.

(** The transfer of an operation, with the result [r], and the call of its procedure. *)
Definition done (k : bool * AioInfo) (r : Z) : list event :=
  [Transfer k.1 (aio_fd k.2) (buf k.2) (len k.2) r; Callout (procPtr k.2) (clientData k.2) r].

Lemma dispatch_none wr fd I P w : wf I P w -> P !! (wr, fd) = None -> dispatch wr fd w = (Ok tt, w).
Proof.
  intros Hw Hn. unfold dispatch. rewrite obj_get_bind, bool_decide_false; [reflexivity|].
  rewrite (wf_posted _ _ _ _ Hw), Hn. intros [? [=]].
Qed.

Context (Hcb : callbacks_ok).

Lemma dispatch_ok wr fd a I P w : wf I P w -> P !! (wr, fd) = Some a ->
  exists r I' w', dispatch wr fd w = (Ok tt, w') /\ wf I' (delete (wr, fd) P) w' /\ I ⊆ I' /\ transfers w' = transfers w ++ done (wr, a) r.
Proof.
  intros Hw Ha. destruct (wf_pending _ _ _ _ _ _ Hw Ha) as (Hl & Hf & Hfd & Hg & Hni).
  destruct (live_entry wr fd w a ltac:(lia) Hl) as (t & Ht & Hrd & Hu).
  destruct (unpost_ok wr fd a I P w Hw Ha) as (w1 & E1 & V1 & H3).
  set (r := transfer (events w1) wr (aio_fd a) (buf a) (len a)).
  destruct (H3 _ (events w1 ++ [Transfer wr (aio_fd a) (buf a) (len a) r]) eq_refl) as (w3 & E3 & Hw3 & V3). clear H3.
  set (w4 := w3 <| events := events w3 ++ [Callout (procPtr a) (clientData a) r] |>).
  assert (Hw4 : wf I (delete (wr, fd) P) w4) by (destruct Hw3; constructor; assumption).
  destruct (proc_starts Hcb wr a r I _ w4 Hg Hw4) as (I' & w' & E' & Hw' & Hsub & Htr).
  { rewrite Hfd. apply lookup_union_None. split; [exact Hni|apply lookup_delete_eq]. }
  exists r, I', w'. split; [|split; [exact Hw'|split; [exact Hsub|]]].
  - unfold dispatch. rewrite obj_get_bind, bool_decide_true by (rewrite (wf_posted _ _ _ _ Hw), Ha; eexists; reflexivity).
    rewrite (obj_bind_val _ _ _ _ _ (aio_get_ok _ _ _ _ Ht Hrd)), Hu, (obj_bind_val _ _ _ _ _ E1), obj_get_bind.
    fold r. unfold record at 1. rewrite obj_set_bind, (obj_bind_val _ _ _ _ _ E3). unfold call_proc, record. rewrite obj_set_bind.
    rewrite (proj2 (Z.eqb_neq _ _)) by exact (proc_given Hcb _ _ Hg). exact E'.
  - rewrite Htr, (transfers_record _ w3 w4 eq_refl). cbn [is_transfer]. unfold transfers at 1. rewrite V3, V1, List.filter_app, <- app_assoc. reflexivity.
Qed.

(** The operations of [P] at the descriptors [fds], in the order of [OS_DoIo]. *)
Definition at_fd (P : ops) (fd : Z) : list (bool * AioInfo) :=
  match P !! (false, fd) with Some a => [(false, a)] | None => [] end ++ match P !! (true, fd) with Some a => [(true, a)] | None => [] end.
Definition jobs (P : ops) (fds : list Z) : list (bool * AioInfo) := fds ≫= at_fd P.

Lemma dispatch_one wr fd I P w : wf I P w ->
  exists rs I' w', dispatch wr fd w = (Ok tt, w') /\ wf I' (delete (wr, fd) P) w' /\ I ⊆ I'
    /\ let js := match P !! (wr, fd) with Some a => [(wr, a)] | None => [] end in
       length rs = length js /\ transfers w' = transfers w ++ mjoin (zip_with done js rs).
Proof.
  intros Hw. destruct (P !! (wr, fd)) as [a|] eqn:Ha.
  - destruct (dispatch_ok wr fd a I P w Hw Ha) as (r & I' & w' & E & Hw' & Hs & Ht).
    exists [r], I', w'. cbn. rewrite ?app_nil_r in *. auto.
  - exists [], I, w. rewrite (delete_id P) by exact Ha. cbn. rewrite app_nil_r.
    split; [exact (dispatch_none wr fd I P w Hw Ha)|]. auto.
Qed.

Lemma jobs_ext P P' fds : (forall wr fd, fd ∈ fds -> P !! (wr, fd) = P' !! (wr, fd)) -> jobs P fds = jobs P' fds.
Proof.
  intros H. apply Forall_bind_ext, list.Forall_forall. intros fd Hfd. unfold at_fd. rewrite !(H _ fd Hfd). reflexivity.
Qed.

Lemma log_app js1 js2 rs1 rs2 : length rs1 = length js1 ->
  mjoin (zip_with done (js1 ++ js2) (rs1 ++ rs2)) = mjoin (zip_with done js1 rs1) ++ mjoin (zip_with done js2 rs2).
Proof. intros H. rewrite zip_with_app by auto. apply join_app. Qed.

(** Nothing is posted past [maxFd]. *)
Lemma no_jobs fd I P w : wf I P w -> (forall k, is_Some (P !! k) -> fd <= k.2) -> maxFd w < fd -> P = ∅.
Proof.
  intros Hw Hk Hgt. apply map_empty. intros [wr f]. destruct (P !! (wr, f)) as [a|] eqn:Ha; [exfalso|reflexivity].
  destruct (wf_pending _ _ _ _ _ _ Hw Ha) as (_ & Hb & _). pose proof (Hk (wr, f) (mk_is_Some _ _ Ha)). cbn in *. lia.
Qed.

Lemma jobs_empty fds : jobs ∅ fds = [].
Proof. induction fds as [|f fds IH]; [reflexivity|exact IH]. Qed.

Lemma dispatch_loop_ok fuel fd I P w : wf I P w -> 0 <= fd -> (forall k, is_Some (P !! k) -> fd <= k.2) -> FD_SETSIZE - fd <= Z.of_nat fuel ->
  exists rs I' w', dispatch_loop fuel fd w = (Ok tt, w') /\ wf I' ∅ w' /\ I ⊆ I'
    /\ length rs = length (jobs P (range fd FD_SETSIZE)) /\ transfers w' = transfers w ++ mjoin (zip_with done (jobs P (range fd FD_SETSIZE)) rs).
Proof.
  revert fd I P w. induction fuel as [|fuel IH]; intros fd I P w Hw Hf Hk Hfuel; cbn [dispatch_loop]; rewrite obj_get_bind;
    destruct (wf_max _ _ _ _ Hw) as [_ Hm]; (destruct (Z.ltb_spec (maxFd w) fd) as [Hgt|Hle]; [|try lia]).
  1, 2: pose proof (no_jobs fd I P w Hw Hk Hgt); subst P; exists [], I, w; rewrite jobs_empty; cbn; rewrite app_nil_r; auto.
  rewrite (obj_bind_val _ _ _ _ _ (fd_check_ok fd w ltac:(lia))), (range_cons fd) by lia.
  destruct (dispatch_one false fd I P w Hw) as (rs1 & I1 & w1 & E1 & Hw1 & S1 & L1 & T1).
  destruct (dispatch_one true fd I1 _ w1 Hw1) as (rs2 & I2 & w2 & E2 & Hw2 & S2 & L2 & T2).
  rewrite lookup_delete_ne in L2, T2 by congruence. cbv zeta in *.
  set (P2 := delete (true, fd) (delete (false, fd) P)) in *.
  destruct (IH (fd + 1) I2 P2 w2 Hw2 ltac:(lia)) as (rs3 & I3 & w3 & E3 & Hw3 & S3 & L3 & T3).
  { intros [wr f] [a Ha]. apply lookup_delete_Some in Ha as [H1 Ha]. apply lookup_delete_Some in Ha as [H2 Ha].
    pose proof (Hk _ (mk_is_Some _ _ Ha)). cbn in *. assert (f <> fd) by (intros ->; destruct wr; congruence). lia. }
  { lia. }
  assert (Hj : jobs P2 (range (fd + 1) FD_SETSIZE) = jobs P (range (fd + 1) FD_SETSIZE)).
  { apply jobs_ext. intros wr f Hin. apply elem_of_range in Hin. unfold P2. rewrite !lookup_delete_ne by (intros [=]; lia). reflexivity. }
  rewrite Hj in L3, T3. exists (rs1 ++ rs2 ++ rs3), I3, w3. split; [|split; [exact Hw3|split; [|split]]].
  - rewrite (obj_bind_val _ _ _ _ _ E1), (obj_bind_val _ _ _ _ _ E2). exact E3.
  - transitivity I1; [exact S1|]. transitivity I2; assumption.
  - change (jobs P (fd :: range (fd + 1) FD_SETSIZE)) with (at_fd P fd ++ jobs P (range (fd + 1) FD_SETSIZE)). unfold at_fd.
    rewrite !length_app. lia.
  - change (jobs P (fd :: range (fd + 1) FD_SETSIZE)) with (at_fd P fd ++ jobs P (range (fd + 1) FD_SETSIZE)). unfold at_fd.
    rewrite <- app_assoc, !log_app by assumption. rewrite T3, T2, T1, <- !app_assoc. reflexivity.
Qed.

(** The set of [select] is the whole set. *)
Lemma watched_all wr I P w : wf I P w -> watched w (interest wr w) = interest wr w.
Proof.
  intros Hw. apply set_eq. intros fd. unfold watched. rewrite elem_of_filter. split; [tauto|]. intros Hin. split; [|exact Hin].
  apply (wf_interest _ _ _ _ Hw) in Hin as [a Ha]. apply (wf_op _ _ _ _ Hw wr fd a). apply lookup_union_Some_l. exact Ha.
Qed.

Lemma nothing_posted I w wr : wf I ∅ w -> count wr w = 0.
Proof.
  intros Hw. rewrite (wf_count _ _ _ _ Hw). assert (posted wr w = ∅) as ->; [|reflexivity].
  apply set_eq. intros fd. rewrite (wf_posted _ _ _ _ Hw), lookup_empty. split; [intros [? [=]]|intros []%not_elem_of_empty].
Qed.

Lemma something_posted I P w : wf I P w -> (forall wr, count wr w = 0) -> P = ∅.
Proof.
  intros Hw Hc. apply map_empty. intros [wr fd]. destruct (P !! (wr, fd)) as [a|] eqn:Ha; [exfalso|reflexivity].
  specialize (Hc wr). rewrite (wf_count _ _ _ _ Hw) in Hc. assert (Hs : size (posted wr w) = 0%nat) by lia.
  apply size_empty_inv in Hs. apply (not_elem_of_empty (C := gset Z) fd), Hs. apply (wf_posted _ _ _ _ Hw). rewrite Ha. eexists. reflexivity.
Qed.

(** After [select], the operations that are ready are posted. *)
Lemma post_ready_ok I w reads writes : wf I ∅ w ->
  let ready := filter (fun p => is_ready reads writes p.1 = true) I in
  exists w', post_loop (readFdSet w ∩ reads) (writeFdSet w ∩ writes) (range 0 (maxFd w + 1)) w = (Ok tt, w')
    /\ wf (I ∖ ready) ready w' /\ maxFd w' = maxFd w /\ events w' = events w.
Proof.
  intros Hw ready. set (rs := readFdSet w ∩ reads). set (ws := writeFdSet w ∩ writes).
  assert (Hr : forall k, is_ready rs ws k = true <-> is_Some (I !! k) /\ is_ready reads writes k = true).
  { intros [wr fd]. rewrite <- (wf_interest _ _ _ _ Hw wr fd). unfold is_ready. rewrite !bool_decide_eq_true.
    destruct wr; apply elem_of_intersection. }
  destruct (post_loop_ok rs ws (range 0 (maxFd w + 1)) I ∅ w (NoDup_range _ _) Hw) as (I' & P' & w' & E & Hw' & Hs & Hm & He).
  { intros k _ Hk. apply Hr. exact Hk. }
  assert (Hmoved : forall k a, I !! k = Some a -> bool_decide (k.2 ∈ range 0 (maxFd w + 1)) && is_ready rs ws k = is_ready reads writes k).
  { intros [wr fd] a Ha. destruct (wf_op _ _ _ _ Hw wr fd a (lookup_union_Some_l _ _ _ _ Ha)) as [Hf _].
    rewrite bool_decide_true by (apply elem_of_range; cbn; lia). cbn [andb]. apply eq_true_iff_eq. rewrite Hr, Ha.
    split; [tauto|]. split; [eexists; reflexivity|assumption]. }
  assert (P' = ready) as ->.
  { apply map_eq. intros k. rewrite (proj1 (Hs k)). unfold ready. rewrite map_lookup_filter, lookup_empty.
    destruct (I !! k) as [a|] eqn:Ha; [rewrite (Hmoved k a Ha)|destruct (_ && _); reflexivity]. cbn.
    destruct (is_ready reads writes k); [rewrite option_guard_True by reflexivity|rewrite option_guard_False by discriminate]; reflexivity. }
  assert (I' = I ∖ ready) as ->; [|exists w'; auto].
  apply map_eq. intros k. rewrite (proj2 (Hs k)), lookup_difference. unfold ready. rewrite map_lookup_filter.
  destruct (I !! k) as [a|] eqn:Ha; [rewrite (Hmoved k a Ha)|destruct (_ && _); reflexivity]. cbn.
  destruct (is_ready reads writes k); [rewrite option_guard_True by reflexivity|rewrite option_guard_False by discriminate]; reflexivity.
Qed.

Lemma call_select_ok reads writes r s w : select (events w) reads writes = Some (r, s) ->
  call_select reads writes w = (Ok (reads ∩ r, writes ∩ s), w <| events := events w ++ [Select reads writes] |>).
Proof. intros E. unfold call_select, record. rewrite obj_get_bind, obj_set_bind, E. reflexivity. Qed.

(** C30. A call of [OS_DoIo]: of the operations that wait, those whose descriptor [select]
    finds ready are done, once each, in the order of the descriptors and reading before
    writing, with the result given to their procedure; the others, and those the
    procedures start meanwhile, wait for the next call, for which nothing is left posted.
    The procedures may start operations; they close no descriptor. *)
Theorem ready_once I w reads writes :
  wf I ∅ w -> select (events w) (readFdSet w) (writeFdSet w) = Some (reads, writes) ->
  let ready := filter (fun p => is_ready reads writes p.1 = true) I in
  exists rs I' w', OS_DoIo w = (Ok 0, w') /\ wf I' ∅ w' /\ I ∖ ready ⊆ I'
    /\ length rs = length (jobs ready (range 0 FD_SETSIZE))
    /\ transfers w' = transfers w ++ mjoin (zip_with done (jobs ready (range 0 FD_SETSIZE)) rs).
Proof.
  intros Hw Hsel ready. set (w0 := w <| asyncIoInUse := true |>).
  assert (Hw0 : wf I ∅ w0) by (destruct Hw; constructor; assumption).
  set (w1 := w0 <| events := events w0 ++ [Select (readFdSet w) (writeFdSet w)] |>).
  assert (Hw1 : wf I ∅ w1) by (destruct Hw; constructor; assumption).
  assert (Ht1 : transfers w1 = transfers w) by (rewrite (transfers_record _ w w1 eq_refl); apply app_nil_r).
  destruct (post_ready_ok I w1 reads writes Hw1) as (w2 & E2 & Hw2 & M2 & V2). fold ready in Hw2.
  assert (Hbegin : forall k : A Z, (_ ← (if (numRdPosted w0 =? 0) && (numWrPosted w0 =? 0) then
         '(reads, writes) ← call_select (watched w0 (readFdSet w0)) (watched w0 (writeFdSet w0));
         post_loop reads writes (range 0 (maxFd w0 + 1))
       else mret tt); k) w0 = k w2).
  { intros k. pose proof (nothing_posted I w0 false Hw0) as Nr. pose proof (nothing_posted I w0 true Hw0) as Nw. cbn [count] in Nr, Nw. rewrite Nr, Nw.
    change (readFdSet w0) with (interest false w0). change (writeFdSet w0) with (interest true w0). rewrite !(watched_all _ I ∅ w0 Hw0).
    refine (obj_bind_val _ _ _ _ _ _). cbn [andb Z.eqb]. rewrite (obj_bind_val _ _ _ _ _ (call_select_ok _ _ _ _ w0 Hsel)). exact E2. }
  assert (Ht2 : transfers w2 = transfers w) by (rewrite <- Ht1; unfold transfers; rewrite V2; reflexivity).
  unfold OS_DoIo, in_use. rewrite obj_set_bind. fold w0. rewrite obj_get_bind.
  rewrite (proj2 (Z.ltb_lt _ _)) by apply (wf_max _ _ _ _ Hw0). rewrite obj_ret_bind, Hbegin, obj_get_bind. clear Hbegin.
  destruct (_ && _) eqn:Ez.
  - apply andb_prop in Ez as [Zr%Z.eqb_eq Zw%Z.eqb_eq].
    assert (Hready : ready = ∅) by (apply (something_posted _ _ w2 Hw2); intros [|]; [exact Zw|exact Zr]). rewrite Hready in *.
    exists [], (I ∖ ∅), w2. rewrite jobs_empty. cbn. rewrite app_nil_r. auto.
  - destruct (dispatch_loop_ok (Z.to_nat FD_SETSIZE) 0 _ ready w2 Hw2 ltac:(lia)) as (rs & I' & w' & E & Hw' & Hsub & Hl & Ht).
    { intros [wr fd] [a Ha]. destruct (wf_pending _ _ _ _ _ _ Hw2 Ha) as (_ & Hf & _). cbn. lia. }
    { rewrite Z2Nat.id; unfold FD_SETSIZE; lia. }
    exists rs, I', w'. rewrite (obj_bind_val _ _ _ _ _ E), <- Ht2. auto.
Qed.
End Correct.

(** The table of a program that starts. *)
Definition initialised : Aio := (OS_LibInit at_start).2.

Lemma wf_initialised (good : bool -> AioInfo -> Prop) : wf good ∅ ∅ initialised.
Proof.
  constructor.
  - exists (replicate 16 aio_zero). split; [reflexivity|]. split; [reflexivity|]. change (16 <= 16). lia.
  - change (-1 <= -1 < 1024). lia.
  - apply map_disjoint_empty_l.
  - intros wr fd Hf. rewrite map_union_empty, lookup_empty. unfold live. change (asyncIoTable initialised) with (Some (replicate 16 aio_zero)). cbn [mbind option_bind].
    destruct (replicate 16 aio_zero !! _) as [a|] eqn:Ea; [|reflexivity]. apply lookup_replicate in Ea as [-> _]. reflexivity.
  - intros wr fd. rewrite lookup_empty. split; [destruct wr; intros []%not_elem_of_empty|intros [? [=]]].
  - intros wr fd. rewrite lookup_empty. split; [destruct wr; intros []%not_elem_of_empty|intros [? [=]]].
  - intros [|]; reflexivity.
  - intros wr fd a Ha. rewrite map_union_empty, lookup_empty in Ha. discriminate.
Qed.

(** ** Examples *)

(** Everything is ready; the procedure 1 starts the reading again at the descriptor it is
    given, the procedure 2 closes the next descriptor. *)
#[local] Instance demo_kernel : Kernel := {|
  select _ r w := Some (r, w);
  transfer _ _ _ _ n := n / 2;
  shutdown _ _ := -1;
  poll _ _ := 0;
  trash _ _ := 0;
  close _ _ := 0;
  callback p c _ :=
    if p =? 1 then _ ← OS_AsyncRead c 0 0 512 1 c; mret tt
    else if p =? 2 then _ ← cancel false (c + 1); mret tt
    else mret tt
|}.

Definition demo_good (wr : bool) (a : AioInfo) : Prop :=
  wr = false /\ procPtr a = 1 /\ clientData a = aio_fd a /\ 0 <= aio_fd a < FD_SETSIZE.

Lemma demo_callbacks : callbacks_ok demo_good.
Proof.
  constructor.
  - intros wr a (_ & Hp & _). rewrite Hp. discriminate.
  - intros wr a r I P w (-> & Hp & Hc & Hf) Hw Hn.
    destruct (OS_AsyncRead_ok demo_good (aio_fd a) 0 0 512 1 (aio_fd a) I P w Hw Hn Hf ltac:(repeat split; cbn; lia)) as (w' & E & Hw' & He).
    eexists _, w'. split; [|split; [exact Hw'|split]].
    + rewrite Hp, Hc. change (callback 1 (aio_fd a) r) with (_ ← OS_AsyncRead (aio_fd a) 0 0 512 1 (aio_fd a); (mret tt : A unit)).
      rewrite (obj_bind_val _ _ _ _ _ E). reflexivity.
    + apply lookup_union_None in Hn as [Hn _]. apply insert_subseteq. exact Hn.
    + unfold transfers. rewrite He. reflexivity.
Qed.

Lemma ready_once_witness :
  exists w w' r, OS_AsyncRead 3 0 77 512 1 3 initialised = (Ok 0, w) /\ OS_DoIo w = (Ok 0, w')
    /\ transfers w' = [Transfer false 3 77 512 r; Callout 1 3 r].
Proof.
  destruct (OS_AsyncRead_ok demo_good 3 0 77 512 1 3 ∅ ∅ initialised (wf_initialised _) eq_refl ltac:(unfold FD_SETSIZE; lia) ltac:(repeat split; cbn; unfold FD_SETSIZE; lia))
    as (w & E & Hw & He).
  assert (Hsel : readFdSet w = {[3]}) by (injection E as <-; vm_compute; reflexivity).
  destruct (ready_once demo_good demo_callbacks _ w (readFdSet w) (writeFdSet w) Hw eq_refl) as (rs & I' & w' & E' & Hw' & Hs & Hl & Ht).
  set (a := mkAioInfo 1 3 3 512 0 77 true) in *. rewrite Hsel in Hl, Ht.
  assert (Hj : jobs (filter (fun p => is_ready {[3]} (writeFdSet w) p.1 = true) (<[(false, 3) := a]> ∅)) (range 0 FD_SETSIZE) = [(false, a)]) by (injection E as <-; vm_compute; reflexivity).
  rewrite Hj in Hl, Ht. destruct rs as [|r [|]]; [discriminate Hl| |discriminate Hl].
  exists w, w', r. split; [exact E|]. split; [exact E'|]. rewrite Ht. unfold transfers. rewrite He. reflexivity.
Defined.

(** An operation that is posted and then taken back leaves its count: no later call asks
    [select], and the operations that wait are never done. *)
Lemma count_left w : maxFd w < FD_SETSIZE -> readFdSetPost w = ∅ -> writeFdSetPost w = ∅ -> numRdPosted w <> 0 -> -1 <= maxFd w ->
  OS_DoIo w = (Ok 0, w <| asyncIoInUse := true |>).
Proof.
  intros Hm Hr Hw Hn Hm0. set (w' := w <| asyncIoInUse := true |>).
  assert (Hl : forall fuel fd, 0 <= fd -> FD_SETSIZE - fd <= Z.of_nat fuel -> dispatch_loop fuel fd w' = (Ok tt, w')).
  { induction fuel as [|fuel IH]; intros fd Hf Hfuel; cbn [dispatch_loop]; rewrite obj_get_bind; change (maxFd w') with (maxFd w);
      (destruct (Z.ltb_spec (maxFd w) fd) as [|Hle]; [reflexivity|]); [lia|].
    rewrite (obj_bind_val _ _ _ _ _ (fd_check_ok fd w' ltac:(lia))).
    assert (Hd : forall wr, dispatch wr fd w' = (Ok tt, w')).
    { intros wr. unfold dispatch. rewrite obj_get_bind, bool_decide_false; [reflexivity|].
      destruct wr; [change (fd ∉ writeFdSetPost w); rewrite Hw|change (fd ∉ readFdSetPost w); rewrite Hr]; apply not_elem_of_empty. }
    rewrite !(obj_bind_val _ _ _ _ _ (Hd _)). apply IH; lia. }
  unfold OS_DoIo, in_use. rewrite obj_set_bind. fold w'. rewrite obj_get_bind. change (maxFd w') with (maxFd w).
  rewrite (proj2 (Z.ltb_lt _ _)) by exact Hm. rewrite obj_ret_bind. change (numRdPosted w') with (numRdPosted w).
  rewrite (proj2 (Z.eqb_neq _ 0)) by exact Hn. cbn [andb]. rewrite obj_ret_bind, obj_get_bind. change (numRdPosted w') with (numRdPosted w).
  rewrite (proj2 (Z.eqb_neq _ 0)) by exact Hn. cbn [andb]. rewrite (obj_bind_val _ _ _ _ _ (Hl (Z.to_nat FD_SETSIZE) 0 ltac:(lia) ltac:(unfold FD_SETSIZE; lia))). reflexivity.
Qed.

(** It happens: the procedure of 3 closes 4, which is ready too; the reading that is
    started at 5 afterwards waits for ever. *)
Definition closed_while_posted : Aio :=
  ((_ ← OS_AsyncRead 3 0 0 512 2 3; _ ← OS_AsyncRead 4 0 0 512 1 4; _ ← OS_DoIo; OS_AsyncRead 5 0 0 512 1 5) initialised).2.
Lemma posted_starves :
  bool_decide (5 ∈ readFdSet closed_while_posted) = true /\ OS_DoIo closed_while_posted = (Ok 0, closed_while_posted).
Proof.
  split; [vm_compute; reflexivity|].
  assert (E : closed_while_posted <| asyncIoInUse := true |> = closed_while_posted) by (vm_compute; reflexivity).
  rewrite count_left, E; [reflexivity| | | | |]; vm_compute; (reflexivity || discriminate).
Qed.

(** Once the table is in use, closing a descriptor that never had an operation reads
    outside it. *)
Lemma close_outside_table : (OS_Close 1 8 (initialised <| asyncIoInUse := true |>)).1 = Err (Undefined "read past buffer").
Proof. vm_compute. reflexivity. Qed.
